(* ===== verification/_CoqProject ===== *)
-Q . S2P
Prelude.v
Crc32.v
AoHeader.v
AoFormat.v
CdbHeap.v
HashFunc.v
TableIface.v
HashTable.v
DeadLock.v
Store.v
DQueue.v
Bbst.v
BbstTree.v
BbstRep.v
BbstOps.v
BbstSpec.v
BbstTraverse.v
VarBlock.v
VarBlockSpec.v
CdbHash.v
CdbHashSpec.v
ParquetBits.v
ParquetSpec.v
Bitmapset.v
BitmapsetWords.v
BitmapsetOps.v
BitmapsetQuery.v
BitmapsetSpec.v
Varlena.v
PgLz.v
PgLzHist.v
PgLzSpec.v
PgLzRound.v
HeapTuple.v
HeapTupleForm.v
HeapTupleRead.v
HeapTupleSpec.v
Toast.v
ToastRows.v
ToastValue.v
ToastSlice.v
ToastInsert.v
ToastSpec.v
MemTuple.v
MemTupleBind.v
MemTupleForm.v
MemTupleStore.v
MemTupleFill.v
MemTupleSize.v
MemTupleSpec.v
