(* ===== verification/Prelude.v ===== *)
(** * Verification of Apache HAWQ

    HAWQ is a parallel SQL engine over HDFS, derived from PostgreSQL and
    Greenplum.  A master plans queries and dispatches them; segments execute
    plan slices, exchange rows through motion nodes and store tables in
    append-only or Parquet files; a resource manager process grants memory and
    cores to sessions.  This library verifies parts of the C code that other
    parts rely on: the formats and the compression of stored data, the tuples
    rows are stored and passed in and how large values are moved out of them,
    the hash functions that place rows and index
    tables, the bitmap sets of the planner, and the containers and the deadlock
    detector of the resource manager.  Paths below are relative to [src/src/].

    ** How C is modelled

    A function is a Rocq function of the same name.  Integers are [Z] with the
    reduction to their width written out ([u8], [u32], [s32], [s64] below);
    doubles are IEEE 754 binary64.  A byte buffer is a list of bytes, accessed
    little endian at offsets.  Records linked by pointers live in a store
    ([Store.v]), a finite map from addresses, reached through a monad that
    fails when NULL or a freed pointer is followed.  [elog(ERROR)] is a value
    of [outcome].  Assertions are off, as in a production build, unless a
    definition takes [use_assert_checking].  Loops that are not structural
    carry fuel; no theorem is about a run that is out of fuel unless it says
    so, and the theorems that an operation returns a result show that the fuel
    is enough: the number of slots for the heap, the number of nodes for the
    queue and twice the nodes for the traversals of a tree, [fuel_for] of the
    number of nodes for the other loops of trees, which rebalance again above
    every rotation, the five bytes of an encoded integer, the members of a
    bitmap set, for compression the length of the source, the entries of
    the history and the longest match, and for toasting the columns of the
    tuple, the bytes of a value, and one more than the rows of the toast
    relation for a new identifier.  Where a loop can fail to end the
    theorem is about every fuel ([DeadLock.deadlock_check_may_hang],
    [ParquetSpec.varint_roundtrip]).

    ** Files

    - [Prelude]: machine integers, bit fields, byte buffers, lists, outcomes.
    - [Crc32]: include/utils/pg_crc.h and backend/utils/hash/pg_crc.c.
    - [AoHeader], [AoFormat]: the block headers of append-only tables, bit by
      bit (include/cdb/cdbappendonlystorage_int.h) and the functions that make,
      decode, verify and print them (backend/cdb/cdbappendonlystorageformat.c).
    - [VarBlock], [VarBlockSpec]: the blocks of variable-length items that are
      the content of append-only row blocks (backend/cdb/cdbvarblock.c).
    - [ParquetBits], [ParquetSpec]: the levels and booleans of Parquet pages
      (backend/cdb/cdbparquetbitstreamutil.c, cdbparquetbytepacker.c,
      cdbparquetrleencoder.c).
    - [Varlena]: the headers of variable-length values (include/postgres.h).
    - [HeapTuple] (backend/access/common/heaptuple.c, include/access/tupmacs.h,
      htup.h, heapam.h), [HeapTupleForm] (what a tuple is formed of),
      [HeapTupleRead] (what is read from it), [HeapTupleSpec]: heap tuples.
    - [Toast] (backend/access/heap/tuptoaster.c; the identifiers of
      backend/catalog/catalog.c and backend/access/transam/varsup.c),
      [ToastRows] (the rows of a toast relation and new identifiers),
      [ToastValue] (what a value stands for; storing, fetching, compressing and
      deleting it), [ToastSlice] (reading a part of it), [ToastInsert] (making a
      tuple fit), [ToastSpec]: values stored out of line.  The heap and the index
      of a toast relation are the class [ToastAM] with the laws [ToastAMLaws];
      [ToastSpec] has an instance.  A row that is deleted is marked and stays:
      a scan with [SnapshotToast] (fetches, deletions) sees it, one with
      [SnapshotDirty] (new identifiers) does not.  Operations run in a state and error monad
      over the relations and the counter of identifiers; [runs m db Q] says
      that [m] returns from [db], in a state and with a result in [Q].
    - [MemTuple] (backend/access/common/memtuple.c, include/access/memtup.h),
      [MemTupleBind] (the order of the columns, their offsets and the tables of
      the space saved by nulls), [MemTupleForm] (the place of a column and the
      size of a tuple), [MemTupleStore] (storing the columns), [MemTupleFill]
      (the header, the bitmap and the whole tuple), [MemTupleSize] (small and
      large tuples), [MemTupleSpec]: the compact tuples of append-only tables.
      Fetching values out of line uses the operations of [Toast].
    - [PgLz] (backend/utils/adt/pg_lzcompress.c), [PgLzHist] (the history table
      and its lists), [PgLzSpec] (the items and their encoding), [PgLzRound]:
      the compression of values.
    - [Bitmapset] (backend/nodes/bitmapset.c), [BitmapsetWords] (words and
      their bits), [BitmapsetOps], [BitmapsetQuery], [BitmapsetSpec]: the sets
      of integers of the planner, over the store of [Store].
    - [CdbHeap]: the binary heap of the motion layer and of merges
      (backend/cdb/cdbheap.c).
    - [HashFunc]: backend/access/hash/hashfunc.c.
    - [CdbHash], [CdbHashSpec]: the distribution of rows over segments
      (backend/cdb/cdbhash.c), as the executor routes a row
      (backend/executor/nodeMotion.c) and the planner dispatches constants
      (backend/cdb/cdbmutate.c).
    - [TableIface]: what a keyed table promises, as a class.  [HashTable]
      implements it (backend/resourcemanager/utils/hashtable.c, pair.c), and
      [DeadLock] (resqueuedeadlock.c, and the deadlock check of
      resqueuemanager.c) and the trees are proved against it.
    - [Store], [DQueue]: the linked queue (backend/resourcemanager/utils/
      linkedlist.c) over a store of nodes.
    - [Bbst] (the code of backend/resourcemanager/utils/balancedbst.c),
      [BbstTree] (trees without pointers), [BbstRep] (trees in a store),
      [BbstOps], [BbstSpec] (what the operations promise), [BbstTraverse] (the
      traversals, which use the linked queue).

    ** What the theorems show

    - Stored data reads back: C1 and C4 for append-only headers (and the lemmas
      [AoFormat.large_content_roundtrip] and [AoFormat.nonbulk_dense_roundtrip]
      for the other two kinds), C31 for blocks of items, C10, C18 and C19 for Parquet
      levels, booleans and integers, C29 for compressed values, C11 and C17 for
      tuples, C3 for memtuples, C24 for values out of line; C13 and C30 that all
      ways to read a tuple or a memtuple agree, C2 that the columns of a memtuple
      do not overlap; C8 and C9 that the decoders are exact and accept only
      blocks within their limits, C32 that a block takes an item exactly when it
      fits.
    - Large values: C33 that a tuple that is made to fit has the same row, and
      what becomes of the values of the old row; C15 what deleting a row
      deletes; C36 that all readers of a value agree, wherever it is.  These and
      C3 and C24 are about a process that is not the executor, which scans
      toast relations by their index; storing values needs identifiers that are
      not those of deleted rows ([ToastSpec.identifier_of_deleted_value] is
      what happens otherwise).  Forming tuples is an error when flattening a
      value is one or when the tuple is too large to be allocated.
    - Corruption: C5 and C6 that any change of one byte is detected by the
      checksum over it; C34 what decompression does with any bytes; C28 what a
      fetch does with any chunks.
    - Hashing: C35 that the hash of a key does not depend on its
      address or on what follows it; C37 to C40
      which values can be hashed, which equal values share a segment, that
      routing and direct dispatch agree, and that rows without a key are
      spread evenly.
    - Containers: C12 and C14 for the heap; C16 that the hash table is a
      finite map, through every growth; C23 that two queues are lists, under all
      operations but [moveDQueueNodeIn];
      C26 and C27 that the search tree is an ordered list, with the invariant it
      keeps, while no removed node is inserted again
      ([BbstTraverse.traversals_correct] for the traversals); C7, C21 and C25 that bitmap sets
      are finite sets, with their iteration, order and hash.
    - Deadlock detection: C20, what the totals are after every sequence of
      operations, in whatever state the sessions are; C22, when the check ends
      and when it never does.

    Claims that turned out not to hold of the code are theorems too, with the
    behaviour the code has; lemmas such as
    [AoFormat.large_row_number_unprotected], [DeadLock.idle_tracker_kept],
    [DQueue.move_in_breaks_queue], [BbstSpec.bbst_not_balanced],
    [BbstSpec.bbst_reinsert_faults], [VarBlockSpec.varblock_offsets_unchecked],
    [HashTable.extend_only_when_full], [ParquetSpec.wide_levels_lost],
    [BitmapsetSpec.bms_assign_null], [PgLzRound.pglz_decompress_reads_before],
    [ToastSpec.slice_of_short_chunk], [MemTupleSpec.attisnull_with_oid],
    [MemTupleSpec.mismatch_flag_inverted] and [MemTupleSpec.null_saves_overflow]
    record others.

    ** Not modelled

    Code that is I/O, process control or glue around libraries has no
    interesting function to model: the dispatcher and the interconnect, the
    file layers below the formats, HDFS and YARN access, the communication of
    the resource manager.  Code that is large and whose meaning is that of SQL
    (parser, planner, executor, catalog) would need a semantics of plans first.
    Within the files above are left out: texts of messages and reports,
    allocation of the outer records of queues and trees, the big endian hash
    and the build variants that are not compiled in ([NOT_USED], the 64-bit
    CRC, floating point timestamps), the toasting of memtuples and what is read
    from those in the unaligned format of earlier releases (their functions are
    modelled, without theorems), the flattening of composite values
    ([toast_flatten_tuple_attribute] looks up the row type in the type cache: it
    is a parameter, a function that may raise an error and otherwise returns a
    value), and transactions: of snapshots only what the two above see.
    Catalog rows, what [palloc] leaves in new memory, random numbers and
    comparison functions are parameters, and so is detoasting where the
    distribution hash uses it. *)

From Stdlib Require Import ZArith Lia.
From stdpp Require Import prelude numbers list gmap sorting.

Open Scope Z_scope.

(** Bit operations are never unfolded by [simpl]. *)
#[global] Arguments Z.shiftl : simpl never.
#[global] Arguments Z.shiftr : simpl never.
#[global] Arguments Z.land : simpl never.
#[global] Arguments Z.lor : simpl never.
#[global] Arguments Z.lxor : simpl never.
#[global] Arguments Z.testbit : simpl never.

(** [lia] with division and remainder. *)
Ltac divlia := Z.to_euclidean_division_equations; lia.

(** ** Machine integers

    A C integer is a [Z].  Arithmetic that can leave the range of its type
    is followed by the conversion to that type: [u8], [u16], [u32] reduce
    modulo the width, [s32] and [s64] pick the two's complement
    representative, which is what the supported compilers do. *)

Definition u8 (z : Z) : Z := z `mod` 2 ^ 8.
Definition u16 (z : Z) : Z := z `mod` 2 ^ 16.
Definition u32 (z : Z) : Z := z `mod` 2 ^ 32.
Definition s32 (z : Z) : Z := (z + 2 ^ 31) `mod` 2 ^ 32 - 2 ^ 31.
Definition s64 (z : Z) : Z := (z + 2 ^ 63) `mod` 2 ^ 64 - 2 ^ 63.

Lemma u32_id z : 0 ≤ z < 2 ^ 32 → u32 z = z.
Proof. intros H. unfold u32. by apply Z.mod_small. Qed.

Lemma u32_range z : 0 ≤ u32 z < 2 ^ 32.
Proof. unfold u32. apply Z.mod_pos_bound. lia. Qed.

Lemma s32_id z : - 2 ^ 31 ≤ z < 2 ^ 31 → s32 z = z.
Proof. intros H. unfold s32. rewrite Z.mod_small; lia. Qed.

Lemma s64_id z : - 2 ^ 63 ≤ z < 2 ^ 63 → s64 z = z.
Proof. intros H. unfold s64. rewrite Z.mod_small; lia. Qed.

Lemma s64_mod z : s64 (z `mod` 2 ^ 64) = s64 z.
Proof.
  unfold s64. f_equal. rewrite Z.add_mod_idemp_l by lia. done.
Qed.

(** Equality modulo the width: reductions inside sums and differences can be
    dropped by rewriting with [eq32_u32]. *)
Definition eq32 (x y : Z) : Prop := u32 x = u32 y.

#[export] Instance eq32_equiv : Equivalence eq32.
Proof. split; unfold eq32; congruence. Qed.

#[export] Instance eq32_add : Proper (eq32 ==> eq32 ==> eq32) Z.add.
Proof.
  unfold eq32, u32. intros x x' Hx y y' Hy. rewrite Z.add_mod, Hx, Hy by lia.
  by rewrite <- Z.add_mod by lia.
Qed.

#[export] Instance eq32_sub : Proper (eq32 ==> eq32 ==> eq32) Z.sub.
Proof.
  unfold eq32, u32. intros x x' Hx y y' Hy. rewrite Zminus_mod, Hx, Hy.
  by rewrite <- Zminus_mod.
Qed.

#[export] Instance eq32_mul : Proper (eq32 ==> eq32 ==> eq32) Z.mul.
Proof.
  unfold eq32, u32. intros x x' Hx y y' Hy. rewrite Z.mul_mod, Hx, Hy by lia.
  by rewrite <- Z.mul_mod by lia.
Qed.

Lemma eq32_u32 x : eq32 (u32 x) x.
Proof. unfold eq32, u32. apply Z.mod_mod. lia. Qed.

(** Two reduced sums are equal when the sums without inner reductions are. *)
Ltac u32_sum :=
  match goal with |- u32 ?x = u32 ?y => change (eq32 x y) end;
  rewrite ?eq32_u32; unfold eq32; f_equal.

(** ** Bit fields

    [field_get lo w x] is the [w]-bit field of [x] at bit [lo];
    [field_put lo w e] is a word whose only set bits are the low [w] bits of
    [e], moved to bit [lo].  The header macros of the storage formats are
    masks and shifts that the lemmas below turn into these two. *)

Definition field_get (lo w x : Z) : Z := Z.land (Z.shiftr x lo) (Z.ones w).
Definition field_put (lo w e : Z) : Z := Z.shiftl (Z.land e (Z.ones w)) lo.

Lemma field_get_spec lo w x i :
  0 ≤ lo → 0 ≤ w → 0 ≤ i →
  Z.testbit (field_get lo w x) i = Z.testbit x (i + lo) && (i <? w).
Proof.
  intros. unfold field_get. rewrite Z.land_spec, Z.shiftr_spec by lia.
  f_equal. destruct (Z.ltb_spec i w).
  - by rewrite Z.ones_spec_low by lia.
  - by rewrite Z.ones_spec_high by lia.
Qed.

Lemma field_put_spec lo w e i :
  0 ≤ lo → 0 ≤ w → 0 ≤ i →
  Z.testbit (field_put lo w e) i =
    (lo <=? i) && (i <? lo + w) && Z.testbit e (i - lo).
Proof.
  intros. unfold field_put. rewrite Z.shiftl_spec, Z.land_spec by lia.
  destruct (Z.leb_spec lo i); simpl.
  2: { rewrite !Z.testbit_neg_r by lia. done. }
  destruct (Z.ltb_spec i (lo + w)); simpl.
  - rewrite Z.ones_spec_low by lia. by rewrite andb_true_r.
  - rewrite Z.ones_spec_high by lia. by rewrite andb_false_r.
Qed.

Lemma field_get_range lo w x : 0 ≤ w → 0 ≤ field_get lo w x < 2 ^ w.
Proof.
  intros. unfold field_get. rewrite Z.land_ones by lia.
  apply Z.mod_pos_bound. lia.
Qed.

Lemma mask_get lo w x :
  0 ≤ lo → 0 ≤ w →
  Z.shiftr (Z.land x (Z.shiftl (Z.ones w) lo)) lo = field_get lo w x.
Proof.
  intros. unfold field_get. rewrite Z.shiftr_land. f_equal.
  rewrite Z.shiftr_shiftl_l, Z.sub_diag by lia. apply Z.shiftl_0_r.
Qed.

Lemma mask_get0 w x : Z.land x (Z.ones w) = field_get 0 w x.
Proof. unfold field_get. by rewrite Z.shiftr_0_r. Qed.

Lemma u32_spec z i : 0 ≤ i → Z.testbit (u32 z) i = (i <? 32) && Z.testbit z i.
Proof.
  intros. unfold u32. destruct (Z.ltb_spec i 32); simpl.
  - by rewrite Z.mod_pow2_bits_low by lia.
  - by rewrite Z.mod_pow2_bits_high by lia.
Qed.

Lemma mask_put lo w e :
  0 ≤ lo → 0 ≤ w → lo + w ≤ 32 →
  Z.land (Z.shiftl (Z.ones w) lo) (u32 (Z.shiftl e lo)) = field_put lo w e.
Proof.
  intros. apply Z.bits_inj'. intros i Hi.
  rewrite Z.land_spec, u32_spec, field_put_spec, !Z.shiftl_spec by lia.
  destruct (Z.leb_spec lo i); simpl.
  2: { by rewrite Z.testbit_neg_r by lia. }
  destruct (Z.ltb_spec i (lo + w)); simpl.
  - rewrite Z.ones_spec_low by lia.
    by rewrite (proj2 (Z.ltb_lt i 32)) by lia.
  - by rewrite Z.ones_spec_high by lia.
Qed.

Lemma mask_put0 w e : 0 ≤ w → Z.land (Z.ones w) e = field_put 0 w e.
Proof. intros. unfold field_put. by rewrite Z.shiftl_0_r, Z.land_comm. Qed.

Lemma field_put_range lo w e :
  0 ≤ lo → 0 ≤ w → 0 ≤ field_put lo w e < 2 ^ (lo + w).
Proof.
  intros. unfold field_put. rewrite Z.shiftl_mul_pow2, Z.land_ones by lia.
  pose proof (Z.mod_pos_bound e (2 ^ w)). rewrite Z.pow_add_r by lia. nia.
Qed.

(** [0 ≤ x < 2 ^ n] is "no bit at or above [n]". *)
Lemma range_testbit x n i : 0 ≤ x < 2 ^ n → n ≤ i → Z.testbit x i = false.
Proof.
  intros Hx Hi. destruct (Z.ltb_spec n 0).
  { rewrite Z.pow_neg_r in Hx by lia. lia. }
  rewrite <- (Z.mod_small x (2 ^ n)) by done.
  apply Z.mod_pow2_bits_high. lia.
Qed.

Lemma testbit_range x n : 0 ≤ n →
  (∀ i, n ≤ i → Z.testbit x i = false) → 0 ≤ x < 2 ^ n.
Proof.
  intros Hn Hb. replace x with (x `mod` 2 ^ n).
  { apply Z.mod_pos_bound. lia. }
  apply Z.bits_inj'. intros i Hi. destruct (Z.ltb_spec i n).
  - by rewrite Z.mod_pow2_bits_low by lia.
  - rewrite Z.mod_pow2_bits_high by lia. symmetry. by apply Hb.
Qed.

Lemma lor_range x y n :
  0 ≤ n → 0 ≤ x < 2 ^ n → 0 ≤ y < 2 ^ n → 0 ≤ Z.lor x y < 2 ^ n.
Proof.
  intros. apply testbit_range; [done|]. intros i Hi.
  by rewrite Z.lor_spec, (range_testbit x n), (range_testbit y n).
Qed.

(** A value below bit [n] and one moved to bit [n] do not overlap. *)
Lemma lor_shiftl_add x y n :
  0 ≤ n → 0 ≤ x < 2 ^ n → Z.lor x (Z.shiftl y n) = x + Z.shiftl y n.
Proof.
  intros Hn Hx. assert (Hd : Z.land x (Z.shiftl y n) = 0).
  { apply Z.bits_inj'. intros i Hi. rewrite Z.land_spec, Z.testbit_0_l.
    destruct (Z.ltb_spec i n).
    - rewrite Z.shiftl_spec_low by lia. apply andb_false_r.
    - by rewrite (range_testbit x n). }
  by rewrite <- Z.lxor_lor, <- Z.add_nocarry_lxor.
Qed.

(** Rewriting to bits: [bits] is the database of the bit-level
    specifications; [decide_bools] evaluates the comparisons that [lia]
    settles; [field_solve] proves an equality of words built from fields. *)
Create Rewrite HintDb bits.
#[export] Hint Rewrite
  Z.lor_spec Z.land_spec Z.shiftl_spec Z.shiftr_spec Z.testbit_0_l
  field_get_spec field_put_spec u32_spec using lia : bits.

Ltac decide_bools :=
  repeat match goal with
  | |- context [?a <=? ?b] =>
      first [ rewrite (proj2 (Z.leb_le a b)) by lia
            | rewrite (proj2 (Z.leb_gt a b)) by lia ]
  | |- context [?a <? ?b] =>
      first [ rewrite (proj2 (Z.ltb_lt a b)) by lia
            | rewrite (proj2 (Z.ltb_ge a b)) by lia ]
  | |- context [?a =? ?b] =>
      first [ rewrite (proj2 (Z.eqb_eq a b)) by lia
            | rewrite (proj2 (Z.eqb_neq a b)) by lia ]
  end;
  rewrite ?andb_true_r, ?andb_false_r, ?andb_true_l, ?andb_false_l,
    ?orb_true_r, ?orb_false_r, ?orb_true_l, ?orb_false_l.

(** Clear the bits of [x] above its width, for the hypotheses
    [0 ≤ x < 2 ^ n] (or a literal bound) in the context. *)
Ltac high_bits :=
  repeat match goal with
  | H : 0 ≤ ?x < 2 ^ ?n |- context [Z.testbit ?x ?i] =>
      rewrite (range_testbit x n i H) by lia
  end.

(** [split_at w i]: cases [i < w] and [w ≤ i] of a bit index. *)
Ltac split_at w i := destruct (Z.ltb_spec i w).

Ltac field_solve w :=
  apply Z.bits_inj'; intros i Hi; split_at w i;
  autorewrite with bits; decide_bools; high_bits; decide_bools;
  try (f_equal; lia); try done.

Lemma field_get_put lo w e :
  0 ≤ lo → 0 ≤ e < 2 ^ w → field_get lo w (field_put lo w e) = e.
Proof.
  intros Hlo He. destruct (Z.ltb_spec w 0).
  { rewrite Z.pow_neg_r in He by lia. lia. }
  field_solve w.
Qed.

Lemma field_get_put_other lo w lo' w' e :
  0 ≤ lo → 0 ≤ w → 0 ≤ lo' → 0 ≤ w' → lo + w ≤ lo' ∨ lo' + w' ≤ lo →
  field_get lo w (field_put lo' w' e) = 0.
Proof.
  intros. apply Z.bits_inj'. intros i Hi. autorewrite with bits.
  destruct (Z.ltb_spec i w), (Z.leb_spec lo' (i + lo)),
    (Z.ltb_spec (i + lo) (lo' + w')); simpl; rewrite ?andb_false_r; done || lia.
Qed.

Lemma field_get_lor lo w x y :
  field_get lo w (Z.lor x y) = Z.lor (field_get lo w x) (field_get lo w y).
Proof. unfold field_get. by rewrite Z.shiftr_lor, Z.land_lor_distr_l. Qed.

Lemma field_get_0 lo w : field_get lo w 0 = 0.
Proof. unfold field_get. by rewrite Z.shiftr_0_l. Qed.

(** Normalise a field of a word built by [Z.lor] of [field_put]s. *)
Ltac field_simpl :=
  rewrite ?field_get_lor, ?field_get_0;
  repeat first
    [ rewrite field_get_put by lia
    | rewrite field_get_put_other by lia ];
  rewrite ?Z.lor_0_l, ?Z.lor_0_r.

(** ** Byte buffers

    A C byte buffer is the list of its bytes.  Multi-byte accesses are
    little endian, the byte order of every platform HAWQ is built for.  An
    access outside the buffer is undefined in C: a write there is dropped
    and a read there yields the bytes that exist, and every theorem that
    depends on an access states that it is in bounds. *)

Definition is_byte (b : Z) : Prop := 0 ≤ b < 2 ^ 8.

Definition slice (off n : Z) (b : list Z) : list Z :=
  take (Z.to_nat n) (drop (Z.to_nat off) b).

Lemma slice_slice off n k m b :
  0 ≤ off → 0 ≤ k → 0 ≤ m → k + m ≤ n → slice k m (slice off n b) = slice (off + k) m b.
Proof.
  intros. unfold slice. rewrite skipn_firstn_comm, take_take, drop_drop.
  f_equal; [lia|]. f_equal. lia.
Qed.

Definition memcpy (b : list Z) (off : Z) (src : list Z) : list Z :=
  list_inserts (Z.to_nat off) src b.

Definition rd (n off : Z) (b : list Z) : Z :=
  little_endian_to_Z 8 (slice off n b).

Definition wr (n off v : Z) (b : list Z) : list Z :=
  memcpy b off (Z_to_little_endian n 8 v).

Definition blen (b : list Z) : Z := Z.of_nat (length b).

Abbreviation rd_u32 := (rd 4).
Abbreviation wr_u32 := (wr 4).
Definition rd_i64 (off : Z) (b : list Z) : Z := s64 (rd 8 off b).
Abbreviation wr_i64 := (wr 8).

Lemma length_le_bytes n v :
  0 ≤ n → length (Z_to_little_endian n 8 v) = Z.to_nat n.
Proof. intros. pose proof (length_Z_to_little_endian n 8 v). lia. Qed.

Lemma blen_nonneg b : 0 ≤ blen b.
Proof. unfold blen. lia. Qed.

Lemma blen_nil : blen [] = 0.
Proof. done. Qed.

Lemma blen_cons x b : blen (x :: b) = 1 + blen b.
Proof. unfold blen. cbn [length]. lia. Qed.

Lemma blen_take n (b : list Z) : 0 ≤ n ≤ blen b → blen (take (Z.to_nat n) b) = n.
Proof. intros. unfold blen in *. rewrite length_take. lia. Qed.

Lemma blen_app a b : blen (a ++ b) = blen a + blen b.
Proof. unfold blen. rewrite length_app. lia. Qed.

Lemma length_memcpy b off src : length (memcpy b off src) = length b.
Proof. apply length_inserts. Qed.

Lemma memcpy_alt b off src :
  0 ≤ off → off + Z.of_nat (length src) ≤ blen b →
  memcpy b off src = take (Z.to_nat off) b ++ src ++ drop (Z.to_nat off + length src) b.
Proof.
  intros H0 Hb. unfold memcpy. assert (Hl : (Z.to_nat off + length src ≤ length b)%nat)
    by (unfold blen in Hb; lia). clear H0 Hb.
  revert Hl. generalize (Z.to_nat off) as i. clear off.
  induction src as [|x src IH]; intros i Hl; cbn [length] in *.
  { rewrite Nat.add_0_r. cbn. by rewrite take_drop. }
  cbn [list_inserts]. rewrite IH by lia.
  rewrite insert_take_drop by (rewrite !length_app, length_take; lia).
  rewrite take_app_le by (rewrite length_take; lia). rewrite take_take, Nat.min_l by lia.
  rewrite drop_app_ge by (rewrite length_take; lia). rewrite length_take, Nat.min_l by lia.
  by rewrite Nat.sub_diag, drop_0, Nat.add_succ_comm.
Qed.

Lemma blen_memcpy b off src : blen (memcpy b off src) = blen b.
Proof. unfold blen. by rewrite length_memcpy. Qed.

Lemma blen_wr n off v b : blen (wr n off v b) = blen b.
Proof. apply blen_memcpy. Qed.

Lemma slice_lookup off n b (i : nat) :
  0 ≤ off → Z.of_nat i < n → slice off n b !! i = b !! (Z.to_nat off + i)%nat.
Proof.
  intros. unfold slice. rewrite lookup_take_lt by lia. by rewrite lookup_drop.
Qed.

Lemma length_slice off n b :
  0 ≤ off → 0 ≤ n → off + n ≤ blen b → length (slice off n b) = Z.to_nat n.
Proof.
  unfold slice, blen. intros. rewrite length_take, length_drop. lia.
Qed.

Lemma slice_memcpy_same b off n src :
  0 ≤ off → n = Z.of_nat (length src) → off + n ≤ blen b →
  slice off n (memcpy b off src) = src.
Proof.
  intros Hoff -> Hb. apply list_eq. intros i.
  destruct (decide (i < length src)%nat) as [Hi|Hi].
  - rewrite slice_lookup by lia. unfold memcpy, blen in *.
    rewrite list_lookup_inserts by lia. f_equal. lia.
  - rewrite !lookup_ge_None_2; [done|lia|].
    unfold slice. rewrite length_take. lia.
Qed.

Lemma slice_memcpy_disj b off off' n src :
  0 ≤ off → 0 ≤ off' → 0 ≤ n →
  off + n ≤ off' ∨ off' + Z.of_nat (length src) ≤ off →
  slice off n (memcpy b off' src) = slice off n b.
Proof.
  intros Hoff Hoff' Hn Hd. apply list_eq. intros i.
  destruct (decide (Z.of_nat i < n)).
  - rewrite !slice_lookup by lia. unfold memcpy. destruct Hd.
    + by rewrite list_lookup_inserts_lt by lia.
    + by rewrite list_lookup_inserts_ge by lia.
  - rewrite !lookup_ge_None_2; [done| |]; unfold slice; rewrite length_take; lia.
Qed.

Lemma rd_wr_same n off v b :
  0 ≤ off → 0 ≤ n → off + n ≤ blen b → rd n off (wr n off v b) = v `mod` 2 ^ (n * 8).
Proof.
  intros. unfold rd, wr.
  rewrite slice_memcpy_same; [| lia | rewrite length_le_bytes; lia | done].
  by rewrite little_endian_to_Z_to_little_endian by lia.
Qed.

Lemma rd_wr_disj n off m off' v b :
  0 ≤ off → 0 ≤ n → 0 ≤ off' → 0 ≤ m →
  off + n ≤ off' ∨ off' + m ≤ off → rd n off (wr m off' v b) = rd n off b.
Proof.
  intros. unfold rd, wr. rewrite slice_memcpy_disj; [done|lia..|].
  rewrite length_le_bytes by lia. lia.
Qed.

Lemma slice_wr_disj n off m off' v b :
  0 ≤ off → 0 ≤ n → 0 ≤ off' → 0 ≤ m →
  off + n ≤ off' ∨ off' + m ≤ off → slice off n (wr m off' v b) = slice off n b.
Proof.
  intros. unfold wr. rewrite slice_memcpy_disj; [done|lia..|].
  rewrite length_le_bytes by lia. lia.
Qed.

Lemma rd_u32_wr off v b :
  0 ≤ off → off + 4 ≤ blen b → rd_u32 off (wr_u32 off v b) = u32 v.
Proof. intros. by rewrite rd_wr_same by lia. Qed.

Lemma rd_i64_wr off v b :
  0 ≤ off → off + 8 ≤ blen b → rd_i64 off (wr_i64 off v b) = s64 v.
Proof.
  intros. unfold rd_i64. rewrite rd_wr_same by lia. apply s64_mod.
Qed.

Lemma bytes_wr n off v b :
  0 ≤ n → Forall is_byte b → Forall is_byte (wr n off v b).
Proof.
  intros Hn Hb. apply Forall_inserts; [done|].
  by apply Z_to_little_endian_bound.
Qed.

Lemma rd_range n off b :
  0 ≤ n → Forall is_byte b → 0 ≤ rd n off b < 2 ^ (n * 8).
Proof.
  intros Hn Hb. unfold rd.
  assert (Hs : Forall is_byte (slice off n b))
    by (unfold slice; by apply Forall_take, Forall_drop).
  assert (Hl : Z.of_nat (length (slice off n b)) ≤ n)
    by (unfold slice; rewrite length_take; lia).
  pose proof (little_endian_to_Z_bound 8 (slice off n b)) as Hle.
  specialize (Hle ltac:(lia) Hs).
  pose proof (Z.pow_le_mono_r 2 (Z.of_nat (length (slice off n b)) * 8) (n * 8)).
  lia.
Qed.

(** Changing one byte. *)
Lemma slice_insert_out off n b (i : nat) y :
  0 ≤ off → 0 ≤ n → Z.of_nat i < off ∨ off + n ≤ Z.of_nat i →
  slice off n (<[i:=y]> b) = slice off n b.
Proof.
  intros Ho Hn Hi. apply list_eq. intros j. destruct (decide (Z.of_nat j < n)).
  - rewrite !slice_lookup by lia. by rewrite list_lookup_insert_ne by lia.
  - rewrite !lookup_ge_None_2; [done| |]; unfold slice; rewrite length_take; lia.
Qed.

Lemma slice_insert_in off n b (i : nat) y :
  0 ≤ off → off ≤ Z.of_nat i < off + n →
  slice off n (<[i:=y]> b) = <[(i - Z.to_nat off)%nat:=y]> (slice off n b).
Proof.
  intros Ho Hi. unfold slice. rewrite drop_insert_ge by lia.
  rewrite take_insert_lt by lia. done.
Qed.

Lemma slice_0 off b : slice off 0 b = [].
Proof. done. Qed.

(** Reads of bytes are injective: equal values, equal bytes. *)
Lemma rd_inj n off b b' :
  0 ≤ off → 0 ≤ n → off + n ≤ blen b → off + n ≤ blen b' →
  Forall is_byte b → Forall is_byte b' →
  rd n off b = rd n off b' → slice off n b = slice off n b'.
Proof.
  intros Ho Hn Hb Hb' Hy Hy' E. unfold rd in E.
  apply (f_equal (Z_to_little_endian n 8)) in E.
  assert (Hs : ∀ c, Forall is_byte c → Forall is_byte (slice off n c))
    by (intros c Hc; unfold slice; by apply Forall_take, Forall_drop).
  rewrite !Z_to_little_endian_to_Z in E; try done; try by apply Hs.
  all: rewrite length_slice by done; lia.
Qed.

Lemma rd_insert_ne n off b (i : nat) x y :
  0 ≤ off → off ≤ Z.of_nat i < off + n → off + n ≤ blen b →
  Forall is_byte b → is_byte y → b !! i = Some x → x ≠ y →
  rd n off (<[i:=y]> b) ≠ rd n off b.
Proof.
  intros Ho Hi Hb Hy Hy' Hx Hne E. apply Hne.
  apply rd_inj in E; [| |lia|..]; try done; [|unfold blen in *; rewrite length_insert; lia
    |by apply Forall_insert].
  apply (f_equal (.!! (i - Z.to_nat off)%nat)) in E.
  rewrite !slice_lookup in E by lia.
  replace (Z.to_nat off + (i - Z.to_nat off))%nat with i in E by lia.
  rewrite list_lookup_insert_eq, Hx in E by (by eapply lookup_lt_Some). by simplify_eq.
Qed.

(** Normalise reads of a buffer after writes, the side conditions by
    [lia]. *)
Ltac buf_simpl :=
  unfold rd_i64;
  repeat first
    [ rewrite rd_wr_same by (rewrite ?blen_wr; lia)
    | rewrite rd_wr_disj by lia
    | rewrite slice_wr_disj by lia ];
  rewrite ?blen_wr.

(** ** Lists updated at an index *)

Lemma insert_lookup_dec {A} (l : list A) i x k :
  (i < length l)%nat → <[i:=x]> l !! k = if decide (k = i) then Some x else l !! k.
Proof.
  intros. case_decide; subst.
  - by rewrite list_lookup_insert_eq.
  - by rewrite list_lookup_insert_ne.
Qed.

Lemma list_delete_insert_eq {A} (l : list A) i y : delete i (<[i:=y]> l) = delete i l.
Proof.
  apply list_eq. intros k. destruct (decide (k < i)%nat).
  - by rewrite !list_lookup_delete_lt, list_lookup_insert_ne by lia.
  - by rewrite !list_lookup_delete_ge, list_lookup_insert_ne by lia.
Qed.

Lemma insert_delete_perm {A} (l : list A) i x :
  (i < length l)%nat → <[i:=x]> l ≡ₚ x :: delete i l.
Proof.
  intros Hi. rewrite (delete_Permutation (<[i:=x]> l) i x)
    by (by apply list_lookup_insert_eq). by rewrite list_delete_insert_eq.
Qed.

Lemma insert_perm {A} (l : list A) i x y :
  l !! i = Some x → x :: <[i:=y]> l ≡ₚ y :: l.
Proof.
  intros Hi. pose proof (lookup_lt_Some _ _ _ Hi).
  rewrite insert_delete_perm by done. rewrite Permutation_swap.
  by rewrite (delete_Permutation l i x) at 2.
Qed.

Lemma list_find_ext_elem {A} (P Q : A → Prop) `{∀ x, Decision (P x)}
    `{∀ x, Decision (Q x)} (l : list A) :
  (∀ x, x ∈ l → P x ↔ Q x) → list_find P l = list_find Q l.
Proof.
  induction l as [|x l IH]; intros HPQ; [done|]. simpl.
  rewrite (decide_ext (P x) (Q x)) by (apply HPQ; set_solver).
  rewrite IH by (intros; apply HPQ; set_solver). done.
Qed.

Lemma filter_ext_in {A} (P Q : A → Prop) `{∀ x, Decision (P x)} `{∀ x, Decision (Q x)}
    (l : list A) :
  (∀ x, x ∈ l → P x ↔ Q x) → filter P l = filter Q l.
Proof.
  induction l as [|x l IH]; intros HPQ; [done|]. rewrite !filter_cons.
  rewrite IH by (intros; apply HPQ; set_solver).
  rewrite (decide_ext (P x) (Q x)) by (apply HPQ; set_solver). done.
Qed.

Lemma filter_all {A} (P : A → Prop) `{∀ x, Decision (P x)} (l : list A) :
  (∀ x, x ∈ l → P x) → filter P l = l.
Proof.
  induction l as [|x l IH]; intros HP; [done|]. rewrite filter_cons, decide_True by (apply HP; set_solver).
  f_equal. apply IH. intros y Hy. apply HP. set_solver.
Qed.

Lemma seqZ_sorted m n : StronglySorted Z.lt (seqZ m n).
Proof.
  destruct (decide (0 ≤ n)) as [Hn|]; [|by rewrite seqZ_nil by lia; constructor].
  rewrite <- (Z2Nat.id n) by done. generalize (Z.to_nat n). clear. intros n.
  revert m. induction n as [|n IH]; intros m; [constructor|].
  rewrite seqZ_cons by lia. replace (Z.pred (Z.of_nat (S n))) with (Z.of_nat n) by lia.
  constructor; [apply IH|]. apply Forall_forall. intros x Hx%elem_of_seqZ. lia.
Qed.

(** ** Outcomes

    [elog(ERROR, ...)] and [ereport(ERROR, ...)] do not return: they unwind
    to the caller's handler.  A function that can raise one has an
    [outcome]. *)

Inductive outcome (A : Type) : Type :=
  | Return (a : A)
  | ElogError.
Arguments Return {A} a.
Arguments ElogError {A}.

Definition outcome_bind {A B} (o : outcome A) (f : A → outcome B) : outcome B :=
  match o with
  | Return a => f a
  | ElogError => ElogError
  end.

Declare Scope hawq_scope.
Delimit Scope hawq_scope with hawq.
Notation "'let*' x ':=' o 'in' k" := (outcome_bind o (fun x => k))
  (at level 10, x pattern, o at level 100, k at level 200) : hawq_scope.

(** Injectivity as a lemma: the components are left as they are. *)
Lemma return_pair_inj {A B} (e : A) (x y : B) : Return (e, x) = Return (e, y) → x = y.
Proof. by intros [= ->]. Qed.
