(* ===== verification/Crc32.v ===== *)
(** * The CRC of append-only blocks (utils/pg_crc.h, utils/hash/pg_crc.c)

    [COMP_CRC32] feeds bytes, one table lookup each, into a 32-bit register.
    Beside the code this file proves what the append-only format relies on:
    one step of the register is injective in the register and in the byte,
    so two byte strings that differ in one byte never have the same CRC.

    The table is the one of the reflected CRC-32 algorithm, while the loop is
    the unreflected one; [table_is_reflected] states it and the injectivity
    proof shows that single-byte detection survives it. *)

From Stdlib Require Import ZArith Lia.
From stdpp Require Import prelude numbers list.
From S2P Require Import Prelude.

Open Scope Z_scope.

Definition pg_crc32_table : list Z :=
  [0x00000000; 0x77073096; 0xEE0E612C; 0x990951BA; 0x076DC419;
   0x706AF48F; 0xE963A535; 0x9E6495A3; 0x0EDB8832; 0x79DCB8A4;
   0xE0D5E91E; 0x97D2D988; 0x09B64C2B; 0x7EB17CBD; 0xE7B82D07;
   0x90BF1D91; 0x1DB71064; 0x6AB020F2; 0xF3B97148; 0x84BE41DE;
   0x1ADAD47D; 0x6DDDE4EB; 0xF4D4B551; 0x83D385C7; 0x136C9856;
   0x646BA8C0; 0xFD62F97A; 0x8A65C9EC; 0x14015C4F; 0x63066CD9;
   0xFA0F3D63; 0x8D080DF5; 0x3B6E20C8; 0x4C69105E; 0xD56041E4;
   0xA2677172; 0x3C03E4D1; 0x4B04D447; 0xD20D85FD; 0xA50AB56B;
   0x35B5A8FA; 0x42B2986C; 0xDBBBC9D6; 0xACBCF940; 0x32D86CE3;
   0x45DF5C75; 0xDCD60DCF; 0xABD13D59; 0x26D930AC; 0x51DE003A;
   0xC8D75180; 0xBFD06116; 0x21B4F4B5; 0x56B3C423; 0xCFBA9599;
   0xB8BDA50F; 0x2802B89E; 0x5F058808; 0xC60CD9B2; 0xB10BE924;
   0x2F6F7C87; 0x58684C11; 0xC1611DAB; 0xB6662D3D; 0x76DC4190;
   0x01DB7106; 0x98D220BC; 0xEFD5102A; 0x71B18589; 0x06B6B51F;
   0x9FBFE4A5; 0xE8B8D433; 0x7807C9A2; 0x0F00F934; 0x9609A88E;
   0xE10E9818; 0x7F6A0DBB; 0x086D3D2D; 0x91646C97; 0xE6635C01;
   0x6B6B51F4; 0x1C6C6162; 0x856530D8; 0xF262004E; 0x6C0695ED;
   0x1B01A57B; 0x8208F4C1; 0xF50FC457; 0x65B0D9C6; 0x12B7E950;
   0x8BBEB8EA; 0xFCB9887C; 0x62DD1DDF; 0x15DA2D49; 0x8CD37CF3;
   0xFBD44C65; 0x4DB26158; 0x3AB551CE; 0xA3BC0074; 0xD4BB30E2;
   0x4ADFA541; 0x3DD895D7; 0xA4D1C46D; 0xD3D6F4FB; 0x4369E96A;
   0x346ED9FC; 0xAD678846; 0xDA60B8D0; 0x44042D73; 0x33031DE5;
   0xAA0A4C5F; 0xDD0D7CC9; 0x5005713C; 0x270241AA; 0xBE0B1010;
   0xC90C2086; 0x5768B525; 0x206F85B3; 0xB966D409; 0xCE61E49F;
   0x5EDEF90E; 0x29D9C998; 0xB0D09822; 0xC7D7A8B4; 0x59B33D17;
   0x2EB40D81; 0xB7BD5C3B; 0xC0BA6CAD; 0xEDB88320; 0x9ABFB3B6;
   0x03B6E20C; 0x74B1D29A; 0xEAD54739; 0x9DD277AF; 0x04DB2615;
   0x73DC1683; 0xE3630B12; 0x94643B84; 0x0D6D6A3E; 0x7A6A5AA8;
   0xE40ECF0B; 0x9309FF9D; 0x0A00AE27; 0x7D079EB1; 0xF00F9344;
   0x8708A3D2; 0x1E01F268; 0x6906C2FE; 0xF762575D; 0x806567CB;
   0x196C3671; 0x6E6B06E7; 0xFED41B76; 0x89D32BE0; 0x10DA7A5A;
   0x67DD4ACC; 0xF9B9DF6F; 0x8EBEEFF9; 0x17B7BE43; 0x60B08ED5;
   0xD6D6A3E8; 0xA1D1937E; 0x38D8C2C4; 0x4FDFF252; 0xD1BB67F1;
   0xA6BC5767; 0x3FB506DD; 0x48B2364B; 0xD80D2BDA; 0xAF0A1B4C;
   0x36034AF6; 0x41047A60; 0xDF60EFC3; 0xA867DF55; 0x316E8EEF;
   0x4669BE79; 0xCB61B38C; 0xBC66831A; 0x256FD2A0; 0x5268E236;
   0xCC0C7795; 0xBB0B4703; 0x220216B9; 0x5505262F; 0xC5BA3BBE;
   0xB2BD0B28; 0x2BB45A92; 0x5CB36A04; 0xC2D7FFA7; 0xB5D0CF31;
   0x2CD99E8B; 0x5BDEAE1D; 0x9B64C2B0; 0xEC63F226; 0x756AA39C;
   0x026D930A; 0x9C0906A9; 0xEB0E363F; 0x72076785; 0x05005713;
   0x95BF4A82; 0xE2B87A14; 0x7BB12BAE; 0x0CB61B38; 0x92D28E9B;
   0xE5D5BE0D; 0x7CDCEFB7; 0x0BDBDF21; 0x86D3D2D4; 0xF1D4E242;
   0x68DDB3F8; 0x1FDA836E; 0x81BE16CD; 0xF6B9265B; 0x6FB077E1;
   0x18B74777; 0x88085AE6; 0xFF0F6A70; 0x66063BCA; 0x11010B5C;
   0x8F659EFF; 0xF862AE69; 0x616BFFD3; 0x166CCF45; 0xA00AE278;
   0xD70DD2EE; 0x4E048354; 0x3903B3C2; 0xA7672661; 0xD06016F7;
   0x4969474D; 0x3E6E77DB; 0xAED16A4A; 0xD9D65ADC; 0x40DF0B66;
   0x37D83BF0; 0xA9BCAE53; 0xDEBB9EC5; 0x47B2CF7F; 0x30B5FFE9;
   0xBDBDF21C; 0xCABAC28A; 0x53B39330; 0x24B4A3A6; 0xBAD03605;
   0xCDD70693; 0x54DE5729; 0x23D967BF; 0xB3667A2E; 0xC4614AB8;
   0x5D681B02; 0x2A6F2B94; 0xB40BBE37; 0xC30C8EA1; 0x5A05DF1B;
   0x2D02EF8D].

(** [INIT_CRC32] and [FIN_CRC32]. *)
Definition INIT_CRC32 : Z := 0xFFFFFFFF.
Definition FIN_CRC32 (crc : Z) : Z := Z.lxor crc 0xFFFFFFFF.

(** One turn of the loop of [COMP_CRC32]. *)
Definition crc_step (crc byte : Z) : Z :=
  let tab_index := Z.land (Z.lxor (Z.shiftr crc 24) byte) 0xFF in
  Z.lxor (pg_crc32_table !!! Z.to_nat tab_index) (u32 (Z.shiftl crc 8)).

Definition COMP_CRC32 (crc : Z) (data : list Z) : Z := foldl crc_step crc data.

(** ** Lemmas *)

(** One bit of the reflected division by the polynomial 0xEDB88320. *)
Definition reflected_bit (c : Z) : Z :=
  Z.lxor (Z.shiftr c 1) (if Z.testbit c 0 then 0xEDB88320 else 0).

Lemma table_is_reflected :
  pg_crc32_table = map (λ i, Nat.iter 8 reflected_bit (Z.of_nat i)) (seq 0 256).
Proof. vm_compute. reflexivity. Qed.

Lemma table_length : length pg_crc32_table = 256%nat.
Proof. reflexivity. Qed.

Lemma table_range : Forall (λ x, 0 ≤ x < 2 ^ 32) pg_crc32_table.
Proof. apply (bool_decide_unpack _). vm_compute. exact I. Qed.

Lemma table_low_byte_NoDup : NoDup (map (λ x, Z.land x 0xFF) pg_crc32_table).
Proof. apply (bool_decide_unpack _). vm_compute. exact I. Qed.

Lemma table_lookup (i : nat) :
  (i < 256)%nat → pg_crc32_table !! i = Some (pg_crc32_table !!! i).
Proof. intros. apply list_lookup_lookup_total_lt. by rewrite table_length. Qed.

Lemma table_low_byte_inj (i j : nat) :
  (i < 256)%nat → (j < 256)%nat →
  Z.land (pg_crc32_table !!! i) 0xFF = Z.land (pg_crc32_table !!! j) 0xFF →
  i = j.
Proof.
  intros Hi Hj He. pose proof table_low_byte_NoDup as Hnd.
  rewrite NoDup_alt in Hnd.
  eapply Hnd; rewrite list_lookup_fmap, table_lookup by done; simpl;
    [reflexivity | by rewrite He].
Qed.

Lemma crc_step_range crc b : 0 ≤ crc_step crc b < 2 ^ 32.
Proof.
  unfold crc_step. set (i := Z.to_nat _).
  assert (Hi : (i < 256)%nat).
  { subst i. pose proof (mask_get0 8 (Z.lxor (Z.shiftr crc 24) b)) as E.
    change (Z.ones 8) with 0xFF in E. rewrite E.
    pose proof (field_get_range 0 8 (Z.lxor (Z.shiftr crc 24) b)). lia. }
  assert (Ht : 0 ≤ pg_crc32_table !!! i < 2 ^ 32).
  { exact (Forall_lookup_1 _ _ _ _ table_range (table_lookup i Hi)). }
  pose proof (u32_range (Z.shiftl crc 8)) as Hs.
  apply testbit_range; [lia|]. intros k Hk.
  by rewrite Z.lxor_spec, (range_testbit _ 32 k Ht), (range_testbit _ 32 k Hs).
Qed.

Lemma COMP_CRC32_range crc l :
  0 ≤ crc < 2 ^ 32 → 0 ≤ COMP_CRC32 crc l < 2 ^ 32.
Proof.
  revert crc. induction l as [|b l IH]; intros crc Hc; [done|].
  apply IH, crc_step_range.
Qed.

(** The table index of a step, and the low byte of its result. *)
Definition crc_index (crc b : Z) : Z :=
  field_get 0 8 (Z.lxor (Z.shiftr crc 24) b).

Lemma crc_step_index crc b :
  crc_step crc b =
    Z.lxor (pg_crc32_table !!! Z.to_nat (crc_index crc b)) (u32 (Z.shiftl crc 8)).
Proof. unfold crc_step. by rewrite (mask_get0 8). Qed.

Lemma crc_index_lt crc b : (Z.to_nat (crc_index crc b) < 256)%nat.
Proof. unfold crc_index. pose proof (field_get_range 0 8 (Z.lxor (crc ≫ 24) b)). lia. Qed.

Lemma crc_step_low_byte crc b :
  Z.land (crc_step crc b) 0xFF =
    Z.land (pg_crc32_table !!! Z.to_nat (crc_index crc b)) 0xFF.
Proof.
  rewrite crc_step_index. generalize (pg_crc32_table !!! Z.to_nat (crc_index crc b)) as t.
  intros t. rewrite !(mask_get0 8). apply Z.bits_inj'. intros i Hi.
  rewrite !field_get_spec, Z.lxor_spec, u32_spec, Z.shiftl_spec by lia.
  destruct (Z.ltb_spec i 8); [|by rewrite !andb_false_r].
  by rewrite (Z.testbit_neg_r crc), andb_false_r, xorb_false_r by lia.
Qed.

Lemma crc_step_eq_index crc crc' b b' :
  crc_step crc b = crc_step crc' b' → crc_index crc b = crc_index crc' b'.
Proof.
  intros E. apply (f_equal (λ x, Z.land x 0xFF)) in E.
  rewrite !crc_step_low_byte in E.
  apply table_low_byte_inj in E; [|apply crc_index_lt..].
  unfold crc_index in *.
  pose proof (field_get_range 0 8 (Z.lxor (crc ≫ 24) b)).
  pose proof (field_get_range 0 8 (Z.lxor (crc' ≫ 24) b')). lia.
Qed.

(** Bits of the table index, for a byte [b]. *)
Lemma crc_index_testbit crc b i :
  0 ≤ i < 8 →
  Z.testbit (crc_index crc b) i = xorb (Z.testbit crc (i + 24)) (Z.testbit b i).
Proof.
  intros. unfold crc_index. rewrite field_get_spec, Z.add_0_r, Z.lxor_spec by lia.
  rewrite Z.shiftr_spec by lia. by rewrite (proj2 (Z.ltb_lt i 8)), andb_true_r by lia.
Qed.

Lemma crc_step_inj_crc crc crc' b :
  0 ≤ crc < 2 ^ 32 → 0 ≤ crc' < 2 ^ 32 →
  crc_step crc b = crc_step crc' b → crc = crc'.
Proof.
  intros Hc Hc' E. pose proof (crc_step_eq_index _ _ _ _ E) as Ei.
  rewrite !crc_step_index, Ei in E.
  apply (f_equal (Z.lxor (pg_crc32_table !!! Z.to_nat (crc_index crc' b)))) in E.
  rewrite <- !Z.lxor_assoc, !Z.lxor_nilpotent, !Z.lxor_0_l in E.
  apply Z.bits_inj'. intros i Hi. destruct (Z.ltb_spec i 24).
  - apply (f_equal (λ x, Z.testbit x (i + 8))) in E.
    rewrite !u32_spec, !Z.shiftl_spec in E by lia.
    rewrite (proj2 (Z.ltb_lt (i + 8) 32)) in E by lia. simpl in E.
    by replace (i + 8 - 8) with i in E by lia.
  - destruct (Z.ltb_spec i 32).
    + apply (f_equal (λ x, Z.testbit x (i - 24))) in Ei.
      rewrite !crc_index_testbit in Ei by lia.
      replace (i - 24 + 24) with i in Ei by lia.
      destruct (Z.testbit crc i), (Z.testbit crc' i), (Z.testbit b (i - 24)); done.
    + by rewrite !(range_testbit _ 32 i) by lia.
Qed.

Lemma crc_step_inj_byte crc b b' :
  is_byte b → is_byte b' → crc_step crc b = crc_step crc b' → b = b'.
Proof.
  intros Hb Hb' E. apply crc_step_eq_index in E.
  apply Z.bits_inj'. intros i Hi. destruct (Z.ltb_spec i 8).
  - apply (f_equal (λ x, Z.testbit x i)) in E.
    rewrite !crc_index_testbit in E by lia.
    destruct (Z.testbit crc (i + 24)), (Z.testbit b i), (Z.testbit b' i); done.
  - by rewrite !(range_testbit _ 8 i) by done.
Qed.

Lemma COMP_CRC32_inj_crc crc crc' l :
  0 ≤ crc < 2 ^ 32 → 0 ≤ crc' < 2 ^ 32 →
  COMP_CRC32 crc l = COMP_CRC32 crc' l → crc = crc'.
Proof.
  revert crc crc'. induction l as [|b l IH]; intros crc crc' Hc Hc' E; [done|].
  eapply crc_step_inj_crc; [done..|].
  apply IH; [apply crc_step_range..|done].
Qed.

(** Byte strings that agree except for one byte have different CRCs. *)
Lemma COMP_CRC32_one_byte crc l1 l2 b b' :
  is_byte b → is_byte b' →
  COMP_CRC32 crc (l1 ++ b :: l2) = COMP_CRC32 crc (l1 ++ b' :: l2) → b = b'.
Proof.
  unfold COMP_CRC32. rewrite !foldl_app. intros Hb Hb' E. simpl in E.
  eapply crc_step_inj_byte; [done..|].
  eapply COMP_CRC32_inj_crc; [apply crc_step_range..|exact E].
Qed.

(** The same, for an in-place change of byte [i]. *)
Lemma COMP_CRC32_insert crc l (i : nat) b b' :
  l !! i = Some b → is_byte b → is_byte b' → b ≠ b' →
  COMP_CRC32 crc (<[i:=b']> l) ≠ COMP_CRC32 crc l.
Proof.
  intros Hl Hb Hb' Hne E. apply Hne.
  rewrite <- (take_drop_middle l i b Hl) in E.
  rewrite insert_app_r_alt in E by (rewrite length_take; lia).
  rewrite length_take_le in E by (apply lookup_lt_Some in Hl; lia).
  rewrite Nat.sub_diag in E. simpl in E.
  symmetry. by eapply COMP_CRC32_one_byte.
Qed.
