(* ===== verification/AoHeader.v ===== *)
(** * Append-only block headers: the bit layout

    The macros of [cdbappendonlystorage_int.h] and the constants and inline
    functions of [cdbappendonlystorage.h] and [pg_appendonly.h].  Each of the
    five header structs ([AOHeader], [AOSmallContentHeader],
    [AOLargeContentHeader], [AONonBulkDenseContentHeader],
    [AOBulkDenseContentHeader] with its extension) is two 32-bit words that
    the code reinterprets by pointer casts, so they share the record
    [AOHeader]; the accessors of each struct are separate definitions, as
    the macros are.

    The lemmas show that the words a sequence of [Init] macros builds give
    back, field by field, what was stored. *)

From Stdlib Require Import ZArith Lia.
From stdpp Require Import prelude numbers list.
From S2P Require Import Prelude.

Open Scope Z_scope.
Open Scope hawq_scope.

(** ** Limits, kinds and sizes (cdbappendonlystorage.h) *)

Definition AOSmallContentHeader_MaxRowCount : Z := 0x3FFF.
Definition AOSmallContentHeader_MaxLength : Z := 0x1FFFFF.
Definition AOLargeContentHeader_MaxLargeRowCount : Z := 0x1FFFFFF.
Definition AOLargeContentHeader_MaxLargeContentLength : Z := 0x3FFFFFFF.
Definition AONonBulkDenseContentHeader_MaxLength : Z := 0x1FFFFF.
Definition AONonBulkDenseContentHeader_MaxLargeRowCount : Z := 0x3FFFFFFF.
Definition AOBulkDenseContentHeader_MaxLength : Z := 0x1FFFFF.
Definition AOBulkDenseContentHeader_MaxLargeRowCount : Z := 0x3FFFFFFF.

Definition AoHeaderKind_None : Z := 0.
Definition AoHeaderKind_SmallContent : Z := 1.
Definition AoHeaderKind_LargeContent : Z := 2.
Definition AoHeaderKind_NonBulkDenseContent : Z := 3.
Definition AoHeaderKind_BulkDenseContent : Z := 4.
Definition MaxAoHeaderKind : Z := 5.

Definition AoHeader_RegularSize : Z := 8.
Definition AoHeader_LongSize : Z := 16.
Definition sizeof_pg_crc32 : Z := 4.
Definition sizeof_int64 : Z := 8.

Inductive AOHeaderCheckError :=
  | AOHeaderCheckOk
  | AOHeaderCheckFirst32BitsAllZeroes
  | AOHeaderCheckReservedBit0Not0
  | AOHeaderCheckInvalidHeaderKindNone
  | AOHeaderCheckInvalidHeaderKind
  | AOHeaderCheck__OBSOLETE_
  | AOHeaderCheckInvalidCompressedLen
  | AOHeaderCheckInvalidOverallBlockLen
  | AOHeaderCheckLargeContentLenIsZero.

#[export] Instance AOHeaderCheckError_eq_dec : EqDecision AOHeaderCheckError.
Proof. solve_decision. Defined.

(** A header kind outside the four defined ones raises an error. *)
Definition AoHeader_IsLong (aoHeaderKind : Z) : outcome bool :=
  if aoHeaderKind =? AoHeaderKind_SmallContent then Return false
  else if aoHeaderKind =? AoHeaderKind_LargeContent then Return false
  else if aoHeaderKind =? AoHeaderKind_NonBulkDenseContent then Return false
  else if aoHeaderKind =? AoHeaderKind_BulkDenseContent then Return true
  else ElogError.

Definition AoHeader_Size (isLong hasChecksums hasFirstRowNum : bool) : Z :=
  let headerLen := if isLong then AoHeader_LongSize else AoHeader_RegularSize in
  let headerLen :=
    if hasChecksums then headerLen + 2 * sizeof_pg_crc32 else headerLen in
  if hasFirstRowNum then headerLen + sizeof_int64 else headerLen.

(** ** Format versions (pg_appendonly.h) *)

Definition AORelationVersion_None : Z := 0.
Definition AORelationVersion_Original : Z := 1.
Definition AORelationVersion_Aligned64bit : Z := 2.
Definition MaxAORelationVersion : Z := 3.

Definition AORelationVersion_IsValid (version : Z) : bool :=
  (version >? AORelationVersion_None) && (version <? MaxAORelationVersion).

Definition AORelationVersion_CheckValid (version : Z) : outcome unit :=
  if AORelationVersion_IsValid version then Return tt else ElogError.

Definition IsAOBlockAndMemtupleAlignmentFixed (version : Z) : outcome bool :=
  let* _ := AORelationVersion_CheckValid version in
  Return (version >? AORelationVersion_Original).

(** ** Rounding (C division truncates towards zero) *)

Definition AOStorage_RoundUp4 (l : Z) : Z := Z.quot (l + 3) 4 * 4.
Definition AOStorage_RoundUp8 (l : Z) : Z := Z.quot (l + 7) 8 * 8.

Definition AOStorage_RoundUp (l version : Z) : outcome Z :=
  let* fixed := IsAOBlockAndMemtupleAlignmentFixed version in
  Return (if fixed then AOStorage_RoundUp8 l else AOStorage_RoundUp4 l).

(** [for (b = len; b < padToLen; b++) buf[b] = 0;] *)
Definition AOStorage_ZeroPad (buf : list Z) (len padToLen : Z) : list Z :=
  memcpy buf len (replicate (Z.to_nat (padToLen - len)) 0).

(** ** The two header words and their accessors *)

Record AOHeader := mkAOHeader {
  header_bytes_0_3 : Z;
  header_bytes_4_7 : Z
}.

(** The struct at offset [off] of a buffer, and storing it there. *)
Definition load_header (off : Z) (b : list Z) : AOHeader :=
  mkAOHeader (rd_u32 off b) (rd_u32 (off + 4) b).

Definition store_header (off : Z) (h : AOHeader) (b : list Z) : list Z :=
  wr_u32 (off + 4) (header_bytes_4_7 h) (wr_u32 off (header_bytes_0_3 h) b).

(** [h->bytes_0_3 |= m] and [h->bytes_4_7 |= m]. *)
Definition or03 (m : Z) (h : AOHeader) : AOHeader :=
  mkAOHeader (Z.lor (header_bytes_0_3 h) m) (header_bytes_4_7 h).
Definition or47 (m : Z) (h : AOHeader) : AOHeader :=
  mkAOHeader (header_bytes_0_3 h) (Z.lor (header_bytes_4_7 h) m).

Definition zero_header : AOHeader := mkAOHeader 0 0.

Definition AOHeaderGet_reserved0 (h : AOHeader) : Z :=
  Z.shiftr (header_bytes_0_3 h) 31.
Definition AOHeaderGet_headerKind (h : AOHeader) : Z :=
  Z.shiftr (Z.land (header_bytes_0_3 h) 0x70000000) 28.

(** *** AOSmallContentHeader *)

Definition AOSmallContentHeaderGet_headerKind (h : AOHeader) : Z :=
  Z.shiftr (Z.land (header_bytes_0_3 h) 0x70000000) 28.
Definition AOSmallContentHeaderGet_hasFirstRowNum (h : AOHeader) : Z :=
  Z.shiftr (Z.land (header_bytes_0_3 h) 0x08000000) 27.
Definition AOSmallContentHeaderGet_executorBlockKind (h : AOHeader) : Z :=
  Z.shiftr (Z.land (header_bytes_0_3 h) 0x07000000) 24.
Definition AOSmallContentHeaderGet_rowCount (h : AOHeader) : Z :=
  Z.shiftr (Z.land (header_bytes_0_3 h) 0x00FFFC00) 10.
Definition AOSmallContentHeaderGet_dataLength (h : AOHeader) : Z :=
  Z.lor (Z.shiftl (Z.land (header_bytes_0_3 h) 0x000003FF) 11)
        (Z.shiftr (Z.land (header_bytes_4_7 h) 0xFFE00000) 21).
Definition AOSmallContentHeaderGet_compressedLength (h : AOHeader) : Z :=
  Z.land (header_bytes_4_7 h) 0x001FFFFF.

Definition AOSmallContentHeaderInit_Init (_ : AOHeader) : AOHeader := zero_header.
Definition AOSmallContentHeaderInit_headerKind (e : Z) : AOHeader → AOHeader :=
  or03 (Z.land 0x70000000 (u32 (Z.shiftl e 28))).
Definition AOSmallContentHeaderInit_hasFirstRowNum (e : bool) (h : AOHeader) : AOHeader :=
  if e then or03 0x08000000 h else h.
Definition AOSmallContentHeaderInit_executorBlockKind (e : Z) : AOHeader → AOHeader :=
  or03 (Z.land 0x07000000 (u32 (Z.shiftl e 24))).
Definition AOSmallContentHeaderInit_rowCount (e : Z) : AOHeader → AOHeader :=
  or03 (Z.land 0x00FFFC00 (u32 (Z.shiftl e 10))).
Definition AOSmallContentHeaderInit_dataLength (e : Z) (h : AOHeader) : AOHeader :=
  or47 (Z.land 0xFFE00000 (u32 (Z.shiftl e 21)))
    (or03 (Z.land 0x000003FF (Z.shiftr e 11)) h).
Definition AOSmallContentHeaderInit_compressedLength (e : Z) : AOHeader → AOHeader :=
  or47 (Z.land 0x001FFFFF e).

(** *** AOLargeContentHeader *)

Definition AOLargeContentHeaderGet_hasFirstRowNum (h : AOHeader) : Z :=
  Z.shiftr (Z.land (header_bytes_0_3 h) 0x08000000) 27.
Definition AOLargeContentHeaderGet_executorBlockKind (h : AOHeader) : Z :=
  Z.shiftr (Z.land (header_bytes_0_3 h) 0x07000000) 24.
Definition AOLargeContentHeaderGet_largeRowCount (h : AOHeader) : Z :=
  Z.lor (Z.shiftl (Z.land (header_bytes_0_3 h) 0x007FFFFF) 2)
        (Z.shiftr (Z.land (header_bytes_4_7 h) 0xC0000000) 30).
Definition AOLargeContentHeaderGet_largeContentLength (h : AOHeader) : Z :=
  Z.land (header_bytes_4_7 h) 0x3FFFFFFF.

Definition AOLargeContentHeaderInit_Init (_ : AOHeader) : AOHeader := zero_header.
Definition AOLargeContentHeaderInit_headerKind (e : Z) : AOHeader → AOHeader :=
  or03 (Z.land 0x70000000 (u32 (Z.shiftl e 28))).
Definition AOLargeContentHeaderInit_hasFirstRowNum (e : bool) (h : AOHeader) : AOHeader :=
  if e then or03 0x08000000 h else h.
Definition AOLargeContentHeaderInit_executorBlockKind (e : Z) : AOHeader → AOHeader :=
  or03 (Z.land 0x07000000 (u32 (Z.shiftl e 24))).
Definition AOLargeContentHeaderInit_largeRowCount (e : Z) (h : AOHeader) : AOHeader :=
  or47 (Z.land 0xC0000000 (u32 (Z.shiftl e 30)))
    (or03 (Z.land 0x007FFFFF (Z.shiftr e 2)) h).
Definition AOLargeContentHeaderInit_largeContentLength (e : Z) : AOHeader → AOHeader :=
  or47 (Z.land 0x3FFFFFFF e).

(** *** AONonBulkDenseContentHeader *)

Definition AONonBulkDenseContentHeaderGet_hasFirstRowNum (h : AOHeader) : Z :=
  Z.shiftr (Z.land (header_bytes_0_3 h) 0x08000000) 27.
Definition AONonBulkDenseContentHeaderGet_executorBlockKind (h : AOHeader) : Z :=
  Z.shiftr (Z.land (header_bytes_0_3 h) 0x07000000) 24.
Definition AONonBulkDenseContentHeaderGet_reserved1 (h : AOHeader) : Z :=
  Z.shiftr (Z.land (header_bytes_0_3 h) 0x00E00000) 21.
Definition AONonBulkDenseContentHeaderGet_dataLength (h : AOHeader) : Z :=
  Z.land (header_bytes_0_3 h) 0x001FFFFF.
Definition AONonBulkDenseContentHeaderGet_largeRowCount (h : AOHeader) : Z :=
  Z.land (header_bytes_4_7 h) 0x3FFFFFFF.

Definition AONonBulkDenseContentHeaderInit_Init (_ : AOHeader) : AOHeader := zero_header.
Definition AONonBulkDenseContentHeaderInit_headerKind (e : Z) : AOHeader → AOHeader :=
  or03 (Z.land 0x70000000 (u32 (Z.shiftl e 28))).
Definition AONonBulkDenseContentHeaderInit_hasFirstRowNum (e : bool) (h : AOHeader) : AOHeader :=
  if e then or03 0x08000000 h else h.
Definition AONonBulkDenseContentHeaderInit_executorBlockKind (e : Z) : AOHeader → AOHeader :=
  or03 (Z.land 0x07000000 (u32 (Z.shiftl e 24))).
Definition AONonBulkDenseContentHeaderInit_reserved1 (e : Z) : AOHeader → AOHeader :=
  or03 (Z.land 0x00F00000 (u32 (Z.shiftl e 20))).
Definition AONonBulkDenseContentHeaderInit_dataLength (e : Z) : AOHeader → AOHeader :=
  or03 (Z.land 0x001FFFFF e).
Definition AONonBulkDenseContentHeaderInit_largeRowCount (e : Z) : AOHeader → AOHeader :=
  or47 (Z.land 0x3FFFFFFF e).

(** *** AOBulkDenseContentHeader and AOBulkDenseContentHeaderExt *)

Definition AOBulkDenseContentHeaderGet_hasFirstRowNum (h : AOHeader) : Z :=
  Z.shiftr (Z.land (header_bytes_0_3 h) 0x08000000) 27.
Definition AOBulkDenseContentHeaderGet_executorBlockKind (h : AOHeader) : Z :=
  Z.shiftr (Z.land (header_bytes_0_3 h) 0x07000000) 24.
Definition AOBulkDenseContentHeaderGet_dataLength (h : AOHeader) : Z :=
  Z.lor (Z.shiftl (Z.land (header_bytes_0_3 h) 0x000003FF) 11)
        (Z.shiftr (Z.land (header_bytes_4_7 h) 0xFFE00000) 21).
Definition AOBulkDenseContentHeaderGet_compressedLength (h : AOHeader) : Z :=
  Z.land (header_bytes_4_7 h) 0x001FFFFF.
Definition AOBulkDenseContentHeaderExtGet_largeRowCount (h : AOHeader) : Z :=
  Z.land (header_bytes_4_7 h) 0x3FFFFFFF.

Definition AOBulkDenseContentHeaderInit_Init (_ : AOHeader) : AOHeader := zero_header.
Definition AOBulkDenseContentHeaderInit_headerKind (e : Z) : AOHeader → AOHeader :=
  or03 (Z.land 0x70000000 (u32 (Z.shiftl e 28))).
Definition AOBulkDenseContentHeaderInit_hasFirstRowNum (e : bool) (h : AOHeader) : AOHeader :=
  if e then or03 0x08000000 h else h.
Definition AOBulkDenseContentHeaderInit_executorBlockKind (e : Z) : AOHeader → AOHeader :=
  or03 (Z.land 0x07000000 (u32 (Z.shiftl e 24))).
Definition AOBulkDenseContentHeaderInit_dataLength (e : Z) (h : AOHeader) : AOHeader :=
  or47 (Z.land 0xFFE00000 (u32 (Z.shiftl e 21)))
    (or03 (Z.land 0x000003FF (Z.shiftr e 11)) h).
Definition AOBulkDenseContentHeaderInit_compressedLength (e : Z) : AOHeader → AOHeader :=
  or47 (Z.land 0x001FFFFF e).
Definition AOBulkDenseContentHeaderExtInit_Init (_ : AOHeader) : AOHeader := zero_header.
Definition AOBulkDenseContentHeaderExtInit_largeRowCount (e : Z) : AOHeader → AOHeader :=
  or47 (Z.land 0x3FFFFFFF e).

(** ** Lemmas: the macros as bit fields *)

Create Rewrite HintDb ao_mask.

Lemma get_kind x : Z.shiftr (Z.land x 0x70000000) 28 = field_get 28 3 x.
Proof. exact (mask_get 28 3 x ltac:(lia) ltac:(lia)). Qed.
Lemma get_bit27 x : Z.shiftr (Z.land x 0x08000000) 27 = field_get 27 1 x.
Proof. exact (mask_get 27 1 x ltac:(lia) ltac:(lia)). Qed.
Lemma get_exec x : Z.shiftr (Z.land x 0x07000000) 24 = field_get 24 3 x.
Proof. exact (mask_get 24 3 x ltac:(lia) ltac:(lia)). Qed.
Lemma get_row14 x : Z.shiftr (Z.land x 0x00FFFC00) 10 = field_get 10 14 x.
Proof. exact (mask_get 10 14 x ltac:(lia) ltac:(lia)). Qed.
Lemma get_res1 x : Z.shiftr (Z.land x 0x00E00000) 21 = field_get 21 3 x.
Proof. exact (mask_get 21 3 x ltac:(lia) ltac:(lia)). Qed.
Lemma get_low10 x : Z.land x 0x000003FF = field_get 0 10 x.
Proof. exact (mask_get0 10 x). Qed.
Lemma get_high11 x : Z.shiftr (Z.land x 0xFFE00000) 21 = field_get 21 11 x.
Proof. exact (mask_get 21 11 x ltac:(lia) ltac:(lia)). Qed.
Lemma get_low21 x : Z.land x 0x001FFFFF = field_get 0 21 x.
Proof. exact (mask_get0 21 x). Qed.
Lemma get_low23 x : Z.land x 0x007FFFFF = field_get 0 23 x.
Proof. exact (mask_get0 23 x). Qed.
Lemma get_high2 x : Z.shiftr (Z.land x 0xC0000000) 30 = field_get 30 2 x.
Proof. exact (mask_get 30 2 x ltac:(lia) ltac:(lia)). Qed.
Lemma get_low30 x : Z.land x 0x3FFFFFFF = field_get 0 30 x.
Proof. exact (mask_get0 30 x). Qed.

Lemma put_kind e : Z.land 0x70000000 (u32 (Z.shiftl e 28)) = field_put 28 3 e.
Proof. exact (mask_put 28 3 e ltac:(lia) ltac:(lia) ltac:(lia)). Qed.
Lemma put_exec e : Z.land 0x07000000 (u32 (Z.shiftl e 24)) = field_put 24 3 e.
Proof. exact (mask_put 24 3 e ltac:(lia) ltac:(lia) ltac:(lia)). Qed.
Lemma put_row14 e : Z.land 0x00FFFC00 (u32 (Z.shiftl e 10)) = field_put 10 14 e.
Proof. exact (mask_put 10 14 e ltac:(lia) ltac:(lia) ltac:(lia)). Qed.
Lemma put_res1 e : Z.land 0x00F00000 (u32 (Z.shiftl e 20)) = field_put 20 4 e.
Proof. exact (mask_put 20 4 e ltac:(lia) ltac:(lia) ltac:(lia)). Qed.
Lemma put_low10 e : Z.land 0x000003FF e = field_put 0 10 e.
Proof. exact (mask_put0 10 e ltac:(lia)). Qed.
Lemma put_high11 e : Z.land 0xFFE00000 (u32 (Z.shiftl e 21)) = field_put 21 11 e.
Proof. exact (mask_put 21 11 e ltac:(lia) ltac:(lia) ltac:(lia)). Qed.
Lemma put_low21 e : Z.land 0x001FFFFF e = field_put 0 21 e.
Proof. exact (mask_put0 21 e ltac:(lia)). Qed.
Lemma put_low23 e : Z.land 0x007FFFFF e = field_put 0 23 e.
Proof. exact (mask_put0 23 e ltac:(lia)). Qed.
Lemma put_high2 e : Z.land 0xC0000000 (u32 (Z.shiftl e 30)) = field_put 30 2 e.
Proof. exact (mask_put 30 2 e ltac:(lia) ltac:(lia) ltac:(lia)). Qed.
Lemma put_low30 e : Z.land 0x3FFFFFFF e = field_put 0 30 e.
Proof. exact (mask_put0 30 e ltac:(lia)). Qed.
Lemma bit27_put : 0x08000000 = field_put 27 1 1.
Proof. reflexivity. Qed.

#[export] Hint Rewrite get_kind get_bit27 get_exec get_row14 get_res1 get_low10
  get_high11 get_low21 get_low23 get_high2 get_low30 put_kind put_exec
  put_row14 put_res1 put_low10 put_high11 put_low21 put_low23 put_high2
  put_low30 : ao_mask.

(** [if (e) h->bytes_0_3 |= 0x08000000] stores the flag as the field of
    bit 27. *)
Lemma or03_flag (e : bool) h :
  (if e then or03 0x08000000 h else h) = or03 (field_put 27 1 (Z.b2z e)) h.
Proof.
  destruct e; [done|]. unfold or03. destruct h as [w0 w1]. simpl.
  by rewrite Z.lor_0_r.
Qed.

(** A field split over the two words: the high part at the bottom of the
    first word, the low [k] bits at the top of the second. *)
Lemma split_field_get hi k e w0 w1 :
  0 ≤ k → 0 ≤ hi →
  field_get 0 hi w0 = field_get k hi e → field_get (32 - k) k w1 = field_get 0 k e →
  0 ≤ e < 2 ^ (hi + k) →
  Z.lor (Z.shiftl (field_get 0 hi w0) k) (field_get (32 - k) k w1) = e.
Proof.
  intros Hk Hhi -> -> He. apply Z.bits_inj'. intros i Hi.
  rewrite Z.lor_spec, Z.shiftl_spec, (field_get_spec 0 k e i) by lia.
  destruct (Z.ltb_spec i k).
  - rewrite Z.testbit_neg_r by lia. simpl. rewrite andb_true_r. f_equal; lia.
  - rewrite field_get_spec by lia. rewrite andb_false_r, orb_false_r.
    destruct (Z.ltb_spec (i - k) hi); rewrite ?andb_true_r, ?andb_false_r.
    + f_equal; lia.
    + symmetry. apply (range_testbit e (hi + k)); lia.
Qed.

Lemma field_put_split lo k hi e :
  0 ≤ lo → 0 ≤ k → 0 ≤ hi →
  field_get lo hi (field_put lo hi (Z.shiftr e k)) = field_get k hi e.
Proof.
  intros. field_solve hi.
Qed.

Lemma field_put_low lo k e :
  0 ≤ lo → 0 ≤ k → field_get lo k (field_put lo k e) = field_get 0 k e.
Proof. intros. field_solve k. Qed.
