(* ===== verification/AoFormat.v ===== *)
(** * The append-only storage format (cdb/cdbappendonlystorageformat.c)

    [headerPtr] is the buffer of a block, the header at its start and the
    content behind it.  A block is

    - the 8-byte header (two words, see AoHeader);
    - with checksums, the block checksum and the header checksum, 4 bytes
      each;
    - for Bulk Dense Content, the 8-byte extension header;
    - when the header's flag says so, the 8-byte first row number;
    - the content, padded to the alignment of the format version.

    The [Make] operations write a header (and the checksums over a block
    whose content is already in place), the [Get] operations decode and check
    one, the [Verify] operations recompute the checksums.  The out parameters
    of a [Get] operation are a record: the function maps the values the
    caller's variables had to the values they have on return, so that a
    variable a path does not assign keeps its value.  [elog(ERROR)] is
    [ElogError].  The text of messages ([AoHeaderCheckErrorStr], debug
    output) is not modelled; the values a header string shows are. *)

From Stdlib Require Import ZArith Lia.
From stdpp Require Import prelude numbers list.
From S2P Require Import Prelude Crc32 AoHeader.

Open Scope Z_scope.
Open Scope hawq_scope.

(** ** Checksums *)

Definition AppendOnlyStorageFormat_ComputeHeaderChecksum
    (headerPtr : list Z) (headerLen : Z) : Z :=
  COMP_CRC32 INIT_CRC32 (slice 0 (u32 headerLen) headerPtr).

Definition AppendOnlyStorageFormat_ComputeBlockChecksum
    (headerPtr : list Z) (headerLen overallBlockLen : Z) : Z :=
  let dataOffset := headerLen + sizeof_pg_crc32 in
  COMP_CRC32 INIT_CRC32
    (slice dataOffset (u32 (overallBlockLen - dataOffset)) headerPtr).

Definition AppendOnlyStorageFormat_RegularHeaderLenNeeded (usingChecksum : bool) : Z :=
  AoHeader_RegularSize + (if usingChecksum then 2 * sizeof_pg_crc32 else 0).

Definition AppendOnlyStorageFormat_AddFirstRowNum
    (headerPtr : list Z) (usingChecksums : bool) (firstRowNum : Z) : outcome (list Z) :=
  let blockHeader := load_header 0 headerPtr in
  let* isLong := AoHeader_IsLong (AOSmallContentHeaderGet_headerKind blockHeader) in
  let offsetToFirstRowNum :=
    if negb isLong then AoHeader_RegularSize else AoHeader_LongSize in
  let offsetToFirstRowNum :=
    if usingChecksums then offsetToFirstRowNum + 2 * sizeof_pg_crc32
    else offsetToFirstRowNum in
  Return (wr_i64 offsetToFirstRowNum firstRowNum headerPtr).

Definition AppendOnlyStorageFormat_AddBlockHeaderChecksums
    (headerPtr : list Z) (isCompressed hasFirstRowNum : bool)
    (version dataLength compressedLength : Z) : outcome (list Z) :=
  let blockHeader := load_header 0 headerPtr in
  let headerKind := AOSmallContentHeaderGet_headerKind blockHeader in
  let firstHeaderLen := AoHeader_RegularSize in
  let firstHeaderAndBlockChecksumLen := firstHeaderLen + sizeof_pg_crc32 in
  let offset := firstHeaderAndBlockChecksumLen + sizeof_pg_crc32 in
  let* isLong := AoHeader_IsLong headerKind in
  let offset := if isLong then offset + AoHeader_RegularSize else offset in
  let offset := if hasFirstRowNum then offset + sizeof_int64 else offset in
  let* rounded :=
    AOStorage_RoundUp (if isCompressed then compressedLength else dataLength) version in
  let overallBlockLen := s32 (offset + rounded) in
  let headerPtr :=
    wr_u32 firstHeaderLen
      (AppendOnlyStorageFormat_ComputeBlockChecksum
         headerPtr firstHeaderAndBlockChecksumLen overallBlockLen) headerPtr in
  Return
    (wr_u32 firstHeaderAndBlockChecksumLen
      (AppendOnlyStorageFormat_ComputeHeaderChecksum
         headerPtr firstHeaderAndBlockChecksumLen) headerPtr).

(** ** Making headers *)

Definition AppendOnlyStorageFormat_MakeSmallContentHeader
    (headerPtr : list Z) (usingChecksums hasFirstRowNum : bool)
    (version firstRowNum executorKind rowCount dataLength compressedLength : Z)
    : outcome (list Z) :=
  let h := AOSmallContentHeaderInit_Init (load_header 0 headerPtr) in
  let h := AOSmallContentHeaderInit_headerKind AoHeaderKind_SmallContent h in
  let h := AOSmallContentHeaderInit_executorBlockKind executorKind h in
  let h := AOSmallContentHeaderInit_rowCount rowCount h in
  let h := AOSmallContentHeaderInit_dataLength dataLength h in
  let h := AOSmallContentHeaderInit_hasFirstRowNum hasFirstRowNum h in
  let isCompressed := compressedLength >? 0 in
  let h := if isCompressed
           then AOSmallContentHeaderInit_compressedLength compressedLength h else h in
  let headerPtr := store_header 0 h headerPtr in
  let* headerPtr :=
    if hasFirstRowNum
    then AppendOnlyStorageFormat_AddFirstRowNum headerPtr usingChecksums firstRowNum
    else Return headerPtr in
  if usingChecksums
  then AppendOnlyStorageFormat_AddBlockHeaderChecksums
         headerPtr isCompressed hasFirstRowNum version dataLength compressedLength
  else Return headerPtr.

(** The block checksum of a Large Content header is computed with
    [hasFirstRowNum] false and length 0. *)
Definition AppendOnlyStorageFormat_MakeLargeContentHeader
    (headerPtr : list Z) (usingChecksums hasFirstRowNum : bool)
    (version firstRowNum executorKind largeRowCount largeContentLength : Z)
    : outcome (list Z) :=
  let h := AOLargeContentHeaderInit_Init (load_header 0 headerPtr) in
  let h := AOLargeContentHeaderInit_headerKind AoHeaderKind_LargeContent h in
  let h := AOLargeContentHeaderInit_executorBlockKind executorKind h in
  let h := AOLargeContentHeaderInit_largeRowCount largeRowCount h in
  let h := AOLargeContentHeaderInit_largeContentLength largeContentLength h in
  let h := AOLargeContentHeaderInit_hasFirstRowNum hasFirstRowNum h in
  let headerPtr := store_header 0 h headerPtr in
  let* headerPtr :=
    if hasFirstRowNum
    then AppendOnlyStorageFormat_AddFirstRowNum headerPtr usingChecksums firstRowNum
    else Return headerPtr in
  if usingChecksums
  then AppendOnlyStorageFormat_AddBlockHeaderChecksums
         headerPtr false false version 0 0
  else Return headerPtr.

Definition AppendOnlyStorageFormat_MakeNonBulkDenseContentHeader
    (headerPtr : list Z) (usingChecksums hasFirstRowNum : bool)
    (version firstRowNum executorKind rowCount dataLength : Z)
    : outcome (list Z) :=
  let h := AONonBulkDenseContentHeaderInit_Init (load_header 0 headerPtr) in
  let h := AONonBulkDenseContentHeaderInit_headerKind AoHeaderKind_NonBulkDenseContent h in
  let h := AONonBulkDenseContentHeaderInit_executorBlockKind executorKind h in
  let h := AONonBulkDenseContentHeaderInit_largeRowCount rowCount h in
  let h := AONonBulkDenseContentHeaderInit_dataLength dataLength h in
  let h := AONonBulkDenseContentHeaderInit_hasFirstRowNum hasFirstRowNum h in
  let headerPtr := store_header 0 h headerPtr in
  let* headerPtr :=
    if hasFirstRowNum
    then AppendOnlyStorageFormat_AddFirstRowNum headerPtr usingChecksums firstRowNum
    else Return headerPtr in
  if usingChecksums
  then AppendOnlyStorageFormat_AddBlockHeaderChecksums
         headerPtr false hasFirstRowNum version dataLength 0
  else Return headerPtr.

(** ** Decoding headers *)

(** Out parameters of [AppendOnlyStorageFormat_GetHeaderInfo]. *)
Record HeaderInfo := mkHeaderInfo {
  hi_headerKind : Z;
  hi_actualHeaderLen : Z
}.

Definition AppendOnlyStorageFormat_GetHeaderInfo
    (headerPtr : list Z) (usingChecksums : bool) (out : HeaderInfo)
    : outcome (AOHeaderCheckError * HeaderInfo) :=
  let header := load_header 0 headerPtr in
  let crcs := if usingChecksums then 2 * sizeof_pg_crc32 else 0 in
  if header_bytes_0_3 header =? 0
  then Return (AOHeaderCheckFirst32BitsAllZeroes, out)
  else if negb (AOHeaderGet_reserved0 header =? 0)
  then Return (AOHeaderCheckReservedBit0Not0, out)
  else
    let headerKind := AOHeaderGet_headerKind header in
    let out := mkHeaderInfo headerKind (hi_actualHeaderLen out) in
    if headerKind =? AoHeaderKind_None
    then Return (AOHeaderCheckInvalidHeaderKindNone, out)
    else if MaxAoHeaderKind <=? headerKind
    then Return (AOHeaderCheckInvalidHeaderKind, out)
    else
      let done (len : Z) (flag : Z) :=
        Return (AOHeaderCheckOk,
          mkHeaderInfo headerKind (if flag =? 0 then len else len + sizeof_int64)) in
      if headerKind =? AoHeaderKind_SmallContent
      then done (AoHeader_RegularSize + crcs)
                (AOSmallContentHeaderGet_hasFirstRowNum header)
      else if headerKind =? AoHeaderKind_LargeContent
      then done (AoHeader_RegularSize + crcs)
                (AOLargeContentHeaderGet_hasFirstRowNum header)
      else if headerKind =? AoHeaderKind_NonBulkDenseContent
      then done (AoHeader_RegularSize + crcs)
                (AONonBulkDenseContentHeaderGet_hasFirstRowNum header)
      else if headerKind =? AoHeaderKind_BulkDenseContent
      then done (AoHeader_LongSize + crcs)
                (AOBulkDenseContentHeaderGet_hasFirstRowNum header)
      else ElogError.

(** Out parameters of the Small, Non-Bulk Dense and Bulk Dense decoders (the
    Non-Bulk Dense one has no compression parameters and leaves them). *)
Record ContentInfo := mkContentInfo {
  ci_overallBlockLen : Z;
  ci_offset : Z;
  ci_uncompressedLen : Z;
  ci_executorBlockKind : Z;
  ci_hasFirstRowNum : bool;
  ci_firstRowNum : Z;
  ci_rowCount : Z;
  ci_isCompressed : bool;
  ci_compressedLen : Z
}.

Definition AppendOnlyStorageFormat_GetSmallContentHeaderInfo
    (headerPtr : list Z) (headerLen : Z) (usingChecksums : bool)
    (blockLimitLen version : Z) (out : ContentInfo)
    : outcome (AOHeaderCheckError * ContentInfo) :=
  let h := load_header 0 headerPtr in
  let executorBlockKind := AOSmallContentHeaderGet_executorBlockKind h in
  let hasFirstRowNum := negb (AOSmallContentHeaderGet_hasFirstRowNum h =? 0) in
  let rowCount := AOSmallContentHeaderGet_rowCount h in
  let offset := AoHeader_RegularSize + (if usingChecksums then 2 * sizeof_pg_crc32 else 0) in
  let firstRowNum := if hasFirstRowNum then rd_i64 offset headerPtr else -1 in
  let offset := if hasFirstRowNum then offset + sizeof_int64 else offset in
  if negb (offset =? headerLen) then ElogError
  else
    let uncompressedLen := AOSmallContentHeaderGet_dataLength h in
    let compressedLen := AOSmallContentHeaderGet_compressedLength h in
    let isCompressed := negb (compressedLen =? 0) in
    let length := if isCompressed then compressedLen else uncompressedLen in
    let info overall :=
      mkContentInfo overall offset uncompressedLen executorBlockKind hasFirstRowNum
        firstRowNum rowCount isCompressed compressedLen in
    if isCompressed && (uncompressedLen <? compressedLen)
    then Return (AOHeaderCheckInvalidCompressedLen, info (ci_overallBlockLen out))
    else
      let* rounded := AOStorage_RoundUp length version in
      let overallBlockLen := offset + rounded in
      if blockLimitLen <? overallBlockLen
      then Return (AOHeaderCheckInvalidOverallBlockLen, info overallBlockLen)
      else Return (AOHeaderCheckOk, info overallBlockLen).

(** Both read the Small Content fields whatever the header kind. *)
Definition AppendOnlyStorageFormat_GetUncompressedLen (headerPtr : list Z) : Z :=
  AOSmallContentHeaderGet_dataLength (load_header 0 headerPtr).

Definition AppendOnlyStorageFormat_GetCompressedLen (headerPtr : list Z) : Z :=
  AOSmallContentHeaderGet_compressedLength (load_header 0 headerPtr).

(** Out parameters of [AppendOnlyStorageFormat_GetLargeContentHeaderInfo]. *)
Record LargeContentInfo := mkLargeContentInfo {
  li_largeContentLen : Z;
  li_executorBlockKind : Z;
  li_hasFirstRowNum : bool;
  li_firstRowNum : Z;
  li_largeRowCount : Z
}.

Definition AppendOnlyStorageFormat_GetLargeContentHeaderInfo
    (headerPtr : list Z) (headerLen : Z) (usingChecksums : bool)
    (out : LargeContentInfo) : outcome (AOHeaderCheckError * LargeContentInfo) :=
  let h := load_header 0 headerPtr in
  let executorBlockKind := AOLargeContentHeaderGet_executorBlockKind h in
  let hasFirstRowNum := negb (AOLargeContentHeaderGet_hasFirstRowNum h =? 0) in
  let largeRowCount := AOLargeContentHeaderGet_largeRowCount h in
  let largeContentLen := AOLargeContentHeaderGet_largeContentLength h in
  let info firstRowNum :=
    mkLargeContentInfo largeContentLen executorBlockKind hasFirstRowNum firstRowNum
      largeRowCount in
  if largeContentLen =? 0
  then Return (AOHeaderCheckLargeContentLenIsZero, info (li_firstRowNum out))
  else
    let offset := AoHeader_RegularSize + (if usingChecksums then 2 * sizeof_pg_crc32 else 0) in
    let firstRowNum := if hasFirstRowNum then rd_i64 offset headerPtr else -1 in
    let offset := if hasFirstRowNum then offset + sizeof_int64 else offset in
    if negb (offset =? headerLen) then ElogError
    else Return (AOHeaderCheckOk, info firstRowNum).

Definition AppendOnlyStorageFormat_GetNonBulkDenseContentHeaderInfo
    (headerPtr : list Z) (headerLen : Z) (usingChecksums : bool)
    (blockLimitLen version : Z) (out : ContentInfo)
    : outcome (AOHeaderCheckError * ContentInfo) :=
  let h := load_header 0 headerPtr in
  let executorBlockKind := AONonBulkDenseContentHeaderGet_executorBlockKind h in
  let hasFirstRowNum := negb (AONonBulkDenseContentHeaderGet_hasFirstRowNum h =? 0) in
  let rowCount := AONonBulkDenseContentHeaderGet_largeRowCount h in
  let offset := AoHeader_RegularSize + (if usingChecksums then 2 * sizeof_pg_crc32 else 0) in
  let firstRowNum := if hasFirstRowNum then rd_i64 offset headerPtr else -1 in
  let offset := if hasFirstRowNum then offset + sizeof_int64 else offset in
  if negb (offset =? headerLen) then ElogError
  else
    let uncompressedLen := AONonBulkDenseContentHeaderGet_dataLength h in
    let* rounded := AOStorage_RoundUp uncompressedLen version in
    let overallBlockLen := offset + rounded in
    let info :=
      mkContentInfo overallBlockLen offset uncompressedLen executorBlockKind
        hasFirstRowNum firstRowNum rowCount (ci_isCompressed out) (ci_compressedLen out) in
    if blockLimitLen <? overallBlockLen
    then Return (AOHeaderCheckInvalidOverallBlockLen, info)
    else Return (AOHeaderCheckOk, info).

Definition AppendOnlyStorageFormat_GetBulkDenseContentHeaderInfo
    (headerPtr : list Z) (headerLen : Z) (usingChecksums : bool)
    (blockLimitLen version : Z) (out : ContentInfo)
    : outcome (AOHeaderCheckError * ContentInfo) :=
  let h := load_header 0 headerPtr in
  let firstHeaderAndChecksumsLen :=
    AoHeader_RegularSize + (if usingChecksums then 2 * sizeof_pg_crc32 else 0) in
  let extHeader := load_header firstHeaderAndChecksumsLen headerPtr in
  let offset := firstHeaderAndChecksumsLen + AoHeader_RegularSize in
  let executorBlockKind := AOBulkDenseContentHeaderGet_executorBlockKind h in
  let hasFirstRowNum := negb (AOBulkDenseContentHeaderGet_hasFirstRowNum h =? 0) in
  let rowCount := AOBulkDenseContentHeaderExtGet_largeRowCount extHeader in
  let firstRowNum := if hasFirstRowNum then rd_i64 offset headerPtr else -1 in
  let offset := if hasFirstRowNum then offset + sizeof_int64 else offset in
  if negb (offset =? headerLen) then ElogError
  else
    let uncompressedLen := AOBulkDenseContentHeaderGet_dataLength h in
    let compressedLen := AOBulkDenseContentHeaderGet_compressedLength h in
    let isCompressed := negb (compressedLen =? 0) in
    let length := if isCompressed then compressedLen else uncompressedLen in
    let info overall :=
      mkContentInfo overall offset uncompressedLen executorBlockKind hasFirstRowNum
        firstRowNum rowCount isCompressed compressedLen in
    if isCompressed && (uncompressedLen <? compressedLen)
    then Return (AOHeaderCheckInvalidCompressedLen, info (ci_overallBlockLen out))
    else
      let* rounded := AOStorage_RoundUp length version in
      let overallBlockLen := offset + rounded in
      if blockLimitLen <? overallBlockLen
      then Return (AOHeaderCheckInvalidOverallBlockLen, info overallBlockLen)
      else Return (AOHeaderCheckOk, info overallBlockLen).

(** The self-check that [AppendOnlyStorageFormat_MakeBulkDenseContentHeader]
    runs on its result in assert-enabled builds: decode the header and
    compare every field with the parameters, raising an error on a
    difference.  [out] holds the values of the uninitialised local
    variables the decoder writes to. *)
Definition MakeBulkDenseContentHeader_check
    (headerPtr : list Z) (usingChecksums hasFirstRowNum : bool)
    (version firstRowNum executorKind rowCount dataLength compressedLength : Z)
    (isCompressed : bool) (out : ContentInfo) : outcome unit :=
  let firstHeaderAndChecksumsLen :=
    AoHeader_RegularSize + (if usingChecksums then 2 * sizeof_pg_crc32 else 0) in
  let checkHeaderLen := firstHeaderAndChecksumsLen + AoHeader_RegularSize in
  let checkHeaderLen :=
    if hasFirstRowNum then checkHeaderLen + sizeof_int64 else checkHeaderLen in
  let checkLength := if compressedLength =? 0 then dataLength else compressedLength in
  let* rounded := AOStorage_RoundUp checkLength version in
  let checkBlockLimitLen := s32 (checkHeaderLen + rounded) in
  let* check :=
    AppendOnlyStorageFormat_GetBulkDenseContentHeaderInfo
      headerPtr checkHeaderLen usingChecksums checkBlockLimitLen version out in
  let (checkError, info) := check : AOHeaderCheckError * ContentInfo in
  if negb (bool_decide (checkError = AOHeaderCheckOk)) then ElogError
  else if negb (ci_overallBlockLen info =? checkBlockLimitLen) then ElogError
  else if negb (ci_offset info =? checkHeaderLen) then ElogError
  else if negb (ci_uncompressedLen info =? dataLength) then ElogError
  else if negb (ci_executorBlockKind info =? executorKind) then ElogError
  else if negb (Bool.eqb (ci_hasFirstRowNum info) hasFirstRowNum) then ElogError
  else if hasFirstRowNum && negb (ci_firstRowNum info =? firstRowNum) then ElogError
  else if negb (ci_rowCount info =? rowCount) then ElogError
  else if negb (Bool.eqb (ci_isCompressed info) isCompressed) then ElogError
  else if negb (ci_compressedLen info =? compressedLength) then ElogError
  else Return tt.

(** [use_assert_checking] is the build option; [locals] the uninitialised
    locals of the self-check. *)
Definition AppendOnlyStorageFormat_MakeBulkDenseContentHeader
    (use_assert_checking : bool) (locals : ContentInfo)
    (headerPtr : list Z) (usingChecksums hasFirstRowNum : bool)
    (version firstRowNum executorKind rowCount dataLength compressedLength : Z)
    : outcome (list Z) :=
  let firstHeaderAndChecksumsLen :=
    AoHeader_RegularSize + (if usingChecksums then 2 * sizeof_pg_crc32 else 0) in
  let h := AOBulkDenseContentHeaderInit_Init (load_header 0 headerPtr) in
  let h := AOBulkDenseContentHeaderInit_headerKind AoHeaderKind_BulkDenseContent h in
  let h := AOBulkDenseContentHeaderInit_executorBlockKind executorKind h in
  let h := AOBulkDenseContentHeaderInit_dataLength dataLength h in
  let h := AOBulkDenseContentHeaderInit_hasFirstRowNum hasFirstRowNum h in
  let isCompressed := compressedLength >? 0 in
  let h := if isCompressed
           then AOBulkDenseContentHeaderInit_compressedLength compressedLength h else h in
  let headerPtr := store_header 0 h headerPtr in
  let ext := AOBulkDenseContentHeaderExtInit_Init
               (load_header firstHeaderAndChecksumsLen headerPtr) in
  let ext := AOBulkDenseContentHeaderExtInit_largeRowCount rowCount ext in
  let headerPtr := store_header firstHeaderAndChecksumsLen ext headerPtr in
  let* headerPtr :=
    if hasFirstRowNum
    then AppendOnlyStorageFormat_AddFirstRowNum headerPtr usingChecksums firstRowNum
    else Return headerPtr in
  let* headerPtr :=
    if usingChecksums
    then AppendOnlyStorageFormat_AddBlockHeaderChecksums
           headerPtr isCompressed hasFirstRowNum version dataLength compressedLength
    else Return headerPtr in
  let* _ :=
    if use_assert_checking
    then MakeBulkDenseContentHeader_check headerPtr usingChecksums hasFirstRowNum
           version firstRowNum executorKind rowCount dataLength compressedLength
           isCompressed locals
    else Return tt in
  Return headerPtr.

(** ** Verifying checksums: the result with the out parameters
    [storedChecksum] and [computedChecksum] *)

Definition AppendOnlyStorageFormat_VerifyHeaderChecksum
    (headerPtr : list Z) : bool * Z * Z :=
  let firstHeaderLen := AoHeader_RegularSize in
  let firstHeaderAndBlockChecksumLen := firstHeaderLen + sizeof_pg_crc32 in
  let storedChecksum := rd_u32 firstHeaderAndBlockChecksumLen headerPtr in
  let computedChecksum :=
    AppendOnlyStorageFormat_ComputeHeaderChecksum
      headerPtr firstHeaderAndBlockChecksumLen in
  (storedChecksum =? computedChecksum, storedChecksum, computedChecksum).

Definition AppendOnlyStorageFormat_VerifyBlockChecksum
    (headerPtr : list Z) (overallBlockLen : Z) : bool * Z * Z :=
  let firstHeaderLen := AoHeader_RegularSize in
  let storedChecksum := rd_u32 firstHeaderLen headerPtr in
  let computedChecksum :=
    AppendOnlyStorageFormat_ComputeBlockChecksum
      headerPtr (firstHeaderLen + sizeof_pg_crc32) overallBlockLen in
  (storedChecksum =? computedChecksum, storedChecksum, computedChecksum).

(** ** Header strings

    The values that [AppendOnlyStorageFormat_BlockHeaderStr] and the four
    functions behind it format, in the order they are printed. *)

Inductive HeaderStr :=
  | SmallContentStr (bytes_0_3 bytes_4_7 headerKind executorBlockKind rowCount : Z)
      (usingChecksums : bool) (headerChecksum blockChecksum dataLength
      compressedLength overallBlockLen : Z)
  | LargeContentStr (bytes_0_3 bytes_4_7 headerKind executorBlockKind rowCount : Z)
      (usingChecksums : bool) (headerChecksum blockChecksum largeContentLength
      overallBlockLen : Z)
  | NonBulkDenseContentStr (bytes_0_3 bytes_4_7 headerKind executorBlockKind rowCount : Z)
      (usingChecksums : bool) (headerChecksum blockChecksum dataLength
      overallBlockLen : Z)
  | BulkDenseContentStr (bytes_0_3 bytes_4_7 ext_bytes_0_3 ext_bytes_4_7 headerKind
      executorBlockKind rowCount : Z) (usingChecksums : bool)
      (headerChecksum blockChecksum dataLength compressedLength overallBlockLen : Z)
  | UnknownKindStr (headerKind : Z).

Definition str_blockChecksum (headerPtr : list Z) (usingChecksums : bool) : Z :=
  if usingChecksums then rd_u32 AoHeader_RegularSize headerPtr else 0.
Definition str_headerChecksum (headerPtr : list Z) (usingChecksums : bool) : Z :=
  if usingChecksums then rd_u32 (AoHeader_RegularSize + sizeof_pg_crc32) headerPtr else 0.

Definition AppendOnlyStorageFormat_SmallContentHeaderStr
    (headerPtr : list Z) (usingChecksums : bool) (version : Z) : outcome HeaderStr :=
  let h := load_header 0 headerPtr in
  let wholeHeaderLen :=
    AoHeader_RegularSize + (if usingChecksums then 2 * sizeof_pg_crc32 else 0) in
  let dataLength := AOSmallContentHeaderGet_dataLength h in
  let compressedLength := AOSmallContentHeaderGet_compressedLength h in
  let* rounded :=
    AOStorage_RoundUp (if compressedLength =? 0 then dataLength else compressedLength)
      version in
  Return (SmallContentStr (header_bytes_0_3 h) (header_bytes_4_7 h)
    (AOSmallContentHeaderGet_headerKind h) (AOSmallContentHeaderGet_executorBlockKind h)
    (AOSmallContentHeaderGet_rowCount h) usingChecksums
    (str_headerChecksum headerPtr usingChecksums)
    (str_blockChecksum headerPtr usingChecksums)
    dataLength compressedLength (wholeHeaderLen + rounded)).

Definition AppendOnlyStorageFormat_LargeContentHeaderStr
    (headerPtr : list Z) (usingChecksums : bool) (version : Z) : outcome HeaderStr :=
  let h := load_header 0 headerPtr in
  let wholeHeaderLen :=
    AoHeader_RegularSize + (if usingChecksums then 2 * sizeof_pg_crc32 else 0) in
  Return (LargeContentStr (header_bytes_0_3 h) (header_bytes_4_7 h)
    (AOHeaderGet_headerKind h) (AOLargeContentHeaderGet_executorBlockKind h)
    (AOLargeContentHeaderGet_largeRowCount h) usingChecksums
    (str_headerChecksum headerPtr usingChecksums)
    (str_blockChecksum headerPtr usingChecksums)
    (AOLargeContentHeaderGet_largeContentLength h) wholeHeaderLen).

Definition AppendOnlyStorageFormat_NonBulkDenseContentHeaderStr
    (headerPtr : list Z) (usingChecksums : bool) (version : Z) : outcome HeaderStr :=
  let h := load_header 0 headerPtr in
  let wholeHeaderLen :=
    AoHeader_RegularSize + (if usingChecksums then 2 * sizeof_pg_crc32 else 0) in
  let dataLength := AONonBulkDenseContentHeaderGet_dataLength h in
  let* rounded := AOStorage_RoundUp dataLength version in
  Return (NonBulkDenseContentStr (header_bytes_0_3 h) (header_bytes_4_7 h)
    (AOHeaderGet_headerKind h) (AONonBulkDenseContentHeaderGet_executorBlockKind h)
    (AONonBulkDenseContentHeaderGet_largeRowCount h) usingChecksums
    (str_headerChecksum headerPtr usingChecksums)
    (str_blockChecksum headerPtr usingChecksums)
    dataLength (wholeHeaderLen + rounded)).

Definition AppendOnlyStorageFormat_BulkDenseContentHeaderStr
    (headerPtr : list Z) (usingChecksums : bool) (version : Z) : outcome HeaderStr :=
  let h := load_header 0 headerPtr in
  let firstHeaderLen := AoHeader_RegularSize in
  let extHeaderLen := AoHeader_RegularSize in
  let firstHeaderAndChecksumsLen :=
    firstHeaderLen + (if usingChecksums then 2 * sizeof_pg_crc32 else 0) in
  let extHeader := load_header firstHeaderAndChecksumsLen headerPtr in
  let dataLength := AOBulkDenseContentHeaderGet_dataLength h in
  let compressedLength := AOBulkDenseContentHeaderGet_compressedLength h in
  let* rounded :=
    AOStorage_RoundUp (if compressedLength =? 0 then dataLength else compressedLength)
      version in
  let overallBlockLen :=
    firstHeaderAndChecksumsLen + extHeaderLen
    + (if negb (AOBulkDenseContentHeaderGet_hasFirstRowNum h =? 0)
       then sizeof_int64 else 0) + rounded in
  Return (BulkDenseContentStr (header_bytes_0_3 h) (header_bytes_4_7 h)
    (header_bytes_0_3 extHeader) (header_bytes_4_7 extHeader)
    (AOHeaderGet_headerKind h) (AOBulkDenseContentHeaderGet_executorBlockKind h)
    (AOBulkDenseContentHeaderExtGet_largeRowCount extHeader) usingChecksums
    (str_headerChecksum headerPtr usingChecksums)
    (str_blockChecksum headerPtr usingChecksums)
    dataLength compressedLength overallBlockLen).

Definition AppendOnlyStorageFormat_BlockHeaderStr
    (headerPtr : list Z) (usingChecksums : bool) (version : Z) : outcome HeaderStr :=
  let aoHeaderKind := AOSmallContentHeaderGet_headerKind (load_header 0 headerPtr) in
  if aoHeaderKind =? AoHeaderKind_SmallContent
  then AppendOnlyStorageFormat_SmallContentHeaderStr headerPtr usingChecksums version
  else if aoHeaderKind =? AoHeaderKind_LargeContent
  then AppendOnlyStorageFormat_LargeContentHeaderStr headerPtr usingChecksums version
  else if aoHeaderKind =? AoHeaderKind_NonBulkDenseContent
  then AppendOnlyStorageFormat_NonBulkDenseContentHeaderStr headerPtr usingChecksums version
  else if aoHeaderKind =? AoHeaderKind_BulkDenseContent
  then AppendOnlyStorageFormat_BulkDenseContentHeaderStr headerPtr usingChecksums version
  else Return (UnknownKindStr aoHeaderKind).

(** ** Lemmas: rounding *)

Definition round_up (l version : Z) : Z :=
  if version >? AORelationVersion_Original
  then AOStorage_RoundUp8 l else AOStorage_RoundUp4 l.

Lemma AOStorage_RoundUp_valid l version :
  AORelationVersion_IsValid version = true →
  AOStorage_RoundUp l version = Return (round_up l version).
Proof.
  intros H. unfold AOStorage_RoundUp, IsAOBlockAndMemtupleAlignmentFixed,
    AORelationVersion_CheckValid. by rewrite H.
Qed.

Lemma round_up_bounds l version : 0 ≤ l → l ≤ round_up l version < l + 8.
Proof.
  intros. unfold round_up, AOStorage_RoundUp8, AOStorage_RoundUp4.
  case_match; divlia.
Qed.

(** ** Lemmas: the last steps of the [Make] operations

    [finish] is what [AddFirstRowNum] and [AddBlockHeaderChecksums] do to a
    buffer whose header words are in place. *)

Section Finish.
Context (isLong ck fr : bool) (n overall : Z).

Definition with_row_num (b : list Z) : list Z :=
  if fr then wr_i64 (AoHeader_Size isLong ck false) n b else b.

Definition with_block_crc (b : list Z) : list Z :=
  wr_u32 8 (AppendOnlyStorageFormat_ComputeBlockChecksum b 12 overall) b.

Definition with_header_crc (b : list Z) : list Z :=
  wr_u32 12 (AppendOnlyStorageFormat_ComputeHeaderChecksum b 12) b.

Definition finish (b : list Z) : list Z :=
  if ck then with_header_crc (with_block_crc (with_row_num b))
  else with_row_num b.

Lemma AoHeader_Size_split b1 b2 :
  AoHeader_Size isLong b1 b2 =
    (if isLong then 16 else 8) + (if b1 then 8 else 0) + (if b2 then 8 else 0).
Proof. by destruct isLong, b1, b2. Qed.

Lemma blen_finish b : blen (finish b) = blen b.
Proof.
  unfold finish, with_header_crc, with_block_crc, with_row_num.
  destruct ck, fr; by rewrite ?blen_wr.
Qed.

(** Reads that avoid the checksums and the row number are unaffected. *)
Lemma slice_finish off m b :
  0 ≤ off → 0 ≤ m →
  (ck = false ∨ off + m ≤ 8 ∨ 16 ≤ off) →
  (fr = false ∨ off + m ≤ AoHeader_Size isLong ck false
   ∨ AoHeader_Size isLong ck true ≤ off) →
  slice off m (finish b) = slice off m b.
Proof.
  intros Hoff Hm Hck Hfr. rewrite !AoHeader_Size_split in *.
  unfold finish, with_header_crc, with_block_crc, with_row_num.
  rewrite !AoHeader_Size_split.
  destruct ck, fr, isLong; simpl in *; try done;
    repeat (rewrite slice_wr_disj by lia); done.
Qed.

Lemma rd_finish m off b :
  0 ≤ off → 0 ≤ m →
  (ck = false ∨ off + m ≤ 8 ∨ 16 ≤ off) →
  (fr = false ∨ off + m ≤ AoHeader_Size isLong ck false
   ∨ AoHeader_Size isLong ck true ≤ off) →
  rd m off (finish b) = rd m off b.
Proof. intros. unfold rd. by rewrite slice_finish. Qed.

Lemma load_header_finish b : load_header 0 (finish b) = load_header 0 b.
Proof.
  unfold load_header. rewrite !rd_finish; [done|..];
    rewrite ?AoHeader_Size_split; destruct isLong, ck; lia.
Qed.

(** The extension header, behind the first header and its checksums. *)
Lemma load_ext_finish b :
  isLong = true →
  load_header (8 + if ck then 8 else 0) (finish b)
    = load_header (8 + if ck then 8 else 0) b.
Proof.
  intros Hl. unfold load_header. rewrite !rd_finish; [done|..];
    rewrite ?AoHeader_Size_split, ?Hl; destruct ck; lia.
Qed.

Lemma rd_row_num_finish b :
  fr = true → AoHeader_Size isLong ck true ≤ blen b → - 2 ^ 63 ≤ n < 2 ^ 63 →
  rd_i64 (AoHeader_Size isLong ck false) (finish b) = n.
Proof.
  intros Hfr Hb Hn. rewrite AoHeader_Size_split in *.
  unfold finish, with_header_crc, with_block_crc, with_row_num.
  rewrite Hfr, AoHeader_Size_split. transitivity (s64 n); [|by apply s64_id].
  unfold rd_i64. rewrite <- (s64_mod n). f_equal.
  destruct ck, isLong; simpl in *; buf_simpl; done.
Qed.

Lemma block_crc_range b len ov :
  0 ≤ AppendOnlyStorageFormat_ComputeBlockChecksum b len ov < 2 ^ 32.
Proof. apply COMP_CRC32_range. unfold INIT_CRC32. lia. Qed.

Lemma header_crc_range b len :
  0 ≤ AppendOnlyStorageFormat_ComputeHeaderChecksum b len < 2 ^ 32.
Proof. apply COMP_CRC32_range. unfold INIT_CRC32. lia. Qed.

(** The checksums that [finish] writes verify. *)
Lemma verify_header_finish b :
  ck = true → 16 ≤ blen b →
  (AppendOnlyStorageFormat_VerifyHeaderChecksum (finish b)).1.1 = true.
Proof.
  intros Hck Hb. unfold finish. rewrite Hck.
  set (c := with_block_crc (with_row_num b)).
  assert (Hc : blen c = blen b)
    by (subst c; unfold with_block_crc, with_row_num; destruct fr; by rewrite ?blen_wr).
  unfold AppendOnlyStorageFormat_VerifyHeaderChecksum, with_header_crc. simpl.
  apply Z.eqb_eq.
  change (AoHeader_RegularSize + sizeof_pg_crc32) with 12.
  rewrite rd_u32_wr by lia. rewrite u32_id by apply header_crc_range.
  unfold AppendOnlyStorageFormat_ComputeHeaderChecksum.
  by rewrite slice_wr_disj by (change (u32 12) with 12; lia).
Qed.

Lemma verify_block_finish b :
  ck = true → 16 ≤ blen b → 16 ≤ overall < 2 ^ 31 →
  (AppendOnlyStorageFormat_VerifyBlockChecksum (finish b) overall).1.1 = true.
Proof.
  intros Hck Hb Ho. unfold finish. rewrite Hck.
  set (c := with_row_num b).
  assert (Hc : blen c = blen b)
    by (subst c; unfold with_row_num; destruct fr; by rewrite ?blen_wr).
  unfold AppendOnlyStorageFormat_VerifyBlockChecksum, with_header_crc, with_block_crc.
  simpl. apply Z.eqb_eq. change AoHeader_RegularSize with 8.
  change sizeof_pg_crc32 with 4. rewrite rd_wr_disj by lia.
  rewrite rd_u32_wr by lia. rewrite u32_id by apply block_crc_range.
  unfold AppendOnlyStorageFormat_ComputeBlockChecksum.
  change (8 + 4 + sizeof_pg_crc32) with 16. change (12 + sizeof_pg_crc32) with 16.
  rewrite (u32_id (overall - 16)) by lia.
  by rewrite !slice_wr_disj by lia.
Qed.
End Finish.

(** ** Lemmas: the words the [Init] macros build *)

Definition small_words (exec row dl : Z) (fr : bool) (cl : Z) : AOHeader :=
  let h := AOSmallContentHeaderInit_headerKind AoHeaderKind_SmallContent zero_header in
  let h := AOSmallContentHeaderInit_executorBlockKind exec h in
  let h := AOSmallContentHeaderInit_rowCount row h in
  let h := AOSmallContentHeaderInit_dataLength dl h in
  let h := AOSmallContentHeaderInit_hasFirstRowNum fr h in
  if cl >? 0 then AOSmallContentHeaderInit_compressedLength cl h else h.

Definition large_words (exec row len : Z) (fr : bool) : AOHeader :=
  let h := AOLargeContentHeaderInit_headerKind AoHeaderKind_LargeContent zero_header in
  let h := AOLargeContentHeaderInit_executorBlockKind exec h in
  let h := AOLargeContentHeaderInit_largeRowCount row h in
  let h := AOLargeContentHeaderInit_largeContentLength len h in
  AOLargeContentHeaderInit_hasFirstRowNum fr h.

Definition nonbulk_words (exec row dl : Z) (fr : bool) : AOHeader :=
  let h := AONonBulkDenseContentHeaderInit_headerKind
             AoHeaderKind_NonBulkDenseContent zero_header in
  let h := AONonBulkDenseContentHeaderInit_executorBlockKind exec h in
  let h := AONonBulkDenseContentHeaderInit_largeRowCount row h in
  let h := AONonBulkDenseContentHeaderInit_dataLength dl h in
  AONonBulkDenseContentHeaderInit_hasFirstRowNum fr h.

Definition bulk_words (exec dl : Z) (fr : bool) (cl : Z) : AOHeader :=
  let h := AOBulkDenseContentHeaderInit_headerKind
             AoHeaderKind_BulkDenseContent zero_header in
  let h := AOBulkDenseContentHeaderInit_executorBlockKind exec h in
  let h := AOBulkDenseContentHeaderInit_dataLength dl h in
  let h := AOBulkDenseContentHeaderInit_hasFirstRowNum fr h in
  if cl >? 0 then AOBulkDenseContentHeaderInit_compressedLength cl h else h.

Definition bulk_ext_words (row : Z) : AOHeader :=
  AOBulkDenseContentHeaderExtInit_largeRowCount row zero_header.

(** A well-formed header of kind [kind]: 32-bit words, the reserved bit
    clear. *)
Definition wf_header (h : AOHeader) (kind : Z) (fr : bool) : Prop :=
  0 ≤ header_bytes_0_3 h < 2 ^ 32 ∧ 0 ≤ header_bytes_4_7 h < 2 ^ 32 ∧
  AOHeaderGet_reserved0 h = 0 ∧ AOHeaderGet_headerKind h = kind ∧
  AOSmallContentHeaderGet_hasFirstRowNum h = Z.b2z fr.

(** A conditional field store is the store of the field or of 0. *)
Lemma or47_cond (c : bool) (m : Z) h :
  (if c then or47 m h else h) = or47 (if c then m else 0) h.
Proof.
  destruct c; [done|]. unfold or47. destruct h. simpl. by rewrite Z.lor_0_r.
Qed.

Lemma field_put_0 lo w : field_put lo w 0 = 0.
Proof. unfold field_put. by rewrite Z.land_0_l, Z.shiftl_0_l. Qed.

Lemma opt_len_put (cl : Z) :
  0 ≤ cl → (if cl >? 0 then field_put 0 21 cl else 0) = field_put 0 21 cl.
Proof.
  intros. destruct (Z.gtb_spec cl 0); [done|].
  replace cl with 0 by lia. by rewrite field_put_0.
Qed.

Ltac words_norm :=
  unfold AOSmallContentHeaderInit_hasFirstRowNum, AOLargeContentHeaderInit_hasFirstRowNum,
    AONonBulkDenseContentHeaderInit_hasFirstRowNum,
    AOBulkDenseContentHeaderInit_hasFirstRowNum,
    AOSmallContentHeaderInit_compressedLength,
    AOBulkDenseContentHeaderInit_compressedLength;
  rewrite ?or03_flag, ?or47_cond.

Ltac words_range :=
  repeat first
    [ apply lor_range; [lia| |]
    | match goal with |- 0 ≤ field_put ?lo ?w ?e < 2 ^ 32 =>
        pose proof (field_put_range lo w e ltac:(lia) ltac:(lia));
        pose proof (Z.pow_le_mono_r 2 (lo + w) 32 ltac:(lia) ltac:(lia)); lia end
    | lia ].

(** The reserved bit of a word built from fields below bit 31. *)
Lemma reserved0_0 x : 0 ≤ x < 2 ^ 31 → Z.shiftr x 31 = 0.
Proof. intros. rewrite Z.shiftr_div_pow2 by lia. by apply Z.div_small. Qed.

Ltac words_range31 :=
  repeat first
    [ apply lor_range; [lia| |]
    | match goal with |- 0 ≤ field_put ?lo ?w ?e < 2 ^ 31 =>
        pose proof (field_put_range lo w e ltac:(lia) ltac:(lia));
        pose proof (Z.pow_le_mono_r 2 (lo + w) 31 ltac:(lia) ltac:(lia)); lia end
    | lia ].

Lemma b2z_range (b : bool) : 0 ≤ Z.b2z b < 2 ^ 1.
Proof. destruct b; simpl; lia. Qed.

Ltac words_solve :=
  autorewrite with ao_mask; field_simpl; first [ done | lia | idtac ].

(** [wf_header] of a composition of [Init] macros. *)
Ltac wf_solve :=
  words_norm;
  unfold wf_header, AOHeaderGet_reserved0, AOHeaderGet_headerKind,
    AOSmallContentHeaderGet_hasFirstRowNum; simpl; autorewrite with ao_mask;
  rewrite ?opt_len_put by done;
  split; [words_range | split; [words_range | split;
    [apply reserved0_0; words_range31 | split]]];
  words_solve.

Lemma small_words_wf exec row dl fr cl :
  0 ≤ cl → wf_header (small_words exec row dl fr cl) AoHeaderKind_SmallContent fr.
Proof.
  intros Hcl. pose proof (b2z_range fr). unfold small_words, AoHeaderKind_SmallContent.
  wf_solve.
Qed.

Lemma large_words_wf exec row len fr :
  wf_header (large_words exec row len fr) AoHeaderKind_LargeContent fr.
Proof.
  pose proof (b2z_range fr). unfold large_words, AoHeaderKind_LargeContent. wf_solve.
Qed.

Lemma nonbulk_words_wf exec row dl fr :
  wf_header (nonbulk_words exec row dl fr) AoHeaderKind_NonBulkDenseContent fr.
Proof.
  pose proof (b2z_range fr). unfold nonbulk_words, AoHeaderKind_NonBulkDenseContent.
  wf_solve.
Qed.

Lemma bulk_words_wf exec dl fr cl :
  0 ≤ cl → wf_header (bulk_words exec dl fr cl) AoHeaderKind_BulkDenseContent fr.
Proof.
  intros Hcl. pose proof (b2z_range fr).
  unfold bulk_words, AoHeaderKind_BulkDenseContent. wf_solve.
Qed.

(** The split fields of Small, Bulk Dense and Large Content headers. *)
Lemma split_len_get w0 w1 dl :
  0 ≤ dl < 2 ^ 21 →
  field_get 0 10 w0 = field_get 11 10 dl → field_get 21 11 w1 = field_get 0 11 dl →
  Z.lor (Z.shiftl (field_get 0 10 w0) 11) (field_get 21 11 w1) = dl.
Proof. intros H E0 E1. apply (split_field_get 10 11); try done; lia. Qed.

Lemma split_row_get w0 w1 row :
  0 ≤ row < 2 ^ 25 →
  field_get 0 23 w0 = field_get 2 23 row → field_get 30 2 w1 = field_get 0 2 row →
  Z.lor (Z.shiftl (field_get 0 23 w0) 2) (field_get 30 2 w1) = row.
Proof. intros H E0 E1. apply (split_field_get 23 2); try done; lia. Qed.

(** Normalise fields, the halves of a split field included. *)
Ltac field_simpl_split :=
  rewrite ?field_get_lor, ?field_get_0;
  repeat first
    [ rewrite field_put_split by lia
    | rewrite field_get_put by lia
    | rewrite field_get_put_other by lia
    | rewrite field_put_low by lia ];
  rewrite ?Z.lor_0_l, ?Z.lor_0_r.

Ltac get_solve :=
  words_norm; simpl; autorewrite with ao_mask; rewrite ?opt_len_put by lia;
  lazymatch goal with
  | |- Z.lor (Z.shiftl (field_get 0 10 _) 11) _ = _ =>
      apply split_len_get; [lia| |]; field_simpl_split; done
  | |- Z.lor (Z.shiftl (field_get 0 23 _) 2) _ = _ =>
      apply split_row_get; [lia| |]; field_simpl_split; done
  | |- _ => field_simpl; done
  end.

Lemma small_words_get exec row dl fr cl :
  0 ≤ exec < 2 ^ 3 → 0 ≤ row < 2 ^ 14 → 0 ≤ dl < 2 ^ 21 → 0 ≤ cl < 2 ^ 21 →
  let h := small_words exec row dl fr cl in
  AOSmallContentHeaderGet_executorBlockKind h = exec ∧
  AOSmallContentHeaderGet_rowCount h = row ∧
  AOSmallContentHeaderGet_dataLength h = dl ∧
  AOSmallContentHeaderGet_compressedLength h = cl.
Proof.
  intros. subst h. pose proof (b2z_range fr). unfold small_words,
    AOSmallContentHeaderGet_executorBlockKind, AOSmallContentHeaderGet_rowCount,
    AOSmallContentHeaderGet_dataLength, AOSmallContentHeaderGet_compressedLength,
    AoHeaderKind_SmallContent.
  split_and!; get_solve.
Qed.

Lemma large_words_get exec row len fr :
  0 ≤ exec < 2 ^ 3 → 0 ≤ row < 2 ^ 25 → 0 ≤ len < 2 ^ 30 →
  let h := large_words exec row len fr in
  AOLargeContentHeaderGet_executorBlockKind h = exec ∧
  AOLargeContentHeaderGet_largeRowCount h = row ∧
  AOLargeContentHeaderGet_largeContentLength h = len.
Proof.
  intros. subst h. pose proof (b2z_range fr). unfold large_words,
    AOLargeContentHeaderGet_executorBlockKind, AOLargeContentHeaderGet_largeRowCount,
    AOLargeContentHeaderGet_largeContentLength, AoHeaderKind_LargeContent.
  split_and!; get_solve.
Qed.

Lemma nonbulk_words_get exec row dl fr :
  0 ≤ exec < 2 ^ 3 → 0 ≤ row < 2 ^ 30 → 0 ≤ dl < 2 ^ 21 →
  let h := nonbulk_words exec row dl fr in
  AONonBulkDenseContentHeaderGet_executorBlockKind h = exec ∧
  AONonBulkDenseContentHeaderGet_largeRowCount h = row ∧
  AONonBulkDenseContentHeaderGet_dataLength h = dl.
Proof.
  intros. subst h. pose proof (b2z_range fr). unfold nonbulk_words,
    AONonBulkDenseContentHeaderGet_executorBlockKind,
    AONonBulkDenseContentHeaderGet_largeRowCount,
    AONonBulkDenseContentHeaderGet_dataLength, AoHeaderKind_NonBulkDenseContent.
  split_and!; get_solve.
Qed.

Lemma bulk_words_get exec dl fr cl :
  0 ≤ exec < 2 ^ 3 → 0 ≤ dl < 2 ^ 21 → 0 ≤ cl < 2 ^ 21 →
  let h := bulk_words exec dl fr cl in
  AOBulkDenseContentHeaderGet_executorBlockKind h = exec ∧
  AOBulkDenseContentHeaderGet_dataLength h = dl ∧
  AOBulkDenseContentHeaderGet_compressedLength h = cl.
Proof.
  intros. subst h. pose proof (b2z_range fr). unfold bulk_words,
    AOBulkDenseContentHeaderGet_executorBlockKind,
    AOBulkDenseContentHeaderGet_dataLength, AOBulkDenseContentHeaderGet_compressedLength,
    AoHeaderKind_BulkDenseContent.
  split_and!; get_solve.
Qed.

Lemma bulk_ext_words_get row :
  0 ≤ row < 2 ^ 30 →
  AOBulkDenseContentHeaderExtGet_largeRowCount (bulk_ext_words row) = row.
Proof.
  intros. unfold bulk_ext_words, AOBulkDenseContentHeaderExtGet_largeRowCount. get_solve.
Qed.

(** ** Lemmas: storing and loading the words *)

Lemma load_store_header off h b :
  0 ≤ off → off + 8 ≤ blen b →
  0 ≤ header_bytes_0_3 h < 2 ^ 32 → 0 ≤ header_bytes_4_7 h < 2 ^ 32 →
  load_header off (store_header off h b) = h.
Proof.
  intros Ho Hb H0 H1. unfold load_header, store_header. destruct h as [w0 w1].
  simpl in *. rewrite rd_u32_wr by (rewrite ?blen_wr; lia).
  rewrite rd_wr_disj by lia. rewrite rd_u32_wr by lia. by rewrite !u32_id.
Qed.

Lemma load_store_header_disj off off' h b :
  0 ≤ off → 0 ≤ off' → off + 8 ≤ off' ∨ off' + 8 ≤ off →
  load_header off (store_header off' h b) = load_header off b.
Proof.
  intros. unfold load_header, store_header. by rewrite !rd_wr_disj by lia.
Qed.

Lemma blen_store_header off h b : blen (store_header off h b) = blen b.
Proof. unfold store_header. by rewrite !blen_wr. Qed.

Lemma slice_store_header off n off' h b :
  0 ≤ off → 0 ≤ n → 0 ≤ off' → off + n ≤ off' ∨ off' + 8 ≤ off →
  slice off n (store_header off' h b) = slice off n b.
Proof. intros. unfold store_header. by rewrite !slice_wr_disj by lia. Qed.

(** The kind accessors are the same macro. *)
Lemma kind_small h : AOSmallContentHeaderGet_headerKind h = AOHeaderGet_headerKind h.
Proof. done. Qed.

(** [AddFirstRowNum] and [AddBlockHeaderChecksums] on a well-formed header
    are [finish]. *)
Lemma add_parts_finish b h kind fr isLong ck isComp frc version n dl cl :
  wf_header h kind fr → AoHeader_IsLong kind = Return isLong →
  load_header 0 b = h → AORelationVersion_IsValid version = true →
  AoHeader_Size isLong ck fr ≤ blen b →
  (let* b := (if fr then AppendOnlyStorageFormat_AddFirstRowNum b ck n else Return b) in
   if ck then AppendOnlyStorageFormat_AddBlockHeaderChecksums b isComp frc version dl cl
   else Return b)
  = Return (finish isLong ck fr n
      (s32 (AoHeader_Size isLong true frc
            + round_up (if isComp then cl else dl) version)) b).
Proof.
  intros (H0 & H1 & Hr & Hk & Hf) Hlong Hl Hv Hb.
  assert (Hadd : (if fr then AppendOnlyStorageFormat_AddFirstRowNum b ck n else Return b)
    = Return (with_row_num isLong ck fr n b)).
  { unfold with_row_num, AppendOnlyStorageFormat_AddFirstRowNum.
    destruct fr; [|done]. rewrite Hl, kind_small, Hk, Hlong. simpl.
    by destruct isLong, ck. }
  assert (Hl' : load_header 0 (with_row_num isLong ck fr n b) = h).
  { rewrite <- Hl. unfold with_row_num, load_header.
    destruct fr; [|done]. rewrite AoHeader_Size_split.
    by rewrite !rd_wr_disj by (destruct isLong, ck; lia). }
  rewrite Hadd. simpl. unfold finish. destruct ck; [|done].
  unfold AppendOnlyStorageFormat_AddBlockHeaderChecksums.
  rewrite Hl', kind_small, Hk, Hlong. simpl.
  rewrite AOStorage_RoundUp_valid by done. simpl.
  rewrite AoHeader_Size_split.
  unfold with_header_crc, with_block_crc. by destruct isLong, frc.
Qed.

(** ** Lemmas: decoding a well-formed header *)

Lemma get_header_info_wf b h kind fr isLong ck out :
  load_header 0 b = h → wf_header h kind fr → AoHeader_IsLong kind = Return isLong →
  AppendOnlyStorageFormat_GetHeaderInfo b ck out
    = Return (AOHeaderCheckOk, mkHeaderInfo kind (AoHeader_Size isLong ck fr)).
Proof.
  intros Hl (H0 & H1 & Hr & Hk & Hf) Hlong.
  assert (Hnz : header_bytes_0_3 h ≠ 0).
  { intros E. unfold AOHeaderGet_headerKind in Hk. rewrite E in Hk. simpl in Hk.
    subst kind. done. }
  unfold AppendOnlyStorageFormat_GetHeaderInfo. rewrite Hl, Hr, Hk.
  rewrite (proj2 (Z.eqb_neq _ _)) by done. rewrite Z.eqb_refl. cbn [negb].
  change (AOLargeContentHeaderGet_hasFirstRowNum h)
    with (AOSmallContentHeaderGet_hasFirstRowNum h).
  change (AONonBulkDenseContentHeaderGet_hasFirstRowNum h)
    with (AOSmallContentHeaderGet_hasFirstRowNum h).
  change (AOBulkDenseContentHeaderGet_hasFirstRowNum h)
    with (AOSmallContentHeaderGet_hasFirstRowNum h).
  rewrite Hf. clear - Hlong. unfold AoHeader_IsLong in Hlong.
  destruct (Z.eqb_spec kind AoHeaderKind_SmallContent) as [->|];
    [|destruct (Z.eqb_spec kind AoHeaderKind_LargeContent) as [->|];
    [|destruct (Z.eqb_spec kind AoHeaderKind_NonBulkDenseContent) as [->|];
    [|destruct (Z.eqb_spec kind AoHeaderKind_BulkDenseContent) as [->|]]]];
    try discriminate Hlong; injection Hlong as <-; by destruct ck, fr.
Qed.

(** Lengths of a 21-bit length field round up without overflow. *)
Lemma overall_s32 isLong fr l version :
  0 ≤ l < 2 ^ 30 →
  s32 (AoHeader_Size isLong true fr + round_up l version)
    = AoHeader_Size isLong true fr + round_up l version.
Proof.
  intros. pose proof (round_up_bounds l version). rewrite AoHeader_Size_split.
  apply s32_id. destruct isLong, fr; lia.
Qed.

Lemma b2z_eqb0 (fr : bool) : negb (Z.b2z fr =? 0) = fr.
Proof. by destruct fr. Qed.

(** What the decoders of Small and Bulk Dense Content return for the content
    fields [dl] and [cl]. *)
Definition decoded (isLong ck fr : bool) (version n exec row dl cl : Z) : ContentInfo :=
  mkContentInfo
    (AoHeader_Size isLong ck fr + round_up (if 0 <? cl then cl else dl) version)
    (AoHeader_Size isLong ck fr) dl exec fr (if fr then n else -1) row (0 <? cl) cl.

Lemma decode_row_num off off' b (fr : bool) n :
  off' = off → (fr = true → rd_i64 off b = n) →
  (if fr then rd_i64 off' b else -1) = (if fr then n else -1).
Proof. intros -> H. destruct fr; [by apply H | done]. Qed.

Lemma decode_offset isLong ck (fr : bool) off :
  off = AoHeader_Size isLong ck false →
  (if fr then off + sizeof_int64 else off) = AoHeader_Size isLong ck fr.
Proof. intros ->. by destruct isLong, ck, fr. Qed.

Lemma small_info_wf b ck fr version n exec row dl cl limit out :
  load_header 0 b = small_words exec row dl fr cl →
  (fr = true → rd_i64 (AoHeader_Size false ck false) b = n) →
  AORelationVersion_IsValid version = true →
  0 ≤ exec < 2 ^ 3 → 0 ≤ row < 2 ^ 14 → 0 ≤ dl < 2 ^ 21 → 0 ≤ cl ≤ dl →
  ci_overallBlockLen (decoded false ck fr version n exec row dl cl) ≤ limit →
  AppendOnlyStorageFormat_GetSmallContentHeaderInfo b (AoHeader_Size false ck fr)
    ck limit version out
  = Return (AOHeaderCheckOk, decoded false ck fr version n exec row dl cl).
Proof.
  intros Hl Hn Hv He Hr Hd Hc Hlim.
  destruct (small_words_wf exec row dl fr cl) as (_ & _ & _ & _ & Hf); [lia|].
  destruct (small_words_get exec row dl fr cl) as (E1 & E2 & E3 & E4); [lia..|].
  unfold AppendOnlyStorageFormat_GetSmallContentHeaderInfo.
  rewrite Hl, E1, E2, E3, E4, Hf, b2z_eqb0.
  rewrite (proj2 (Z.ltb_ge dl cl)), andb_false_r by lia.
  rewrite AOStorage_RoundUp_valid by done.
  unfold decoded in *. cbn [ci_overallBlockLen] in Hlim.
  assert (Hz : negb (cl =? 0) = (0 <? cl)) by lia. rewrite Hz.
  rewrite (decode_row_num (AoHeader_Size false ck false) _ b fr n) by (done || by destruct ck).
  rewrite (decode_offset false ck fr) by (by destruct ck).
  rewrite Z.eqb_refl. cbn [negb outcome_bind].
  by rewrite (proj2 (Z.ltb_ge limit _)) by exact Hlim.
Qed.

Lemma bulk_info_wf b (ck fr : bool) version n exec row dl cl limit out :
  load_header 0 b = bulk_words exec dl fr cl →
  load_header (8 + if ck then 8 else 0) b = bulk_ext_words row →
  (fr = true → rd_i64 (AoHeader_Size true ck false) b = n) →
  AORelationVersion_IsValid version = true →
  0 ≤ exec < 2 ^ 3 → 0 ≤ row < 2 ^ 30 → 0 ≤ dl < 2 ^ 21 → 0 ≤ cl ≤ dl →
  ci_overallBlockLen (decoded true ck fr version n exec row dl cl) ≤ limit →
  AppendOnlyStorageFormat_GetBulkDenseContentHeaderInfo b (AoHeader_Size true ck fr)
    ck limit version out
  = Return (AOHeaderCheckOk, decoded true ck fr version n exec row dl cl).
Proof.
  intros Hl Hx Hn Hv He Hr Hd Hc Hlim.
  destruct (bulk_words_wf exec dl fr cl) as (_ & _ & _ & _ & Hf); [lia|].
  destruct (bulk_words_get exec dl fr cl) as (E1 & E2 & E3); [lia..|].
  unfold AppendOnlyStorageFormat_GetBulkDenseContentHeaderInfo.
  change (AoHeader_RegularSize + (if ck then 2 * sizeof_pg_crc32 else 0))
    with (8 + if ck then 8 else 0).
  change (AOBulkDenseContentHeaderGet_hasFirstRowNum (load_header 0 b))
    with (AOSmallContentHeaderGet_hasFirstRowNum (load_header 0 b)).
  rewrite Hl, Hx, E1, E2, E3, Hf, b2z_eqb0, bulk_ext_words_get by done.
  rewrite (proj2 (Z.ltb_ge dl cl)), andb_false_r by lia.
  rewrite AOStorage_RoundUp_valid by done.
  unfold decoded in *. cbn [ci_overallBlockLen] in Hlim.
  assert (Hz : negb (cl =? 0) = (0 <? cl)) by lia. rewrite Hz.
  rewrite (decode_row_num (AoHeader_Size true ck false) _ b fr n) by (done || by destruct ck).
  rewrite (decode_offset true ck fr) by (by destruct ck).
  rewrite Z.eqb_refl. cbn [negb outcome_bind].
  by rewrite (proj2 (Z.ltb_ge limit _)) by exact Hlim.
Qed.

Lemma make_small_eq b ck fr version n exec row dl cl :
  AORelationVersion_IsValid version = true → 0 ≤ cl →
  AoHeader_Size false ck fr ≤ blen b →
  AppendOnlyStorageFormat_MakeSmallContentHeader b ck fr version n exec row dl cl
  = Return (finish false ck fr n
      (s32 (AoHeader_Size false true fr + round_up (if 0 <? cl then cl else dl) version))
      (store_header 0 (small_words exec row dl fr cl) b)).
Proof.
  intros Hv Hcl Hb. pose proof (small_words_wf exec row dl fr cl Hcl) as Hwf.
  replace (0 <? cl) with (cl >? 0) by lia.
  apply (add_parts_finish _ (small_words exec row dl fr cl) AoHeaderKind_SmallContent);
    [done..| |done|by rewrite blen_store_header].
  destruct Hwf as (H0 & H1 & _). apply load_store_header; [done| |done..].
  rewrite AoHeader_Size_split in Hb. destruct ck, fr; lia.
Qed.

Lemma make_large_eq b ck fr version n exec row len :
  AORelationVersion_IsValid version = true → AoHeader_Size false ck fr ≤ blen b →
  AppendOnlyStorageFormat_MakeLargeContentHeader b ck fr version n exec row len
  = Return (finish false ck fr n (s32 (AoHeader_Size false true false + round_up 0 version))
      (store_header 0 (large_words exec row len fr) b)).
Proof.
  intros Hv Hb. pose proof (large_words_wf exec row len fr) as Hwf.
  apply (add_parts_finish _ (large_words exec row len fr) AoHeaderKind_LargeContent);
    [done..| |done|by rewrite blen_store_header].
  destruct Hwf as (H0 & H1 & _). apply load_store_header; [done| |done..].
  rewrite AoHeader_Size_split in Hb. destruct ck, fr; lia.
Qed.

Lemma make_nonbulk_eq b ck fr version n exec row dl :
  AORelationVersion_IsValid version = true → AoHeader_Size false ck fr ≤ blen b →
  AppendOnlyStorageFormat_MakeNonBulkDenseContentHeader b ck fr version n exec row dl
  = Return (finish false ck fr n (s32 (AoHeader_Size false true fr + round_up dl version))
      (store_header 0 (nonbulk_words exec row dl fr) b)).
Proof.
  intros Hv Hb. pose proof (nonbulk_words_wf exec row dl fr) as Hwf.
  apply (add_parts_finish _ (nonbulk_words exec row dl fr)
           AoHeaderKind_NonBulkDenseContent);
    [done..| |done|by rewrite blen_store_header].
  destruct Hwf as (H0 & H1 & _). apply load_store_header; [done| |done..].
  rewrite AoHeader_Size_split in Hb. destruct ck, fr; lia.
Qed.

(** ** Theorems: round trips *)

Section Made.
(** A block whose header words [h] are in place, finished. *)
Context (isLong ck fr : bool) (n overall kind : Z) (h : AOHeader) (b : list Z).
Hypothesis Hwf : wf_header h kind fr.
Hypothesis Hlong : AoHeader_IsLong kind = Return isLong.
Hypothesis Hb : AoHeader_Size isLong ck fr ≤ blen b.
Hypothesis Hl : load_header 0 b = h.
Hypothesis Hn : - 2 ^ 63 ≤ n < 2 ^ 63.

Lemma made_load : load_header 0 (finish isLong ck fr n overall b) = h.
Proof using Hl. by rewrite load_header_finish. Qed.

Lemma made_row_num :
  fr = true →
  rd_i64 (AoHeader_Size isLong ck false) (finish isLong ck fr n overall b) = n.
Proof using Hb Hn. 
  intros Hfr. pose proof Hb as Hb'. rewrite Hfr in Hb'. by apply rd_row_num_finish.
Qed.

Lemma made_info out :
  AppendOnlyStorageFormat_GetHeaderInfo (finish isLong ck fr n overall b) ck out
    = Return (AOHeaderCheckOk, mkHeaderInfo kind (AoHeader_Size isLong ck fr)).
Proof using Hwf Hlong Hl. eapply get_header_info_wf; [apply made_load|done..]. Qed.

Lemma made_content off m :
  AoHeader_Size isLong ck fr ≤ off → 0 ≤ m →
  slice off m (finish isLong ck fr n overall b) = slice off m b.
Proof using.
  clear Hwf Hlong Hb Hl. intros Ho Hm. rewrite AoHeader_Size_split in Ho.
  apply slice_finish; rewrite ?AoHeader_Size_split; destruct isLong, ck, fr; lia.
Qed.

Lemma made_verify :
  16 ≤ overall < 2 ^ 31 → ck = true →
  (AppendOnlyStorageFormat_VerifyHeaderChecksum (finish isLong ck fr n overall b)).1.1
    = true ∧
  (AppendOnlyStorageFormat_VerifyBlockChecksum
     (finish isLong ck fr n overall b) overall).1.1 = true.
Proof using Hb.
  clear Hwf Hlong Hl. intros Ho Hck. rewrite AoHeader_Size_split in Hb.
  split; [apply verify_header_finish | apply verify_block_finish];
    rewrite ?Hck in *; destruct isLong, fr; (done || lia).
Qed.
End Made.

(** All of it, for the words [h] stored at the start of [b]. *)
Lemma made_block isLong ck fr n overall kind h b :
  wf_header h kind fr → AoHeader_IsLong kind = Return isLong →
  AoHeader_Size isLong ck fr ≤ blen b → - 2 ^ 63 ≤ n < 2 ^ 63 →
  let b' := finish isLong ck fr n overall (store_header 0 h b) in
  blen b' = blen b ∧
  (∀ off m, AoHeader_Size isLong ck fr ≤ off → 0 ≤ m → slice off m b' = slice off m b) ∧
  load_header 0 b' = h ∧
  (fr = true → rd_i64 (AoHeader_Size isLong ck false) b' = n) ∧
  (∀ oh, AppendOnlyStorageFormat_GetHeaderInfo b' ck oh
     = Return (AOHeaderCheckOk, mkHeaderInfo kind (AoHeader_Size isLong ck fr))) ∧
  (16 ≤ overall < 2 ^ 31 → ck = true →
     (AppendOnlyStorageFormat_VerifyHeaderChecksum b').1.1 = true ∧
     (AppendOnlyStorageFormat_VerifyBlockChecksum b' overall).1.1 = true).
Proof.
  intros Hwf Hlong Hb Hn b'. subst b'.
  assert (H8 : 8 ≤ AoHeader_Size isLong ck fr)
    by (rewrite AoHeader_Size_split; destruct isLong, ck, fr; lia).
  assert (Hld : load_header 0 (store_header 0 h b) = h)
    by (destruct Hwf as (H0 & H1 & _); apply load_store_header; [lia..|done|done]).
  assert (Hb0 : AoHeader_Size isLong ck fr ≤ blen (store_header 0 h b))
    by (by rewrite blen_store_header).
  split; [by rewrite blen_finish, blen_store_header|].
  split; [intros off m Ho Hm; rewrite made_content by done; apply slice_store_header; lia|].
  split; [by apply made_load|]. split; [intros Hfr; by apply made_row_num|].
  split; [intros oh; by eapply made_info|]. intros Ho Hck. by apply made_verify.
Qed.

(** Block lengths that fit the length fields satisfy [made_block]. *)
Lemma overall_bounds isLong fr l version :
  0 ≤ l < 2 ^ 30 → 16 ≤ AoHeader_Size isLong true fr + round_up l version < 2 ^ 31.
Proof.
  intros. pose proof (round_up_bounds l version). rewrite AoHeader_Size_split.
  destruct isLong, fr; lia.
Qed.

(** C1. A Small Content block round-trips.  Whatever the checksum, row-number
    and version options, for parameters that fit the header's fields, making
    the header succeeds, leaves the content behind the header untouched, and
    the two decoders give back the header kind, the header length and every
    parameter; with checksums on, both checksums of the block verify. *)
Theorem small_content_roundtrip
    b ck fr version n exec row dl cl limit oh oc :
  AORelationVersion_IsValid version = true →
  - 2 ^ 63 ≤ n < 2 ^ 63 → 0 ≤ exec < 8 →
  0 ≤ row ≤ AOSmallContentHeader_MaxRowCount →
  0 ≤ dl ≤ AOSmallContentHeader_MaxLength → 0 ≤ cl ≤ dl →
  AoHeader_Size false ck fr ≤ blen b →
  let overall := AoHeader_Size false ck fr
                 + round_up (if 0 <? cl then cl else dl) version in
  overall ≤ limit →
  ∃ b',
    AppendOnlyStorageFormat_MakeSmallContentHeader b ck fr version n exec row dl cl
      = Return b' ∧
    blen b' = blen b ∧
    (∀ off m, AoHeader_Size false ck fr ≤ off → 0 ≤ m → slice off m b' = slice off m b) ∧
    AppendOnlyStorageFormat_GetHeaderInfo b' ck oh
      = Return (AOHeaderCheckOk,
          mkHeaderInfo AoHeaderKind_SmallContent (AoHeader_Size false ck fr)) ∧
    AppendOnlyStorageFormat_GetSmallContentHeaderInfo b' (AoHeader_Size false ck fr)
        ck limit version oc
      = Return (AOHeaderCheckOk,
          mkContentInfo overall (AoHeader_Size false ck fr) dl exec fr
            (if fr then n else -1) row (0 <? cl) cl) ∧
    (ck = true →
       (AppendOnlyStorageFormat_VerifyHeaderChecksum b').1.1 = true ∧
       (AppendOnlyStorageFormat_VerifyBlockChecksum b' overall).1.1 = true).
Proof.
  intros Hv Hn He Hr Hd Hc Hb overall Hlim.
  unfold AOSmallContentHeader_MaxRowCount, AOSmallContentHeader_MaxLength in *.
  assert (Hlen : 0 ≤ (if 0 <? cl then cl else dl) < 2 ^ 30) by (case_match; lia).
  eexists. split; [apply make_small_eq; [done|lia|done]|]. rewrite overall_s32 by done.
  destruct (made_block false ck fr n
    (AoHeader_Size false true fr + round_up (if 0 <? cl then cl else dl) version) _ _ b
    (small_words_wf exec row dl fr cl ltac:(lia)) eq_refl Hb Hn)
    as (H1 & H2 & H3 & H4 & H5 & H6).
  split_and!; [done..|done|by apply small_info_wf; (done || lia)|].
  intros ->. apply H6; [by apply overall_bounds | done].
Qed.

(** A Large Content header round-trips: it decodes to the row count and
    the content length it was made with, for every row count and every
    positive length that fit the 25 and 30 bits of their fields. *)
Lemma large_content_roundtrip b ck fr version n exec row len oh ol :
  AORelationVersion_IsValid version = true →
  - 2 ^ 63 ≤ n < 2 ^ 63 → 0 ≤ exec < 8 →
  0 ≤ row ≤ AOLargeContentHeader_MaxLargeRowCount →
  0 < len ≤ AOLargeContentHeader_MaxLargeContentLength →
  AoHeader_Size false ck fr ≤ blen b →
  ∃ b',
    AppendOnlyStorageFormat_MakeLargeContentHeader b ck fr version n exec row len
      = Return b' ∧
    blen b' = blen b ∧
    (∀ off m, AoHeader_Size false ck fr ≤ off → 0 ≤ m → slice off m b' = slice off m b) ∧
    AppendOnlyStorageFormat_GetHeaderInfo b' ck oh
      = Return (AOHeaderCheckOk,
          mkHeaderInfo AoHeaderKind_LargeContent (AoHeader_Size false ck fr)) ∧
    AppendOnlyStorageFormat_GetLargeContentHeaderInfo b' (AoHeader_Size false ck fr) ck ol
      = Return (AOHeaderCheckOk,
          mkLargeContentInfo len exec fr (if fr then n else -1) row) ∧
    (ck = true → (AppendOnlyStorageFormat_VerifyHeaderChecksum b').1.1 = true).
Proof.
  intros Hv Hn He Hr Hl Hb.
  unfold AOLargeContentHeader_MaxLargeRowCount,
    AOLargeContentHeader_MaxLargeContentLength in *.
  eexists. split; [by apply make_large_eq|]. rewrite overall_s32 by done.
  destruct (made_block false ck fr n (AoHeader_Size false true false + round_up 0 version)
    _ _ b (large_words_wf exec row len fr) eq_refl Hb Hn)
    as (H1 & H2 & H3 & H4 & H5 & H6).
  split_and!; [done..|done| |].
  - destruct (large_words_wf exec row len fr) as (_ & _ & _ & _ & Hf).
    destruct (large_words_get exec row len fr) as (E1 & E2 & E3); [lia..|].
    unfold AppendOnlyStorageFormat_GetLargeContentHeaderInfo.
    change (AOLargeContentHeaderGet_hasFirstRowNum ?h)
      with (AOSmallContentHeaderGet_hasFirstRowNum h).
    rewrite H3, E1, E2, E3, Hf, b2z_eqb0, (proj2 (Z.eqb_neq len 0)) by lia.
    rewrite (decode_row_num (AoHeader_Size false ck false) _ _ fr n)
      by (done || by destruct ck).
    rewrite (decode_offset false ck fr) by (by destruct ck).
    by rewrite Z.eqb_refl.
  - intros ->. apply H6; [by apply overall_bounds | done].
Qed.

(** A Non-Bulk Dense Content block round-trips, with its row count of up
    to 30 bits. *)
Lemma nonbulk_dense_roundtrip b ck fr version n exec row dl limit oh oc :
  AORelationVersion_IsValid version = true →
  - 2 ^ 63 ≤ n < 2 ^ 63 → 0 ≤ exec < 8 →
  0 ≤ row ≤ AONonBulkDenseContentHeader_MaxLargeRowCount →
  0 ≤ dl ≤ AONonBulkDenseContentHeader_MaxLength →
  AoHeader_Size false ck fr ≤ blen b →
  let overall := AoHeader_Size false ck fr + round_up dl version in
  overall ≤ limit →
  ∃ b',
    AppendOnlyStorageFormat_MakeNonBulkDenseContentHeader b ck fr version n exec row dl
      = Return b' ∧
    blen b' = blen b ∧
    (∀ off m, AoHeader_Size false ck fr ≤ off → 0 ≤ m → slice off m b' = slice off m b) ∧
    AppendOnlyStorageFormat_GetHeaderInfo b' ck oh
      = Return (AOHeaderCheckOk,
          mkHeaderInfo AoHeaderKind_NonBulkDenseContent (AoHeader_Size false ck fr)) ∧
    AppendOnlyStorageFormat_GetNonBulkDenseContentHeaderInfo b'
        (AoHeader_Size false ck fr) ck limit version oc
      = Return (AOHeaderCheckOk,
          mkContentInfo overall (AoHeader_Size false ck fr) dl exec fr
            (if fr then n else -1) row (ci_isCompressed oc) (ci_compressedLen oc)) ∧
    (ck = true →
       (AppendOnlyStorageFormat_VerifyHeaderChecksum b').1.1 = true ∧
       (AppendOnlyStorageFormat_VerifyBlockChecksum b' overall).1.1 = true).
Proof.
  intros Hv Hn He Hr Hd Hb overall Hlim.
  unfold AONonBulkDenseContentHeader_MaxLargeRowCount,
    AONonBulkDenseContentHeader_MaxLength in *.
  eexists. split; [by apply make_nonbulk_eq|]. rewrite overall_s32 by lia.
  destruct (made_block false ck fr n (AoHeader_Size false true fr + round_up dl version)
    _ _ b (nonbulk_words_wf exec row dl fr) eq_refl Hb Hn)
    as (H1 & H2 & H3 & H4 & H5 & H6).
  split_and!; [done..|done| |].
  - destruct (nonbulk_words_wf exec row dl fr) as (_ & _ & _ & _ & Hf).
    destruct (nonbulk_words_get exec row dl fr) as (E1 & E2 & E3); [lia..|].
    unfold AppendOnlyStorageFormat_GetNonBulkDenseContentHeaderInfo.
    change (AONonBulkDenseContentHeaderGet_hasFirstRowNum ?h)
      with (AOSmallContentHeaderGet_hasFirstRowNum h).
    rewrite H3, E1, E2, E3, Hf, b2z_eqb0.
    rewrite (decode_row_num (AoHeader_Size false ck false) _ _ fr n)
      by (done || by destruct ck).
    rewrite (decode_offset false ck fr) by (by destruct ck).
    rewrite Z.eqb_refl, AOStorage_RoundUp_valid by done. cbn [negb outcome_bind].
    by rewrite (proj2 (Z.ltb_ge limit _)) by exact Hlim.
  - intros ->. apply H6; [apply overall_bounds; lia | done].
Qed.

(** The buffer of a Bulk Dense header before [finish]: both pairs of words. *)
Definition bulk_stored (ck : bool) (exec row dl : Z) (fr : bool) (cl : Z)
    (b : list Z) : list Z :=
  store_header (8 + if ck then 8 else 0) (bulk_ext_words row)
    (store_header 0 (bulk_words exec dl fr cl) b).

Lemma bulk_ext_words_range row :
  0 ≤ header_bytes_0_3 (bulk_ext_words row) < 2 ^ 32 ∧
  0 ≤ header_bytes_4_7 (bulk_ext_words row) < 2 ^ 32.
Proof.
  unfold bulk_ext_words. simpl. autorewrite with ao_mask. split; words_range.
Qed.

Lemma bulk_stored_facts ck exec row dl fr cl b :
  0 ≤ cl → AoHeader_Size true ck fr ≤ blen b →
  blen (bulk_stored ck exec row dl fr cl b) = blen b ∧
  load_header 0 (bulk_stored ck exec row dl fr cl b) = bulk_words exec dl fr cl ∧
  load_header (8 + if ck then 8 else 0) (bulk_stored ck exec row dl fr cl b)
    = bulk_ext_words row ∧
  (∀ off m, AoHeader_Size true ck fr ≤ off → 0 ≤ m →
     slice off m (bulk_stored ck exec row dl fr cl b) = slice off m b).
Proof.
  intros Hcl Hb. rewrite AoHeader_Size_split in *.
  destruct (bulk_words_wf exec dl fr cl Hcl) as (H0 & H1 & _).
  destruct (bulk_ext_words_range row) as (H2 & H3). unfold bulk_stored. split_and!.
  - by rewrite !blen_store_header.
  - rewrite load_store_header_disj by (destruct ck; lia).
    apply load_store_header; [lia|destruct ck, fr; lia|done..].
  - apply load_store_header; [destruct ck; lia| |done..].
    rewrite blen_store_header. destruct ck, fr; lia.
  - intros off m Ho Hm. rewrite !slice_store_header; [done|..]; destruct ck, fr; lia.
Qed.

Lemma make_bulk_eq locals b ck fr version n exec row dl cl :
  AORelationVersion_IsValid version = true → 0 ≤ cl →
  AoHeader_Size true ck fr ≤ blen b →
  AppendOnlyStorageFormat_MakeBulkDenseContentHeader false locals b ck fr version n
    exec row dl cl
  = Return (finish true ck fr n
      (s32 (AoHeader_Size true true fr + round_up (if 0 <? cl then cl else dl) version))
      (bulk_stored ck exec row dl fr cl b)).
Proof.
  intros Hv Hcl Hb. pose proof (bulk_words_wf exec dl fr cl Hcl) as Hwf.
  destruct (bulk_stored_facts ck exec row dl fr cl b Hcl Hb) as (H1 & H2 & _).
  replace (0 <? cl) with (cl >? 0) by lia.
  pose proof (add_parts_finish (bulk_stored ck exec row dl fr cl b) _ _ fr true ck
    (cl >? 0) fr version n dl cl Hwf eq_refl H2 Hv) as E.
  rewrite H1 in E. specialize (E Hb). rewrite <- E.
  unfold AppendOnlyStorageFormat_MakeBulkDenseContentHeader, bulk_stored, bulk_words,
    bulk_ext_words. cbv zeta.
  match goal with |- outcome_bind ?x _ = outcome_bind ?y _ => change y with x; destruct x end;
    [cbn [outcome_bind]; by destruct ck; [destruct AppendOnlyStorageFormat_AddBlockHeaderChecksums|]
    | done].
Qed.

Lemma make_bulk_assert a locals b ck fr version n exec row dl cl :
  AppendOnlyStorageFormat_MakeBulkDenseContentHeader a locals b ck fr version n
    exec row dl cl
  = let* b' := AppendOnlyStorageFormat_MakeBulkDenseContentHeader false locals b ck fr
                 version n exec row dl cl in
    let* _ := (if a then MakeBulkDenseContentHeader_check b' ck fr version n exec row
                           dl cl (cl >? 0) locals else Return tt) in
    Return b'.
Proof.
  unfold AppendOnlyStorageFormat_MakeBulkDenseContentHeader. cbv zeta.
  match goal with |- outcome_bind ?x _ = _ => destruct x as [b1|]; [|done] end.
  cbn [outcome_bind].
  match goal with |- outcome_bind ?x _ = _ => by destruct x end.
Qed.

(** The self-check accepts a buffer that decodes to the parameters. *)
Lemma bulk_check_ok b' ck fr version n exec row dl cl locals :
  AORelationVersion_IsValid version = true → 0 ≤ dl < 2 ^ 21 → 0 ≤ cl ≤ dl →
  (∀ limit oc,
     ci_overallBlockLen (decoded true ck fr version n exec row dl cl) ≤ limit →
     AppendOnlyStorageFormat_GetBulkDenseContentHeaderInfo b' (AoHeader_Size true ck fr)
       ck limit version oc
     = Return (AOHeaderCheckOk, decoded true ck fr version n exec row dl cl)) →
  MakeBulkDenseContentHeader_check b' ck fr version n exec row dl cl (cl >? 0) locals
    = Return tt.
Proof.
  intros Hv Hd Hc Hget. unfold MakeBulkDenseContentHeader_check.
  rewrite (decode_offset true ck fr) by (by destruct ck).
  rewrite AOStorage_RoundUp_valid by done. cbn [outcome_bind].
  replace (if cl =? 0 then dl else cl) with (if 0 <? cl then cl else dl)
    by (destruct (Z.ltb_spec 0 cl), (Z.eqb_spec cl 0); lia).
  assert (Hs : s32 (AoHeader_Size true ck fr + round_up (if 0 <? cl then cl else dl) version)
     = ci_overallBlockLen (decoded true ck fr version n exec row dl cl)).
  { pose proof (round_up_bounds (if 0 <? cl then cl else dl) version) as Hru.
    unfold decoded. cbn [ci_overallBlockLen]. apply s32_id. rewrite AoHeader_Size_split.
    destruct (Z.ltb_spec 0 cl), ck, fr; lia. }
  rewrite Hs, Hget by lia. cbn [outcome_bind].
  rewrite bool_decide_eq_true_2 by done.
  unfold decoded; cbn [ci_overallBlockLen ci_offset ci_uncompressedLen
    ci_executorBlockKind ci_hasFirstRowNum ci_firstRowNum ci_rowCount ci_isCompressed
    ci_compressedLen negb].
  rewrite !Z.eqb_refl, !eqb_reflx. cbn [negb].
  replace (cl >? 0) with (0 <? cl) by lia. rewrite !eqb_reflx.
  destruct fr; by rewrite ?Z.eqb_refl.
Qed.

(** C4. A Bulk Dense Content block round-trips through its header and its
    extension header, and in an assert-enabled build the self-check at the
    end of the make operation never raises its error. *)
Theorem bulk_dense_roundtrip
    assert_on locals b ck fr version n exec row dl cl limit oh oc :
  AORelationVersion_IsValid version = true →
  - 2 ^ 63 ≤ n < 2 ^ 63 → 0 ≤ exec < 8 →
  0 ≤ row ≤ AOBulkDenseContentHeader_MaxLargeRowCount →
  0 ≤ dl ≤ AOBulkDenseContentHeader_MaxLength → 0 ≤ cl ≤ dl →
  AoHeader_Size true ck fr ≤ blen b →
  let overall := AoHeader_Size true ck fr
                 + round_up (if 0 <? cl then cl else dl) version in
  overall ≤ limit →
  ∃ b',
    AppendOnlyStorageFormat_MakeBulkDenseContentHeader assert_on locals b ck fr version n
      exec row dl cl = Return b' ∧
    blen b' = blen b ∧
    (∀ off m, AoHeader_Size true ck fr ≤ off → 0 ≤ m → slice off m b' = slice off m b) ∧
    AppendOnlyStorageFormat_GetHeaderInfo b' ck oh
      = Return (AOHeaderCheckOk,
          mkHeaderInfo AoHeaderKind_BulkDenseContent (AoHeader_Size true ck fr)) ∧
    AppendOnlyStorageFormat_GetBulkDenseContentHeaderInfo b' (AoHeader_Size true ck fr)
        ck limit version oc
      = Return (AOHeaderCheckOk,
          mkContentInfo overall (AoHeader_Size true ck fr) dl exec fr
            (if fr then n else -1) row (0 <? cl) cl) ∧
    (ck = true →
       (AppendOnlyStorageFormat_VerifyHeaderChecksum b').1.1 = true ∧
       (AppendOnlyStorageFormat_VerifyBlockChecksum b' overall).1.1 = true).
Proof.
  intros Hv Hn He Hr Hd Hc Hb overall Hlim.
  unfold AOBulkDenseContentHeader_MaxLargeRowCount,
    AOBulkDenseContentHeader_MaxLength in *.
  assert (Hlen : 0 ≤ (if 0 <? cl then cl else dl) < 2 ^ 30) by (case_match; lia).
  pose proof (bulk_words_wf exec dl fr cl ltac:(lia)) as Hwf.
  destruct (bulk_stored_facts ck exec row dl fr cl b ltac:(lia) Hb) as (B1 & B2 & B3 & B4).
  rewrite <- B1 in Hb.
  rewrite make_bulk_assert, make_bulk_eq by (rewrite <- ?B1; done || lia).
  rewrite overall_s32 by done. cbn [outcome_bind].
  set (b' := finish _ _ _ _ _ _).
  assert (Hget : ∀ limit oc, ci_overallBlockLen (decoded true ck fr version n exec row dl cl)
     ≤ limit → AppendOnlyStorageFormat_GetBulkDenseContentHeaderInfo b'
       (AoHeader_Size true ck fr) ck limit version oc
     = Return (AOHeaderCheckOk, decoded true ck fr version n exec row dl cl)).
  { intros limit' oc' Hlim'. apply bulk_info_wf; try (done || lia); unfold b'.
    - by rewrite load_header_finish.
    - by rewrite load_ext_finish.
    - intros Hfr. by apply made_row_num. }
  exists b'. rewrite bulk_check_ok by (done || lia). split; [by destruct assert_on|].
  unfold b'. split; [by rewrite blen_finish|].
  split; [intros off m Ho Hm; rewrite made_content by done; by apply B4|].
  split; [by eapply made_info|]. split; [by apply Hget|].
  intros ->. apply made_verify; [done|by apply overall_bounds|done].
Qed.

(** ** Theorems: corruption *)

Lemma crc_slice_insert off n b (i : nat) x y :
  0 ≤ off → off ≤ Z.of_nat i < off + n → b !! i = Some x → is_byte x → is_byte y →
  x ≠ y →
  COMP_CRC32 INIT_CRC32 (slice off n (<[i:=y]> b)) ≠ COMP_CRC32 INIT_CRC32 (slice off n b).
Proof.
  intros Ho Hi Hx Hbx Hby Hne. rewrite slice_insert_in by lia.
  apply COMP_CRC32_insert with x; [|done..].
  rewrite slice_lookup by lia. rewrite <- Hx. f_equal. lia.
Qed.

(** C5. Corruption of one byte of a header is always detected.  If the header
    checksum of a block verifies, it does not verify any more after any one
    of the 16 bytes of the header and its two checksums takes any other
    value. *)
Theorem header_corruption_detected b (i : nat) x y :
  Forall is_byte b → 16 ≤ blen b →
  (AppendOnlyStorageFormat_VerifyHeaderChecksum b).1.1 = true →
  (i < 16)%nat → b !! i = Some x → is_byte y → x ≠ y →
  (AppendOnlyStorageFormat_VerifyHeaderChecksum (<[i:=y]> b)).1.1 = false.
Proof.
  unfold AppendOnlyStorageFormat_VerifyHeaderChecksum,
    AppendOnlyStorageFormat_ComputeHeaderChecksum.
  change (AoHeader_RegularSize + sizeof_pg_crc32) with 12. change (u32 12) with 12.
  intros Hb Hl Hv Hi Hx Hy Hne. simpl in *. apply Z.eqb_eq in Hv. apply Z.eqb_neq.
  assert (Hbx : is_byte x) by (by eapply Forall_lookup_1).
  destruct (decide (i < 12)%nat).
  - unfold rd. rewrite (slice_insert_out 12 4) by lia. fold (rd 4 12 b).
    rewrite Hv. apply not_eq_sym. apply crc_slice_insert with x; done || lia.
  - rewrite (slice_insert_out 0 12) by lia. rewrite <- Hv.
    apply rd_insert_ne with x; done || lia.
Qed.

(** C6. Corruption of one byte of the content is always detected.  If the
    block checksum of a block of [overallBlockLen] bytes verifies, it does
    not after one byte behind the checksums, or one byte of the stored block
    checksum, takes any other value. *)
Theorem block_corruption_detected b overall (i : nat) x y :
  Forall is_byte b → 16 ≤ overall < 2 ^ 31 → overall ≤ blen b →
  (AppendOnlyStorageFormat_VerifyBlockChecksum b overall).1.1 = true →
  8 ≤ Z.of_nat i < 12 ∨ 16 ≤ Z.of_nat i < overall →
  b !! i = Some x → is_byte y → x ≠ y →
  (AppendOnlyStorageFormat_VerifyBlockChecksum (<[i:=y]> b) overall).1.1 = false.
Proof.
  unfold AppendOnlyStorageFormat_VerifyBlockChecksum,
    AppendOnlyStorageFormat_ComputeBlockChecksum.
  change (AoHeader_RegularSize + sizeof_pg_crc32 + sizeof_pg_crc32) with 16.
  change AoHeader_RegularSize with 8.
  intros Hb Ho Hl Hv Hi Hx Hy Hne. simpl in *. apply Z.eqb_eq in Hv. apply Z.eqb_neq.
  rewrite (u32_id (overall - 16)) in * by lia.
  assert (Hbx : is_byte x) by (by eapply Forall_lookup_1).
  destruct Hi.
  - rewrite (slice_insert_out 16) by lia. rewrite <- Hv.
    apply rd_insert_ne with x; done || lia.
  - unfold rd. rewrite (slice_insert_out 8 4) by lia. fold (rd 4 8 b).
    rewrite Hv. apply not_eq_sym. apply crc_slice_insert with x; done || lia.
Qed.

(** The checksum tests read nothing but the checksums and what they cover. *)
Lemma verify_header_ext b b' :
  slice 0 12 b = slice 0 12 b' → rd_u32 12 b = rd_u32 12 b' →
  AppendOnlyStorageFormat_VerifyHeaderChecksum b
  = AppendOnlyStorageFormat_VerifyHeaderChecksum b'.
Proof.
  unfold AppendOnlyStorageFormat_VerifyHeaderChecksum,
    AppendOnlyStorageFormat_ComputeHeaderChecksum.
  change (AoHeader_RegularSize + sizeof_pg_crc32) with 12. change (u32 12) with 12.
  by intros -> ->.
Qed.

Lemma verify_block_ext b b' overall :
  slice 16 (u32 (overall - 16)) b = slice 16 (u32 (overall - 16)) b' →
  rd_u32 8 b = rd_u32 8 b' →
  AppendOnlyStorageFormat_VerifyBlockChecksum b overall
  = AppendOnlyStorageFormat_VerifyBlockChecksum b' overall.
Proof.
  unfold AppendOnlyStorageFormat_VerifyBlockChecksum,
    AppendOnlyStorageFormat_ComputeBlockChecksum.
  change (AoHeader_RegularSize + sizeof_pg_crc32 + sizeof_pg_crc32) with 16.
  change AoHeader_RegularSize with 8.
  by intros -> ->.
Qed.

(** The first row number of a Large Content header is outside both
    checksums: in a block made with checksums and a row number, the eight
    bytes of the row number can be overwritten with any other number, and the
    header checksum, the block checksum as the make operation computed it,
    and the header check all still succeed, with the decoder returning the
    altered number. *)
Lemma large_row_number_unprotected b version n n' exec row len oh ol :
  AORelationVersion_IsValid version = true →
  - 2 ^ 63 ≤ n < 2 ^ 63 → - 2 ^ 63 ≤ n' < 2 ^ 63 → 0 ≤ exec < 8 →
  0 ≤ row ≤ AOLargeContentHeader_MaxLargeRowCount →
  0 < len ≤ AOLargeContentHeader_MaxLargeContentLength →
  AoHeader_Size false true true ≤ blen b →
  ∃ b',
    AppendOnlyStorageFormat_MakeLargeContentHeader b true true version n exec row len
      = Return b' ∧
    (AppendOnlyStorageFormat_VerifyHeaderChecksum (wr_i64 16 n' b')).1.1 = true ∧
    (AppendOnlyStorageFormat_VerifyBlockChecksum (wr_i64 16 n' b')
       (AoHeader_Size false true false)).1.1 = true ∧
    AppendOnlyStorageFormat_GetHeaderInfo (wr_i64 16 n' b') true oh
      = Return (AOHeaderCheckOk,
          mkHeaderInfo AoHeaderKind_LargeContent (AoHeader_Size false true true)) ∧
    AppendOnlyStorageFormat_GetLargeContentHeaderInfo (wr_i64 16 n' b')
        (AoHeader_Size false true true) true ol
      = Return (AOHeaderCheckOk, mkLargeContentInfo len exec true n' row).
Proof.
  intros Hv Hn Hn' He Hr Hl Hb.
  unfold AOLargeContentHeader_MaxLargeRowCount,
    AOLargeContentHeader_MaxLargeContentLength in *.
  change (AoHeader_Size false true true) with 24 in *.
  change (AoHeader_Size false true false) with 16.
  eexists. split; [by apply make_large_eq|]. rewrite overall_s32 by done.
  replace (AoHeader_Size false true false + round_up 0 version) with 16
    by (unfold round_up; by case_match).
  destruct (made_block false true true n 16 _ _ b (large_words_wf exec row len true)
    eq_refl Hb Hn) as (H1 & H2 & H3 & H4 & H5 & H6).
  destruct (H6 ltac:(lia) eq_refl) as [V1 V2]. clear H6.
  set (b' := finish _ _ _ _ _ _) in *.
  assert (Hld : load_header 0 (wr_i64 16 n' b') = large_words exec row len true).
  { rewrite <- H3. unfold load_header. by rewrite !rd_wr_disj by lia. }
  pose proof (large_words_wf exec row len true) as Hwf.
  split_and!.
  - rewrite <- V1. f_equal. f_equal.
    apply verify_header_ext; [by rewrite slice_wr_disj by lia|by rewrite rd_wr_disj by lia].
  - rewrite <- V2. f_equal. f_equal.
    apply verify_block_ext; [by rewrite !slice_0|by rewrite rd_wr_disj by lia].
  - by rewrite (get_header_info_wf _ _ _ _ _ true oh Hld Hwf eq_refl).
  - destruct Hwf as (_ & _ & _ & _ & Hf).
    destruct (large_words_get exec row len true) as (E1 & E2 & E3); [lia..|].
    unfold AppendOnlyStorageFormat_GetLargeContentHeaderInfo.
    change (AOLargeContentHeaderGet_hasFirstRowNum ?h)
      with (AOSmallContentHeaderGet_hasFirstRowNum h).
    rewrite Hld, E1, E2, E3, Hf, b2z_eqb0, (proj2 (Z.eqb_neq len 0)) by lia.
    change (AoHeader_RegularSize + 2 * sizeof_pg_crc32) with 16. cbn [negb].
    rewrite rd_i64_wr, s64_id by lia. done.
Qed.

(** ** Theorems: decoding arbitrary bytes *)

Lemma header_kind_range h : 0 ≤ AOHeaderGet_headerKind h < 8.
Proof.
  unfold AOHeaderGet_headerKind. rewrite get_kind.
  exact (field_get_range 28 3 _ ltac:(lia)).
Qed.

Definition header_hasFirstRowNum (h : AOHeader) : bool :=
  negb (AOSmallContentHeaderGet_hasFirstRowNum h =? 0).

(** What the basic header check of any eight bytes returns, as one table:
    the error, the kind and the length of the whole header. *)
Definition classify (h : AOHeader) (ck : bool) (out : HeaderInfo)
    : AOHeaderCheckError * HeaderInfo :=
  let kind := AOHeaderGet_headerKind h in
  if header_bytes_0_3 h =? 0 then (AOHeaderCheckFirst32BitsAllZeroes, out)
  else if negb (AOHeaderGet_reserved0 h =? 0) then (AOHeaderCheckReservedBit0Not0, out)
  else if kind =? AoHeaderKind_None
  then (AOHeaderCheckInvalidHeaderKindNone, mkHeaderInfo kind (hi_actualHeaderLen out))
  else match AoHeader_IsLong kind with
       | Return isLong =>
         (AOHeaderCheckOk,
           mkHeaderInfo kind (AoHeader_Size isLong ck (header_hasFirstRowNum h)))
       | ElogError =>
         (AOHeaderCheckInvalidHeaderKind, mkHeaderInfo kind (hi_actualHeaderLen out))
       end.

Lemma get_header_info_classify b ck out :
  AppendOnlyStorageFormat_GetHeaderInfo b ck out = Return (classify (load_header 0 b) ck out).
Proof.
  unfold AppendOnlyStorageFormat_GetHeaderInfo, classify. set (h := load_header 0 b).
  pose proof (header_kind_range h) as Hk.
  destruct (header_bytes_0_3 h =? 0); [done|].
  destruct (negb (AOHeaderGet_reserved0 h =? 0)); [done|].
  set (kind := AOHeaderGet_headerKind h) in *.
  change (AOLargeContentHeaderGet_hasFirstRowNum h)
    with (AOSmallContentHeaderGet_hasFirstRowNum h).
  change (AONonBulkDenseContentHeaderGet_hasFirstRowNum h)
    with (AOSmallContentHeaderGet_hasFirstRowNum h).
  change (AOBulkDenseContentHeaderGet_hasFirstRowNum h)
    with (AOSmallContentHeaderGet_hasFirstRowNum h).
  unfold header_hasFirstRowNum. clearbody kind h.
  assert (kind = 0 ∨ kind = 1 ∨ kind = 2 ∨ kind = 3 ∨ kind = 4 ∨ 5 ≤ kind)
    as [->|[->|[->|[->|[->|H5]]]]] by lia;
    try (by destruct (AOSmallContentHeaderGet_hasFirstRowNum h =? 0), ck).
  unfold AoHeader_IsLong, AoHeaderKind_None, MaxAoHeaderKind, AoHeaderKind_SmallContent,
    AoHeaderKind_LargeContent, AoHeaderKind_NonBulkDenseContent,
    AoHeaderKind_BulkDenseContent.
  rewrite !(proj2 (Z.eqb_neq kind _)) by lia.
  by rewrite (proj2 (Z.leb_le 5 kind)) by lia.
Qed.

(** C8. The basic header check is total and exact on arbitrary bytes: it
    never raises, it accepts exactly the headers whose first word is not
    zero, whose reserved bit is clear and whose kind is one of the four
    kinds, and then reports that kind and the length the header of that kind
    occupies with the table's checksum setting and the header's row number
    flag. *)
Theorem header_info_exact b ck out kind len :
  AppendOnlyStorageFormat_GetHeaderInfo b ck out ≠ ElogError ∧
  (AppendOnlyStorageFormat_GetHeaderInfo b ck out
     = Return (AOHeaderCheckOk, mkHeaderInfo kind len) ↔
   header_bytes_0_3 (load_header 0 b) ≠ 0 ∧
   AOHeaderGet_reserved0 (load_header 0 b) = 0 ∧
   AOHeaderGet_headerKind (load_header 0 b) = kind ∧
   AoHeaderKind_SmallContent ≤ kind ≤ AoHeaderKind_BulkDenseContent ∧
   len = AoHeader_Size (kind =? AoHeaderKind_BulkDenseContent) ck
           (header_hasFirstRowNum (load_header 0 b))).
Proof.
  rewrite get_header_info_classify. split; [done|].
  unfold classify. set (h := load_header 0 b).
  pose proof (header_kind_range h) as Hk. set (k := AOHeaderGet_headerKind h) in *.
  set (fr := header_hasFirstRowNum h). clearbody k fr.
  unfold AoHeaderKind_SmallContent, AoHeaderKind_BulkDenseContent.
  destruct (Z.eqb_spec (header_bytes_0_3 h) 0); [split; [done|tauto]|].
  destruct (Z.eqb_spec (AOHeaderGet_reserved0 h) 0); cbn [negb]; [|split; [done|tauto]].
  assert (k = 0 ∨ k = 1 ∨ k = 2 ∨ k = 3 ∨ k = 4 ∨ 5 ≤ k)
    as [->|[->|[->|[->|[->|H5]]]]] by lia;
    try (cbn; split; [intros [= <- <-]; repeat split; (done || lia)
                     |intros (_ & _ & <- & ? & ->); (done || lia)]).
  unfold AoHeader_IsLong, AoHeaderKind_None, AoHeaderKind_SmallContent,
    AoHeaderKind_LargeContent, AoHeaderKind_NonBulkDenseContent,
    AoHeaderKind_BulkDenseContent.
  rewrite !(proj2 (Z.eqb_neq k _)) by lia. split; [done|lia].
Qed.

(** The content that a decoder reports lies inside the block it reports, and
    the block inside the limit; a compressed length is positive and at most
    the uncompressed length. *)
Definition stored_len (i : ContentInfo) : Z :=
  if ci_isCompressed i then ci_compressedLen i else ci_uncompressedLen i.

Definition content_fits (limit : Z) (i : ContentInfo) : Prop :=
  0 < ci_offset i ∧ 0 ≤ stored_len i ∧
  ci_offset i + stored_len i ≤ ci_overallBlockLen i ≤ limit ∧
  (ci_isCompressed i = true → 0 < ci_compressedLen i ≤ ci_uncompressedLen i).

Lemma AoHeader_Size_pos isLong ck fr : 0 < AoHeader_Size isLong ck fr.
Proof. by destruct isLong, ck, fr. Qed.

(** The common tail of the decoders of compressible content. *)
Lemma decode_lengths_fit (isLong ck fr : bool) limit version dl cl old exec n row :
  AORelationVersion_IsValid version = true → 0 ≤ dl → 0 ≤ cl →
  ∃ e i,
    (if negb (cl =? 0) && (dl <? cl)
     then Return (AOHeaderCheckInvalidCompressedLen,
            mkContentInfo old (AoHeader_Size isLong ck fr) dl exec fr n row
              (negb (cl =? 0)) cl)
     else
       let* rounded := AOStorage_RoundUp (if negb (cl =? 0) then cl else dl) version in
       let overall := AoHeader_Size isLong ck fr + rounded in
       let info := mkContentInfo overall (AoHeader_Size isLong ck fr) dl exec fr n row
                     (negb (cl =? 0)) cl in
       if limit <? overall then Return (AOHeaderCheckInvalidOverallBlockLen, info)
       else Return (AOHeaderCheckOk, info)) = Return (e, i) ∧
    (e = AOHeaderCheckOk → content_fits limit i).
Proof.
  intros Hv Hd Hc. pose proof (AoHeader_Size_pos isLong ck fr).
  destruct (negb (cl =? 0) && (dl <? cl)) eqn:E; [by do 2 eexists|].
  rewrite AOStorage_RoundUp_valid by done. cbn [outcome_bind].
  pose proof (round_up_bounds (if negb (cl =? 0) then cl else dl) version).
  destruct (Z.ltb_spec limit (AoHeader_Size isLong ck fr
    + round_up (if negb (cl =? 0) then cl else dl) version)); [by do 2 eexists|].
  do 2 eexists. split; [done|]. intros _. unfold content_fits, stored_len. simpl.
  destruct (Z.eqb_spec cl 0); simpl in *; lia.
Qed.

(** The same for content that is never compressed; the decoder leaves the
    variables for the compression as they are. *)
Definition plain_fits (limit : Z) (i : ContentInfo) : Prop :=
  0 < ci_offset i ∧ 0 ≤ ci_uncompressedLen i ∧
  ci_offset i + ci_uncompressedLen i ≤ ci_overallBlockLen i ≤ limit.

Lemma nonbulk_lengths_fit (ck fr : bool) limit version dl ic cl exec n row :
  AORelationVersion_IsValid version = true → 0 ≤ dl →
  ∃ e i,
    (let* rounded := AOStorage_RoundUp dl version in
     let overall := AoHeader_Size false ck fr + rounded in
     let info := mkContentInfo overall (AoHeader_Size false ck fr) dl exec fr n row ic cl in
     if limit <? overall then Return (AOHeaderCheckInvalidOverallBlockLen, info)
     else Return (AOHeaderCheckOk, info)) = Return (e, i) ∧
    (e = AOHeaderCheckOk → plain_fits limit i).
Proof.
  intros Hv Hd. pose proof (AoHeader_Size_pos false ck fr).
  rewrite AOStorage_RoundUp_valid by done. cbn [outcome_bind].
  pose proof (round_up_bounds dl version).
  destruct (Z.ltb_spec limit (AoHeader_Size false ck fr + round_up dl version));
    [by do 2 eexists|].
  do 2 eexists. split; [done|]. intros _. unfold plain_fits. simpl. lia.
Qed.

Lemma data_lengths_nonneg h :
  0 ≤ AOSmallContentHeaderGet_dataLength h ∧
  0 ≤ AOSmallContentHeaderGet_compressedLength h ∧
  0 ≤ AONonBulkDenseContentHeaderGet_dataLength h ∧
  0 ≤ AOBulkDenseContentHeaderGet_dataLength h ∧
  0 ≤ AOBulkDenseContentHeaderGet_compressedLength h.
Proof.
  unfold AOSmallContentHeaderGet_dataLength, AOSmallContentHeaderGet_compressedLength,
    AONonBulkDenseContentHeaderGet_dataLength, AOBulkDenseContentHeaderGet_dataLength,
    AOBulkDenseContentHeaderGet_compressedLength.
  rewrite ?Z.lor_nonneg, ?Z.shiftl_nonneg, ?Z.shiftr_nonneg, ?Z.land_nonneg. lia.
Qed.

Lemma large_length_range h : 0 ≤ AOLargeContentHeaderGet_largeContentLength h < 2 ^ 30.
Proof.
  unfold AOLargeContentHeaderGet_largeContentLength. change 0x3FFFFFFF with (Z.ones 30).
  rewrite Z.land_ones by lia. apply Z.mod_pos_bound. lia.
Qed.

Lemma header_info_ok_len b ck oh kind len :
  AppendOnlyStorageFormat_GetHeaderInfo b ck oh
    = Return (AOHeaderCheckOk, mkHeaderInfo kind len) →
  ∃ isLong, AoHeader_IsLong kind = Return isLong ∧
    len = AoHeader_Size isLong ck (header_hasFirstRowNum (load_header 0 b)).
Proof.
  rewrite get_header_info_classify. unfold classify.
  generalize (header_hasFirstRowNum (load_header 0 b)) as fr.
  generalize (load_header 0 b) as h. intros h fr.
  destruct (header_bytes_0_3 _ =? 0); [done|].
  destruct (negb (AOHeaderGet_reserved0 _ =? 0)); [done|].
  generalize (AOHeaderGet_headerKind h) as k. intros k.
  destruct (k =? AoHeaderKind_None); [done|].
  destruct (AoHeader_IsLong k) as [isLong|] eqn:E; [|done].
  remember (AoHeader_Size isLong ck fr) as l eqn:El. intros [= <- <-].
  exists isLong. split; [exact E|exact El].
Qed.

(** C9. Decoding arbitrary bytes is safe, in a relation of a valid version:
    whatever a block contains, if the basic header check accepts it then the
    decoder for its kind, of the four, called with the length that check
    returned, does not raise.  When it accepts too, the content that is
    reported (for Small Content and Bulk Dense Content compressed or not, for
    Non-Bulk Dense Content uncompressed) lies within the block that is
    reported, the block within the limit given, and the compressed length is
    positive and at most the uncompressed one; and the length of the whole
    content that a Large Content header reports is positive and less than
    2^30. *)
Theorem decoders_in_bounds b ck oh kind len limit version out lout :
  AORelationVersion_IsValid version = true →
  AppendOnlyStorageFormat_GetHeaderInfo b ck oh
    = Return (AOHeaderCheckOk, mkHeaderInfo kind len) →
  (kind = AoHeaderKind_SmallContent → ∃ e i,
     AppendOnlyStorageFormat_GetSmallContentHeaderInfo b len ck limit version out
       = Return (e, i) ∧ (e = AOHeaderCheckOk → content_fits limit i)) ∧
  (kind = AoHeaderKind_LargeContent → ∃ e i,
     AppendOnlyStorageFormat_GetLargeContentHeaderInfo b len ck lout
       = Return (e, i) ∧ (e = AOHeaderCheckOk → 0 < li_largeContentLen i < 2 ^ 30)) ∧
  (kind = AoHeaderKind_NonBulkDenseContent → ∃ e i,
     AppendOnlyStorageFormat_GetNonBulkDenseContentHeaderInfo b len ck limit version out
       = Return (e, i) ∧ (e = AOHeaderCheckOk → plain_fits limit i)) ∧
  (kind = AoHeaderKind_BulkDenseContent → ∃ e i,
     AppendOnlyStorageFormat_GetBulkDenseContentHeaderInfo b len ck limit version out
       = Return (e, i) ∧ (e = AOHeaderCheckOk → content_fits limit i)).
Proof.
  intros Hv Hi. apply header_info_ok_len in Hi as (isLong & Hlong & ->).
  destruct (data_lengths_nonneg (load_header 0 b)) as (L1 & L2 & L3 & L4 & L5).
  split; [|split; [|split]]; intros ->; injection Hlong as <-.
  - unfold AppendOnlyStorageFormat_GetSmallContentHeaderInfo.
    fold (header_hasFirstRowNum (load_header 0 b)).
    rewrite (decode_offset false ck _ _) by (by destruct ck).
    rewrite Z.eqb_refl. cbn [negb]. by apply decode_lengths_fit.
  - unfold AppendOnlyStorageFormat_GetLargeContentHeaderInfo.
    change (negb (AOLargeContentHeaderGet_hasFirstRowNum (load_header 0 b) =? 0))
      with (header_hasFirstRowNum (load_header 0 b)).
    pose proof (large_length_range (load_header 0 b)) as Hr.
    destruct (Z.eqb_spec (AOLargeContentHeaderGet_largeContentLength (load_header 0 b)) 0); [by do 2 eexists|].
    rewrite (decode_offset false ck _ _) by (by destruct ck).
    rewrite Z.eqb_refl. cbn [negb]. do 2 eexists. split; [done|]. cbn [li_largeContentLen]. lia.
  - unfold AppendOnlyStorageFormat_GetNonBulkDenseContentHeaderInfo.
    fold (header_hasFirstRowNum (load_header 0 b)).
    change (negb (AONonBulkDenseContentHeaderGet_hasFirstRowNum (load_header 0 b) =? 0))
      with (header_hasFirstRowNum (load_header 0 b)).
    rewrite (decode_offset false ck _ _) by (by destruct ck).
    rewrite Z.eqb_refl. cbn [negb].
    by apply nonbulk_lengths_fit.
  - unfold AppendOnlyStorageFormat_GetBulkDenseContentHeaderInfo.
    change (negb (AOBulkDenseContentHeaderGet_hasFirstRowNum (load_header 0 b) =? 0))
      with (header_hasFirstRowNum (load_header 0 b)).
    rewrite (decode_offset true ck _ _) by (by destruct ck).
    rewrite Z.eqb_refl. cbn [negb]. by apply decode_lengths_fit.
Qed.

(** ** Theorems: the header strings in error messages *)

Definition str_overallBlockLen (s : HeaderStr) : option Z :=
  match s with
  | SmallContentStr _ _ _ _ _ _ _ _ _ _ overall
  | LargeContentStr _ _ _ _ _ _ _ _ _ overall
  | NonBulkDenseContentStr _ _ _ _ _ _ _ _ _ overall
  | BulkDenseContentStr _ _ _ _ _ _ _ _ _ _ _ _ overall => Some overall
  | UnknownKindStr _ => None
  end.

Lemma flip_zero_test (x a c : Z) :
  (if negb (x =? 0) then a else c) = (if x =? 0 then c else a).
Proof. by destruct (x =? 0). Qed.

(** Close a comparison of a string's length with a decoder's: the rounding
    is the same, the decoder's branches are taken apart. *)
Ltac str_solve Hv :=
  rewrite ?AOStorage_RoundUp_valid by exact Hv; rewrite ?flip_zero_test; cbn [outcome_bind]; cbv zeta;
  repeat match goal with |- (if ?c then _ else _) = _ → _ => destruct c; [done|] end;
  let H := fresh in intros H; apply return_pair_inj in H; rewrite <- H;
  eexists; split; [reflexivity|];
  cbn [str_overallBlockLen ci_overallBlockLen ci_hasFirstRowNum];
  f_equal; match goal with |- context [if ?c then _ else _ + sizeof_int64] => destruct c end;
  cbn [negb]; unfold sizeof_int64; lia.

(** The overall length printed in error messages: for every block that
    the decoder accepts, the string of a Bulk Dense header prints the overall
    length the decoder computes, while the strings of the Small and Non-Bulk
    Dense headers leave out the eight bytes of the row number when the header
    has one. *)
Lemma header_str_overall b len ck limit version out i :
  AORelationVersion_IsValid version = true →
  (AppendOnlyStorageFormat_GetSmallContentHeaderInfo b len ck limit version out
     = Return (AOHeaderCheckOk, i) →
   ∃ s, AppendOnlyStorageFormat_SmallContentHeaderStr b ck version = Return s ∧
     str_overallBlockLen s
       = Some (ci_overallBlockLen i - if ci_hasFirstRowNum i then 8 else 0)) ∧
  (AppendOnlyStorageFormat_GetNonBulkDenseContentHeaderInfo b len ck limit version out
     = Return (AOHeaderCheckOk, i) →
   ∃ s, AppendOnlyStorageFormat_NonBulkDenseContentHeaderStr b ck version = Return s ∧
     str_overallBlockLen s
       = Some (ci_overallBlockLen i - if ci_hasFirstRowNum i then 8 else 0)) ∧
  (AppendOnlyStorageFormat_GetBulkDenseContentHeaderInfo b len ck limit version out
     = Return (AOHeaderCheckOk, i) →
   ∃ s, AppendOnlyStorageFormat_BulkDenseContentHeaderStr b ck version = Return s ∧
     str_overallBlockLen s = Some (ci_overallBlockLen i)).
Proof.
  intros Hv. split; [|split].
  - unfold AppendOnlyStorageFormat_GetSmallContentHeaderInfo,
      AppendOnlyStorageFormat_SmallContentHeaderStr. str_solve Hv.
  - unfold AppendOnlyStorageFormat_GetNonBulkDenseContentHeaderInfo,
      AppendOnlyStorageFormat_NonBulkDenseContentHeaderStr. str_solve Hv.
  - unfold AppendOnlyStorageFormat_GetBulkDenseContentHeaderInfo,
      AppendOnlyStorageFormat_BulkDenseContentHeaderStr. str_solve Hv.
Qed.

(** ** Witnesses: a block of 64 bytes, checksums and row number on *)

Definition block64 : list Z := replicate 64 7.
Definition no_header_info : HeaderInfo := mkHeaderInfo 0 0.
Definition no_content_info : ContentInfo := mkContentInfo 0 0 0 0 false 0 0 false 0.
Definition no_large_info : LargeContentInfo := mkLargeContentInfo 0 0 false 0 0.

Definition get_block (o : outcome (list Z)) : list Z :=
  match o with Return b => b | ElogError => [] end.

(** Twenty bytes compressed to seven, row 100 of a version 2 table. *)
Definition small64 : list Z :=
  get_block (AppendOnlyStorageFormat_MakeSmallContentHeader block64 true true 2 100 1 3 20 7).

Ltac witness_hyps :=
  first [ reflexivity | vm_compute; (split || idtac); congruence
        | vm_compute; intuition congruence | unfold is_byte; lia | done ].

Ltac bytes_hyp :=
  vm_compute; repeat (apply Forall_cons_2; [split; congruence|]); apply Forall_nil_2.

Lemma small_content_roundtrip_witness :
  ∃ b', AppendOnlyStorageFormat_MakeSmallContentHeader block64 true true 2 100 1 3 20 7
          = Return b' ∧
    AppendOnlyStorageFormat_GetSmallContentHeaderInfo b' 24 true 64 2 no_content_info
      = Return (AOHeaderCheckOk, mkContentInfo 32 24 20 1 true 100 3 true 7).
Proof.
  destruct (small_content_roundtrip block64 true true 2 100 1 3 20 7 64 no_header_info
    no_content_info) as (b' & H1 & _ & _ & _ & H2 & _); [witness_hyps..|].
  exists b'. split; [exact H1|exact H2].
Defined.

Lemma bulk_dense_roundtrip_witness :
  ∃ b', AppendOnlyStorageFormat_MakeBulkDenseContentHeader true no_content_info block64 true
          true 2 100 1 40000 20 7 = Return b' ∧
    AppendOnlyStorageFormat_GetBulkDenseContentHeaderInfo b' 32 true 64 2 no_content_info
      = Return (AOHeaderCheckOk, mkContentInfo 40 32 20 1 true 100 40000 true 7).
Proof.
  destruct (bulk_dense_roundtrip true no_content_info block64 true true 2 100 1 40000 20 7
    64 no_header_info no_content_info) as (b' & H1 & _ & _ & _ & H2 & _);
    [witness_hyps..|].
  exists b'. split; [exact H1|exact H2].
Defined.

Lemma header_corruption_detected_witness :
  (AppendOnlyStorageFormat_VerifyHeaderChecksum (<[5%nat:=200]> small64)).1.1 = false.
Proof.
  apply (header_corruption_detected small64 5 0 200);
    [bytes_hyp | witness_hyps..].
Defined.

Lemma block_corruption_detected_witness :
  (AppendOnlyStorageFormat_VerifyBlockChecksum (<[26%nat:=200]> small64) 32).1.1 = false.
Proof.
  apply (block_corruption_detected small64 32 26 7 200);
    [bytes_hyp | ..];
    first [ right; lia | witness_hyps ].
Defined.

Lemma decoders_in_bounds_witness :
  ∃ e i,
    AppendOnlyStorageFormat_GetSmallContentHeaderInfo small64 24 true 64 2 no_content_info
      = Return (e, i) ∧ (e = AOHeaderCheckOk → content_fits 64 i).
Proof.
  apply (decoders_in_bounds small64 true no_header_info 1 24 64 2 no_content_info no_large_info);
    witness_hyps.
Defined.
