(* ===== verification/CdbHeap.v ===== *)
(** The generic binary heap (backend/cdb/cdbheap.c, include/cdb/cdbheap.h).

    A heap is an array of slots of [wordsPerSlot] words each, of which the
    first [nSlotsUsed] are in use, with a temporary slot beside it.  The
    operations move slots one at a time with [CdbHeap_CopySlot] and leave a
    hole that is filled at the end; elements are passed by pointer, and the
    pointer may point into the array itself ([CdbHeap_DeleteMin] passes the
    slot behind the last one), so [slot_ptr] keeps the aliasing.

    Slots are addressed by their index: the byte offset from [slot0] divided
    by [bytesPerSlot].  The loops that walk a path of the tree carry fuel and
    return [None] when it runs out; the theorems show that they never do. *)
From stdpp Require Import prelude numbers list sorting.
From S2P Require Import Prelude.

Abbreviation slot := (list Z).

Record CdbHeap := mkCdbHeap {
  slotArray : list slot;
  nSlotsUsed : nat;
  bytesPerSlot : nat;
  wordsPerSlot : nat;
  comparator : slot → slot → Z → Z;
  comparatorContext : Z;
  tempSlot : slot;
  nSlotsMax : nat;
  ownSlotArray : bool
}.

Definition set_slots (f : list slot → list slot) (hp : CdbHeap) : CdbHeap :=
  mkCdbHeap (f (slotArray hp)) (nSlotsUsed hp) (bytesPerSlot hp) (wordsPerSlot hp)
    (comparator hp) (comparatorContext hp) (tempSlot hp) (nSlotsMax hp) (ownSlotArray hp).
Definition set_used (n : nat) (hp : CdbHeap) : CdbHeap :=
  mkCdbHeap (slotArray hp) n (bytesPerSlot hp) (wordsPerSlot hp)
    (comparator hp) (comparatorContext hp) (tempSlot hp) (nSlotsMax hp) (ownSlotArray hp).
Definition set_temp (s : slot) (hp : CdbHeap) : CdbHeap :=
  mkCdbHeap (slotArray hp) (nSlotsUsed hp) (bytesPerSlot hp) (wordsPerSlot hp)
    (comparator hp) (comparatorContext hp) s (nSlotsMax hp) (ownSlotArray hp).

(** Where a [void *] slot pointer points. *)
Inductive slot_ptr :=
  | SlotArray (i : nat)
  | TempSlot
  | CallerSlot (s : slot).

Definition CdbHeap_Slot (hp : CdbHeap) (i : nat) : slot := slotArray hp !!! i.
Definition CdbHeap_Min (hp : CdbHeap) : slot := CdbHeap_Slot hp 0.
Definition CdbHeap_Count (hp : CdbHeap) : nat := nSlotsUsed hp.
Definition CdbHeap_IsEmpty (hp : CdbHeap) : bool := (CdbHeap_Count hp =? 0)%nat.

Definition deref (hp : CdbHeap) (p : slot_ptr) : slot :=
  match p with
  | SlotArray i => CdbHeap_Slot hp i
  | TempSlot => tempSlot hp
  | CallerSlot s => s
  end.

Definition store (hp : CdbHeap) (p : slot_ptr) (s : slot) : CdbHeap :=
  match p with
  | SlotArray i => set_slots <[i:=s]> hp
  | TempSlot => set_temp s hp
  | CallerSlot _ => hp
  end.

Definition cmp (hp : CdbHeap) (a b : slot) : Z := comparator hp a b (comparatorContext hp).

(** The last words of a slot: [while (--j > 0) tgt[j+2] = src[j+2]], for
    [j - 1] going down to 1. *)
Fixpoint copy_tail (j : nat) (src tgt : slot) : slot :=
  match j with
  | 0%nat => tgt
  | S j' => copy_tail j' src (<[(S j' + 2)%nat := src !!! (S j' + 2)%nat]> tgt)
  end.

(** The word-by-word copy: three words unrolled, then the loop. *)
Definition copy_words (words : nat) (src tgt : slot) : slot :=
  let tgt := <[0%nat := src !!! 0%nat]> tgt in
  if (0 <? words - 1)%nat then
    let tgt := <[1%nat := src !!! 1%nat]> tgt in
    if (0 <? words - 2)%nat then
      copy_tail (words - 3) src (<[2%nat := src !!! 2%nat]> tgt)
    else tgt
  else tgt.

Definition CdbHeap_CopySlot (hp : CdbHeap) (tgtSlot srcSlot : slot_ptr) : CdbHeap :=
  store hp tgtSlot (copy_words (wordsPerSlot hp) (deref hp srcSlot) (deref hp tgtSlot)).

(** [CdbHeap_Create]: the array of the caller, or a fresh one of zeroes. *)
Definition CdbHeap_Create (compar : slot → slot → Z → Z) (context : Z)
    (nMax bytes : nat) (array : option (list slot)) : CdbHeap :=
  let words := (bytes / 4)%nat in
  let zero_slot := replicate words 0 in
  mkCdbHeap (default (replicate nMax zero_slot) array) 0 bytes words compar context
    zero_slot nMax (match array with None => true | Some _ => false end).

(** What [CdbHeap_Destroy] frees. *)
Inductive allocation := SlotArrayBlock | CdbHeapBlock.

Definition CdbHeap_Destroy (hp : option CdbHeap) : list allocation :=
  match hp with
  | None => []
  | Some hp => (if ownSlotArray hp then [SlotArrayBlock] else []) ++ [CdbHeapBlock]
  end.

(** The hole sinks while a child is smaller than the element. *)
Fixpoint SiftDown_loop (fuel : nat) (hp : CdbHeap) (cur : nat) (newElement : slot_ptr)
    : option (CdbHeap * nat) :=
  match fuel with
  | 0%nat => None
  | S fuel =>
    if (cur <? nSlotsUsed hp / 2)%nat then
      let kid := (cur + 1 + cur)%nat in
      let kid :=
        if (kid + 1 <? nSlotsUsed hp)%nat
           && (cmp hp (CdbHeap_Slot hp (kid + 1)) (CdbHeap_Slot hp kid) <? 0)
        then (kid + 1)%nat else kid in
      if cmp hp (deref hp newElement) (CdbHeap_Slot hp kid) <=? 0
      then Some (hp, cur)
      else SiftDown_loop fuel (CdbHeap_CopySlot hp (SlotArray cur) (SlotArray kid)) kid
             newElement
    else Some (hp, cur)
  end.

Definition SiftDown (hp : CdbHeap) (iHole : nat) (newElement : slot_ptr)
    : option CdbHeap :=
  '(hp, cur) ← SiftDown_loop (S (nSlotsUsed hp)) hp iHole newElement;
  Some (CdbHeap_CopySlot hp (SlotArray cur) newElement).

Definition CdbHeap_DeleteMin (hp : CdbHeap) : option CdbHeap :=
  let hp := set_used (nSlotsUsed hp - 1) hp in
  if (0 <? nSlotsUsed hp)%nat then SiftDown hp 0 (SlotArray (nSlotsUsed hp)) else Some hp.

Definition CdbHeap_DeleteMinAndInsert (hp : CdbHeap) (newElement : slot_ptr)
    : option CdbHeap :=
  SiftDown hp 0 newElement.

(** The hole bubbles up while the parent is greater than the element. *)
Fixpoint Insert_loop (fuel : nat) (hp : CdbHeap) (hole : nat) (newElement : slot_ptr)
    : option (CdbHeap * nat) :=
  match fuel with
  | 0%nat => None
  | S fuel =>
    if (0 <? hole)%nat then
      let dad := ((hole - 1) / 2)%nat in
      if cmp hp (CdbHeap_Slot hp dad) (deref hp newElement) <=? 0
      then Some (hp, hole)
      else Insert_loop fuel (CdbHeap_CopySlot hp (SlotArray hole) (SlotArray dad)) dad
             newElement
    else Some (hp, hole)
  end.

Definition CdbHeap_Insert (hp : CdbHeap) (newElement : slot_ptr) : option CdbHeap :=
  let n := nSlotsUsed hp in
  let hp := set_used (S n) hp in
  '(hp, hole) ← Insert_loop (S n) hp n newElement;
  Some (CdbHeap_CopySlot hp (SlotArray hole) newElement).

(** [for (i = nSlotsUsed/2-1; i >= 0; i--)]: [k] iterations left, the next
    at index [k - 1]. *)
Fixpoint Heapify_loop (k : nat) (hp : CdbHeap) : option CdbHeap :=
  match k with
  | 0%nat => Some hp
  | S i =>
    hp ← SiftDown (CdbHeap_CopySlot hp TempSlot (SlotArray i)) i TempSlot;
    Heapify_loop i hp
  end.

Definition CdbHeap_Heapify (hp : CdbHeap) (n : nat) : option CdbHeap :=
  let hp := set_used n hp in
  if (1 <? n)%nat then Heapify_loop (n / 2) hp else Some hp.

(** [lastSlot] goes from slot [n - 1] down to slot 1. *)
Fixpoint SortDescending_loop (last : nat) (hp : CdbHeap) : option CdbHeap :=
  match last with
  | 0%nat => Some hp
  | S last' =>
    let hp := CdbHeap_CopySlot hp TempSlot (SlotArray 0) in
    hp ← CdbHeap_DeleteMin hp;
    SortDescending_loop last' (CdbHeap_CopySlot hp (SlotArray last) TempSlot)
  end.

Definition CdbHeap_SortDescending (hp : CdbHeap) : option (CdbHeap * option slot_ptr) :=
  let n := nSlotsUsed hp in
  if (n =? 0)%nat then Some (hp, None)
  else
    hp ← SortDescending_loop (n - 1) hp;
    Some (set_used n hp, Some (SlotArray 0)).

(** ** Lemmas: copying a slot *)

Lemma copy_tail_lookup j src tgt i :
  length src = length tgt → (j = 0 ∨ j + 2 < length tgt)%nat →
  copy_tail j src tgt !! i
  = if decide (3 ≤ i ≤ j + 2)%nat then src !! i else tgt !! i.
Proof.
  revert tgt. induction j as [|j IH]; intros tgt Hl Hj.
  - rewrite decide_False by lia. done.
  - cbn [copy_tail]. rewrite IH by (rewrite ?length_insert; lia).
    rewrite insert_lookup_dec by lia. repeat case_decide; try lia; try done.
    subst. symmetry. apply list_lookup_lookup_total_lt. lia.
Qed.

Lemma copy_words_eq w src tgt :
  length src = w → length tgt = w → (0 < w)%nat → copy_words w src tgt = src.
Proof.
  intros Hs Ht Hw. apply list_eq. intros i.
  assert (Hin : ∀ k, (k < w)%nat → Some (src !!! k) = src !! k).
  { intros. symmetry. apply list_lookup_lookup_total_lt. lia. }
  assert (Hout : (w ≤ i)%nat → src !! i = None ∧ tgt !! i = None).
  { intros. split; apply lookup_ge_None_2; lia. }
  unfold copy_words.
  destruct (Nat.ltb_spec 0 (w - 1)), (Nat.ltb_spec 0 (w - 2)); try lia;
    rewrite ?copy_tail_lookup by (rewrite ?length_insert; lia);
    rewrite !insert_lookup_dec by (rewrite ?length_insert; lia);
    repeat case_decide; try subst i; try (by apply Hin; lia);
    try done; destruct Hout as [-> ->]; done || lia.
Qed.

(** ** Heap order

    A comparator is lawful when it orders the slots: it never claims both
    [a >= b] and [b > a], and [<=] is transitive. *)
Class Comparator (c : slot → slot → Z) : Prop := {
  cmp_flip a b : 0 ≤ c a b → c b a ≤ 0;
  cmp_trans a b d : c a b ≤ 0 → c b d ≤ 0 → c a d ≤ 0
}.

Definition parent (i : nat) : nat := ((i - 1) / 2)%nat.

(** Every used slot below a slot of index [h] or more is at least its
    parent. *)
Definition heap_from (c : slot → slot → Z) (n h : nat) (a : list slot) : Prop :=
  ∀ i, (0 < i < n)%nat → (h ≤ parent i)%nat → c (a !!! parent i) (a !!! i) ≤ 0.

Definition heap_order (hp : CdbHeap) : Prop :=
  heap_from (cmp hp) (nSlotsUsed hp) 0 (slotArray hp).

Lemma insert_total_dec (l : list slot) i x k :
  (i < length l)%nat → <[i:=x]> l !!! k = if decide (k = i) then x else l !!! k.
Proof.
  intros. rewrite !list_lookup_total_alt, insert_lookup_dec by done. by case_decide.
Qed.

Section Order.
Context (c : slot → slot → Z) `{!Comparator c} (n : nat).
Implicit Types (a : list slot) (x : slot) (i cur kid h : nat).

(** A hole at [cur] that is to take [x]: the order holds everywhere but
    between the hole and its children, which are at least the hole's
    parent. *)
Definition sift_inv h cur x a : Prop :=
  (∀ i, (0 < i < n)%nat → (h ≤ parent i)%nat → parent i ≠ cur →
     c (<[cur:=x]> a !!! parent i) (<[cur:=x]> a !!! i) ≤ 0) ∧
  (∀ i, (0 < i < n)%nat → parent i = cur → (0 < cur)%nat → (h ≤ parent cur)%nat →
     c (a !!! parent cur) (a !!! i) ≤ 0).

Lemma parent_lt i : (0 < i)%nat → (parent i < i)%nat.
Proof. unfold parent. intros. apply Nat.Div0.div_lt_upper_bound. lia. Qed.

Lemma parent_kid i k : (0 < i)%nat → parent i = k ↔ i = (2 * k + 1)%nat ∨ i = (2 * k + 2)%nat.
Proof.
  unfold parent. intros. pose proof (Nat.div_mod_eq (i - 1) 2).
  pose proof (Nat.mod_upper_bound (i - 1) 2). lia.
Qed.

Lemma sift_start h x a :
  (h < n)%nat → (n ≤ length a)%nat → heap_from c n (S h) a → sift_inv h h x a.
Proof.
  intros Hh Hn Ha. split.
  - intros i Hi Hp Hne. pose proof (parent_lt i).
    rewrite !insert_total_dec by lia. repeat case_decide; try lia.
    apply Ha; lia.
  - intros i Hi Hp Hpos Hle. pose proof (parent_lt h). lia.
Qed.

Lemma sift_step h cur kid x a :
  sift_inv h cur x a → (h ≤ cur)%nat → (0 < kid < n)%nat → (n ≤ length a)%nat →
  parent kid = cur → ¬ c x (a !!! kid) ≤ 0 →
  (∀ i, (0 < i < n)%nat → parent i = cur → c (a !!! kid) (a !!! i) ≤ 0) →
  sift_inv h kid x (<[cur:=a !!! kid]> a).
Proof.
  intros [H1 H2] Hh Hk Hn Hpk Hx Hmin. pose proof (parent_lt kid ltac:(lia)).
  split.
  - intros i Hi Hp Hne. pose proof (parent_lt i ltac:(lia)).
    rewrite !insert_total_dec by (rewrite ?length_insert; lia).
    destruct (decide (i = kid)) as [->|Hik]; [|destruct (decide (i = cur)) as [->|Hic]].
    + rewrite decide_False, decide_True by lia. apply cmp_flip. lia.
    + rewrite decide_False, decide_False by lia. apply H2; lia.
    + rewrite (decide_False (P := parent i = kid)) by lia.
      destruct (decide (parent i = cur)) as [Hpc|Hpc]; [by apply Hmin|].
      specialize (H1 i Hi Hp Hpc). rewrite !insert_total_dec in H1 by lia.
      by rewrite !decide_False in H1 by lia.
  - intros i Hi Hpi _ _. rewrite Hpk. pose proof (parent_lt i ltac:(lia)).
    rewrite !insert_total_dec by lia. rewrite decide_True, decide_False by lia.
    specialize (H1 i Hi ltac:(lia) ltac:(lia)).
    rewrite !insert_total_dec in H1 by lia. rewrite !decide_False in H1 by lia.
    by rewrite Hpi in H1.
Qed.

(** The hole comes to rest. *)
Lemma sift_stop h cur x a :
  sift_inv h cur x a → (cur < n)%nat → (n ≤ length a)%nat →
  (∀ i, (0 < i < n)%nat → parent i = cur → c x (a !!! i) ≤ 0) →
  heap_from c n h (<[cur:=x]> a).
Proof.
  intros [H1 _] Hc Hn Hx i Hi Hp. destruct (decide (parent i = cur)) as [Hpc|]; [|by apply H1].
  pose proof (parent_lt i ltac:(lia)).
  rewrite !insert_total_dec by lia. rewrite decide_True, decide_False by lia. by apply Hx.
Qed.

(** The hole of an insertion: the order holds everywhere but between the
    hole and its parent. *)
Definition bubble_inv hole x a : Prop :=
  (∀ i, (0 < i < n)%nat → i ≠ hole → c (<[hole:=x]> a !!! parent i) (a !!! i) ≤ 0) ∧
  (∀ i, (0 < i < n)%nat → parent i = hole → (0 < hole)%nat →
     c (a !!! parent hole) (a !!! i) ≤ 0).

Lemma bubble_start x a :
  (S n ≤ length a)%nat → heap_from c n 0 a →
  (∀ i, (0 < i < S n)%nat → i ≠ n → c (<[n:=x]> a !!! parent i) (a !!! i) ≤ 0) ∧
  (∀ i, (0 < i < S n)%nat → parent i = n → (0 < n)%nat → c (a !!! parent n) (a !!! i) ≤ 0).
Proof.
  intros Hn Ha. split; intros i Hi Hne; pose proof (parent_lt i); [|lia].
  rewrite !insert_total_dec by lia. rewrite decide_False by lia. apply Ha; lia.
Qed.

Lemma bubble_step hole x a :
  bubble_inv hole x a → (0 < hole < n)%nat → (n ≤ length a)%nat →
  ¬ c (a !!! parent hole) x ≤ 0 →
  bubble_inv (parent hole) x (<[hole:=a !!! parent hole]> a).
Proof.
  intros [H1 H2] Hh Hn Hx. pose proof (parent_lt hole ltac:(lia)) as Hp.
  assert (Hxd : c x (a !!! parent hole) ≤ 0) by (apply cmp_flip; lia).
  split.
  - intros i Hi Hne. pose proof (parent_lt i ltac:(lia)).
    rewrite !insert_total_dec by (rewrite ?length_insert; lia).
    destruct (decide (i = hole)) as [->|Hih]; [by rewrite decide_True by lia|].
    specialize (H1 i Hi Hih). rewrite insert_total_dec in H1 by lia.
    destruct (decide (parent i = parent hole)) as [E|Hne'].
    + rewrite decide_False, E in H1 by lia. by eapply cmp_trans.
    + destruct (decide (parent i = hole)); [by apply H2; lia|done].
  - intros i Hi Hpi Hpos. pose proof (parent_lt (parent hole) Hpos) as Hpp.
    rewrite !insert_total_dec by lia. rewrite decide_False by lia.
    assert (Hdd : c (a !!! parent (parent hole)) (a !!! parent hole) ≤ 0).
    { specialize (H1 (parent hole) ltac:(lia) ltac:(lia)).
      rewrite insert_total_dec in H1 by lia. by rewrite decide_False in H1 by lia. }
    destruct (decide (i = hole)) as [->|Hih]; [done|].
    eapply cmp_trans; [exact Hdd|]. specialize (H1 i Hi Hih).
    rewrite insert_total_dec in H1 by lia. rewrite decide_False in H1 by lia.
    by rewrite Hpi in H1.
Qed.

Lemma bubble_stop hole x a :
  bubble_inv hole x a → (hole < n)%nat → (n ≤ length a)%nat →
  (hole = 0%nat ∨ c (a !!! parent hole) x ≤ 0) → heap_from c n 0 (<[hole:=x]> a).
Proof.
  intros [H1 _] Hh Hn Hx i Hi _. pose proof (parent_lt i ltac:(lia)).
  destruct (decide (i = hole)) as [->|Hih].
  - rewrite !insert_total_dec by lia. rewrite decide_False, decide_True by lia.
    destruct Hx; [lia|done].
  - rewrite (insert_total_dec a hole x i) by lia. rewrite decide_False by done. by apply H1.
Qed.

(** The root of a heap is its minimum. *)
Lemma root_min a i :
  (∀ x, c x x ≤ 0) → heap_from c n 0 a → (i < n)%nat → c (a !!! 0%nat) (a !!! i) ≤ 0.
Proof.
  intros Hr Ha. induction (lt_wf i) as [i _ IH]. intros Hi.
  destruct (decide (i = 0%nat)) as [->|]; [by apply Hr|].
  pose proof (parent_lt i ltac:(lia)).
  eapply cmp_trans; [apply (IH (parent i)); lia|]. apply Ha; lia.
Qed.

Lemma cmp_refl x : c x x ≤ 0.
Proof. destruct (Z.le_gt_cases (c x x) 0); [done|]. apply cmp_flip. lia. Qed.
End Order.

(** ** Well-formed heaps *)

Record heap_wf (hp : CdbHeap) : Prop := {
  wf_words : (0 < wordsPerSlot hp)%nat;
  wf_slots : Forall (λ s : slot, length s = wordsPerSlot hp) (slotArray hp);
  wf_temp : length (tempSlot hp) = wordsPerSlot hp;
  wf_max : length (slotArray hp) = nSlotsMax hp;
  wf_used : (nSlotsUsed hp ≤ nSlotsMax hp)%nat
}.

(** A pointer to an element that an operation on the first [n] slots does not
    overwrite. *)
Definition ptr_ok (hp : CdbHeap) (n : nat) (p : slot_ptr) : Prop :=
  match p with
  | SlotArray j => (n ≤ j < nSlotsMax hp)%nat
  | TempSlot => True
  | CallerSlot s => length s = wordsPerSlot hp
  end.

(** The elements of a heap. *)
Definition live (hp : CdbHeap) : list slot := take (nSlotsUsed hp) (slotArray hp).

Lemma ptr_ok_le hp m n p : ptr_ok hp n p → (m ≤ n)%nat → ptr_ok hp m p.
Proof. destruct p; simpl; lia || done. Qed.

Lemma deref_length hp n p : heap_wf hp → ptr_ok hp n p → length (deref hp p) = wordsPerSlot hp.
Proof.
  intros [_ Hs Ht Hm _] Hp. destruct p as [j| |s]; simpl in *; [|done..].
  rewrite Forall_forall in Hs. apply Hs, list_elem_of_lookup_2 with j.
  apply list_lookup_lookup_total_lt. lia.
Qed.

Lemma copy_slot_eq hp i p :
  heap_wf hp → (i < nSlotsMax hp)%nat → ptr_ok hp 0 p →
  CdbHeap_CopySlot hp (SlotArray i) p = set_slots <[i:=deref hp p]> hp.
Proof.
  intros Hwf Hi Hp. unfold CdbHeap_CopySlot, store. rewrite copy_words_eq; [done|..].
  - by eapply deref_length.
  - apply (deref_length hp 0 (SlotArray i)); [done|]. simpl. lia.
  - apply Hwf.
Qed.

Lemma copy_temp_eq hp p :
  heap_wf hp → ptr_ok hp 0 p → CdbHeap_CopySlot hp TempSlot p = set_temp (deref hp p) hp.
Proof.
  intros Hwf Hp. unfold CdbHeap_CopySlot, store. rewrite copy_words_eq; [done|..].
  - by eapply deref_length.
  - apply Hwf.
  - apply Hwf.
Qed.

Lemma wf_insert hp i s :
  heap_wf hp → length s = wordsPerSlot hp → heap_wf (set_slots <[i:=s]> hp).
Proof.
  intros [] Hl. constructor; simpl; try done.
  - by apply Forall_insert.
  - by rewrite length_insert.
Qed.

Lemma wf_set_temp hp s :
  heap_wf hp → length s = wordsPerSlot hp → heap_wf (set_temp s hp).
Proof. by intros [] Hl. Qed.

Lemma wf_set_used hp n : heap_wf hp → (n ≤ nSlotsMax hp)%nat → heap_wf (set_used n hp).
Proof. by intros []. Qed.

Lemma deref_insert hp i s p n :
  ptr_ok hp n p → (i < n)%nat → deref (set_slots <[i:=s]> hp) p = deref hp p.
Proof.
  intros Hp Hi. destruct p as [j| |s']; simpl in *; [|done..].
  unfold CdbHeap_Slot. simpl. apply list_lookup_total_insert_ne. lia.
Qed.

(** Moving the hole keeps the elements. *)
Lemma move_hole_perm (a : list slot) cur kid x :
  (cur < length a)%nat → (kid < length a)%nat → cur ≠ kid →
  <[kid:=x]> (<[cur:=a !!! kid]> a) ≡ₚ <[cur:=x]> a.
Proof.
  intros Hc Hk Hne. apply (Permutation_cons_inv (a := a !!! kid)).
  rewrite (insert_perm (<[cur:=a !!! kid]> a) kid (a !!! kid)).
  - rewrite <- (insert_perm (<[cur:=x]> a) cur x (a !!! kid)).
    + by rewrite list_insert_insert_eq.
    + by apply list_lookup_insert_eq.
  - rewrite list_lookup_insert_ne by done. by apply list_lookup_lookup_total_lt.
Qed.

(** ** Lemmas: the loops *)

(** [hp'] is [hp] with another array. *)
Definition only_slots (hp hp' : CdbHeap) : Prop :=
  hp' = set_slots (λ _, slotArray hp') hp.

Lemma only_slots_insert hp hp' i s :
  only_slots (set_slots <[i:=s]> hp) hp' → only_slots hp hp'.
Proof. unfold only_slots. by intros ->. Qed.

(** The child the hole moves to is the least child. *)
Lemma kid_min hp cur kid :
  Comparator (cmp hp) → (cur < nSlotsUsed hp / 2)%nat →
  kid = (if (cur + 1 + cur + 1 <? nSlotsUsed hp)%nat
           && (cmp hp (CdbHeap_Slot hp (cur + 1 + cur + 1))
                 (CdbHeap_Slot hp (cur + 1 + cur)) <? 0)
         then (cur + 1 + cur + 1)%nat else (cur + 1 + cur)%nat) →
  (cur < kid < nSlotsUsed hp)%nat ∧ parent kid = cur ∧
  ∀ i, (0 < i < nSlotsUsed hp)%nat → parent i = cur →
    cmp hp (slotArray hp !!! kid) (slotArray hp !!! i) ≤ 0.
Proof.
  intros Hc Hcur ->. pose proof (Nat.Div0.mul_div_le (nSlotsUsed hp) 2).
  unfold CdbHeap_Slot. pose proof (cmp_refl (cmp hp)) as Hr.
  destruct (Nat.ltb_spec (cur + 1 + cur + 1) (nSlotsUsed hp)); simpl;
    [destruct (Z.ltb_spec (cmp hp (slotArray hp !!! (cur + 1 + cur + 1)%nat)
       (slotArray hp !!! (cur + 1 + cur)%nat)) 0)|];
    (split; [lia|]; split; [apply parent_kid; lia|]);
    intros i Hi Hp; apply parent_kid in Hp as [->| ->]; try lia;
    replace (2 * cur + 1)%nat with (cur + 1 + cur)%nat by lia;
    replace (2 * cur + 2)%nat with (cur + 1 + cur + 1)%nat by lia;
    try (by apply Hr); [lia|by apply cmp_flip].
Qed.

(** What [SiftDown] and [CdbHeap_Insert] leave, [b] being the array with the
    element in the hole they start from: the same elements, the array behind
    the first [n] slots untouched. *)
Record filled (hp : CdbHeap) (n : nat) (b : list slot) (hp' : CdbHeap) : Prop := {
  filled_only : only_slots hp hp';
  filled_wf : heap_wf hp';
  filled_perm : slotArray hp' ≡ₚ b;
  filled_rest : drop n (slotArray hp') = drop n (slotArray hp)
}.

Lemma filled_insert hp n cur kid x hp' :
  heap_wf hp → (cur < n ≤ nSlotsMax hp)%nat → (kid < n)%nat → cur ≠ kid →
  filled (set_slots <[cur:=slotArray hp !!! kid]> hp) n
    (<[kid:=x]> (<[cur:=slotArray hp !!! kid]> (slotArray hp))) hp' →
  filled hp n (<[cur:=x]> (slotArray hp)) hp'.
Proof.
  intros Hwf Hc Hk Hne [H1 H2 H3 H4]. pose proof (wf_max hp Hwf).
  split; [by eapply only_slots_insert|done| |].
  - rewrite H3. apply move_hole_perm; lia || done.
  - rewrite H4. simpl. by rewrite drop_insert_lt by lia.
Qed.

Lemma filled_stop hp n cur p :
  heap_wf hp → (cur < n ≤ nSlotsMax hp)%nat → ptr_ok hp n p →
  filled hp n (<[cur:=deref hp p]> (slotArray hp)) (CdbHeap_CopySlot hp (SlotArray cur) p).
Proof.
  intros Hwf Hc Hp. rewrite copy_slot_eq by (done || lia || (eapply ptr_ok_le; [done|lia])).
  split; simpl; [done| |done|].
  - apply wf_insert; [done|]. by eapply deref_length.
  - by rewrite drop_insert_lt by lia.
Qed.

(** [SiftDown] from the state [(hp, cur)] of its loop. *)
Lemma sift_loop_ok fuel hp h cur p :
  heap_wf hp → Comparator (cmp hp) → ptr_ok hp (nSlotsUsed hp) p →
  sift_inv (cmp hp) (nSlotsUsed hp) h cur (deref hp p) (slotArray hp) →
  (h ≤ cur < nSlotsUsed hp)%nat → (nSlotsUsed hp - cur ≤ fuel)%nat →
  ∃ hp1 cur1,
    SiftDown_loop fuel hp cur p = Some (hp1, cur1) ∧
    let hp' := CdbHeap_CopySlot hp1 (SlotArray cur1) p in
    filled hp (nSlotsUsed hp) (<[cur:=deref hp p]> (slotArray hp)) hp' ∧
    heap_from (cmp hp) (nSlotsUsed hp) h (slotArray hp').
Proof.
  revert hp cur. induction fuel as [|fuel IH]; intros hp cur Hwf Hc Hp Hinv Hcur Hfuel; [lia|].
  cbn [SiftDown_loop]. pose proof (wf_used hp Hwf). pose proof (wf_max hp Hwf) as Hmax.
  assert (Hstop : (∀ i, (0 < i < nSlotsUsed hp)%nat → parent i = cur →
      cmp hp (deref hp p) (slotArray hp !!! i) ≤ 0) →
    heap_from (cmp hp) (nSlotsUsed hp) h
      (slotArray (CdbHeap_CopySlot hp (SlotArray cur) p))).
  { intros Hx. rewrite copy_slot_eq by (done || lia || (eapply ptr_ok_le; [done|lia])).
    apply sift_stop; done || lia. }
  destruct (Nat.ltb_spec cur (nSlotsUsed hp / 2)) as [Hlt|Hge].
  - destruct (kid_min hp cur _ Hc Hlt eq_refl) as (Hk & Hpk & Hmin).
    set (kid := if _ && _ then _ else _) in *.
    destruct (Z.leb_spec (cmp hp (deref hp p) (CdbHeap_Slot hp kid)) 0) as [Hle|Hgt].
    + do 2 eexists. split; [done|]. split; [apply filled_stop; done || lia|].
      apply Hstop. intros i Hi Hpi. eapply cmp_trans; [exact Hle|by apply Hmin].
    + rewrite copy_slot_eq by (done || simpl; lia). cbn [deref].
      pose proof (deref_insert hp cur (CdbHeap_Slot hp kid) p (nSlotsUsed hp) Hp
        ltac:(lia)) as Hd.
      destruct (IH (set_slots <[cur:=CdbHeap_Slot hp kid]> hp) kid)
        as (hp1 & cur1 & E & Hf & Hh).
      * apply wf_insert; [done|]. apply (deref_length hp 0 (SlotArray kid)); [done|].
        simpl. lia.
      * done.
      * done.
      * rewrite Hd. change (cmp (set_slots _ hp)) with (cmp hp).
        change (nSlotsUsed (set_slots _ hp)) with (nSlotsUsed hp).
        apply sift_step; unfold CdbHeap_Slot in *; done || lia.
      * simpl. lia.
      * simpl. lia.
      * exists hp1, cur1. split; [done|]. split; [|done]. rewrite Hd in Hf.
        apply filled_insert with kid; done || lia.
  - do 2 eexists. split; [done|]. split; [apply filled_stop; done || lia|].
    apply Hstop. intros i Hi Hpi. exfalso. apply parent_kid in Hpi; [|lia].
    pose proof (Nat.div_mod_eq (nSlotsUsed hp) 2).
    pose proof (Nat.mod_upper_bound (nSlotsUsed hp) 2). lia.
Qed.

Lemma insert_loop_ok fuel hp hole p :
  heap_wf hp → Comparator (cmp hp) → ptr_ok hp (nSlotsUsed hp) p →
  bubble_inv (cmp hp) (nSlotsUsed hp) hole (deref hp p) (slotArray hp) →
  (hole < nSlotsUsed hp)%nat → (hole < fuel)%nat →
  ∃ hp1 hole1,
    Insert_loop fuel hp hole p = Some (hp1, hole1) ∧
    let hp' := CdbHeap_CopySlot hp1 (SlotArray hole1) p in
    filled hp (nSlotsUsed hp) (<[hole:=deref hp p]> (slotArray hp)) hp' ∧
    heap_from (cmp hp) (nSlotsUsed hp) 0 (slotArray hp').
Proof.
  revert hp hole. induction fuel as [|fuel IH]; intros hp hole Hwf Hc Hp Hinv Hh Hf; [lia|].
  cbn [Insert_loop]. pose proof (wf_used hp Hwf). pose proof (wf_max hp Hwf) as Hmax.
  assert (Hstop : (hole = 0%nat ∨ cmp hp (slotArray hp !!! parent hole) (deref hp p) ≤ 0) →
    heap_from (cmp hp) (nSlotsUsed hp) 0
      (slotArray (CdbHeap_CopySlot hp (SlotArray hole) p))).
  { intros Hx. rewrite copy_slot_eq by (done || lia || (eapply ptr_ok_le; [done|lia])).
    apply bubble_stop; done || lia. }
  destruct (Nat.ltb_spec 0 hole) as [Hlt|Hge].
  - fold (parent hole). pose proof (parent_lt hole Hlt).
    destruct (Z.leb_spec (cmp hp (CdbHeap_Slot hp (parent hole)) (deref hp p)) 0)
      as [Hle|Hgt].
    + do 2 eexists. split; [done|]. split; [apply filled_stop; done || lia|].
      apply Hstop. by right.
    + rewrite copy_slot_eq by (done || simpl; lia). cbn [deref].
      pose proof (deref_insert hp hole (CdbHeap_Slot hp (parent hole)) p (nSlotsUsed hp) Hp
        ltac:(lia)) as Hd.
      destruct (IH (set_slots <[hole:=CdbHeap_Slot hp (parent hole)]> hp) (parent hole))
        as (hp1 & hole1 & E & Hfi & Hho).
      * apply wf_insert; [done|]. apply (deref_length hp 0 (SlotArray (parent hole)));
          [done|]. simpl. lia.
      * done.
      * done.
      * rewrite Hd. change (cmp (set_slots _ hp)) with (cmp hp).
        change (nSlotsUsed (set_slots _ hp)) with (nSlotsUsed hp).
        apply bubble_step; unfold CdbHeap_Slot in *; done || lia.
      * simpl. lia.
      * lia.
      * exists hp1, hole1. split; [done|]. split; [|done]. rewrite Hd in Hfi.
        apply filled_insert with (parent hole); done || lia.
  - do 2 eexists. split; [done|]. split; [apply filled_stop; done || lia|].
    apply Hstop. left. lia.
Qed.

Lemma sift_down_ok hp h p :
  heap_wf hp → Comparator (cmp hp) → ptr_ok hp (nSlotsUsed hp) p →
  (h < nSlotsUsed hp)%nat → heap_from (cmp hp) (nSlotsUsed hp) (S h) (slotArray hp) →
  ∃ hp', SiftDown hp h p = Some hp' ∧
    filled hp (nSlotsUsed hp) (<[h:=deref hp p]> (slotArray hp)) hp' ∧
    heap_from (cmp hp) (nSlotsUsed hp) h (slotArray hp').
Proof.
  intros Hwf Hc Hp Hh Ho. pose proof (wf_used hp Hwf). pose proof (wf_max hp Hwf).
  destruct (sift_loop_ok (S (nSlotsUsed hp)) hp h h p) as (hp1 & cur1 & E & Hf & Hq);
    [done..|apply sift_start; done || lia|lia|lia|].
  unfold SiftDown. rewrite E. simpl. eauto.
Qed.

(** ** Lemmas: elements *)

Lemma take_perm {A} n (l l' : list A) :
  l ≡ₚ l' → drop n l = drop n l' → take n l ≡ₚ take n l'.
Proof.
  intros Hp Hd. apply (Permutation_app_inv_r (drop n l)).
  rewrite take_drop, Hd, take_drop. done.
Qed.

Lemma filled_take hp n h x hp' :
  (h < n)%nat → filled hp n (<[h:=x]> (slotArray hp)) hp' →
  take n (slotArray hp') ≡ₚ <[h:=x]> (take n (slotArray hp)).
Proof.
  intros Hh [_ _ H3 H4]. rewrite (take_perm n _ (<[h:=x]> (slotArray hp)) H3).
  - by rewrite take_insert_lt by lia.
  - by rewrite H4, drop_insert_lt by lia.
Qed.

Lemma take_S_total (l : list slot) n :
  (n < length l)%nat → take (S n) l = take n l ++ [l !!! n].
Proof. intros. apply take_S_r. by apply list_lookup_lookup_total_lt. Qed.

Lemma elem_of_live hp s :
  heap_wf hp → s ∈ live hp ↔ ∃ i, (i < nSlotsUsed hp)%nat ∧ slotArray hp !!! i = s.
Proof.
  intros Hwf. pose proof (wf_used hp Hwf). pose proof (wf_max hp Hwf).
  unfold live. rewrite list_elem_of_lookup. split.
  - intros (i & Hi). apply lookup_take_Some in Hi as [Hi ?]. exists i. split; [done|].
    by apply list_lookup_total_correct.
  - intros (i & Hi & <-). exists i. rewrite lookup_take_lt by done.
    apply list_lookup_lookup_total_lt. lia.
Qed.

Lemma min_le_live hp s :
  heap_wf hp → Comparator (cmp hp) → heap_order hp → s ∈ live hp →
  cmp hp (CdbHeap_Min hp) s ≤ 0.
Proof.
  intros Hwf Hc Ho Hs. apply elem_of_live in Hs as (i & Hi & <-); [|done].
  apply root_min with (nSlotsUsed hp); [done|by apply cmp_refl|exact Ho|done].
Qed.

(** Nothing but the array, the temporary slot and the count changes. *)
Definition same_config (hp hp' : CdbHeap) : Prop :=
  comparator hp' = comparator hp ∧ comparatorContext hp' = comparatorContext hp ∧
  bytesPerSlot hp' = bytesPerSlot hp ∧ wordsPerSlot hp' = wordsPerSlot hp ∧
  nSlotsMax hp' = nSlotsMax hp ∧ ownSlotArray hp' = ownSlotArray hp.

Lemma only_slots_config hp hp' : only_slots hp hp' → same_config hp hp'.
Proof. unfold only_slots. by intros ->. Qed.

Lemma only_slots_used hp hp' : only_slots hp hp' → nSlotsUsed hp' = nSlotsUsed hp.
Proof. unfold only_slots. by intros ->. Qed.

Lemma same_config_cmp hp hp' : same_config hp hp' → cmp hp' = cmp hp.
Proof. intros (E1 & E2 & _). unfold cmp. by rewrite E1, E2. Qed.

Lemma same_config_trans hp1 hp2 hp3 :
  same_config hp1 hp2 → same_config hp2 hp3 → same_config hp1 hp3.
Proof. unfold same_config. intuition congruence. Qed.

Lemma delete_min_ok hp :
  heap_wf hp → Comparator (cmp hp) → heap_order hp → (0 < nSlotsUsed hp)%nat →
  ∃ hp', CdbHeap_DeleteMin hp = Some hp' ∧ heap_wf hp' ∧ heap_order hp' ∧
    same_config hp hp' ∧ tempSlot hp' = tempSlot hp ∧
    nSlotsUsed hp' = (nSlotsUsed hp - 1)%nat ∧
    drop (nSlotsUsed hp - 1) (slotArray hp') = drop (nSlotsUsed hp - 1) (slotArray hp) ∧
    live hp ≡ₚ CdbHeap_Min hp :: live hp'.
Proof.
  intros Hwf Hc Ho Hn. pose proof (wf_used hp Hwf). pose proof (wf_max hp Hwf).
  unfold CdbHeap_DeleteMin. set (m := (nSlotsUsed hp - 1)%nat).
  assert (Hwf' : heap_wf (set_used m hp)) by (apply wf_set_used; [done|lia]).
  assert (Hlive : live hp = take m (slotArray hp) ++ [slotArray hp !!! m]).
  { unfold live. replace (nSlotsUsed hp) with (S m) by lia. apply take_S_total. lia. }
  cbn [nSlotsUsed set_used]. destruct (Nat.ltb_spec 0 m) as [Hm|Hm].
  - destruct (sift_down_ok (set_used m hp) 0 (SlotArray m)) as (hp' & E & Hf & Hh);
      [done|done|simpl; lia|simpl; lia| |].
    { intros i Hi _. apply Ho; simpl in *; lia. }
    exists hp'. split; [exact E|]. destruct Hf as [F1 F2 F3 F4] eqn:Ef.
    pose proof (only_slots_used _ _ F1) as Eu. simpl in Eu.
    split; [done|]. split.
    { unfold heap_order. rewrite Eu, (same_config_cmp _ _ (only_slots_config _ _ F1)). done. }
    split; [by rewrite F1|]. split; [by rewrite F1|]. split; [done|]. split; [done|].
    rewrite Hlive. unfold live. rewrite Eu, (filled_take _ _ _ _ _ Hm Hf). simpl.
    rewrite insert_perm; [by rewrite Permutation_app_comm|].
    rewrite lookup_take_lt by lia. apply list_lookup_lookup_total_lt. lia.
  - exists (set_used m hp). split_and!; try done.
    + intros i Hi. simpl in Hi. lia.
    + rewrite Hlive. unfold live. simpl. replace m with 0%nat by lia. done.
Qed.

(** One round of the sort: the minimum [m] of the heap goes to slot [last]. *)
Lemma sort_step last hp :
  heap_wf hp → Comparator (cmp hp) → heap_order hp → nSlotsUsed hp = S (S last) →
  ∃ hp', SortDescending_loop (S last) hp = SortDescending_loop last hp' ∧
    heap_wf hp' ∧ same_config hp hp' ∧ heap_order hp' ∧ nSlotsUsed hp' = S last ∧
    drop (S last) (slotArray hp') = CdbHeap_Min hp :: drop (S (S last)) (slotArray hp) ∧
    live hp ≡ₚ CdbHeap_Min hp :: live hp'.
Proof.
  intros Hwf Hc Ho Hn. pose proof (wf_used hp Hwf). pose proof (wf_max hp Hwf).
  cbn [SortDescending_loop].
  rewrite copy_temp_eq by (done || simpl; lia). cbn [deref]. fold (CdbHeap_Min hp).
  set (m := CdbHeap_Min hp). set (hp0 := set_temp m hp).
  assert (Hl0 : length m = wordsPerSlot hp).
  { apply (deref_length hp 0 (SlotArray 0)); [done|]. simpl. lia. }
  destruct (delete_min_ok hp0) as (hp1 & E & W1 & O1 & C1 & T1 & U1 & D1 & L1);
    [by apply wf_set_temp|done|done|simpl; lia|].
  rewrite E. cbn [mbind option_bind]. simpl in T1, U1, D1. rewrite Hn in U1, D1.
  replace (S (S last) - 1)%nat with (S last) in * by lia.
  assert (M1 : nSlotsMax hp1 = nSlotsMax hp) by apply C1. pose proof (wf_max hp1 W1).
  rewrite copy_slot_eq by (done || simpl; lia). cbn [deref]. rewrite T1.
  eexists. split; [done|]. split.
  { apply wf_insert; [done|]. rewrite Hl0. symmetry. apply C1. }
  split; [done|]. split; [|split; [done|split]].
  - intros i Hi _. simpl in *. rewrite U1 in Hi. pose proof (parent_lt i ltac:(lia)).
    rewrite !insert_total_dec by lia. rewrite !decide_False by lia. apply O1; lia.
  - simpl. rewrite drop_insert_ge, D1, Nat.sub_diag by lia.
    by rewrite (drop_S _ (slotArray hp !!! S last))
      by (apply list_lookup_lookup_total_lt; lia).
  - unfold live at 2. simpl. rewrite U1, take_insert_ge, <- U1 by lia. exact L1.
Qed.

Lemma sort_loop_ok last hp s t :
  heap_wf hp → Comparator (cmp hp) → heap_order hp → nSlotsUsed hp = S last →
  drop (S last) (slotArray hp) = s ++ t → StronglySorted (λ x y, cmp hp y x ≤ 0) s →
  (∀ x y, x ∈ live hp → y ∈ s → cmp hp y x ≤ 0) →
  ∃ hp' l, SortDescending_loop last hp = Some hp' ∧ heap_wf hp' ∧ same_config hp hp' ∧
    slotArray hp' = l ++ t ∧ StronglySorted (λ x y, cmp hp y x ≤ 0) l ∧
    l ≡ₚ live hp ++ s.
Proof.
  revert hp s. induction last as [|last IH]; intros hp s Hwf Hc Ho Hn Hd Hs Hle;
    pose proof (wf_used hp Hwf); pose proof (wf_max hp Hwf).
  - exists hp, (live hp ++ s). split_and!; try done.
    + unfold live. by rewrite <- app_assoc, <- Hd, Hn, take_drop.
    + apply StronglySorted_app_2; [done| |done]. unfold live.
      rewrite Hn, take_S_total by lia. simpl. repeat constructor.
  - destruct (sort_step last hp) as (hp1 & -> & W1 & C1 & O1 & U1 & D1 & L1); [done..|].
    pose proof (same_config_cmp _ _ C1) as Ec.
    set (m := CdbHeap_Min hp) in *. assert (Hm : m ∈ live hp) by (rewrite L1; set_solver).
    destruct (IH hp1 (m :: s)) as (hp' & l & E & W & C & Hl & Hso & Hp); rewrite ?Ec.
    + done.
    + done.
    + done.
    + done.
    + by rewrite D1, Hd.
    + constructor; [done|]. apply Forall_forall. intros y Hy. by apply Hle.
    + intros x y Hx Hy. apply elem_of_cons in Hy as [->|Hy].
      * apply min_le_live; [done..|]. rewrite L1. set_solver.
      * apply Hle; [|done]. rewrite L1. set_solver.
    + exists hp', l. rewrite Ec in Hso. split_and!; try done.
      * by eapply same_config_trans.
      * rewrite Hp, L1. simpl. by rewrite Permutation_middle.
Qed.

Lemma heapify_loop_ok k hp :
  heap_wf hp → Comparator (cmp hp) → (k ≤ nSlotsUsed hp)%nat →
  heap_from (cmp hp) (nSlotsUsed hp) k (slotArray hp) →
  ∃ hp', Heapify_loop k hp = Some hp' ∧ heap_wf hp' ∧ same_config hp hp' ∧
    nSlotsUsed hp' = nSlotsUsed hp ∧ heap_order hp' ∧ live hp' ≡ₚ live hp ∧
    drop (nSlotsUsed hp) (slotArray hp') = drop (nSlotsUsed hp) (slotArray hp).
Proof.
  revert hp. induction k as [|k IH]; intros hp Hwf Hc Hk Ho; [by exists hp|].
  cbn [Heapify_loop]. pose proof (wf_used hp Hwf). pose proof (wf_max hp Hwf).
  rewrite copy_temp_eq by (done || simpl; lia). cbn [deref].
  set (hp0 := set_temp (CdbHeap_Slot hp k) hp).
  assert (W0 : heap_wf hp0).
  { apply wf_set_temp; [done|]. apply (deref_length hp 0 (SlotArray k)); [done|].
    simpl. lia. }
  destruct (sift_down_ok hp0 k TempSlot) as (hp1 & -> & Hf & H1); [done..|simpl; lia|done|].
  destruct Hf as [F1 F2 F3 F4] eqn:Ef. cbn [mbind option_bind].
  pose proof (only_slots_used _ _ F1) as U1. change (nSlotsUsed hp0) with (nSlotsUsed hp) in *.
  assert (C1 : same_config hp hp1) by (by rewrite F1).
  pose proof (same_config_cmp _ _ C1) as Ec.
  destruct (IH hp1) as (hp' & E & W & C & U & O & P & D);
    [done|by rewrite Ec|lia|by rewrite U1, Ec|].
  exists hp'. rewrite U1 in *. split_and!; try done.
  - by eapply same_config_trans.
  - rewrite P. unfold live. rewrite U1, (filled_take hp0 (nSlotsUsed hp) k _ _ ltac:(lia) Hf).
    simpl. unfold CdbHeap_Slot. rewrite list_insert_id; [done|].
    rewrite lookup_take_lt by lia. apply list_lookup_lookup_total_lt. lia.
  - by rewrite D, F4.
Qed.

(** ** Theorems *)

(** Inserting into a heap with room gives a heap of one more element:
    the elements are the old ones and a copy of the new one, the slots behind
    them are untouched, and the walk to the root always ends. *)
Lemma heap_insert_correct hp p :
  heap_wf hp → Comparator (cmp hp) → heap_order hp →
  (nSlotsUsed hp < nSlotsMax hp)%nat → ptr_ok hp (S (nSlotsUsed hp)) p →
  ∃ hp', CdbHeap_Insert hp p = Some hp' ∧ heap_wf hp' ∧ same_config hp hp' ∧
    nSlotsUsed hp' = S (nSlotsUsed hp) ∧ heap_order hp' ∧
    live hp' ≡ₚ deref hp p :: live hp ∧
    drop (S (nSlotsUsed hp)) (slotArray hp') = drop (S (nSlotsUsed hp)) (slotArray hp).
Proof.
  intros Hwf Hc Ho Hn Hp. pose proof (wf_max hp Hwf).
  unfold CdbHeap_Insert. set (n := nSlotsUsed hp) in *. set (hp0 := set_used (S n) hp).
  assert (W0 : heap_wf hp0) by (apply wf_set_used; [done|lia]).
  destruct (insert_loop_ok (S n) hp0 n p) as (hp1 & hole & -> & Hf & Hh);
    [done..|apply (bubble_start (cmp hp) n); [simpl; lia|done]|simpl; lia|lia|].
  cbn [mbind option_bind]. eexists. split; [done|].
  set (hp' := CdbHeap_CopySlot _ _ _) in *.
  destruct Hf as [F1 F2 F3 F4] eqn:Ef. pose proof (only_slots_used _ _ F1) as U1.
  change (nSlotsUsed hp0) with (S n) in U1.
  split; [done|]. split; [by rewrite F1|]. split; [done|]. split; [|split; [|done]].
  - unfold heap_order. by rewrite U1, (same_config_cmp _ _ (only_slots_config _ _ F1)).
  - unfold live. rewrite U1.
    rewrite (filled_take hp0 (S n) n _ _ ltac:(lia) Hf). simpl.
    rewrite take_S_total by lia. change (deref hp0 p) with (deref hp p).
    rewrite insert_app_r_alt by (rewrite length_take; lia).
    replace (n - length (take n (slotArray hp)))%nat with 0%nat by (rewrite length_take; lia).
    by rewrite Permutation_app_comm.
Qed.

(** Deleting the minimum of a non-empty heap: the slot that
    [CdbHeap_Min] shows before the call is at most every element, exactly it
    is removed, and what is left is a heap. *)
Lemma heap_delete_min_correct hp :
  heap_wf hp → Comparator (cmp hp) → heap_order hp → CdbHeap_IsEmpty hp = false →
  (∀ s, s ∈ live hp → cmp hp (CdbHeap_Min hp) s ≤ 0) ∧
  ∃ hp', CdbHeap_DeleteMin hp = Some hp' ∧ heap_wf hp' ∧ same_config hp hp' ∧
    heap_order hp' ∧ CdbHeap_Count hp' = (CdbHeap_Count hp - 1)%nat ∧
    live hp ≡ₚ CdbHeap_Min hp :: live hp'.
Proof.
  intros Hwf Hc Ho He. apply Nat.eqb_neq in He. unfold CdbHeap_Count in *.
  split; [intros s Hs; by apply min_le_live|].
  destruct (delete_min_ok hp) as (hp' & E & W & O & C & T & U & D & L); [done..|lia|].
  exists hp'. split_and!; done.
Qed.

(** Replacing the minimum in one step is a deletion of the minimum and an
    insertion of the element. *)
Lemma heap_replace_min_correct hp p :
  heap_wf hp → Comparator (cmp hp) → heap_order hp → CdbHeap_IsEmpty hp = false →
  ptr_ok hp (nSlotsUsed hp) p →
  ∃ hp', CdbHeap_DeleteMinAndInsert hp p = Some hp' ∧ heap_wf hp' ∧ same_config hp hp' ∧
    heap_order hp' ∧ CdbHeap_Count hp' = CdbHeap_Count hp ∧
    CdbHeap_Min hp :: live hp' ≡ₚ deref hp p :: live hp.
Proof.
  intros Hwf Hc Ho He Hp. apply Nat.eqb_neq in He. unfold CdbHeap_Count in *.
  pose proof (wf_used hp Hwf). pose proof (wf_max hp Hwf).
  destruct (sift_down_ok hp 0 p) as (hp' & E & Hf & Hh); [done..|lia| |].
  { intros i Hi _. by apply Ho; [|lia]. }
  destruct Hf as [F1 F2 F3 F4] eqn:Ef. pose proof (only_slots_used _ _ F1) as U1.
  exists hp'. split; [done|]. split; [done|]. split; [by apply only_slots_config|].
  split; [|split; [done|]].
  - unfold heap_order. by rewrite U1, (same_config_cmp _ _ (only_slots_config _ _ F1)).
  - unfold live. rewrite U1, (filled_take hp (nSlotsUsed hp) 0 _ _ ltac:(lia) Hf).
    apply insert_perm. rewrite lookup_take_lt by lia.
    apply list_lookup_lookup_total_lt. lia.
Qed.

(** C12. The operations of a priority queue on any heap.  Inserting where there
    is room adds exactly the element.  What [CdbHeap_Min] shows of a non-empty
    heap is at most every element and is what [CdbHeap_DeleteMin] removes.
    Replacing the minimum in one step is a deletion and an insertion.  Each
    returns, and leaves a heap of the same configuration. *)
Theorem heap_operations_correct hp :
  heap_wf hp → Comparator (cmp hp) → heap_order hp →
  (∀ p, (nSlotsUsed hp < nSlotsMax hp)%nat → ptr_ok hp (S (nSlotsUsed hp)) p →
     ∃ hp', CdbHeap_Insert hp p = Some hp' ∧ heap_wf hp' ∧ same_config hp hp' ∧ heap_order hp' ∧
       live hp' ≡ₚ deref hp p :: live hp) ∧
  (CdbHeap_IsEmpty hp = false →
     (∀ s, s ∈ live hp → cmp hp (CdbHeap_Min hp) s ≤ 0) ∧
     (∃ hp', CdbHeap_DeleteMin hp = Some hp' ∧ heap_wf hp' ∧ same_config hp hp' ∧ heap_order hp' ∧
        CdbHeap_Count hp' = (CdbHeap_Count hp - 1)%nat ∧ live hp ≡ₚ CdbHeap_Min hp :: live hp') ∧
     (∀ p, ptr_ok hp (nSlotsUsed hp) p →
        ∃ hp', CdbHeap_DeleteMinAndInsert hp p = Some hp' ∧ heap_wf hp' ∧ same_config hp hp' ∧
          heap_order hp' ∧ CdbHeap_Min hp :: live hp' ≡ₚ deref hp p :: live hp)).
Proof.
  intros Hwf Hc Ho. split.
  - intros p Hn Hp. destruct (heap_insert_correct hp p) as (hp' & ? & ? & ? & _ & ? & ? & _); [done..|].
    by exists hp'.
  - intros He. destruct (heap_delete_min_correct hp) as [Hmin Hdel]; [done..|].
    split; [done|]. split; [done|]. intros p Hp.
    destruct (heap_replace_min_correct hp p) as (hp' & ? & ? & ? & ? & _ & ?); [done..|]. by exists hp'.
Qed.

(** Heapify turns any contents of the first [n] slots into a heap of the
    same elements. *)
Lemma heapify_correct hp n :
  heap_wf hp → Comparator (cmp hp) → (n ≤ nSlotsMax hp)%nat →
  ∃ hp', CdbHeap_Heapify hp n = Some hp' ∧ heap_wf hp' ∧ same_config hp hp' ∧
    nSlotsUsed hp' = n ∧ heap_order hp' ∧ live hp' ≡ₚ take n (slotArray hp) ∧
    drop n (slotArray hp') = drop n (slotArray hp).
Proof.
  intros Hwf Hc Hn. unfold CdbHeap_Heapify.
  assert (W0 : heap_wf (set_used n hp)) by (by apply wf_set_used).
  destruct (Nat.ltb_spec 1 n) as [H1|H1].
  - pose proof (Nat.div_mod_eq n 2). pose proof (Nat.mod_upper_bound n 2).
    destruct (heapify_loop_ok (n / 2) (set_used n hp)) as (hp' & E & W & C & U & O & P & D);
      [done|done|cbn [nSlotsUsed set_used]; lia| |].
    { intros i Hi Hp. exfalso. cbn [nSlotsUsed set_used] in Hi. assert (Hi' : parent i = parent i) by done.
      apply parent_kid in Hi'; lia. }
    by exists hp'.
  - exists (set_used n hp). split_and!; try done. intros i Hi. simpl in Hi. lia.
Qed.

(** Sorting a heap leaves its elements in descending order in the same
    slots and returns a pointer to the first; an empty heap gives a null
    pointer and is not changed. *)
Lemma sort_descending_correct hp :
  heap_wf hp → Comparator (cmp hp) → heap_order hp →
  ∃ hp' r, CdbHeap_SortDescending hp = Some (hp', r) ∧ heap_wf hp' ∧ same_config hp hp' ∧
    r = (if CdbHeap_IsEmpty hp then None else Some (SlotArray 0)) ∧
    nSlotsUsed hp' = nSlotsUsed hp ∧ live hp' ≡ₚ live hp ∧
    StronglySorted (λ x y, cmp hp y x ≤ 0) (live hp') ∧
    drop (nSlotsUsed hp) (slotArray hp') = drop (nSlotsUsed hp) (slotArray hp).
Proof.
  intros Hwf Hc Ho. pose proof (wf_used hp Hwf). pose proof (wf_max hp Hwf).
  unfold CdbHeap_SortDescending, CdbHeap_IsEmpty, CdbHeap_Count.
  destruct (Nat.eqb_spec (nSlotsUsed hp) 0) as [E0|E0].
  - exists hp, None. split_and!; try done. unfold live. rewrite E0. constructor.
  - destruct (sort_loop_ok (nSlotsUsed hp - 1) hp [] (drop (nSlotsUsed hp) (slotArray hp)))
      as (hp' & l & -> & W & C & Ha & Hs & Hp);
      [done|done|done|lia|simpl; f_equal; lia|constructor|set_solver|].
    rewrite app_nil_r in Hp. cbn [mbind option_bind].
    assert (Hll : length l = nSlotsUsed hp).
    { rewrite Hp. unfold live. rewrite length_take. lia. }
    do 2 eexists. split; [done|]. split; [apply wf_set_used; [done|]; destruct C as
      (_ & _ & _ & _ & -> & _); lia|].
    unfold live at 1 3. cbn [slotArray set_used nSlotsUsed]. rewrite Ha.
    rewrite take_app_length', drop_app_length' by done. split_and!; done.
Qed.

(** C14. Heap sort: heapify turns any contents of the first [n] slots into a heap
    of the same elements, and sorting any heap leaves its elements in
    descending order in the same slots (an empty heap gives a null pointer and
    is not changed), so that the one after the other sorts the slots. *)
Theorem heap_sort_correct hp n :
  heap_wf hp → Comparator (cmp hp) → (n ≤ nSlotsMax hp)%nat →
  ∃ hp1 hp2 r, CdbHeap_Heapify hp n = Some hp1 ∧ heap_order hp1 ∧ nSlotsUsed hp1 = n ∧
    live hp1 ≡ₚ take n (slotArray hp) ∧
    CdbHeap_SortDescending hp1 = Some (hp2, r) ∧ r = (if CdbHeap_IsEmpty hp1 then None else Some (SlotArray 0)) ∧
    heap_wf hp2 ∧ same_config hp hp2 ∧ nSlotsUsed hp2 = n ∧ live hp2 ≡ₚ take n (slotArray hp) ∧
    StronglySorted (λ x y, cmp hp y x ≤ 0) (live hp2) ∧ drop n (slotArray hp2) = drop n (slotArray hp).
Proof.
  intros Hwf Hc Hn. destruct (heapify_correct hp n) as (hp1 & E1 & W1 & C1 & U1 & O1 & P1 & D1); [done..|].
  pose proof (same_config_cmp _ _ C1) as Ec.
  destruct (sort_descending_correct hp1) as (hp2 & r & E2 & W2 & C2 & Hr & U2 & P2 & S2 & D2); [done|by rewrite Ec|done|].
  exists hp1, hp2, r. rewrite Ec in S2. rewrite U1 in *. split_and!; try done; [|by rewrite P2|by rewrite D2].
  by eapply same_config_trans.
Qed.

(** ** Witnesses: two-word slots compared by their first word *)

Definition cmp_first (a b : slot) (_ : Z) : Z := (a !!! 0%nat) - (b !!! 0%nat).

Definition demo_heap (used : nat) : CdbHeap :=
  mkCdbHeap [[1; 10]; [3; 30]; [2; 20]; [9; 0]] used 8 2 cmp_first 0 [0; 0] 4 false.

Global Instance cmp_first_comparator used : Comparator (cmp (demo_heap used)).
Proof. split; unfold cmp, demo_heap, cmp_first; simpl; lia. Defined.

Lemma demo_wf : heap_wf (demo_heap 3).
Proof. split; simpl; [lia|by repeat constructor|done|done|lia]. Defined.

Lemma demo_order : heap_order (demo_heap 3).
Proof.
  intros i Hi _. simpl in Hi. destruct i as [|[|[|i]]]; [lia| | |lia]; vm_compute; congruence.
Defined.

Lemma heap_operations_correct_witness :
  (∃ hp', CdbHeap_Insert (demo_heap 3) (CallerSlot [0; 5]) = Some hp' ∧ heap_order hp') ∧
  ∃ hp', CdbHeap_DeleteMin (demo_heap 3) = Some hp' ∧ heap_order hp'.
Proof.
  destruct (heap_operations_correct (demo_heap 3)) as [HI HD];
    [apply demo_wf|apply cmp_first_comparator|apply demo_order|]. split.
  - destruct (HI (CallerSlot [0; 5])) as (hp' & E & _ & _ & O & _); [simpl; lia|reflexivity|].
    exists hp'. split; [exact E|exact O].
  - destruct HD as (_ & (hp' & E & _ & _ & O & _) & _); [reflexivity|]. exists hp'. split; [exact E|exact O].
Defined.

Lemma heap_sort_correct_witness :
  ∃ hp1 hp2 r, CdbHeap_Heapify (demo_heap 3) 4 = Some hp1 ∧ CdbHeap_SortDescending hp1 = Some (hp2, r) ∧
    StronglySorted (λ x y, cmp (demo_heap 3) y x ≤ 0) (live hp2).
Proof.
  destruct (heap_sort_correct (demo_heap 3) 4) as (hp1 & hp2 & r & E1 & _ & _ & _ & E2 & _ & _ & _ & _ & _ & S & _);
    [apply demo_wf|apply cmp_first_comparator|simpl; lia|].
  exists hp1, hp2, r. split; [exact E1|]. split; [exact E2|exact S].
Defined.
