(* ===== verification/HashFunc.v ===== *)
(** The hash functions behind hash indexes and hash tables
    (backend/access/hash/hashfunc.c), as built on a little endian machine.

    A key is the memory from its address on: the bytes of the key and
    whatever follows them, since [hashlittle] reads whole words and may read
    past the end of the key.  The address decides by its alignment how the
    key is read.  All arithmetic is on [uint32]. *)
From stdpp Require Import prelude numbers list.
From S2P Require Import Prelude.

(** ** Mixing *)

Definition rot (x k : Z) : Z := Z.lor (u32 (Z.shiftl x k)) (Z.shiftr x (32 - k)).

(** The internal state [a], [b], [c]. *)
Record abc := mkabc { st_a : Z; st_b : Z; st_c : Z }.

Definition mix (s : abc) : abc :=
  let '(mkabc a b c) := s in
  let a := u32 (a - c) in let a := Z.lxor a (rot c 4) in let c := u32 (c + b) in
  let b := u32 (b - a) in let b := Z.lxor b (rot a 6) in let a := u32 (a + c) in
  let c := u32 (c - b) in let c := Z.lxor c (rot b 8) in let b := u32 (b + a) in
  let a := u32 (a - c) in let a := Z.lxor a (rot c 16) in let c := u32 (c + b) in
  let b := u32 (b - a) in let b := Z.lxor b (rot a 19) in let a := u32 (a + c) in
  let c := u32 (c - b) in let c := Z.lxor c (rot b 4) in let b := u32 (b + a) in
  mkabc a b c.

Definition final (s : abc) : abc :=
  let '(mkabc a b c) := s in
  let c := Z.lxor c b in let c := u32 (c - rot b 14) in
  let a := Z.lxor a c in let a := u32 (a - rot c 11) in
  let b := Z.lxor b a in let b := u32 (b - rot a 25) in
  let c := Z.lxor c b in let c := u32 (c - rot b 16) in
  let a := Z.lxor a c in let a := u32 (a - rot c 4) in
  let b := Z.lxor b a in let b := u32 (b - rot a 14) in
  let c := Z.lxor c b in let c := u32 (c - rot b 24) in
  mkabc a b c.

Definition add_a (x : Z) (s : abc) : abc := mkabc (u32 (st_a s + x)) (st_b s) (st_c s).
Definition add_b (x : Z) (s : abc) : abc := mkabc (st_a s) (u32 (st_b s + x)) (st_c s).
Definition add_c (x : Z) (s : abc) : abc := mkabc (st_a s) (st_b s) (u32 (st_c s + x)).

(** ** Keys of words *)

(** The loop over all but the last block of three words, and the rest of the
    key. *)
Fixpoint hashword_loop (k : list Z) (s : abc) : list Z * abc :=
  match k with
  | k0 :: k1 :: k2 :: ((_ :: _) as rest) =>
    hashword_loop rest (mix (add_c k2 (add_b k1 (add_a k0 s))))
  | _ => (k, s)
  end.

(** The last one to three words; no word leaves the state as it is. *)
Definition hashword_last (k : list Z) (s : abc) : abc :=
  match k with
  | [k0; k1; k2] => final (add_a k0 (add_b k1 (add_c k2 s)))
  | [k0; k1] => final (add_a k0 (add_b k1 s))
  | [k0] => final (add_a k0 s)
  | _ => s
  end.

Definition hashword (k : list Z) (initval : Z) : Z :=
  let x := u32 (0xdeadbeef + u32 (Z.shiftl (Z.of_nat (length k)) 2) + initval) in
  let '(rest, s) := hashword_loop k (mkabc x x x) in
  st_c (hashword_last rest s).

(** The values left in [*pc] and [*pb]. *)
Definition hashword2 (k : list Z) (pc pb : Z) : Z * Z :=
  let x := u32 (0xdeadbeef + u32 (Z.shiftl (Z.of_nat (length k)) 2) + pc) in
  let '(rest, s) := hashword_loop k (add_c pb (mkabc x x x)) in
  let s := hashword_last rest s in
  (st_c s, st_b s).

(** ** Keys of bytes *)

Definition k32 (k : list Z) (i : Z) : Z := rd 4 (4 * i) k.
Definition k16 (k : list Z) (i : Z) : Z := rd 2 (2 * i) k.
Definition k8 (k : list Z) (i : nat) : Z := k !!! i.

(** [k[i] + (((uint32)k[j])<<16)] on half words, and [((uint32)k[i])<<n] on
    bytes. *)
Definition two16 (k : list Z) (i j : Z) : Z := u32 (k16 k i + Z.shiftl (k16 k j) 16).
Definition at8 (k : list Z) (i : nat) (n : Z) : Z := u32 (Z.shiftl (k8 k i) n).

(** The blocks of twelve bytes, read as words, as half words and as bytes;
    the loops run while more than twelve bytes are left. *)
Definition block32 (k : list Z) (s : abc) : abc :=
  mix (add_c (k32 k 2) (add_b (k32 k 1) (add_a (k32 k 0) s))).

Definition block16 (k : list Z) (s : abc) : abc :=
  mix (add_c (two16 k 4 5) (add_b (two16 k 2 3) (add_a (two16 k 0 1) s))).

Definition block8 (k : list Z) (s : abc) : abc :=
  let s := add_a (at8 k 3 24) (add_a (at8 k 2 16) (add_a (at8 k 1 8) (add_a (k8 k 0) s))) in
  let s := add_b (at8 k 7 24) (add_b (at8 k 6 16) (add_b (at8 k 5 8) (add_b (k8 k 4) s))) in
  let s := add_c (at8 k 11 24) (add_c (at8 k 10 16) (add_c (at8 k 9 8) (add_c (k8 k 8) s))) in
  mix s.

Fixpoint hash_loop (block : list Z → abc → abc) (k : list Z) (length : nat) (s : abc)
    : list Z * nat * abc :=
  match length with
  | S (S (S (S (S (S (S (S (S (S (S (S ((S _) as rest)))))))))))) =>
    hash_loop block (drop 12 k) rest (block k s)
  | _ => (k, length, s)
  end.

(** The last block: [None] for no bytes, which returns without final
    mixing. *)
Definition last32 (k : list Z) (length : nat) (s : abc) : option abc :=
  match length with
  | 12%nat => Some (add_a (k32 k 0) (add_b (k32 k 1) (add_c (k32 k 2) s)))
  | 11%nat => Some (add_a (k32 k 0) (add_b (k32 k 1) (add_c (Z.land (k32 k 2) 0xffffff) s)))
  | 10%nat => Some (add_a (k32 k 0) (add_b (k32 k 1) (add_c (Z.land (k32 k 2) 0xffff) s)))
  | 9%nat => Some (add_a (k32 k 0) (add_b (k32 k 1) (add_c (Z.land (k32 k 2) 0xff) s)))
  | 8%nat => Some (add_a (k32 k 0) (add_b (k32 k 1) s))
  | 7%nat => Some (add_a (k32 k 0) (add_b (Z.land (k32 k 1) 0xffffff) s))
  | 6%nat => Some (add_a (k32 k 0) (add_b (Z.land (k32 k 1) 0xffff) s))
  | 5%nat => Some (add_a (k32 k 0) (add_b (Z.land (k32 k 1) 0xff) s))
  | 4%nat => Some (add_a (k32 k 0) s)
  | 3%nat => Some (add_a (Z.land (k32 k 0) 0xffffff) s)
  | 2%nat => Some (add_a (Z.land (k32 k 0) 0xffff) s)
  | 1%nat => Some (add_a (Z.land (k32 k 0) 0xff) s)
  | 0%nat => None
  | _ => Some s
  end.

Definition last16 (k : list Z) (length : nat) (s : abc) : option abc :=
  let ab s := add_a (two16 k 0 1) (add_b (two16 k 2 3) s) in
  match length with
  | 12%nat => Some (ab (add_c (two16 k 4 5) s))
  | 11%nat => Some (ab (add_c (k16 k 4) (add_c (at8 k 10 16) s)))
  | 10%nat => Some (ab (add_c (k16 k 4) s))
  | 9%nat => Some (ab (add_c (k8 k 8) s))
  | 8%nat => Some (ab s)
  | 7%nat => Some (add_a (two16 k 0 1) (add_b (k16 k 2) (add_b (at8 k 6 16) s)))
  | 6%nat => Some (add_a (two16 k 0 1) (add_b (k16 k 2) s))
  | 5%nat => Some (add_a (two16 k 0 1) (add_b (k8 k 4) s))
  | 4%nat => Some (add_a (two16 k 0 1) s)
  | 3%nat => Some (add_a (k16 k 0) (add_a (at8 k 2 16) s))
  | 2%nat => Some (add_a (k16 k 0) s)
  | 1%nat => Some (add_a (k8 k 0) s)
  | 0%nat => None
  | _ => Some s
  end.

(** The cases fall through: from the last byte of the key to the first. *)
Definition add8 (k : list Z) (i : nat) (s : abc) : abc :=
  match i with
  | 0%nat => add_a (k8 k 0) s
  | 1%nat => add_a (at8 k 1 8) s
  | 2%nat => add_a (at8 k 2 16) s
  | 3%nat => add_a (at8 k 3 24) s
  | 4%nat => add_b (k8 k 4) s
  | 5%nat => add_b (at8 k 5 8) s
  | 6%nat => add_b (at8 k 6 16) s
  | 7%nat => add_b (at8 k 7 24) s
  | 8%nat => add_c (k8 k 8) s
  | 9%nat => add_c (at8 k 9 8) s
  | 10%nat => add_c (at8 k 10 16) s
  | 11%nat => add_c (at8 k 11 24) s
  | _ => s
  end.

Fixpoint fall8 (k : list Z) (n : nat) (s : abc) : abc :=
  match n with
  | 0%nat => s
  | S n => fall8 k n (add8 k n s)
  end.

Definition last8 (k : list Z) (length : nat) (s : abc) : option abc :=
  match length with
  | 0%nat => None
  | _ => if (12 <? length)%nat then Some s else Some (fall8 k length s)
  end.

(** The state when [hashlittle] and [hashlittle2] return, from the initial
    one. *)
Definition hashlittle_state (address : Z) (k : list Z) (length : nat) (s : abc) : abc :=
  let '(k, s, r) :=
    if Z.land address 3 =? 0 then
      let '(k, n, s) := hash_loop block32 k length s in (k, s, last32 k n s)
    else if Z.land address 1 =? 0 then
      let '(k, n, s) := hash_loop block16 k length s in (k, s, last16 k n s)
    else
      let '(k, n, s) := hash_loop block8 k length s in (k, s, last8 k n s) in
  match r with
  | None => s
  | Some s => final s
  end.

Definition hashlittle (address : Z) (k : list Z) (length : nat) (initval : Z) : Z :=
  let x := u32 (0xdeadbeef + u32 (Z.of_nat length) + initval) in
  st_c (hashlittle_state address k length (mkabc x x x)).

Definition hashlittle2 (address : Z) (k : list Z) (length : nat) (pc pb : Z) : Z * Z :=
  let x := u32 (0xdeadbeef + u32 (Z.of_nat length) + pc) in
  let s := hashlittle_state address k length (add_c pb (mkabc x x x)) in
  (st_c s, st_b s).

Definition hash_any (address : Z) (k : list Z) (keylen : nat) : Z :=
  hashlittle address k keylen 3923095.

Definition hash_uint32 (k : Z) : Z :=
  st_c (mix (mkabc (u32 (0xdeadbeef + k)) 0xdeadbeef (3923095 + 4))).

(** ** Reference definition

    The key is cut into little endian words, the last one padded with
    zeros. *)

Definition le (l : list Z) : Z := little_endian_to_Z 8 l.

Definition add_words (l : list Z) (s : abc) : abc :=
  mkabc (u32 (st_a s + le (take 4 l))) (u32 (st_b s + le (take 4 (drop 4 l))))
    (u32 (st_c s + le (take 4 (drop 8 l)))).

Fixpoint ref_state (blocks : nat) (key : list Z) (s : abc) : abc :=
  match blocks with
  | 0%nat => match key with [] => s | _ => final (add_words key s) end
  | S blocks => ref_state blocks (drop 12 key) (mix (add_words (take 12 key) s))
  end.

(** All bytes but the last one to twelve are in blocks that are mixed. *)
Definition ref_blocks (key : list Z) : nat := (pred (length key) / 12)%nat.

Lemma le_nil : le [] = 0.
Proof. done. Qed.

Lemma le_cons x l : is_byte x → le (x :: l) = x + 2 ^ 8 * le l.
Proof.
  intros Hx. unfold le. cbn [little_endian_to_Z]. rewrite lor_shiftl_add by done.
  rewrite Z.shiftl_mul_pow2 by lia. lia.
Qed.

Lemma le_app l1 l2 :
  Forall is_byte l1 → le (l1 ++ l2) = le l1 + 2 ^ (8 * Z.of_nat (length l1)) * le l2.
Proof.
  induction l1 as [|x l1 IH]; intros Hb.
  { rewrite le_nil. simpl. lia. }
  apply Forall_cons in Hb as [Hx Hb]. simpl app. rewrite !le_cons, IH by done.
  simpl length. replace (8 * Z.of_nat (S (length l1))) with (8 + 8 * Z.of_nat (length l1)) by lia.
  rewrite Z.pow_add_r by lia. lia.
Qed.

Lemma le_range l : Forall is_byte l → 0 ≤ le l < 2 ^ (8 * Z.of_nat (length l)).
Proof.
  induction 1 as [|x l Hx _ IH]; [done|]. rewrite le_cons by done. unfold is_byte in Hx.
  simpl length. replace (8 * Z.of_nat (S (length l))) with (8 + 8 * Z.of_nat (length l)) by lia.
  rewrite Z.pow_add_r by lia. nia.
Qed.

(** Masking the bytes that follow the key. *)
Lemma le_mask l t n :
  Forall is_byte l → n = 8 * Z.of_nat (length l) → Z.land (le (l ++ t)) (Z.ones n) = le l.
Proof.
  intros Hl ->. rewrite Z.land_ones, le_app by (done || lia).
  rewrite Z.mul_comm, Z_mod_plus_full. apply Z.mod_small. by apply le_range.
Qed.

(** *** Blocks *)

(** The components of a state after additions. *)
Lemma abc_eq s s' : st_a s = st_a s' → st_b s = st_b s' → st_c s = st_c s' → s = s'.
Proof. destruct s, s'; simpl. by intros -> -> ->. Qed.

Lemma a_add_a x s : st_a (add_a x s) = u32 (st_a s + x).
Proof. done. Qed.
Lemma a_add_b x s : st_a (add_b x s) = st_a s.
Proof. done. Qed.
Lemma a_add_c x s : st_a (add_c x s) = st_a s.
Proof. done. Qed.
Lemma b_add_a x s : st_b (add_a x s) = st_b s.
Proof. done. Qed.
Lemma b_add_b x s : st_b (add_b x s) = u32 (st_b s + x).
Proof. done. Qed.
Lemma b_add_c x s : st_b (add_c x s) = st_b s.
Proof. done. Qed.
Lemma c_add_a x s : st_c (add_a x s) = st_c s.
Proof. done. Qed.
Lemma c_add_b x s : st_c (add_b x s) = st_c s.
Proof. done. Qed.
Lemma c_add_c x s : st_c (add_c x s) = u32 (st_c s + x).
Proof. done. Qed.

Lemma a_add_words l s : st_a (add_words l s) = u32 (st_a s + le (take 4 l)).
Proof. done. Qed.
Lemma b_add_words l s : st_b (add_words l s) = u32 (st_b s + le (take 4 (drop 4 l))).
Proof. done. Qed.
Lemma c_add_words l s : st_c (add_words l s) = u32 (st_c s + le (take 4 (drop 8 l))).
Proof. done. Qed.

Create Rewrite HintDb abc.
#[export] Hint Rewrite a_add_a a_add_b a_add_c b_add_a b_add_b b_add_c c_add_a c_add_b c_add_c
  a_add_words b_add_words c_add_words : abc.

(** Split [Forall is_byte] of an explicit list. *)
Ltac split_bytes :=
  repeat match goal with H : Forall is_byte (_ :: _) |- _ =>
    apply Forall_cons in H as [? H] end.

(** A sum of bytes and words of explicit keys, as a number. *)
Ltac sum_bytes :=
  rewrite ?Z.shiftl_mul_pow2 by lia; u32_sum; rewrite ?le_cons, ?le_nil by done; lia.

Definition block_ok (block : list Z → abc → abc) : Prop :=
  ∀ key t s, length key = 12%nat → Forall is_byte key →
    block (key ++ t) s = mix (add_words key s).

(** A key of exactly twelve bytes, one by one. *)
Ltac destruct_key key :=
  do 12 (destruct key as [|? key]; [done|]); destruct key; [|done].

Lemma block32_ok : block_ok block32.
Proof. intros key t s Hl Hb. destruct_key key. done. Qed.

Lemma two16_le k i x0 x1 x2 x3 a :
  is_byte x0 → is_byte x1 → is_byte x2 → is_byte x3 →
  k16 k i = le [x0; x1] → k16 k (i + 1) = le [x2; x3] →
  u32 (a + two16 k i (i + 1)) = u32 (a + le [x0; x1; x2; x3]).
Proof.
  intros ???? E1 E2. unfold two16. rewrite E1, E2. sum_bytes.
Qed.

Lemma block16_ok : block_ok block16.
Proof.
  intros key t s Hl Hb. destruct_key key. split_bytes. unfold block16. f_equal.
  apply abc_eq; autorewrite with abc.
  - by apply (two16_le _ 0).
  - by apply (two16_le _ 2).
  - by apply (two16_le _ 4).
Qed.

Lemma bytes4_le a x0 x1 x2 x3 :
  is_byte x0 → is_byte x1 → is_byte x2 → is_byte x3 →
  u32 (u32 (u32 (u32 (a + x0) + u32 (Z.shiftl x1 8)) + u32 (Z.shiftl x2 16))
       + u32 (Z.shiftl x3 24)) = u32 (a + le [x0; x1; x2; x3]).
Proof.
  intros. sum_bytes.
Qed.

Lemma block8_ok : block_ok block8.
Proof.
  intros key t s Hl Hb. destruct_key key. split_bytes. unfold block8. f_equal.
  by apply abc_eq; autorewrite with abc; apply bytes4_le.
Qed.

(** *** The last block *)

Definition last_ok (last : list Z → nat → abc → option abc) : Prop :=
  ∀ key t s, (length key ≤ 12)%nat → Forall is_byte key →
    0 ≤ st_a s < 2 ^ 32 → 0 ≤ st_b s < 2 ^ 32 → 0 ≤ st_c s < 2 ^ 32 →
    last (key ++ t) (length key) s =
      match key with [] => None | _ => Some (add_words key s) end.

(** A word of the key, and the part of the key in the last word that is
    read. *)
Lemma k32_key (key t : list Z) i (n : nat) :
  n = Z.to_nat (4 * i) → 0 ≤ i → (n + 4 ≤ length key)%nat →
  k32 (key ++ t) i = le (take 4 (drop n key)).
Proof.
  intros -> Hi Hl. unfold k32, rd, slice. change (Z.to_nat 4) with 4%nat.
  rewrite drop_app_le, take_app_le by (rewrite ?length_drop; lia). done.
Qed.

Lemma k32_mask (key t : list Z) i (n m : nat) mask :
  Forall is_byte key → n = Z.to_nat (4 * i) → 0 ≤ i → (length key = n + m)%nat →
  (m ≤ 4)%nat → mask = Z.ones (8 * Z.of_nat m) →
  Z.land (k32 (key ++ t) i) mask = le (take 4 (drop n key)).
Proof.
  intros Hb -> Hi Hl Hm ->. unfold k32, rd, slice. change (Z.to_nat 4) with 4%nat.
  rewrite drop_app_le, take_app by lia.
  rewrite (firstn_all2 (n := 4)) by (rewrite length_drop; lia).
  apply le_mask; [by apply Forall_drop|]. rewrite length_drop. lia.
Qed.

Lemma take_drop_nil (key : list Z) n : (length key ≤ n)%nat → le (take 4 (drop n key)) = 0.
Proof. intros. by rewrite drop_ge. Qed.

Lemma last32_ok : last_ok last32.
Proof.
  intros key t s Hl Hb Ha Hb' Hc.
  assert (Hn : ∀ n : nat, (length key ≤ n)%nat → le (take 4 (drop n key)) = 0)
    by (intros; by apply take_drop_nil).
  destruct (decide (key = [])) as [->|Hne]; [done|].
  assert (E : match key with [] => None | _ => Some (add_words key s) end
              = Some (add_words key s)) by (by destruct key).
  rewrite E. clear E. destruct (length key) as [|n] eqn:El; [by destruct key|].
  destruct n as [|[|[|[|[|[|[|[|[|[|[|[|n]]]]]]]]]]]]; [..|lia]; cbn [last32]; f_equal;
    apply abc_eq; autorewrite with abc;
    rewrite ?(k32_mask key t 0 0 1), ?(k32_mask key t 0 0 2), ?(k32_mask key t 0 0 3),
      ?(k32_mask key t 1 4 1), ?(k32_mask key t 1 4 2), ?(k32_mask key t 1 4 3),
      ?(k32_mask key t 2 8 1), ?(k32_mask key t 2 8 2), ?(k32_mask key t 2 8 3),
      ?(k32_key key t 0 0), ?(k32_key key t 1 4), ?(k32_key key t 2 8) by (done || lia);
    try (rewrite Hn by lia; symmetry; rewrite Z.add_0_r; by apply u32_id); done.
Qed.

(** The reads of an explicit key. *)
Ltac explicit_reads :=
  cbv [two16 at8 k8 k16 rd slice lookup_total list_lookup_total app
       Z.to_nat Pos.to_nat Pos.iter_op Nat.add Z.mul Pos.mul Pos.add Pos.succ take drop];
  change (little_endian_to_Z 8) with le.

(** One component of the state after the last block: no bytes, or a sum. *)
Ltac last_component :=
  first [ rewrite le_nil, Z.add_0_r; symmetry; by apply u32_id | sum_bytes ].

Ltac last_cases key :=
  intros key t s Hl Hb Ha Hb' Hc;
  do 13 (destruct key as [|? key];
    [split_bytes; first [done | simpl length; cbn [last16 last8 fall8 add8 Nat.ltb Nat.leb];
      f_equal; apply abc_eq; autorewrite with abc; explicit_reads; last_component]|]);
  simpl in Hl; lia.

Lemma last16_ok : last_ok last16.
Proof. last_cases key. Qed.

Lemma last8_ok : last_ok last8.
Proof. last_cases key. Qed.

(** ** Mixing is reversible *)

Definition in32 (x : Z) : Prop := 0 ≤ x < 2 ^ 32.

Record abc_ok (s : abc) : Prop := {
  ok_a : in32 (st_a s);
  ok_b : in32 (st_b s);
  ok_c : in32 (st_c s)
}.

(** One line of [mix], with the three variables named by their role in it
    and put in order for the next line. *)
Definition mix_line (s : abc) (k : Z) : abc :=
  let '(mkabc x y z) := s in
  mkabc y (u32 (z + y)) (Z.lxor (u32 (x - z)) (rot z k)).

Definition unmix_line (s : abc) (k : Z) : abc :=
  let '(mkabc y zy w) := s in
  let z := u32 (zy - y) in
  mkabc (u32 (Z.lxor w (rot z k) + z)) y z.

Definition mix_rotations : list Z := [4; 6; 8; 16; 19; 4].

Definition unmix (s : abc) : abc := foldl unmix_line s (reverse mix_rotations).

Lemma mix_lines s : mix s = foldl mix_line s mix_rotations.
Proof. by destruct s. Qed.

Lemma lxor_range x y : in32 x → in32 y → in32 (Z.lxor x y).
Proof.
  intros. apply testbit_range; [done|]. intros i Hi.
  by rewrite Z.lxor_spec, (range_testbit x 32), (range_testbit y 32).
Qed.

Lemma rot_range x k : in32 x → 0 ≤ k ≤ 32 → in32 (rot x k).
Proof.
  intros Hx Hk. apply lor_range; [done|apply u32_range|]. split.
  - by apply Z.shiftr_nonneg, Hx.
  - rewrite Z.shiftr_div_pow2 by lia. unfold in32 in Hx.
    pose proof (Z.div_le_upper_bound x (2 ^ (32 - k)) x). nia.
Qed.

Lemma mix_line_ok s k : abc_ok s → 0 ≤ k ≤ 32 → abc_ok (mix_line s k).
Proof.
  destruct s as [x y z]. intros [Hx Hy Hz] Hk; simpl in *. split; simpl; [done|apply u32_range|].
  apply lxor_range; [apply u32_range|by apply rot_range].
Qed.

Lemma unmix_line_ok s k : abc_ok s → abc_ok (unmix_line s k).
Proof.
  destruct s as [x y z]. intros [Hx Hy Hz]; simpl in *. split; simpl; [|done|]; apply u32_range.
Qed.

Lemma lxor_cancel x y : Z.lxor (Z.lxor x y) y = x.
Proof. by rewrite Z.lxor_assoc, Z.lxor_nilpotent, Z.lxor_0_r. Qed.

(** A value that is reduced already, from a sum that reduces to it. *)
Lemma u32_back x y : in32 y → eq32 x y → u32 x = y.
Proof. intros Hy E. rewrite <- (u32_id y) by done. exact E. Qed.

Lemma unmix_mix_line s k : abc_ok s → unmix_line (mix_line s k) k = s.
Proof.
  destruct s as [x y z]. intros [Hx Hy Hz]; simpl in *.
  assert (Ez : u32 (u32 (z + y) - y) = z).
  { apply u32_back; [done|]. rewrite eq32_u32. unfold eq32. f_equal. lia. }
  rewrite Ez, lxor_cancel. f_equal. apply u32_back; [done|].
  rewrite eq32_u32. unfold eq32. f_equal. lia.
Qed.

Lemma mix_unmix_line s k : abc_ok s → 0 ≤ k ≤ 32 → mix_line (unmix_line s k) k = s.
Proof.
  destruct s as [y zy w]. intros [Hy Hzy Hw] Hk; simpl in *. f_equal.
  - apply u32_back; [done|]. rewrite eq32_u32. unfold eq32. f_equal. lia.
  - set (z := u32 (zy - y)). assert (Hr : in32 (rot z k)) by (apply rot_range; [apply u32_range|lia]).
    replace (u32 (u32 (Z.lxor w (rot z k) + z) - z)) with (Z.lxor w (rot z k)).
    { apply lxor_cancel. }
    symmetry. apply u32_back; [by apply lxor_range|].
    rewrite eq32_u32. unfold eq32. f_equal. lia.
Qed.

Lemma rotations_ok : Forall (λ k, 0 ≤ k ≤ 32) mix_rotations.
Proof. unfold mix_rotations. repeat constructor; lia. Qed.

Lemma mix_fold_ok s l :
  Forall (λ k, 0 ≤ k ≤ 32) l → abc_ok s → abc_ok (foldl mix_line s l).
Proof.
  intros Hl. revert s. induction Hl as [|k l Hk _ IH]; intros s Hs; [done|].
  by apply IH, mix_line_ok.
Qed.

Lemma unmix_fold_ok s l : abc_ok s → abc_ok (foldl unmix_line s l).
Proof.
  revert s. induction l as [|k l IH]; intros s Hs; [done|]. by apply IH, unmix_line_ok.
Qed.

Lemma mix_ok s : abc_ok s → abc_ok (mix s).
Proof. intros. rewrite mix_lines. by apply mix_fold_ok; [apply rotations_ok|]. Qed.

Lemma unmix_mix_fold s l :
  Forall (λ k, 0 ≤ k ≤ 32) l → abc_ok s →
  foldl unmix_line (foldl mix_line s l) (reverse l) = s.
Proof.
  intros Hl. revert s. induction Hl as [|k l Hk _ IH]; intros s Hs; [done|].
  rewrite reverse_cons, foldl_app. simpl. rewrite IH by (by apply mix_line_ok).
  by apply unmix_mix_line.
Qed.

Lemma mix_unmix_fold s l :
  Forall (λ k, 0 ≤ k ≤ 32) l → abc_ok s →
  foldl mix_line (foldl unmix_line s (reverse l)) l = s.
Proof.
  intros Hl. revert s. induction Hl as [|k l Hk _ IH]; intros s Hs; [done|].
  rewrite reverse_cons, foldl_app. simpl.
  rewrite mix_unmix_line by (done || by apply unmix_fold_ok). by apply IH.
Qed.

(** ** The three ways to read a key *)

Lemma hash_loop_short block k n s : (n ≤ 12)%nat → hash_loop block k n s = (k, n, s).
Proof. intros. do 13 (destruct n as [|n]; [done|]). lia. Qed.

Lemma hash_loop_long block k n s :
  (12 < n)%nat → hash_loop block k n s = hash_loop block (drop 12 k) (n - 12) (block k s).
Proof.
  intros Hn. do 13 (destruct n as [|n]; [lia|]).
  change (S (S (S (S (S (S (S (S (S (S (S (S (S n)))))))))))) - 12)%nat with (S n). done.
Qed.

Lemma add_words_ok l s : abc_ok (add_words l s).
Proof. split; apply u32_range. Qed.

Lemma ref_blocks_short key : (length key ≤ 12)%nat → ref_blocks key = 0%nat.
Proof. intros. unfold ref_blocks. apply Nat.div_small. lia. Qed.

Lemma ref_blocks_long key :
  (12 < length key)%nat → ref_blocks key = S (ref_blocks (drop 12 key)).
Proof.
  intros. unfold ref_blocks. rewrite length_drop.
  replace (pred (length key)) with (1 * 12 + pred (length key - 12))%nat by lia.
  by rewrite Nat.div_add_l by lia.
Qed.

Lemma hash_loop_ref block last key t s :
  block_ok block → last_ok last → Forall is_byte key → abc_ok s →
  (let '(k, n, s) := hash_loop block (key ++ t) (length key) s in
   match last k n s with None => s | Some s => final s end)
  = ref_state (ref_blocks key) key s.
Proof.
  intros Hblock Hlast. remember (length key) as n eqn:En.
  revert key En s. induction (lt_wf n) as [n _ IH]. intros key -> s Hb Hs.
  destruct (decide (length key ≤ 12)%nat) as [Hle|Hgt].
  - rewrite hash_loop_short, ref_blocks_short by done. pose proof Hs as [Ha Hb' Hc].
    rewrite Hlast by done. by destruct key.
  - rewrite hash_loop_long, ref_blocks_long by lia. cbn [ref_state].
    assert (Ek : key ++ t = take 12 key ++ (drop 12 key ++ t))
      by (by rewrite app_assoc, take_drop).
    assert (Hl12 : length (take 12 key) = 12%nat) by (rewrite length_take; lia).
    replace (drop 12 (key ++ t)) with (drop 12 key ++ t) by (by rewrite drop_app_le by lia).
    rewrite Ek at 1. rewrite Hblock by (done || by apply Forall_take).
    rewrite <- length_drop. apply IH; [rewrite length_drop; lia|done|by apply Forall_drop|].
    apply mix_ok, add_words_ok.
Qed.

Lemma hashlittle_ref address key t s :
  Forall is_byte key → abc_ok s →
  hashlittle_state address (key ++ t) (length key) s = ref_state (ref_blocks key) key s.
Proof.
  intros Hb Hs. unfold hashlittle_state. destruct (Z.land address 3 =? 0).
  { rewrite <- (hash_loop_ref _ _ key t s block32_ok last32_ok Hb Hs).
    by destruct (hash_loop _ _ _ _) as [[k n] s']. }
  destruct (Z.land address 1 =? 0).
  - rewrite <- (hash_loop_ref _ _ key t s block16_ok last16_ok Hb Hs).
    by destruct (hash_loop _ _ _ _) as [[k n] s'].
  - rewrite <- (hash_loop_ref _ _ key t s block8_ok last8_ok Hb Hs).
    by destruct (hash_loop _ _ _ _) as [[k n] s'].
Qed.

(** ** Keys of words *)

(** The bytes of a key of words in memory. *)
Definition word_bytes (ws : list Z) : list Z := mjoin (Z_to_little_endian 4 8 <$> ws).

Lemma word_bytes_cons w ws : word_bytes (w :: ws) = Z_to_little_endian 4 8 w ++ word_bytes ws.
Proof. done. Qed.

Lemma word_length w : length (Z_to_little_endian 4 8 w) = 4%nat.
Proof. by rewrite length_le_bytes by lia. Qed.

Lemma length_word_bytes ws : length (word_bytes ws) = (4 * length ws)%nat.
Proof.
  induction ws as [|w ws IH]; [done|].
  rewrite word_bytes_cons, length_app, word_length, IH. simpl. lia.
Qed.

Lemma word_bytes_ok ws : Forall is_byte (word_bytes ws).
Proof.
  induction ws as [|w ws IH]; [constructor|]. rewrite word_bytes_cons.
  apply Forall_app_2; [|done]. by apply Z_to_little_endian_bound.
Qed.

Lemma le_word w : in32 w → le (Z_to_little_endian 4 8 w) = w.
Proof.
  intros. unfold le. rewrite little_endian_to_Z_to_little_endian by lia.
  by apply Z.mod_small.
Qed.

Lemma take_word w l : take 4 (Z_to_little_endian 4 8 w ++ l) = Z_to_little_endian 4 8 w.
Proof. apply take_app_length'. by rewrite word_length. Qed.

Lemma drop_word w l : drop 4 (Z_to_little_endian 4 8 w ++ l) = l.
Proof. apply drop_app_length'. by rewrite word_length. Qed.

Lemma drop_4_8 {A} (l : list A) : drop 8 l = drop 4 (drop 4 l).
Proof. by rewrite drop_drop. Qed.

Lemma drop_4_12 {A} (l : list A) : drop 12 l = drop 4 (drop 4 (drop 4 l)).
Proof. by rewrite !drop_drop. Qed.

Lemma add_words_3 w0 w1 w2 ws s :
  in32 w0 → in32 w1 → in32 w2 →
  add_words (take 12 (word_bytes (w0 :: w1 :: w2 :: ws))) s
  = add_c w2 (add_b w1 (add_a w0 s)).
Proof.
  intros H0 H1 H2. rewrite !word_bytes_cons.
  replace (take 12 _) with (Z_to_little_endian 4 8 w0 ++ Z_to_little_endian 4 8 w1 ++
    Z_to_little_endian 4 8 w2 ++ []).
  2: { rewrite app_nil_r, !app_assoc. symmetry. apply take_app_length'.
       by rewrite !length_app, !word_length. }
  apply abc_eq; autorewrite with abc; rewrite ?drop_4_8, ?drop_word, ?take_word, !le_word by done;
    done.
Qed.

(** A key of one to three words is one last block. *)
Lemma ref_few_words ws s :
  (1 ≤ length ws ≤ 3)%nat →
  ref_state (ref_blocks (word_bytes ws)) (word_bytes ws) s = final (add_words (word_bytes ws) s).
Proof.
  intros Hl. pose proof (length_word_bytes ws) as Hb.
  rewrite ref_blocks_short by lia. cbn [ref_state].
  by destruct (word_bytes ws); [simpl in Hb; lia|].
Qed.

(** The words of the last block; a component without a word is kept. *)
Ltac few_words :=
  rewrite !word_bytes_cons; apply abc_eq; autorewrite with abc;
  rewrite ?drop_4_8, ?drop_word, ?take_word, ?le_word by done;
  first [ done | symmetry; rewrite Z.add_0_r; by apply u32_id ].

Lemma hashword_ref ws s :
  Forall in32 ws → abc_ok s →
  (let '(rest, s) := hashword_loop ws s in hashword_last rest s)
  = ref_state (ref_blocks (word_bytes ws)) (word_bytes ws) s.
Proof.
  remember (length ws) as n eqn:En. revert ws En s.
  induction (lt_wf n) as [n _ IH]. intros ws -> s Hw Hs. pose proof Hs as [_ Hb Hc].
  destruct ws as [|w0 [|w1 [|w2 [|w3 ws]]]]; [done|..].
  1-3: repeat (apply Forall_cons in Hw as [? Hw]);
    rewrite ref_few_words by (simpl; lia); cbn [hashword_loop hashword_last];
    f_equal; few_words.
  apply Forall_cons in Hw as [H0 [H1 [H2 Hw]%Forall_cons]%Forall_cons].
  pose proof (length_word_bytes (w0 :: w1 :: w2 :: w3 :: ws)) as Hl.
  rewrite ref_blocks_long by (rewrite Hl; simpl; lia). cbn [ref_state].
  rewrite add_words_3, drop_4_12 by done.
  rewrite (word_bytes_cons w0), (word_bytes_cons w1), (word_bytes_cons w2), !drop_word.
  change (hashword_loop (w0 :: w1 :: w2 :: w3 :: ws) s) with
    (hashword_loop (w3 :: ws) (mix (add_c w2 (add_b w1 (add_a w0 s))))).
  apply (IH (length (w3 :: ws))); [simpl; lia|done|done|]. apply mix_ok.
  split; apply u32_range.
Qed.

Lemma init_ok x : abc_ok (mkabc (u32 x) (u32 x) (u32 x)).
Proof. split; apply u32_range. Qed.

Lemma word_init ws x :
  u32 (0xdeadbeef + u32 (Z.shiftl (Z.of_nat (length ws)) 2) + x)
  = u32 (0xdeadbeef + u32 (Z.of_nat (length (word_bytes ws))) + x).
Proof.
  rewrite length_word_bytes, Z.shiftl_mul_pow2 by lia. u32_sum. lia.
Qed.

(** ** Properties *)

Lemma hash_loop_empty block k n s k' s' :
  hash_loop block k n s = (k', 0%nat, s') → s' = s.
Proof.
  destruct (decide (n ≤ 12)%nat) as [Hn|Hn].
  - rewrite hash_loop_short by done. by intros [= -> -> ->].
  - intros H. exfalso. revert k s Hn H.
    induction (lt_wf n) as [n _ IH]; intros k s Hn H.
    rewrite hash_loop_long in H by lia.
    destruct (decide (n - 12 ≤ 12)%nat) as [Hs|].
    + rewrite hash_loop_short in H by done. simplify_eq. lia.
    + by apply (IH (n - 12)%nat) in H; [|lia..].
Qed.

Lemma last_none (last : list Z → nat → abc → option abc) k n s :
  last = last32 ∨ last = last16 ∨ last = last8 → last k n s = None → n = 0%nat.
Proof. intros [->|[->| ->]]; by do 13 (destruct n as [|n]; [done|]). Qed.

Lemma final_range s : in32 (st_c (final s)).
Proof. destruct s. apply u32_range. Qed.

Lemma hash_any_range address k n : 0 ≤ hash_any address k n < 2 ^ 32.
Proof.
  unfold hash_any, hashlittle, hashlittle_state. cbv zeta.
  repeat case_match; simplify_eq; try apply final_range;
    match goal with
    | H : _ = None |- _ => apply last_none in H; [|tauto]; subst
    end;
    match goal with
    | H : hash_loop _ _ _ _ = _ |- _ => apply hash_loop_empty in H; subst
    end; apply u32_range.
Qed.

(** C35. The hash of a key does not depend on where the key is in memory: at
    any two addresses, whatever their alignment and whatever bytes follow the
    key there, [hash_any] is the same, and it is the hash of the key cut into
    little endian words.  The word reads past the end of the key and the
    three ways to read a key make no difference. *)
Theorem hash_any_placement address address' key t t' :
  Forall is_byte key →
  hash_any address (key ++ t) (length key) = hash_any address' (key ++ t') (length key) ∧
  hash_any address (key ++ t) (length key) =
    let x := u32 (0xdeadbeef + Z.of_nat (length key) + 3923095) in
    st_c (ref_state (ref_blocks key) key (mkabc x x x)).
Proof.
  intros Hb. unfold hash_any, hashlittle. rewrite !hashlittle_ref by (done || apply init_ok).
  split; [done|]. cbv zeta. do 3 f_equal; u32_sum.
Qed.

(** The variants of the hash: hashing a key of words equals hashing its
    bytes at any address, the functions that return two values return that
    hash as the first when the second seed is zero.  The comment of
    [hash_uint32] claims as much of it, but its result for the key 0 is not
    that of [hash_any]. *)
Lemma hash_variants address ws key t initval :
  Forall in32 ws → Forall is_byte key →
  hashword ws initval
    = hashlittle address (word_bytes ws ++ t) (length (word_bytes ws)) initval ∧
  (hashword2 ws initval 0).1 = hashword ws initval ∧
  (hashlittle2 address (key ++ t) (length key) initval 0).1
    = hashlittle address (key ++ t) (length key) initval ∧
  hash_uint32 0 ≠ hash_any address ([0; 0; 0; 0] ++ t) 4.
Proof.
  intros Hw Hb.
  assert (Hz : ∀ x, add_c 0 (mkabc (u32 x) (u32 x) (u32 x)) = mkabc (u32 x) (u32 x) (u32 x)).
  { intros x. unfold add_c; simpl. rewrite Z.add_0_r. f_equal. apply u32_id, u32_range. }
  assert (Hh : ∀ x, st_c (let '(rest, s) := hashword_loop ws (mkabc (u32 x) (u32 x) (u32 x)) in
    hashword_last rest s) = (let '(rest, s) := hashword_loop ws (mkabc (u32 x) (u32 x) (u32 x)) in
    st_c (hashword_last rest s))) by (intros; by destruct (hashword_loop _ _)).
  split_and!.
  - unfold hashword, hashlittle. rewrite word_init. rewrite <- Hh.
    rewrite hashword_ref by (done || apply init_ok).
    by rewrite hashlittle_ref by (apply word_bytes_ok || apply init_ok).
  - unfold hashword2, hashword. rewrite Hz. by destruct (hashword_loop _ _).
  - unfold hashlittle2, hashlittle. by rewrite Hz.
  - unfold hash_any, hashlittle.
    assert (Forall is_byte [0; 0; 0; 0]) by (by repeat constructor).
    change 4%nat with (length [0; 0; 0; 0]).
    rewrite (hashlittle_ref address [0; 0; 0; 0] t) by (done || apply init_ok).
    by vm_compute.
Qed.

(** Mixing is reversible, as its comment says: on states of 32-bit
    values [mix] has an inverse on both sides, so no information of the state
    is lost. *)
Lemma mix_reversible s :
  abc_ok s → abc_ok (mix s) ∧ abc_ok (unmix s) ∧ unmix (mix s) = s ∧ mix (unmix s) = s.
Proof.
  intros Hs. split_and!.
  - by apply mix_ok.
  - by apply unmix_fold_ok.
  - rewrite mix_lines. by apply unmix_mix_fold; [apply rotations_ok|].
  - rewrite mix_lines. by apply mix_unmix_fold; [apply rotations_ok|].
Qed.

Lemma hash_any_placement_witness :
  hash_any 8 ([104; 97; 119; 113; 49] ++ [1; 2; 3]) 5
  = hash_any 7 ([104; 97; 119; 113; 49] ++ [9]) 5.
Proof.
  apply (hash_any_placement 8 7 [104; 97; 119; 113; 49] [1; 2; 3] [9]).
  by repeat constructor.
Defined.

