(* ===== verification/TableIface.v ===== *)
(** What a keyed table promises to its clients.

    The resource manager reaches its trackers through tables keyed by strings,
    arrays or integers (include/utils/hashtable.h).  A client sees a table as
    a finite map from the identity of a key, which is what the comparison
    function of the table distinguishes ([table_key_ok] restricts the keys a
    client may use), to the [void *] stored under it
    (an address, 0 being NULL).  [HashTable] implements the interface,
    [DeadLock] is proved against it. *)
From stdpp Require Import prelude gmap.
From S2P Require Import Prelude.

Definition FUNC_RETURN_OK : Z := 0.
Definition UTIL_HASHTABLE_NOKEY : Z := 1.

Class KeyedTable (T K C : Type) `{Countable C} := {
  table_ok : T → Prop;
  table_contents : T → gmap C Z;
  table_id : K → C;
  table_key_ok : K → Prop;

  table_get : T → K → option Z;
  table_set : T → K → Z → T;
  table_remove : T → K → T * Z;
  table_values : T → list Z;
  table_clear : T → T;

  table_get_ok t k :
    table_ok t → table_key_ok k → table_get t k = table_contents t !! table_id k;
  table_set_ok t k v :
    table_ok t → table_key_ok k →
    table_ok (table_set t k v) ∧
    table_contents (table_set t k v) = <[table_id k := v]> (table_contents t);
  table_remove_ok t k :
    table_ok t → table_key_ok k →
    table_ok (table_remove t k).1 ∧
    table_contents (table_remove t k).1 = delete (table_id k) (table_contents t) ∧
    (table_remove t k).2
      = (if table_contents t !! table_id k then FUNC_RETURN_OK else UTIL_HASHTABLE_NOKEY);
  table_values_ok t :
    table_ok t → table_values t ≡ₚ (map_to_list (table_contents t)).*2;
  table_clear_ok t :
    table_ok t → table_ok (table_clear t) ∧ table_contents (table_clear t) = ∅
}.
