(* ===== verification/HashTable.v ===== *)
(** The hash table of the resource manager
    (backend/resourcemanager/utils/hashtable.c, pair.c and
    include/utils/hashtable.h).

    A table is an array of slots, each a PostgreSQL [List] of pairs in
    insertion order, an empty one being NULL.  The hash, comparison and key
    copy functions a table is initialised with are those of its key type
    ([KeyOps], with the four key types as instances).  Values are addresses,
    0 being NULL.  Calls of the free functions are recorded in order. *)
From stdpp Require Import prelude numbers list gmap.
From S2P Require Import Prelude TableIface HashFunc.

(** ** Keys *)

(** The functions of [_HASHTABLEHashFunctions] and its three companions for
    one key type.  [key_isnull] is the test [pair->Key != NULL] negated. *)
Class KeyOps (K : Type) := {
  HashFunction : K → Z;
  CompFunction : K → K → Z;
  KeyCopyFunction : K → K;
  key_isnull : K → bool
}.

(** [void *] keys: both functions read the low 32 bits of the pointer. *)
Definition HASHTABLE_Hash_UINT32 (data : Z) : Z := u32 data.
Definition HASHTABLE_Hash_VOIDPT (data : Z) : Z := u32 data.
Definition HASHTABLE_Comp_UINT32 (val1 val2 : Z) : Z := u32 (u32 val1 - u32 val2).
Definition HASHTABLE_Comp_VOIDPT (val1 val2 : Z) : Z := u32 (u32 val1 - u32 val2).
Definition HASHTABLE_KeyCopy_UINT32 (key : Z) : Z := key.
Definition HASHTABLE_KeyCopy_VOIDPT (key : Z) : Z := key.

Definition UINT32_ops : KeyOps Z :=
  {| HashFunction := HASHTABLE_Hash_UINT32; CompFunction := HASHTABLE_Comp_UINT32;
     KeyCopyFunction := HASHTABLE_KeyCopy_UINT32; key_isnull k := k =? 0 |}.
Definition VOIDPT_ops : KeyOps Z :=
  {| HashFunction := HASHTABLE_Hash_VOIDPT; CompFunction := HASHTABLE_Comp_VOIDPT;
     KeyCopyFunction := HASHTABLE_KeyCopy_VOIDPT; key_isnull k := k =? 0 |}.

(** Array keys: the bytes, of length [Len].  They are hashed as if at an
    address that is a multiple of four: the result does not depend on it. *)
Definition SimpleArrayComp_loop : list Z → list Z → Z :=
  fix go a1 a2 :=
    match a1, a2 with
    | x :: a1, y :: a2 => let val := x - y in if negb (val =? 0) then val else go a1 a2
    | [], [] => 0
    | a1, a2 => Z.of_nat (length a1) - Z.of_nat (length a2)
    end.
Definition SimpleArrayComp (array1 array2 : list Z) : Z := SimpleArrayComp_loop array1 array2.

Definition HASHTABLE_Hash_CHARARRAY (data : list Z) : Z := hash_any 0 data (length data).
Definition HASHTABLE_Comp_CHARARRAY (val1 val2 : list Z) : Z := u32 (SimpleArrayComp val1 val2).
Definition HASHTABLE_KeyCopy_CHARARRAY (key : list Z) : list Z := key.

Definition CHARARRAY_ops : KeyOps (list Z) :=
  {| HashFunction := HASHTABLE_Hash_CHARARRAY;
     CompFunction := HASHTABLE_Comp_CHARARRAY;
     KeyCopyFunction := HASHTABLE_KeyCopy_CHARARRAY; key_isnull _ := false |}.

(** String keys: the bytes before the terminating NUL, [Len] their number.
    [strcmp] and [string_hash] (utils/hash/hashfn.c) see the NUL. *)
Fixpoint strcmp (s1 s2 : list Z) : Z :=
  match s1, s2 with
  | x :: s1, y :: s2 => if x =? y then strcmp s1 s2 else x - y
  | x :: _, [] => x
  | [], y :: _ => - y
  | [], [] => 0
  end.

Definition string_hash (key : list Z) (keysize : Z) : Z :=
  let s_len := Z.of_nat (length key) in
  let s_len := Z.min s_len ((keysize - 1) mod 2 ^ 64) in
  hash_any 0 key (Z.to_nat s_len).

Definition HASHTABLE_Hash_SIMPSTR (data : list Z) : Z :=
  string_hash data (Z.of_nat (length data)).
Definition HASHTABLE_Comp_SIMPSTR (val1 val2 : list Z) : Z := u32 (strcmp val1 val2).
Definition HASHTABLE_KeyCopy_SIMPSTR (key : list Z) : list Z := key.

Definition SIMPSTR_ops : KeyOps (list Z) :=
  {| HashFunction := HASHTABLE_Hash_SIMPSTR;
     CompFunction := HASHTABLE_Comp_SIMPSTR;
     KeyCopyFunction := HASHTABLE_KeyCopy_SIMPSTR; key_isnull _ := false |}.

(** ** The table *)

Record PAIR (K : Type) := mkPAIR { Key : K; Value : Z }.
Arguments mkPAIR {K} Key Value.
Arguments Key {K} p.
Arguments Value {K} p.

(** Calls of the free functions of a table. *)
Inductive free_call (K : Type) :=
  | KeyFree (k : K)
  | ValFree (v : Z).
Arguments KeyFree {K} k.
Arguments ValFree {K} v.

Record HASHTABLE (K : Type) := mkHASHTABLE {
  ValFreeFunction : bool;      (** the table has one *)
  Slots : list (list (PAIR K));
  NodeCount : Z;
  SlotCount : Z;
  SlotVolume : Z;
  SlotVolumeMax : Z
}.
Arguments mkHASHTABLE {K} ValFreeFunction Slots NodeCount SlotCount SlotVolume SlotVolumeMax.
Arguments ValFreeFunction {K} h.
Arguments Slots {K} h.
Arguments NodeCount {K} h.
Arguments SlotCount {K} h.
Arguments SlotVolume {K} h.
Arguments SlotVolumeMax {K} h.

(** [table->SlotExtendBar = 0.5], as a fraction. *)
Definition SlotExtendBar_num : Z := 1.
Definition SlotExtendBar_den : Z := 2.

Definition HASHTABLE_SLOT_VOLUME_DEFAULT : Z := 256.
Definition HASHTABLE_SLOT_VOLUME_DEFAULT_MAX : Z := 1024 * 1024 * 1024.

Section HashTable.
Context {K : Type} `{!KeyOps K}.
Implicit Types (t : HASHTABLE K) (p : PAIR K) (k : K).

Definition initializeHASHTABLE (vol maxvol : Z) (valfree : bool) : HASHTABLE K :=
  mkHASHTABLE valfree (replicate (Z.to_nat vol) []) 0 0 vol maxvol.

Definition createHASHTABLE (vol maxvol : Z) (valfree : bool) : HASHTABLE K :=
  initializeHASHTABLE vol maxvol valfree.

Definition slot_of t k : nat := Z.to_nat (HashFunction k mod SlotVolume t).

(** One pair moved to its slot of the new array. *)
Definition extend_pair (newsize : Z) (acc : list (list (PAIR K)) * Z) (p : PAIR K)
    : list (list (PAIR K)) * Z :=
  let newindex := Z.to_nat (HashFunction (Key p) mod newsize) in
  let cells := acc.1 !!! newindex in
  (<[newindex := cells ++ [p]]> acc.1,
   if decide (cells = []) then u32 (acc.2 + 1) else acc.2).

Definition extendHASHTABLESlotSize t (newsize : Z) : HASHTABLE K :=
  if u32 newsize <=? SlotVolume t then t
  else
    let '(newslot, slotcount) :=
      foldl (λ acc cells, foldl (extend_pair newsize) acc cells)
        (replicate (Z.to_nat newsize) [], 0) (Slots t) in
    mkHASHTABLE (ValFreeFunction t) newslot (NodeCount t) slotcount newsize (SlotVolumeMax t).

(** The integer quotient of the slot counts against the bar. *)
Definition should_extend t : bool :=
  (SlotExtendBar_num <? SlotExtendBar_den * (SlotCount t / SlotVolume t))
  && (SlotVolume t <? SlotVolumeMax t).

(** The replaced value, freed or returned.  [None]: the value free function is
    called, and the table has none. *)
Definition free_old t (res : Z) (freeOld : bool) : option (HASHTABLE K * Z * list (free_call K)) :=
  if negb (res =? 0) && freeOld
  then if ValFreeFunction t then Some (t, 0, [ValFree res]) else None
  else Some (t, res, []).

Definition setHASHTABLENode t (key : K) (value : Z) (freeOld : bool)
    : option (HASHTABLE K * Z * list (free_call K)) :=
  let slot := slot_of t key in
  let cells := Slots t !!! slot in
  let slotcount := if decide (cells = []) then u32 (SlotCount t + 1) else SlotCount t in
  let '(t1, res) :=
    match list_find (λ p, CompFunction key (Key p) = 0) cells with
    | None =>
      (mkHASHTABLE (ValFreeFunction t)
         (<[slot := cells ++ [mkPAIR (KeyCopyFunction key) value]]> (Slots t))
         (u32 (NodeCount t + 1)) slotcount (SlotVolume t) (SlotVolumeMax t), 0)
    | Some (i, p) =>
      (mkHASHTABLE (ValFreeFunction t)
         (<[slot := <[i := mkPAIR (Key p) value]> cells]> (Slots t))
         (NodeCount t) slotcount (SlotVolume t) (SlotVolumeMax t), Value p)
    end in
  let t2 :=
    if should_extend t1
    then extendHASHTABLESlotSize t1
           (if SlotVolumeMax t1 <? u32 (SlotVolume t1 * 2)
            then SlotVolumeMax t1 else u32 (SlotVolume t1 * 2))
    else t1 in
  free_old t2 res freeOld.

Definition getHASHTABLENode t (key : K) : option (PAIR K) :=
  snd <$> list_find (λ p, CompFunction (Key p) key = 0) (Slots t !!! slot_of t key).

(** Free calls for one pair. *)
Definition free_pair t p : list (free_call K) :=
  (if key_isnull (Key p) then [] else [KeyFree (Key p)]) ++
  (if ValFreeFunction t then [ValFree (Value p)] else []).

Definition removeHASHTABLENode t (key : K) : HASHTABLE K * Z * list (free_call K) :=
  let slot := slot_of t key in
  let cells := Slots t !!! slot in
  if decide (cells = []) then (t, UTIL_HASHTABLE_NOKEY, [])
  else
    match list_find (λ p, CompFunction (Key p) key = 0) cells with
    | Some (i, p) =>
      let cells := delete i cells in
      (mkHASHTABLE (ValFreeFunction t) (<[slot := cells]> (Slots t))
         (u32 (NodeCount t - 1))
         (if decide (cells = []) then u32 (SlotCount t - 1) else SlotCount t)
         (SlotVolume t) (SlotVolumeMax t), FUNC_RETURN_OK, free_pair t p)
    | None => (t, UTIL_HASHTABLE_NOKEY, [])
    end.

Definition clearHASHTABLE t : HASHTABLE K * list (free_call K) :=
  (mkHASHTABLE (ValFreeFunction t) ((λ _, []) <$> Slots t) 0 0 (SlotVolume t)
     (SlotVolumeMax t),
   mjoin ((λ cells, mjoin (free_pair t <$> cells)) <$> Slots t)).

(** The slot array itself is freed: [Slots = NULL]. *)
Definition cleanHASHTABLE t : HASHTABLE K * list (free_call K) :=
  let (t', calls) := clearHASHTABLE t in
  (mkHASHTABLE (ValFreeFunction t') [] (NodeCount t') (SlotCount t') (SlotVolume t')
     (SlotVolumeMax t'), calls).

Definition freeHASHTABLE t : list (free_call K) := (cleanHASHTABLE t).2.

Definition getHASHTABLESize t : Z := NodeCount t.
Definition getHASHTABLEVolume t : Z := SlotVolume t.

Definition getAllPAIRRefIntoList t (l : list (PAIR K)) : list (PAIR K) :=
  foldl (λ l cells, foldl (λ l p, l ++ [p]) l cells) l (Slots t).
End HashTable.

(** ** Laws of keys

    The comparison function tells keys apart by their identity [key_id],
    keys of one identity have one hash value, and a copied key keeps its
    identity.  [key_ok] holds of the keys the functions are meant for. *)
Class KeyLaws (K C : Type) `{Countable C} `{!KeyOps K} := {
  key_id : K → C;
  key_ok : K → Prop;
  comp_key_id a b : key_ok a → key_ok b → CompFunction a b = 0 ↔ key_id a = key_id b;
  hash_key_id a b : key_ok a → key_ok b → key_id a = key_id b →
    HashFunction a = HashFunction b;
  hash_range a : 0 ≤ HashFunction a < 2 ^ 32;
  copy_key_id a : key_ok a → key_id (KeyCopyFunction a) = key_id a;
  copy_key_ok a : key_ok a → key_ok (KeyCopyFunction a)
}.

Lemma u32_sub_0 a b : u32 (u32 a - u32 b) = 0 ↔ u32 a = u32 b.
Proof.
  pose proof (u32_range a). pose proof (u32_range b).
  split; [|intros ->; by rewrite Z.sub_diag].
  generalize dependent (u32 a). generalize dependent (u32 b). unfold u32. intros. divlia.
Qed.

(** Integer and pointer keys are told apart by their low 32 bits. *)
Definition UINT32_laws : @KeyLaws Z Z _ _ UINT32_ops.
Proof.
  refine {| key_id := u32; key_ok _ := True |}; intros; simpl;
    [apply u32_sub_0|done|apply u32_range|done|done].
Defined.

Definition VOIDPT_laws : @KeyLaws Z Z _ _ VOIDPT_ops.
Proof.
  refine {| key_id := u32; key_ok _ := True |}; intros; simpl;
    [apply u32_sub_0|done|apply u32_range|done|done].
Defined.

Lemma byte_sub_0 x y : is_byte x → is_byte y → u32 (x - y) = 0 ↔ x = y.
Proof.
  unfold is_byte. intros. unfold u32. split; [intros; divlia|intros ->].
  by rewrite Z.sub_diag.
Qed.

Lemma SimpleArrayComp_0 a b :
  Forall is_byte a → Forall is_byte b →
  Z.of_nat (length a) < 2 ^ 31 → Z.of_nat (length b) < 2 ^ 31 →
  u32 (SimpleArrayComp a b) = 0 ↔ a = b.
Proof.
  unfold SimpleArrayComp. intros Ha. revert b.
  induction Ha as [|x a Hx Ha IH]; intros b Hb Hla Hlb; destruct Hb as [|y b Hy Hb];
    simpl length in *.
  - done.
  - split; [|done]. simpl. unfold u32. intros. divlia.
  - split; [|done]. simpl. unfold u32. intros. divlia.
  - cbn [SimpleArrayComp_loop]. destruct (Z.eqb_spec (x - y) 0) as [E|E]; cbn [negb].
    + rewrite IH by (done || lia). assert (x = y) as -> by lia. split; congruence.
    + rewrite byte_sub_0 by done. split; [lia|congruence].
Qed.

Lemma strcmp_0 a b :
  Forall (λ x, 0 < x < 256) a → Forall (λ x, 0 < x < 256) b → u32 (strcmp a b) = 0 ↔ a = b.
Proof.
  intros Ha. revert b. induction Ha as [|x a Hx Ha IH]; intros b Hb; destruct Hb as [|y b Hy Hb].
  - done.
  - split; [|done]. simpl. unfold u32. intros. divlia.
  - split; [|done]. simpl. unfold u32. intros. divlia.
  - cbn [strcmp]. destruct (Z.eqb_spec x y) as [->|E].
    + rewrite IH by done. split; congruence.
    + rewrite byte_sub_0 by (unfold is_byte; lia). split; congruence.
Qed.

Definition CHARARRAY_laws : @KeyLaws (list Z) (list Z) _ _ CHARARRAY_ops.
Proof.
  refine {| key_id (k : list Z) := k;
            key_ok k := Forall is_byte k ∧ Z.of_nat (length k) < 2 ^ 31 |};
    simpl; [|naive_solver|intros; apply hash_any_range|done|done].
  intros a b [] []. by apply SimpleArrayComp_0.
Defined.

Definition SIMPSTR_laws : @KeyLaws (list Z) (list Z) _ _ SIMPSTR_ops.
Proof.
  refine {| key_id (k : list Z) := k; key_ok k := Forall (λ x, 0 < x < 256) k |};
    simpl; [|naive_solver|intros; apply hash_any_range|done|done].
  intros a b. apply strcmp_0.
Defined.

(** ** Invariant and contents *)

Section Correct.
Context {K C : Type} `{Countable C} `{!KeyOps K} `{!KeyLaws K C}.
Implicit Types (t : HASHTABLE K) (p : PAIR K) (k : K) (l cells : list (PAIR K)).

Definition pairs t : list (PAIR K) := mjoin (Slots t).
Definition pair_id p : C := key_id (Key p).
Definition to_map l : gmap C Z := list_to_map ((λ p, (pair_id p, Value p)) <$> l).
Definition contents t : gmap C Z := to_map (pairs t).

(** The number of slots in use. *)
Definition used (slots : list (list (PAIR K))) : nat :=
  length (filter (λ cells, cells ≠ []) slots).

Definition place (vol : Z) k : nat := Z.to_nat (HashFunction k mod vol).

Record ht_wf t : Prop := {
  wf_vol : 0 < SlotVolume t < 2 ^ 31;
  wf_volmax : SlotVolumeMax t < 2 ^ 31;
  wf_len : length (Slots t) = Z.to_nat (SlotVolume t);
  wf_slotcount : SlotCount t = Z.of_nat (used (Slots t));
  wf_nodecount : NodeCount t = u32 (Z.of_nat (length (pairs t)));
  wf_place i cells p :
    Slots t !! i = Some cells → p ∈ cells → place (SlotVolume t) (Key p) = i;
  wf_keys : Forall (λ p, key_ok (Key p)) (pairs t);
  wf_nodup : NoDup (pair_id <$> pairs t)
}.

Lemma slot_ids l : ((λ p, (pair_id p, Value p)) <$> l).*1 = pair_id <$> l.
Proof. by rewrite <- list_fmap_compose. Qed.

Lemma to_map_perm l l' : NoDup (pair_id <$> l) → l ≡ₚ l' → to_map l = to_map l'.
Proof.
  intros Hn Hp. unfold to_map. apply list_to_map_proper; [by rewrite slot_ids|].
  by rewrite Hp.
Qed.

Lemma to_map_lookup l p :
  NoDup (pair_id <$> l) → p ∈ l → to_map l !! pair_id p = Some (Value p).
Proof.
  intros Hn Hp. apply elem_of_list_to_map_1; [by rewrite slot_ids|].
  apply list_elem_of_fmap. by exists p.
Qed.

Lemma to_map_None l c : c ∉ pair_id <$> l → to_map l !! c = None.
Proof. intros Hc. apply not_elem_of_list_to_map_1. by rewrite slot_ids. Qed.

Lemma place_lt t k : ht_wf t → (place (SlotVolume t) k < length (Slots t))%nat.
Proof.
  intros Hwf. pose proof (wf_vol t Hwf). rewrite (wf_len t Hwf). unfold place.
  pose proof (Z.mod_pos_bound (HashFunction k) (SlotVolume t)). lia.
Qed.

Lemma slot_cells t k :
  ht_wf t → Slots t !! slot_of t k = Some (Slots t !!! slot_of t k).
Proof. intros Hwf. apply list_lookup_lookup_total_lt. by apply place_lt. Qed.

Lemma place_id vol a b :
  key_ok a → key_ok b → key_id a = key_id b → place vol a = place vol b.
Proof. intros Ha Hb E. unfold place. by rewrite (hash_key_id a b). Qed.

(** The pairs of one slot, and of the others. *)
Definition others t i : list (PAIR K) := mjoin (delete i (Slots t)).

Lemma pairs_split t i cells : Slots t !! i = Some cells → pairs t ≡ₚ cells ++ others t i.
Proof.
  intros Hi. unfold pairs, others. change (cells ++ mjoin ?ls) with (mjoin (cells :: ls)).
  by apply join_Permutation, delete_Permutation.
Qed.

Lemma others_elem t i p : p ∈ others t i → ∃ j cells, j ≠ i ∧ Slots t !! j = Some cells ∧ p ∈ cells.
Proof.
  intros (cells & Hp & Hc)%list_elem_of_join.
  apply list_elem_of_lookup in Hc as [j Hj]. destruct (decide (j < i)%nat).
  - rewrite list_lookup_delete_lt in Hj by done. exists j, cells. split; [lia|done].
  - rewrite list_lookup_delete_ge in Hj by lia. exists (S j), cells. split; [lia|done].
Qed.

Lemma key_ok_elem t p : ht_wf t → p ∈ pairs t → key_ok (Key p).
Proof.
  intros Hwf Hp. pose proof (wf_keys t Hwf) as Hk. rewrite Forall_forall in Hk. by apply Hk.
Qed.

Lemma others_not_id t k :
  ht_wf t → key_ok k → key_id k ∉ pair_id <$> others t (slot_of t k).
Proof.
  intros Hwf Hk (p & Hid & Hp)%list_elem_of_fmap.
  apply others_elem in Hp as (j & cells & Hj & Hl & Hp). apply Hj.
  rewrite <- (wf_place t Hwf j cells p) by done. apply place_id; [|done..].
  apply (key_ok_elem t); [done|]. apply list_elem_of_join. exists cells.
  split; [done|]. by eapply list_elem_of_lookup_2.
Qed.

(** ** The search of a slot *)

Definition find t k : option (nat * PAIR K) :=
  list_find (λ p, pair_id p = key_id k) (Slots t !!! slot_of t k).

Lemma find_key_first t k :
  ht_wf t → key_ok k →
  list_find (λ p, CompFunction k (Key p) = 0) (Slots t !!! slot_of t k) = find t k.
Proof.
  intros Hwf Hk. apply list_find_ext_elem. intros p Hp.
  unfold pair_id. rewrite comp_key_id; [done|done|].
  apply (key_ok_elem t); [done|]. apply list_elem_of_join. eexists. split; [exact Hp|].
  eapply list_elem_of_lookup_2, slot_cells; done.
Qed.

Lemma find_key_last t k :
  ht_wf t → key_ok k →
  list_find (λ p, CompFunction (Key p) k = 0) (Slots t !!! slot_of t k) = find t k.
Proof.
  intros Hwf Hk. apply list_find_ext_elem. intros p Hp.
  unfold pair_id. rewrite comp_key_id; [done| |done].
  apply (key_ok_elem t); [done|]. apply list_elem_of_join. eexists. split; [exact Hp|].
  eapply list_elem_of_lookup_2, slot_cells; done.
Qed.

Lemma find_Some t k i p :
  find t k = Some (i, p) → (Slots t !!! slot_of t k) !! i = Some p ∧ pair_id p = key_id k.
Proof. intros (? & ? & _)%list_find_Some. done. Qed.

Lemma find_None t k :
  ht_wf t → key_ok k → find t k = None → key_id k ∉ pair_id <$> pairs t.
Proof.
  intros Hwf Hk Hf. unfold pairs. rewrite (pairs_split t _ _ (slot_cells t k Hwf)).
  rewrite fmap_app, not_elem_of_app. split; [|by apply others_not_id].
  intros (p & Hid & Hp)%list_elem_of_fmap.
  apply list_find_None in Hf. rewrite Forall_forall in Hf. by apply (Hf p).
Qed.

Lemma find_contents t k :
  ht_wf t → key_ok k → contents t !! key_id k = Value ∘ snd <$> find t k.
Proof.
  intros Hwf Hk. destruct (find t k) as [[i p]|] eqn:E.
  - apply find_Some in E as [Hp Hid]. simpl. rewrite <- Hid.
    apply to_map_lookup; [apply Hwf|].
    rewrite (pairs_split t _ _ (slot_cells t k Hwf)). apply elem_of_app. left.
    by eapply list_elem_of_lookup_2.
  - apply to_map_None. by apply find_None.
Qed.

(** ** Replacing the cells of one slot *)

Lemma used_update slots i cells cells' :
  slots !! i = Some cells →
  (used (<[i:=cells']> slots) + (if decide (cells = []) then 0 else 1)
   = used slots + (if decide (cells' = []) then 0 else 1))%nat.
Proof.
  intros Hi. unfold used. pose proof (lookup_lt_Some _ _ _ Hi).
  rewrite insert_delete_perm by done. rewrite (delete_Permutation slots i cells) at 2 by done.
  rewrite !filter_cons. repeat case_decide; simpl; try done; lia || tauto.
Qed.

Lemma used_le slots : (used slots ≤ length slots)%nat.
Proof. apply length_filter. Qed.

Lemma wf_update t i cells cells' vf :
  ht_wf t → Slots t !! i = Some cells →
  (∀ p, p ∈ cells' → place (SlotVolume t) (Key p) = i ∧ key_ok (Key p)) →
  NoDup (pair_id <$> (cells' ++ others t i)) →
  ht_wf (mkHASHTABLE vf (<[i:=cells']> (Slots t))
           (u32 (Z.of_nat (length (cells' ++ others t i))))
           (Z.of_nat (used (<[i:=cells']> (Slots t)))) (SlotVolume t) (SlotVolumeMax t)) ∧
  mjoin (<[i:=cells']> (Slots t)) ≡ₚ cells' ++ others t i.
Proof.
  intros Hwf Hi Hc Hn. pose proof (lookup_lt_Some _ _ _ Hi) as Hlt.
  assert (Hp : mjoin (<[i:=cells']> (Slots t)) ≡ₚ cells' ++ others t i).
  { unfold others. change (cells' ++ mjoin ?ls) with (mjoin (cells' :: ls)).
    by apply join_Permutation, insert_delete_perm. }
  pose proof (pairs_split t i cells Hi) as Hs.
  split; [|done]. destruct Hwf as [W1 W2 W3 W4 W5 W6 W7 W8].
  constructor; cbn [Slots NodeCount SlotCount SlotVolume SlotVolumeMax]; try done.
  - by rewrite length_insert.
  - unfold pairs. cbn [Slots]. by rewrite Hp.
  - intros j cells0 p Hj Hp0. destruct (decide (j = i)) as [->|Hne].
    + rewrite list_lookup_insert_eq in Hj by done. simplify_eq. by apply Hc.
    + rewrite list_lookup_insert_ne in Hj by done. by eapply W6.
  - unfold pairs. cbn [Slots]. rewrite Hp. apply Forall_app. split.
    + apply Forall_forall. intros p Hp0. by apply Hc.
    + rewrite Hs in W7. by apply Forall_app in W7 as [_ ?].
  - unfold pairs. cbn [Slots]. by rewrite Hp.
Qed.

Lemma cells_place t i cells p :
  ht_wf t → Slots t !! i = Some cells → p ∈ cells →
  place (SlotVolume t) (Key p) = i ∧ key_ok (Key p).
Proof.
  intros Hwf Hi Hp. split; [by eapply wf_place|]. apply (key_ok_elem t); [done|].
  apply list_elem_of_join. exists cells. split; [done|]. by eapply list_elem_of_lookup_2.
Qed.

(** ** Growing the array *)

Lemma foldl_join {A B} (f : B → A → B) (b : B) (ls : list (list A)) :
  foldl (λ acc (l0 : list A), foldl f acc l0) b ls = foldl f b (mjoin ls).
Proof.
  revert b. induction ls as [|l0 ls IH]; intros b; [done|]. simpl. by rewrite foldl_app, IH.
Qed.

Lemma extend_loop newsize slots c l :
  0 < newsize < 2 ^ 31 → length slots = Z.to_nat newsize → c = Z.of_nat (used slots) →
  (∀ i cells p, slots !! i = Some cells → p ∈ cells → place newsize (Key p) = i) →
  ∃ slots', foldl (extend_pair newsize) (slots, c) l = (slots', Z.of_nat (used slots')) ∧
    length slots' = Z.to_nat newsize ∧
    (∀ i cells p, slots' !! i = Some cells → p ∈ cells → place newsize (Key p) = i) ∧
    mjoin slots' ≡ₚ mjoin slots ++ l.
Proof.
  intros Hn. revert slots c. induction l as [|p l IH]; intros slots c Hlen -> Hpl.
  - exists slots. rewrite app_nil_r. done.
  - cbn [foldl]. unfold extend_pair at 2. cbn [fst snd]. fold (place newsize (Key p)).
    set (i := place newsize (Key p)).
    assert (Hi : (i < length slots)%nat).
    { unfold i, place. pose proof (Z.mod_pos_bound (HashFunction (Key p)) newsize). lia. }
    pose proof (list_lookup_lookup_total_lt _ _ Hi) as Hcells.
    set (cells := slots !!! i) in *.
    pose proof (used_update slots i cells (cells ++ [p]) Hcells) as Hu.
    rewrite (decide_False (P := cells ++ [p] = [])) in Hu by (by destruct cells).
    pose proof (used_le (<[i:=cells ++ [p]]> slots)) as Hul. rewrite length_insert in Hul.
    destruct (IH (<[i:=cells ++ [p]]> slots)
      (if decide (cells = []) then u32 (Z.of_nat (used slots) + 1)
       else Z.of_nat (used slots))) as (slots' & E & L & P & J).
    + by rewrite length_insert.
    + case_decide; [rewrite u32_id by lia; lia|lia].
    + intros j cells0 p0 Hj Hp0. destruct (decide (j = i)) as [->|Hne].
      * rewrite list_lookup_insert_eq in Hj by done. simplify_eq.
        apply elem_of_app in Hp0 as [Hp0| ->%list_elem_of_singleton]; [by eapply Hpl|done].
      * rewrite list_lookup_insert_ne in Hj by done. by eapply Hpl.
    + exists slots'. split; [done|]. split; [done|]. split; [done|]. rewrite J.
      rewrite (join_Permutation _ _ (insert_delete_perm slots i (cells ++ [p]) Hi)).
      rewrite (join_Permutation _ _ (delete_Permutation slots i cells Hcells)).
      simpl. rewrite <- !(assoc_L (++)). f_equiv. simpl. by rewrite Permutation_middle.
Qed.

Lemma mjoin_replicate_nil {A} n : mjoin (replicate n (@nil A)) = [].
Proof. by induction n. Qed.

Lemma used_replicate_nil n : used (replicate n []) = 0%nat.
Proof. unfold used. induction n; simpl; [done|]. by rewrite filter_cons, decide_False by tauto. Qed.

Lemma extend_ok t newsize :
  ht_wf t → 0 ≤ newsize < 2 ^ 31 →
  ht_wf (extendHASHTABLESlotSize t newsize) ∧
  contents (extendHASHTABLESlotSize t newsize) = contents t ∧
  SlotVolume (extendHASHTABLESlotSize t newsize) = Z.max newsize (SlotVolume t).
Proof.
  intros Hwf Hn. unfold extendHASHTABLESlotSize. rewrite u32_id by lia.
  pose proof (wf_vol t Hwf) as Hv.
  destruct (Z.leb_spec newsize (SlotVolume t)); [split_and!; done || lia|].
  rewrite foldl_join. fold (pairs t).
  destruct (extend_loop newsize (replicate (Z.to_nat newsize) []) 0 (pairs t))
    as (slots' & -> & L & P & J); [lia|by rewrite length_replicate|by rewrite used_replicate_nil| |].
  { intros i cells p Hi Hp. apply lookup_replicate in Hi as [-> _]. by apply elem_of_nil in Hp. }
  rewrite mjoin_replicate_nil in J. simpl in J.
  destruct Hwf as [W1 W2 W3 W4 W5 W6 W7 W8]. split; [|split].
  - constructor; cbn [Slots NodeCount SlotCount SlotVolume SlotVolumeMax]; unfold pairs in *;
      cbn [Slots]; rewrite ?J; done || lia.
  - symmetry. by apply to_map_perm.
  - cbn [SlotVolume]. lia.
Qed.

(** The table after the update of a pair. *)
Lemma update_ok t k v i p :
  ht_wf t → key_ok k → find t k = Some (i, p) →
  let cells := Slots t !!! slot_of t k in
  let t' := mkHASHTABLE (ValFreeFunction t)
    (<[slot_of t k := <[i := mkPAIR (Key p) v]> cells]> (Slots t))
    (NodeCount t)
    (if decide (cells = []) then u32 (SlotCount t + 1) else SlotCount t)
    (SlotVolume t) (SlotVolumeMax t) in
  ht_wf t' ∧ contents t' = <[key_id k := v]> (contents t).
Proof.
  intros Hwf Hk [Hi Hid]%find_Some cells. fold cells in Hi.
  pose proof (slot_cells t k Hwf) as Hc. fold cells in Hc.
  pose proof (pairs_split t _ _ Hc) as Hs. pose proof (wf_nodup t Hwf) as Hnd.
  pose proof (lookup_lt_Some _ _ _ Hi) as Hlt. set (p' := mkPAIR (Key p) v).
  assert (Hids : pair_id <$> <[i:=p']> cells = pair_id <$> cells).
  { rewrite list_fmap_insert. apply list_insert_id. by rewrite list_lookup_fmap, Hi. }
  assert (Hnil : ∀ l, length l = length cells → l ≠ []) by (intros []; simpl; lia || done).
  rewrite decide_False by (by apply Hnil).
  destruct (wf_update t (slot_of t k) cells (<[i:=p']> cells) (ValFreeFunction t)) as [W J];
    [done|done| | |].
  { intros q [j Hq]%list_elem_of_lookup. rewrite insert_lookup_dec in Hq by done.
    case_decide; simplify_eq; [|by eapply cells_place, list_elem_of_lookup_2].
    by apply (cells_place t _ cells p); [..|eapply list_elem_of_lookup_2]. }
  { rewrite fmap_app, Hids, <- fmap_app, <- Hs. done. }
  rewrite length_app, length_insert, <- length_app, <- Hs, <- (wf_nodecount t Hwf) in W.
  pose proof (used_update (Slots t) _ cells (<[i:=p']> cells) Hc) as Hu.
  rewrite !decide_False in Hu by (apply Hnil; by rewrite ?length_insert).
  replace (used (<[slot_of t k:=<[i:=p']> cells]> (Slots t))) with (used (Slots t)) in W by lia.
  rewrite <- (wf_slotcount t Hwf) in W. split; [exact W|].
  unfold contents at 1, pairs. cbn [Slots]. pose proof (wf_nodup _ W) as HndW.
  unfold pairs in HndW. cbn [Slots] in HndW.
  rewrite (to_map_perm _ (p' :: delete i cells ++ others t (slot_of t k)) HndW).
  2:{ rewrite J. by rewrite insert_delete_perm. }
  unfold contents. rewrite (to_map_perm _ (p :: delete i cells ++ others t (slot_of t k)) Hnd).
  2:{ rewrite Hs. by rewrite (delete_Permutation cells i p Hi) at 1. }
  unfold to_map. cbn [fmap list_fmap list_to_map foldr].
  change (pair_id p') with (pair_id p). rewrite !Hid. by rewrite insert_insert_eq.
Qed.

(** The table after the insertion of a new pair. *)
Lemma append_ok t k v :
  ht_wf t → key_ok k → find t k = None →
  let cells := Slots t !!! slot_of t k in
  let t' := mkHASHTABLE (ValFreeFunction t)
    (<[slot_of t k := cells ++ [mkPAIR (KeyCopyFunction k) v]]> (Slots t))
    (u32 (NodeCount t + 1))
    (if decide (cells = []) then u32 (SlotCount t + 1) else SlotCount t)
    (SlotVolume t) (SlotVolumeMax t) in
  ht_wf t' ∧ contents t' = <[key_id k := v]> (contents t).
Proof.
  intros Hwf Hk Hf cells. pose proof (find_None t k Hwf Hk Hf) as Hnin.
  pose proof (slot_cells t k Hwf) as Hc. fold cells in Hc.
  pose proof (pairs_split t _ _ Hc) as Hs. pose proof (wf_nodup t Hwf) as Hnd.
  set (p := mkPAIR (KeyCopyFunction k) v).
  assert (Hid : pair_id p = key_id k) by (by apply copy_key_id).
  assert (Hperm : (cells ++ [p]) ++ others t (slot_of t k) ≡ₚ p :: pairs t).
  { rewrite Hs, <- (assoc_L (++)). simpl. by rewrite Permutation_middle. }
  assert (HndP : NoDup (pair_id <$> p :: pairs t)).
  { simpl. constructor; [by rewrite Hid|done]. }
  destruct (wf_update t (slot_of t k) cells (cells ++ [p]) (ValFreeFunction t)) as [W J];
    [done|done| |by rewrite Hperm|].
  { intros q [Hq| ->%list_elem_of_singleton]%elem_of_app; [by eapply cells_place|].
    split; [|by apply copy_key_ok]. apply place_id; [by apply copy_key_ok|done..]. }
  rewrite Hperm in W. cbn [length] in W.
  pose proof (used_update (Slots t) _ cells (cells ++ [p]) Hc) as Hu.
  rewrite (decide_False (P := cells ++ [p] = [])) in Hu by (by destruct cells).
  pose proof (used_le (Slots t)). pose proof (wf_vol t Hwf). pose proof (wf_len t Hwf).
  pose proof (wf_slotcount t Hwf) as Hsc.
  replace (if decide (cells = []) then u32 (SlotCount t + 1) else SlotCount t)
    with (Z.of_nat (used (<[slot_of t k:=cells ++ [p]]> (Slots t))))
    by (case_decide; [rewrite u32_id by lia|]; lia).
  replace (u32 (NodeCount t + 1)) with (u32 (Z.of_nat (S (length (pairs t)))))
    by (rewrite (wf_nodecount t Hwf); unfold u32; divlia).
  split; [exact W|]. unfold contents at 1, pairs. cbn [Slots].
  rewrite (to_map_perm _ (p :: pairs t)); [|apply (wf_nodup _ W)|by rewrite J].
  unfold contents, to_map. cbn [fmap list_fmap list_to_map foldr]. by rewrite Hid.
Qed.

Lemma maybe_extend_ok t :
  ht_wf t →
  let t' := if should_extend t
            then extendHASHTABLESlotSize t
                   (if SlotVolumeMax t <? u32 (SlotVolume t * 2)
                    then SlotVolumeMax t else u32 (SlotVolume t * 2))
            else t in
  ht_wf t' ∧ contents t' = contents t.
Proof.
  intros Hwf. simpl. pose proof (wf_vol t Hwf). pose proof (wf_volmax t Hwf).
  unfold should_extend. destruct (_ && _) eqn:E; [|done].
  apply andb_prop in E as [_ E%Z.ltb_lt].
  destruct (extend_ok t (if SlotVolumeMax t <? u32 (SlotVolume t * 2)
    then SlotVolumeMax t else u32 (SlotVolume t * 2))) as (? & ? & _); [done| |done].
  rewrite u32_id by lia. case_match; lia.
Qed.

Lemma extend_valfree t n : ValFreeFunction (extendHASHTABLESlotSize t n) = ValFreeFunction t.
Proof. unfold extendHASHTABLESlotSize. by repeat case_match. Qed.

Lemma set_ok t k v freeOld :
  ht_wf t → key_ok k →
  let old := default 0 (contents t !! key_id k) in
  if freeOld && negb (old =? 0) && negb (ValFreeFunction t) then setHASHTABLENode t k v freeOld = None
  else ∃ t', setHASHTABLENode t k v freeOld =
      Some (t', if freeOld then 0 else old, if freeOld && negb (old =? 0) then [ValFree old] else []) ∧
    ht_wf t' ∧ contents t' = <[key_id k := v]> (contents t) ∧ ValFreeFunction t' = ValFreeFunction t.
Proof.
  intros Hwf Hk. unfold setHASHTABLENode. rewrite find_key_first by done.
  rewrite (find_contents t k Hwf Hk).
  assert (Hend : ∀ t1 (res : Z), ht_wf t1 → contents t1 = <[key_id k := v]> (contents t) →
    ValFreeFunction t1 = ValFreeFunction t →
    let r := free_old (if should_extend t1
      then extendHASHTABLESlotSize t1
             (if SlotVolumeMax t1 <? u32 (SlotVolume t1 * 2) then SlotVolumeMax t1 else u32 (SlotVolume t1 * 2))
      else t1) res freeOld in
    if freeOld && negb (res =? 0) && negb (ValFreeFunction t) then r = None
    else ∃ t', r = Some (t', if freeOld then 0 else res, if freeOld && negb (res =? 0) then [ValFree res] else []) ∧
      ht_wf t' ∧ contents t' = <[key_id k := v]> (contents t) ∧ ValFreeFunction t' = ValFreeFunction t).
  { intros t1 res W Cn Ev. destruct (maybe_extend_ok t1 W) as [W' Cn']. set (t2 := if should_extend t1 then _ else _) in *.
    rewrite Cn in Cn'. unfold free_old.
    assert (Ev' : ValFreeFunction t2 = ValFreeFunction t) by (unfold t2; case_match; by rewrite ?extend_valfree).
    rewrite Ev'. destruct (Z.eqb_spec res 0) as [->|]; destruct freeOld, (ValFreeFunction t) eqn:E; cbn; eauto 10. }
  destruct (find t k) as [[i p]|] eqn:E; cbn [fmap option_fmap option_map default from_option snd].
  - destruct (update_ok t k v i p Hwf Hk E) as [W Cn]. by apply Hend.
  - destruct (append_ok t k v Hwf Hk E) as [W Cn]. by apply Hend.
Qed.

Lemma get_ok t k :
  ht_wf t → key_ok k → Value <$> getHASHTABLENode t k = contents t !! key_id k.
Proof.
  intros Hwf Hk. unfold getHASHTABLENode. rewrite find_key_last by done.
  rewrite find_contents by done. by destruct (find t k).
Qed.

(** The table after a pair is taken out of its slot. *)
Lemma delete_ok t k i p :
  ht_wf t → key_ok k → find t k = Some (i, p) →
  let cells := Slots t !!! slot_of t k in
  let t' := mkHASHTABLE (ValFreeFunction t)
    (<[slot_of t k := delete i cells]> (Slots t)) (u32 (NodeCount t - 1))
    (if decide (delete i cells = []) then u32 (SlotCount t - 1) else SlotCount t)
    (SlotVolume t) (SlotVolumeMax t) in
  ht_wf t' ∧ contents t' = delete (key_id k) (contents t).
Proof.
  intros Hwf Hk [Hi Hid]%find_Some cells. fold cells in Hi.
  pose proof (slot_cells t k Hwf) as Hc. fold cells in Hc.
  pose proof (pairs_split t _ _ Hc) as Hs. pose proof (wf_nodup t Hwf) as Hnd.
  assert (Hperm : pairs t ≡ₚ p :: delete i cells ++ others t (slot_of t k)).
  { rewrite Hs. by rewrite (delete_Permutation cells i p Hi) at 1. }
  assert (HndP := Hnd). rewrite Hperm in HndP. simpl in HndP.
  apply NoDup_cons in HndP as [Hnin HndP].
  destruct (wf_update t (slot_of t k) cells (delete i cells) (ValFreeFunction t)) as [W J];
    [done|done| |done|].
  { intros q Hq. apply (cells_place t _ cells); [done..|].
    rewrite (delete_Permutation cells i p Hi). by right. }
  pose proof (used_update (Slots t) _ cells (delete i cells) Hc) as Hu.
  rewrite (decide_False (P := cells = [])) in Hu by (intros E0; by rewrite E0 in Hi).
  pose proof (used_le (Slots t)). pose proof (wf_vol t Hwf). pose proof (wf_len t Hwf).
  pose proof (wf_slotcount t Hwf) as Hsc.
  replace (if decide (delete i cells = []) then u32 (SlotCount t - 1) else SlotCount t)
    with (Z.of_nat (used (<[slot_of t k:=delete i cells]> (Slots t))))
    by (case_decide; [rewrite u32_id by lia|]; lia).
  replace (u32 (NodeCount t - 1))
    with (u32 (Z.of_nat (length (delete i cells ++ others t (slot_of t k)))))
    by (rewrite (wf_nodecount t Hwf), Hperm; cbn [length]; unfold u32; divlia).
  split; [exact W|]. unfold contents at 1, pairs. cbn [Slots].
  rewrite (to_map_perm _ (delete i cells ++ others t (slot_of t k)));
    [|apply (wf_nodup _ W)|exact J].
  unfold contents. rewrite (to_map_perm _ _ Hnd Hperm).
  unfold to_map at 2. cbn [fmap list_fmap list_to_map foldr].
  rewrite Hid in *. rewrite delete_insert_id; [done|]. by apply to_map_None.
Qed.

Lemma remove_ok t k :
  ht_wf t → key_ok k →
  let '(t', code, calls) := removeHASHTABLENode t k in
  ht_wf t' ∧ contents t' = delete (key_id k) (contents t) ∧
  match contents t !! key_id k with
  | Some v => code = FUNC_RETURN_OK ∧ ∃ k', key_id k' = key_id k ∧
      calls = (if key_isnull k' then [] else [KeyFree k'])
              ++ (if ValFreeFunction t then [ValFree v] else [])
  | None => code = UTIL_HASHTABLE_NOKEY ∧ calls = []
  end.
Proof.
  intros Hwf Hk. unfold removeHASHTABLENode. rewrite find_key_last by done.
  rewrite (find_contents t k Hwf Hk).
  assert (Hnone : find t k = None → delete (key_id k) (contents t) = contents t).
  { intros E. apply delete_id. by rewrite find_contents, E. }
  case_decide as Hnil.
  - assert (E : find t k = None) by (unfold find; by rewrite Hnil). rewrite E. simpl.
    by rewrite Hnone.
  - destruct (find t k) as [[i p]|] eqn:E; simpl; [|by rewrite Hnone].
    destruct (delete_ok t k i p Hwf Hk E) as [W Cn]. split; [done|]. split; [done|].
    split; [done|]. exists (Key p). split; [|done]. by apply find_Some in E as [_ ?].
Qed.

Lemma fmap_nil {A B} (ls : list A) : (λ _, @nil B) <$> ls = replicate (length ls) [].
Proof. induction ls; simpl; [done|]. by f_equal. Qed.

Lemma clear_ok t :
  ht_wf t → ht_wf (clearHASHTABLE t).1 ∧ contents (clearHASHTABLE t).1 = ∅.
Proof.
  intros [W1 W2 W3 W4 W5 W6 W7 W8]. unfold clearHASHTABLE, contents, pairs. simpl.
  rewrite fmap_nil, mjoin_replicate_nil. split; [|done].
  constructor; unfold pairs; cbn [Slots NodeCount SlotCount SlotVolume SlotVolumeMax];
    rewrite ?fmap_nil, ?mjoin_replicate_nil, ?used_replicate_nil, ?length_replicate;
    try done; [|by constructor].
  intros i cells p Hi Hp. apply lookup_replicate in Hi as [-> _]. by apply elem_of_nil in Hp.
Qed.

Lemma foldl_snoc l l0 : foldl (λ l p, l ++ [p]) l0 l = l0 ++ l.
Proof.
  revert l0. induction l as [|x l IH]; intros l0; simpl; [by rewrite app_nil_r|].
  by rewrite IH, <- (assoc_L (++)).
Qed.

Lemma get_all_eq t l : getAllPAIRRefIntoList t l = l ++ pairs t.
Proof. unfold getAllPAIRRefIntoList. by rewrite foldl_join, foldl_snoc. Qed.

Lemma size_ok t : ht_wf t → getHASHTABLESize t = u32 (Z.of_nat (size (contents t))).
Proof.
  intros Hwf. unfold getHASHTABLESize. rewrite (wf_nodecount t Hwf). do 2 f_equal.
  unfold contents, to_map. rewrite map_size_list_to_map by (rewrite slot_ids; apply Hwf).
  by rewrite length_fmap.
Qed.

Lemma initialize_ok vol maxvol valfree :
  0 < vol < 2 ^ 31 → maxvol < 2 ^ 31 →
  ht_wf (initializeHASHTABLE vol maxvol valfree) ∧
  contents (initializeHASHTABLE vol maxvol valfree) = ∅.
Proof.
  intros Hv Hm. unfold initializeHASHTABLE, contents, pairs. simpl.
  rewrite mjoin_replicate_nil. split; [|done].
  constructor; unfold pairs; cbn [Slots NodeCount SlotCount SlotVolume SlotVolumeMax];
    rewrite ?mjoin_replicate_nil, ?used_replicate_nil, ?length_replicate;
    try done; [|by constructor].
  intros i cells p Hi Hp. apply lookup_replicate in Hi as [-> _]. by apply elem_of_nil in Hp.
Qed.
End Correct.

(** ** The interface, implemented *)

Section Instance.
Context {K C : Type} `{Countable C} `{!KeyOps K} `{!KeyLaws K C}.

Program Definition hashtable_keyed : KeyedTable (HASHTABLE K) K C := {|
  table_ok := ht_wf;
  table_contents := contents;
  table_id := key_id;
  table_key_ok := key_ok;
  table_get t k := Value <$> getHASHTABLENode t k;
  table_set t k v := match setHASHTABLENode t k v false with Some (t', _, _) => t' | None => t end;
  table_remove t k := (removeHASHTABLENode t k).1;
  table_values t := Value <$> getAllPAIRRefIntoList t [];
  table_clear t := (clearHASHTABLE t).1
|}.
Next Obligation. apply get_ok. Qed.
Next Obligation.
  intros t k v Hwf Hk. cbv beta. pose proof (set_ok t k v false Hwf Hk) as Hs.
  destruct Hs as (t' & -> & ? & ? & _). done.
Qed.
Next Obligation.
  intros t k Hwf Hk. cbv beta. pose proof (remove_ok t k Hwf Hk) as Hs.
  destruct (removeHASHTABLENode t k) as [[t' code] calls]. simpl in *.
  destruct Hs as (? & ? & Hs). split_and!; [done..|].
  by destruct (contents t !! key_id k); destruct Hs as [-> _].
Qed.
Next Obligation.
  intros t Hwf. cbv beta. rewrite get_all_eq. simpl. unfold contents, to_map.
  rewrite map_to_list_to_map by (rewrite slot_ids; apply Hwf).
  by rewrite <- list_fmap_compose.
Qed.
Next Obligation. intros t Hwf. by apply clear_ok. Qed.
End Instance.

(** ** Sequences of operations *)

Inductive ht_op (K : Type) :=
  | OpSet (k : K) (v : Z) (freeOld : bool)
  | OpGet (k : K)
  | OpRemove (k : K)
  | OpClear
  | OpSize.
Arguments OpSet {K} k v freeOld.
Arguments OpGet {K} k.
Arguments OpRemove {K} k.
Arguments OpClear {K}.
Arguments OpSize {K}.

Section Sequences.
Context {K C : Type} `{Countable C} `{!KeyOps K} `{!KeyLaws K C}.

Definition ht_step (t : HASHTABLE K) (op : ht_op K) : option (HASHTABLE K * Z) :=
  match op with
  | OpSet k v freeOld => fst <$> setHASHTABLENode t k v freeOld
  | OpGet k => Some (t, default 0 (Value <$> getHASHTABLENode t k))
  | OpRemove k => Some (removeHASHTABLENode t k).1
  | OpClear => Some ((clearHASHTABLE t).1, 0)
  | OpSize => Some (t, getHASHTABLESize t)
  end.

(** The same operations on a finite map.  Freeing a value that is replaced is a
    fault without a function for it. *)
Definition map_step (valfree : bool) (m : gmap C Z) (op : ht_op K) : option (gmap C Z * Z) :=
  match op with
  | OpSet k v freeOld =>
    let old := default 0 (m !! key_id k) in
    if freeOld && negb (old =? 0) && negb valfree then None
    else Some (<[key_id k := v]> m, if freeOld then 0 else old)
  | OpGet k => Some (m, default 0 (m !! key_id k))
  | OpRemove k =>
    Some (delete (key_id k) m, if m !! key_id k then FUNC_RETURN_OK else UTIL_HASHTABLE_NOKEY)
  | OpClear => Some (∅, 0)
  | OpSize => Some (m, u32 (Z.of_nat (size m)))
  end.

(** What the operations return, up to a fault. *)
Fixpoint run {S} (step : S → ht_op K → option (S * Z)) (s : S) (ops : list (ht_op K)) : list (option Z) :=
  match ops with
  | [] => []
  | op :: ops =>
    match step s op with
    | Some (s', x) => Some x :: run step s' ops
    | None => [None]
    end
  end.

Definition op_ok (op : ht_op K) : Prop :=
  match op with OpSet k _ _ | OpGet k | OpRemove k => key_ok k | _ => True end.

Lemma ht_step_refines t op :
  ht_wf t → op_ok op →
  match ht_step t op with
  | Some (t', x) => map_step (ValFreeFunction t) (contents t) op = Some (contents t', x) ∧
      ht_wf t' ∧ ValFreeFunction t' = ValFreeFunction t
  | None => map_step (ValFreeFunction t) (contents t) op = None
  end.
Proof.
  intros Hwf Hop. destruct op as [k v freeOld|k|k| |]; cbn [ht_step map_step].
  - pose proof (set_ok t k v freeOld Hwf Hop) as Hs. cbv zeta in Hs. destruct (_ && _ && _).
    + by rewrite Hs.
    + destruct Hs as (t' & -> & ? & <- & ?). done.
  - by rewrite get_ok.
  - pose proof (remove_ok t k Hwf Hop) as Hr.
    assert (Ev : ValFreeFunction (removeHASHTABLENode t k).1.1 = ValFreeFunction t)
      by (unfold removeHASHTABLENode; by repeat case_match).
    destruct (removeHASHTABLENode t k) as [[t' code] calls]. simpl in *.
    destruct Hr as (? & <- & Hr). split_and!; [|done..].
    by destruct (contents t !! key_id k); destruct Hr as [-> _].
  - destruct (clear_ok t Hwf) as [? E]. by rewrite E.
  - by rewrite size_ok.
Qed.

Lemma run_refines t ops :
  ht_wf t → Forall op_ok ops → run ht_step t ops = run (map_step (ValFreeFunction t)) (contents t) ops.
Proof.
  intros Hwf Hops. revert t Hwf. induction Hops as [|op ops Hop Hops IH]; intros t Hwf; [done|].
  cbn [run]. pose proof (ht_step_refines t op Hwf Hop) as Hr. destruct (ht_step t op) as [[t' x]|].
  - destruct Hr as (-> & W & Ev). f_equal. by rewrite IH, Ev.
  - by rewrite Hr.
Qed.
End Sequences.

(** ** Theorems *)

(** C16. A hash table refines a finite map: every sequence of sets, gets,
    removes, clears and size queries on a new table returns what it returns on
    the map from key identities to values, through every growth of the slot
    array on the way.  Both end with a fault where a value that is not NULL is
    to be freed when it is replaced and the table has no function for it.  No
    set fails because the table is full. *)
Theorem hashtable_refines_map {K C} `{Countable C} `{!KeyOps K} `{!KeyLaws K C}
    vol maxvol valfree (ops : list (ht_op K)) :
  0 < vol < 2 ^ 31 → maxvol < 2 ^ 31 → Forall op_ok ops →
  run ht_step (initializeHASHTABLE vol maxvol valfree) ops = run (map_step valfree) ∅ ops.
Proof.
  intros Hv Hm Hops. destruct (initialize_ok vol maxvol valfree Hv Hm) as [W E].
  rewrite <- E. by apply (run_refines (initializeHASHTABLE vol maxvol valfree)).
Qed.

(** What setting and removing a key free: a replaced value is freed
    exactly when the caller asks for it and it is not NULL, and returned
    otherwise; a removed pair frees its own key and, when the table has a
    value free function, its value; a missing key frees nothing and reports
    that there is no such key. *)
Lemma hashtable_frees {K C} `{Countable C} `{!KeyOps K} `{!KeyLaws K C}
    (t : HASHTABLE K) k v freeOld :
  ht_wf t → key_ok k →
  let old := default 0 (contents t !! key_id k) in
  (freeOld = true → ValFreeFunction t = true) →
  (∃ t', setHASHTABLENode t k v freeOld =
     Some (t', if freeOld then 0 else old, if freeOld && negb (old =? 0) then [ValFree old] else [])) ∧
  match contents t !! key_id k with
  | Some w => (removeHASHTABLENode t k).1.2 = FUNC_RETURN_OK ∧
      ∃ k', key_id k' = key_id k ∧
        (removeHASHTABLENode t k).2 = (if key_isnull k' then [] else [KeyFree k'])
                                      ++ (if ValFreeFunction t then [ValFree w] else [])
  | None => removeHASHTABLENode t k = (t, UTIL_HASHTABLE_NOKEY, [])
  end.
Proof.
  intros Hwf Hk old Hfree. pose proof (set_ok t k v freeOld Hwf Hk) as Hs. cbv zeta in Hs. fold old in Hs.
  replace (freeOld && negb (old =? 0) && negb (ValFreeFunction t)) with false in Hs
    by (destruct freeOld; [by rewrite Hfree, andb_false_r|done]).
  pose proof (remove_ok t k Hwf Hk) as Hr. split; [destruct Hs as (t' & -> & _); by eexists|].
  destruct (contents t !! key_id k) eqn:E.
  - destruct (removeHASHTABLENode t k) as [[t'' code] calls']. simpl. tauto.
  - rewrite find_contents in E by done. unfold removeHASHTABLENode.
    rewrite find_key_last by done. destruct (find t k); [done|]. by case_decide.
Qed.

(** The slot array grows only when every slot is in use: the test divides
    the two counts as integers before it compares them with the bar of one
    half, so a table of which half of the slots or all but one are in use is
    not extended. *)
Lemma extend_only_when_full {K C} `{Countable C} `{!KeyOps K} `{!KeyLaws K C}
    (t : HASHTABLE K) :
  ht_wf t →
  should_extend t = true ↔ SlotCount t = SlotVolume t ∧ SlotVolume t < SlotVolumeMax t.
Proof.
  intros Hwf. pose proof (wf_vol t Hwf). pose proof (wf_len t Hwf).
  pose proof (wf_slotcount t Hwf) as E. pose proof (used_le (Slots t)).
  unfold should_extend, SlotExtendBar_num, SlotExtendBar_den.
  rewrite andb_true_iff, !Z.ltb_lt. split; intros [Hq ?]; (split; [|done]).
  - pose proof (Z.mul_div_le (SlotCount t) (SlotVolume t) ltac:(lia)). nia.
  - rewrite Hq, Z.div_same by lia. lia.
Qed.

(** Pointer keys are told apart by their low 32 bits only: a table with
    pointer keys treats any two pointers that agree there as one key, so that
    setting the second replaces the value of the first. *)
Lemma voidpt_low_bits_only (t : HASHTABLE Z) p hi v w :
  @ht_wf Z Z _ _ VOIDPT_ops VOIDPT_laws t →
  let set := @setHASHTABLENode Z VOIDPT_ops in
  let get := @getHASHTABLENode Z VOIDPT_ops in
  let keys := @contents Z Z _ _ VOIDPT_ops VOIDPT_laws in
  ∃ t1 t2 t3 r2, set t p v false = Some (t1, default 0 (keys t !! u32 p), []) ∧
    set t1 (p + hi * 2 ^ 32) w false = Some (t2, r2, []) ∧ set t p w false = Some (t3, default 0 (keys t !! u32 p), []) ∧ Value <$> get t2 p = Some w ∧ keys t2 = keys t3.
Proof.
  intros Hwf set get keys.
  assert (Hid : u32 (p + hi * 2 ^ 32) = u32 p) by (unfold u32; by rewrite Z_mod_plus_full).
  destruct (@set_ok Z Z _ _ VOIDPT_ops VOIDPT_laws t p v false Hwf I) as (t1 & E1 & W1 & C1 & _).
  destruct (@set_ok Z Z _ _ VOIDPT_ops VOIDPT_laws t1 (p + hi * 2 ^ 32) w false W1 I) as (t2 & E2 & W2 & C2 & _).
  destruct (@set_ok Z Z _ _ VOIDPT_ops VOIDPT_laws t p w false Hwf I) as (t3 & E3 & _ & C3 & _).
  unfold set. rewrite E1, E3. exists t1, t2, t3. eexists. split; [done|]. rewrite E2. split; [done|]. split; [done|].
  unfold get. rewrite (@get_ok Z Z _ _ VOIDPT_ops VOIDPT_laws) by done.
  unfold keys. rewrite C2, C3, C1. cbn [key_id VOIDPT_laws]. rewrite Hid.
  by rewrite lookup_insert_eq, insert_insert_eq.
Qed.

(** ** Witnesses: integer keys in two slots *)

Lemma hashtable_refines_map_witness :
  @run Z (HASHTABLE Z) (@ht_step Z UINT32_ops)
    (@initializeHASHTABLE Z 2 8 false)
    [OpSet 5 50 false; OpSet 7 70 false; OpSet 6 60 false; OpSet 5 51 false; OpRemove 7;
     OpGet 5; OpGet 7; OpSize; OpSet 5 52 true]
  = [Some 0; Some 0; Some 0; Some 50; Some 0; Some 51; Some 0; Some 2; None].
Proof.
  rewrite (@hashtable_refines_map Z Z _ _ UINT32_ops UINT32_laws 2 8 false).
  - vm_compute. reflexivity.
  - split; reflexivity.
  - reflexivity.
  - repeat constructor.
Defined.

Definition demo_table : HASHTABLE Z := @initializeHASHTABLE Z 2 8 true.

Lemma demo_table_wf ops laws : @ht_wf Z Z _ _ ops laws demo_table.
Proof. apply (@initialize_ok Z Z _ _ ops laws 2 8 true); [split; reflexivity|reflexivity]. Defined.

