(* ===== verification/DeadLock.v ===== *)
(** The deadlock detector of a resource queue
    (backend/resourcemanager/resqueuedeadlock.c,
    include/resqueuedeadlock.h) and the check that uses it
    ([detectAndDealWithDeadLock] of resqueuemanager.c).

    The detector keeps one tracker per session in a table keyed by the eight
    bytes of the session id, and four totals.  Trackers live in the memory of
    the process: the table holds their addresses, [tracks] their contents, and
    an operation that follows a dangling address has no result ([None]).  The
    table is reached through its interface [KeyedTable]; the theorems at the
    end are about the hash table with array keys that the code uses.  Memory totals are
    32-bit unsigned, cores are IEEE doubles.  Assertions are those of a
    production build: off. *)
From Stdlib Require Import Floats.SpecFloat.
From stdpp Require Import prelude numbers list gmap.
From S2P Require Import Prelude TableIface HashTable.

(** ** Doubles *)

Abbreviation double := spec_float.
Definition dadd (x y : double) : double := SFadd 53 1024 x y.
Definition dsub (x y : double) : double := SFsub 53 1024 x y.
Definition dmul (x y : double) : double := SFmul 53 1024 x y.
Definition dltb (x y : double) : bool := SFltb x y.
Definition deqb (x y : double) : bool := SFeqb x y.
Definition d0 : double := S754_zero false.
Definition double_of_Z (z : Z) : double := binary_normalize 53 1024 z 0 false.

(** ** Data *)

Definition RESQUEMGR_NO_SESSIONID : Z := 127.

Record SessionTrackData := mkSessionTrack {
  SessionID : Z;
  InUseTotalMemoryMB : Z;
  InUseTotalCore : double;
  Locked : bool
}.

Record Detector (T : Type) := mkDetector {
  Sessions : T;
  tracks : gmap Z SessionTrackData;   (** the trackers in memory, by address *)
  brk : Z;                            (** the next address of the allocator *)
  dl_InUseTotalMemoryMB : Z;
  dl_InUseTotalCore : double;
  dl_LockedTotalMemoryMB : Z;
  dl_LockedTotalCore : double
}.
Arguments mkDetector {T} _ _ _ _ _ _ _.
Arguments Sessions {T} d.
Arguments tracks {T} d.
Arguments brk {T} d.
Arguments dl_InUseTotalMemoryMB {T} d.
Arguments dl_InUseTotalCore {T} d.
Arguments dl_LockedTotalMemoryMB {T} d.
Arguments dl_LockedTotalCore {T} d.

(** [setSimpleArrayRef(&key, (char * )&sessionid, sizeof(int64_t))]. *)
Definition session_key (sessionid : Z) : list Z := Z_to_little_endian 8 8 sessionid.

(** A queued request: the fields of the connection track the check reads. *)
Record ConnectionTrack := mkConnectionTrack {
  ct_SessionID : Z;
  ct_SegMemoryMB : Z;
  ct_SegCore : double;
  ct_SegNumMin : Z
}.

(** What the search found, with a request it passed put back in its place. *)
Definition keep_request (req : ConnectionTrack)
    (r : option (ConnectionTrack * SessionTrackData * list ConnectionTrack)) :=
  match r with
  | Some (c, t, q) => Some (c, t, req :: q)
  | None => None
  end.

Section Operations.
Context {T C : Type} `{Countable C} `{!KeyedTable T (list Z) C}.
Implicit Types (d : Detector T) (tr : SessionTrackData).

Definition initializeResqueueDeadLockDetector (empty_table : T) : Detector T :=
  mkDetector empty_table ∅ 1 0 d0 0 d0.

Definition addSessionInUseResource d (sessionid memorymb : Z) (core : double)
    : option (Detector T * Z) :=
  match table_get (Sessions d) (session_key sessionid) with
  | None => Some (d, RESQUEMGR_NO_SESSIONID)
  | Some a =>
    tr ← tracks d !! a;
    let tr := mkSessionTrack (SessionID tr) (u32 (InUseTotalMemoryMB tr + memorymb))
                (dadd (InUseTotalCore tr) core) (Locked tr) in
    Some (mkDetector (Sessions d) (<[a:=tr]> (tracks d)) (brk d)
            (u32 (dl_InUseTotalMemoryMB d + memorymb)) (dadd (dl_InUseTotalCore d) core)
            (dl_LockedTotalMemoryMB d) (dl_LockedTotalCore d), FUNC_RETURN_OK)
  end.

Definition minusSessionInUserResource d (sessionid memorymb : Z) (core : double)
    : option (Detector T * Z) :=
  match table_get (Sessions d) (session_key sessionid) with
  | None => Some (d, RESQUEMGR_NO_SESSIONID)
  | Some a =>
    tr ← tracks d !! a;
    let tr := mkSessionTrack (SessionID tr) (u32 (InUseTotalMemoryMB tr - memorymb))
                (dsub (InUseTotalCore tr) core) (Locked tr) in
    let idle := (InUseTotalMemoryMB tr =? 0) && deqb (InUseTotalCore tr) d0 in
    Some (mkDetector
            (if idle then (table_remove (Sessions d) (session_key sessionid)).1
             else Sessions d)
            (if idle then delete a (tracks d) else <[a:=tr]> (tracks d)) (brk d)
            (u32 (dl_InUseTotalMemoryMB d - memorymb)) (dsub (dl_InUseTotalCore d) core)
            (dl_LockedTotalMemoryMB d) (dl_LockedTotalCore d), FUNC_RETURN_OK)
  end.

Definition removeSession d (sessionid : Z) : option (Detector T * Z) :=
  match table_get (Sessions d) (session_key sessionid) with
  | None => Some (d, RESQUEMGR_NO_SESSIONID)
  | Some a =>
    tr ← tracks d !! a;
    Some (mkDetector (table_remove (Sessions d) (session_key sessionid)).1
            (delete a (tracks d)) (brk d)
            (u32 (dl_InUseTotalMemoryMB d - InUseTotalMemoryMB tr))
            (dsub (dl_InUseTotalCore d) (InUseTotalCore tr))
            (dl_LockedTotalMemoryMB d) (dl_LockedTotalCore d), FUNC_RETURN_OK)
  end.

(** The second half of [createAndLockSessionResource], on the tracker at
    [a]. *)
Definition lock_track d (a : Z) : option (Detector T) :=
  tr ← tracks d !! a;
  Some (mkDetector (Sessions d)
          (<[a := mkSessionTrack (SessionID tr) (InUseTotalMemoryMB tr) (InUseTotalCore tr)
                    true]> (tracks d)) (brk d)
          (dl_InUseTotalMemoryMB d) (dl_InUseTotalCore d)
          (u32 (dl_LockedTotalMemoryMB d + InUseTotalMemoryMB tr))
          (dadd (dl_LockedTotalCore d) (InUseTotalCore tr))).

Definition createAndLockSessionResource d (sessionid : Z) : option (Detector T) :=
  match table_get (Sessions d) (session_key sessionid) with
  | None =>
    let a := brk d in
    lock_track
      (mkDetector (table_set (Sessions d) (session_key sessionid) a)
         (<[a := mkSessionTrack sessionid 0 d0 false]> (tracks d)) (brk d + 1)
         (dl_InUseTotalMemoryMB d) (dl_InUseTotalCore d)
         (dl_LockedTotalMemoryMB d) (dl_LockedTotalCore d)) a
  | Some a => lock_track d a
  end.

Definition unlockSessionResource d (sessionid : Z) : option (Detector T) :=
  match table_get (Sessions d) (session_key sessionid) with
  | None => Some d
  | Some a =>
    tr ← tracks d !! a;
    Some (mkDetector (Sessions d)
            (<[a := mkSessionTrack (SessionID tr) (InUseTotalMemoryMB tr) (InUseTotalCore tr)
                      false]> (tracks d)) (brk d)
            (dl_InUseTotalMemoryMB d) (dl_InUseTotalCore d)
            (u32 (dl_LockedTotalMemoryMB d - InUseTotalMemoryMB tr))
            (dsub (dl_LockedTotalCore d) (InUseTotalCore tr)))
  end.

(** The tracker of a session; [Some None] is NULL. *)
Definition findSession d (sessionid : Z) : option (option SessionTrackData) :=
  match table_get (Sessions d) (session_key sessionid) with
  | None => Some None
  | Some a => tr ← tracks d !! a; Some (Some tr)
  end.

(** Free the trackers of a list of addresses; a double free has no result. *)
Fixpoint free_tracks (l : list Z) (m : gmap Z SessionTrackData)
    : option (gmap Z SessionTrackData) :=
  match l with
  | [] => Some m
  | a :: l => _ ← m !! a; free_tracks l (delete a m)
  end.

Definition resetResourceDeadLockDetector d : option (Detector T) :=
  m ← free_tracks (table_values (Sessions d)) (tracks d);
  Some (mkDetector (table_clear (Sessions d)) m (brk d) 0 d0 0 d0).

(** The search from the tail of the queue for a request whose session has
    memory in use; the queue is given from its tail.  Returns the request
    and tracker found and the queue without the request. *)
Fixpoint find_from_tail d (rev_queue : list ConnectionTrack)
    : option (option (ConnectionTrack * SessionTrackData * list ConnectionTrack)) :=
  match rev_queue with
  | [] => Some None
  | req :: rest =>
    strack ← findSession d (ct_SessionID req);
    match strack with
    | Some tr =>
      if 0 <? InUseTotalMemoryMB tr then Some (Some (req, tr, rest))
      else
        r ← find_from_tail d rest;
        Some (keep_request req r)
    | None =>
      r ← find_from_tail d rest;
      Some (keep_request req r)
    end
  end.

(** What the check leaves: the detector, the queue (from its tail) and the
    requests it cancelled. *)
Record CheckState := mkCheckState {
  cs_detector : Detector T;
  cs_rev_queue : list ConnectionTrack;
  cs_cancelled : list ConnectionTrack;
  cs_availmemorymb : Z;
  cs_availcore : double
}.

Definition still_short (expmemorymb : Z) (expcore : double) (st : CheckState) : bool :=
  ((cs_availmemorymb st <? expmemorymb) || dltb (cs_availcore st) expcore)
  && (0 <? Z.of_nat (length (cs_rev_queue st))).

(** One iteration of the [while] loop. *)
Definition check_iteration (st : CheckState) : option CheckState :=
  found ← find_from_tail (cs_detector st) (cs_rev_queue st);
  match found with
  | Some (canceltrack, strack, rest) =>
    d ← unlockSessionResource (cs_detector st) (ct_SessionID canceltrack);
    Some (mkCheckState d rest (cs_cancelled st ++ [canceltrack])
            (u32 (cs_availmemorymb st + InUseTotalMemoryMB strack))
            (dadd (cs_availcore st) (InUseTotalCore strack)))
  | None => Some st
  end.

(** [None] when the fuel runs out; [Some None] when a tracker dangles. *)
Fixpoint check_loop (fuel : nat) (expmemorymb : Z) (expcore : double) (st : CheckState)
    : option (option CheckState) :=
  match fuel with
  | 0%nat => None
  | S fuel =>
    if still_short expmemorymb expcore st then
      match check_iteration st with
      | Some st => check_loop fuel expmemorymb expcore st
      | None => Some None
      end
    else Some (Some st)
  end.

Definition detectAndDealWithDeadLock (fuel : nat) (ClusterMemoryMaxMB : Z)
    (ClusterVCoreMax : double) d (queue : list ConnectionTrack)
    : option (option CheckState) :=
  let st := mkCheckState d (reverse queue) []
              (u32 (ClusterMemoryMaxMB - dl_LockedTotalMemoryMB d))
              (dsub ClusterVCoreMax (dl_LockedTotalCore d)) in
  match queue with
  | [] => Some (Some st)
  | firstreq :: _ =>
    let expmemorymb := u32 (ct_SegMemoryMB firstreq * ct_SegNumMin firstreq) in
    let expcore := dmul (ct_SegCore firstreq) (double_of_Z (ct_SegNumMin firstreq)) in
    if (u32 ClusterMemoryMaxMB <? expmemorymb) && dltb ClusterVCoreMax expcore
    then Some (Some st)
    else check_loop fuel expmemorymb expcore st
  end.
End Operations.

(** ** Totals *)

Definition total (f : SessionTrackData → Z) (m : gmap Z SessionTrackData) : Z :=
  map_fold (λ _ tr acc, f tr + acc) 0 m.

Definition locked_memory (tr : SessionTrackData) : Z :=
  if Locked tr then InUseTotalMemoryMB tr else 0.

Lemma total_insert f m a tr :
  m !! a = None → total f (<[a:=tr]> m) = f tr + total f m.
Proof. intros Ha. unfold total. rewrite map_fold_insert_L; [done| |done]. intros. lia. Qed.

Lemma total_delete f m a tr :
  m !! a = Some tr → total f m = f tr + total f (delete a m).
Proof.
  intros Ha. rewrite <- (insert_delete_id m a tr) at 1 by done.
  apply total_insert. apply lookup_delete_eq.
Qed.

Lemma total_update f m a tr tr' :
  m !! a = Some tr → total f (<[a:=tr']> m) = total f m - f tr + f tr'.
Proof.
  intros Ha. rewrite (total_delete f m a tr Ha), <- insert_delete_eq.
  rewrite total_insert by apply lookup_delete_eq. lia.
Qed.

Lemma total_empty f : total f ∅ = 0.
Proof. apply map_fold_empty. Qed.

Lemma u32_cong x y : (∃ q, x = y + q * 2 ^ 32) → u32 x = u32 y.
Proof. intros [q ->]. unfold u32. by rewrite Z_mod_plus_full. Qed.

Lemma u32_split x : ∃ q, x = u32 x + q * 2 ^ 32.
Proof. exists (x / 2 ^ 32). unfold u32. pose proof (Z.div_mod x (2 ^ 32)). lia. Qed.

(** ** Freeing every tracker once *)

Lemma free_tracks_ok l m :
  NoDup l → (∀ a, a ∈ l ↔ is_Some (m !! a)) → free_tracks l m = Some ∅.
Proof.
  intros Hn. revert m. induction Hn as [|a l Ha Hn IH]; intros m Hm; cbn.
  - f_equal. apply map_empty. intros a. destruct (m !! a) eqn:E; [|done].
    assert (a ∈ @nil Z) by (apply Hm; by eexists). set_solver.
  - destruct (proj1 (Hm a) ltac:(set_solver)) as [tr ->]. cbn. apply IH. intros a'.
    destruct (decide (a' = a)) as [->|Hne].
    + rewrite lookup_delete_eq. split; [done|by intros []].
    + rewrite lookup_delete_ne by done. rewrite <- Hm, elem_of_cons. naive_solver.
Qed.

(** ** Invariant *)

Definition is_int64 (z : Z) : Prop := - 2 ^ 63 ≤ z < 2 ^ 63.

Section Invariant.
Context {T C : Type} `{Countable C} `{!KeyedTable T (list Z) C}.
Context (session_key_ok : ∀ s, table_key_ok (session_key s)).
Context (session_id_inj : ∀ s s', is_int64 s → is_int64 s' →
  table_id (session_key s) = table_id (session_key s') → s = s').
Implicit Types (d : Detector T) (tr : SessionTrackData) (s a : Z).

Definition sid s : C := table_id (session_key s).

(** Every address of the table is that of the tracker of its session, every
    tracker in memory is in the table, and the memory totals are the sums over
    the trackers and, up to [n], over the locked trackers. *)
Record dl_inv (n : Z) d : Prop := {
  inv_table : table_ok (Sessions d);
  inv_fwd c a : table_contents (Sessions d) !! c = Some a →
    ∃ tr, tracks d !! a = Some tr ∧ sid (SessionID tr) = c;
  inv_bwd a tr : tracks d !! a = Some tr →
    table_contents (Sessions d) !! sid (SessionID tr) = Some a ∧
    is_int64 (SessionID tr) ∧ a < brk d;
  inv_inuse : dl_InUseTotalMemoryMB d = u32 (total InUseTotalMemoryMB (tracks d));
  inv_locked : dl_LockedTotalMemoryMB d = u32 (total locked_memory (tracks d) + n)
}.

(** Looking a session up. *)
Lemma get_cases n d s :
  dl_inv n d → is_int64 s →
  (table_get (Sessions d) (session_key s) = None ∧
   table_contents (Sessions d) !! sid s = None) ∨
  (∃ a tr, table_get (Sessions d) (session_key s) = Some a ∧
   table_contents (Sessions d) !! sid s = Some a ∧
   tracks d !! a = Some tr ∧ SessionID tr = s).
Proof using session_key_ok session_id_inj.
  intros Hd Hs. rewrite table_get_ok by (apply Hd || done).
  fold (sid s). destruct (table_contents (Sessions d) !! sid s) as [a|] eqn:E; [right|by left].
  destruct (inv_fwd n d Hd _ _ E) as (tr & Htr & Hid). exists a, tr. split_and!; [done..|].
  apply session_id_inj; [|done|done]. by eapply inv_bwd.
Qed.

(** Rewriting a tracker in place. *)
Lemma inv_rewrite n n' d a tr tr' mem core lmem lcore :
  dl_inv n d → tracks d !! a = Some tr → SessionID tr' = SessionID tr →
  mem = u32 (dl_InUseTotalMemoryMB d - InUseTotalMemoryMB tr + InUseTotalMemoryMB tr') →
  lmem = u32 (dl_LockedTotalMemoryMB d - locked_memory tr + locked_memory tr' + (n' - n)) →
  dl_inv n' (mkDetector (Sessions d) (<[a:=tr']> (tracks d)) (brk d) mem core lmem lcore).
Proof.
  intros Hd Ha Hid -> ->. constructor; cbn; [apply Hd| | | |].
  - intros c a' Hc. destruct (inv_fwd n d Hd c a' Hc) as (tr0 & H0 & Hc0).
    destruct (decide (a' = a)) as [->|Hne].
    + exists tr'. rewrite lookup_insert_eq. split; [done|]. simplify_eq. by rewrite Hid.
    + exists tr0. by rewrite lookup_insert_ne.
  - intros a' tr0 H0. destruct (decide (a' = a)) as [->|Hne].
    + rewrite lookup_insert_eq in H0. simplify_eq. rewrite Hid. by apply (inv_bwd n d Hd).
    + rewrite lookup_insert_ne in H0 by done. by apply (inv_bwd n d Hd).
  - rewrite (total_update _ _ _ _ tr' Ha), (inv_inuse n d Hd).
    destruct (u32_split (total InUseTotalMemoryMB (tracks d))) as [q Hq].
    apply u32_cong. exists (- q). lia.
  - rewrite (total_update _ _ _ _ tr' Ha), (inv_locked n d Hd).
    destruct (u32_split (total locked_memory (tracks d) + n)) as [q Hq].
    apply u32_cong. exists (- q). lia.
Qed.

(** Dropping a tracker. *)
Lemma inv_drop n n' d s a tr mem core lmem lcore :
  dl_inv n d → table_contents (Sessions d) !! sid s = Some a → tracks d !! a = Some tr →
  SessionID tr = s →
  mem = u32 (dl_InUseTotalMemoryMB d - InUseTotalMemoryMB tr) →
  lmem = u32 (dl_LockedTotalMemoryMB d - locked_memory tr + (n' - n)) →
  dl_inv n' (mkDetector (table_remove (Sessions d) (session_key s)).1 (delete a (tracks d))
            (brk d) mem core lmem lcore).
Proof using session_key_ok.
  intros Hd Hc Ha Hs -> ->.
  destruct (table_remove_ok (Sessions d) (session_key s) (inv_table n d Hd) (session_key_ok s))
    as (Hok & Hcont & _). fold (sid s) in Hcont.
  constructor; cbn; [done| | | |].
  - intros c a' Hc'. rewrite Hcont in Hc'. apply lookup_delete_Some in Hc' as [Hne Hc'].
    destruct (inv_fwd n d Hd c a' Hc') as (tr0 & H0 & Hc0). exists tr0. split; [|done].
    rewrite lookup_delete_ne; [done|]. intros <-. simplify_eq.
  - intros a' tr0 H0. apply lookup_delete_Some in H0 as [Hne H0].
    destruct (inv_bwd n d Hd a' tr0 H0) as (? & ? & ?). rewrite Hcont, lookup_delete_ne; [done|].
    intros E. rewrite E in Hc. congruence.
  - rewrite (inv_inuse n d Hd). rewrite (total_delete InUseTotalMemoryMB (tracks d) a tr Ha).
    destruct (u32_split (InUseTotalMemoryMB tr + total InUseTotalMemoryMB (delete a (tracks d))))
      as [q Hq]. apply u32_cong. exists (- q). lia.
  - rewrite (inv_locked n d Hd). rewrite (total_delete locked_memory (tracks d) a tr Ha).
    destruct (u32_split (locked_memory tr + total locked_memory (delete a (tracks d)) + n))
      as [q Hq]. apply u32_cong. exists (- q). lia.
Qed.

(** A new tracker with nothing in use. *)
Lemma inv_create n d s :
  dl_inv n d → is_int64 s → table_contents (Sessions d) !! sid s = None →
  dl_inv n (mkDetector (table_set (Sessions d) (session_key s) (brk d))
            (<[brk d := mkSessionTrack s 0 d0 false]> (tracks d)) (brk d + 1)
            (dl_InUseTotalMemoryMB d) (dl_InUseTotalCore d)
            (dl_LockedTotalMemoryMB d) (dl_LockedTotalCore d)).
Proof using session_key_ok.
  intros Hd Hs Hc.
  destruct (table_set_ok (Sessions d) (session_key s) (brk d) (inv_table n d Hd)
    (session_key_ok s)) as (Hok & Hcont). fold (sid s) in Hcont.
  assert (Hfresh : tracks d !! brk d = None).
  { destruct (tracks d !! brk d) eqn:E; [|done].
    apply (inv_bwd n d Hd) in E as (_ & _ & ?). lia. }
  constructor; cbn; [done| | | |].
  - intros c a' Hc'. rewrite Hcont in Hc'. apply lookup_insert_Some in Hc' as [[<- <-]|[Hne Hc']].
    + eexists. rewrite lookup_insert_eq. done.
    + destruct (inv_fwd n d Hd c a' Hc') as (tr0 & H0 & Hc0). exists tr0. split; [|done].
      rewrite lookup_insert_ne; [done|]. intros <-. congruence.
  - intros a' tr0 H0. rewrite Hcont. apply lookup_insert_Some in H0 as [[<- <-]|[Hne H0]].
    + cbn. rewrite lookup_insert_eq. split_and!; [done..|lia].
    + destruct (inv_bwd n d Hd a' tr0 H0) as (? & ? & ?). rewrite lookup_insert_ne.
      * split_and!; [done..|lia].
      * intros E. rewrite E in Hc. congruence.
  - rewrite total_insert by done. cbn. apply Hd.
  - rewrite total_insert by done. cbn. apply Hd.
Qed.

(** ** Operations *)

Definition session_track d s : option SessionTrackData := mjoin (findSession d s).

Lemma session_track_get d s a tr :
  table_get (Sessions d) (session_key s) = Some a → tracks d !! a = Some tr →
  session_track d s = Some tr.
Proof. intros Hg Ha. unfold session_track, findSession. rewrite Hg. cbn. by rewrite Ha. Qed.

Lemma session_track_none d s : table_get (Sessions d) (session_key s) = None → session_track d s = None.
Proof. intros Hg. unfold session_track, findSession. by rewrite Hg. Qed.

Lemma find_ok n d s : dl_inv n d → is_int64 s → findSession d s = Some (session_track d s).
Proof using session_key_ok session_id_inj.
  intros Hd Hs. unfold session_track, findSession.
  destruct (get_cases n d s Hd Hs) as [[-> _]|(a & tr & -> & _ & Ha & _)]; [done|].
  cbn. by rewrite Ha.
Qed.

(** The operations of the detector, on any session at any time: assertions are
    off. *)
Inductive dl_op :=
| DlLock (s : Z)
| DlUnlock (s : Z)
| DlAdd (s memorymb : Z) (core : double)
| DlMinus (s memorymb : Z) (core : double)
| DlRemove (s : Z)
| DlReset.

Definition dl_apply d (op : dl_op) : option (Detector T) :=
  match op with
  | DlLock s => createAndLockSessionResource d s
  | DlUnlock s => unlockSessionResource d s
  | DlAdd s memorymb core => fst <$> addSessionInUseResource d s memorymb core
  | DlMinus s memorymb core => fst <$> minusSessionInUserResource d s memorymb core
  | DlRemove s => fst <$> removeSession d s
  | DlReset => resetResourceDeadLockDetector d
  end.

Definition op_session (op : dl_op) : option Z :=
  match op with
  | DlLock s | DlUnlock s | DlAdd s _ _ | DlMinus s _ _ | DlRemove s => Some s
  | DlReset => None
  end.

(** By how much the locked total differs from the memory of the locked sessions
    after an operation, when it differed by [n] before. *)
Definition drift d (op : dl_op) (n : Z) : Z :=
  match op_session op with
  | None => 0
  | Some s =>
    match session_track d s with
    | None => n
    | Some tr =>
      match op with
      | DlLock _ => if Locked tr then n + InUseTotalMemoryMB tr else n
      | DlUnlock _ => if Locked tr then n else n - InUseTotalMemoryMB tr
      | DlAdd _ memorymb _ => if Locked tr then n - memorymb else n
      | DlMinus _ memorymb _ => if Locked tr then n + memorymb else n
      | DlRemove _ => if Locked tr then n + InUseTotalMemoryMB tr else n
      | DlReset => 0
      end
    end
  end.

(** Only a session that is not locked is locked, charged, relieved or removed,
    and only one that is locked is unlocked. *)
Definition respectful d (op : dl_op) : bool :=
  match op_session op with
  | None => true
  | Some s =>
    match session_track d s with
    | None => true
    | Some tr => match op with DlUnlock _ => Locked tr | _ => negb (Locked tr) end
    end
  end.

Lemma drift_respectful d op : respectful d op = true → drift d op 0 = 0.
Proof.
  unfold respectful, drift. destruct (op_session op); [|done]. destruct (session_track d _) as [tr|]; [|done].
  destruct op; try done; by destruct (Locked tr).
Qed.

Lemma lock_track_ok n d a tr :
  dl_inv n d → tracks d !! a = Some tr →
  ∃ d', lock_track d a = Some d' ∧ dl_inv (if Locked tr then n + InUseTotalMemoryMB tr else n) d'.
Proof.
  intros Hd Ha. unfold lock_track. rewrite Ha. cbn. eexists. split; [done|].
  apply (inv_rewrite n _ d a tr); [done..| |]; cbn.
  - rewrite Z.sub_add. rewrite (inv_inuse n d Hd). symmetry. apply u32_id, u32_range.
  - unfold locked_memory. cbn. destruct (Locked tr); f_equal; lia.
Qed.

Lemma lock_ok n d s :
  dl_inv n d → is_int64 s →
  ∃ d', createAndLockSessionResource d s = Some d' ∧ dl_inv (drift d (DlLock s) n) d'.
Proof using session_key_ok session_id_inj.
  intros Hd Hs. unfold createAndLockSessionResource, drift, op_session.
  destruct (get_cases n d s Hd Hs) as [[Hg Hc]|(a & tr & Hg & Hc & Ha & Hid)]; rewrite Hg.
  - rewrite session_track_none by done.
    apply (lock_track_ok n _ (brk d) (mkSessionTrack s 0 d0 false)); [by apply inv_create|cbn; apply lookup_insert_eq].
  - rewrite (session_track_get d s a tr Hg Ha). by apply lock_track_ok.
Qed.

Lemma unlock_ok n d s :
  dl_inv n d → is_int64 s →
  ∃ d', unlockSessionResource d s = Some d' ∧ dl_inv (drift d (DlUnlock s) n) d'.
Proof using session_key_ok session_id_inj.
  intros Hd Hs. unfold unlockSessionResource, drift, op_session.
  destruct (get_cases n d s Hd Hs) as [[Hg Hc]|(a & tr & Hg & Hc & Ha & Hid)]; rewrite Hg;
    [rewrite session_track_none by done; by eauto|].
  rewrite (session_track_get d s a tr Hg Ha). cbn. rewrite Ha. cbn. eexists. split; [done|].
  apply (inv_rewrite n _ d a tr); [done..| |]; cbn.
  - rewrite Z.sub_add. rewrite (inv_inuse n d Hd). symmetry. apply u32_id, u32_range.
  - unfold locked_memory. cbn. destruct (Locked tr); f_equal; lia.
Qed.

Lemma locked_same n d : dl_inv n d → dl_LockedTotalMemoryMB d = u32 (dl_LockedTotalMemoryMB d).
Proof. intros Hd. rewrite (inv_locked n d Hd). symmetry. apply u32_id, u32_range. Qed.

(** The locked total is not changed while memory of the session is. *)
Lemma locked_drift n d (b : bool) m m' k :
  dl_inv n d → (∃ q, m' = m + k + q * 2 ^ 32) →
  dl_LockedTotalMemoryMB d =
    u32 (dl_LockedTotalMemoryMB d - (if b then m else 0) + (if b then m' else 0) + ((if b then n - k else n) - n)).
Proof.
  intros Hd [q Hq]. rewrite (locked_same n d Hd) at 1. apply u32_cong. destruct b; [exists (- q)|exists 0]; lia.
Qed.

Lemma add_ok n d s mem core :
  dl_inv n d → is_int64 s →
  ∃ d' code, addSessionInUseResource d s mem core = Some (d', code) ∧ dl_inv (drift d (DlAdd s mem core) n) d'.
Proof using session_key_ok session_id_inj.
  intros Hd Hs. unfold addSessionInUseResource, drift, op_session.
  destruct (get_cases n d s Hd Hs) as [[Hg _]|(a & tr & Hg & _ & Ha & Hid)]; rewrite Hg;
    [rewrite session_track_none by done; by eauto|].
  rewrite (session_track_get d s a tr Hg Ha). cbn. rewrite Ha. cbn. do 2 eexists. split; [done|].
  destruct (u32_split (InUseTotalMemoryMB tr + mem)) as [q Hq].
  apply (inv_rewrite n _ d a tr); [done..| |]; cbn.
  - apply u32_cong. exists q. lia.
  - unfold locked_memory. cbn. apply locked_drift; [done|]. exists (- q). lia.
Qed.

Lemma minus_ok n d s mem core :
  dl_inv n d → is_int64 s →
  ∃ d' code, minusSessionInUserResource d s mem core = Some (d', code) ∧ dl_inv (drift d (DlMinus s mem core) n) d'.
Proof using session_key_ok session_id_inj.
  intros Hd Hs. unfold minusSessionInUserResource, drift, op_session.
  destruct (get_cases n d s Hd Hs) as [[Hg _]|(a & tr & Hg & Hc & Ha & Hid)]; rewrite Hg;
    [rewrite session_track_none by done; by eauto|].
  rewrite (session_track_get d s a tr Hg Ha). cbn. rewrite Ha. cbn. do 2 eexists. split; [done|].
  destruct (u32_split (InUseTotalMemoryMB tr - mem)) as [q Hq].
  assert (Hin : u32 (dl_InUseTotalMemoryMB d - mem) =
    u32 (dl_InUseTotalMemoryMB d - InUseTotalMemoryMB tr + u32 (InUseTotalMemoryMB tr - mem))).
  { apply u32_cong. exists q. lia. }
  assert (Hl : dl_LockedTotalMemoryMB d = u32 (dl_LockedTotalMemoryMB d - locked_memory tr +
    (if Locked tr then u32 (InUseTotalMemoryMB tr - mem) else 0) + ((if Locked tr then n + mem else n) - n))).
  { unfold locked_memory. replace (n + mem) with (n - - mem) by lia. apply locked_drift; [done|]. exists (- q). lia. }
  destruct (Z.eqb_spec (u32 (InUseTotalMemoryMB tr - mem)) 0) as [E0|E0]; cbn [andb];
    [destruct (deqb (dsub (InUseTotalCore tr) core) d0)|].
  - rewrite E0 in Hin, Hl. apply (inv_drop n _ d s a tr); [done..| |].
    + by rewrite Hin, Z.add_0_r.
    + etrans; [exact Hl|]. f_equal. destruct (Locked tr); lia.
  - by apply (inv_rewrite n _ d a tr).
  - by apply (inv_rewrite n _ d a tr).
Qed.

Lemma remove_session_ok n d s :
  dl_inv n d → is_int64 s →
  ∃ d' code, removeSession d s = Some (d', code) ∧ dl_inv (drift d (DlRemove s) n) d'.
Proof using session_key_ok session_id_inj.
  intros Hd Hs. unfold removeSession, drift, op_session.
  destruct (get_cases n d s Hd Hs) as [[Hg _]|(a & tr & Hg & Hc & Ha & Hid)]; rewrite Hg;
    [rewrite session_track_none by done; by eauto|].
  rewrite (session_track_get d s a tr Hg Ha). cbn. rewrite Ha. cbn. do 2 eexists. split; [done|].
  apply (inv_drop n _ d s a tr); [done..|]. rewrite (locked_same n d Hd) at 1. unfold locked_memory.
  destruct (Locked tr); f_equal; lia.
Qed.

Lemma values_ok n d :
  dl_inv n d → NoDup (table_values (Sessions d)) ∧
  ∀ a, a ∈ table_values (Sessions d) ↔ is_Some (tracks d !! a).
Proof.
  intros Hd. pose proof (table_values_ok _ (inv_table n d Hd)) as Hp. split.
  - rewrite Hp. apply NoDup_fmap_2_strong; [|apply NoDup_map_to_list].
    intros [c a] [c' a'] Hc Hc' E. cbn in E. subst a'.
    apply elem_of_map_to_list in Hc, Hc'.
    destruct (inv_fwd n d Hd _ _ Hc) as (tr & ? & <-).
    destruct (inv_fwd n d Hd _ _ Hc') as (tr' & ? & <-). by simplify_eq.
  - intros a. rewrite Hp, list_elem_of_fmap. split.
    + intros ([c a'] & -> & Hc). apply elem_of_map_to_list in Hc.
      destruct (inv_fwd n d Hd _ _ Hc) as (tr & Htr & _). by exists tr.
    + intros [tr Htr]. apply (inv_bwd n d Hd) in Htr as [Hc _].
      eexists (_, a). split; [done|]. by apply elem_of_map_to_list.
Qed.

Lemma reset_ok n d :
  dl_inv n d → ∃ d', resetResourceDeadLockDetector d = Some d' ∧ dl_inv 0 d'.
Proof.
  intros Hd. destruct (values_ok n d Hd) as [Hn Hm]. unfold resetResourceDeadLockDetector.
  rewrite free_tracks_ok by done. cbn. eexists. split; [done|].
  destruct (table_clear_ok _ (inv_table n d Hd)) as [Hok He].
  constructor; cbn; [done| | |by rewrite total_empty|by rewrite total_empty].
  - intros c a. by rewrite He, lookup_empty.
  - intros a tr. by rewrite lookup_empty.
Qed.

Definition op_int64 (op : dl_op) : Prop := ∀ s, op_session op = Some s → is_int64 s.

Lemma apply_ok n d op :
  dl_inv n d → op_int64 op → ∃ d', dl_apply d op = Some d' ∧ dl_inv (drift d op n) d'.
Proof using session_key_ok session_id_inj.
  intros Hd Hop. destruct op as [s|s|s m c|s m c|s|]; cbn [dl_apply]; try specialize (Hop s eq_refl).
  - by apply lock_ok.
  - by apply unlock_ok.
  - destruct (add_ok n d s m c Hd Hop) as (d' & code & -> & Hd'). by exists d'.
  - destruct (minus_ok n d s m c Hd Hop) as (d' & code & -> & Hd'). by exists d'.
  - destruct (remove_session_ok n d s Hd Hop) as (d' & code & -> & Hd'). by exists d'.
  - by apply (reset_ok n).
Qed.

(** A sequence of operations: the detector and the difference it leaves, or
    [None] when a tracker dangles, and whether all operations are respectful. *)
Fixpoint dl_run (ops : list dl_op) d (n : Z) : option (Detector T * Z) :=
  match ops with
  | [] => Some (d, n)
  | op :: ops => d' ← dl_apply d op; dl_run ops d' (drift d op n)
  end.

Fixpoint all_respectful (ops : list dl_op) d : bool :=
  match ops with
  | [] => true
  | op :: ops => respectful d op && match dl_apply d op with Some d' => all_respectful ops d' | None => false end
  end.

Lemma dl_run_ok ops : ∀ n d,
  dl_inv n d → Forall op_int64 ops →
  ∃ d' n', dl_run ops d n = Some (d', n') ∧ dl_inv n' d' ∧ (n = 0 → all_respectful ops d = true → n' = 0).
Proof using session_key_ok session_id_inj.
  induction ops as [|op ops IH]; intros n d Hd Hops; [by exists d, n|].
  apply Forall_cons in Hops as [Hop Hops]. destruct (apply_ok n d op Hd Hop) as (d1 & E & Hd1).
  destruct (IH _ d1 Hd1 Hops) as (d' & n' & Er & Hd' & Hn). cbn [dl_run all_respectful]. rewrite E. cbn.
  exists d', n'. split; [done|]. split; [done|]. intros -> [Hr Hrs]%andb_prop. apply Hn; [|done].
  by apply drift_respectful.
Qed.

Lemma init_inv empty_table :
  table_ok empty_table → table_contents empty_table = ∅ →
  dl_inv 0 (initializeResqueueDeadLockDetector empty_table).
Proof.
  intros Hok He. constructor; cbn; [done| | |by rewrite total_empty|by rewrite total_empty].
  - intros c a. by rewrite He, lookup_empty.
  - intros a tr. by rewrite lookup_empty.
Qed.

(** Unlocking changes the memory of no session. *)
Definition memory_of d s : option Z := InUseTotalMemoryMB <$> session_track d s.

Lemma unlock_memory n d s d' s' :
  dl_inv n d → is_int64 s → is_int64 s' → unlockSessionResource d s = Some d' → memory_of d' s' = memory_of d s'.
Proof using session_key_ok session_id_inj.
  intros Hd Hs Hs'. unfold unlockSessionResource.
  destruct (get_cases n d s Hd Hs) as [[Hg Hc]|(a & tr & Hg & Hc & Ha & Hid)]; rewrite Hg; [by intros [= <-]|].
  cbn. rewrite Ha. cbn. intros [= <-]. unfold memory_of, session_track, findSession. cbn.
  destruct (get_cases n d s' Hd Hs') as [[Hg' Hc']|(a' & tr' & Hg' & Hc' & Ha' & Hid')]; rewrite Hg'; [done|].
  cbn. rewrite Ha'. destruct (decide (a' = a)) as [->|Hne].
  - rewrite lookup_insert_eq. cbn. congruence.
  - by rewrite lookup_insert_ne, Ha'.
Qed.

(** ** The check *)

(** No queued session has memory in use: the search finds none. *)
Lemma find_none n d rq :
  dl_inv n d → Forall (λ r, is_int64 (ct_SessionID r)) rq →
  Forall (λ r, default 0 (memory_of d (ct_SessionID r)) ≤ 0) rq → find_from_tail d rq = Some None.
Proof using session_key_ok session_id_inj.
  intros Hd Hs Hm. induction rq as [|r rq IH]; [done|]. apply Forall_cons in Hs as [Hr Hs]. apply Forall_cons in Hm as [Hm0 Hm].
  cbn [find_from_tail]. rewrite (find_ok n d _ Hd Hr). cbn. unfold memory_of in Hm0.
  destruct (session_track d (ct_SessionID r)) as [tr|]; cbn in Hm0; rewrite (IH Hs Hm); [|done].
  by rewrite (proj2 (Z.ltb_ge _ _)) by lia.
Qed.

(** All queued sessions have memory in use: each iteration cancels a request. *)
Lemma check_ends em ec rq : ∀ n d cancelled am ac,
  dl_inv n d → Forall (λ r, is_int64 (ct_SessionID r)) rq →
  Forall (λ r, 0 < default 0 (memory_of d (ct_SessionID r))) rq →
  ∃ st, check_loop (S (length rq)) em ec (mkCheckState d rq cancelled am ac) = Some (Some st).
Proof using session_key_ok session_id_inj.
  induction rq as [|r rq IH]; intros n d cancelled am ac Hd Hs Hm.
  { cbn [length check_loop]. unfold still_short. cbn. rewrite andb_false_r. by eexists. }
  apply Forall_cons in Hs as [Hr Hs]. apply Forall_cons in Hm as [Hm0 Hm].
  cbn [length]. cbn [check_loop]. destruct (still_short em ec _); [|by eexists].
  unfold check_iteration. cbn [cs_detector cs_rev_queue find_from_tail]. rewrite (find_ok n d _ Hd Hr). cbn [mbind option_bind].
  unfold memory_of in Hm0. destruct (session_track d (ct_SessionID r)) as [tr|]; cbn in Hm0; [|lia].
  rewrite (proj2 (Z.ltb_lt _ _) Hm0). cbn [mbind option_bind].
  destruct (unlock_ok n d _ Hd Hr) as (d' & Eu & Hd'). rewrite Eu. cbn [mbind option_bind].
  eapply IH; [exact Hd'|done|]. rewrite Forall_forall in Hm, Hs |- *. intros r' Hin.
  rewrite (unlock_memory n d (ct_SessionID r)) by auto. by apply Hm.
Qed.

End Invariant.

Section Check.
Context {T C : Type} `{Countable C} `{!KeyedTable T (list Z) C}.
Implicit Types (d : Detector T) (st : CheckState (T := T)).

Lemma find_from_tail_length d rq c t q :
  find_from_tail d rq = Some (Some (c, t, q)) → length rq = S (length q).
Proof.
  revert q. induction rq as [|req rest IH]; intros q Hf; cbn in Hf; [done|].
  destruct (findSession d (ct_SessionID req)) as [strack|]; [|done]. cbn in Hf.
  assert (Hrest : (r ← find_from_tail d rest; Some (keep_request req r)) = Some (Some (c, t, q)) →
    length (req :: rest) = S (length q)).
  { destruct (find_from_tail d rest) as [[[[c' t'] q']|]|] eqn:E; cbn; try done.
    intros [= -> -> <-]. cbn. f_equal. by apply IH. }
  destruct strack as [tr|]; [|by apply Hrest].
  destruct (0 <? InUseTotalMemoryMB tr); [|by apply Hrest]. by simplify_eq.
Qed.

(** Nothing to cancel while the request is still short: no fuel is enough. *)
Lemma check_stuck fuel em ec st :
  still_short em ec st = true →
  find_from_tail (cs_detector st) (cs_rev_queue st) = Some None →
  check_loop fuel em ec st = None.
Proof.
  intros Hs Hf. induction fuel as [|fuel IH]; [done|]. cbn. rewrite Hs.
  unfold check_iteration. rewrite Hf. cbn. by rewrite IH.
Qed.

(** As many iterations as the queue has requests, and one, settle it. *)
Lemma check_fuel_enough st em ec :
  check_loop (S (length (cs_rev_queue st))) em ec st = None →
  ∀ fuel, check_loop fuel em ec st = None.
Proof.
  remember (length (cs_rev_queue st)) as n eqn:Hn. revert st Hn.
  induction n as [n IH] using lt_wf_ind. intros st Hn H0 fuel. cbn in H0.
  destruct fuel as [|fuel]; [done|]. cbn.
  destruct (still_short em ec st) eqn:Hs; [|done].
  destruct (check_iteration st) as [st'|] eqn:Hi; [|done].
  change (check_loop n em ec st' = None) in H0. unfold check_iteration in Hi.
  destruct (find_from_tail (cs_detector st) (cs_rev_queue st)) as [[[[c t] q]|]|] eqn:Hf;
    cbn in Hi; [| |done].
  - destruct (unlockSessionResource (cs_detector st) (ct_SessionID c)) as [d'|]; [|done].
    cbn in Hi. simplify_eq. apply find_from_tail_length in Hf.
    apply (IH (length q)); [lia|done|]. by rewrite <- Hf.
  - simplify_eq. by apply check_stuck.
Qed.
End Check.

(** ** The session table of the code *)

Section SessionTable.
Definition session_keyed : KeyedTable (HASHTABLE (list Z)) (list Z) (list Z) :=
  @hashtable_keyed _ _ _ _ CHARARRAY_ops CHARARRAY_laws.
#[local] Existing Instance session_keyed.

(** The detector a resource queue starts with. *)
Definition new_detector : Detector (HASHTABLE (list Z)) :=
  initializeResqueueDeadLockDetector
    (initializeHASHTABLE HASHTABLE_SLOT_VOLUME_DEFAULT HASHTABLE_SLOT_VOLUME_DEFAULT_MAX
       false).

Lemma session_key_ok s : table_key_ok (session_key s).
Proof.
  cbn. unfold session_key. split.
  - by apply (Z_to_little_endian_bound 8 8).
  - rewrite length_le_bytes by lia. cbn. lia.
Qed.

Lemma session_id_inj s s' :
  is_int64 s → is_int64 s' → table_id (session_key s) = table_id (session_key s') → s = s'.
Proof.
  unfold is_int64. cbn. unfold session_key. intros Hs Hs' E.
  apply (f_equal (little_endian_to_Z 8)) in E.
  rewrite !little_endian_to_Z_to_little_endian in E by lia.
  change (2 ^ (8 * 8)) with (2 ^ 64) in E.
  rewrite <- (s64_id s), <- (s64_id s'), <- (s64_mod s), <- (s64_mod s') by lia. by rewrite E.
Qed.

Lemma new_table_ok :
  table_ok (Sessions new_detector) ∧ table_contents (Sessions new_detector) = ∅.
Proof.
  apply (@initialize_ok _ _ _ _ CHARARRAY_ops CHARARRAY_laws);
    unfold HASHTABLE_SLOT_VOLUME_DEFAULT, HASHTABLE_SLOT_VOLUME_DEFAULT_MAX; lia.
Qed.

(** ** Theorems *)

Lemma new_detector_inv : dl_inv 0 new_detector.
Proof. destruct new_table_ok. by apply init_inv. Qed.

(** C20. On every sequence of operations, on any sessions in any order, no
    operation ever follows a dangling tracker or frees one twice, every tracker
    in memory is the one its session finds, and the memory in use is the sum,
    modulo 32 bits, over the trackers.  The locked memory is the sum over the
    locked trackers and a difference: that of the operations which lock a
    locked session again, unlock one that is not locked, or charge, relieve or
    remove a locked session.  It is the sum itself when there are none of
    these since the start. *)
Theorem deadlock_totals_exact ops :
  Forall op_int64 ops →
  ∃ d n, dl_run ops new_detector 0 = Some (d, n) ∧
    dl_InUseTotalMemoryMB d = u32 (total InUseTotalMemoryMB (tracks d)) ∧
    dl_LockedTotalMemoryMB d = u32 (total locked_memory (tracks d) + n) ∧
    (all_respectful ops new_detector = true → n = 0) ∧
    ∀ a tr, tracks d !! a = Some tr → session_track d (SessionID tr) = Some tr.
Proof.
  intros Hops. destruct (dl_run_ok session_key_ok session_id_inj ops 0 new_detector new_detector_inv Hops)
    as (d & n & E & Hd & Hn). exists d, n. split; [done|]. split; [apply Hd|]. split; [apply Hd|]. split; [by apply Hn|].
  intros a tr Ha. destruct (inv_bwd n d Hd a tr Ha) as (Hc & Hs & _).
  apply session_track_get with a; [|done]. rewrite table_get_ok; [done|apply Hd|apply session_key_ok].
Qed.

(** C22. When the deadlock check ends.  For any detector and queue it ends within
    one more iteration than there are queued requests or never.  In a detector
    that operations have led to, it ends when every queued session has memory
    in use, and it never ends when none has, the first request is short of
    memory or cores, and the request does not ask for more than the queue may
    ever have of both: the test for requests that cannot be satisfied is a
    conjunction, and the loop has no other exit. *)
Theorem deadlock_check_may_hang ops d n maxmb maxcore req queue :
  let expmemorymb := u32 (ct_SegMemoryMB req * ct_SegNumMin req) in
  let expcore := dmul (ct_SegCore req) (double_of_Z (ct_SegNumMin req)) in
  let availmemorymb := u32 (maxmb - dl_LockedTotalMemoryMB d) in
  let availcore := dsub maxcore (dl_LockedTotalCore d) in
  Forall op_int64 ops → dl_run ops new_detector 0 = Some (d, n) →
  Forall (λ r, is_int64 (ct_SessionID r)) (req :: queue) →
  (Forall (λ r, 0 < default 0 (memory_of d (ct_SessionID r))) (req :: queue) →
     ∃ st, detectAndDealWithDeadLock (S (length (req :: queue))) maxmb maxcore d (req :: queue) = Some (Some st)) ∧
  (Forall (λ r, default 0 (memory_of d (ct_SessionID r)) ≤ 0) (req :: queue) →
   (availmemorymb <? expmemorymb) || dltb availcore expcore = true →
   (u32 maxmb <? expmemorymb) && dltb maxcore expcore = false →
     ∀ fuel, detectAndDealWithDeadLock fuel maxmb maxcore d (req :: queue) = None) ∧
  (∀ d queue, detectAndDealWithDeadLock (S (length queue)) maxmb maxcore d queue = None →
     ∀ fuel, detectAndDealWithDeadLock fuel maxmb maxcore d queue = None).
Proof.
  intros em ec am ac Hops Hrun Hs.
  destruct (dl_run_ok session_key_ok session_id_inj ops 0 new_detector new_detector_inv Hops) as (d1 & n1 & E & Hd & _).
  rewrite Hrun in E. injection E as <- <-.
  assert (Hs' : Forall (λ r, is_int64 (ct_SessionID r)) (reverse (req :: queue))) by by apply Forall_reverse.
  split_and!.
  - intros Hm. unfold detectAndDealWithDeadLock. case_match; [by eexists|]. rewrite <- length_reverse.
    apply (check_ends session_key_ok session_id_inj _ _ _ n); [done..|by apply Forall_reverse].
  - intros Hm Hshort Hboth fuel. unfold detectAndDealWithDeadLock. fold em ec am ac. rewrite Hboth.
    apply check_stuck; cbn [cs_detector cs_rev_queue].
    + unfold still_short. cbn [cs_availmemorymb cs_availcore cs_rev_queue]. rewrite Hshort, length_reverse. done.
    + apply (find_none session_key_ok session_id_inj n); [done..|by apply Forall_reverse].
  - intros d' queue' Hn fuel. unfold detectAndDealWithDeadLock in *.
    destruct queue' as [|firstreq queue']; [done|]. case_match; [done|].
    apply check_fuel_enough. cbn [cs_rev_queue]. by rewrite length_reverse.
Qed.
End SessionTable.

(** ** Witnesses: session 7 with 100 MB and half a core in use *)

#[local] Instance demo_keyed : KeyedTable (HASHTABLE (list Z)) (list Z) (list Z) :=
  session_keyed.

Definition or_new (o : option (Detector (HASHTABLE (list Z)))) :=
  default (new_detector) o.

Definition half : double := S754_finite false 4503599627370496 (-53).
Definition demo_ops : list dl_op := [DlLock 7; DlUnlock 7; DlAdd 7 100 half; DlLock 7; DlMinus 7 30 d0; DlUnlock 7].
Definition demo2 := or_new (fst <$> dl_run (take 2 demo_ops) new_detector 0).

Lemma demo_ops_int64 : Forall op_int64 demo_ops.
Proof. rewrite Forall_forall. intros op Hop s Hs. repeat (apply elem_of_cons in Hop as [->|Hop]; [injection Hs as <-; done|]). by apply elem_of_nil in Hop. Qed.

(** Returning memory of a locked session leaves the locked total too high for
    good. *)
Lemma deadlock_totals_exact_witness :
  ∃ d, dl_run demo_ops new_detector 0 = Some (d, 30) ∧ dl_LockedTotalMemoryMB d = 30 ∧
    total locked_memory (tracks d) = 0 ∧ dl_InUseTotalMemoryMB d = u32 (total InUseTotalMemoryMB (tracks d)).
Proof.
  destruct (deadlock_totals_exact demo_ops demo_ops_int64) as (d & n & E & Hin & Hl & _).
  vm_compute in E. injection E as <- <-.
  eexists. split; [vm_compute; reflexivity|]. split; [vm_compute; reflexivity|]. split; [vm_compute; reflexivity|exact Hin].
Defined.

Lemma deadlock_check_may_hang_witness :
  detectAndDealWithDeadLock 1000 1024 half new_detector [mkConnectionTrack 7 600 d0 2] = None.
Proof.
  refine (proj1 (proj2 (deadlock_check_may_hang [] new_detector 0 1024 half
    (mkConnectionTrack 7 600 d0 2) [] _ _ _)) _ _ _ 1000%nat); [constructor|reflexivity| | |reflexivity|reflexivity].
  - repeat constructor; discriminate.
  - repeat constructor. vm_compute. discriminate.
Defined.

(** Rounding of doubles can keep the tracker of an idle session: after taking
    and returning 0.1 and 0.2 cores the sum is not zero. *)
Definition tenth : double := S754_finite false 7205759403792794 (-56).
Definition fifth : double := S754_finite false 7205759403792794 (-55).

Lemma idle_tracker_kept :
  session_track
    (or_new (fst <$> minusSessionInUserResource
      (or_new (fst <$> minusSessionInUserResource
        (or_new (fst <$> addSessionInUseResource
          (or_new (fst <$> addSessionInUseResource demo2 7 1 tenth)) 7 1 fifth))
        7 1 tenth)) 7 1 fifth)) 7
  = Some (mkSessionTrack 7 0 (S754_finite false 4503599627370496 (-107)) false).
Proof. vm_compute. reflexivity. Qed.
