(* ===== verification/Store.v ===== *)
(** Memory reached through pointers.

    Code that links records by pointers is modelled over a store of records
    of one type: a finite map from addresses to records, with an allocator.
    Address 0 is NULL and is never allocated.  Operations are in a state
    monad that fails when a NULL or freed pointer is followed, so that a
    theorem that an operation returns is a theorem that it is memory safe. *)
From stdpp Require Import prelude gmap.
From S2P Require Import Prelude.

Record Store (N : Type) := mkStore {
  cells : gmap Z N;
  brk : Z          (** the next address the allocator returns *)
}.
Arguments mkStore {N} cells brk.
Arguments cells {N} s.
Arguments brk {N} s.

Definition NULL : Z := 0.

(** Results of code over a store: [None] is a fault. *)
Definition M (N A : Type) : Type := Store N → option (A * Store N).

Definition ret {N A} (a : A) : M N A := λ h, Some (a, h).
Definition bind {N A B} (m : M N A) (f : A → M N B) : M N B :=
  λ h, match m h with Some (a, h) => f a h | None => None end.
Definition fault {N A} : M N A := λ _, None.

Declare Scope store_scope.
Delimit Scope store_scope with store.
Notation "'do' x '<-' m ';' k" := (bind m (λ x, k))
  (at level 200, x pattern, m at level 100, k at level 200, right associativity) : store_scope.
Notation "m ';;;' k" := (bind m (λ _, k))
  (at level 199, k at level 200, right associativity) : store_scope.
Bind Scope store_scope with M.

Section Access.
Context {N : Type}.

Definition load (p : Z) : M N N :=
  λ h, match cells h !! p with Some n => Some (n, h) | None => None end.

Definition modify (p : Z) (f : N → N) : M N unit :=
  λ h, match cells h !! p with
       | Some n => Some (tt, mkStore (<[p := f n]> (cells h)) (brk h))
       | None => None
       end.

(** [rm_palloc0] of a record: a new address. *)
Definition alloc (n : N) : M N Z :=
  λ h, Some (brk h, mkStore (<[brk h := n]> (cells h)) (brk h + 1)).

Definition dealloc (p : Z) : M N unit :=
  λ h, match cells h !! p with
       | Some _ => Some (tt, mkStore (delete p (cells h)) (brk h))
       | None => None
       end.

(** Addresses in use are positive and below the allocator's next one. *)
Definition store_ok (h : Store N) : Prop :=
  0 < brk h ∧ ∀ p n, cells h !! p = Some n → 0 < p < brk h.

Lemma load_ok h p n : cells h !! p = Some n → load p h = Some (n, h).
Proof. unfold load. by intros ->. Qed.

Lemma modify_ok h p n f :
  cells h !! p = Some n →
  modify p f h = Some (tt, mkStore (<[p := f n]> (cells h)) (brk h)).
Proof. unfold modify. by intros ->. Qed.

Lemma store_ok_fresh h : store_ok h → cells h !! brk h = None.
Proof.
  intros [_ Hok]. destruct (cells h !! brk h) eqn:E; [|done]. apply Hok in E. lia.
Qed.

Lemma store_ok_null h : store_ok h → cells h !! NULL = None.
Proof.
  intros [_ Hok]. destruct (cells h !! NULL) eqn:E; [|done]. apply Hok in E.
  unfold NULL in *. lia.
Qed.

Lemma store_ok_insert h p n n' :
  store_ok h → cells h !! p = Some n → store_ok (mkStore (<[p := n']> (cells h)) (brk h)).
Proof.
  intros [Hb Hok] Hp. split; [done|]. intros q m Hq. simpl in *.
  apply lookup_insert_Some in Hq as [[<- _]|[_ Hq]]; by eapply Hok.
Qed.

Lemma store_ok_ins m b p n :
  store_ok (mkStore m b) → is_Some (m !! p) → store_ok (mkStore (<[p := n]> m) b).
Proof. intros Hok [n' Hp]. by eapply (store_ok_insert (mkStore m b)). Qed.

Lemma store_ok_alloc h n :
  store_ok h → store_ok (mkStore (<[brk h := n]> (cells h)) (brk h + 1)).
Proof.
  intros [Hb Hok]. split; simpl; [lia|]. intros q m Hq.
  apply lookup_insert_Some in Hq as [[<- _]|[_ Hq]]; [lia|]. apply Hok in Hq. lia.
Qed.

Lemma store_ok_delete h p : store_ok h → store_ok (mkStore (delete p (cells h)) (brk h)).
Proof.
  intros [Hb Hok]. split; [done|]. intros q m Hq. simpl in *.
  apply lookup_delete_Some in Hq as [_ Hq]. by eapply Hok.
Qed.

(** ** Running code *)

Lemma bind_ret {A B} (a : A) (k : A → M N B) h : bind (ret a) k h = k a h.
Proof. done. Qed.

Lemma bind_bind {A B D} (m : M N A) (f : A → M N B) (k : B → M N D) h :
  bind (bind m f) k h = bind m (λ x, bind (f x) k) h.
Proof. unfold bind. by destruct (m h) as [[]|]. Qed.

Lemma bind_load {B} p n (k : N → M N B) h :
  cells h !! p = Some n → bind (load p) k h = k n h.
Proof. unfold bind, load. by intros ->. Qed.

Lemma bind_modify {B} p n f (k : unit → M N B) h :
  cells h !! p = Some n →
  bind (modify p f) k h = k tt (mkStore (<[p := f n]> (cells h)) (brk h)).
Proof. unfold bind, modify. by intros ->. Qed.

Lemma bind_alloc {B} n (k : Z → M N B) h :
  bind (alloc n) k h = k (brk h) (mkStore (<[brk h := n]> (cells h)) (brk h + 1)).
Proof. done. Qed.

Lemma bind_dealloc {B} p n (k : unit → M N B) h :
  cells h !! p = Some n →
  bind (dealloc p) k h = k tt (mkStore (delete p (cells h)) (brk h)).
Proof. unfold bind, dealloc. by intros ->. Qed.

Lemma bind_run {A B} (m : M N A) a (k : A → M N B) h h' :
  m h = Some (a, h') → bind m k h = k a h'.
Proof. unfold bind. by intros ->. Qed.
End Access.

(** Run the next access of a program: its lookup is solved by rewriting the
    map updates before it. *)
Ltac find_cell :=
  cbn [cells brk];
  repeat first [ rewrite lookup_insert_eq by done | rewrite lookup_insert_ne by (done || congruence || lia) ];
  first [ reflexivity | eassumption ].

Ltac run_step :=
  first
    [ rewrite bind_bind
    | rewrite bind_ret
    | rewrite bind_alloc
    | erewrite bind_load by find_cell
    | erewrite bind_modify by find_cell
    | erewrite bind_dealloc by find_cell ].

(** The store stays well formed under updates of cells in use. *)
Ltac store_solve :=
  cbn [cells brk];
  repeat (apply store_ok_ins; [|eexists; find_cell]);
  match goal with
  | H : store_ok ?h |- store_ok (mkStore (cells ?h) (brk ?h)) => destruct h; exact H
  | H : store_ok ?h |- store_ok ?h => exact H
  end.
