(* ===== verification/DQueue.v ===== *)
(** The doubly linked queue of the resource manager
    (backend/resourcemanager/utils/linkedlist.c,
    include/utils/linkedlist.h).

    A queue is a record of head, tail and free-list pointers and a count; its
    nodes live in a store ([Store]).  An operation takes the queue record and
    returns it changed, in the store monad.  [int] counts are 32-bit.  The
    operations on the queue with a lock ([DSafeQueue]) are those on its queue
    between taking and releasing the lock; they are modelled as the atomic
    steps the lock makes them. *)
From stdpp Require Import prelude numbers list gmap.
From S2P Require Import Prelude Store.
Open Scope store_scope.

Record DQueueNodeData := mkDQueueNode {
  Data : Z;
  Next : Z;
  Prev : Z
}.

Definition set_Data (v : Z) (n : DQueueNodeData) := mkDQueueNode v (Next n) (Prev n).
Definition set_Next (v : Z) (n : DQueueNodeData) := mkDQueueNode (Data n) v (Prev n).
Definition set_Prev (v : Z) (n : DQueueNodeData) := mkDQueueNode (Data n) (Next n) v.

Record DQueue := mkDQueue {
  Head : Z;
  Tail : Z;
  Free : Z;
  NodeCount : Z
}.

Definition set_Head (v : Z) (q : DQueue) := mkDQueue v (Tail q) (Free q) (NodeCount q).
Definition set_Tail (v : Z) (q : DQueue) := mkDQueue (Head q) v (Free q) (NodeCount q).
Definition set_Free (v : Z) (q : DQueue) := mkDQueue (Head q) (Tail q) v (NodeCount q).
Definition set_NodeCount (v : Z) (q : DQueue) := mkDQueue (Head q) (Tail q) (Free q) v.

Abbreviation Q A := (M DQueueNodeData A).

Definition initializeDQueue : DQueue := mkDQueue NULL NULL NULL 0.

(** [while ( list->Free != NULL )]: at most as many iterations as there are
    nodes in the store. *)
Fixpoint clean_loop (fuel : nat) (q : DQueue) : Q DQueue :=
  match fuel with
  | 0%nat => fault
  | S fuel =>
    if Free q =? NULL then ret q
    else
      do n <- load (Free q);
      dealloc (Free q);;;
      clean_loop fuel (set_Free (Next n) q)
  end.

Definition cleanDQueue (q : DQueue) : Q DQueue :=
  λ h, clean_loop (S (size (cells h))) q h.

Definition getDQueueHeadNodeData (q : DQueue) : Q Z :=
  if 0 <? NodeCount q then do n <- load (Head q); ret (Data n) else ret NULL.

Fixpoint walk (index : nat) (p : Z) : Q Z :=
  match index with
  | 0%nat => ret p
  | S index => do n <- load p; walk index (Next n)
  end.

Definition getDQueueNodeByIndex (q : DQueue) (index : nat) : Q Z := walk index (Head q).

Definition getDQueueNodeDataByIndex (q : DQueue) (index : nat) : Q Z :=
  do p <- walk index (Head q); do n <- load p; ret (Data n).

(** A node from the free list, or a new one. *)
Definition get_node (q : DQueue) : Q (Z * DQueue) :=
  if negb (Free q =? NULL) then
    do n <- load (Free q);
    modify (Free q) (λ n, set_Prev NULL (set_Next NULL n));;;
    ret (Free q, set_Free (Next n) q)
  else
    do p <- alloc (mkDQueueNode NULL NULL NULL);
    ret (p, q).

Definition insertDQueueHeadNode (q : DQueue) (data : Z) : Q DQueue :=
  do r <- get_node q;
  let newnode := r.1 in
  let q := r.2 in
  modify newnode (set_Data data);;;
  (if 0 <? NodeCount q then
     modify newnode (set_Next (Head q));;;
     modify (Head q) (set_Prev newnode);;;
     ret (set_NodeCount (s32 (NodeCount q + 1)) (set_Head newnode q))
   else
     ret (set_NodeCount (s32 (NodeCount q + 1)) (set_Head newnode (set_Tail newnode q)))).

Definition insertDQueueTailNode (q : DQueue) (data : Z) : Q DQueue :=
  do r <- get_node q;
  let newnode := r.1 in
  let q := r.2 in
  modify newnode (set_Data data);;;
  (if 0 <? NodeCount q then
     modify (Tail q) (set_Next newnode);;;
     modify newnode (set_Prev (Tail q));;;
     ret (set_NodeCount (s32 (NodeCount q + 1)) (set_Tail newnode q))
   else
     ret (set_NodeCount (s32 (NodeCount q + 1)) (set_Tail newnode (set_Head newnode q)))).

(** Unlink a node: the four cases of [removeDQueueNode]. *)
Definition unlink (q : DQueue) (node : Z) (n : DQueueNodeData) : Q DQueue :=
  if negb (Prev n =? NULL) && negb (Next n =? NULL) then
    modify (Prev n) (set_Next (Next n));;;
    modify (Next n) (set_Prev (Prev n));;;
    modify node (set_Next NULL);;;
    modify node (set_Prev NULL);;;
    ret q
  else if negb (Prev n =? NULL) then
    modify (Prev n) (set_Next NULL);;;
    modify node (set_Prev NULL);;;
    ret (set_Tail (Prev n) q)
  else if negb (Next n =? NULL) then
    modify (Next n) (set_Prev NULL);;;
    modify node (set_Next NULL);;;
    ret (set_Head (Next n) q)
  else
    ret (set_Tail NULL (set_Head NULL q)).

Definition removeDQueueNode (q : DQueue) (node : Z) : Q (Z * DQueue) :=
  do n <- load node;
  do q <- unlink (set_NodeCount (s32 (NodeCount q - 1)) q) node n;
  modify node (set_Next (Free q));;;
  modify node (set_Data NULL);;;
  ret (Data n, set_Free node q).

Definition removeDQueueHeadNode (q : DQueue) : Q (Z * DQueue) :=
  if NodeCount q =? 0 then ret (NULL, q) else removeDQueueNode q (Head q).

Definition removeDQueueTailNode (q : DQueue) : Q (Z * DQueue) :=
  if NodeCount q =? 0 then ret (NULL, q) else removeDQueueNode q (Tail q).

Fixpoint removeAll_loop (fuel : nat) (q : DQueue) (p : Z) : Q DQueue :=
  match fuel with
  | 0%nat => fault
  | S fuel =>
    if p =? NULL then ret q
    else
      do n <- load p;
      modify p (λ _, mkDQueueNode NULL (Free q) NULL);;;
      removeAll_loop fuel (set_Free p q) (Next n)
  end.

Definition removeAllDQueueNodes (q : DQueue) : Q DQueue :=
  if NodeCount q =? 0 then ret q
  else λ h,
    (do q <- removeAll_loop (S (size (cells h))) q (Head q);
     ret (mkDQueue NULL NULL (Free q) 0)) h.

(** ** The queue with a lock *)

(** One iteration of the loop of [moveDQueueNodeOut]. *)
Definition move_one (q target : DQueue) (fromhead : bool) : Q (DQueue * DQueue) :=
  do r <- removeDQueueNode q (if fromhead then Head q else Tail q);
  let data := r.1 in
  let q := r.2 in
  do node <- load (Free q);
  let p := Free q in
  modify p (λ _, mkDQueueNode NULL (Free target) NULL);;;
  let q := set_Free (Next node) q in
  let target := set_Free p target in
  do target <- (if fromhead then insertDQueueTailNode target data
                else insertDQueueHeadNode target data);
  ret (q, target).

(** [max] iterations at most; the third component is [QueueLength]. *)
Fixpoint move_loop (max : nat) (q target : DQueue) (fromhead : bool)
    : Q (DQueue * DQueue) :=
  match max with
  | 0%nat => ret (q, target)
  | S max =>
    if 0 <? NodeCount q then
      do r <- move_one q target fromhead;
      move_loop max r.1 r.2 fromhead
    else ret (q, target)
  end.

Definition moveDQueueNodeOut (q target : DQueue) (max : Z) (fromhead : bool)
    : Q (DQueue * DQueue * Z) :=
  do r <- move_loop (Z.to_nat max) q target fromhead;
  ret (r.1, r.2, NodeCount r.1).

Definition moveDQueueNodeIn (q source : DQueue) (tohead : bool) : Q (DQueue * option Z) :=
  if NodeCount source =? 0 then ret (q, None)
  else
    do q <- (if tohead then
               modify (Tail source) (set_Next (Head q));;;
               ret (set_Head (Head source) q)
             else if NodeCount q =? 0 then
               ret (set_Tail (Tail source) (set_Head (Head source) q))
             else
               modify (Tail q) (set_Next (Head source));;;
               ret (set_Tail (Tail source) q));
    let q := set_NodeCount (s32 (NodeCount q + NodeCount source)) q in
    ret (q, Some (NodeCount q)).

Definition swapDQueues (list1 list2 : DQueue) : DQueue * DQueue := (list2, list1).

(** ** Representation

    A queue holds a list of nodes, each with its address and its data. *)

Abbreviation cellmap := (gmap Z DQueueNodeData).
Implicit Types (m : cellmap) (l : list (Z * Z)) (fl : list Z) (q : DQueue).

Definition first l (next : Z) : Z := match l with [] => next | p :: _ => p.1 end.
Definition final l (prev : Z) : Z := match last l with None => prev | Some p => p.1 end.

Fixpoint dll m (prev : Z) l (next : Z) : Prop :=
  match l with
  | [] => True
  | p :: l => m !! p.1 = Some (mkDQueueNode p.2 (first l next) prev) ∧ dll m p.1 l next
  end.

Fixpoint flist m (p : Z) fl : Prop :=
  match fl with
  | [] => p = NULL
  | a :: fl => p = a ∧ ∃ n, m !! a = Some n ∧ flist m (Next n) fl
  end.

Record dq_rep (h : Store DQueueNodeData) q l fl : Prop := {
  rep_store : store_ok h;
  rep_list : dll (cells h) NULL l NULL;
  rep_head : Head q = first l NULL;
  rep_tail : Tail q = final l NULL;
  rep_free : flist (cells h) (Free q) fl;
  rep_nodup : NoDup (l.*1 ++ fl);
  rep_count : NodeCount q = Z.of_nat (length l);
  rep_bound : Z.of_nat (length l) < 2 ^ 31
}.

(** Nothing changes outside the nodes of the queue. *)
Definition frame m m' (own : list Z) : Prop := ∀ a, a ∉ own → m' !! a = m !! a.

Lemma first_app l1 l2 next : first (l1 ++ l2) next = first l1 (first l2 next).
Proof. by destruct l1. Qed.

Lemma final_app l1 l2 prev : final (l1 ++ l2) prev = final l2 (final l1 prev).
Proof. unfold final. rewrite last_app. by destruct (last l2). Qed.

Lemma final_cons p l prev : final (p :: l) prev = final l p.1.
Proof. unfold final. rewrite last_cons. by destruct (last l). Qed.

Lemma dll_app m prev l1 l2 next :
  dll m prev (l1 ++ l2) next ↔ dll m prev l1 (first l2 next) ∧ dll m (final l1 prev) l2 next.
Proof.
  revert prev. induction l1 as [|p l1 IH]; intros prev; simpl; [tauto|].
  rewrite IH, first_app, final_cons. tauto.
Qed.

Lemma dll_frame m m' prev l next :
  (∀ a, a ∈ l.*1 → m' !! a = m !! a) → dll m prev l next → dll m' prev l next.
Proof.
  revert prev. induction l as [|p l IH]; intros prev Hm Hl; simpl in *; [done|].
  destruct Hl as [Hp Hl]. split; [rewrite Hm by set_solver; done|].
  apply IH; [set_solver|done].
Qed.

Lemma flist_frame m m' p fl :
  (∀ a, a ∈ fl → m' !! a = m !! a) → flist m p fl → flist m' p fl.
Proof.
  revert p. induction fl as [|b fl IH]; intros p Hm Hl; simpl in *; [done|].
  destruct Hl as (-> & n & Hn & Hl). split; [done|]. exists n.
  split; [rewrite Hm by set_solver; done|]. apply IH; [set_solver|done].
Qed.

Lemma dll_elem m prev l next a :
  a ∈ l.*1 → dll m prev l next → is_Some (m !! a).
Proof.
  revert prev. induction l as [|p l IH]; intros prev Ha Hl; simpl in *; [set_solver|].
  destruct Hl as [Hp Hl]. apply elem_of_cons in Ha as [->|Ha]; [by eexists|by eapply IH].
Qed.

(** A node is taken from the free list or is new. *)
Definition taken (h : Store DQueueNodeData) fl (a : Z) fl' : Prop :=
  fl = a :: fl' ∨ fl = [] ∧ fl' = [] ∧ cells h !! a = None.

Lemma get_node_ok h q l fl :
  dq_rep h q l fl →
  ∃ a f h1 fl' d0,
    get_node q h = Some ((a, set_Free f q), h1) ∧ store_ok h1 ∧
    cells h1 !! a = Some (mkDQueueNode d0 NULL NULL) ∧
    frame (cells h) (cells h1) [a] ∧ flist (cells h1) f fl' ∧
    NoDup (a :: l.*1 ++ fl') ∧ taken h fl a fl'.
Proof.
  intros [Hs Hl Hh Ht Hf Hn Hc Hb]. unfold get_node.
  destruct fl as [|a fl]; simpl in Hf.
  - rewrite Hf, Z.eqb_refl. cbn [negb]. rewrite bind_alloc.
    exists (brk h), NULL. do 3 eexists. split; [by destruct q; simpl in Hf; rewrite Hf|].
    pose proof (store_ok_fresh h Hs) as Hfresh.
    split; [by apply store_ok_alloc|]. split; [apply lookup_insert_eq|].
    split; [|split; [|split]].
    + intros b Hb'. simpl. rewrite lookup_insert_ne; [done|set_solver].
    + by instantiate (1 := []).
    + apply NoDup_cons. split; [|done]. rewrite app_nil_r. intros Hin.
      destruct (dll_elem _ _ _ _ _ Hin Hl) as [? ?]. congruence.
    + right. done.
  - destruct Hf as (Hfa & n & Hna & Hfl). rewrite Hfa.
    pose proof (proj2 Hs _ _ Hna). rewrite (proj2 (Z.eqb_neq a NULL)) by (unfold NULL; lia).
    cbn [negb]. do 2 run_step. exists a, (Next n). eexists. exists fl, (Data n).
    split; [done|]. apply NoDup_app in Hn as (Hn1 & Hn2 & Hn3).
    apply NoDup_cons in Hn3 as [Hna' Hn3].
    split; [by eapply store_ok_insert|]. split; [apply lookup_insert_eq|].
    split; [|split; [|split]].
    + intros b Hb'. simpl. rewrite lookup_insert_ne; [done|set_solver].
    + eapply flist_frame; [|done]. intros b Hb'. simpl. rewrite lookup_insert_ne; [done|].
      set_solver.
    + apply NoDup_cons. split; [set_solver|]. apply NoDup_app. set_solver.
    + by left.
Qed.

(** The addresses a queue owns. *)
Definition own l fl : list Z := l.*1 ++ fl.

Lemma frame_insert m m' (s : list Z) a n :
  a ∈ s → frame m m' s → frame m (<[a:=n]> m') s.
Proof.
  intros Ha Hf b Hb. rewrite lookup_insert_ne; [by apply Hf|]. intros ->. done.
Qed.

Lemma frame_weaken m m' (s s' : list Z) :
  (∀ a, a ∈ s → a ∈ s') → frame m m' s → frame m m' s'.
Proof. intros Hs Hf a Ha. apply Hf. auto. Qed.

Lemma insert_head_ok h q l fl data :
  dq_rep h q l fl → Z.of_nat (length l) + 1 < 2 ^ 31 →
  ∃ h' q' a fl', insertDQueueHeadNode q data h = Some (q', h') ∧
    dq_rep h' q' ((a, data) :: l) fl' ∧ taken h fl a fl' ∧
    frame (cells h) (cells h') (a :: own l fl).
Proof.
  intros Hr Hb. destruct (get_node_ok h q l fl Hr) as (a & f & h1 & fl' & dd & E & S1 & A1 & F1 & L1 & N1 & T1).
  destruct Hr as [Hs Hl Hh Ht Hf Hn Hc _]. apply NoDup_cons in N1 as [Hna N1].
  assert (Hl1 : dll (cells h1) NULL l NULL).
  { eapply dll_frame; [|done]. intros b Hb'. apply F1. set_solver. }
  unfold insertDQueueHeadNode. rewrite (bind_run _ _ _ _ _ E). cbn [fst snd].
  run_step. cbn [NodeCount set_Free]. rewrite Hc.
  destruct l as [|[b db] l]; cbn [length].
  - rewrite (proj2 (Z.ltb_ge 0 _)) by lia. do 2 eexists. exists a, fl'. split; [done|].
    split; [|split; [done|]].
    + constructor; cbn; [by eapply store_ok_insert| | | | | | |lia].
      * split; [|done]. by rewrite lookup_insert_eq.
      * done.
      * done.
      * eapply flist_frame; [|done]. intros c Hc'. rewrite lookup_insert_ne; [done|set_solver].
      * apply NoDup_cons. split; [set_solver|done].
      * rewrite s32_id by lia. lia.
    + cbn. apply frame_insert; [set_solver|]. eapply frame_weaken, F1. set_solver.
  - destruct Hl1 as [Hb1 Hl1]. cbn in Hb1, Hl1.
    rewrite (proj2 (Z.ltb_lt 0 _)) by lia. cbn [Head set_Free]. rewrite Hh. cbn [first].
    assert (Hab : a ≠ b) by set_solver.
    do 2 run_step. do 2 eexists. exists a, fl'. split; [done|]. split; [|split; [done|]].
    + constructor; cbn; [| | | | | | |cbn in Hb; lia].
      * store_solve.
      * split; [by find_cell|]. split; [by find_cell|].
        eapply dll_frame; [|done]. intros c Hc'. cbn.
        apply NoDup_app in N1 as (N1 & _). apply NoDup_cons in N1 as [N1 _].
        rewrite !lookup_insert_ne; [done| | |]; set_solver.
      * done.
      * by rewrite Ht, !final_cons.
      * eapply flist_frame; [|done]. intros c Hc'. apply NoDup_app in N1 as (_ & N1 & _).
        rewrite !lookup_insert_ne; [done| | |]; set_solver.
      * apply NoDup_cons. split; [set_solver|done].
      * rewrite s32_id by (cbn in Hb; lia). lia.
    + cbn. repeat (apply frame_insert; [set_solver|]). eapply frame_weaken, F1. set_solver.
Qed.

Lemma dll_snoc m prev l p next :
  dll m prev (l ++ [p]) next ↔
  dll m prev l p.1 ∧ m !! p.1 = Some (mkDQueueNode p.2 next (final l prev)).
Proof. rewrite dll_app. simpl. tauto. Qed.

Lemma final_snoc l p prev : final (l ++ [p]) prev = p.1.
Proof. by rewrite final_app. Qed.

Lemma dll_insert_other m prev l next a n :
  a ∉ l.*1 → dll m prev l next → dll (<[a:=n]> m) prev l next.
Proof.
  intros Ha. apply dll_frame. intros b Hb. rewrite lookup_insert_ne; [done|]. by intros ->.
Qed.

Lemma flist_insert_other m p fl a n : a ∉ fl → flist m p fl → flist (<[a:=n]> m) p fl.
Proof.
  intros Ha. apply flist_frame. intros b Hb. rewrite lookup_insert_ne; [done|]. by intros ->.
Qed.

(** The lists of a queue after updates of cells they do not have. *)
Ltac list_solve :=
  cbn [cells];
  repeat first
    [ apply dll_insert_other; [done || set_solver|]
    | apply flist_insert_other; [done || set_solver|] ];
  done.

Lemma insert_tail_ok h q l fl data :
  dq_rep h q l fl → Z.of_nat (length l) + 1 < 2 ^ 31 →
  ∃ h' q' a fl', insertDQueueTailNode q data h = Some (q', h') ∧
    dq_rep h' q' (l ++ [(a, data)]) fl' ∧ taken h fl a fl' ∧
    frame (cells h) (cells h') (a :: own l fl).
Proof.
  intros Hr Hb.
  destruct (get_node_ok h q l fl Hr) as (a & f & h1 & fl' & dd & E & S1 & A1 & F1 & L1 & N1 & T1).
  destruct Hr as [Hs Hl Hh Ht Hf Hn Hc _]. apply NoDup_cons in N1 as [Hna N1].
  assert (Hl1 : dll (cells h1) NULL l NULL).
  { eapply dll_frame; [|done]. intros b Hb'. apply F1. set_solver. }
  unfold insertDQueueTailNode. rewrite (bind_run _ _ _ _ _ E). cbn [fst snd].
  run_step. cbn [NodeCount set_Free]. rewrite Hc.
  destruct l as [|[b db] l _] using rev_ind.
  - cbn [length]. rewrite (proj2 (Z.ltb_ge 0 _)) by lia. do 2 eexists. exists a, fl'.
    split; [done|]. split; [|split; [done|]].
    + constructor; cbn; [by eapply store_ok_insert| |done|done|list_solve| | |lia].
      * split; [|done]. by rewrite lookup_insert_eq.
      * apply NoDup_cons. split; [set_solver|done].
      * rewrite s32_id by lia. lia.
    + cbn. apply frame_insert; [set_solver|]. eapply frame_weaken, F1. set_solver.
  - apply dll_snoc in Hl1 as [Hl1 Hb1]. cbn in Hb1, Hl1. rewrite length_app in *. cbn in Hb |- *.
    rewrite fmap_app in Hna, N1. cbn in Hna, N1.
    assert (Hab : a ≠ b) by set_solver. assert (Hbl : b ∉ l.*1 ∧ b ∉ fl').
    { apply NoDup_app in N1 as (N1 & N2 & _). apply NoDup_app in N1 as (_ & N1 & _). set_solver. }
    rewrite (proj2 (Z.ltb_lt 0 _)) by lia. cbn [Tail set_Free]. rewrite Ht, final_snoc. cbn [fst].
    do 2 run_step. do 2 eexists. exists a, fl'. split; [done|]. split; [|split; [done|]].
    + constructor; cbn; [store_solve| | | |list_solve| | |].
      * rewrite dll_snoc. split; [rewrite dll_snoc; split; [list_solve|by find_cell]|].
        rewrite final_snoc. by find_cell.
      * by rewrite Hh, !first_app.
      * by rewrite final_snoc.
      * rewrite !fmap_app. cbn. rewrite <- (assoc_L (++) _ [a]). cbn.
        rewrite <- Permutation_middle. by apply NoDup_cons.
      * rewrite s32_id by lia. rewrite !length_app. cbn. lia.
      * rewrite !length_app. cbn. lia.
    + cbn. repeat (apply frame_insert; [unfold own; rewrite fmap_app; set_solver|]).
      eapply frame_weaken, F1. set_solver.
Qed.

(** ** Removal *)

Lemma dll_first_pos h prev l next :
  store_ok h → dll (cells h) prev l next → l ≠ [] → first l next ≠ NULL.
Proof.
  intros Hs Hl Hne. destruct l as [|p l]; [done|]. destruct Hl as [Hp _].
  apply (proj2 Hs) in Hp. cbn. unfold NULL. lia.
Qed.

Lemma dll_final_pos h prev l next :
  store_ok h → dll (cells h) prev l next → l ≠ [] → final l prev ≠ NULL.
Proof.
  intros Hs Hl Hne. destruct l as [|p l _] using rev_ind; [done|].
  apply dll_snoc in Hl as [_ Hp]. apply (proj2 Hs) in Hp. rewrite final_snoc. unfold NULL. lia.
Qed.

(** What unlinking the node of [(a, d)] leaves. *)
Record unlinked (h h1 : Store DQueueNodeData) q q1 l1 (a : Z) l2 : Prop := {
  un_store : store_ok h1;
  un_list : dll (cells h1) NULL (l1 ++ l2) NULL;
  un_head : Head q1 = first (l1 ++ l2) NULL;
  un_tail : Tail q1 = final (l1 ++ l2) NULL;
  un_free : Free q1 = Free q;
  un_count : NodeCount q1 = NodeCount q;
  un_node : is_Some (cells h1 !! a);
  un_frame : frame (cells h) (cells h1) (a :: (l1 ++ l2).*1)
}.

Lemma unlink_ok h q l1 a d l2 n :
  store_ok h → dll (cells h) NULL (l1 ++ (a, d) :: l2) NULL →
  NoDup (a :: (l1 ++ l2).*1) → cells h !! a = Some n →
  Head q = first (l1 ++ (a, d) :: l2) NULL → Tail q = final (l1 ++ (a, d) :: l2) NULL →
  Data n = d ∧ ∃ h1 q1, unlink q a n h = Some (q1, h1) ∧ unlinked h h1 q q1 l1 a l2.
Proof.
  intros Hs Hl Hn Ha Hh Ht. apply dll_app in Hl as (Hl1 & Ha' & Hl2). cbn in Ha', Hl1, Hl2.
  rewrite Ha' in Ha. injection Ha as <-. rename Ha' into Ha. split; [done|].
  unfold unlink. cbn [Prev Next].
  apply NoDup_cons in Hn as [Hna Hn]. rewrite fmap_app in Hna, Hn.
  destruct l1 as [|[p dp] l1 _] using rev_ind; destruct l2 as [|[s ds] l2].
  - cbn. do 2 eexists. split; [done|]. by split.
  - cbn in *. destruct Hl2 as [Hs1 Hl2]. apply NoDup_cons in Hn as [Hns Hn].
    rewrite (proj2 (Z.eqb_neq s NULL)) by (apply (proj2 Hs) in Hs1; unfold NULL; lia). cbn.
    assert (s ≠ a) by set_solver.
    do 2 run_step. do 2 eexists. split; [done|]. split; cbn; try done.
    + store_solve.
    + split; [by find_cell|]. list_solve.
    + eexists. by find_cell.
    + repeat (apply frame_insert; [set_solver|]). done.
  - apply dll_snoc in Hl1 as [Hl1 Hp]. cbn in Hp, Hl1. rewrite fmap_app in Hna, Hn. cbn in Hna, Hn.
    rewrite final_snoc in *. cbn [fst first] in *. rewrite app_nil_r in *.
    rewrite (proj2 (Z.eqb_neq p NULL)) by (apply (proj2 Hs) in Hp; unfold NULL; lia). cbn.
    assert (p ≠ a) by set_solver. assert (Hpl : p ∉ l1.*1).
    { apply NoDup_app in Hn as (_ & Hn & _). set_solver. }
    do 2 run_step. do 2 eexists. split; [done|]. split; cbn; try done; rewrite ?app_nil_r.
    + store_solve.
    + apply dll_snoc. split; [list_solve|by find_cell].
    + rewrite Hh, !first_app. done.
    + by rewrite final_snoc.
    + eexists. by find_cell.
    + rewrite fmap_app. cbn. repeat (apply frame_insert; [set_solver|]). done.
  - apply dll_snoc in Hl1 as [Hl1 Hp]. cbn in Hp, Hl1, Hl2. rewrite fmap_app in Hna, Hn.
    cbn in Hna, Hn. destruct Hl2 as [Hs1 Hl2]. rewrite final_snoc in *. cbn [fst first] in *.
    rewrite (proj2 (Z.eqb_neq p NULL)) by (apply (proj2 Hs) in Hp; unfold NULL; lia).
    rewrite (proj2 (Z.eqb_neq s NULL)) by (apply (proj2 Hs) in Hs1; unfold NULL; lia). cbn.
    apply NoDup_app in Hn as (Hn1 & Hn2 & Hn3). apply NoDup_cons in Hn3 as [Hn3 _].
    apply NoDup_app in Hn1 as (_ & Hn1 & _).
    rewrite !not_elem_of_app, !not_elem_of_cons in Hna. destruct Hna as ((? & ? & _) & ? & ?).
    assert (p ∉ l1.*1) by (intros Hin; apply (Hn1 p Hin); by left).
    assert (s ∉ l1.*1) by (intros Hin; apply (Hn2 s); [apply elem_of_app; by left|by left]).
    pose proof (Hn2 p ltac:(apply elem_of_app; right; by left)) as Hps.
    rewrite not_elem_of_cons in Hps. destruct Hps. clear Hn1 Hn2.
    do 4 run_step. do 2 eexists. split; [done|]. split; cbn; try done.
    + store_solve.
    + apply dll_app. split; [apply dll_snoc; split; [list_solve|by find_cell]|].
      rewrite final_snoc. cbn. split; [by find_cell|]. list_solve.
    + by rewrite Hh, !first_app.
    + by rewrite Ht, !final_app, !final_cons.
    + eexists. by find_cell.
    + rewrite !fmap_app. cbn. clear. repeat (apply frame_insert; [set_solver|]). done.
Qed.

Lemma own_middle l1 a d l2 fl :
  own (l1 ++ (a, d) :: l2) fl ≡ₚ a :: (l1 ++ l2).*1 ++ fl.
Proof.
  unfold own. rewrite !fmap_app. cbn. by rewrite <- Permutation_middle.
Qed.

Lemma remove_node_ok h q l1 a d l2 fl :
  dq_rep h q (l1 ++ (a, d) :: l2) fl →
  ∃ h' q', removeDQueueNode q a h = Some ((d, q'), h') ∧
    dq_rep h' q' (l1 ++ l2) (a :: fl) ∧
    frame (cells h) (cells h') (own (l1 ++ (a, d) :: l2) fl).
Proof.
  intros [Hs Hl Hh Ht Hf Hn Hc Hb].
  assert (Hlen : length (l1 ++ (a, d) :: l2) = S (length (l1 ++ l2))).
  { rewrite !length_app. cbn. lia. }
  fold (own (l1 ++ (a, d) :: l2) fl) in Hn. rewrite own_middle in Hn.
  assert (Hn' : NoDup (a :: (l1 ++ l2).*1)).
  { apply NoDup_cons in Hn as [? Hn]. apply NoDup_app in Hn as (? & _ & _).
    apply NoDup_cons. split; [set_solver|done]. }
  assert (Hsome : is_Some (cells h !! a)).
  { eapply dll_elem; [|exact Hl]. rewrite fmap_app. set_solver. }
  destruct Hsome as [n Ha]. unfold removeDQueueNode. erewrite bind_load by exact Ha.
  destruct (unlink_ok h (set_NodeCount (s32 (NodeCount q - 1)) q) l1 a d l2 n Hs Hl Hn' Ha Hh Ht)
    as (Hd & h1 & q1 & E & [U1 U2 U3 U4 U5 U6 [n1 U7] U8]).
  erewrite bind_run by exact E. do 2 run_step. do 2 eexists. rewrite Hd. split; [done|].
  apply NoDup_cons in Hn as [Hna Hn]. rewrite not_elem_of_app in Hna. destruct Hna as [Hna1 Hna2].
  apply NoDup_app in Hn as (Hn1 & Hn2 & Hn3). split.
  - constructor; cbn; [store_solve|list_solve|done|done| | | |lia].
    + split; [done|]. eexists. split; [by find_cell|]. cbn. rewrite U5. cbn.
      do 2 (apply flist_insert_other; [done|]).
      eapply flist_frame; [|exact Hf]. intros b Hb'. apply U8.
      rewrite not_elem_of_cons. split; [set_solver|]. intros Hin. by apply (Hn2 b).
    + rewrite <- Permutation_middle. apply NoDup_cons. split.
      * rewrite not_elem_of_app. done.
      * by apply NoDup_app.
    + rewrite U6. cbn. rewrite Hc, Hlen. rewrite s32_id by lia. lia.
  - cbn. intros b Hb'. rewrite own_middle, not_elem_of_cons, not_elem_of_app in Hb'.
    destruct Hb' as (? & ? & ?). rewrite !lookup_insert_ne by done. apply U8.
    by rewrite not_elem_of_cons.
Qed.

Lemma remove_head_ok h q l fl :
  dq_rep h q l fl →
  match l with
  | [] => removeDQueueHeadNode q h = Some ((NULL, q), h)
  | (a, d) :: l' => ∃ h' q', removeDQueueHeadNode q h = Some ((d, q'), h') ∧
      dq_rep h' q' l' (a :: fl) ∧ frame (cells h) (cells h') (own l fl)
  end.
Proof.
  intros Hr. unfold removeDQueueHeadNode. rewrite (rep_count _ _ _ _ Hr).
  destruct l as [|[a d] l]; [done|]. rewrite (proj2 (Z.eqb_neq _ 0)) by (cbn; lia).
  rewrite (rep_head _ _ _ _ Hr). by apply (remove_node_ok h q [] a d l fl).
Qed.

Lemma remove_tail_ok h q l a d fl :
  dq_rep h q (l ++ [(a, d)]) fl →
  ∃ h' q', removeDQueueTailNode q h = Some ((d, q'), h') ∧
    dq_rep h' q' l (a :: fl) ∧ frame (cells h) (cells h') (own (l ++ [(a, d)]) fl).
Proof.
  intros Hr. unfold removeDQueueTailNode. rewrite (rep_count _ _ _ _ Hr).
  rewrite (proj2 (Z.eqb_neq _ 0)) by (rewrite length_app; cbn; lia).
  rewrite (rep_tail _ _ _ _ Hr), final_snoc.
  destruct (remove_node_ok h q l a d [] fl Hr) as (h' & q' & E & R & F).
  rewrite app_nil_r in R. eauto.
Qed.

Lemma head_data_ok h q l fl :
  dq_rep h q l fl →
  getDQueueHeadNodeData q h = Some (match l with [] => NULL | p :: _ => p.2 end, h).
Proof.
  intros Hr. unfold getDQueueHeadNodeData. rewrite (rep_count _ _ _ _ Hr).
  destruct l as [|[a d] l]; [done|]. rewrite (proj2 (Z.ltb_lt 0 _)) by (cbn; lia).
  destruct (rep_list _ _ _ _ Hr) as [Ha _]. rewrite (rep_head _ _ _ _ Hr). by run_step.
Qed.

Lemma walk_ok h prev l i a d :
  dll (cells h) prev l NULL → l !! i = Some (a, d) → walk i (first l NULL) h = Some (a, h).
Proof.
  revert prev i. induction l as [|p l IH]; intros prev i Hl Hi; [done|].
  destruct Hl as [Hp Hl]. destruct i as [|i]; cbn in *; [by simplify_eq|].
  run_step. cbn. by eapply IH.
Qed.

Lemma by_index_ok h q l fl i a d :
  dq_rep h q l fl → l !! i = Some (a, d) →
  getDQueueNodeByIndex q i h = Some (a, h) ∧ getDQueueNodeDataByIndex q i h = Some (d, h).
Proof.
  intros Hr Hi. unfold getDQueueNodeByIndex, getDQueueNodeDataByIndex.
  rewrite (rep_head _ _ _ _ Hr). pose proof (walk_ok h _ l i a d (rep_list _ _ _ _ Hr) Hi) as Hw.
  split; [done|]. rewrite (bind_run _ _ _ _ _ Hw).
  pose proof (rep_list _ _ _ _ Hr) as Hl. apply list_elem_of_split_length in Hi as (l1 & l2 & -> & _).
  apply dll_app in Hl as (_ & Ha & _). by run_step.
Qed.

Lemma remove_all_loop_ok fuel h q l fl p :
  store_ok h → dll (cells h) p l NULL → flist (cells h) (Free q) fl →
  NoDup (l.*1 ++ fl) → (length l < fuel)%nat →
  ∃ h' f, removeAll_loop fuel q (first l NULL) h = Some (set_Free f q, h') ∧ store_ok h' ∧
    flist (cells h') f (reverse l.*1 ++ fl) ∧ frame (cells h) (cells h') (l.*1).
Proof.
  revert h q l fl p. induction fuel as [|fuel IH]; intros h q l fl p Hs Hl Hf Hn Hfu; [lia|].
  destruct l as [|[a d] l]; cbn [removeAll_loop first].
  - exists h, (Free q). split; [by destruct q|]. done.
  - destruct Hl as [Ha Hl]. cbn in Ha. pose proof (proj2 Hs _ _ Ha).
    cbn [fst]. rewrite (proj2 (Z.eqb_neq a NULL)) by (unfold NULL; lia). do 2 run_step.
    cbn in Hn. apply NoDup_cons in Hn as [Hna Hn]. rewrite not_elem_of_app in Hna.
    destruct Hna as [Hna1 Hna2]. cbn [Next].
    destruct (IH (mkStore (<[a:=mkDQueueNode NULL (Free q) NULL]> (cells h)) (brk h))
      (set_Free a q) l (a :: fl) a) as (h' & f & E & S' & F' & Fr).
    + store_solve.
    + list_solve.
    + cbn. split; [done|]. eexists. split; [by find_cell|]. list_solve.
    + rewrite <- Permutation_middle. apply NoDup_cons. split; [by rewrite not_elem_of_app|done].
    + cbn in Hfu. lia.
    + exists h', f. split; [exact E|]. split; [done|]. split.
      * by rewrite fmap_cons, reverse_cons, <- (assoc_L (++)).
      * intros b Hb. cbn in Hb. rewrite not_elem_of_cons in Hb. destruct Hb as [Hb1 Hb2].
        rewrite Fr by done. cbn. by rewrite lookup_insert_ne by done.
Qed.

Lemma addrs_bound h l p : dll (cells h) p l NULL → NoDup l.*1 → (length l ≤ size (cells h))%nat.
Proof.
  intros Hl Hn. rewrite <- (size_dom (D := gset Z) (cells h)), <- (length_fmap fst l).
  rewrite <- (size_list_to_set (C := gset Z)) by done. apply subseteq_size.
  intros a Ha. apply elem_of_list_to_set in Ha. apply elem_of_dom. by eapply dll_elem.
Qed.

Lemma remove_all_ok h q l fl :
  dq_rep h q l fl →
  ∃ h' q', removeAllDQueueNodes q h = Some (q', h') ∧
    dq_rep h' q' [] (reverse l.*1 ++ fl) ∧ frame (cells h) (cells h') (own l fl).
Proof.
  intros Hr. unfold removeAllDQueueNodes. rewrite (rep_count _ _ _ _ Hr).
  destruct (Z.eqb_spec (Z.of_nat (length l)) 0) as [E0|E0].
  - destruct l; [|done]. exists h, q. cbn. done.
  - destruct Hr as [Hs Hl Hh Ht Hf Hn Hc Hb]. apply NoDup_app in Hn as Hn'.
    destruct (remove_all_loop_ok (S (size (cells h))) h q l fl NULL) as (h' & f & E & S' & F' & Fr);
      [done..| |].
    { pose proof (addrs_bound h l NULL Hl ltac:(tauto)). lia. }
    rewrite Hh. erewrite bind_run by exact E. do 2 eexists. split; [done|]. split.
    + constructor; try done. cbn. by rewrite reverse_Permutation.
    + eapply frame_weaken, Fr. unfold own. set_solver.
Qed.

(** ** The queue as a sequence *)

Inductive dq_op :=
  | InsertHead (data : Z)
  | InsertTail (data : Z)
  | RemoveHead
  | RemoveTail
  | RemoveAt (i : nat)   (** [removeDQueueNode] of the node at an index *)
  | RemoveAll
  | HeadData
  | DataAt (i : nat).

(** The operations on a queue: its result, [NULL] where there is none. *)
Definition dq_step (q : DQueue) (op : dq_op) : Q (Z * DQueue) :=
  match op with
  | InsertHead d => do q <- insertDQueueHeadNode q d; ret (NULL, q)
  | InsertTail d => do q <- insertDQueueTailNode q d; ret (NULL, q)
  | RemoveHead => removeDQueueHeadNode q
  | RemoveTail => removeDQueueTailNode q
  | RemoveAt i => do p <- getDQueueNodeByIndex q i; removeDQueueNode q p
  | RemoveAll => do q <- removeAllDQueueNodes q; ret (NULL, q)
  | HeadData => do d <- getDQueueHeadNodeData q; ret (d, q)
  | DataAt i => do d <- getDQueueNodeDataByIndex q i; ret (d, q)
  end.

(** The same operations on the list of the data. *)
Definition list_step (s : list Z) (op : dq_op) : Z * list Z :=
  match op with
  | InsertHead d => (NULL, d :: s)
  | InsertTail d => (NULL, s ++ [d])
  | RemoveHead => (default NULL (head s), tail s)
  | RemoveTail => (default NULL (last s), take (length s - 1) s)
  | RemoveAt i => (s !!! i, delete i s)
  | RemoveAll => (NULL, [])
  | HeadData => (default NULL (head s), s)
  | DataAt i => (s !!! i, s)
  end.

(** Indexes are in range and there is room for an insertion. *)
Definition dq_op_ok (s : list Z) (op : dq_op) : Prop :=
  match op with
  | InsertHead _ | InsertTail _ => Z.of_nat (length s) + 1 < 2 ^ 31
  | RemoveAt i | DataAt i => (i < length s)%nat
  | _ => True
  end.

(** A change stays within the nodes a queue owns and new ones. *)
Definition stays (h h' : Store DQueueNodeData) l fl l' fl' : Prop :=
  ∃ s, frame (cells h) (cells h') s ∧
    ∀ a, a ∈ s ∨ a ∈ own l' fl' → a ∈ own l fl ∨ cells h !! a = None.

Lemma stays_refl h l fl : stays h h l fl l fl.
Proof. exists []. split; [done|]. intros a [Ha|Ha]; [by apply not_elem_of_nil in Ha|by left]. Qed.

Lemma stays_own h h' l fl l' fl' :
  frame (cells h) (cells h') (own l fl) → (∀ a, a ∈ own l' fl' → a ∈ own l fl) → stays h h' l fl l' fl'.
Proof. intros Hf Ho. exists (own l fl). split; [done|]. intros a [Ha|Ha]; left; auto. Qed.

Lemma stays_taken h h' l fl a fl' l' :
  taken h fl a fl' → frame (cells h) (cells h') (a :: own l fl) →
  (∀ b, b ∈ own l' fl' → b = a ∨ b ∈ l.*1 ∨ b ∈ fl') → stays h h' l fl l' fl'.
Proof.
  intros Ht Hf Ho. exists (a :: own l fl). split; [done|].
  assert (Ha : a ∈ own l fl ∨ cells h !! a = None).
  { destruct Ht as [->|(_ & _ & ?)]; [left; unfold own; set_solver|by right]. }
  intros b [Hb|Hb]; [apply elem_of_cons in Hb as [->|Hb]; [done|by left]|].
  destruct (Ho b Hb) as [->|[Hl|Hfl]]; [done|left; unfold own; set_solver|].
  left. unfold own. destruct Ht as [->|(_ & -> & _)]; set_solver.
Qed.

Lemma dq_step_ok h q l fl op :
  dq_rep h q l fl → dq_op_ok l.*2 op →
  ∃ r q' h' l' fl', dq_step q op h = Some ((r, q'), h') ∧ dq_rep h' q' l' fl' ∧
    list_step l.*2 op = (r, l'.*2) ∧ stays h h' l fl l' fl'.
Proof.
  intros Hr Hop. destruct op as [d|d| | |i| | |i]; cbn in Hop |- *.
  - rewrite length_fmap in Hop.
    destruct (insert_head_ok h q l fl d Hr Hop) as (h' & q' & a & fl' & E & R & Tk & Fr).
    erewrite bind_run by exact E. do 5 eexists. split; [done|]. split; [exact R|]. split; [done|].
    apply (stays_taken h h' l fl a fl' _ Tk Fr). unfold own. cbn. set_solver.
  - rewrite length_fmap in Hop.
    destruct (insert_tail_ok h q l fl d Hr Hop) as (h' & q' & a & fl' & E & R & Tk & Fr).
    erewrite bind_run by exact E. do 5 eexists. split; [done|]. split; [exact R|].
    split; [by rewrite fmap_app|]. apply (stays_taken h h' l fl a fl' _ Tk Fr). unfold own. rewrite fmap_app. set_solver.
  - pose proof (remove_head_ok h q l fl Hr) as H1. destruct l as [|[a d] l].
    + rewrite H1. do 5 eexists. split; [done|]. split; [exact Hr|]. split; [done|apply stays_refl].
    + destruct H1 as (h' & q' & -> & R & Fr). do 5 eexists. split; [done|]. split; [exact R|]. split; [done|].
      apply (stays_own _ _ _ _ _ _ Fr). unfold own. set_solver.
  - destruct l as [|[a d] l _] using rev_ind.
    + unfold removeDQueueTailNode. rewrite (rep_count _ _ _ _ Hr). cbn.
      do 5 eexists. split; [done|]. split; [exact Hr|]. split; [done|apply stays_refl].
    + destruct (remove_tail_ok h q l a d fl Hr) as (h' & q' & -> & R & Fr).
      do 5 eexists. split; [done|]. split; [exact R|]. split.
      * rewrite fmap_app. cbn. rewrite last_snoc, length_app. cbn. by rewrite Nat.add_sub, take_app_length.
      * apply (stays_own _ _ _ _ _ _ Fr). unfold own. rewrite fmap_app. set_solver.
  - rewrite length_fmap in Hop. destruct (lookup_lt_is_Some_2 l i Hop) as [[a d] Hi].
    destruct (by_index_ok h q l fl i a d Hr Hi) as [E _]. erewrite bind_run by exact E.
    pose proof (list_elem_of_split_length _ _ _ Hi) as (l1 & l2 & -> & ->).
    destruct (remove_node_ok h q l1 a d l2 fl Hr) as (h' & q' & -> & R & Fr).
    do 5 eexists. split; [done|]. split; [exact R|]. split.
    + rewrite !fmap_app. cbn. f_equal.
      * rewrite list_lookup_total_middle; [done|]. by rewrite length_fmap.
      * rewrite <- (length_fmap snd l1). by rewrite delete_middle.
    + apply (stays_own _ _ _ _ _ _ Fr). unfold own. rewrite !fmap_app. set_solver.
  - destruct (remove_all_ok h q l fl Hr) as (h' & q' & E & R & Fr). erewrite bind_run by exact E.
    do 5 eexists. split; [done|]. split; [exact R|]. split; [done|].
    apply (stays_own _ _ _ _ _ _ Fr). unfold own. intros a. rewrite !elem_of_app, elem_of_reverse. set_solver.
  - rewrite (bind_run _ _ _ _ _ (head_data_ok h q l fl Hr)).
    do 5 eexists. split; [done|]. split; [exact Hr|]. split; [by destruct l|apply stays_refl].
  - rewrite length_fmap in Hop. destruct (lookup_lt_is_Some_2 l i Hop) as [[a d] Hi].
    destruct (by_index_ok h q l fl i a d Hr Hi) as [_ E]. erewrite bind_run by exact E.
    do 5 eexists. split; [done|]. split; [exact Hr|]. split; [|apply stays_refl]. f_equal.
    apply list_lookup_total_correct. by rewrite list_lookup_fmap, Hi.
Qed.

Lemma empty_queue_rep h : store_ok h → dq_rep h initializeDQueue [] [].
Proof. intros Hs. constructor; try done. by constructor. Qed.

(** ** Two queues *)

Lemma rep_frame h h' q l fl s :
  dq_rep h q l fl → store_ok h' → frame (cells h) (cells h') s →
  (∀ a, a ∈ own l fl → a ∉ s) → dq_rep h' q l fl.
Proof.
  intros [Hs Hl Hh Ht Hf Hn Hc Hb] Hs' Hfr Hd. constructor; try done.
  - eapply dll_frame; [|done]. intros a Ha. apply Hfr, Hd, elem_of_app. by left.
  - eapply flist_frame; [|done]. intros a Ha. apply Hfr, Hd, elem_of_app. by right.
Qed.

Definition disjoint_queues l fl lt flt : Prop := NoDup (own l fl ++ own lt flt).

(** The free node [a] of a queue moves to the free list of another. *)
Lemma move_free_ok h q l a fl t lt flt :
  dq_rep h q l (a :: fl) → dq_rep h t lt flt → disjoint_queues l (a :: fl) lt flt →
  ∃ n h', cells h !! a = Some n ∧ Free q = a ∧
    modify a (λ _, mkDQueueNode NULL (Free t) NULL) h = Some (tt, h') ∧
    dq_rep h' (set_Free (Next n) q) l fl ∧ dq_rep h' (set_Free a t) lt (a :: flt) ∧
    disjoint_queues l fl lt (a :: flt).
Proof.
  intros [Hs Hl Hh Ht Hf Hn Hc Hb] [Hs' Hl' Hh' Ht' Hf' Hn' Hc' Hb'] Hd.
  destruct Hf as (Hfa & n & Ha & Hf). exists n. eexists. split; [done|]. split; [done|].
  split; [by apply modify_ok|].
  assert (Hd' : NoDup (a :: own l fl ++ own lt flt)).
  { unfold disjoint_queues, own in *. rewrite <- (assoc_L (++)) in Hd. cbn in Hd.
    by rewrite <- Permutation_middle, (assoc_L (++)) in Hd. }
  apply NoDup_cons in Hd' as [Hna Hd']. unfold own in Hna. rewrite !not_elem_of_app in Hna.
  destruct Hna as [[Hn1 Hn2] [Hn3 Hn4]]. apply NoDup_app in Hd' as Hd3.
  destruct Hd3 as (Hd3 & _ & Hd4). split; [|split].
  - constructor; cbn; try done; [store_solve|list_solve|list_solve].
  - constructor; cbn; try done; [store_solve|list_solve| |].
    + split; [done|]. eexists. split; [by find_cell|]. list_solve.
    + rewrite <- Permutation_middle. apply NoDup_cons. split; [by rewrite not_elem_of_app|done].
  - unfold disjoint_queues, own. cbn. rewrite (assoc_L (++)), <- Permutation_middle.
    apply NoDup_cons. rewrite !not_elem_of_app. split; [tauto|].
    by rewrite <- (assoc_L (++)).
Qed.

Lemma own_perm_disjoint l fl l' fl' lt flt :
  own l fl ≡ₚ own l' fl' → disjoint_queues l fl lt flt → disjoint_queues l' fl' lt flt.
Proof. unfold disjoint_queues. by intros ->. Qed.

Lemma disjoint_not l fl lt flt a :
  disjoint_queues l fl lt flt → a ∈ own lt flt → a ∉ own l fl.
Proof. intros (_ & Hd & _)%NoDup_app Ha Hin. by apply (Hd a). Qed.

Lemma move_one_ok h q l1 a d l2 fl t lt flt (fromhead : bool) :
  dq_rep h q (l1 ++ (a, d) :: l2) fl → dq_rep h t lt flt →
  disjoint_queues (l1 ++ (a, d) :: l2) fl lt flt → Z.of_nat (length lt) + 1 < 2 ^ 31 →
  (if fromhead then l1 = [] else l2 = []) →
  ∃ q' t' h' lt', move_one q t fromhead h = Some ((q', t'), h') ∧
    dq_rep h' q' (l1 ++ l2) fl ∧ dq_rep h' t' lt' flt ∧ disjoint_queues (l1 ++ l2) fl lt' flt ∧
    lt' = (if fromhead then lt ++ [(a, d)] else (a, d) :: lt).
Proof.
  intros Hq Ht Hd Hb Hend. unfold move_one.
  assert (Ep : (if fromhead then Head q else Tail q) = a).
  { destruct fromhead; subst.
    - by rewrite (rep_head _ _ _ _ Hq).
    - rewrite (rep_tail _ _ _ _ Hq). by rewrite final_snoc. }
  rewrite Ep. destruct (remove_node_ok h q l1 a d l2 fl Hq) as (h1 & q1 & E & R1 & F1).
  erewrite bind_run by exact E. cbn [fst snd].
  assert (T1 : dq_rep h1 t lt flt).
  { eapply rep_frame; [exact Ht|apply R1|exact F1|]. intros b. by apply disjoint_not. }
  assert (D1 : disjoint_queues (l1 ++ l2) (a :: fl) lt flt).
  { eapply own_perm_disjoint; [|exact Hd]. rewrite own_middle. unfold own.
    by rewrite <- Permutation_middle. }
  destruct (move_free_ok h1 q1 (l1 ++ l2) a fl t lt flt R1 T1 D1)
    as (n & h2 & Hn & Hfa & E2 & R2 & T2 & D2).
  rewrite Hfa. erewrite bind_load by exact Hn. erewrite bind_run by exact E2.
  assert (Hins : ∃ h3 t3, (if fromhead then insertDQueueTailNode (set_Free a t) d
                           else insertDQueueHeadNode (set_Free a t) d) h2 = Some (t3, h3) ∧
    dq_rep h3 t3 (if fromhead then lt ++ [(a, d)] else (a, d) :: lt) flt ∧
    frame (cells h2) (cells h3) (own lt (a :: flt))).
  { destruct fromhead.
    - destruct (insert_tail_ok h2 _ lt (a :: flt) d T2 Hb) as (h3 & t3 & a' & fl' & E3 & R3 & Tk & F3).
      destruct Tk as [[= <- <-]|(? & _)]; [|done]. exists h3, t3. split; [done|]. split; [done|].
      eapply frame_weaken, F3. unfold own. set_solver.
    - destruct (insert_head_ok h2 _ lt (a :: flt) d T2 Hb) as (h3 & t3 & a' & fl' & E3 & R3 & Tk & F3).
      destruct Tk as [[= <- <-]|(? & _)]; [|done]. exists h3, t3. split; [done|]. split; [done|].
      eapply frame_weaken, F3. unfold own. set_solver. }
  destruct Hins as (h3 & t3 & E3 & R3 & F3). erewrite bind_run by exact E3.
  do 4 eexists. split; [done|]. split; [|split; [exact R3|split; [|done]]].
  - eapply rep_frame; [exact R2|apply R3|exact F3|]. intros b Hb1 Hb2.
    by eapply disjoint_not; [exact D2| |].
  - unfold disjoint_queues in *. destruct fromhead; unfold own in *; rewrite ?fmap_app in *; cbn.
    + by rewrite <- (assoc_L (++) lt.*1).
    + cbn in D2. by rewrite <- Permutation_middle in D2.
Qed.

(** Insertions into and removals from one queue leave the other. *)
Lemma own_used h q l fl a : dq_rep h q l fl → a ∈ own l fl → is_Some (cells h !! a).
Proof.
  intros [_ Hl _ _ Hf _ _ _] Ha. apply elem_of_app in Ha as [Ha|Ha]; [by eapply dll_elem|].
  revert Hf. generalize (Free q). induction fl as [|b fl IH]; intros p Hf; [by apply not_elem_of_nil in Ha|].
  destruct Hf as (-> & n & Hn & Hf). apply elem_of_cons in Ha as [->|Ha]; [by eexists|by eapply IH].
Qed.

Lemma insert_other h h' q' t l l' fl fl' lt flt a :
  dq_rep h t lt flt → disjoint_queues l fl lt flt → taken h fl a fl' → dq_rep h' q' l' fl' →
  frame (cells h) (cells h') (a :: own l fl) → l'.*1 ≡ₚ a :: l.*1 →
  dq_rep h' t lt flt ∧ disjoint_queues l' fl' lt flt.
Proof.
  intros Ht Hd Htk Hq Hf Hl. assert (Ha : a ∉ own lt flt).
  { intros Hin. destruct Htk as [->|(-> & _ & Hn)].
    - eapply disjoint_not; [exact Hd|exact Hin|]. apply elem_of_app. right. by left.
    - destruct (own_used _ _ _ _ _ Ht Hin). congruence. }
  split.
  - eapply rep_frame; [done|apply Hq|done|]. intros b Hb. rewrite not_elem_of_cons.
    split; [by intros ->|]. by eapply disjoint_not.
  - unfold disjoint_queues. apply NoDup_app. split; [apply Hq|]. split; [|by apply NoDup_app in Hd as (_ & _ & Hd)].
    intros b Hb Hb'. unfold own in Hb. rewrite Hl in Hb. cbn in Hb.
    apply elem_of_cons in Hb as [->|Hb]; [done|]. eapply disjoint_not; [exact Hd|exact Hb'|].
    unfold own. destruct Htk as [->|(-> & -> & _)]; [|done].
    apply elem_of_app in Hb as [Hb|Hb]; apply elem_of_app; [by left|right; by right].
Qed.

Lemma disjoint_sym l fl lt flt : disjoint_queues l fl lt flt → disjoint_queues lt flt l fl.
Proof. unfold disjoint_queues. by rewrite Permutation_app_comm. Qed.

Lemma insert_head_two h q l fl t lt flt data :
  dq_rep h q l fl → dq_rep h t lt flt → disjoint_queues l fl lt flt →
  Z.of_nat (length l) + 1 < 2 ^ 31 →
  ∃ h' q' a fl', insertDQueueHeadNode q data h = Some (q', h') ∧ dq_rep h' q' ((a, data) :: l) fl' ∧
    dq_rep h' t lt flt ∧ disjoint_queues ((a, data) :: l) fl' lt flt.
Proof.
  intros Hq Ht Hd Hb. destruct (insert_head_ok h q l fl data Hq Hb) as (h' & q' & a & fl' & E & R & K & F).
  destruct (insert_other h h' q' t l ((a, data) :: l) fl fl' lt flt a) as [T D]; [done..|].
  by exists h', q', a, fl'.
Qed.

Lemma insert_tail_two h q l fl t lt flt data :
  dq_rep h q l fl → dq_rep h t lt flt → disjoint_queues l fl lt flt →
  Z.of_nat (length l) + 1 < 2 ^ 31 →
  ∃ h' q' a fl', insertDQueueTailNode q data h = Some (q', h') ∧ dq_rep h' q' (l ++ [(a, data)]) fl' ∧
    dq_rep h' t lt flt ∧ disjoint_queues (l ++ [(a, data)]) fl' lt flt.
Proof.
  intros Hq Ht Hd Hb. destruct (insert_tail_ok h q l fl data Hq Hb) as (h' & q' & a & fl' & E & R & K & F).
  destruct (insert_other h h' q' t l (l ++ [(a, data)]) fl fl' lt flt a) as [T D]; [done..| |].
  { rewrite fmap_app. cbn. by rewrite Permutation_app_comm. }
  by exists h', q', a, fl'.
Qed.

Lemma remove_head_two h q a d l fl t lt flt :
  dq_rep h q ((a, d) :: l) fl → dq_rep h t lt flt → disjoint_queues ((a, d) :: l) fl lt flt →
  ∃ h' q', removeDQueueHeadNode q h = Some ((d, q'), h') ∧ dq_rep h' q' l (a :: fl) ∧
    dq_rep h' t lt flt ∧ disjoint_queues l (a :: fl) lt flt.
Proof.
  intros Hq Ht Hd. destruct (remove_head_ok h q _ fl Hq) as (h' & q' & E & R & F).
  exists h', q'. split_and!; [done..| |].
  - eapply rep_frame; [done|apply R|done|]. intros b Hb. by eapply disjoint_not.
  - eapply own_perm_disjoint; [|exact Hd]. unfold own. cbn. by rewrite <- Permutation_middle.
Qed.

(** ** Freeing the free list *)

Lemma clean_loop_ok fuel h q fl :
  store_ok h → flist (cells h) (Free q) fl → NoDup fl → (length fl < fuel)%nat →
  ∃ h', clean_loop fuel q h = Some (set_Free NULL q, h') ∧ store_ok h' ∧
    (∀ a, a ∈ fl → cells h' !! a = None) ∧ frame (cells h) (cells h') fl.
Proof.
  revert h q fl. induction fuel as [|fuel IH]; intros h q fl Hs Hf Hn Hfu; [lia|]. cbn [clean_loop].
  destruct fl as [|a fl].
  - cbn in Hf. rewrite Hf, Z.eqb_refl. exists h. split; [by destruct q; cbn in *; subst|].
    split; [done|]. split; [|done]. intros a Ha. by apply not_elem_of_nil in Ha.
  - destruct Hf as (-> & n & Ha & Hf). pose proof (proj2 Hs _ _ Ha).
    apply NoDup_cons in Hn as [Hna Hn].
    rewrite (proj2 (Z.eqb_neq _ NULL)) by (unfold NULL; lia). do 2 run_step.
    destruct (IH (mkStore (delete a (cells h)) (brk h)) (set_Free (Next n) q) fl) as (h' & E & S' & D' & F').
    + by apply store_ok_delete.
    + cbn. eapply flist_frame; [|exact Hf]. intros b Hb. rewrite lookup_delete_ne; [done|]. by intros <-.
    + done.
    + cbn in Hfu. lia.
    + exists h'. split; [exact E|]. split; [done|]. split.
      * intros b Hb. apply elem_of_cons in Hb as [->|Hb]; [|by apply D'].
        rewrite F' by done. apply lookup_delete_eq.
      * intros b Hb. rewrite not_elem_of_cons in Hb. destruct Hb. rewrite F' by done. cbn.
        by rewrite lookup_delete_ne.
Qed.

Lemma flist_bound h p fl : flist (cells h) p fl → NoDup fl → (length fl ≤ size (cells h))%nat.
Proof.
  intros Hf Hn. rewrite <- (size_dom (D := gset Z) (cells h)).
  rewrite <- (size_list_to_set (C := gset Z)) by done. apply subseteq_size.
  intros a Ha. apply elem_of_list_to_set in Ha. apply elem_of_dom.
  revert p Hf. clear Hn. induction fl as [|b fl IH]; intros p Hf; [by apply not_elem_of_nil in Ha|].
  destruct Hf as (_ & n & Hb & Hf). apply elem_of_cons in Ha as [->|Ha]; [by eexists|by eapply IH].
Qed.

(** Cleaning an empty queue frees every node of its free list. *)
Lemma clean_two h q fl t lt flt :
  dq_rep h q [] fl → dq_rep h t lt flt → disjoint_queues [] fl lt flt →
  ∃ h', cleanDQueue q h = Some (set_Free NULL q, h') ∧ dq_rep h' t lt flt ∧
    (∀ a, a ∈ fl → cells h' !! a = None) ∧ frame (cells h) (cells h') fl.
Proof.
  intros [Hs _ _ _ Hf Hn _ _] Ht Hd. cbn in Hn. unfold cleanDQueue.
  destruct (clean_loop_ok (S (size (cells h))) h q fl Hs Hf Hn) as (h' & E & S' & D' & F').
  { pose proof (flist_bound _ _ _ Hf Hn). lia. }
  exists h'. split_and!; [done| |done..]. eapply rep_frame; [done..|].
  intros a Ha. by apply (disjoint_not _ _ _ _ a Hd).
Qed.

(** What is left of a list, and what the target gets, after [k] moves. *)
Definition moved_rest (fromhead : bool) (k : nat) (s : list Z) : list Z :=
  if fromhead then drop k s else take (length s - k) s.
Definition moved_target (fromhead : bool) (k : nat) (s st : list Z) : list Z :=
  if fromhead then st ++ take k s else drop (length s - k) s ++ st.

Lemma move_loop_ok max h q l fl t lt flt (fromhead : bool) :
  dq_rep h q l fl → dq_rep h t lt flt → disjoint_queues l fl lt flt →
  Z.of_nat (length l + length lt) < 2 ^ 31 →
  ∃ q' t' h' l' lt', move_loop max q t fromhead h = Some ((q', t'), h') ∧
    dq_rep h' q' l' fl ∧ dq_rep h' t' lt' flt ∧ disjoint_queues l' fl lt' flt ∧
    l'.*2 = moved_rest fromhead max l.*2 ∧ lt'.*2 = moved_target fromhead max l.*2 lt.*2.
Proof.
  revert h q l t lt. induction max as [|max IH]; intros h q l t lt Hq Ht Hd Hb.
  - do 5 eexists. split; [done|]. split; [exact Hq|]. split; [exact Ht|]. split; [done|].
    unfold moved_rest, moved_target. rewrite Nat.sub_0_r, firstn_all, drop_all.
    destruct fromhead; [by rewrite take_0, app_nil_r|done].
  - cbn. rewrite (rep_count _ _ _ _ Hq). destruct (decide (l = [])) as [->|Hne].
    { cbn. do 5 eexists. split; [done|]. split; [exact Hq|]. split; [exact Ht|]. split; [done|].
      destruct fromhead; cbn; [by rewrite app_nil_r|done]. }
    rewrite (proj2 (Z.ltb_lt 0 _)) by (destruct l; cbn; done || lia).
    destruct fromhead.
    + destruct l as [|[a d] l]; [done|].
      destruct (move_one_ok h q [] a d l fl t lt flt true) as (q1 & t1 & h1 & lt1 & E & R & T & D & ->);
        [done..|cbn in Hb; lia|done|].
      erewrite bind_run by exact E. cbn [fst snd].
      destruct (IH h1 q1 l t1 (lt ++ [(a, d)])) as (q' & t' & h' & l' & lt' & E' & R' & T' & D' & L1 & L2);
        [done..|rewrite length_app; cbn in *; lia|].
      do 5 eexists. split; [done|]. split; [done|]. split; [done|]. split; [done|].
      rewrite L1, L2. cbn. rewrite fmap_app, <- (assoc_L (++)). done.
    + destruct l as [|[a d] l _] using rev_ind; [done|]. rewrite length_app in Hb. cbn in Hb.
      destruct (move_one_ok h q l a d [] fl t lt flt false) as (q1 & t1 & h1 & lt1 & E & R & T & D & ->);
        [done..|lia|done|].
      rewrite app_nil_r in R, D. erewrite bind_run by exact E. cbn [fst snd].
      destruct (IH h1 q1 l t1 ((a, d) :: lt)) as (q' & t' & h' & l' & lt' & E' & R' & T' & D' & L1 & L2);
        [done..|cbn; lia|].
      do 5 eexists. split; [done|]. split; [done|]. split; [done|]. split; [done|].
      rewrite L1, L2. unfold moved_rest, moved_target. rewrite fmap_app, length_app. cbn.
      replace (length l.*2 + 1 - S max)%nat with (length l.*2 - max)%nat by lia.
      rewrite take_app_le, drop_app_le by lia. split; [done|]. by rewrite <- (assoc_L (++)).
Qed.

Lemma get_node_null q h a q1 h1 :
  cells h !! NULL = None → 0 < brk h → get_node q h = Some ((a, q1), h1) →
  cells h1 !! NULL = None ∧ a ≠ NULL ∧ Tail q1 = Tail q ∧ NodeCount q1 = NodeCount q.
Proof.
  intros Hn Hb. unfold get_node. destruct (Free q =? NULL) eqn:Ef; cbn [negb].
  - rewrite bind_alloc. intros E. injection E as <- <- <-. cbn [cells].
    rewrite lookup_insert_ne by (unfold NULL; lia). unfold NULL. split_and!; done || lia.
  - apply Z.eqb_neq in Ef. unfold bind, load, modify.
    destruct (cells h !! Free q) eqn:El; [|done]. rewrite El.
    intros E. injection E as <- <- <-. cbn [cells]. by rewrite lookup_insert_ne by done.
Qed.

(** With a NULL tail and a positive count, an insertion at the tail faults. *)
Lemma insert_tail_faults q h data :
  store_ok h → Tail q = NULL → 0 < NodeCount q → insertDQueueTailNode q data h = None.
Proof.
  intros Hs Ht Hc. unfold insertDQueueTailNode.
  destruct (get_node q h) as [[[a q1] h1]|] eqn:E; [|unfold bind; by rewrite E].
  destruct (get_node_null _ _ _ _ _ (store_ok_null _ Hs) (proj1 Hs) E) as (N1 & Na & T1 & C1).
  erewrite bind_run by exact E. cbn [fst snd]. rewrite T1, C1, Ht.
  rewrite (proj2 (Z.ltb_lt _ _) Hc). unfold bind, modify.
  destruct (cells h1 !! a) eqn:Ea; [|done]. cbn [cells].
  by rewrite lookup_insert_ne, N1 by done.
Qed.


(** Moving at most [max] nodes out of a queue takes them from its head to
    the tail of the target in their order, or from its tail to the head of the
    target in their order; both queues stay well formed and disjoint, their
    free lists unchanged, and the length reported is that of the queue. *)
Lemma move_out_correct h q l fl t lt flt max fromhead :
  dq_rep h q l fl → dq_rep h t lt flt → disjoint_queues l fl lt flt →
  Z.of_nat (length l + length lt) < 2 ^ 31 →
  ∃ q' t' h' l' lt',
    moveDQueueNodeOut q t max fromhead h
      = Some ((q', t', Z.of_nat (length l')), h') ∧
    dq_rep h' q' l' fl ∧ dq_rep h' t' lt' flt ∧ disjoint_queues l' fl lt' flt ∧
    l'.*2 = moved_rest fromhead (Z.to_nat max) l.*2 ∧
    lt'.*2 = moved_target fromhead (Z.to_nat max) l.*2 lt.*2.
Proof.
  intros Hq Ht Hd Hb. unfold moveDQueueNodeOut.
  destruct (move_loop_ok (Z.to_nat max) h q l fl t lt flt fromhead)
    as (q' & t' & h' & l' & lt' & E & R & T & D & L1 & L2); [done..|].
  erewrite bind_run by exact E. cbn [fst snd]. rewrite (rep_count _ _ _ _ R).
  do 5 eexists. split; [done|]. split_and!; done.
Qed.

(** Moving a queue in does not make a queue: moved to the head of an empty
    queue, the tail pointer stays NULL and the next insertion at the tail
    follows it; moved behind the nodes of a queue, the first moved node keeps
    its NULL back pointer, and removing it makes the nodes in front of it
    unreachable from the head. *)
Lemma move_in_breaks_queue h q l fl s ls fls data :
  dq_rep h q l fl → dq_rep h s ls fls → disjoint_queues l fl ls fls → (1 < length ls)%nat →
  Z.of_nat (length l + length ls) < 2 ^ 31 →
  (l = [] → ∃ r h', moveDQueueNodeIn q s true h = Some (r, h') ∧
     insertDQueueTailNode r.1 data h' = None) ∧
  (l ≠ [] → ∃ r h' d q'' h'', moveDQueueNodeIn q s false h = Some (r, h') ∧
     removeDQueueNode r.1 (first ls NULL) h' = Some ((d, q''), h'') ∧
     Head q'' = first (tail ls) NULL).
Proof.
  intros Hq Hs Hd Hne Hb. unfold moveDQueueNodeIn. rewrite (rep_count _ _ _ _ Hs).
  rewrite (proj2 (Z.eqb_neq _ 0)) by lia.
  pose proof (rep_store _ _ _ _ Hq) as Hok. pose proof (rep_list _ _ _ _ Hs) as Hl.
  pose proof (rep_count _ _ _ _ Hq) as Hc. split.
  - intros ->. destruct ls as [|[b db] ls _] using rev_ind; [cbn in Hne; lia|].
    apply dll_snoc in Hl as [_ Hbn]. cbn in Hbn.
    rewrite (rep_tail _ _ _ _ Hs), final_snoc. cbn [fst]. do 3 run_step. do 2 eexists.
    split; [done|]. apply insert_tail_faults; [by eapply store_ok_insert|by apply Hq|].
    cbn. rewrite Hc. rewrite s32_id; cbn in *; lia.
  - intros Hl0. destruct l as [|[c dc] l _] using rev_ind; [done|].
    destruct ls as [|[a da] [|[b db] ls]]; [cbn in Hne; lia..|].
    pose proof (rep_list _ _ _ _ Hq) as Hlq. apply dll_snoc in Hlq as [_ Hcn].
    destruct Hl as (Ha & Hbn & _). cbn in Ha, Hbn, Hcn.
    assert (c ≠ a ∧ c ≠ b ∧ a ≠ b) as (Nca & Ncb & Nab).
    { unfold disjoint_queues, own in Hd. rewrite fmap_app in Hd. cbn in Hd.
      rewrite <- !(assoc_L (++)) in Hd. apply NoDup_app in Hd as (_ & _ & Hd). cbn in Hd.
      apply NoDup_cons in Hd as [Hc' Hd]. apply NoDup_app in Hd as (_ & _ & Hd).
      apply NoDup_cons in Hd as [Ha' _]. clear -Hc' Ha'. set_solver. }
    rewrite Hc, length_app. rewrite (proj2 (Z.eqb_neq _ 0)) by (cbn; lia).
    rewrite (rep_tail _ _ _ _ Hq), final_snoc, (rep_head _ _ _ _ Hs). cbn [fst first].
    do 3 run_step. do 5 eexists. split; [done|]. cbn [fst]. unfold removeDQueueNode, unlink.
    cbn [Prev Next].
    assert (b ≠ NULL) by (apply (proj2 Hok) in Hbn; unfold NULL; lia).
    run_step. cbn [Prev Next]. rewrite Z.eqb_refl, (proj2 (Z.eqb_neq b NULL)) by done. cbn [negb andb].
    do 7 run_step. split; done.
Qed.

(** ** Two queues as two sequences *)

(** An operation on the first of two queues, or on both. *)
Inductive dq2_op :=
  | On (op : dq_op)
  | Clean
  | MoveOut (max : Z) (fromhead : bool)
  | Swap.

Definition dq2_step (qs : DQueue * DQueue) (op : dq2_op) : Q (Z * (DQueue * DQueue)) :=
  match op with
  | On op => do r <- dq_step qs.1 op; ret (r.1, (r.2, qs.2))
  | Clean => do q <- cleanDQueue qs.1; ret (NULL, (q, qs.2))
  | MoveOut max fromhead => do r <- moveDQueueNodeOut qs.1 qs.2 max fromhead; ret (r.2, r.1)
  | Swap => ret (NULL, swapDQueues qs.1 qs.2)
  end.

Definition list2_step (ss : list Z * list Z) (op : dq2_op) : Z * (list Z * list Z) :=
  match op with
  | On op => ((list_step ss.1 op).1, ((list_step ss.1 op).2, ss.2))
  | Clean => (NULL, ss)
  | MoveOut max fromhead =>
    let rest := moved_rest fromhead (Z.to_nat max) ss.1 in
    (Z.of_nat (length rest), (rest, moved_target fromhead (Z.to_nat max) ss.1 ss.2))
  | Swap => (NULL, (ss.2, ss.1))
  end.

(** Indexes are in range, there is room, and only an empty queue is cleaned. *)
Definition dq2_op_ok (ss : list Z * list Z) (op : dq2_op) : Prop :=
  match op with
  | On op => dq_op_ok ss.1 op
  | Clean => ss.1 = []
  | MoveOut _ _ => Z.of_nat (length ss.1 + length ss.2) < 2 ^ 31
  | Swap => True
  end.

Definition two_rep (h : Store DQueueNodeData) (qs : DQueue * DQueue) (ss : list Z * list Z) : Prop :=
  ∃ l fl lt flt, dq_rep h qs.1 l fl ∧ dq_rep h qs.2 lt flt ∧ disjoint_queues l fl lt flt ∧ ss = (l.*2, lt.*2).

(** The other queue is left alone. *)
Lemma other_kept h h' q' l fl l' fl' t lt flt :
  dq_rep h' q' l' fl' → stays h h' l fl l' fl' → dq_rep h t lt flt → disjoint_queues l fl lt flt →
  dq_rep h' t lt flt ∧ disjoint_queues l' fl' lt flt.
Proof.
  intros Hr (s & Hf & Hs) Ht Hd.
  assert (Hout : ∀ a, a ∈ own lt flt → ¬ (a ∈ s ∨ a ∈ own l' fl')).
  { intros a Ha Hin. destruct (Hs a Hin) as [Ho|Hn]; [by eapply disjoint_not|].
    destruct (own_used _ _ _ _ _ Ht Ha). congruence. }
  split.
  - eapply rep_frame; [done|apply Hr|done|]. intros a Ha Hin. apply (Hout a Ha). by left.
  - apply NoDup_app. split; [apply Hr|]. split; [|apply NoDup_app in Hd; tauto].
    intros a Ha Ha'. apply (Hout a Ha'). by right.
Qed.

Lemma dq2_step_ok h qs ss op :
  two_rep h qs ss → dq2_op_ok ss op →
  ∃ qs' h', dq2_step qs op h = Some (((list2_step ss op).1, qs'), h') ∧ two_rep h' qs' (list2_step ss op).2.
Proof.
  intros (l & fl & lt & flt & Hq & Ht & Hd & ->) Hop. destruct qs as [q t]. cbn in Hq, Ht.
  destruct op as [op| |max fromhead|]; cbn [dq2_op_ok dq2_step list2_step fst snd] in *.
  - destruct (dq_step_ok h q l fl op Hq Hop) as (r & q' & h' & l' & fl' & E & R & L & St).
    destruct (other_kept h h' q' l fl l' fl' t lt flt R St Ht Hd) as [Ht' Hd'].
    erewrite bind_run by exact E. rewrite L. do 2 eexists. split; [done|]. by exists l', fl', lt, flt.
  - destruct l; [|done]. destruct (clean_two h q fl t lt flt Hq Ht Hd) as (h' & E & Ht' & _ & Fr).
    erewrite bind_run by exact E. do 2 eexists. split; [done|]. exists [], [], lt, flt. cbn.
    split_and!; [|done| |done].
    + destruct Hq. constructor; try done; [apply Ht'|constructor].
    + apply NoDup_app in Hd. unfold disjoint_queues. cbn. tauto.
  - rewrite !length_fmap in Hop.
    destruct (move_out_correct h q l fl t lt flt max fromhead Hq Ht Hd Hop)
      as (q' & t' & h' & l' & lt' & E & R & T & D & L1 & L2).
    erewrite bind_run by exact E. do 2 eexists. split.
    + cbn. rewrite <- L1, length_fmap. done.
    + exists l', fl, lt', flt. cbn. by rewrite L1, L2.
  - do 2 eexists. split; [done|]. exists lt, flt, l, fl. by apply disjoint_sym in Hd.
Qed.

Fixpoint dq2_run (qs : DQueue * DQueue) (ops : list dq2_op) : Q (list Z * (DQueue * DQueue)) :=
  match ops with
  | [] => ret ([], qs)
  | op :: ops => do r <- dq2_step qs op; do rs <- dq2_run r.2 ops; ret (r.1 :: rs.1, rs.2)
  end.

Fixpoint list2_run (ss : list Z * list Z) (ops : list dq2_op) : list Z * (list Z * list Z) :=
  match ops with
  | [] => ([], ss)
  | op :: ops => let r := list2_run (list2_step ss op).2 ops in ((list2_step ss op).1 :: r.1, r.2)
  end.

Fixpoint dq2_ops_ok (ss : list Z * list Z) (ops : list dq2_op) : Prop :=
  match ops with
  | [] => True
  | op :: ops => dq2_op_ok ss op ∧ dq2_ops_ok (list2_step ss op).2 ops
  end.

Lemma dq2_run_ok ops : ∀ h qs ss,
  two_rep h qs ss → dq2_ops_ok ss ops →
  ∃ qs' h', dq2_run qs ops h = Some (((list2_run ss ops).1, qs'), h') ∧ two_rep h' qs' (list2_run ss ops).2.
Proof.
  induction ops as [|op ops IH]; intros h qs ss Hr Hok; [by exists qs, h|].
  destruct Hok as [Hop Hok]. destruct (dq2_step_ok h qs ss op Hr Hop) as (qs1 & h1 & E & R).
  destruct (IH h1 qs1 _ R Hok) as (qs' & h' & E' & R'). cbn. erewrite bind_run by exact E.
  erewrite bind_run by exact E'. by exists qs', h'.
Qed.

(** C23. Queues are sequences.  On two new queues in any store, take any
    sequence of insertions and removals at both ends, removals and reads at an
    index in range, reads of the head, removals of all nodes, cleanings of an
    empty queue, moves of nodes out of one queue into the other, and swaps,
    with fewer than 2^31 nodes.  It runs without following a NULL or freed
    pointer and returns what it returns on two lists, whichever nodes come from
    the free lists.  [moveDQueueNodeIn] is no such operation: after it moves
    two or more nodes to the head of an empty queue, every insertion at the
    tail follows a NULL pointer. *)
Theorem dqueue_refines_list h ops :
  store_ok h → dq2_ops_ok ([], []) ops →
  ∃ q t h', dq2_run (initializeDQueue, initializeDQueue) ops h
      = Some (((list2_run ([], []) ops).1, (q, t)), h') ∧
    ((list2_run ([], []) ops).2.1 = [] → (1 < length (list2_run ([], []) ops).2.2)%nat →
     ∃ r h'', moveDQueueNodeIn q t true h' = Some (r, h'') ∧ ∀ data, insertDQueueTailNode r.1 data h'' = None).
Proof.
  intros Hs Hok. destruct (dq2_run_ok ops h (initializeDQueue, initializeDQueue) ([], [])) as ([q t] & h' & E & R);
    [|done|].
  { exists [], [], [], []. split_and!; [by apply empty_queue_rep..|constructor|done]. }
  exists q, t, h'. split; [done|]. destruct R as (l & fl & lt & flt & Hq & Ht & Hd & ->). cbn [fst snd] in *.
  rewrite length_fmap. intros Hl Hlen. apply fmap_nil_inv in Hl as ->.
  pose proof (rep_bound _ _ _ _ Ht) as Hb.
  pose proof (λ data, proj1 (move_in_breaks_queue h' q [] fl t lt flt data Hq Ht Hd Hlen Hb) eq_refl) as Hm.
  destruct (Hm 0) as (r & h'' & Em & _). exists r, h''. split; [done|]. intros data.
  destruct (Hm data) as (r' & h2 & Em' & Hf). rewrite Em in Em'. by injection Em' as <- <-.
Qed.

(** ** Concrete queues

    Two nodes with data 7 and 8 at addresses 1 and 2, and a queue of two nodes
    at addresses 3 and 4 with a free node at 5. *)

Definition demo_store : Store DQueueNodeData :=
  mkStore (list_to_map
    [(1, mkDQueueNode 7 2 NULL); (2, mkDQueueNode 8 NULL 1);
     (3, mkDQueueNode 9 4 NULL); (4, mkDQueueNode 10 NULL 3);
     (5, mkDQueueNode NULL NULL NULL)]) 6.
Definition demo_q : DQueue := mkDQueue 1 2 NULL 2.
Definition demo_t : DQueue := mkDQueue 3 4 5 2.

Lemma demo_ok : store_ok demo_store.
Proof.
  split; [done|]. intros p n Hp. unfold demo_store in Hp. cbn [cells] in Hp.
  apply elem_of_list_to_map_2 in Hp. cbn [brk demo_store].
  repeat (apply elem_of_cons in Hp as [Hp|Hp]; [injection Hp as -> ->; lia|]).
  by apply not_elem_of_nil in Hp.
Qed.

Lemma demo_q_rep : dq_rep demo_store demo_q [(1, 7); (2, 8)] [].
Proof. constructor; try done; [apply demo_ok|]. apply (bool_decide_unpack _). by vm_compute. Qed.

Lemma demo_t_rep : dq_rep demo_store demo_t [(3, 9); (4, 10)] [5].
Proof.
  constructor; try done; [apply demo_ok| |].
  - split; [done|]. by eexists.
  - apply (bool_decide_unpack _). by vm_compute.
Qed.

Definition demo_queue_ops : list dq2_op :=
  [On (InsertHead 7); On (InsertTail 8); On (RemoveAt 1); On (InsertTail 9); On RemoveHead; On (DataAt 0);
   On (InsertTail 5); MoveOut 2 true; On HeadData; Clean].

(** The two queues end as [] and [9; 5]. *)
Lemma dqueue_refines_list_witness :
  ∃ q t h', dq2_run (initializeDQueue, initializeDQueue) demo_queue_ops demo_store
      = Some (([0; 0; 8; 0; 7; 9; 0; 0; 0; 0], (q, t)), h') ∧
    ∃ r h'', moveDQueueNodeIn q t true h' = Some (r, h'') ∧ ∀ data, insertDQueueTailNode r.1 data h'' = None.
Proof.
  destruct (dqueue_refines_list demo_store demo_queue_ops) as (q & t & h' & E & M).
  - apply demo_ok.
  - vm_compute. repeat split; discriminate || lia.
  - exists q, t, h'. split; [exact E|]. apply M; [reflexivity|vm_compute; lia].
Defined.

