(* ===== verification/Bbst.v ===== *)
(** The balanced search tree of the resource manager
    (backend/resourcemanager/utils/balancedbst.c,
    include/utils/balancedbst.h): the code.

    Nodes live in a store ([Store]); a tree is a record of its root, its free
    list and its index from data pointers to nodes, a keyed table
    ([TableIface]).  [int] fields are 32-bit.  The comparison function of a
    tree with its argument is the parameter [DataCompFunc].  Loops have fuel
    and fail when it runs out. *)
From stdpp Require Import prelude numbers gmap.
From S2P Require Import Prelude TableIface Store.
Open Scope store_scope.

Record BBSTNodeData := mkBBSTNode {
  Data : Z;
  Left : Z;
  Right : Z;
  Parent : Z;
  NodeCount : Z;
  Depth : Z
}.

Definition set_Data v n := mkBBSTNode v (Left n) (Right n) (Parent n) (NodeCount n) (Depth n).
Definition set_Left v n := mkBBSTNode (Data n) v (Right n) (Parent n) (NodeCount n) (Depth n).
Definition set_Right v n := mkBBSTNode (Data n) (Left n) v (Parent n) (NodeCount n) (Depth n).
Definition set_Parent v n := mkBBSTNode (Data n) (Left n) (Right n) v (NodeCount n) (Depth n).
Definition set_NodeCount v n := mkBBSTNode (Data n) (Left n) (Right n) (Parent n) v (Depth n).
Definition set_Depth v n := mkBBSTNode (Data n) (Left n) (Right n) (Parent n) (NodeCount n) v.

Definition UTIL_BBST_DUPLICATE_VALUE : Z := 1.
Definition UTIL_BBST_NOT_IN_THIS_TREE : Z := 2.

Abbreviation B A := (M BBSTNodeData A).

(** ** Links *)

Definition connectAsLeftChild (parent child : Z) : B unit :=
  modify parent (set_Left child);;;
  (if child =? NULL then ret tt else modify child (set_Parent parent)).

Definition connectAsRightChild (parent child : Z) : B unit :=
  modify parent (set_Right child);;;
  (if child =? NULL then ret tt else modify child (set_Parent parent)).

Definition disconnectChild (parent child : Z) : B unit :=
  modify parent (λ n, set_Left (if Left n =? child then NULL else Left n) n);;;
  modify parent (λ n, set_Right (if Right n =? child then NULL else Right n) n);;;
  modify child (set_Parent NULL).

(** ** Counts and depths *)

Definition child_count (p : Z) : B Z :=
  if p =? NULL then ret 0 else do n <- load p; ret (NodeCount n).

Definition child_depth (p : Z) : B Z :=
  if p =? NULL then ret 0 else do n <- load p; ret (Depth n).

Definition calculateNodeCount (node : Z) : B unit :=
  do n <- load node;
  do cl <- child_count (Left n);
  do cr <- child_count (Right n);
  modify node (set_NodeCount (s32 (cl + cr + 1))).

Definition calculateNodeDepth (node : Z) : B unit :=
  do n <- load node;
  do dl <- child_depth (Left n);
  modify node (set_Depth dl);;;
  (if Right n =? NULL then ret tt
   else
     do dr <- child_depth (Right n);
     modify node (λ n, set_Depth (if Depth n <? dr then dr else Depth n) n));;;
  modify node (λ n, set_Depth (s32 (Depth n + 1)) n).

Fixpoint shiftupCalculateChildCountAndDepth (fuel : nat) (node : Z) : B unit :=
  match fuel with
  | 0%nat => fault
  | S fuel =>
    if node =? NULL then ret tt
    else
      calculateNodeCount node;;;
      calculateNodeDepth node;;;
      do n <- load node;
      shiftupCalculateChildCountAndDepth fuel (Parent n)
  end.

Definition getBalanceFactor (node : Z) : B Z :=
  do n <- load node;
  do ccleft <- child_depth (Left n);
  do ccright <- child_depth (Right n);
  ret (s32 (ccleft - ccright)).

(** ** Trees *)

Record BBST (T : Type) := mkBBST {
  Root : Z;
  Free : Z;
  NodeIndex : T
}.
Arguments mkBBST {T} Root Free NodeIndex.
Arguments Root {T} b.
Arguments Free {T} b.
Arguments NodeIndex {T} b.

Definition set_Root {T} v (t : BBST T) := mkBBST v (Free t) (NodeIndex t).
Definition set_Free {T} v (t : BBST T) := mkBBST (Root t) v (NodeIndex t).
Definition set_NodeIndex {T} (v : T) (t : BBST T) := mkBBST (Root t) (Free t) v.

(** The pointers a [BBSTNode *] may point to: the root of the tree or a child
    of a node. *)
Inductive place := RootOf | LeftOf (p : Z) | RightOf (p : Z).

Section Code.
Context {T C : Type} `{Countable C} `{!KeyedTable T Z C}.
Context (DataCompFunc : Z → Z → Z).
Implicit Types (tree : BBST T).

Definition write_place tree (nodeptr : place) (v : Z) : B (BBST T) :=
  match nodeptr with
  | RootOf => ret (set_Root v tree)
  | LeftOf p => modify p (set_Left v);;; ret tree
  | RightOf p => modify p (set_Right v);;; ret tree
  end.

(** Rotations *)

Definition rotateNodeBelowLeft tree (nodea : Z) (nodeptr : place) : B (BBST T) :=
  do na <- load nodea;
  do rightbfactor <- getBalanceFactor (Right na);
  let aparent := Parent na in
  let nodeb := Right na in
  do nb <- load nodeb;
  if 0 <? rightbfactor then
    let nodec := Left nb in
    do nc <- load nodec;
    connectAsRightChild nodea (Left nc);;;
    do nc <- load nodec;
    connectAsLeftChild nodeb (Right nc);;;
    connectAsRightChild nodec nodeb;;;
    connectAsLeftChild nodec nodea;;;
    do tree <- write_place tree nodeptr nodec;
    modify nodec (set_Parent aparent);;;
    calculateNodeCount nodeb;;;
    calculateNodeCount nodea;;;
    calculateNodeCount nodec;;;
    calculateNodeDepth nodeb;;;
    calculateNodeDepth nodea;;;
    calculateNodeDepth nodec;;;
    ret tree
  else
    connectAsRightChild nodea (Left nb);;;
    connectAsLeftChild nodeb nodea;;;
    do tree <- write_place tree nodeptr nodeb;
    modify nodeb (set_Parent aparent);;;
    calculateNodeCount nodea;;;
    calculateNodeCount nodeb;;;
    calculateNodeDepth nodea;;;
    calculateNodeDepth nodeb;;;
    ret tree.

Definition rotateNodeBelowRight tree (nodea : Z) (nodeptr : place) : B (BBST T) :=
  do na <- load nodea;
  do leftbfactor <- getBalanceFactor (Left na);
  let aparent := Parent na in
  let nodeb := Left na in
  do nb <- load nodeb;
  if leftbfactor <? 0 then
    let nodec := Right nb in
    do nc <- load nodec;
    connectAsLeftChild nodea (Right nc);;;
    do nc <- load nodec;
    connectAsRightChild nodeb (Left nc);;;
    connectAsLeftChild nodec nodeb;;;
    connectAsRightChild nodec nodea;;;
    do tree <- write_place tree nodeptr nodec;
    modify nodec (set_Parent aparent);;;
    calculateNodeCount nodeb;;;
    calculateNodeCount nodea;;;
    calculateNodeCount nodec;;;
    calculateNodeDepth nodeb;;;
    calculateNodeDepth nodea;;;
    calculateNodeDepth nodec;;;
    ret tree
  else
    connectAsLeftChild nodea (Right nb);;;
    connectAsRightChild nodeb nodea;;;
    do tree <- write_place tree nodeptr nodeb;
    modify nodeb (set_Parent aparent);;;
    calculateNodeCount nodea;;;
    calculateNodeCount nodeb;;;
    calculateNodeDepth nodea;;;
    calculateNodeDepth nodeb;;;
    ret tree.

(** The pointer that points to a node of the tree. *)
Definition childptr (p : Z) : B place :=
  do n <- load p;
  if Parent n =? NULL then ret RootOf
  else
    do q <- load (Parent n);
    ret (if Left q =? p then LeftOf (Parent n) else RightOf (Parent n)).

Fixpoint rebalance_loop (fuel : nat) tree (p : Z) : B (BBST T) :=
  match fuel with
  | 0%nat => fault
  | S fuel =>
    if p =? NULL then ret tree
    else
      do balancefact <- getBalanceFactor p;
      do tree <-
        (if (1 <? balancefact) || (balancefact <? -1) then
           do ptr <- childptr p;
           if 1 <? balancefact then rotateNodeBelowRight tree p ptr
           else rotateNodeBelowLeft tree p ptr
         else ret tree);
      do n <- load p;
      rebalance_loop fuel tree (Parent n)
  end.

Definition rebalanceBBST (fuel : nat) tree (node : Z) : B (BBST T) :=
  rebalance_loop fuel tree node.

(** ** Operations *)

(** On memory set to zero by [rm_palloc0]; the index is a new table. *)
Definition initializeBBST (index : T) : BBST T := mkBBST NULL NULL index.

Definition createBBSTNode tree (data : Z) : B (Z * BBST T) :=
  do r <- (if negb (Free tree =? NULL) then
             do n <- load (Free tree);
             modify (Free tree) (set_Right NULL);;;
             ret (Free tree, set_Free (Right n) tree)
           else
             do p <- alloc (mkBBSTNode NULL NULL NULL NULL 0 0);
             ret (p, tree));
  modify r.1 (λ n, set_Depth 1 (set_NodeCount 1 (set_Data data n)));;;
  ret r.

Definition freeBBSTNode tree (node : Z) : B (BBST T) :=
  modify node (λ n, mkBBSTNode NULL NULL (Right n) NULL (-1) 0);;;
  modify node (set_Right (Free tree));;;
  do n <- load node;
  ret (set_Free (Right n) tree).

Definition getBBSTNode tree (data : Z) : Z := default NULL (table_get (NodeIndex tree) data).

(** The walk of [insertBBSTNode] to the place of the new node: the parent the
    node was connected to. *)
Fixpoint insert_loop (fuel : nat) (p node : Z) : B Z :=
  match fuel with
  | 0%nat => fault
  | S fuel =>
    do n <- load p;
    do nn <- load node;
    if DataCompFunc (Data n) (Data nn) <? 0 then
      if negb (Right n =? NULL) then insert_loop fuel (Right n) node
      else connectAsRightChild p node;;; ret p
    else
      if negb (Left n =? NULL) then insert_loop fuel (Left n) node
      else connectAsLeftChild p node;;; ret p
  end.

Definition insertBBSTNode (fuel : nat) tree (node : Z) : B (Z * BBST T) :=
  do n <- load node;
  match table_get (NodeIndex tree) (Data n) with
  | Some _ => ret (UTIL_BBST_DUPLICATE_VALUE, tree)
  | None =>
    let tree := set_NodeIndex (table_set (NodeIndex tree) (Data n) node) tree in
    if Root tree =? NULL then
      modify node (set_Parent NULL);;;
      ret (FUNC_RETURN_OK, set_Root node tree)
    else
      do p <- insert_loop fuel (Root tree) node;
      shiftupCalculateChildCountAndDepth fuel p;;;
      do tree <- rebalanceBBST fuel tree node;
      ret (FUNC_RETURN_OK, tree)
  end.

(** [while ( toremove->Right != NULL )], and its mirror image. *)
Fixpoint rightmost_loop (fuel : nat) (p : Z) : B Z :=
  match fuel with
  | 0%nat => fault
  | S fuel =>
    do n <- load p;
    if Right n =? NULL then ret p else rightmost_loop fuel (Right n)
  end.

Fixpoint leftmost_loop (fuel : nat) (p : Z) : B Z :=
  match fuel with
  | 0%nat => fault
  | S fuel =>
    do n <- load p;
    if Left n =? NULL then ret p else leftmost_loop fuel (Left n)
  end.

(** Removal of a node that is not the root and has at most one child. *)
Definition remove_leaf (fuel : nat) tree (node : Z) (n : BBSTNodeData) : B (BBST T) :=
  let tree := set_NodeIndex (table_remove (NodeIndex tree) (Data n)).1 tree in
  disconnectChild (Parent n) node;;;
  shiftupCalculateChildCountAndDepth fuel (Parent n);;;
  rebalanceBBST fuel tree (Parent n).

Definition remove_branch (fuel : nat) tree (node : Z) (n : BBSTNodeData) (child : Z)
    : B (BBST T) :=
  let tree := set_NodeIndex (table_remove (NodeIndex tree) (Data n)).1 tree in
  do np <- load (Parent n);
  let connleft := Left np =? node in
  disconnectChild (Parent n) node;;;
  (if connleft then connectAsLeftChild (Parent n) child
   else connectAsRightChild (Parent n) child);;;
  shiftupCalculateChildCountAndDepth fuel (Parent n);;;
  rebalanceBBST fuel tree (Parent n).

(** The three cases in which the root has at most one child. *)
Definition remove_root tree (node : Z) (n : BBSTNodeData) : B (option (BBST T)) :=
  do nr <- load (Root tree);
  if NodeCount nr =? 1 then
    ret (Some (set_NodeIndex (table_clear (NodeIndex tree)) (set_Root NULL tree)))
  else if (Right nr =? NULL) && negb (Left nr =? NULL) then
    modify (Left n) (set_Parent NULL);;;
    modify node (set_Left NULL);;;
    ret (Some (set_NodeIndex (table_remove (NodeIndex tree) (Data n)).1 (set_Root (Left n) tree)))
  else if negb (Right nr =? NULL) && (Left nr =? NULL) then
    modify (Right n) (set_Parent NULL);;;
    modify node (set_Right NULL);;;
    ret (Some (set_NodeIndex (table_remove (NodeIndex tree) (Data n)).1 (set_Root (Right n) tree)))
  else ret None.

(** The result is the return code, the node [*pnode] taken out and the tree. *)
Fixpoint removeBBSTNode (fuel : nat) tree (node : Z) : B (Z * Z * BBST T) :=
  match fuel with
  | 0%nat => fault
  | S fuel' =>
    do n <- load node;
    match table_get (NodeIndex tree) (Data n) with
    | None => ret (UTIL_BBST_NOT_IN_THIS_TREE, node, tree)
    | Some _ =>
      do r <- (if Root tree =? node then remove_root tree node n else ret None);
      match r with
      | Some tree => ret (FUNC_RETURN_OK, node, tree)
      | None =>
        if (Left n =? NULL) && (Right n =? NULL) then
          do tree <- remove_leaf fuel tree node n;
          ret (FUNC_RETURN_OK, node, tree)
        else if negb (Left n =? NULL) && (Right n =? NULL) then
          do tree <- remove_branch fuel tree node n (Left n);
          modify node (set_Left NULL);;;
          ret (FUNC_RETURN_OK, node, tree)
        else if negb (Right n =? NULL) && (Left n =? NULL) then
          do tree <- remove_branch fuel tree node n (Right n);
          modify node (set_Right NULL);;;
          ret (FUNC_RETURN_OK, node, tree)
        else
          do toremove <- rightmost_loop fuel (Left n);
          do nt <- load toremove;
          modify node (set_Data (Data nt));;;
          modify toremove (set_Data (Data n));;;
          let tree := set_NodeIndex (table_set (NodeIndex tree) (Data n) toremove) tree in
          let tree := set_NodeIndex (table_set (NodeIndex tree) (Data nt) node) tree in
          removeBBSTNode fuel' tree toremove
      end
    end
  end.

Definition reorderBBSTNodeData (fuel : nat) tree (data : Z) : B (Z * BBST T) :=
  let node := getBBSTNode tree data in
  if node =? NULL then ret (UTIL_BBST_NOT_IN_THIS_TREE, tree)
  else
    do r <- removeBBSTNode fuel tree node;
    insertBBSTNode fuel r.2 r.1.2.

(** The comparison is given the node itself, not its data. *)
Fixpoint count_loop (fuel : nat) (p critirion res : Z) : B Z :=
  match fuel with
  | 0%nat => fault
  | S fuel =>
    if p =? NULL then ret res
    else
      do n <- load p;
      let comp := DataCompFunc p critirion in
      if 0 <? comp then count_loop fuel (Left n) critirion res
      else
        do cl <- child_count (Left n);
        let res := s32 (res + 1 + cl) in
        if comp =? 0 then ret res else count_loop fuel (Right n) critirion res
  end.

Definition countBBSTNodeNoLessThan (fuel : nat) tree (critirion : Z) : B Z :=
  count_loop fuel (Root tree) critirion 0.

Definition getBBSTNodeCount tree : B Z := child_count (Root tree).

Fixpoint clearBBST (fuel : nat) (rounds : nat) tree : B (BBST T) :=
  match rounds with
  | 0%nat => fault
  | S rounds =>
    if Root tree =? NULL then ret tree
    else
      do r <- removeBBSTNode fuel tree (Root tree);
      do tree <- freeBBSTNode r.2 r.1.2;
      clearBBST fuel rounds tree
  end.

Fixpoint freeBBSTFreeNodes (fuel : nat) tree : B (BBST T) :=
  match fuel with
  | 0%nat => fault
  | S fuel =>
    if Free tree =? NULL then ret tree
    else
      do n <- load (Free tree);
      dealloc (Free tree);;;
      freeBBSTFreeNodes fuel (set_Free (Right n) tree)
  end.

Fixpoint getDepthOfBBST (fuel : nat) (ptr : Z) : B Z :=
  match fuel with
  | 0%nat => fault
  | S fuel =>
    if ptr =? NULL then ret 0
    else
      do n <- load ptr;
      do leftdepth <- getDepthOfBBST fuel (Left n);
      do rightdepth <- getDepthOfBBST fuel (Right n);
      ret (if rightdepth <? leftdepth then leftdepth + 1 else rightdepth + 1)
  end.

Definition getMaxDepthofBBST (fuel : nat) tree : B Z := getDepthOfBBST fuel (Root tree).

Definition getLeftMostNode (fuel : nat) tree : B Z :=
  if Root tree =? NULL then ret NULL else leftmost_loop fuel (Root tree).

Definition getRightMostNode (fuel : nat) tree : B Z :=
  if Root tree =? NULL then ret NULL else rightmost_loop fuel (Root tree).

End Code.
