(* ===== verification/BbstTree.v ===== *)
(** Balanced search trees as values.

    The trees of [Bbst] without pointers: every node carries its address, its
    data, and the count and depth it stores.  Rotations and the rebalancing
    loop are functions on trees, and on trees with a hole for the walk from a
    node to the root.  The stored depths are those of the code, which are not
    recomputed above a rotation: the invariant [tok] says what still holds of
    them, and is enough for the loop to end. *)
From Stdlib Require Import Sorted.
From stdpp Require Import prelude numbers list.
From S2P Require Import Prelude Store.

Inductive tree :=
  | Leaf
  | Node (l : tree) (a d c dp : Z) (r : tree).

#[export] Instance tree_eq_dec : EqDecision tree.
Proof. solve_decision. Defined.

Definition root (t : tree) : Z := match t with Leaf => NULL | Node _ a _ _ _ _ => a end.
Definition cnt (t : tree) : Z := match t with Leaf => 0 | Node _ _ _ c _ _ => c end.
Definition dep (t : tree) : Z := match t with Leaf => 0 | Node _ _ _ _ dp _ => dp end.

Fixpoint size (t : tree) : Z :=
  match t with Leaf => 0 | Node l _ _ _ _ r => size l + size r + 1 end.
Fixpoint height (t : tree) : Z :=
  match t with Leaf => 0 | Node l _ _ _ _ r => Z.max (height l) (height r) + 1 end.

(** Addresses, and the nodes in order with their data. *)
Fixpoint addrs (t : tree) : list Z :=
  match t with Leaf => [] | Node l a _ _ _ r => a :: addrs l ++ addrs r end.
Fixpoint items (t : tree) : list (Z * Z) :=
  match t with Leaf => [] | Node l a d _ _ r => items l ++ (a, d) :: items r end.

(** A node with its count and depth recomputed. *)
Definition mkn (l : tree) (a d : Z) (r : tree) : tree :=
  Node l a d (s32 (cnt l + cnt r + 1)) (s32 (Z.max (dep l) (dep r) + 1)) r.

Definition factor (t : tree) : Z :=
  match t with Leaf => 0 | Node l _ _ _ _ r => s32 (dep l - dep r) end.
Definition unbalanced (t : tree) : bool := (1 <? factor t) || (factor t <? -1).

Definition rot_left (t : tree) : tree :=
  match t with
  | Node l a da _ _ (Node rl b db _ _ rr as tb) =>
    if 0 <? factor tb then
      match rl with
      | Node x c dc _ _ y => mkn (mkn l a da x) c dc (mkn y b db rr)
      | Leaf => t
      end
    else mkn (mkn l a da rl) b db rr
  | _ => t
  end.

Definition rot_right (t : tree) : tree :=
  match t with
  | Node (Node ll b db _ _ lr as tb) a da _ _ r =>
    if factor tb <? 0 then
      match lr with
      | Node x c dc _ _ y => mkn (mkn ll b db x) c dc (mkn y a da r)
      | Leaf => t
      end
    else mkn ll b db (mkn lr a da r)
  | _ => t
  end.

Definition rot (t : tree) : tree := if 1 <? factor t then rot_right t else rot_left t.

(** ** Trees with a hole *)

Record frame := mkFrame {
  fleft : bool;   (** the hole is the left child *)
  fa : Z;
  fd : Z;
  fc : Z;
  fdp : Z;
  fsib : tree
}.

Definition plug1 (f : frame) (t : tree) : tree :=
  if fleft f then Node t (fa f) (fd f) (fc f) (fdp f) (fsib f)
  else Node (fsib f) (fa f) (fd f) (fc f) (fdp f) t.

(** The innermost frame is first. *)
Fixpoint plug (k : list frame) (t : tree) : tree :=
  match k with [] => t | f :: k => plug k (plug1 f t) end.

(** Recompute the count and depth of the frames around a tree. *)
Definition refit (f : frame) (t : tree) : frame :=
  mkFrame (fleft f) (fa f) (fd f)
    (s32 (cnt t + cnt (fsib f) + 1)) (s32 (Z.max (dep t) (dep (fsib f)) + 1)) (fsib f).

Fixpoint shift (t : tree) (k : list frame) : list frame :=
  match k with
  | [] => []
  | f :: k => refit f t :: shift (plug1 (refit f t) t) k
  end.

(** Rebalancing from the hole to the root: a rotation stays at the hole. *)
Fixpoint rebalance (fuel : nat) (t : tree) (k : list frame) : option tree :=
  match fuel with
  | 0%nat => None
  | S fuel =>
    if unbalanced t then rebalance fuel (rot t) k
    else match k with [] => Some t | f :: k => rebalance fuel (plug1 f t) k end
  end.

(** ** Invariant

    Counts are exact; a stored depth is above the stored depths of the
    children and at most the number of nodes. *)
Fixpoint tok (t : tree) : Prop :=
  match t with
  | Leaf => True
  | Node l _ _ c dp r =>
    tok l ∧ tok r ∧ c = size t ∧ Z.max (dep l) (dep r) + 1 ≤ dp ≤ size t
  end.

Abbreviation fits t := (size t < 2 ^ 31).

Lemma size_nonneg t : 0 ≤ size t.
Proof. induction t; simpl; lia. Qed.

Lemma tok_cnt t : tok t → cnt t = size t.
Proof. destruct t; simpl; [done|tauto]. Qed.

Lemma tok_dep t : tok t → 0 ≤ dep t ≤ size t.
Proof.
  induction t as [|l IHl a d c dp r IHr]; simpl; [lia|]. intros (Hl & Hr & _ & H).
  specialize (IHl Hl). specialize (IHr Hr). lia.
Qed.

Lemma tok_height t : tok t → height t ≤ dep t.
Proof.
  induction t as [|l IHl a d c dp r IHr]; simpl; [lia|]. intros (Hl & Hr & _ & H).
  specialize (IHl Hl). specialize (IHr Hr). lia.
Qed.

(** Facts about the stored fields of all well-formed trees at hand. *)
Ltac tok_facts :=
  repeat match goal with
  | H : tok ?t |- _ =>
    lazymatch goal with
    | _ : cnt t = size t |- _ => fail
    | _ => pose proof (tok_cnt t H); pose proof (tok_dep t H); pose proof (size_nonneg t)
    end
  end.

Lemma mkn_eq l a d r :
  tok l → tok r → size l + size r + 1 < 2 ^ 31 →
  mkn l a d r = Node l a d (size l + size r + 1) (Z.max (dep l) (dep r) + 1) r.
Proof. intros Hl Hr Hs. tok_facts. unfold mkn. rewrite !s32_id by lia. congruence. Qed.

Lemma mkn_tok l a d r : tok l → tok r → size l + size r + 1 < 2 ^ 31 → tok (mkn l a d r).
Proof. intros Hl Hr Hs. tok_facts. rewrite mkn_eq by done. simpl. split_and!; done || lia. Qed.

Lemma factor_eq l a d c dp r :
  tok l → tok r → size l + size r + 1 < 2 ^ 31 →
  factor (Node l a d c dp r) = dep l - dep r.
Proof. intros Hl Hr Hs. tok_facts. simpl. rewrite s32_id; lia. Qed.

(** The sum of the stored depths decreases with every rotation that does not
    leave a balanced tree. *)
Fixpoint tsum (t : tree) : Z :=
  match t with Leaf => 0 | Node l _ _ _ dp r => tsum l + tsum r + dp end.

Record rotated (t t' : tree) : Prop := {
  rot_tok : tok t';
  rot_items : items t' = items t;
  rot_size : size t' = size t;
  rot_dep : dep t' ≤ dep t;
  rot_sum : tsum t' < tsum t ∨ tsum t' = tsum t ∧ unbalanced t' = false
}.

Lemma rot_left_ok t : tok t → fits t → factor t < -1 → rotated t (rot_left t).
Proof.
  intros Ht Hs Hf. destruct t as [|l a da ca dpa r]; [done|].
  destruct Ht as (Hl & Hr & -> & Ha). cbn [size] in Hs. rewrite factor_eq in Hf by done.
  tok_facts. destruct r as [|rl b db cb dpb rr]; [simpl in *; lia|].
  destruct Hr as (Hrl & Hrr & _ & Hb). cbn [size dep] in *. unfold rot_left.
  tok_facts. rewrite factor_eq by (done || lia).
  destruct (Z.ltb_spec 0 (dep rl - dep rr)) as [Hc|Hc].
  - destruct rl as [|x c dc cc dpc y]; [simpl in *; lia|].
    destruct Hrl as (Hx & Hy & _ & Hcc). cbn [size dep] in *. tok_facts.
    assert (Hm1 : tok (mkn l a da x)) by (apply mkn_tok; done || lia).
    assert (Hm2 : tok (mkn y b db rr)) by (apply mkn_tok; done || lia).
    revert Hm1 Hm2. rewrite !(mkn_eq l), !(mkn_eq y) by (done || lia). intros Hm1 Hm2.
    rewrite mkn_eq by (done || simpl; lia). split; cbn.
    + cbn in Hm1, Hm2. split_and!; try tauto; lia.
    + by rewrite <- !(assoc_L (++)).
    + lia.
    + lia.
    + left. lia.
  - assert (Hm1 : tok (mkn l a da rl)) by (apply mkn_tok; done || lia).
    revert Hm1. rewrite !(mkn_eq l) by (done || lia). intros Hm1.
    rewrite mkn_eq by (done || simpl; lia). split.
    + cbn. cbn in Hm1. split_and!; try tauto; lia.
    + cbn. by rewrite <- !(assoc_L (++)).
    + cbn. lia.
    + cbn. lia.
    + unfold unbalanced. rewrite factor_eq by (done || simpl; lia). cbn. lia.
Qed.

(** Right rotations are left rotations of the mirror image. *)
Fixpoint mirror (t : tree) : tree :=
  match t with Leaf => Leaf | Node l a d c dp r => Node (mirror r) a d c dp (mirror l) end.

Lemma mirror_dep t : dep (mirror t) = dep t.
Proof. by destruct t. Qed.
Lemma mirror_cnt t : cnt (mirror t) = cnt t.
Proof. by destruct t. Qed.
Lemma mirror_size t : size (mirror t) = size t.
Proof. induction t; simpl; lia. Qed.
Lemma mirror_tsum t : tsum (mirror t) = tsum t.
Proof. induction t; simpl; lia. Qed.
Lemma mirror_mirror t : mirror (mirror t) = t.
Proof. induction t; simpl; congruence. Qed.

Lemma mirror_items t : items (mirror t) = reverse (items t).
Proof.
  induction t as [|l IHl a d c dp r IHr]; simpl; [done|].
  by rewrite IHl, IHr, reverse_app, reverse_cons, <- (assoc_L (++)).
Qed.

Lemma mirror_tok t : tok t → tok (mirror t).
Proof.
  induction t as [|l IHl a d c dp r IHr]; simpl; [done|]. intros (Hl & Hr & Hc & Hd).
  rewrite !mirror_dep, !mirror_size. split_and!; auto; lia.
Qed.

Lemma mirror_mkn l a d r : mirror (mkn l a d r) = mkn (mirror r) a d (mirror l).
Proof.
  unfold mkn. cbn. rewrite !mirror_dep, !mirror_cnt. f_equal; f_equal; lia.
Qed.

Lemma mirror_factor t : tok t → fits t → factor (mirror t) = - factor t.
Proof.
  intros Ht Hs. destruct t as [|l a d c dp r]; [done|]. destruct Ht as (Hl & Hr & _ & _).
  cbn [size] in Hs. cbn [mirror]. rewrite !factor_eq; [rewrite !mirror_dep; lia|done..| | |].
  - by apply mirror_tok.
  - by apply mirror_tok.
  - rewrite !mirror_size. lia.
Qed.

Lemma rot_right_mirror t :
  tok t → fits t → rot_right t = mirror (rot_left (mirror t)).
Proof.
  intros Ht Hs. destruct t as [|[|ll b db cb dpb lr] a da ca dpa r]; [done|by cbn; rewrite mirror_mirror|].
  destruct Ht as (Hb & Hr & _ & _). cbn [size] in Hs. pose proof (size_nonneg r).
  cbn [mirror rot_left rot_right].
  change (Node (mirror lr) b db cb dpb (mirror ll)) with (mirror (Node ll b db cb dpb lr)).
  rewrite mirror_factor by (done || cbn [size]; lia).
  set (f := factor (Node ll b db cb dpb lr)).
  destruct (Z.ltb_spec f 0), (Z.ltb_spec 0 (- f)); try lia.
  - destruct lr as [|x c dc cc dpc y]; cbn [mirror]; [by rewrite !mirror_mirror|].
    by rewrite !mirror_mkn, !mirror_mirror.
  - by rewrite !mirror_mkn, !mirror_mirror.
Qed.

Lemma unbalanced_mirror t : tok t → fits t → unbalanced (mirror t) = unbalanced t.
Proof. intros Ht Hs. unfold unbalanced. rewrite mirror_factor by done. lia. Qed.

Lemma rotated_mirror t t' : fits t → rotated (mirror t) t' → rotated t (mirror t').
Proof.
  intros Hs [Ht Hi Hz Hd Hsum]. rewrite mirror_size in Hz. split.
  - by apply mirror_tok.
  - by rewrite mirror_items, Hi, mirror_items, reverse_involutive.
  - by rewrite mirror_size.
  - by rewrite mirror_dep, <- (mirror_dep t).
  - rewrite mirror_tsum in *. rewrite unbalanced_mirror by (done || lia). done.
Qed.

Lemma rot_ok t : tok t → fits t → unbalanced t = true → rotated t (rot t).
Proof.
  intros Ht Hs Hu. unfold unbalanced in Hu. unfold rot.
  destruct (Z.ltb_spec 1 (factor t)) as [Hf|Hf].
  - rewrite rot_right_mirror by done. apply rotated_mirror; [done|].
    apply rot_left_ok; [by apply mirror_tok|by rewrite mirror_size|].
    rewrite mirror_factor by done. lia.
  - apply rot_left_ok; [done..|lia].
Qed.

(** ** The walk to the root *)

Lemma plug_app k1 k2 t : plug (k1 ++ k2) t = plug k2 (plug k1 t).
Proof. revert t. induction k1; intros t; simpl; auto. Qed.

Lemma tok_plug1 f t :
  tok (plug1 f t) ↔ tok t ∧ tok (fsib f) ∧ fc f = size t + size (fsib f) + 1 ∧
    Z.max (dep t) (dep (fsib f)) + 1 ≤ fdp f ≤ size t + size (fsib f) + 1.
Proof. unfold plug1. destruct (fleft f); simpl; split; intros; split_and!; (tauto || lia). Qed.

Lemma size_plug1 f t : size (plug1 f t) = size t + size (fsib f) + 1.
Proof. unfold plug1. destruct (fleft f); simpl; lia. Qed.

Lemma tsum_plug1 f t : tsum (plug1 f t) = tsum t + tsum (fsib f) + fdp f.
Proof. unfold plug1. destruct (fleft f); simpl; lia. Qed.

Lemma dep_plug1 f t : dep (plug1 f t) = fdp f.
Proof. unfold plug1. by destruct (fleft f). Qed.

Lemma tok_hole k t : tok (plug k t) → tok t.
Proof. revert t. induction k as [|f k IH]; intros t Ht; simpl in *; [done|].
  apply IH, tok_plug1 in Ht. tauto.
Qed.

Lemma size_hole k t : size t ≤ size (plug k t).
Proof.
  revert t. induction k as [|f k IH]; intros t; simpl; [done|].
  specialize (IH (plug1 f t)). rewrite size_plug1 in IH. pose proof (size_nonneg (fsib f)). lia.
Qed.

(** A tree in a hole may be replaced by one of the same size that is not
    deeper. *)
Lemma plug_replace k t t' :
  tok (plug k t) → tok t' → size t' = size t → dep t' ≤ dep t →
  tok (plug k t') ∧ size (plug k t') = size (plug k t) ∧
  tsum (plug k t') - tsum t' = tsum (plug k t) - tsum t.
Proof.
  revert t t'. induction k as [|f k IH]; intros t t' Hk Ht' Hs Hd; simpl in *; [split_and!; done || lia|].
  pose proof (tok_hole _ _ Hk) as Hf. apply tok_plug1 in Hf as (_ & Hsib & Hc & Hdp).
  destruct (IH (plug1 f t) (plug1 f t')) as (H1 & H2 & H3); [done| | | |].
  - apply tok_plug1. split_and!; done || lia.
  - rewrite !size_plug1. lia.
  - by rewrite !dep_plug1.
  - rewrite !tsum_plug1 in H3. split_and!; done || lia.
Qed.

Lemma items_plug k t t' : items t' = items t → items (plug k t') = items (plug k t).
Proof.
  revert t t'. induction k as [|f k IH]; intros t t' Hi; simpl; [done|]. apply IH.
  unfold plug1. destruct (fleft f); simpl; congruence.
Qed.

(** Enough fuel for rebalancing from a hole. *)
Definition reb_measure (t : tree) (k : list frame) : nat :=
  (2 * (Z.to_nat (tsum (plug k t)) + length k) + (if unbalanced t then 1 else 0))%nat.

Lemma tsum_nonneg t : tok t → 0 ≤ tsum t.
Proof.
  induction t as [|l IHl a d c dp r IHr]; simpl; [done|]. intros (Hl & Hr & _ & Hd).
  specialize (IHl Hl). specialize (IHr Hr). tok_facts. lia.
Qed.

Lemma rebalance_ok fuel t k :
  tok (plug k t) → fits (plug k t) → (reb_measure t k < fuel)%nat →
  ∃ t', rebalance fuel t k = Some t' ∧ tok t' ∧ items t' = items (plug k t) ∧
        size t' = size (plug k t).
Proof.
  revert t k. induction fuel as [|fuel IH]; intros t k Hk Hs Hm; [lia|]. simpl.
  unfold reb_measure in Hm. pose proof (tsum_nonneg _ Hk).
  destruct (unbalanced t) eqn:Hu.
  - destruct (rot_ok t) as [Rt Ri Rs Rd Rm];
      [by eapply tok_hole|pose proof (size_hole k t); lia|done|].
    destruct (plug_replace k t (rot t) Hk Rt Rs Rd) as (H1 & H2 & H3).
    pose proof (tsum_nonneg _ H1).
    destruct (IH (rot t) k) as (t' & E & T' & I' & S'); [done|lia| |].
    { unfold reb_measure. destruct Rm as [Rm|[Rm ->]]; [destruct (unbalanced (rot t))|]; lia. }
    exists t'. split_and!; [done..| |lia]. rewrite I'. by apply items_plug.
  - destruct k as [|f k]; [by eexists|]. cbn [plug length] in *.
    apply IH; [done..|]. unfold reb_measure. destruct (unbalanced (plug1 f t)); lia.
Qed.

Lemma tsum_bound t : tok t → tsum t ≤ size t * size t.
Proof.
  induction t as [|l IHl a d c dp r IHr]; simpl; [lia|]. intros (Hl & Hr & _ & Hd).
  specialize (IHl Hl). specialize (IHr Hr). tok_facts. nia.
Qed.

Lemma length_plug k t : Z.of_nat (length k) + size t ≤ size (plug k t).
Proof.
  revert t. induction k as [|f k IH]; intros t; simpl; [lia|].
  specialize (IH (plug1 f t)). rewrite size_plug1 in IH. pose proof (size_nonneg (fsib f)). lia.
Qed.

(** Enough fuel for every loop over a tree of [n] nodes. *)
Definition fuel_for (n : Z) : nat := Z.to_nat (2 * (n * n + n) + 3).

Lemma reb_fuel t k : tok (plug k t) → (reb_measure t k < fuel_for (size (plug k t)))%nat.
Proof.
  intros Hk. pose proof (tsum_bound _ Hk). pose proof (tsum_nonneg _ Hk).
  pose proof (length_plug k t). pose proof (size_nonneg t).
  unfold reb_measure, fuel_for. destruct (unbalanced t); nia.
Qed.

Lemma fuel_for_mono n m : 0 ≤ n ≤ m → (fuel_for n ≤ fuel_for m)%nat.
Proof. unfold fuel_for. nia. Qed.

Lemma fuel_for_gt n : 0 ≤ n → (Z.to_nat n + 2 < fuel_for n)%nat.
Proof. unfold fuel_for. nia. Qed.

(** ** Recomputing counts and depths to the root *)

Lemma sibs_tok k t : tok (plug k t) → Forall (λ f, tok (fsib f)) k.
Proof.
  revert t. induction k as [|f k IH]; intros t Hk; simpl in *; [done|].
  constructor; [|by eapply IH]. apply tok_hole, tok_plug1 in Hk. tauto.
Qed.

Lemma plug_size k t t' : size t = size t' → size (plug k t) = size (plug k t').
Proof.
  revert t t'. induction k as [|f k IH]; intros t t' Ht; simpl; [done|]. apply IH.
  rewrite !size_plug1. lia.
Qed.

Lemma plug_size_le k t t' : size t ≤ size t' → size (plug k t) ≤ size (plug k t').
Proof.
  revert t t'. induction k as [|f k IH]; intros t t' Ht; simpl; [done|]. apply IH.
  rewrite !size_plug1. lia.
Qed.

Lemma shift_ok k t :
  tok t → Forall (λ f, tok (fsib f)) k → fits (plug k t) →
  tok (plug (shift t k) t) ∧ size (plug (shift t k) t) = size (plug k t).
Proof.
  revert t. induction k as [|f k IH]; intros t Ht Hk Hs; simpl in *; [done|].
  apply Forall_cons in Hk as [Hf Hk]. tok_facts.
  pose proof (size_hole k (plug1 f t)) as Hz. rewrite size_plug1 in Hz.
  assert (Hr : size (plug1 (refit f t) t) = size (plug1 f t)) by (by rewrite !size_plug1).
  destruct (IH (plug1 (refit f t) t)) as [G1 G2]; [|done|by rewrite (plug_size k _ _ Hr)|].
  - apply tok_plug1. cbn. rewrite !s32_id by lia. split_and!; done || lia.
  - split; [done|]. by rewrite G2, (plug_size k _ _ Hr).
Qed.

(** ** In order *)

Fixpoint before (k : list frame) : list (Z * Z) :=
  match k with
  | [] => []
  | f :: k => before k ++ (if fleft f then [] else items (fsib f) ++ [(fa f, fd f)])
  end.
Fixpoint after (k : list frame) : list (Z * Z) :=
  match k with
  | [] => []
  | f :: k => (if fleft f then (fa f, fd f) :: items (fsib f) else []) ++ after k
  end.

Lemma items_hole k t : items (plug k t) = before k ++ items t ++ after k.
Proof.
  revert t. induction k as [|f k IH]; intros t; simpl; [by rewrite app_nil_r|].
  rewrite IH. unfold plug1. destruct (fleft f); simpl; by rewrite ?app_nil_r, <- !(assoc_L (++)).
Qed.

Lemma before_shift k t : before (shift t k) = before k.
Proof. revert t. induction k as [|f k IH]; intros t; simpl; [done|]. by rewrite IH. Qed.
Lemma after_shift k t : after (shift t k) = after k.
Proof. revert t. induction k as [|f k IH]; intros t; simpl; [done|]. by rewrite IH. Qed.

Lemma items_shift k t : items (plug (shift t k) t) = items (plug k t).
Proof. by rewrite !items_hole, before_shift, after_shift. Qed.

Lemma size_items t : size t = Z.of_nat (length (items t)).
Proof. induction t as [|l IHl a d c dp r IHr]; simpl; [done|]. rewrite length_app. simpl. lia. Qed.

Lemma items_addrs t : (items t).*1 ≡ₚ addrs t.
Proof.
  induction t as [|l IHl a d c dp r IHr]; simpl; [done|].
  rewrite fmap_app. cbn. by rewrite <- Permutation_middle, IHl, IHr.
Qed.

(** ** Order *)

Section Order.
Context (comp : Z → Z → Z).

(** The place of new data: below every node in the order of the search. *)
Fixpoint descend (d : Z) (t : tree) (k : list frame) : list frame :=
  match t with
  | Leaf => k
  | Node l a d' c dp r =>
    if comp d' d <? 0 then descend d r (mkFrame false a d' c dp l :: k)
    else descend d l (mkFrame true a d' c dp r :: k)
  end.

Lemma descend_plug d t k : plug (descend d t k) Leaf = plug k t.
Proof.
  revert k. induction t as [|l IHl a d' c dp r IHr]; intros k; simpl; [done|].
  destruct (comp d' d <? 0); [by rewrite IHr|by rewrite IHl].
Qed.

(** Insertion into an ordered list: before the first that is not smaller. *)
Fixpoint ordered_insert (d : Z) (s : list Z) : list Z :=
  match s with
  | [] => [d]
  | y :: s => if comp y d <? 0 then y :: ordered_insert d s else d :: y :: s
  end.

Context (comp_antisym : ∀ x y, comp x y < 0 ↔ 0 < comp y x).
Context (comp_trans : ∀ x y z, comp x y ≤ 0 → comp y z ≤ 0 → comp x z ≤ 0).

Definition ordered (s : list Z) : Prop := StronglySorted (λ x y, comp x y ≤ 0) s.

Lemma ordered_insert_app d s1 s2 :
  Forall (λ y, comp y d < 0) s1 → Forall (λ y, 0 ≤ comp y d) s2 →
  ordered_insert d (s1 ++ s2) = s1 ++ d :: s2.
Proof.
  intros H1 H2. induction H1 as [|y s1 Hy _ IH]; simpl.
  - destruct H2 as [|y s2 Hy _]; simpl; [done|]. by rewrite (proj2 (Z.ltb_ge _ _) Hy).
  - by rewrite (proj2 (Z.ltb_lt _ _) Hy), IH.
Qed.

Lemma comp_lt_le x y z : comp x y ≤ 0 → comp y z < 0 → comp x z < 0.
Proof.
  intros H1 H2. apply comp_antisym. apply Z.nle_gt. intros H3.
  pose proof (comp_trans z x y H3 H1). apply comp_antisym in H2. lia.
Qed.

Lemma comp_ge_le x y z : 0 ≤ comp x z → comp x y ≤ 0 → 0 ≤ comp y z.
Proof.
  intros H1 H2. apply Z.nlt_ge. intros H3. pose proof (comp_lt_le _ _ _ H2 H3). lia.
Qed.

Lemma ordered_app s1 s2 :
  ordered (s1 ++ s2) ↔ ordered s1 ∧ ordered s2 ∧ ∀ x y, x ∈ s1 → y ∈ s2 → comp x y ≤ 0.
Proof.
  unfold ordered. induction s1 as [|x s1 IH]; simpl.
  - split; [|tauto]. intros H. split_and!; [constructor|done|]. intros ? ? H'. by apply not_elem_of_nil in H'.
  - split.
    + intros H. apply StronglySorted_inv in H as [H Hx]. apply IH in H as (H1 & H2 & H3).
      apply Forall_app in Hx as [Hx1 Hx2]. rewrite Forall_forall in Hx2.
      split_and!; [by constructor|done|]. intros y z Hy Hz.
      apply elem_of_cons in Hy as [->|Hy]; auto.
    + intros (H1 & H2 & H3). apply StronglySorted_inv in H1 as [H1 Hx].
      constructor; [apply IH; split_and!; [done..|]; intros; apply H3; [by right|done]|].
      apply Forall_app. split; [done|]. apply Forall_forall. intros y Hy. apply H3; [by left|done].
Qed.

Lemma descend_order d t k :
  ordered (items t).*2 →
  Forall (λ y, comp y d < 0) (before k).*2 → Forall (λ y, 0 ≤ comp y d) (after k).*2 →
  Forall (λ y, comp y d < 0) (before (descend d t k)).*2 ∧
  Forall (λ y, 0 ≤ comp y d) (after (descend d t k)).*2.
Proof.
  revert k. induction t as [|l IHl a d' c dp r IHr]; intros k Ho Hb Ha; simpl; [done|].
  cbn in Ho. rewrite fmap_app in Ho. cbn in Ho. apply ordered_app in Ho as (Ho1 & Ho2 & Ho3).
  apply StronglySorted_inv in Ho2 as [Ho2 Hr]. rewrite Forall_forall in Hr.
  destruct (Z.ltb_spec (comp d' d) 0) as [Hd|Hd].
  - apply IHr; [done| |done]. cbn. rewrite !fmap_app. apply Forall_app. split; [done|].
    apply Forall_app. split; [|by constructor]. apply Forall_forall. intros y Hy.
    eapply comp_lt_le; [|done]. apply Ho3; [done|by left].
  - apply IHl; [done|by cbn; rewrite app_nil_r|]. cbn. rewrite !fmap_app. cbn. constructor; [done|].
    apply Forall_app. split; [|done]. apply Forall_forall. intros y Hy.
    eapply comp_ge_le; [done|]. by apply Hr.
Qed.

(** Putting a leaf at the place of new data inserts it into the order. *)
Lemma descend_insert a d c dp t :
  ordered (items t).*2 →
  (items (plug (descend d t []) (Node Leaf a d c dp Leaf))).*2
    = ordered_insert d (items t).*2.
Proof.
  intros Ho. pose proof (descend_plug d t []) as Hp. cbn in Hp.
  destruct (descend_order d t [] Ho) as [Hb Ha]; [constructor..|].
  rewrite <- Hp at 2. rewrite !items_hole. cbn. rewrite !fmap_app. cbn.
  by rewrite ordered_insert_app.
Qed.

Lemma ordered_insert_perm d s : ordered_insert d s ≡ₚ d :: s.
Proof.
  induction s as [|y s IH]; simpl; [done|]. destruct (comp y d <? 0); [|done].
  rewrite IH. apply Permutation_swap.
Qed.

Lemma ordered_insert_ordered d s : ordered s → ordered (ordered_insert d s).
Proof.
  induction s as [|y s IH]; intros Hs; simpl; [repeat constructor|].
  pose proof Hs as Hs'. apply StronglySorted_inv in Hs as [Hs Hy].
  destruct (Z.ltb_spec (comp y d) 0) as [Hd|Hd].
  - constructor; [by apply IH|]. rewrite ordered_insert_perm. constructor; [lia|done].
  - assert (comp d y ≤ 0) by (pose proof (comp_antisym y d); lia).
    constructor; [done|]. constructor; [done|]. eapply Forall_impl; [done|].
    intros z Hz. by eapply comp_trans.
Qed.
End Order.
