(* ===== verification/BbstRep.v ===== *)
(** Trees in the store.

    A store is described by a list of separate pieces: single nodes, trees
    hanging below a parent, and trees with a hole.  Code is run against such
    a description: every read finds its node in a piece, every write replaces
    one piece and leaves the others.  The lemmas show that the code of [Bbst]
    does on pieces what the functions of [BbstTree] do on trees. *)
From stdpp Require Import prelude numbers list gmap.
From S2P Require Import Prelude TableIface Store Bbst BbstTree.
Open Scope store_scope.

Abbreviation nodes := (gmap Z BBSTNodeData).

Fixpoint tree_rep (m : nodes) (p : Z) (t : tree) : Prop :=
  match t with
  | Leaf => True
  | Node l a d c dp r =>
    m !! a = Some (mkBBSTNode d (root l) (root r) p c dp) ∧ tree_rep m a l ∧ tree_rep m a r
  end.

(** The parent of the hole. *)
Definition top (k : list frame) : Z := match k with [] => NULL | f :: _ => fa f end.

Definition frame_node (hole p : Z) (f : frame) : BBSTNodeData :=
  if fleft f then mkBBSTNode (fd f) hole (root (fsib f)) p (fc f) (fdp f)
  else mkBBSTNode (fd f) (root (fsib f)) hole p (fc f) (fdp f).

Fixpoint ctx_rep (m : nodes) (hole : Z) (k : list frame) : Prop :=
  match k with
  | [] => True
  | f :: k =>
    m !! fa f = Some (frame_node hole (top k) f) ∧ tree_rep m (fa f) (fsib f) ∧ ctx_rep m (fa f) k
  end.

Fixpoint kaddrs (k : list frame) : list Z :=
  match k with [] => [] | f :: k => fa f :: addrs (fsib f) ++ kaddrs k end.

Inductive piece :=
  | Cell (a : Z) (n : BBSTNodeData)
  | Tree (p : Z) (t : tree)
  | Ctx (hole : Z) (k : list frame).

Definition foot (x : piece) : list Z :=
  match x with Cell a _ => [a] | Tree _ t => addrs t | Ctx _ k => kaddrs k end.

Definition piece_ok (m : nodes) (x : piece) : Prop :=
  match x with
  | Cell a n => m !! a = Some n
  | Tree p t => tree_rep m p t
  | Ctx hole k => ctx_rep m hole k
  end.

Definition feet (H : list piece) : list Z := mjoin (foot <$> H).

Record holds (h : Store BBSTNodeData) (H : list piece) : Prop := {
  holds_store : store_ok h;
  holds_pieces : Forall (piece_ok (cells h)) H;
  holds_feet : NoDup (feet H)
}.

(** Permutations of pieces written out in front of the same rest. *)
Ltac perm_pull i :=
  etrans; [|symmetry; apply (delete_Permutation _ i); reflexivity];
  cbn [delete list_delete]; apply Permutation_skip.
Ltac perm_solve :=
  first
    [ reflexivity
    | first [ perm_pull 0%nat | perm_pull 1%nat | perm_pull 2%nat | perm_pull 3%nat
            | perm_pull 4%nat | perm_pull 5%nat | perm_pull 6%nat | perm_pull 7%nat
            | perm_pull 8%nat | perm_pull 9%nat ]; perm_solve ].

(** ** Pieces *)

Lemma tree_rep_frame m m' p t :
  (∀ a, a ∈ addrs t → m' !! a = m !! a) → tree_rep m p t → tree_rep m' p t.
Proof.
  revert p. induction t as [|l IHl a d c dp r IHr]; intros p Hm Ht; simpl in *; [done|].
  destruct Ht as (Ha & Hl & Hr). split_and!.
  - rewrite Hm; [done|by left].
  - apply IHl; [|done]. intros b Hb. apply Hm. right. apply elem_of_app. by left.
  - apply IHr; [|done]. intros b Hb. apply Hm. right. apply elem_of_app. by right.
Qed.

Lemma ctx_rep_frame m m' hole k :
  (∀ a, a ∈ kaddrs k → m' !! a = m !! a) → ctx_rep m hole k → ctx_rep m' hole k.
Proof.
  revert hole. induction k as [|f k IH]; intros hole Hm Hk; simpl in *; [done|].
  destruct Hk as (Ha & Hs & Hk). split_and!.
  - rewrite Hm; [done|by left].
  - eapply tree_rep_frame, Hs. intros b Hb. apply Hm. right. apply elem_of_app. by left.
  - apply IH; [|done]. intros b Hb. apply Hm. right. apply elem_of_app. by right.
Qed.

Lemma piece_frame m m' x :
  (∀ a, a ∈ foot x → m' !! a = m !! a) → piece_ok m x → piece_ok m' x.
Proof.
  destruct x as [a n|p t|hole k]; simpl; intros Hm Hx.
  - rewrite Hm; [done|by left].
  - by eapply tree_rep_frame.
  - by eapply ctx_rep_frame.
Qed.

Lemma holds_perm h H H' : H ≡ₚ H' → holds h H → holds h H'.
Proof.
  intros HH [Hs Hp Hn]. split; [done|by rewrite <- HH|].
  unfold feet in *. by rewrite <- HH.
Qed.

Lemma holds_pull i x h H : H !! i = Some x → holds h H → holds h (x :: delete i H).
Proof. intros Hi. apply holds_perm. by apply delete_Permutation. Qed.

(** Replace a piece by one of the same addresses. *)
Lemma holds_head h h' x x' H :
  holds h (x :: H) → store_ok h' → (∀ a, a ∉ foot x → cells h' !! a = cells h !! a) →
  piece_ok (cells h') x' → foot x' = foot x → holds h' (x' :: H).
Proof.
  intros [Hs Hp Hn] Hs' Hm Hx Hf. apply Forall_cons in Hp as [_ Hp].
  unfold feet in *. cbn in *. split; [done| |cbn; unfold feet; cbn; by rewrite Hf].
  constructor; [done|]. apply NoDup_app in Hn as (_ & Hn & _).
  rewrite Forall_forall in *. intros y Hy. eapply piece_frame, Hp, Hy.
  intros a Ha. apply Hm. intros Hax. apply (Hn a Hax). apply list_elem_of_join.
  exists (foot y). split; [done|]. by apply list_elem_of_fmap_2.
Qed.

Lemma holds_update i x x' h h' H :
  holds h H → H !! i = Some x → store_ok h' →
  (∀ a, a ∉ foot x → cells h' !! a = cells h !! a) →
  piece_ok (cells h') x' → foot x' = foot x → holds h' (<[i := x']> H).
Proof.
  intros HH Hi Hs Hm Hx Hf. eapply holds_perm; [|eapply holds_head, Hf; [by apply (holds_pull i)|done..]].
  rewrite (delete_Permutation (<[i:=x']> H) i x') by (by eapply list_lookup_insert_eq, lookup_lt_Some).
  by rewrite list_delete_insert_eq.
Qed.

Lemma holds_lookup i x h H : H !! i = Some x → holds h H → piece_ok (cells h) x.
Proof. intros Hi [_ Hp _]. rewrite Forall_lookup in Hp. by eapply Hp. Qed.

Lemma holds_at i h H x : holds h H → H !! i = Some x → piece_ok (cells h) x.
Proof. intros HH Hi. by eapply holds_lookup. Qed.

(** ** Running code on pieces *)

Lemma run_load i a n {A} (k : BBSTNodeData → B A) h H :
  holds h H → H !! i = Some (Cell a n) → bind (load a) k h = k n h.
Proof. intros HH Hi. apply bind_load. by apply (holds_lookup i (Cell a n)) in HH. Qed.

Lemma run_modify i a n f h H :
  holds h H → H !! i = Some (Cell a n) →
  ∃ h', (∀ A (k : unit → B A), bind (modify a f) k h = k tt h') ∧
        modify a f h = Some (tt, h') ∧ holds h' (<[i := Cell a (f n)]> H).
Proof.
  intros HH Hi. pose proof (holds_lookup i _ _ _ Hi HH) as Ha. cbn in Ha.
  eexists. split; [intros; by apply bind_modify|]. split; [by apply modify_ok|].
  eapply (holds_update i); [done..| | | |done].
  - eapply store_ok_insert; [apply HH|done].
  - cbn. intros b Hb. rewrite lookup_insert_ne; [done|]. set_solver.
  - cbn. apply lookup_insert_eq.
Qed.

(** A node and its children. *)
Lemma holds_node h p l a d c dp r H :
  holds h (Tree p (Node l a d c dp r) :: H) ↔
  holds h (Cell a (mkBBSTNode d (root l) (root r) p c dp) :: Tree a l :: Tree a r :: H).
Proof.
  split; intros [Hs Hp Hn]; split; try done.
  - rewrite !Forall_cons in *. cbn in *. tauto.
  - unfold feet in *. cbn in *. by rewrite <- (assoc_L (++)) in Hn.
  - rewrite !Forall_cons in *. cbn in *. tauto.
  - unfold feet in *. cbn in *. by rewrite <- (assoc_L (++)).
Qed.

Lemma fold_node h p l a d c dp r vl vr H :
  holds h (Cell a (mkBBSTNode d vl vr p c dp) :: Tree a l :: Tree a r :: H) →
  vl = root l → vr = root r → holds h (Tree p (Node l a d c dp r) :: H).
Proof. intros HH -> ->. by apply holds_node. Qed.

(** The innermost frame around a hole. *)
Lemma holds_frame h hole f k H :
  holds h (Ctx hole (f :: k) :: H) ↔
  holds h (Cell (fa f) (frame_node hole (top k) f) :: Tree (fa f) (fsib f) :: Ctx (fa f) k :: H).
Proof.
  split; intros [Hs Hp Hn]; split; try done.
  - rewrite !Forall_cons in *. cbn in *. tauto.
  - unfold feet in *. cbn in *. by rewrite <- (assoc_L (++)) in Hn.
  - rewrite !Forall_cons in *. cbn in *. tauto.
  - unfold feet in *. cbn in *. by rewrite <- (assoc_L (++)).
Qed.

Lemma root_plug1 f t : root (plug1 f t) = fa f.
Proof. unfold plug1. by destruct (fleft f). Qed.

(** A tree in a hole. *)
Lemma holds_plug1 h f k t H :
  holds h (Tree (fa f) t :: Ctx (root t) (f :: k) :: H) ↔
  holds h (Tree (top k) (plug1 f t) :: Ctx (fa f) k :: H).
Proof.
  transitivity (holds h (Ctx (root t) (f :: k) :: Tree (fa f) t :: H)).
  { split; apply holds_perm; perm_solve. }
  rewrite holds_frame. unfold plug1, frame_node.
  destruct (fleft f); rewrite holds_node; split; apply holds_perm; perm_solve.
Qed.

Lemma holds_plug h k t H :
  holds h (Tree (top k) t :: Ctx (root t) k :: H) ↔ holds h (Tree NULL (plug k t) :: H).
Proof.
  revert t. induction k as [|f k IH]; intros t.
  - cbn. split; intros [Hs Hp Hn]; split; try done; rewrite !Forall_cons in *; cbn in *; tauto.
  - cbn [plug]. rewrite <- IH, root_plug1, <- holds_plug1. done.
Qed.

(** ** Reading a tree *)

Lemma tree_null i p t h H :
  holds h H → H !! i = Some (Tree p t) →
  (root t =? NULL) = match t with Leaf => true | Node _ _ _ _ _ _ => false end.
Proof.
  intros HH Hi. destruct t as [|l a d c dp r]; [done|].
  pose proof (holds_lookup i _ _ _ Hi HH) as Ht. destruct Ht as [Ht _].
  apply (proj2 (holds_store _ _ HH)) in Ht. apply Z.eqb_neq. cbn. unfold NULL. lia.
Qed.

Lemma cell_pos i a n h H : holds h H → H !! i = Some (Cell a n) → a ≠ NULL.
Proof.
  intros HH Hi. pose proof (holds_lookup i _ _ _ Hi HH) as Ha. cbn in Ha.
  apply (proj2 (holds_store _ _ HH)) in Ha. unfold NULL. lia.
Qed.

Lemma cell_null i a n h H : holds h H → H !! i = Some (Cell a n) → (a =? NULL) = false.
Proof. intros HH Hi. apply Z.eqb_neq. by eapply cell_pos. Qed.

(** The count and depth of a child: the root of a tree, or a node other than
    the one at index [i]. *)
Definition child_is (i : nat) (H : list piece) (p c d : Z) : Prop :=
  (∃ j q t, H !! j = Some (Tree q t) ∧ p = root t ∧ c = cnt t ∧ d = dep t) ∨
  (∃ j n, j ≠ i ∧ H !! j = Some (Cell p n) ∧ c = NodeCount n ∧ d = Depth n).

Lemma child_tree i j q t H : H !! j = Some (Tree q t) → child_is i H (root t) (cnt t) (dep t).
Proof. intros Hj. left. by exists j, q, t. Qed.

Lemma child_cell i j p n H :
  H !! j = Some (Cell p n) → j ≠ i → child_is i H p (NodeCount n) (Depth n).
Proof. intros Hj Hi. right. by exists j, n. Qed.

Lemma child_is_insert i H a n n' p c d :
  H !! i = Some (Cell a n) → child_is i H p c d → child_is i (<[i := Cell a n']> H) p c d.
Proof.
  intros Hi [(j & q & t & Hj & H1)|(j & m & Hne & Hj & H1)].
  - left. exists j, q, t. rewrite list_lookup_insert_ne; [done|]. intros ->. congruence.
  - right. exists j, m. by rewrite list_lookup_insert_ne.
Qed.

Lemma child_is_run i h H p c d :
  holds h H → child_is i H p c d →
  child_count p h = Some (c, h) ∧ child_depth p h = Some (d, h).
Proof.
  intros HH [(j & q & t & Hj & -> & -> & ->)|(j & n & _ & Hj & -> & ->)]; unfold child_count, child_depth.
  - rewrite (tree_null _ _ _ _ _ HH Hj). destruct t as [|l a dd c dp r]; [done|].
    pose proof (holds_lookup j _ _ _ Hj HH) as Ht. destruct Ht as [Ht _].
    split; cbn [root]; by rewrite (bind_load _ _ _ _ Ht).
  - rewrite (cell_null _ _ _ _ _ HH Hj).
    split; by rewrite (run_load j _ _ _ _ _ HH Hj).
Qed.

Lemma child_null i h H p c d :
  holds h H → child_is i H p c d → p = NULL → d = 0.
Proof.
  intros HH [(j & q & t & Hj & -> & -> & ->)|(j & n & _ & Hj & -> & ->)] Hp.
  - pose proof (tree_null _ _ _ _ _ HH Hj) as Ht. rewrite Hp in Ht. by destruct t.
  - by apply (cell_pos _ _ _ _ _ HH) in Hj.
Qed.

Lemma tree_depth j h H q t :
  holds h H → H !! j = Some (Tree q t) → child_depth (root t) h = Some (dep t, h).
Proof. intros HH Hj. by eapply (child_is_run 0), child_tree. Qed.

Lemma tree_count j h H q t :
  holds h H → H !! j = Some (Tree q t) → child_count (root t) h = Some (cnt t, h).
Proof. intros HH Hj. by eapply (child_is_run 0), child_tree. Qed.

(** ** Recomputing counts and depths *)

Lemma calc_count i a n h H :
  holds h H → H !! i = Some (Cell a n) → ∀ cl dl cr dr,
  child_is i H (Left n) cl dl → child_is i H (Right n) cr dr →
  ∃ h', calculateNodeCount a h = Some (tt, h') ∧
        holds h' (<[i := Cell a (set_NodeCount (s32 (cl + cr + 1)) n)]> H).
Proof.
  intros HH Hi cl dl cr dr Hl Hr. unfold calculateNodeCount. rewrite (run_load i _ _ _ _ _ HH Hi).
  rewrite (bind_run _ _ _ _ _ (proj1 (child_is_run _ _ _ _ _ _ HH Hl))).
  rewrite (bind_run _ _ _ _ _ (proj1 (child_is_run _ _ _ _ _ _ HH Hr))).
  destruct (run_modify i a n (set_NodeCount (s32 (cl + cr + 1))) h H HH Hi) as (h' & _ & E & HH').
  by exists h'.
Qed.

Lemma holds_insert_twice i a n n' n'' h H :
  H !! i = Some (Cell a n) → holds h (<[i := Cell a n'']> (<[i := Cell a n']> H)) →
  holds h (<[i := Cell a n'']> H).
Proof. intros Hi. by rewrite list_insert_insert_eq. Qed.

Lemma calc_depth i a n h H :
  holds h H → H !! i = Some (Cell a n) → ∀ cl dl cr dr,
  child_is i H (Left n) cl dl → child_is i H (Right n) cr dr → 0 ≤ dl →
  ∃ h', calculateNodeDepth a h = Some (tt, h') ∧
        holds h' (<[i := Cell a (set_Depth (s32 (Z.max dl dr + 1)) n)]> H).
Proof.
  intros HH Hi cl dl cr dr Hl Hr Hp. unfold calculateNodeDepth. rewrite (run_load i _ _ _ _ _ HH Hi).
  rewrite (bind_run _ _ _ _ _ (proj2 (child_is_run _ _ _ _ _ _ HH Hl))).
  destruct (run_modify i a n (set_Depth dl) h H HH Hi) as (h1 & E1 & _ & HH1). rewrite E1.
  pose proof (lookup_lt_Some _ _ _ Hi) as Hlt.
  assert (Hi1 : <[i := Cell a (set_Depth dl n)]> H !! i = Some (Cell a (set_Depth dl n)))
    by (by apply list_lookup_insert_eq).
  pose proof (child_is_insert i H a n (set_Depth dl n) _ _ _ Hi Hr) as Hr1.
  destruct (Right n =? NULL) eqn:En.
  - apply Z.eqb_eq in En. pose proof (child_null _ _ _ _ _ _ HH Hr En) as ->. rewrite bind_ret.
    destruct (run_modify i a _ (λ n, set_Depth (s32 (Depth n + 1)) n) _ _ HH1 Hi1) as (h2 & _ & E2 & HH2).
    exists h2. split; [done|]. rewrite list_insert_insert_eq in HH2. rewrite Z.max_l by lia. exact HH2.
  - rewrite bind_bind, (bind_run _ _ _ _ _ (proj2 (child_is_run _ _ _ _ _ _ HH1 Hr1))).
    destruct (run_modify i a _ (λ n, set_Depth (if Depth n <? dr then dr else Depth n) n) _ _ HH1 Hi1)
      as (h2 & E2 & _ & HH2). rewrite E2. rewrite list_insert_insert_eq in HH2.
    eapply (run_modify i a _ (λ n, set_Depth (s32 (Depth n + 1)) n)) in HH2 as (h3 & _ & E3 & HH3);
      [|by apply list_lookup_insert_eq].
    exists h3. split; [done|]. rewrite list_insert_insert_eq in HH3. cbn [Depth set_Depth] in HH3.
    replace (Z.max dl dr) with (if dl <? dr then dr else dl); [exact HH3|].
    destruct (Z.ltb_spec dl dr); lia.
Qed.

(** ** Links *)

(** A tree gets a new parent. *)
Lemma adopt_tree i p p' t h H :
  holds h H → H !! i = Some (Tree p t) →
  ∃ h', (if root t =? NULL then ret tt else modify (root t) (set_Parent p')) h = Some (tt, h') ∧
        holds h' (<[i := Tree p' t]> H).
Proof.
  intros HH Hi. rewrite (tree_null _ _ _ _ _ HH Hi). pose proof (holds_lookup _ _ _ _ Hi HH) as Ht.
  destruct t as [|l a d c dp r].
  - exists h. split; [done|]. eapply (holds_update i); [done..|apply HH|done| |done]. done.
  - destruct Ht as (Ha & Hl & Hr). cbn [root]. eexists. split; [by apply modify_ok|].
    assert (Hn : NoDup (addrs (Node l a d c dp r))).
    { pose proof (holds_feet _ _ (holds_pull i _ _ _ Hi HH)) as Hn. unfold feet in Hn.
      cbn [fmap list_fmap mjoin list_join foot] in Hn. by apply NoDup_app in Hn as [Hn _]. }
    cbn in Hn. apply NoDup_cons in Hn as [Hn _].
    eapply (holds_update i); [done..| | | |done].
    + eapply store_ok_insert; [apply HH|done].
    + cbn. intros b Hb. rewrite lookup_insert_ne; [done|]. set_solver.
    + cbn. rewrite lookup_insert_eq. split_and!; [done|..].
      * eapply tree_rep_frame, Hl. intros b Hb. rewrite lookup_insert_ne; [done|]. set_solver.
      * eapply tree_rep_frame, Hr. intros b Hb. rewrite lookup_insert_ne; [done|]. set_solver.
Qed.

Section Connect.
Context (connect : Z → Z → B unit) (set : Z → BBSTNodeData → BBSTNodeData).
Context (connect_eq : ∀ parent child, connect parent child =
  (modify parent (set child);;; (if child =? NULL then ret tt else modify child (set_Parent parent)))).

Lemma connect_tree i j a n p t h H :
  holds h H → H !! i = Some (Cell a n) → H !! j = Some (Tree p t) →
  ∃ h', connect a (root t) h = Some (tt, h') ∧
        holds h' (<[j := Tree a t]> (<[i := Cell a (set (root t) n)]> H)).
Proof.
  intros HH Hi Hj. rewrite connect_eq.
  destruct (run_modify i a n (set (root t)) h H HH Hi) as (h1 & E1 & _ & HH1). rewrite E1.
  apply (adopt_tree j p a t); [done|]. rewrite list_lookup_insert_ne; [done|]. intros ->. congruence.
Qed.

Lemma connect_cell i j a n b m h H :
  holds h H → H !! i = Some (Cell a n) → H !! j = Some (Cell b m) → i ≠ j →
  ∃ h', connect a b h = Some (tt, h') ∧
        holds h' (<[j := Cell b (set_Parent a m)]> (<[i := Cell a (set b n)]> H)).
Proof.
  intros HH Hi Hj Hne. rewrite connect_eq.
  destruct (run_modify i a n (set b) h H HH Hi) as (h1 & E1 & _ & HH1). rewrite E1.
  rewrite (cell_null _ _ _ _ _ HH Hj).
  destruct (run_modify j b m (set_Parent a) h1 _ HH1) as (h2 & _ & E2 & HH2); [|by exists h2].
  by rewrite list_lookup_insert_ne.
Qed.
End Connect.

Lemma connect_left_eq parent child : connectAsLeftChild parent child =
  (modify parent (set_Left child);;; (if child =? NULL then ret tt else modify child (set_Parent parent))).
Proof. done. Qed.
Lemma connect_right_eq parent child : connectAsRightChild parent child =
  (modify parent (set_Right child);;; (if child =? NULL then ret tt else modify child (set_Parent parent))).
Proof. done. Qed.

Definition left_tree := connect_tree connectAsLeftChild set_Left connect_left_eq.
Definition right_tree := connect_tree connectAsRightChild set_Right connect_right_eq.
Definition left_cell := connect_cell connectAsLeftChild set_Left connect_left_eq.
Definition right_cell := connect_cell connectAsRightChild set_Right connect_right_eq.

(** ** The pointer to a hole *)

Definition place_of (k : list frame) : place :=
  match k with [] => RootOf | f :: _ => if fleft f then LeftOf (fa f) else RightOf (fa f) end.

Definition root_set {T} (k : list frame) (v : Z) (tr : BBST T) : BBST T :=
  match k with [] => set_Root v tr | _ :: _ => tr end.

Lemma root_plug k t t' : root t = root t' → root (plug k t) = root (plug k t').
Proof. destruct k as [|f k]; [done|]. intros _. cbn.
  revert f t t'. induction k as [|g k IH]; intros f t t'; cbn; [by rewrite !root_plug1|apply IH].
Qed.

Lemma root_set_plug {T} k t t' (tr : BBST T) :
  Root tr = root (plug k t) → Root (root_set k (root t') tr) = root (plug k t').
Proof.
  destruct k as [|f k]; [done|]. cbn. intros ->. apply root_plug. by rewrite !root_plug1.
Qed.

Lemma write_place_run {T} i hole k v (tr : BBST T) h H :
  holds h H → H !! i = Some (Ctx hole k) →
  ∃ h', write_place tr (place_of k) v h = Some (root_set k v tr, h') ∧
        holds h' (<[i := Ctx v k]> H).
Proof.
  intros HH Hi. pose proof (holds_lookup _ _ _ _ Hi HH) as Hk.
  destruct k as [|f k].
  - exists h. split; [done|]. eapply (holds_update i); [done..|apply HH|done|done|done].
  - destruct Hk as (Hf & Hs & Hk). unfold frame_node in Hf.
    assert (Hn : NoDup (kaddrs (f :: k))).
    { pose proof (holds_feet _ _ (holds_pull i _ _ _ Hi HH)) as Hn. unfold feet in Hn.
      cbn [fmap list_fmap mjoin list_join foot] in Hn. by apply NoDup_app in Hn as [Hn _]. }
    cbn in Hn. apply NoDup_cons in Hn as [Hn _]. rewrite not_elem_of_app in Hn. destruct Hn as [Hn1 Hn2].
    cbn [place_of]. destruct (fleft f) eqn:El; cbn [write_place root_set];
      (erewrite bind_modify by exact Hf); eexists; (split; [done|]);
      (eapply (holds_update i); [done..| | | |done]).
    all: try (eapply store_ok_insert; [apply HH|done]).
    all: try (cbn; intros b Hb; rewrite lookup_insert_ne; [done|]; set_solver).
    all: cbn; rewrite lookup_insert_eq; unfold frame_node; rewrite El; split_and!; [done|..].
    all: first [ eapply tree_rep_frame, Hs | eapply ctx_rep_frame, Hk ];
      intros b Hb; rewrite lookup_insert_ne; [done|]; by intros <-.
Qed.

Lemma childptr_run h k l a d c dp r H :
  holds h (Tree (top k) (Node l a d c dp r) :: Ctx a k :: H) → childptr a h = Some (place_of k, h).
Proof.
  intros HH. unfold childptr. pose proof (holds_at 0 _ _ _ HH eq_refl) as [Ha _].
  pose proof (holds_at 1 _ _ _ HH eq_refl) as Hk. rewrite (bind_load _ _ _ _ Ha). cbn [Parent].
  destruct k as [|f k]; [done|]. destruct Hk as (Hf & Hs & Hk). cbn [top].
  pose proof (proj2 (holds_store _ _ HH) _ _ Hf).
  rewrite (proj2 (Z.eqb_neq _ _)) by (unfold NULL; lia). rewrite (bind_load _ _ _ _ Hf).
  unfold frame_node. cbn [place_of]. destruct (fleft f); cbn [Left]; [by rewrite Z.eqb_refl|].
  rewrite (proj2 (Z.eqb_neq _ _)); [done|]. intros Heq. pose proof (holds_feet _ _ HH) as Hn.
  unfold feet in Hn. cbn in Hn. apply NoDup_cons in Hn as [Hn _]. apply Hn.
  destruct (fsib f) as [|sl b ? ? ? sr] eqn:Es.
  - cbn in Heq. apply (proj2 (holds_store _ _ HH)) in Ha. unfold NULL in Heq. lia.
  - cbn in Heq. subst b. apply elem_of_app. right. right. apply elem_of_app. left. by left.
Qed.

Lemma factor_run h p t H :
  holds h H → (∃ i, H !! i = Some (Tree p t)) → t ≠ Leaf →
  getBalanceFactor (root t) h = Some (factor t, h).
Proof.
  intros HH [i Hi] Hne. destruct t as [|l a d c dp r]; [done|].
  apply (holds_pull i _ _ _ Hi), holds_node in HH. unfold getBalanceFactor. cbn [root].
  rewrite (run_load 0 _ _ _ _ _ HH eq_refl). cbn [Left Right].
  rewrite (bind_run _ _ _ _ _ (tree_depth 1 _ _ _ _ HH eq_refl)).
  by rewrite (bind_run _ _ _ _ _ (tree_depth 2 _ _ _ _ HH eq_refl)).
Qed.

(** ** Rotations *)

Ltac hsimp HH :=
  cbv beta iota zeta delta
      [insert list_insert delete list_delete set_Data set_Left set_Right set_Parent set_NodeCount
       set_Depth Data Left Right Parent NodeCount Depth] in HH;
  cbn [root] in HH.

(** Run a step whose effect on the pieces is given by an instance of a lemma. *)
Tactic Notation "hrun" open_constr(lem) "with" hyp(HH) :=
  let h' := fresh "h" in let E := fresh "E" in let HH' := fresh "HH" in
  destruct lem as (h' & E & HH');
  first [erewrite bind_run by exact E | idtac];
  clear HH; rename HH' into HH; hsimp HH.

Ltac hchild_at j :=
  first [ eapply (child_tree _ j); reflexivity | eapply (child_cell _ j); [reflexivity|done] ].
Ltac hchild :=
  first [ hchild_at 0%nat | hchild_at 1%nat | hchild_at 2%nat | hchild_at 3%nat | hchild_at 4%nat
        | hchild_at 5%nat | hchild_at 6%nat | hchild_at 7%nat | hchild_at 8%nat ].

(** Recompute the count or the depth of the node at an index. *)
Ltac hcalc lem i HH :=
  let h' := fresh "h" in let E := fresh "E" in let HH' := fresh "HH" in
  let Q := fresh "Q" in
  pose proof (lem i _ _ _ _ HH eq_refl) as Q; cbv beta in Q; edestruct Q as (h' & E & HH'); clear Q;
  [ cbn [Left Right]; hchild | cbn [Left Right]; hchild | .. ];
  [ .. | first [erewrite bind_run by exact E | idtac];
         clear HH; rename HH' into HH; hsimp HH ].

Ltac pull i HH :=
  match type of HH with
  | holds ?h ?H =>
    let x := eval cbv [lookup list_lookup] in (H !! i) in
    match x with Some ?y => apply (holds_pull i y h H eq_refl) in HH; hsimp HH end
  end.

Lemma rot_left_run {T} (tr : BBST T) k t h H :
  holds h (Tree (top k) t :: Ctx (root t) k :: H) → tok t → fits t → factor t < -1 →
  ∃ h', rotateNodeBelowLeft tr (root t) (place_of k) h
          = Some (root_set k (root (rot_left t)) tr, h') ∧
        holds h' (Tree (top k) (rot_left t) :: Ctx (root (rot_left t)) k :: H) ∧
        ∃ n, cells h' !! root t = Some n ∧ Parent n = root (rot_left t).
Proof.
  intros HH Ht Hs Hf. destruct t as [|l a da ca dpa r]; [done|].
  destruct Ht as (Hl & Hr & _ & Ha). cbn [size] in Hs. rewrite factor_eq in Hf by done.
  tok_facts. destruct r as [|rl b db cb dpb rr]; [simpl in *; lia|].
  apply holds_node in HH. unfold rotateNodeBelowLeft. cbn [root] in *.
  rewrite (run_load 0 _ _ _ _ _ HH eq_refl). cbn [Right Parent].
  erewrite bind_run; [|eapply (factor_run h a (Node rl b db cb dpb rr)); [exact HH|by exists 2%nat|done]].
  pull 2%nat HH. apply holds_node in HH.
  rewrite (run_load 0 _ _ _ _ _ HH eq_refl). cbn [Left Right]. unfold rot_left.
  destruct Hr as (Hrl & Hrr & _ & Hb). cbn [size dep] in *. tok_facts.
  destruct (0 <? factor (Node rl b db cb dpb rr)) eqn:Hc.
  - rewrite factor_eq in Hc by (done || lia). destruct rl as [|x c dc cc dpc y]; [simpl in *; lia|].
    cbn [root]. pull 1%nat HH. apply holds_node in HH.
    rewrite (run_load 0 _ _ _ _ _ HH eq_refl). cbn [Left Right].
    hrun (right_tree 5 1 _ _ _ _ _ _ HH eq_refl eq_refl) with HH.
    rewrite (run_load 0 _ _ _ _ _ HH eq_refl). cbn [Left Right].
    hrun (left_tree 3 2 _ _ _ _ _ _ HH eq_refl eq_refl) with HH.
    hrun (right_cell 0 3 _ _ _ _ _ _ HH eq_refl eq_refl ltac:(done)) with HH.
    hrun (left_cell 0 5 _ _ _ _ _ _ HH eq_refl eq_refl ltac:(done)) with HH.
    hrun (write_place_run 7 _ _ c tr _ _ HH eq_refl) with HH.
    destruct (run_modify 0 _ _ (set_Parent (top k)) _ _ HH eq_refl) as (hp & Ep & _ & HHp).
    rewrite Ep. clear HH. rename HHp into HH. hsimp HH.
    hcalc calc_count 3%nat HH.
    hcalc calc_count 5%nat HH.
    hcalc calc_count 0%nat HH.
    assert (0 ≤ s32 (dep l `max` dep x + 1))
      by (cbn [dep size] in *; destruct Hrl as (? & ? & _ & ?); tok_facts; rewrite s32_id; lia).
    destruct Hrl as (? & ? & _ & ?). tok_facts.
    hcalc calc_depth 3%nat HH; [lia|].
    hcalc calc_depth 5%nat HH; [lia|].
    hcalc calc_depth 0%nat HH; [done|].
    pull 4%nat HH. pull 3%nat HH. pull 4%nat HH.
    apply fold_node in HH; [|done..].
    pull 2%nat HH. pull 4%nat HH. pull 4%nat HH.
    apply fold_node in HH; [|done..].
    pull 2%nat HH. apply fold_node in HH; [|done..].
    eexists. split; [done|]. split; [exact HH|].
    destruct (holds_at 0 _ _ _ HH eq_refl) as (_ & (Hn & _) & _). by eexists.
  - hrun (right_tree 3 1 _ _ _ _ _ _ HH eq_refl eq_refl) with HH.
    hrun (left_cell 0 3 _ _ _ _ _ _ HH eq_refl eq_refl ltac:(done)) with HH.
    hrun (write_place_run 5 _ _ b tr _ _ HH eq_refl) with HH.
    destruct (run_modify 0 _ _ (set_Parent (top k)) _ _ HH eq_refl) as (hp & Ep & _ & HHp).
    rewrite Ep. clear HH. rename HHp into HH. hsimp HH.
    hcalc calc_count 3%nat HH.
    hcalc calc_count 0%nat HH.
    hcalc calc_depth 3%nat HH; [lia|].
    assert (0 ≤ s32 (dep l `max` dep rl + 1)) by (rewrite s32_id; lia).
    hcalc calc_depth 0%nat HH; [done|].
    pull 1%nat HH. pull 4%nat HH. pull 4%nat HH.
    apply fold_node in HH; [|done..].
    pull 1%nat HH. apply fold_node in HH; [|done..].
    eexists. split; [done|]. split; [exact HH|].
    destruct (holds_at 0 _ _ _ HH eq_refl) as (_ & (Hn & _) & _). by eexists.
Qed.

Lemma rot_right_run {T} (tr : BBST T) k t h H :
  holds h (Tree (top k) t :: Ctx (root t) k :: H) → tok t → fits t → 1 < factor t →
  ∃ h', rotateNodeBelowRight tr (root t) (place_of k) h
          = Some (root_set k (root (rot_right t)) tr, h') ∧
        holds h' (Tree (top k) (rot_right t) :: Ctx (root (rot_right t)) k :: H) ∧
        ∃ n, cells h' !! root t = Some n ∧ Parent n = root (rot_right t).
Proof.
  intros HH Ht Hs Hf. destruct t as [|l a da ca dpa r]; [done|].
  destruct Ht as (Hl & Hr & _ & Ha). cbn [size] in Hs. rewrite factor_eq in Hf by done.
  tok_facts. destruct l as [|ll b db cb dpb lr]; [simpl in *; lia|].
  apply holds_node in HH. unfold rotateNodeBelowRight. cbn [root] in *.
  rewrite (run_load 0 _ _ _ _ _ HH eq_refl). cbn [Left Parent].
  erewrite bind_run; [|eapply (factor_run h a (Node ll b db cb dpb lr)); [exact HH|by exists 1%nat|done]].
  pull 1%nat HH. apply holds_node in HH.
  rewrite (run_load 0 _ _ _ _ _ HH eq_refl). cbn [Left Right]. unfold rot_right.
  destruct Hl as (Hll & Hlr & _ & Hb). cbn [size dep] in *. tok_facts.
  destruct (factor (Node ll b db cb dpb lr) <? 0) eqn:Hc.
  - rewrite factor_eq in Hc by (done || lia). destruct lr as [|x c dc cc dpc y]; [simpl in *; lia|].
    cbn [root]. pull 2%nat HH. apply holds_node in HH.
    rewrite (run_load 0 _ _ _ _ _ HH eq_refl). cbn [Left Right].
    hrun (left_tree 5 2 _ _ _ _ _ _ HH eq_refl eq_refl) with HH.
    rewrite (run_load 0 _ _ _ _ _ HH eq_refl). cbn [Left Right].
    hrun (right_tree 3 1 _ _ _ _ _ _ HH eq_refl eq_refl) with HH.
    hrun (left_cell 0 3 _ _ _ _ _ _ HH eq_refl eq_refl ltac:(done)) with HH.
    hrun (right_cell 0 5 _ _ _ _ _ _ HH eq_refl eq_refl ltac:(done)) with HH.
    hrun (write_place_run 7 _ _ c tr _ _ HH eq_refl) with HH.
    destruct (run_modify 0 _ _ (set_Parent (top k)) _ _ HH eq_refl) as (hp & Ep & _ & HHp).
    rewrite Ep. clear HH. rename HHp into HH. hsimp HH.
    hcalc calc_count 3%nat HH. hcalc calc_count 5%nat HH. hcalc calc_count 0%nat HH.
    assert (0 ≤ s32 (dep ll `max` dep x + 1))
      by (cbn [dep size] in *; destruct Hlr as (? & ? & _ & ?); tok_facts; rewrite s32_id; lia).
    destruct Hlr as (? & ? & _ & ?). tok_facts.
    hcalc calc_depth 3%nat HH; [lia|].
    hcalc calc_depth 5%nat HH; [lia|].
    hcalc calc_depth 0%nat HH; [done|].
    pull 6%nat HH. pull 3%nat HH. pull 6%nat HH. apply fold_node in HH; [|done..].
    pull 2%nat HH. pull 4%nat HH. pull 4%nat HH. apply fold_node in HH; [|done..].
    pull 2%nat HH. apply fold_node in HH; [|done..].
    eexists. split; [done|]. split; [exact HH|].
    destruct (holds_at 0 _ _ _ HH eq_refl) as (_ & _ & (Hn & _)). by eexists.
  - hrun (left_tree 3 2 _ _ _ _ _ _ HH eq_refl eq_refl) with HH.
    hrun (right_cell 0 3 _ _ _ _ _ _ HH eq_refl eq_refl ltac:(done)) with HH.
    hrun (write_place_run 5 _ _ b tr _ _ HH eq_refl) with HH.
    destruct (run_modify 0 _ _ (set_Parent (top k)) _ _ HH eq_refl) as (hp & Ep & _ & HHp).
    rewrite Ep. clear HH. rename HHp into HH. hsimp HH.
    hcalc calc_count 3%nat HH. hcalc calc_count 0%nat HH.
    hcalc calc_depth 3%nat HH; [lia|].
    hcalc calc_depth 0%nat HH; [lia|].
    pull 4%nat HH. pull 3%nat HH. pull 4%nat HH. apply fold_node in HH; [|done..].
    pull 2%nat HH. pull 2%nat HH. apply fold_node in HH; [|done..].
    eexists. split; [done|]. split; [exact HH|].
    destruct (holds_at 0 _ _ _ HH eq_refl) as (_ & _ & (Hn & _)). by eexists.
Qed.

(** ** Rebalancing and the walk to the root *)

Section Loops.
Context {T : Type}.
Implicit Types (tr : BBST T) (H : list piece).

(** Only the root of the tree record changes. *)
Definition same_table tr tr' : Prop := NodeIndex tr' = NodeIndex tr ∧ Free tr' = Free tr.

Lemma root_set_table k v tr : same_table tr (root_set k v tr).
Proof. by destruct k. Qed.

Lemma same_table_trans tr1 tr2 tr3 : same_table tr1 tr2 → same_table tr2 tr3 → same_table tr1 tr3.
Proof. unfold same_table. intros [] []. split; congruence. Qed.

Lemma rebalance_run fuel tr t k t' h H :
  holds h (Tree (top k) t :: Ctx (root t) k :: H) → tok (plug k t) → fits (plug k t) →
  t ≠ Leaf → Root tr = root (plug k t) → rebalance fuel t k = Some t' →
  ∃ tr' h', rebalance_loop (S fuel) tr (root t) h = Some (tr', h') ∧
    holds h' (Tree NULL t' :: H) ∧ Root tr' = root t' ∧ same_table tr tr'.
Proof.
  revert tr t k h. induction fuel as [|fuel IH]; intros tr t k h HH Hk Hs Hne Hroot Hreb; [done|].
  cbn [rebalance] in Hreb. pose proof (tok_hole _ _ Hk) as Ht. pose proof (size_hole k t).
  cbn [rebalance_loop]. rewrite (tree_null 0 _ _ _ _ HH eq_refl). destruct t as [|l a d c dp r] eqn:Et; [done|].
  rewrite <- Et in *. assert (Ha : root t = a) by (by subst t).
  erewrite bind_run; [|eapply factor_run; [exact HH|by exists 0%nat|done]].
  unfold unbalanced in Hreb. destruct ((1 <? factor t) || (factor t <? -1)) eqn:Hu.
  - pose proof (rot_ok t Ht ltac:(lia) Hu) as [Rt _ Rs Rd _].
    assert (Hptr : childptr (root t) h = Some (place_of k, h)) by (subst t; by eapply childptr_run).
    rewrite !bind_bind, (bind_run _ _ _ _ _ Hptr).
    assert (Hrot : ∃ h', (if 1 <? factor t then rotateNodeBelowRight tr (root t) (place_of k)
        else rotateNodeBelowLeft tr (root t) (place_of k)) h = Some (root_set k (root (rot t)) tr, h') ∧
        holds h' (Tree (top k) (rot t) :: Ctx (root (rot t)) k :: H) ∧
        ∃ n, cells h' !! root t = Some n ∧ Parent n = root (rot t)).
    { unfold rot. destruct (Z.ltb_spec 1 (factor t)).
      - apply rot_right_run; [done..|lia|done].
      - apply rot_left_run; [done..|lia|lia]. }
    destruct Hrot as (h1 & E1 & HH1 & n & Hn & Hp). rewrite (bind_run _ _ _ _ _ E1).
    rewrite (bind_load _ _ _ _ Hn), Hp.
    destruct (plug_replace k t (rot t) Hk Rt Rs Rd) as (K1 & K2 & _).
    destruct (IH (root_set k (root (rot t)) tr) (rot t) k h1) as (tr' & h' & E & HH' & R' & S');
      [done|done|lia| |by eapply root_set_plug|done|].
    { intros Hl. rewrite Hl in Rs. subst t. cbn in Rs. pose proof (size_nonneg l).
      pose proof (size_nonneg r). lia. }
    exists tr', h'. split_and!; [done..|]. eapply same_table_trans, S'. apply root_set_table.
  - rewrite bind_ret. assert (Hn : ∃ n, cells h !! root t = Some n ∧ Parent n = top k).
    { subst t. pose proof (holds_at 0 _ _ _ HH eq_refl) as [Hn _]. by eexists. }
    destruct Hn as (n & Hn & Hp). rewrite (bind_load _ _ _ _ Hn), Hp. destruct k as [|f k].
    + injection Hreb as ->. exists tr, h. split; [done|]. split; [by apply (proj1 (holds_plug h [] _ _))|done].
    + cbn [plug] in *. apply holds_plug1 in HH. cbn [top].
      rewrite <- (root_plug1 f t) in HH |- *. apply (IH tr (plug1 f t) k h); try done.
      unfold plug1. by destruct (fleft f).
Qed.

Lemma top_shift t k : top (shift t k) = top k.
Proof. by destruct k. Qed.

Lemma frame_parent hole p f : Parent (frame_node hole p f) = p.
Proof. unfold frame_node. by destruct (fleft f). Qed.

(** Recomputing counts and depths from the parent of a hole. *)
Lemma shift_run fuel t k h H :
  holds h (Tree (top k) t :: Ctx (root t) k :: H) → tok t → Forall (λ f, tok (fsib f)) k →
  fits (plug k t) → (length k < fuel)%nat →
  ∃ h', shiftupCalculateChildCountAndDepth fuel (top k) h = Some (tt, h') ∧
    holds h' (Tree (top k) t :: Ctx (root t) (shift t k) :: H).
Proof.
  revert t k h H. induction fuel as [|fuel IH]; intros t k h H HH Ht Hk Hs Hf; [lia|].
  cbn [shiftupCalculateChildCountAndDepth].
  destruct k as [|f k]; [exists h; by split|]. cbn [length] in Hf. cbn [top].
  apply Forall_cons in Hk as [Hsib Hk]. cbn [plug] in Hs.
  pull 1%nat HH. apply holds_frame in HH. rewrite (cell_null 0 _ _ _ _ HH eq_refl).
  tok_facts.
  assert (HQ : ∃ h', (calculateNodeCount (fa f);;; calculateNodeDepth (fa f)) h = Some (tt, h') ∧
    holds h' (Cell (fa f) (frame_node (root t) (top k) (refit f t)) :: Tree (fa f) (fsib f) ::
      Ctx (fa f) k :: Tree (fa f) t :: H)).
  { unfold frame_node, refit in *. cbn [fleft fa fd fc fdp fsib]. destruct (fleft f).
    - hcalc calc_count 0%nat HH. hcalc calc_depth 0%nat HH; [lia|]. eexists. split; [done|].
      exact HH.
    - hcalc calc_count 0%nat HH. hcalc calc_depth 0%nat HH; [lia|]. eexists. split; [done|].
      rewrite (Z.add_comm (cnt t)), (Z.max_comm (dep t)). exact HH. }
  destruct HQ as (h1 & E1 & HH1).
  rewrite <- (bind_bind (calculateNodeCount (fa f)) (λ _, calculateNodeDepth (fa f))).
  rewrite (bind_run _ _ _ _ _ E1), (run_load 0 _ _ _ _ _ HH1 eq_refl), frame_parent.
  apply (proj2 (holds_frame _ _ (refit f t) _ _)) in HH1. pull 1%nat HH1.
  apply (proj1 (holds_plug1 _ (refit f t) _ _ _)) in HH1. cbn [fa refit] in HH1.
  destruct (IH (plug1 (refit f t) t) k h1 H) as (h' & E & HH').
  - by rewrite root_plug1.
  - pose proof (size_hole k (plug1 f t)) as Hz. rewrite size_plug1 in Hz.
    apply tok_plug1. cbn. rewrite !s32_id by lia. split_and!; done || lia.
  - done.
  - by rewrite (plug_size k _ (plug1 f t)) by (by rewrite !size_plug1).
  - lia.
  - exists h'. split; [done|]. rewrite root_plug1, <- (top_shift (plug1 (refit f t) t) k) in HH'.
    by apply (proj2 (holds_plug1 _ (refit f t) _ _ _)) in HH'.
Qed.
End Loops.
