(* ===== verification/BbstOps.v ===== *)
(** Insertion into and removal from balanced search trees.

    The operations of [Bbst] on a tree of the store, for any comparison
    function and any index that meets its interface: what they return, what
    tree they leave, and that they follow no NULL or freed pointer. *)
From stdpp Require Import prelude numbers list gmap.
From S2P Require Import Prelude TableIface Store Bbst BbstTree BbstRep.
Open Scope store_scope.

Lemma holds_leaf h p H : holds h (Tree p Leaf :: H) ↔ holds h H.
Proof.
  split; intros [Hs Hp Hn]; split; try done.
  - by apply Forall_cons in Hp as [_ Hp].
  - by apply Forall_cons.
Qed.

(** A leaf of the tree made of a node without children. *)
Lemma fold_leaf h p a d c dp H :
  holds h (Cell a (mkBBSTNode d NULL NULL p c dp) :: H) →
  holds h (Tree p (Node Leaf a d c dp Leaf) :: H).
Proof.
  intros HH. apply holds_node. pose proof (holds_leaf h a (Cell a (mkBBSTNode d NULL NULL p c dp) :: H)) as H1.
  apply H1 in HH. apply (holds_leaf h a) in HH. eapply holds_perm, HH. perm_solve.
Qed.

Lemma adopt_node i p p' t h H :
  holds h H → H !! i = Some (Tree p t) → t ≠ Leaf →
  ∃ h', (∀ A (k : unit → B A), bind (modify (root t) (set_Parent p')) k h = k tt h') ∧
        holds h' (<[i := Tree p' t]> H).
Proof.
  intros HH Hi Hne. destruct (adopt_tree i p p' t h H HH Hi) as (h' & E & HH').
  rewrite (tree_null _ _ _ _ _ HH Hi) in E. destruct t; [done|].
  exists h'. split; [|done]. intros A k. by rewrite (bind_run _ _ _ _ _ E).
Qed.

Lemma size_pos t : t ≠ Leaf → 0 < size t.
Proof.
  destruct t as [|l a d c dp r]; [done|]. intros _. cbn.
  pose proof (size_nonneg l). pose proof (size_nonneg r). lia.
Qed.

(** ** Shape of a tree with a given node *)

Lemma find_node t a d :
  (a, d) ∈ items t → ∃ k l c dp r, t = plug k (Node l a d c dp r).
Proof.
  induction t as [|l IHl b d' c dp r IHr]; cbn; intros Ha; [by apply not_elem_of_nil in Ha|].
  apply elem_of_app in Ha as [Ha|Ha]; [|apply elem_of_cons in Ha as [[= -> ->]|Ha]].
  - destruct (IHl Ha) as (k & l' & c' & dp' & r' & ->).
    exists (k ++ [mkFrame true b d' c dp r]), l', c', dp', r'. by rewrite plug_app.
  - by exists [], l, c, dp, r.
  - destruct (IHr Ha) as (k & l' & c' & dp' & r' & ->).
    exists (k ++ [mkFrame false b d' c dp l]), l', c', dp', r'. by rewrite plug_app.
Qed.

(** The rightmost node of a tree: nothing comes after it. *)
Lemma find_rightmost t :
  t ≠ Leaf → ∃ k l a d c dp, t = plug k (Node l a d c dp Leaf) ∧ after k = [] ∧
    ∀ h p H fuel, holds h (Tree p t :: H) → size t ≤ Z.of_nat fuel →
      rightmost_loop fuel (root t) h = Some (a, h).
Proof.
  induction t as [|l _ a d c dp r IHr]; intros Hne; [done|].
  destruct (decide (r = Leaf)) as [->|Hr].
  - exists [], l, a, d, c, dp. split_and!; [done..|]. intros h p H fuel HH Hf.
    pose proof (size_nonneg l). destruct fuel as [|fuel]; [cbn in Hf; lia|].
    apply holds_node in HH. cbn [root rightmost_loop]. by rewrite (run_load 0 _ _ _ _ _ HH eq_refl).
  - destruct (IHr Hr) as (k & l' & a' & d' & c' & dp' & -> & Hk & Hrun).
    exists (k ++ [mkFrame false a d c dp l]), l', a', d', c', dp'.
    split_and!; [by rewrite plug_app| |].
    + clear -Hk. induction k as [|f k IH]; [done|]. cbn in *.
      apply app_eq_nil in Hk as [-> Hk]. by rewrite IH.
    + intros h p H fuel HH Hf. pose proof (size_nonneg l). cbn [size] in Hf.
      set (r := plug k _) in *. pose proof (size_nonneg r).
      destruct fuel as [|fuel]; [lia|].
      apply holds_node in HH. cbn [root rightmost_loop]. rewrite (run_load 0 _ _ _ _ _ HH eq_refl).
      cbn [Right]. rewrite (tree_null 2 _ _ _ _ HH eq_refl). pull 2%nat HH.
      destruct r eqn:Er; [done|]. rewrite <- Er in *. eapply Hrun; [exact HH|lia].
Qed.

Lemma find_leftmost t :
  t ≠ Leaf → ∃ k l a d c dp, t = plug k (Node Leaf a d c dp l) ∧ before k = [] ∧
    ∀ h p H fuel, holds h (Tree p t :: H) → size t ≤ Z.of_nat fuel →
      leftmost_loop fuel (root t) h = Some (a, h).
Proof.
  induction t as [|l IHl a d c dp r _]; intros Hne; [done|].
  destruct (decide (l = Leaf)) as [->|Hl].
  - exists [], r, a, d, c, dp. split_and!; [done..|]. intros h p H fuel HH Hf.
    pose proof (size_nonneg r). destruct fuel as [|fuel]; [cbn in Hf; lia|].
    apply holds_node in HH. cbn [root leftmost_loop]. by rewrite (run_load 0 _ _ _ _ _ HH eq_refl).
  - destruct (IHl Hl) as (k & l' & a' & d' & c' & dp' & -> & Hk & Hrun).
    exists (k ++ [mkFrame true a d c dp r]), l', a', d', c', dp'.
    split_and!; [by rewrite plug_app| |].
    + clear -Hk. induction k as [|f k IH]; [done|]. cbn in *.
      apply app_eq_nil in Hk as [Hk ->]. by rewrite IH.
    + intros h p H fuel HH Hf. pose proof (size_nonneg r). cbn [size] in Hf.
      set (l := plug k _) in *. pose proof (size_nonneg l).
      destruct fuel as [|fuel]; [lia|].
      apply holds_node in HH. cbn [root leftmost_loop]. rewrite (run_load 0 _ _ _ _ _ HH eq_refl).
      cbn [Left]. rewrite (tree_null 1 _ _ _ _ HH eq_refl). pull 1%nat HH.
      destruct l eqn:El; [done|]. rewrite <- El in *. eapply Hrun; [exact HH|lia].
Qed.

(** ** The data of a node above a hole *)

Definition set_fd (v : Z) (f : frame) : frame :=
  mkFrame (fleft f) (fa f) v (fc f) (fdp f) (fsib f).

Lemma ctx_data m hole j f k v :
  ctx_rep m hole (j ++ f :: k) → NoDup (kaddrs (j ++ f :: k)) →
  ∃ n, m !! fa f = Some n ∧ ctx_rep (<[fa f := set_Data v n]> m) hole (j ++ set_fd v f :: k).
Proof.
  revert hole. induction j as [|g j IH]; intros hole Hk Hn; cbn in *.
  - destruct Hk as (Hf & Hs & Hk). apply NoDup_cons in Hn as [Hn _].
    rewrite not_elem_of_app in Hn. destruct Hn as [Hn1 Hn2].
    eexists. split; [done|]. split_and!.
    + rewrite lookup_insert_eq. unfold frame_node, set_fd. cbn. by destruct (fleft f).
    + eapply tree_rep_frame, Hs. intros b Hb. rewrite lookup_insert_ne; [done|]. by intros <-.
    + eapply ctx_rep_frame, Hk. intros b Hb. rewrite lookup_insert_ne; [done|]. by intros <-.
  - destruct Hk as (Hg & Hs & Hk). apply NoDup_cons in Hn as [Hng Hn].
    rewrite not_elem_of_app in Hng. destruct Hng as [_ Hng]. apply NoDup_app in Hn as (_ & Hsn & Hn).
    assert (Hin : fa f ∈ kaddrs (j ++ f :: k)).
    { clear. induction j as [|g j IH]; cbn; [by left|]. right. apply elem_of_app. by right. }
    destruct (IH (fa g) Hk Hn) as (n & Hf & Hk'). exists n. split; [done|]. split_and!.
    + rewrite lookup_insert_ne by congruence. rewrite Hg. by destruct j.
    + eapply tree_rep_frame, Hs. intros b Hb. rewrite lookup_insert_ne; [done|]. intros <-.
      by apply (Hsn (fa f)).
    + done.
Qed.

Lemma kaddrs_set_fd j f k v : kaddrs (j ++ set_fd v f :: k) = kaddrs (j ++ f :: k).
Proof. induction j as [|g j IH]; cbn; [done|]. by rewrite IH. Qed.

Lemma run_set_data i hole j f k v h H :
  holds h H → H !! i = Some (Ctx hole (j ++ f :: k)) →
  ∃ h', (∀ A (k : unit → B A), bind (modify (fa f) (set_Data v)) k h = k tt h') ∧
        holds h' (<[i := Ctx hole (j ++ set_fd v f :: k)]> H).
Proof.
  intros HH Hi. pose proof (holds_feet _ _ (holds_pull i _ _ _ Hi HH)) as Hn.
  unfold feet in Hn. cbn [fmap list_fmap mjoin list_join foot] in Hn. apply NoDup_app in Hn as [Hn _].
  destruct (ctx_data (cells h) hole j f k v (holds_at _ _ _ _ HH Hi) Hn) as (n & Hf & Hk).
  eexists. split; [intros; by apply bind_modify|].
  eapply (holds_update i); [done..| | |done|apply kaddrs_set_fd].
  - eapply store_ok_insert; [apply HH|done].
  - cbn. intros b Hb. rewrite lookup_insert_ne; [done|]. intros <-. apply Hb.
    clear. induction j as [|g j IH]; cbn; [by left|]. right. apply elem_of_app. by right.
Qed.

Lemma before_app k1 k2 : before (k1 ++ k2) = before k2 ++ before k1.
Proof.
  induction k1 as [|f k1 IH]; cbn; [by rewrite app_nil_r|]. by rewrite IH, (assoc_L (++)).
Qed.
Lemma after_app k1 k2 : after (k1 ++ k2) = after k1 ++ after k2.
Proof. induction k1 as [|f k1 IH]; cbn; [done|]. by rewrite IH, (assoc_L (++)). Qed.

Lemma dep_plug k t t' : dep t' = dep t → dep (plug k t') = dep (plug k t).
Proof.
  revert t t'. induction k as [|f k IH]; intros t t' Ht; cbn; [done|]. apply IH. by rewrite !dep_plug1.
Qed.

(** Exchanging the data of a node and of the one before it. *)
Lemma swap_data j k ll a b d db c dp cb dpb r :
  let f := mkFrame true a d c dp r in
  let t := plug (j ++ f :: k) (Node ll b db cb dpb Leaf) in
  let t2 := plug (j ++ set_fd db f :: k) (Node ll b d cb dpb Leaf) in
  let s1 := before (j ++ f :: k) ++ items ll in
  let s2 := items r ++ after k in
  after j = [] → tok t →
  tok t2 ∧ size t2 = size t ∧ root t2 = root t ∧
  items t = s1 ++ (b, db) :: (a, d) :: s2 ∧ items t2 = s1 ++ (b, d) :: (a, db) :: s2 ∧
  before (j ++ set_fd db f :: k) ++ (items ll ++ []) ++ after (j ++ set_fd db f :: k)
    = s1 ++ (a, db) :: s2.
Proof.
  intros f t t2 s1 s2 Hj Ht. set (x := Node ll b db cb dpb Leaf) in *. set (x2 := Node ll b d cb dpb Leaf) in *.
  unfold t in Ht. rewrite plug_app in Ht. cbn [plug] in Ht.
  pose proof (tok_hole _ _ Ht) as Hf. apply tok_plug1 in Hf as (Hjx & Hsr & Hc & Hd). cbn in Hsr, Hc, Hd.
  destruct (plug_replace j x x2 Hjx) as (T1 & Z1 & _); [by apply tok_hole in Hjx|done..|].
  pose proof (dep_plug j x x2 eq_refl) as D1.
  destruct (plug_replace k (plug1 f (plug j x)) (plug1 (set_fd db f) (plug j x2)) Ht) as (T2 & Z2 & _).
  - apply tok_plug1. cbn. rewrite Z1, D1. done.
  - rewrite !size_plug1. cbn. lia.
  - by rewrite !dep_plug1.
  - assert (E2 : t2 = plug k (plug1 (set_fd db f) (plug j x2))) by (unfold t2; by rewrite plug_app).
    assert (E1 : t = plug k (plug1 f (plug j x))) by (unfold t; by rewrite plug_app).
    split_and!; [by rewrite E2|by rewrite E1, E2|..].
    + rewrite E1, E2. apply root_plug. by rewrite !root_plug1.
    + unfold t, s1, s2. rewrite items_hole, after_app, Hj. cbn. by rewrite <- !(assoc_L (++)).
    + unfold t2, s1, s2. rewrite items_hole, !before_app, after_app, Hj. cbn. by rewrite <- !(assoc_L (++)).
    + unfold s1, s2. rewrite !before_app, after_app, Hj. cbn. by rewrite !app_nil_r, <- !(assoc_L (++)).
Qed.

(** ** The walk of an insertion *)

Section Ops.
Context {T : Type} (comp : Z → Z → Z).
Implicit Types (tr : BBST T).

Lemma insert_walk fuel t k node d p c dp h H :
  holds h (Tree (top k) t :: Ctx (root t) k :: Cell node (mkBBSTNode d NULL NULL p c dp) :: H) →
  t ≠ Leaf → size t ≤ Z.of_nat fuel →
  ∃ h', insert_loop comp fuel (root t) node h = Some (top (descend comp d t k), h') ∧
    holds h' (Tree (top (descend comp d t k)) (Node Leaf node d c dp Leaf) ::
              Ctx node (descend comp d t k) :: H).
Proof.
  revert fuel k h. induction t as [|l IHl a d' ca dpa r IHr]; intros fuel k h HH Hne Hf; [done|].
  cbn [size] in Hf. pose proof (size_nonneg l). pose proof (size_nonneg r).
  destruct fuel as [|fuel]; [lia|]. apply holds_node in HH. cbn [root insert_loop descend].
  rewrite (run_load 0 _ _ _ _ _ HH eq_refl), (run_load 4 _ _ _ _ _ HH eq_refl). cbn [Data Left Right].
  destruct (comp d' d <? 0).
  - rewrite (tree_null 2 _ _ _ _ HH eq_refl). destruct r as [|rl b db cb dpb rr] eqn:Er; cbn [negb].
    + hrun (right_cell 0 4 _ _ _ _ _ _ HH eq_refl eq_refl ltac:(done)) with HH.
      eexists. split; [done|]. cbn [descend top fa]. pull 2%nat HH. apply (proj1 (holds_leaf _ _ _)) in HH.
      pull 3%nat HH. apply fold_leaf in HH. eapply holds_perm; [apply Permutation_swap|].
      apply holds_frame. eapply holds_perm, HH. cbn. perm_solve.
    + rewrite <- Er in *. apply IHr; [|by subst|lia]. cbn [top fa].
      eapply holds_perm; [apply Permutation_swap|]. apply holds_frame.
      eapply holds_perm, HH. cbn. perm_solve.
  - rewrite (tree_null 1 _ _ _ _ HH eq_refl). destruct l as [|ll b db cb dpb lr] eqn:El; cbn [negb].
    + hrun (left_cell 0 4 _ _ _ _ _ _ HH eq_refl eq_refl ltac:(done)) with HH.
      eexists. split; [done|]. cbn [descend top fa]. pull 1%nat HH. apply (proj1 (holds_leaf _ _ _)) in HH.
      pull 3%nat HH. apply fold_leaf in HH. eapply holds_perm; [apply Permutation_swap|].
      apply holds_frame. eapply holds_perm, HH. cbn. perm_solve.
    + rewrite <- El in *. apply IHl; [|by subst|lia]. cbn [top fa].
      eapply holds_perm; [apply Permutation_swap|]. apply holds_frame.
      eapply holds_perm, HH. cbn. perm_solve.
Qed.
End Ops.

(** ** Unlinking a node *)

Section Unlink.
Context {T : Type}.
Implicit Types (tr : BBST T).

(** The sibling of a hole is not the node in the hole. *)
Lemma sib_ne h node n f k H :
  holds h (Cell node n :: Ctx node (f :: k) :: H) → (root (fsib f) =? node) = false.
Proof.
  intros HH. apply Z.eqb_neq. intros Heq. pose proof (cell_pos 0 _ _ _ _ HH eq_refl) as Hp.
  apply holds_feet in HH. unfold feet in HH. cbn in HH. apply NoDup_cons in HH as [Hn _].
  apply Hn. destruct (fsib f) as [|l b ? ? ? r] eqn:Es; [by rewrite <- Heq in Hp|].
  cbn in Heq. subst b. right. do 2 (apply elem_of_app; left). by left.
Qed.

Lemma disconnect_run h node n f k H :
  holds h (Cell node n :: Ctx node (f :: k) :: H) →
  ∃ h', disconnectChild (fa f) node h = Some (tt, h') ∧
    holds h' (Cell node (set_Parent NULL n) :: Ctx NULL (f :: k) :: H).
Proof.
  intros HH. pose proof (sib_ne _ _ _ _ _ _ HH) as Hs. unfold disconnectChild.
  pull 1%nat HH. apply holds_frame in HH.
  destruct (run_modify 0 _ _ (λ n, set_Left (if Left n =? node then NULL else Left n) n) _ _ HH eq_refl)
    as (h1 & E1 & _ & HH1). rewrite E1. cbn [insert list_insert] in HH1.
  destruct (run_modify 0 _ _ (λ n, set_Right (if Right n =? node then NULL else Right n) n) _ _ HH1 eq_refl)
    as (h2 & E2 & _ & HH2). rewrite E2. cbn [insert list_insert] in HH2.
  destruct (run_modify 3 _ _ (set_Parent NULL) _ _ HH2 eq_refl) as (h3 & _ & E3 & HH3).
  exists h3. split; [done|]. cbn [insert list_insert] in HH3.
  eapply holds_perm; [apply Permutation_swap|]. apply holds_frame.
  replace (frame_node NULL (top k) f) with
    (set_Right (if Right (set_Left (if Left (frame_node node (top k) f) =? node then NULL
        else Left (frame_node node (top k) f)) (frame_node node (top k) f)) =? node then NULL
      else Right (set_Left (if Left (frame_node node (top k) f) =? node then NULL
        else Left (frame_node node (top k) f)) (frame_node node (top k) f)))
     (set_Left (if Left (frame_node node (top k) f) =? node then NULL
        else Left (frame_node node (top k) f)) (frame_node node (top k) f))); [exact HH3|].
  unfold frame_node. destruct (fleft f); cbn; by rewrite Z.eqb_refl, Hs.
Qed.

Lemma relink_run h p ch f k H :
  holds h (Tree p ch :: Ctx NULL (f :: k) :: H) →
  ∃ h', (if fleft f then connectAsLeftChild (fa f) (root ch)
         else connectAsRightChild (fa f) (root ch)) h = Some (tt, h') ∧
    holds h' (Tree (fa f) ch :: Ctx (root ch) (f :: k) :: H).
Proof.
  intros HH. pull 1%nat HH. apply holds_frame in HH. unfold frame_node in HH.
  assert (Hx : ∀ h' n, holds h' (Cell (fa f) n :: Tree (fa f) (fsib f) :: Ctx (fa f) k ::
      Tree (fa f) ch :: H) → n = frame_node (root ch) (top k) f →
      holds h' (Tree (fa f) ch :: Ctx (root ch) (f :: k) :: H)).
  { intros h' n HH' ->. eapply holds_perm; [apply Permutation_swap|]. by apply holds_frame. }
  destruct (fleft f) eqn:El.
  - hrun (left_tree 0 3 _ _ _ _ _ _ HH eq_refl eq_refl) with HH. eexists. split; [done|].
    apply (Hx _ _ HH). unfold frame_node. by rewrite El.
  - hrun (right_tree 0 3 _ _ _ _ _ _ HH eq_refl eq_refl) with HH. eexists. split; [done|].
    apply (Hx _ _ HH). unfold frame_node. by rewrite El.
Qed.

Lemma root_shift k t : root (plug (shift t k) t) = root (plug k t).
Proof.
  revert t. induction k as [|f k IH]; intros t; cbn; [done|].
  rewrite IH. apply root_plug. by rewrite !root_plug1.
Qed.

Lemma root_plug_ne k t t' : k ≠ [] → root (plug k t) = root (plug k t').
Proof. destruct k as [|f k]; [done|]. intros _. cbn. apply root_plug. by rewrite !root_plug1. Qed.

(** What is left after counts, depths and balance are settled in a tree. *)
Definition settled tr (t0 : tree) (m : B (BBST T)) (h : Store BBSTNodeData) (H : list piece) : Prop :=
  ∃ tr' t' h', m h = Some (tr', h') ∧ holds h' (Tree NULL t' :: H) ∧ Root tr' = root t' ∧
    same_table tr tr' ∧ tok t' ∧ items t' = items t0 ∧ size t' = size t0.

Lemma rebalance_settled fuel tr t k h H :
  holds h (Tree (top k) t :: Ctx (root t) k :: H) → t ≠ Leaf → tok (plug k t) → fits (plug k t) →
  Root tr = root (plug k t) → (fuel_for (size (plug k t)) < fuel)%nat →
  settled tr (plug k t) (rebalanceBBST fuel tr (root t)) h H.
Proof.
  intros HH Hne Kt Hfit Hroot Hfuel. destruct fuel as [|fuel]; [lia|].
  pose proof (reb_fuel t k Kt) as Hm.
  destruct (rebalance_ok fuel t k Kt Hfit ltac:(lia)) as (t' & Er & Tt & Ti & Ts).
  destruct (rebalance_run fuel tr t k t' h H HH Kt Hfit Hne Hroot Er) as (tr' & h' & E & HH' & R' & S').
  by exists tr', t', h'.
Qed.

(** After a change in a hole: from the tree in the hole, or from its parent. *)
Lemma settle_run fuel tr t k h H :
  holds h (Tree (top k) t :: Ctx (root t) k :: H) → tok t →
  Forall (λ f, tok (fsib f)) k → fits (plug k t) → k ≠ [] →
  Root tr = root (plug k t) → (fuel_for (size (plug k t)) < fuel)%nat →
  settled tr (plug k t)
    (shiftupCalculateChildCountAndDepth fuel (top k);;; rebalanceBBST fuel tr (top k)) h H ∧
  (t ≠ Leaf → settled tr (plug k t)
    (shiftupCalculateChildCountAndDepth fuel (top k);;; rebalanceBBST fuel tr (root t)) h H).
Proof.
  intros HH Ht Hsib Hfit Hne Hroot Hfuel. pose proof (size_nonneg t). pose proof (length_plug k t) as Hlen.
  pose proof (fuel_for_gt (size (plug k t)) ltac:(lia)).
  destruct (shift_run fuel t k h H HH Ht Hsib Hfit ltac:(lia)) as (h1 & E1 & HH1).
  destruct (shift_ok k t Ht Hsib Hfit) as [Kt Ks]. unfold settled.
  rewrite <- (items_shift k t), <- Ks. rewrite <- Ks in Hfit, Hfuel. rewrite <- root_shift in Hroot.
  rewrite !(bind_run _ _ _ _ _ E1). rewrite <- (top_shift t k) in HH1. split.
  - destruct k as [|f k]; [done|]. cbn [shift top] in *.
    apply (proj1 (holds_plug1 _ (refit f t) _ _ _)) in HH1. cbn [plug] in *.
    rewrite <- (root_plug1 (refit f t) t) in HH1.
    pose proof (rebalance_settled fuel tr _ _ _ _ HH1) as Q. rewrite root_plug1 in Q.
    apply Q; try done. unfold plug1. by destruct (fleft (refit f t)).
  - intros Hleaf. by apply rebalance_settled.
Qed.
End Unlink.

(** ** Trees with their index *)

Section Index.
Context {T C : Type} `{CC : Countable C} {KT : KeyedTable T Z C}.
Implicit Types (tr : BBST T) (ix : T).

Definition ids (t : tree) : list C := table_id <$> (items t).*2.

(** The index maps the data of every node to the node. *)
Definition index_ok ix (t : tree) : Prop :=
  table_ok ix ∧
  ∀ c a, table_contents ix !! c = Some a ↔ ∃ d, (a, d) ∈ items t ∧ table_id d = c.

Record bbst_rep (h : Store BBSTNodeData) tr (t : tree) (H : list piece) : Prop := {
  br_holds : holds h (Tree NULL t :: H);
  br_root : Root tr = root t;
  br_free : Free tr = NULL;
  br_tok : tok t;
  br_fits : fits t;
  br_index : index_ok (NodeIndex tr) t;
  br_ids : NoDup (ids t);
  br_keys : Forall table_key_ok (items t).*2
}.

Lemma index_get ix t d :
  index_ok ix t → table_key_ok d →
  match table_get ix d with
  | Some a => ∃ d', (a, d') ∈ items t ∧ table_id d' = table_id d
  | None => table_id d ∉ ids t
  end.
Proof.
  intros [Hok Hix] Hd. rewrite table_get_ok by done.
  destruct (table_contents ix !! table_id d) as [a|] eqn:E; [by apply Hix|].
  unfold ids. intros Hin. apply list_elem_of_fmap in Hin as (d' & Hid & Hin).
  apply list_elem_of_fmap in Hin as ([a d''] & -> & Hin).
  assert (table_contents ix !! table_id d = Some a) by (apply Hix; by exists d''). congruence.
Qed.

Lemma index_get_none ix t d :
  index_ok ix t → table_key_ok d → table_id d ∉ ids t → table_get ix d = None.
Proof.
  intros Hix Hd Hn. pose proof (index_get ix t d Hix Hd) as Hg.
  destruct (table_get ix d) as [a|]; [|done]. destruct Hg as (d' & Hin & Hid). exfalso.
  apply Hn. rewrite <- Hid. unfold ids. apply list_elem_of_fmap_2.
  by apply (list_elem_of_fmap_2 snd _ (a, d')).
Qed.

Lemma index_set ix t t' a d :
  index_ok ix t → table_key_ok d → items t' ≡ₚ (a, d) :: items t → table_id d ∉ ids t →
  index_ok (table_set ix d a) t'.
Proof.
  intros [Hok Hix] Hd Hp Hn. destruct (table_set_ok ix d a Hok Hd) as [Hok' E].
  split; [done|]. intros c b. rewrite E, lookup_insert_Some, Hix. split.
  - intros [[<- <-]|[Hc (d' & Hin & Hid)]].
    + exists d. split; [rewrite Hp; by left|done].
    + exists d'. split; [rewrite Hp; by right|done].
  - intros (d' & Hin & Hid). rewrite Hp in Hin. apply elem_of_cons in Hin as [[= -> ->]|Hin]; [by left|].
    right. split; [|by exists d']. intros Hc. apply Hn. rewrite Hc, <- Hid. unfold ids.
    apply list_elem_of_fmap_2. by apply (list_elem_of_fmap_2 snd _ (b, d')).
Qed.

Lemma index_remove ix t t' a d :
  index_ok ix t → NoDup (ids t) → table_key_ok d → items t ≡ₚ (a, d) :: items t' →
  index_ok (table_remove ix d).1 t'.
Proof.
  intros [Hok Hix] Hn Hd Hp. destruct (table_remove_ok ix d Hok Hd) as (Hok' & E & _).
  split; [done|]. intros c b. rewrite E, lookup_delete_Some, Hix.
  unfold ids in Hn. rewrite Hp in Hn. cbn in Hn. apply NoDup_cons in Hn as [Hn _]. split.
  - intros (Hc & d' & Hin & Hid). rewrite Hp in Hin.
    apply elem_of_cons in Hin as [[= -> ->]|Hin]; [done|]. by exists d'.
  - intros (d' & Hin & Hid). split.
    + intros Hc. apply Hn. rewrite Hc, <- Hid. apply list_elem_of_fmap_2.
      by apply (list_elem_of_fmap_2 snd _ (b, d')).
    + exists d'. split; [rewrite Hp; by right|done].
Qed.

Lemma ids_cons t t' a d :
  items t' ≡ₚ (a, d) :: items t → ids t' ≡ₚ table_id d :: ids t.
Proof. intros Hp. unfold ids. by rewrite Hp. Qed.

Lemma insert_dup comp fuel tr t node n h H i :
  bbst_rep h tr t H → H !! i = Some (Cell node n) → table_key_ok (Data n) →
  table_id (Data n) ∈ ids t →
  insertBBSTNode comp fuel tr node h = Some ((UTIL_BBST_DUPLICATE_VALUE, tr), h).
Proof.
  intros [HH _ _ _ _ Hix _ _] Hi Hk Hin. unfold insertBBSTNode.
  rewrite (run_load (S i) node n _ _ _ HH Hi). pose proof (index_get _ _ _ Hix Hk) as Hg.
  by destruct (table_get _ _).
Qed.

Lemma insert_rep tr tr' t t' node d h' H :
  index_ok (NodeIndex tr) t → NoDup (ids t) → Forall table_key_ok (items t).*2 → Free tr = NULL →
  table_key_ok d → size t + 1 < 2 ^ 31 → table_id d ∉ ids t →
  holds h' (Tree NULL t' :: H) → Root tr' = root t' → tok t' →
  same_table (set_NodeIndex (table_set (NodeIndex tr) d node) tr) tr' →
  items t' ≡ₚ (node, d) :: items t → bbst_rep h' tr' t' H.
Proof.
  intros Hix Hids Hks Hf Hk Hsz Hn HH' R' Tt [S1 S2] Ti. split; try done.
  - by rewrite S2.
  - rewrite size_items, Ti. cbn. rewrite size_items in Hsz. lia.
  - rewrite S1. by eapply index_set.
  - rewrite (ids_cons t t' node d Ti). by apply NoDup_cons.
  - rewrite Ti. by constructor.
Qed.

Lemma insert_run comp fuel tr t node d p h H :
  bbst_rep h tr t (Cell node (mkBBSTNode d NULL NULL p 1 1) :: H) → table_key_ok d →
  size t + 1 < 2 ^ 31 → (fuel_for (size t + 1) < fuel)%nat → table_id d ∉ ids t →
  ∃ tr' t' h', insertBBSTNode comp fuel tr node h = Some ((FUNC_RETURN_OK, tr'), h') ∧
    bbst_rep h' tr' t' H ∧
    items t' = items (plug (descend comp d t []) (Node Leaf node d 1 1 Leaf)).
Proof.
  intros [HH Hr Hf Ht Hfit Hix Hids Hks] Hk Hsz Hfuel Hn. unfold insertBBSTNode.
  rewrite (run_load 1 _ _ _ _ _ HH eq_refl). cbn [Data].
  rewrite (index_get_none _ _ _ Hix Hk Hn). cbn [Root set_NodeIndex].
  rewrite Hr, (tree_null 0 _ _ _ _ HH eq_refl).
  set (leaf := Node Leaf node d 1 1 Leaf). remember (descend comp d t []) as k eqn:Ek.
  assert (Hkt : plug k Leaf = t) by (by rewrite Ek, descend_plug).
  assert (Hperm : items (plug k leaf) ≡ₚ (node, d) :: items t).
  { rewrite <- Hkt, !items_hole. cbn. by rewrite <- Permutation_middle. }
  destruct t as [|l a d' c dp r] eqn:Et.
  - apply (proj1 (holds_leaf _ _ _)) in HH.
    destruct (run_modify 0 _ _ (set_Parent NULL) _ _ HH eq_refl) as (h1 & E1 & _ & HH1).
    rewrite E1. hsimp HH1. apply fold_leaf in HH1. do 3 eexists. split; [done|].
    rewrite Ek. split; [|done]. by eapply insert_rep.
  - rewrite <- Et in *. pose proof (size_nonneg t).
    pose proof (fuel_for_gt (size t + 1) ltac:(lia)).
    assert (Hksz : size (plug k leaf) = size t + 1) by (rewrite !size_items, Hperm; cbn; lia).
    assert (Hk0 : k ≠ []) by (intros Hk0; rewrite Hk0 in Hkt; cbn in Hkt; by subst t).
    apply (proj2 (holds_plug h [] t _)) in HH.
    destruct (insert_walk comp fuel t [] node d p 1 1 h H HH) as (h1 & E1 & HH1); [by subst t|lia|].
    rewrite <- Ek in E1, HH1. fold leaf in HH1. rewrite (bind_run _ _ _ _ _ E1), <- bind_bind.
    destruct (settle_run fuel (set_NodeIndex (table_set (NodeIndex tr) d node) tr) leaf k h1 H HH1)
      as [_ Hset]; [cbn; lia| |lia|done| |by rewrite Hksz|].
    { eapply (sibs_tok k Leaf). by rewrite Hkt. }
    { cbn. rewrite Hr. rewrite <- Hkt at 1. by apply root_plug_ne. }
    destruct Hset as (tr' & t' & h' & E & HH' & R' & S' & Tt & Ti & _); [done|].
    rewrite (bind_run _ _ _ _ _ E). do 3 eexists. split; [done|]. split; [|done].
    eapply insert_rep; try done. by rewrite Ti.
Qed.

(** ** Removal *)

Lemma root_in_frames f k t : root (plug (f :: k) t) ∈ kaddrs (f :: k).
Proof.
  revert f t. induction k as [|g k IH]; intros f t; cbn; [by rewrite root_plug1; left|].
  right. apply elem_of_app. right. apply (IH g).
Qed.

Lemma root_not_hole h a n f k H t :
  holds h (Cell a n :: Ctx a (f :: k) :: H) → (root (plug (f :: k) t) =? a) = false.
Proof.
  intros HH. apply Z.eqb_neq. intros Heq. apply holds_feet in HH. unfold feet in HH.
  cbn [fmap list_fmap mjoin list_join foot] in HH. apply NoDup_cons in HH as [Hn _]. apply Hn.
  apply elem_of_app. left. rewrite <- Heq. apply root_in_frames.
Qed.

Lemma remove_leaf_run fuel tr a n f k h H :
  holds h (Cell a n :: Ctx a (f :: k) :: H) → Parent n = fa f →
  Forall (λ f, tok (fsib f)) (f :: k) → fits (plug (f :: k) Leaf) →
  Root tr = root (plug (f :: k) Leaf) → (fuel_for (size (plug (f :: k) Leaf)) < fuel)%nat →
  settled (set_NodeIndex (table_remove (NodeIndex tr) (Data n)).1 tr) (plug (f :: k) Leaf)
    (remove_leaf fuel tr a n) h (Cell a (set_Parent NULL n) :: H).
Proof.
  intros HH Hp Hsib Hfit Hroot Hfuel. unfold remove_leaf. rewrite Hp.
  destruct (disconnect_run _ _ _ _ _ _ HH) as (h1 & E1 & HH1). unfold settled.
  rewrite (bind_run _ _ _ _ _ E1). pull 1%nat HH1. apply (proj2 (holds_leaf _ (fa f) _)) in HH1.
  by apply (settle_run fuel _ Leaf (f :: k)).
Qed.

Lemma remove_branch_run fuel tr a n ch f k h H :
  holds h (Cell a n :: Tree a ch :: Ctx a (f :: k) :: H) → Parent n = fa f → tok ch →
  Forall (λ f, tok (fsib f)) (f :: k) → fits (plug (f :: k) ch) →
  Root tr = root (plug (f :: k) ch) → (fuel_for (size (plug (f :: k) ch)) < fuel)%nat →
  settled (set_NodeIndex (table_remove (NodeIndex tr) (Data n)).1 tr) (plug (f :: k) ch)
    (remove_branch fuel tr a n (root ch)) h (Cell a (set_Parent NULL n) :: H).
Proof.
  intros HH Hp Hch Hsib Hfit Hroot Hfuel. unfold remove_branch. rewrite Hp.
  pull 2%nat HH. pull 1%nat HH. pose proof (holds_at 1 _ _ _ HH eq_refl) as (Hf & _ & _).
  unfold settled. rewrite (bind_load _ _ _ _ Hf).
  assert (Hleft : (Left (frame_node a (top k) f) =? a) = fleft f).
  { unfold frame_node. destruct (fleft f); cbn; [apply Z.eqb_refl|by eapply sib_ne]. }
  rewrite Hleft. destruct (disconnect_run _ _ _ _ _ _ HH) as (h1 & E1 & HH1).
  rewrite (bind_run _ _ _ _ _ E1). pull 1%nat HH1. pull 2%nat HH1.
  destruct (relink_run _ _ _ _ _ _ HH1) as (h2 & E2 & HH2). rewrite (bind_run _ _ _ _ _ E2).
  by apply (settle_run fuel _ ch (f :: k)).
Qed.

Lemma remove_rep tr tr' t t' a d h' H :
  index_ok (NodeIndex tr) t → NoDup (ids t) → Forall table_key_ok (items t).*2 → Free tr = NULL →
  fits t → holds h' (Tree NULL t' :: H) → Root tr' = root t' → tok t' →
  same_table (set_NodeIndex (table_remove (NodeIndex tr) d).1 tr) tr' →
  items t ≡ₚ (a, d) :: items t' → bbst_rep h' tr' t' H.
Proof.
  intros Hix Hids Hks Hf Hfit HH' R' Tt [S1 S2] Ti. pose proof (ids_cons _ _ _ _ Ti) as Hi.
  rewrite Hi in Hids. apply NoDup_cons in Hids as [Hid Hids].
  rewrite Ti in Hks. cbn in Hks. apply Forall_cons in Hks as [Hk Hks]. split; try done.
  - by rewrite S2.
  - rewrite size_items in *. rewrite Ti in Hfit. cbn in Hfit. lia.
  - rewrite S1. eapply index_remove; [done| |done..]. rewrite Hi. by apply NoDup_cons.
Qed.

Lemma index_get_some ix t a d :
  index_ok ix t → table_key_ok d → (a, d) ∈ items t → table_get ix d = Some a.
Proof. intros [Hok Hix] Hd Hin. rewrite table_get_ok by done. apply Hix. by exists d. Qed.

Lemma item_here k l a d c dp r : (a, d) ∈ items (plug k (Node l a d c dp r)).
Proof.
  rewrite items_hole. cbn. apply elem_of_app. right. apply elem_of_app. left.
  apply elem_of_app. right. by left.
Qed.

Lemma item_key t a d : Forall table_key_ok (items t).*2 → (a, d) ∈ items t → table_key_ok d.
Proof.
  intros Hk Hin. rewrite Forall_forall in Hk. apply Hk.
  by apply (list_elem_of_fmap_2 snd _ (a, d)).
Qed.

Lemma items_without k l a d c dp r :
  items (plug k (Node l a d c dp r)) ≡ₚ (a, d) :: before k ++ (items l ++ items r) ++ after k.
Proof.
  rewrite items_hole. cbn [items]. rewrite <- (Permutation_middle (items l)). cbn [app].
  by rewrite <- (Permutation_middle (before k)).
Qed.

(** A node below the root with at most one child. *)
Lemma remove_inner fuel tr f k l a d c dp r h H :
  let t := plug (f :: k) (Node l a d c dp r) in
  bbst_rep h tr t H → l = Leaf ∨ r = Leaf → (fuel_for (size t) < fuel)%nat →
  ∃ tr' t' h' n', removeBBSTNode fuel tr a h = Some ((FUNC_RETURN_OK, a, tr'), h') ∧
    bbst_rep h' tr' t' (Cell a n' :: H) ∧ Data n' = d ∧
    items t' = before (f :: k) ++ (items l ++ items r) ++ after (f :: k).
Proof.
  intros t Hrep Hlr Hfuel. pose proof Hrep as [HH Hr Hf Ht Hfit Hix Hids Hks].
  pose proof (tok_hole (f :: k) _ Ht) as (Hl & Hrt & _). pose proof (sibs_tok (f :: k) _ Ht) as Hsib.
  pose proof (item_here (f :: k) l a d c dp r) as Hin. fold t in Hin.
  pose proof (item_key _ _ _ Hks Hin) as Hkd.
  apply (proj2 (holds_plug h (f :: k) _ _)) in HH. apply holds_node in HH. cbn [root top] in HH.
  set (n := mkBBSTNode d (root l) (root r) (fa f) c dp) in HH.
  assert (Hr0 : (Root tr =? a) = false).
  { rewrite Hr. eapply (root_not_hole h a n f k (Tree a l :: Tree a r :: H)).
    eapply holds_perm, HH. perm_solve. }
  destruct fuel as [|fuel]; [lia|]. cbn [removeBBSTNode].
  rewrite (run_load 0 _ _ _ _ _ HH eq_refl). change (Data n) with d.
  rewrite (index_get_some _ _ _ _ Hix Hkd Hin), Hr0, bind_ret.
  change (Left n) with (root l). change (Right n) with (root r).
  rewrite (tree_null 1 _ _ _ _ HH eq_refl), (tree_null 2 _ _ _ _ HH eq_refl).
  assert (Hch : ∀ ch, size ch ≤ size l + size r → fits (plug (f :: k) ch) ∧
    Root tr = root (plug (f :: k) ch) ∧ (fuel_for (size (plug (f :: k) ch)) < S fuel)%nat).
  { intros ch Hc. pose proof (plug_size_le (f :: k) ch (Node l a d c dp r) ltac:(cbn; lia)) as Hle.
    fold t in Hle. pose proof (size_hole (f :: k) ch). pose proof (size_nonneg ch).
    pose proof (fuel_for_mono (size (plug (f :: k) ch)) (size t) ltac:(lia)).
    split_and!; [lia| |lia]. rewrite Hr. by apply root_plug_ne. }
  assert (Hit : ∀ t', items t' = before (f :: k) ++ (items l ++ items r) ++ after (f :: k) →
    items t ≡ₚ (a, d) :: items t').
  { intros t' ->. apply items_without. }
  destruct (decide (l = Leaf)) as [->|Hl0]; [destruct (decide (r = Leaf)) as [->|Hr1]|].
  - destruct (Hch Leaf) as (C1 & C2 & C3); [cbn; lia|]. cbn [andb].
    pull 1%nat HH. apply (proj1 (holds_leaf _ _ _)) in HH.
    pull 1%nat HH. apply (proj1 (holds_leaf _ _ _)) in HH.
    destruct (remove_leaf_run (S fuel) tr a n f k h H HH) as (tr' & t' & h' & E & HH' & R' & S' & Tt & Ti & _);
      [done..|]. rewrite (bind_run _ _ _ _ _ E). rewrite items_hole in Ti. do 4 eexists.
    split; [done|]. split; [eapply remove_rep; try done; by apply Hit|by split].
  - destruct (Hch r) as (C1 & C2 & C3); [cbn; lia|].
    pull 1%nat HH. apply (proj1 (holds_leaf _ _ _)) in HH.
    destruct (remove_branch_run (S fuel) tr a n r f k h H HH) as (tr' & t' & h' & E & HH' & R' & S' & Tt & Ti & _);
      [done..|]. destruct r as [|rl b db cb dpb rr] eqn:Er; [done|]. rewrite <- Er in *. cbn [andb negb].
    rewrite (bind_run _ _ _ _ _ E). rewrite items_hole in Ti.
    destruct (run_modify 1 _ _ (set_Right NULL) _ _ HH' eq_refl) as (h2 & E2 & _ & HH2). rewrite E2.
    do 4 eexists. split; [done|]. split; [|split; [|exact Ti]].
    + eapply remove_rep; [exact Hix|..|by apply Hit]; done.
    + done.
  - destruct Hlr as [->| ->]; [done|]. destruct (Hch l) as (C1 & C2 & C3); [cbn; lia|].
    pull 2%nat HH. apply (proj1 (holds_leaf _ _ _)) in HH.
    destruct (remove_branch_run (S fuel) tr a n l f k h H HH) as (tr' & t' & h' & E & HH' & R' & S' & Tt & Ti & _);
      [done..|]. destruct l as [|ll b db cb dpb lr] eqn:El; [done|]. rewrite <- El in *. cbn [andb negb].
    rewrite (bind_run _ _ _ _ _ E). rewrite items_hole in Ti.
    destruct (run_modify 1 _ _ (set_Left NULL) _ _ HH' eq_refl) as (h2 & E2 & _ & HH2). rewrite E2.
    do 4 eexists. split; [done|]. cbn [items] in *. rewrite app_nil_r in Hit |- *.
    split; [|split; [|exact Ti]].
    + eapply remove_rep; [exact Hix|..|by apply Hit]; done.
    + done.
Qed.

(** The result of a removal: the node taken out holds the data. *)
Definition removed (t : tree) (d : Z) (m : B (Z * Z * BBST T)) (h : Store BBSTNodeData)
    (H : list piece) : Prop :=
  ∃ tr' t' h' b n' s1 s2, m h = Some ((FUNC_RETURN_OK, b, tr'), h') ∧
    bbst_rep h' tr' t' (Cell b n' :: H) ∧ Data n' = d ∧
    (items t).*2 = s1 ++ d :: s2 ∧ (items t').*2 = s1 ++ s2.

(** The root with at most one child. *)
Lemma remove_top fuel tr l a d c dp r h H :
  let t := Node l a d c dp r in
  bbst_rep h tr t H → l = Leaf ∨ r = Leaf → (0 < fuel)%nat →
  removed t d (removeBBSTNode fuel tr a) h H.
Proof.
  intros t Hrep Hlr Hfuel. pose proof Hrep as [HH Hr Hf Ht Hfit Hix Hids Hks].
  pose proof (item_here [] l a d c dp r) as Hin. pose proof (item_key _ _ _ Hks Hin) as Hkd.
  destruct Ht as (Hl & Hrt & Hc & _). cbn in Hr, Hc.
  apply holds_node in HH. destruct fuel as [|fuel]; [lia|]. unfold removed. cbn [removeBBSTNode].
  rewrite (run_load 0 _ _ _ _ _ HH eq_refl). cbn [Data Left Right].
  rewrite (index_get_some _ _ _ _ Hix Hkd Hin), Hr, Z.eqb_refl. unfold remove_root.
  rewrite Hr, !bind_bind, (run_load 0 _ _ _ _ _ HH eq_refl). cbn [NodeCount Left Right].
  rewrite (tree_null 1 _ _ _ _ HH eq_refl), (tree_null 2 _ _ _ _ HH eq_refl).
  pose proof (size_nonneg l). pose proof (size_nonneg r).
  destruct (Z.eqb_spec c 1) as [Hc1|Hc1].
  - assert (l = Leaf ∧ r = Leaf) as [-> ->].
    { split; [destruct l as [|l1 ? ? ? ? l2]|destruct r as [|l1 ? ? ? ? l2]]; try done;
        cbn in Hc; pose proof (size_nonneg l1); pose proof (size_nonneg l2); lia. }
    rewrite bind_ret. eexists _, Leaf, h, a, (mkBBSTNode d NULL NULL NULL c dp), [], []. split; [done|].
    split_and!; try done.
    destruct (table_clear_ok (NodeIndex tr) (proj1 Hix)) as [Hok E].
    pull 1%nat HH. apply (proj1 (holds_leaf _ _ _)) in HH.
    pull 1%nat HH. apply (proj1 (holds_leaf _ _ _)) in HH.
    split; cbn; try done; [by apply holds_leaf, HH| |constructor].
    split; [done|]. intros c' b. rewrite E, lookup_empty. split; [done|].
    intros (? & Hb & _). by apply not_elem_of_nil in Hb.
  - assert (Hit : ∀ t', items t' = items l ++ items r → items t ≡ₚ (a, d) :: items t').
    { intros t' ->. pose proof (items_without [] l a d c dp r) as Hw. cbn in Hw.
      by rewrite app_nil_r in Hw. }
    assert (Hdat : (items t).*2 = (items l).*2 ++ d :: (items r).*2) by (cbn; by rewrite fmap_app).
    destruct (decide (l = Leaf)) as [->|Hl0].
    + destruct r as [|r1 b db cb dpb r2] eqn:Er; [cbn in Hc; lia|]. rewrite <- Er in *. cbn [andb negb].
      destruct (adopt_node 2 a NULL r _ _ HH eq_refl ltac:(by subst r)) as (h1 & E1 & HH1).
      rewrite bind_bind, E1. hsimp HH1. rewrite bind_bind.
      destruct (run_modify 0 _ _ (set_Right NULL) _ _ HH1 eq_refl) as (h2 & E2 & _ & HH2).
      rewrite E2, bind_ret. hsimp HH2. pull 1%nat HH2. apply (proj1 (holds_leaf _ _ _)) in HH2. pull 1%nat HH2.
      eexists _, r, h2, a, _, [], _. split; [done|].
      split_and!; [eapply remove_rep; [exact Hix|..|by apply Hit]; done|done|exact Hdat|done].
    + destruct Hlr as [->| ->]; [done|]. destruct l as [|r1 b db cb dpb r2] eqn:El; [done|].
      rewrite <- El in *. cbn [andb negb].
      destruct (adopt_node 1 a NULL l _ _ HH eq_refl ltac:(by subst l)) as (h1 & E1 & HH1).
      rewrite bind_bind, E1. hsimp HH1. rewrite bind_bind.
      destruct (run_modify 0 _ _ (set_Left NULL) _ _ HH1 eq_refl) as (h2 & E2 & _ & HH2).
      rewrite E2, bind_ret. hsimp HH2. pull 2%nat HH2. apply (proj1 (holds_leaf _ _ _)) in HH2. pull 1%nat HH2.
      eexists _, l, h2, a, _, _, []. split; [done|]. rewrite app_nil_r.
      split_and!; [eapply remove_rep; [exact Hix|..|apply Hit]; try done; by cbn; rewrite app_nil_r|done|exact Hdat|done].
Qed.

(** The index after the data of two nodes is exchanged. *)
Lemma index_swap ix t t' a b d d' L :
  index_ok ix t → NoDup (ids t) → table_key_ok d → table_key_ok d' →
  items t ≡ₚ (b, d') :: (a, d) :: L → items t' ≡ₚ (b, d) :: (a, d') :: L →
  index_ok (table_set (table_set ix d b) d' a) t'.
Proof.
  intros [Hok Hix] Hn Hd Hd' Hp Hp'. destruct (table_set_ok ix d b Hok Hd) as [Hok1 E1].
  destruct (table_set_ok _ d' a Hok1 Hd') as [Hok2 E2]. split; [done|].
  unfold ids in Hn. rewrite Hp in Hn. cbn in Hn.
  apply NoDup_cons in Hn as [Hn1 Hn]. apply NoDup_cons in Hn as [Hn2 _].
  assert (HL : ∀ e x, (e, x) ∈ L → table_id x ∈ table_id <$> L.*2).
  { intros e x Hx. apply list_elem_of_fmap_2. by apply (list_elem_of_fmap_2 snd _ (e, x)). }
  rewrite not_elem_of_cons in Hn1. destruct Hn1 as [Hdd Hn1].
  intros c e. rewrite E2, E1, !lookup_insert_Some, Hix. split.
  - intros [[<- <-]|[Hc [[<- <-]|[Hc' (x & Hx & Hid)]]]].
    + exists d'. split; [rewrite Hp'; right; by left|done].
    + exists d. split; [rewrite Hp'; by left|done].
    + exists x. split; [|done]. rewrite Hp in Hx. rewrite Hp'.
      apply elem_of_cons in Hx as [[= -> ->]|Hx]; [done|].
      apply elem_of_cons in Hx as [[= -> ->]|Hx]; [done|]. do 2 right. done.
  - intros (x & Hx & Hid). rewrite Hp' in Hx.
    apply elem_of_cons in Hx as [[= -> ->]|Hx]; [right; split; [congruence|by left]|].
    apply elem_of_cons in Hx as [[= -> ->]|Hx]; [by left|]. subst c. apply HL in Hx as Hx'.
    right. split; [congruence|]. right. split; [congruence|]. exists x. split; [|done].
    rewrite Hp. by do 2 right.
Qed.

(** The exchange itself, in the store and in the index. *)
Lemma swap_run tr j k ll a b d db c dp cb dpb r h H :
  let f := mkFrame true a d c dp r in
  let t := plug (j ++ f :: k) (Node ll b db cb dpb Leaf) in
  let t2 := plug (j ++ set_fd db f :: k) (Node ll b d cb dpb Leaf) in
  bbst_rep h tr t H → after j = [] →
  ∃ h', (∀ A (m : B A), (modify a (set_Data db);;; modify b (set_Data d);;; m) h = m h') ∧
    cells h !! b = Some (mkBBSTNode db (root ll) NULL (top (j ++ f :: k)) cb dpb) ∧
    bbst_rep h' (set_NodeIndex (table_set (table_set (NodeIndex tr) d b) db a) tr) t2 H.
Proof.
  intros f t t2 [HH Hr Hf Ht Hfit Hix Hids Hks] Hj.
  destruct (swap_data j k ll a b d db c dp cb dpb r Hj Ht) as (T2 & Z2 & R2 & I1 & I2 & _).
  fold f t t2 in T2, Z2, R2, I1, I2.
  apply (proj2 (holds_plug h (j ++ f :: k) _ _)), holds_node in HH. cbn [root] in HH.
  pose proof (holds_at 0 _ _ _ HH eq_refl) as Hb.
  destruct (run_set_data 3 b j f k db _ _ HH eq_refl) as (h1 & E1 & HH1). cbn [fa f] in E1.
  cbn [insert list_insert] in HH1.
  destruct (run_modify 0 _ _ (set_Data d) _ _ HH1 eq_refl) as (h2 & E2 & _ & HH2). hsimp HH2.
  exists h2. split; [intros A m; by rewrite E1, E2|]. split; [done|].
  assert (Htop : top (j ++ f :: k) = top (j ++ set_fd db f :: k)) by (by destruct j).
  rewrite Htop in HH2. apply fold_node in HH2; [|done..].
  apply (proj1 (holds_plug h2 (j ++ set_fd db f :: k) (Node ll b d cb dpb Leaf) _)) in HH2.
  set (s1 := before (j ++ f :: k) ++ items ll) in *. set (s2 := items r ++ after k) in *.
  assert (P1 : items t ≡ₚ (b, db) :: (a, d) :: s1 ++ s2) by (rewrite I1; by rewrite <- !Permutation_middle).
  assert (P2 : items t2 ≡ₚ (b, d) :: (a, db) :: s1 ++ s2) by (rewrite I2; by rewrite <- !Permutation_middle).
  rewrite P1 in Hks. cbn in Hks. apply Forall_cons in Hks as [K1 Hks]. apply Forall_cons in Hks as [K2 Hks].
  split; cbn; try done.
  - by rewrite R2.
  - by rewrite Z2.
  - by eapply index_swap.
  - unfold ids in *. rewrite P1 in Hids. rewrite P2. cbn in *. eapply (NoDup_Permutation_proper); [|exact Hids].
    apply Permutation_swap.
  - rewrite P2. cbn. by repeat constructor.
Qed.

(** A node with two children: it takes the data of the node before it, which
    is then removed in its place. *)
Lemma remove_two fuel tr k l a d c dp r h H :
  let t := plug k (Node l a d c dp r) in
  bbst_rep h tr t H → l ≠ Leaf → r ≠ Leaf → (fuel_for (size t) + 1 < fuel)%nat →
  removed t d (removeBBSTNode fuel tr a) h H.
Proof.
  intros t Hrep Hl0 Hr0 Hfuel. pose proof Hrep as [HH Hr Hf Ht Hfit Hix Hids Hks].
  pose proof (item_here k l a d c dp r) as Hin. fold t in Hin.
  pose proof (item_key _ _ _ Hks Hin) as Hkd.
  apply (proj2 (holds_plug h k _ _)), holds_node in HH. cbn [root] in HH.
  destruct fuel as [|fuel]; [lia|]. unfold removed. cbn [removeBBSTNode].
  rewrite (run_load 0 _ _ _ _ _ HH eq_refl). cbn [Data Left Right].
  rewrite (index_get_some _ _ _ _ Hix Hkd Hin).
  assert (Nl : (root l =? NULL) = false) by (rewrite (tree_null 1 _ _ _ _ HH eq_refl); by destruct l).
  assert (Nr : (root r =? NULL) = false) by (rewrite (tree_null 2 _ _ _ _ HH eq_refl); by destruct r).
  pose proof (size_hole k (Node l a d c dp r)) as Hle. fold t in Hle. cbn [size] in Hle.
  pose proof (size_nonneg l). pose proof (size_nonneg r). pose proof (fuel_for_gt (size t) ltac:(lia)).
  assert (Hnone : (if Root tr =? a then remove_root tr a (mkBBSTNode d (root l) (root r) (top k) c dp)
    else ret None) h = Some (None, h)).
  { destruct (Z.eqb_spec (Root tr) a) as [Ha|_]; [|done]. unfold remove_root.
    rewrite Ha, (run_load 0 _ _ _ _ _ HH eq_refl). cbn [NodeCount Left Right]. rewrite Nl, Nr.
    pose proof (tok_hole k _ Ht) as (Hlt & _ & Hc & _). cbn [size] in Hc.
    pose proof (size_pos l Hl0). by rewrite (proj2 (Z.eqb_neq c 1)) by lia. }
  rewrite (bind_run _ _ _ _ _ Hnone), Nl, Nr. cbn [andb negb].
  destruct (find_rightmost l Hl0) as (j & ll & b & db & cb & dpb & El & Hj & Hrun).
  erewrite bind_run; [|apply (Hrun h a (Cell a (mkBBSTNode d (root l) (root r) (top k) c dp) ::
    Tree a r :: Ctx a k :: H)); [eapply holds_perm, HH; perm_solve|lia]].
  pose (f := mkFrame true a d c dp r).
  assert (Et : t = plug (j ++ f :: k) (Node ll b db cb dpb Leaf)) by (by rewrite plug_app; cbn; rewrite <- El).
  destruct (swap_data j k ll a b d db c dp cb dpb r Hj ltac:(by fold f; rewrite <- Et)) as (_ & Z2 & _ & I1 & _ & I3).
  fold f in Z2, I1, I3. rewrite <- Et in Z2, I1. rewrite Et in Hrep.
  destruct (swap_run tr j k ll a b d db c dp cb dpb r h H Hrep Hj) as (h2 & E2 & Hb & Hrep2).
  rewrite (bind_load _ _ _ _ Hb). cbn [Data]. rewrite E2. clear E2. fold f in Hrep2.
  remember (j ++ set_fd db f :: k) as K2 eqn:EK. destruct K2 as [|f2 k2]; [by destruct j|].
  destruct (remove_inner fuel _ f2 k2 ll b d cb dpb Leaf h2 H Hrep2) as (tr' & t' & h' & n' & E & Hrep' & Hn & Hi);
    [by right|rewrite Z2; lia|].
  eexists tr', t', h', b, n', ((before (j ++ f :: k) ++ items ll).*2 ++ [db]), (items r ++ after k).*2.
  split; [exact E|]. split; [done|]. split; [done|].
  cbn [items] in Hi. rewrite I1, Hi, I3, !fmap_app. cbn.
  by rewrite <- !(assoc_L (++)), !fmap_app.
Qed.

(** Removal of any node of the tree. *)
Lemma remove_run fuel tr t a d h H :
  bbst_rep h tr t H → (a, d) ∈ items t → (fuel_for (size t) + 1 < fuel)%nat →
  removed t d (removeBBSTNode fuel tr a) h H.
Proof.
  intros Hrep Hin Hfuel. destruct (find_node t a d Hin) as (k & l & c & dp & r & ->).
  destruct (decide (l = Leaf ∨ r = Leaf)) as [Hlr|Hlr]; [|apply remove_two; [done|tauto..|lia]].
  destruct k as [|f k]; [apply remove_top; [done..|lia]|].
  destruct (remove_inner fuel tr f k l a d c dp r h H Hrep Hlr ltac:(lia))
    as (tr' & t' & h' & n' & E & Hrep' & Hn & Hi).
  exists tr', t', h', a, n', (before (f :: k) ++ items l).*2, (items r ++ after (f :: k)).*2.
  split; [done|]. split; [done|]. split; [done|]. rewrite Hi, items_hole.
  rewrite !fmap_app. cbn [items]. rewrite fmap_app. cbn. by rewrite <- !(assoc_L (++)).
Qed.
End Index.
