(* ===== verification/BbstSpec.v ===== *)
(** What a balanced search tree promises.

    A tree is an ordered list of data pointers without repetition: every
    sequence of operations on a new tree that inserts no node twice returns what
    it returns on such a list, for any comparison function that is a total
    preorder and any index that meets [KeyedTable].  The file ends with what the trees do not keep:
    balance, and the count of a node that is inserted again. *)
From stdpp Require Import prelude numbers list gmap.
From S2P Require Import Prelude TableIface HashTable Store Bbst BbstTree BbstRep BbstOps.
Open Scope store_scope.

Lemma feet_used h H a : holds h H → a ∈ feet H → is_Some (cells h !! a).
Proof.
  intros [_ Hp _] Ha. unfold feet in Ha. apply list_elem_of_join in Ha as (l & Ha & Hl).
  apply list_elem_of_fmap in Hl as (x & -> & Hx). rewrite Forall_forall in Hp. specialize (Hp x Hx).
  assert (Ht : ∀ p t, tree_rep (cells h) p t → a ∈ addrs t → is_Some (cells h !! a)).
  { clear. intros p t. revert p. induction t as [|l IHl b d c dp r IHr]; intros p Ht Ha; cbn in *.
    - by apply not_elem_of_nil in Ha.
    - destruct Ht as (Hb & Hl & Hr). apply elem_of_cons in Ha as [->|Ha]; [by eexists|].
      apply elem_of_app in Ha as [Ha|Ha]; [by eapply IHl|by eapply IHr]. }
  destruct x as [b n|p t|hole k]; cbn in *.
  - apply list_elem_of_singleton in Ha as ->. by eexists.
  - by eapply Ht.
  - clear Hx. revert hole Hp. induction k as [|f k IH]; intros hole Hp; cbn in *; [by apply not_elem_of_nil in Ha|].
    destruct Hp as (Hf & Hs & Hk). apply elem_of_cons in Ha as [->|Ha]; [by eexists|].
    apply elem_of_app in Ha as [Ha|Ha]; [by eapply Ht|by eapply IH].
Qed.

(** A new node. *)
Lemma holds_alloc h H n :
  holds h H → holds (mkStore (<[brk h := n]> (cells h)) (brk h + 1)) (Cell (brk h) n :: H).
Proof.
  intros HH. pose proof (store_ok_fresh h (holds_store _ _ HH)) as Hf.
  assert (Hn : brk h ∉ feet H).
  { intros Hin. destruct (feet_used _ _ _ HH Hin) as [? ?]. congruence. }
  destruct HH as [Hs Hp Hnd]. split.
  - by apply store_ok_alloc.
  - constructor; [apply lookup_insert_eq|]. rewrite Forall_forall in *. intros x Hx.
    eapply piece_frame, Hp, Hx. intros b Hb. cbn. rewrite lookup_insert_ne; [done|]. intros <-.
    apply Hn. unfold feet. apply list_elem_of_join. exists (foot x). split; [done|].
    by apply list_elem_of_fmap_2.
  - unfold feet in *. cbn. by apply NoDup_cons.
Qed.

Lemma depth_run fuel p t h H :
  holds h (Tree p t :: H) → size t < Z.of_nat fuel → getDepthOfBBST fuel (root t) h = Some (height t, h).
Proof.
  revert fuel p H. induction t as [|l IHl a d c dp r IHr]; intros fuel p H HH Hf;
    (destruct fuel as [|fuel];
     [match type of Hf with size ?t < _ => pose proof (size_nonneg t) end; lia|]);
    cbn [getDepthOfBBST]; [done|].
  rewrite (tree_null 0 _ _ _ _ HH eq_refl). apply holds_node in HH. cbn [root size] in *.
  pose proof (size_nonneg l). pose proof (size_nonneg r).
  rewrite (run_load 0 _ _ _ _ _ HH eq_refl). cbn [Left Right].
  pull 1%nat HH. rewrite (bind_run _ _ _ _ _ (IHl fuel _ _ HH ltac:(lia))).
  pull 2%nat HH. rewrite (bind_run _ _ _ _ _ (IHr fuel _ _ HH ltac:(lia))).
  cbn. unfold ret. repeat f_equal. destruct (Z.ltb_spec (height r) (height l)); lia.
Qed.

Section Spec.
Context {T C : Type} `{CC : Countable C} {KT : KeyedTable T Z C}.
Context (comp : Z → Z → Z).
Implicit Types (tr : BBST T).

(** ** Operations *)

Inductive bbst_op :=
  | Insert (d : Z)      (** create a node and insert it *)
  | Remove (d : Z)      (** find, remove and free a node *)
  | Member (d : Z)
  | Count
  | LeftMost
  | RightMost
  | Clear.

Definition node_data (p : Z) : B Z :=
  if p =? NULL then ret NULL else do n <- load p; ret (Data n).

Definition bbst_step (fuel : nat) tr (op : bbst_op) : B (Z * BBST T) :=
  match op with
  | Insert d => do r <- createBBSTNode tr d; insertBBSTNode comp fuel r.2 r.1
  | Remove d =>
    if getBBSTNode tr d =? NULL then ret (UTIL_BBST_NOT_IN_THIS_TREE, tr)
    else
      do r <- removeBBSTNode fuel tr (getBBSTNode tr d);
      do tr <- freeBBSTNode r.2 r.1.2;
      ret (r.1.1, tr)
  | Member d => ret (if getBBSTNode tr d =? NULL then 0 else 1, tr)
  | Count => do c <- getBBSTNodeCount tr; ret (c, tr)
  | LeftMost => do p <- getLeftMostNode fuel tr; do d <- node_data p; ret (d, tr)
  | RightMost => do p <- getRightMostNode fuel tr; do d <- node_data p; ret (d, tr)
  | Clear => do tr <- clearBBST fuel fuel tr; ret (FUNC_RETURN_OK, tr)
  end.

Definition has (d : Z) (s : list Z) : bool := bool_decide (table_id d ∈ table_id <$> s).

Definition list_step (s : list Z) (op : bbst_op) : Z * list Z :=
  match op with
  | Insert d => if has d s then (UTIL_BBST_DUPLICATE_VALUE, s) else (FUNC_RETURN_OK, ordered_insert comp d s)
  | Remove d =>
    if has d s then (FUNC_RETURN_OK, filter (λ y, table_id y ≠ table_id d) s)
    else (UTIL_BBST_NOT_IN_THIS_TREE, s)
  | Member d => (if has d s then 1 else 0, s)
  | Count => (Z.of_nat (length s), s)
  | LeftMost => (default NULL (head s), s)
  | RightMost => (default NULL (last s), s)
  | Clear => (FUNC_RETURN_OK, [])
  end.

(** The keys are keys of the index, there is room for a node, and there is
    fuel for the loops. *)
Definition op_ok (fuel : nat) (s : list Z) (op : bbst_op) : Prop :=
  match op with Insert d | Remove d | Member d => table_key_ok d | _ => True end ∧
  Z.of_nat (length s) + 1 < 2 ^ 31 ∧ (fuel_for (Z.of_nat (length s) + 1) + 1 < fuel)%nat.

(** A store in which a tree holds a list. *)
Definition bbst_is (h : Store BBSTNodeData) tr (s : list Z) : Prop :=
  ∃ t H, bbst_rep h tr t H ∧ (items t).*2 = s ∧ ordered comp s.

Lemma has_ids t d : has d (items t).*2 = bool_decide (table_id d ∈ ids t).
Proof. done. Qed.

Lemma size_data t s : (items t).*2 = s → size t = Z.of_nat (length s).
Proof. intros <-. by rewrite size_items, length_fmap. Qed.

Lemma ordered_remove s1 d s2 : ordered comp (s1 ++ d :: s2) → ordered comp (s1 ++ s2).
Proof.
  rewrite !ordered_app. intros (H1 & H2 & H3). apply Sorted.StronglySorted_inv in H2 as [H2 _].
  split_and!; [done..|]. intros x y Hx Hy. apply H3; [done|]. by right.
Qed.

Lemma filter_remove (s1 s2 : list Z) d d' :
  NoDup (table_id <$> s1 ++ d' :: s2) → table_id d' = table_id d →
  filter (λ y, table_id y ≠ table_id d) (s1 ++ d' :: s2) = s1 ++ s2.
Proof.
  intros Hn Hd. rewrite fmap_app in Hn. cbn in Hn. apply NoDup_app in Hn as (_ & Hn1 & Hn2).
  apply NoDup_cons in Hn2 as [Hn2 _]. rewrite filter_app, filter_cons_False by (by intros []).
  assert (Hf : ∀ s : list Z, table_id d ∉ table_id <$> s → filter (λ y, table_id y ≠ table_id d) s = s).
  { induction s as [|y s IH]; intros Hs; [done|]. cbn in Hs. apply not_elem_of_cons in Hs as [Hy Hs].
    rewrite filter_cons_True by congruence. by rewrite IH. }
  rewrite !Hf; [done| |].
  - by rewrite <- Hd.
  - intros Hin. apply (Hn1 _ Hin). rewrite Hd. by left.
Qed.

(** ** Each operation *)

Lemma free_step h tr t b n H :
  bbst_rep h tr t (Cell b n :: H) →
  ∃ h' n', freeBBSTNode tr b h = Some (tr, h') ∧ bbst_rep h' tr t (Cell b n' :: H).
Proof.
  intros [HH Hr Hf Ht Hfit Hix Hids Hks]. unfold freeBBSTNode.
  destruct (run_modify 1 _ _ (λ n, mkBBSTNode NULL NULL (Right n) NULL (-1) 0) _ _ HH eq_refl)
    as (h1 & E1 & _ & HH1). rewrite E1. cbn [insert list_insert] in HH1.
  destruct (run_modify 1 _ _ (set_Right (Free tr)) _ _ HH1 eq_refl) as (h2 & E2 & _ & HH2).
  rewrite E2. hsimp HH2. rewrite (run_load 1 _ _ _ _ _ HH2 eq_refl). cbn [Right].
  eexists h2, _. split; [by destruct tr|]. by split.
Qed.

Lemma create_step h tr t H d :
  bbst_rep h tr t H →
  ∃ h' node, createBBSTNode tr d h = Some ((node, tr), h') ∧
    bbst_rep h' tr t (Cell node (mkBBSTNode d NULL NULL NULL 1 1) :: H).
Proof.
  intros [HH Hr Hf Ht Hfit Hix Hids Hks]. unfold createBBSTNode. rewrite Hf. cbn [negb Z.eqb NULL].
  rewrite bind_bind, bind_alloc, bind_ret. cbn [fst].
  pose proof (holds_alloc _ _ (mkBBSTNode NULL NULL NULL NULL 0 0) HH) as HH1. pull 1%nat HH1.
  destruct (run_modify 1 _ _ (λ n, set_Depth 1 (set_NodeCount 1 (set_Data d n))) _ _ HH1 eq_refl)
    as (h2 & E2 & _ & HH2). rewrite E2. hsimp HH2.
  eexists h2, _. split; [done|]. by split.
Qed.

Lemma get_node_found h tr t H d :
  bbst_rep h tr t H → table_key_ok d →
  if has d (items t).*2 then
    ∃ d', (getBBSTNode tr d, d') ∈ items t ∧ table_id d' = table_id d ∧ getBBSTNode tr d ≠ NULL
  else getBBSTNode tr d = NULL.
Proof.
  intros Hrep Hk. pose proof (index_get _ _ _ (br_index _ _ _ _ Hrep) Hk) as Hg. unfold getBBSTNode.
  rewrite has_ids. destruct (table_get (NodeIndex tr) d) as [a|]; cbn [default].
  - destruct Hg as (d' & Hin & Hid). rewrite bool_decide_true.
    + exists d'. split; [done|]. split; [done|]. intros Ha. cbn in Ha. subst a.
      destruct (find_node _ _ _ Hin) as (k & l & c & dp & r & Et).
      pose proof (br_holds _ _ _ _ Hrep) as HH. rewrite Et in HH.
      apply (proj2 (holds_plug h k _ _)), holds_node in HH. by apply (cell_pos 0 _ _ _ _ HH eq_refl).
    + rewrite <- Hid. unfold ids. apply list_elem_of_fmap_2. by apply (list_elem_of_fmap_2 snd _ (a, d')).
  - by rewrite bool_decide_false.
Qed.

Lemma remove_step fuel h tr t H a d :
  bbst_rep h tr t H → (a, d) ∈ items t → ordered comp (items t).*2 →
  (fuel_for (size t) + 1 < fuel)%nat →
  ∃ h' tr' s1 s2, (do r <- removeBBSTNode fuel tr a; do tr <- freeBBSTNode r.2 r.1.2; ret (r.1.1, tr)) h
      = Some ((FUNC_RETURN_OK, tr'), h') ∧
    (items t).*2 = s1 ++ d :: s2 ∧ bbst_is h' tr' (s1 ++ s2).
Proof.
  intros Hrep Hin Ho Hfuel.
  destruct (remove_run fuel tr t a d h H Hrep Hin Hfuel) as (tr' & t' & h' & b & n' & s1 & s2 & E & R & _ & S1 & S2).
  rewrite (bind_run _ _ _ _ _ E). cbn [fst snd].
  destruct (free_step _ _ _ _ _ _ R) as (h2 & n2 & E2 & R2). rewrite (bind_run _ _ _ _ _ E2).
  exists h2, tr', s1, s2. split; [done|]. split; [done|]. exists t'. eexists. split; [exact R2|].
  split; [done|]. rewrite S1 in Ho. by eapply ordered_remove.
Qed.

Lemma node_data_run h tr t H k l a d c dp r :
  bbst_rep h tr t H → t = plug k (Node l a d c dp r) → node_data a h = Some (d, h).
Proof.
  intros Hrep ->. pose proof (br_holds _ _ _ _ Hrep) as HH.
  apply (proj2 (holds_plug h k _ _)), holds_node in HH. unfold node_data. cbn [root] in HH.
  by rewrite (cell_null 0 _ _ _ _ HH eq_refl), (run_load 0 _ _ _ _ _ HH eq_refl).
Qed.

Lemma ends_run fuel h tr t H :
  bbst_rep h tr t H → size t ≤ Z.of_nat fuel →
  (do p <- getLeftMostNode fuel tr; node_data p) h = Some (default NULL (head (items t).*2), h) ∧
  (do p <- getRightMostNode fuel tr; node_data p) h = Some (default NULL (last (items t).*2), h).
Proof.
  intros Hrep Hf. pose proof Hrep as [HH Hr _ _ _ _ _ _]. unfold getLeftMostNode, getRightMostNode.
  rewrite Hr, (tree_null 0 _ _ _ _ HH eq_refl). destruct (decide (t = Leaf)) as [->|Hne]; [done|].
  destruct (find_leftmost t Hne) as (k & x & a & d & c & dp & Et & Hk & Hrun).
  destruct (find_rightmost t Hne) as (k' & x' & a' & d' & c' & dp' & Et' & Hk' & Hrun').
  specialize (Hrun h NULL H fuel HH Hf). specialize (Hrun' h NULL H fuel HH Hf).
  replace (match t with Leaf => true | _ => false end) with false by (by destruct t).
  rewrite (bind_run _ _ _ _ _ Hrun), (bind_run _ _ _ _ _ Hrun'). split.
  - rewrite (node_data_run _ _ _ _ _ _ _ _ _ _ _ Hrep Et). by rewrite Et, items_hole, Hk.
  - rewrite (node_data_run _ _ _ _ _ _ _ _ _ _ _ Hrep Et'). rewrite Et', items_hole, Hk'.
    cbn [items]. rewrite app_nil_r, (assoc_L (++)), fmap_app. cbn. by rewrite last_snoc.
Qed.

Lemma clear_run fuel rounds h tr t H :
  bbst_rep h tr t H → ordered comp (items t).*2 →
  (fuel_for (size t) + 1 < fuel)%nat → size t < Z.of_nat rounds →
  ∃ h' tr', clearBBST fuel rounds tr h = Some (tr', h') ∧ bbst_is h' tr' [].
Proof.
  revert h tr t H. induction rounds as [|rounds IH]; intros h tr t H Hrep Ho Hf Hr;
    pose proof (size_nonneg t); [lia|].
  cbn [clearBBST]. rewrite (br_root _ _ _ _ Hrep), (tree_null 0 _ _ _ _ (br_holds _ _ _ _ Hrep) eq_refl).
  destruct t as [|l a d c dp r] eqn:Et.
  { exists h, tr. split; [done|]. by exists Leaf, H. }
  rewrite <- Et in *. replace (root t) with a by (by subst t).
  destruct (remove_step fuel h tr t H a d Hrep) as (h1 & tr1 & s1 & s2 & E1 & S1 & t1 & H1 & R1 & S2 & O1);
    [subst t; apply (item_here [] l)|done..|].
  assert (size t1 < size t).
  { rewrite (size_data _ _ S1), (size_data _ _ S2), !length_app. cbn. lia. }
  revert E1. unfold bind, ret.
  destruct (removeBBSTNode fuel tr a h) as [[[[code b] tr2] h2]|]; [|done]. cbn [fst snd].
  destruct (freeBBSTNode tr2 b h2) as [[tr3 h3]|]; [|done]. intros [= _ -> ->].
  apply (IH h1 tr1 t1 H1); [done|by rewrite S2| |lia].
  pose proof (size_nonneg t1). pose proof (fuel_for_mono (size t1) (size t) ltac:(lia)). lia.
Qed.

(** Every operation does on a tree what it does on the list. *)
Lemma bbst_step_ok fuel h tr s op
    (comp_antisym : ∀ x y, comp x y < 0 ↔ 0 < comp y x)
    (comp_trans : ∀ x y z, comp x y ≤ 0 → comp y z ≤ 0 → comp x z ≤ 0) :
  bbst_is h tr s → op_ok fuel s op →
  ∃ h' tr', bbst_step fuel tr op h = Some (((list_step s op).1, tr'), h') ∧
    bbst_is h' tr' (list_step s op).2.
Proof.
  intros (t & H & Hrep & Hs & Ho) (Hk & Hlen & Hfuel). pose proof (size_data _ _ Hs) as Hsz.
  pose proof (fuel_for_mono (size t) (Z.of_nat (length s) + 1) ltac:(lia)).
  pose proof (fuel_for_gt (size t) ltac:(lia)).
  assert (Hsame : bbst_is h tr s) by (by exists t, H).
  destruct op as [d|d|d| | | |]; cbn [bbst_step list_step].
  - destruct (create_step h tr t H d Hrep) as (h1 & node & E1 & R1).
    rewrite (bind_run _ _ _ _ _ E1). cbn [fst snd]. rewrite <- Hs, has_ids.
    case_bool_decide as Hin.
    + rewrite (insert_dup comp fuel tr t node _ h1 _ 0 R1 eq_refl Hk Hin).
      do 2 eexists. split; [done|]. exists t. eexists. split; [exact R1|]. by rewrite Hs.
    + destruct (insert_run comp fuel tr t node d NULL h1 H R1 Hk) as (tr' & t' & h' & E & R & Ti);
        [lia|rewrite Hsz; lia|done|].
      exists h', tr'. split; [done|]. exists t', H. split; [done|]. cbn. rewrite <- Hs in Ho.
      split; [|by apply ordered_insert_ordered]. rewrite Ti. by apply descend_insert.
  - pose proof (get_node_found h tr t H d Hrep Hk) as Hg. rewrite Hs in Hg. destruct (has d s).
    + destruct Hg as (d' & Hin & Hid & Hne). rewrite (proj2 (Z.eqb_neq _ _) Hne).
      destruct (remove_step fuel h tr t H _ d' Hrep Hin) as (h' & tr' & s1 & s2 & E & S1 & R);
        [by rewrite Hs|lia|]. rewrite Hs in S1. cbn.
      exists h', tr'. split; [exact E|]. rewrite S1, filter_remove; [done| |done].
      pose proof (br_ids _ _ _ _ Hrep) as Hn. unfold ids in Hn. by rewrite Hs, S1 in Hn.
    + rewrite Hg. by exists h, tr.
  - pose proof (get_node_found h tr t H d Hrep Hk) as Hg. rewrite Hs in Hg. exists h, tr. split; [|done].
    destruct (has d s).
    + destruct Hg as (d' & _ & _ & Hne). by rewrite (proj2 (Z.eqb_neq _ _) Hne).
    + by rewrite Hg.
  - unfold getBBSTNodeCount. rewrite (br_root _ _ _ _ Hrep).
    rewrite (bind_run _ _ _ _ _ (tree_count 0 _ _ _ _ (br_holds _ _ _ _ Hrep) eq_refl)).
    exists h, tr. split; [|done]. by rewrite (tok_cnt t (br_tok _ _ _ _ Hrep)), Hsz.
  - destruct (ends_run fuel h tr t H Hrep ltac:(lia)) as [E _]. rewrite <- bind_bind, (bind_run _ _ _ _ _ E), Hs.
    by exists h, tr.
  - destruct (ends_run fuel h tr t H Hrep ltac:(lia)) as [_ E]. rewrite <- bind_bind, (bind_run _ _ _ _ _ E), Hs.
    by exists h, tr.
  - destruct (clear_run fuel fuel h tr t H Hrep) as (h' & tr' & E & R); [by rewrite Hs|lia..|].
    rewrite (bind_run _ _ _ _ _ E). by exists h', tr'.
Qed.

Fixpoint bbst_run (fuel : nat) tr (ops : list bbst_op) : B (list Z * BBST T) :=
  match ops with
  | [] => ret ([], tr)
  | op :: ops => do r <- bbst_step fuel tr op; do rs <- bbst_run fuel r.2 ops; ret (r.1 :: rs.1, rs.2)
  end.

Fixpoint list_run (s : list Z) (ops : list bbst_op) : list Z * list Z :=
  match ops with
  | [] => ([], s)
  | op :: ops => let r := list_run (list_step s op).2 ops in ((list_step s op).1 :: r.1, r.2)
  end.

Fixpoint ops_ok (fuel : nat) (s : list Z) (ops : list bbst_op) : Prop :=
  match ops with
  | [] => True
  | op :: ops => op_ok fuel s op ∧ ops_ok fuel (list_step s op).2 ops
  end.

Lemma bbst_run_ok fuel h tr s ops
    (comp_antisym : ∀ x y, comp x y < 0 ↔ 0 < comp y x)
    (comp_trans : ∀ x y z, comp x y ≤ 0 → comp y z ≤ 0 → comp x z ≤ 0) :
  bbst_is h tr s → ops_ok fuel s ops →
  ∃ h' tr', bbst_run fuel tr ops h = Some (((list_run s ops).1, tr'), h') ∧
    bbst_is h' tr' (list_run s ops).2.
Proof.
  revert h tr s. induction ops as [|op ops IH]; intros h tr s Hr Hok; [by exists h, tr|].
  destruct Hok as [Hop Hok]. cbn.
  destruct (bbst_step_ok fuel h tr s op comp_antisym comp_trans Hr Hop) as (h1 & tr1 & E1 & R1).
  rewrite (bind_run _ _ _ _ _ E1). cbn [fst snd].
  destruct (IH h1 tr1 _ R1 Hok) as (h' & tr' & E' & R'). rewrite (bind_run _ _ _ _ _ E').
  by exists h', tr'.
Qed.

Lemma new_is h ix :
  store_ok h → table_ok ix → table_contents ix = ∅ → bbst_is h (initializeBBST ix) [].
Proof.
  intros Hs Hok Hc. exists Leaf, []. split; [|split; [done|constructor]].
  split; cbn; try done; [|split; [done|]|constructor].
  - split; [done|by repeat constructor|constructor].
  - intros c a. rewrite Hc, lookup_empty. split; [done|]. intros (? & Hx & _). by apply not_elem_of_nil in Hx.
Qed.
End Spec.

(** ** Theorems *)

Section Theorems.
Context {T C : Type} `{CC : Countable C} {KT : KeyedTable T Z C}.
Context (comp : Z → Z → Z).
Context (comp_antisym : ∀ x y, comp x y < 0 ↔ 0 < comp y x).
Context (comp_trans : ∀ x y z, comp x y ≤ 0 → comp y z ≤ 0 → comp x z ≤ 0).

(** C26. A tree is an ordered list, as long as no node is inserted twice.  Take
    any sequence of insertions of newly created nodes, removals that free the
    node, searches by data, counts, readings of both ends and clearings, on a
    new tree in any store, with any comparison that is a total preorder, fewer
    than 2^31 nodes and enough fuel for the loops of the largest tree.  It
    returns what it returns on an ordered list without repetition, and follows
    no NULL or freed pointer.  Nodes that are removed and inserted again, as
    [reorderBBSTNodeData] does, are not covered: [bbst_reinsert_faults]. *)
Theorem bbst_refines_ordered_list fuel h (ix : T) ops :
  store_ok h → table_ok ix → table_contents ix = ∅ → ops_ok comp fuel [] ops →
  ∃ h' tr', bbst_run comp fuel (initializeBBST ix) ops h = Some (((list_run comp [] ops).1, tr'), h').
Proof.
  intros Hs Hok Hc Hops.
  destruct (bbst_run_ok comp fuel h _ [] ops comp_antisym comp_trans (new_is comp h ix Hs Hok Hc) Hops)
    as (h' & tr' & E & _). by exists h', tr'.
Qed.

(** C27. What holds in the store after every sequence of insertions of newly
    created nodes, removals that free the node, searches, counts, readings of
    both ends and clearings, under the conditions of the refinement above: the
    nodes in order are the ordered list, every stored count is exact, every
    parent pointer is right, the index finds every node, and every stored depth
    lies between the height of its subtree and its number of nodes; the depth
    the traversal computes is that height.  Nodes that are removed and inserted
    again, as [reorderBBSTNodeData] does, are not covered. *)
Theorem bbst_invariant fuel h (ix : T) ops :
  store_ok h → table_ok ix → table_contents ix = ∅ → ops_ok comp fuel [] ops →
  ∃ h' tr' t H, bbst_run comp fuel (initializeBBST ix) ops h = Some (((list_run comp [] ops).1, tr'), h') ∧
    bbst_rep h' tr' t H ∧ (items t).*2 = (list_run comp [] ops).2 ∧
    ordered comp (list_run comp [] ops).2 ∧
    (∀ k l a d c dp r, t = plug k (Node l a d c dp r) →
       c = size (Node l a d c dp r) ∧ height (Node l a d c dp r) ≤ dp ≤ c) ∧
    ∀ fuel', size t < Z.of_nat fuel' → getMaxDepthofBBST fuel' tr' h' = Some (height t, h').
Proof.
  intros Hs Hok Hc Hops.
  destruct (bbst_run_ok comp fuel h _ [] ops comp_antisym comp_trans (new_is comp h ix Hs Hok Hc) Hops)
    as (h' & tr' & E & t & H & R & S & O).
  exists h', tr', t, H. split_and!; [done..| |].
  - intros k l a d c dp r ->. pose proof (tok_hole _ _ (br_tok _ _ _ _ R)) as Ht.
    pose proof (tok_height _ Ht). pose proof (tok_cnt _ Ht). pose proof (tok_dep _ Ht). cbn in *. lia.
  - intros fuel' Hf. unfold getMaxDepthofBBST. rewrite (br_root _ _ _ _ R).
    by eapply depth_run; [apply R|].
Qed.
End Theorems.

(** ** The trees of the code: indexed by the hash table of pointers *)

#[local] Instance data_keyed : KeyedTable (HASHTABLE Z) Z Z :=
  @hashtable_keyed _ _ _ _ VOIDPT_ops VOIDPT_laws.

Definition new_index : HASHTABLE Z :=
  initializeHASHTABLE HASHTABLE_SLOT_VOLUME_DEFAULT HASHTABLE_SLOT_VOLUME_DEFAULT_MAX false.

Lemma new_index_ok : table_ok new_index ∧ table_contents new_index = ∅.
Proof. by apply (@initialize_ok Z Z _ _ VOIDPT_ops VOIDPT_laws). Qed.

Definition empty_store : Store BBSTNodeData := mkStore ∅ 1.

Lemma empty_store_ok : store_ok empty_store.
Proof. split; [done|]. intros p n Hp. cbn in Hp. by rewrite lookup_empty in Hp. Qed.

(** Data ordered by address. *)
Definition by_address (x y : Z) : Z := x - y.

(** The depth of the subtrees of the node that holds some data. *)
Definition subtree_depths (fuel : nat) (tr : BBST (HASHTABLE Z)) (d : Z) : B (Z * Z) :=
  do n <- load (getBBSTNode tr d);
  do l <- getDepthOfBBST fuel (Left n);
  do r <- getDepthOfBBST fuel (Right n);
  ret (l, r).

Definition unbalancing_data : list Z := [15; 10; 31; 9; 37; 33; 16; 29; 24; 7; 41; 5; 22; 19; 18].

(** Insertions do not keep a tree balanced: after fifteen insertions into a
    new tree one node has subtrees of depths 1 and 3.  The header of the
    trees guarantees balance; the depths of the nodes above a rotation are not
    recomputed, so later insertions do not see that a rotation is due. *)
Lemma bbst_not_balanced :
  ∃ codes tr h', bbst_run by_address 1000 (initializeBBST new_index) (Insert <$> unbalancing_data) empty_store
      = Some ((codes, tr), h') ∧ subtree_depths 1000 tr 29 h' = Some ((1, 3), h').
Proof. do 3 eexists. split; [vm_compute; reflexivity|vm_compute; reflexivity]. Qed.

(** A tree of two nodes; both are taken out and the first is put back. *)
Definition reinserted : option (Z * BBST (HASHTABLE Z) * Store BBSTNodeData) :=
  (λ r, (r.1.1, r.1.2, r.2)) <$>
  (do r1 <- createBBSTNode (initializeBBST new_index) 1;
   do i1 <- insertBBSTNode by_address 100 r1.2 r1.1;
   do r2 <- createBBSTNode i1.2 2;
   do i2 <- insertBBSTNode by_address 100 r2.2 r2.1;
   do x1 <- removeBBSTNode 100 i2.2 r1.1;
   do x2 <- removeBBSTNode 100 x1.2 r2.1;
   do i3 <- insertBBSTNode by_address 100 x2.2 r1.1;
   ret (r1.1, i3.2)) empty_store.

(** A removed node cannot be inserted again, which the resource pool does
    with the nodes it skips and [reorderBBSTNodeData] does by design: the node
    keeps its old count and depth.  Put back as the only node of a tree it
    counts two nodes, and its next removal follows the NULL parent of the
    root, with any fuel. *)
Lemma bbst_reinsert_faults :
  ∃ node tr h, reinserted = Some (node, tr, h) ∧ Root tr = node ∧
    getBBSTNodeCount tr h = Some (2, h) ∧
    ∀ fuel, removeBBSTNode fuel tr node h = None.
Proof.
  do 3 eexists. split; [vm_compute; reflexivity|]. split; [done|]. split; [vm_compute; reflexivity|].
  intros [|fuel]; [done|]. vm_compute. reflexivity.
Qed.

Lemma by_address_antisym x y : by_address x y < 0 ↔ 0 < by_address y x.
Proof. unfold by_address. lia. Qed.
Lemma by_address_trans x y z : by_address x y ≤ 0 → by_address y z ≤ 0 → by_address x z ≤ 0.
Proof. unfold by_address. lia. Qed.

Definition demo_ops : list bbst_op :=
  [Insert 3; Insert 1; Insert 2; Insert 2; Count; Remove 3; Remove 9; LeftMost; RightMost; Clear; Count].

Lemma bbst_refines_ordered_list_witness :
  ∃ h' tr', bbst_run by_address 100 (initializeBBST new_index) demo_ops empty_store
    = Some (([0; 0; 0; 1; 3; 0; 2; 1; 2; 0; 0], tr'), h').
Proof.
  apply (bbst_refines_ordered_list by_address by_address_antisym by_address_trans 100 empty_store new_index demo_ops
    empty_store_ok (proj1 new_index_ok) (proj2 new_index_ok)).
  repeat (split; [split; [exact I|split; [vm_compute; reflexivity|vm_compute; lia]]|]). exact I.
Defined.

Lemma bbst_invariant_witness :
  ∃ h' tr' t H, bbst_run by_address 100 (initializeBBST new_index) [Insert 2; Insert 1] empty_store
      = Some (([0; 0], tr'), h') ∧ bbst_rep h' tr' t H ∧ (items t).*2 = [1; 2].
Proof.
  destruct (bbst_invariant by_address by_address_antisym by_address_trans 100 empty_store new_index
    [Insert 2; Insert 1] empty_store_ok (proj1 new_index_ok) (proj2 new_index_ok))
    as (h' & tr' & t & H & E & R & S & _).
  - repeat (split; [split; [exact I|split; [vm_compute; reflexivity|vm_compute; lia]]|]). exact I.
  - exists h', tr', t, H. split; [exact E|]. split; [exact R|exact S].
Defined.
