(* ===== verification/BbstTraverse.v ===== *)
(** The traversals of balanced search trees
    (backend/resourcemanager/utils/balancedbst.c), which keep their stack and
    their result in linked queues.

    The nodes of the tree are only read; the queues are in their own store.
    The proofs use the trees through [bbst_rep] and the queues through the
    lemmas of [DQueue]. *)
From stdpp Require Import prelude numbers list gmap.
From S2P Require Import Prelude TableIface HashTable Store DQueue.
From S2P Require Import Bbst BbstTree BbstRep BbstOps BbstSpec.
Open Scope store_scope.

Abbreviation queue := DQueue.DQueue.
Abbreviation count := DQueue.NodeCount.

Section Code.
Context {T : Type} (nodes : gmap Z BBSTNodeData).
Implicit Types (tree : BBST T) (stack lines : queue).

(** [p->...] for a node of the tree. *)
Definition read (p : Z) : Q BBSTNodeData :=
  match nodes !! p with Some n => ret n | None => fault end.

(** [while( stack.NodeCount > 0 || p != NULL )] of the pre-order traversal. *)
Fixpoint pre_loop (fuel : nat) stack lines (p maxcount : Z) : Q (queue * queue) :=
  match fuel with
  | 0%nat => fault
  | S fuel =>
    if (0 <? count stack) || negb (p =? NULL) then
      if negb (p =? NULL) then
        do lines <- insertDQueueTailNode lines p;
        do stack <- insertDQueueHeadNode stack p;
        do n <- read p;
        if (0 <? maxcount) && (count lines =? maxcount) then ret (stack, lines)
        else pre_loop fuel stack lines (Left n) maxcount
      else
        do r <- removeDQueueHeadNode stack;
        do n <- read r.1;
        pre_loop fuel r.2 lines (Right n) maxcount
    else ret (stack, lines)
  end.

Definition traverseBBSTPreOrder (fuel : nat) tree lines (maxcount : Z) : Q (Z * queue) :=
  do r <- pre_loop fuel initializeDQueue lines (Root tree) maxcount;
  do stack <- removeAllDQueueNodes r.1;
  cleanDQueue stack;;;
  ret (FUNC_RETURN_OK, r.2).

Fixpoint mid_loop (fuel : nat) stack lines (p : Z) : Q (queue * queue) :=
  match fuel with
  | 0%nat => fault
  | S fuel =>
    if (0 <? count stack) || negb (p =? NULL) then
      if negb (p =? NULL) then
        do stack <- insertDQueueHeadNode stack p;
        do n <- read p;
        mid_loop fuel stack lines (Left n)
      else
        do r <- removeDQueueHeadNode stack;
        do lines <- insertDQueueTailNode lines r.1;
        do n <- read r.1;
        mid_loop fuel r.2 lines (Right n)
    else ret (stack, lines)
  end.

Definition traverseBBSTMidOrder (fuel : nat) tree lines : Q (Z * queue) :=
  do r <- mid_loop fuel initializeDQueue lines (Root tree);
  do stack <- removeAllDQueueNodes r.1;
  cleanDQueue stack;;;
  ret (FUNC_RETURN_OK, r.2).

(** ** The stack *)

(** The trees whose roots are on the stack. *)
Definition on_stack (l : list (Z * Z)) (ts : list tree) : Prop :=
  l.*2 = root <$> ts ∧ Forall (λ t, t ≠ Leaf ∧ ∃ p, tree_rep nodes p t) ts.

(** What is still to be visited after the current tree. *)
Fixpoint rest_mid (ts : list tree) : list Z :=
  match ts with
  | [] => []
  | Leaf :: ts => rest_mid ts
  | Node _ a _ _ _ r :: ts => a :: (items r).*1 ++ rest_mid ts
  end.
Fixpoint rest_pre (ts : list tree) : list Z :=
  match ts with
  | [] => []
  | Leaf :: ts => rest_pre ts
  | Node _ _ _ _ _ r :: ts => addrs r ++ rest_pre ts
  end.

(** Iterations still to come. *)
Fixpoint work (ts : list tree) : Z :=
  match ts with
  | [] => 0
  | Leaf :: ts => work ts
  | Node _ _ _ _ _ r :: ts => 1 + 2 * size r + work ts
  end.

Context (nonnull : ∀ p n, nodes !! p = Some n → p ≠ NULL).

Lemma read_root p l a d c dp r :
  tree_rep nodes p (Node l a d c dp r) →
  (a =? NULL) = false ∧ ∀ {A} (k : BBSTNodeData → Q A) h,
    bind (read a) k h = k (mkBBSTNode d (root l) (root r) p c dp) h.
Proof.
  intros [Ha _]. split; [by apply Z.eqb_neq; eapply nonnull|]. intros A k h. unfold read. by rewrite Ha.
Qed.

Lemma root_leaf p t : tree_rep nodes p t → (root t =? NULL) = true → t = Leaf.
Proof.
  destruct t as [|l a d c dp r]; [done|]. intros Ht E. destruct (read_root _ _ _ _ _ _ _ Ht) as [E' _].
  cbn in E. congruence.
Qed.

Lemma work_nonneg ts : 0 ≤ work ts.
Proof.
  induction ts as [|[|l a d c dp r] ts IH]; cbn; [done..|]. pose proof (size_nonneg r). lia.
Qed.

Lemma stack_bound ls ts : on_stack ls ts → (length ls ≤ length (rest_mid ts))%nat.
Proof.
  intros [Hl Ht]. rewrite <- (length_fmap snd ls), Hl, length_fmap. clear Hl.
  induction Ht as [|t ts [Hne _] _ IH]; cbn; [done|]. destruct t; [done|]. cbn. rewrite length_app. lia.
Qed.

(** Two queues in the store: the stack and the result. *)
Definition queues (h : Store DQueueNodeData) stack lines ls fs ll fl : Prop :=
  dq_rep h stack ls fs ∧ dq_rep h lines ll fl ∧ disjoint_queues ls fs ll fl.

Lemma mid_loop_ok fuel h stack lines ls fs ll fl t p ts :
  queues h stack lines ls fs ll fl → tree_rep nodes p t → on_stack ls ts →
  2 * size t + work ts < Z.of_nat fuel →
  size t + Z.of_nat (length ll) + Z.of_nat (length (rest_mid ts)) < 2 ^ 31 - 1 →
  ∃ h' stack' lines' fs' ll' fl', mid_loop fuel stack lines (root t) h = Some ((stack', lines'), h') ∧
    queues h' stack' lines' [] fs' ll' fl' ∧ ll'.*2 = ll.*2 ++ (items t).*1 ++ rest_mid ts.
Proof.
  revert h stack lines ls fs ll fl t p ts.
  induction fuel as [|fuel IH]; intros h stack lines ls fs ll fl t p ts (Hst & Hli & Hd) Ht Hon Hf Hb.
  { pose proof (size_nonneg t). pose proof (work_nonneg ts). lia. }
  cbn [mid_loop]. rewrite (rep_count _ _ _ _ Hst). destruct t as [|l a d c dp r].
  - destruct Hon as [Hls Hts]. cbn [root]. rewrite Z.eqb_refl. cbn [negb]. rewrite orb_false_r.
    destruct ls as [|[b x] ls].
    { destruct ts; [|done]. cbn. exists h, stack, lines, fs, ll, fl. split; [done|]. split; [done|].
      by rewrite app_nil_r. }
    destruct ts as [|tb ts]; [done|]. cbn in Hls. injection Hls as -> Hls.
    apply Forall_cons in Hts as [(Hne & q & Htb) Hts]. destruct tb as [|l b' d c dp r]; [done|].
    rewrite (proj2 (Z.ltb_lt _ _)) by (cbn; lia).
    destruct (remove_head_two _ _ _ _ _ _ _ _ _ Hst Hli Hd) as (h1 & st1 & E1 & R1 & L1 & D1).
    rewrite (bind_run _ _ _ _ _ E1). cbn [fst snd root]. cbn in Hb.
    destruct (insert_tail_two h1 lines ll fl st1 ls (b :: fs) b' L1 R1) as (h2 & li2 & e & fl2 & E2 & R2 & L2 & D2);
      [by apply disjoint_sym|lia|].
    rewrite (bind_run _ _ _ _ _ E2). destruct (read_root _ _ _ _ _ _ _ Htb) as [_ Hread]. rewrite Hread.
    cbn [Right]. destruct Htb as (_ & _ & Htr). cbn in Hf.
    destruct (IH h2 st1 li2 ls (b :: fs) (ll ++ [(e, b')]) fl2 r b' ts) as (h' & st' & li' & fs' & ll' & fl' & E & Q & I).
    + split; [done|]. split; [done|]. by apply disjoint_sym.
    + done.
    + done.
    + cbn. lia.
    + rewrite length_app in *. rewrite length_fmap in Hb. rewrite size_items. cbn. lia.
    + exists h', st', li', fs', ll', fl'. split; [done|]. split; [done|]. rewrite I, fmap_app. cbn.
      by rewrite <- (assoc_L (++)).
  - destruct (read_root _ _ _ _ _ _ _ Ht) as [En Hread]. cbn [root]. rewrite En. cbn [negb].
    rewrite orb_true_r. cbn [size] in Hf, Hb. pose proof (size_nonneg l). pose proof (size_nonneg r).
    pose proof (stack_bound _ _ Hon).
    destruct (insert_head_two h stack ls fs lines ll fl a Hst Hli Hd) as (h1 & st1 & e & fs1 & E1 & R1 & L1 & D1); [lia|].
    rewrite (bind_run _ _ _ _ _ E1), Hread. cbn [Left].
    destruct (IH h1 st1 lines ((e, a) :: ls) fs1 ll fl l a (Node l a d c dp r :: ts))
      as (h' & st' & li' & fs' & ll' & fl' & E & Q & I).
    + done.
    + apply Ht.
    + split; [cbn; f_equal; apply Hon|]. constructor; [|apply Hon]. split; [done|by exists p].
    + cbn. lia.
    + cbn. rewrite length_app, length_fmap. rewrite (size_items r) in Hb. lia.
    + exists h', st', li', fs', ll', fl'. split; [done|]. split; [done|]. rewrite I. cbn.
      rewrite fmap_app. cbn. by rewrite <- (assoc_L (++)).
Qed.

Lemma stack_work ls ts : on_stack ls ts → Z.of_nat (length ls) ≤ work ts.
Proof.
  intros [Hl Ht]. rewrite <- (length_fmap snd ls), Hl, length_fmap. clear Hl.
  induction Ht as [|t ts [Hne _] _ IH]; cbn; [done|]. destruct t as [|l a d c dp r]; [done|].
  pose proof (size_nonneg r). cbn. lia.
Qed.

(** At most [maxcount] lines if it is positive. *)
Definition bounded (maxcount : Z) (s : list Z) : list Z :=
  if 0 <? maxcount then take (Z.to_nat maxcount) s else s.

Lemma pre_loop_ok maxcount fuel h stack lines ls fs ll fl t p ts :
  queues h stack lines ls fs ll fl → tree_rep nodes p t → on_stack ls ts →
  (0 < maxcount → Z.of_nat (length ll) < maxcount) →
  2 * size t + work ts < Z.of_nat fuel → 2 * size t + work ts + Z.of_nat (length ll) < 2 ^ 31 - 1 →
  ∃ h' stack' lines' ls' fs' ll' fl',
    pre_loop fuel stack lines (root t) maxcount h = Some ((stack', lines'), h') ∧
    queues h' stack' lines' ls' fs' ll' fl' ∧
    ll'.*2 = bounded maxcount (ll.*2 ++ addrs t ++ rest_pre ts).
Proof.
  revert h stack lines ls fs ll fl t p ts.
  induction fuel as [|fuel IH]; intros h stack lines ls fs ll fl t p ts (Hst & Hli & Hd) Ht Hon Hm Hf Hb.
  { pose proof (size_nonneg t). pose proof (work_nonneg ts). lia. }
  cbn [pre_loop]. rewrite (rep_count _ _ _ _ Hst). destruct t as [|l a d c dp r].
  - destruct Hon as [Hls Hts]. cbn [root]. rewrite Z.eqb_refl. cbn [negb]. rewrite orb_false_r.
    destruct ls as [|[b x] ls].
    { destruct ts; [|done]. cbn. exists h, stack, lines, [], fs, ll, fl. split; [done|]. split; [done|].
      rewrite app_nil_r. unfold bounded. destruct (Z.ltb_spec 0 maxcount); [|done].
      rewrite take_ge; [done|]. rewrite length_fmap. lia. }
    destruct ts as [|tb ts]; [done|]. cbn in Hls. injection Hls as -> Hls.
    apply Forall_cons in Hts as [(Hne & q & Htb) Hts]. destruct tb as [|l b' d c dp r]; [done|].
    rewrite (proj2 (Z.ltb_lt _ _)) by (cbn; lia).
    destruct (remove_head_two _ _ _ _ _ _ _ _ _ Hst Hli Hd) as (h1 & st1 & E1 & R1 & L1 & D1).
    rewrite (bind_run _ _ _ _ _ E1). cbn [fst snd root]. cbn in Hb, Hf.
    destruct (read_root _ _ _ _ _ _ _ Htb) as [_ Hread]. rewrite Hread. cbn [Right].
    destruct Htb as (_ & _ & Htr). by apply (IH h1 st1 lines ls (b :: fs) ll fl r b' ts); try done; lia.
  - destruct (read_root _ _ _ _ _ _ _ Ht) as [En Hread]. cbn [root]. rewrite En. cbn [negb].
    rewrite orb_true_r. cbn [size] in Hf, Hb. pose proof (size_nonneg l). pose proof (size_nonneg r).
    pose proof (stack_work _ _ Hon).
    destruct (insert_tail_two h lines ll fl stack ls fs a Hli Hst) as (h1 & li1 & e & fl1 & E1 & R1 & L1 & D1);
      [by apply disjoint_sym|lia|]. rewrite (bind_run _ _ _ _ _ E1).
    destruct (insert_head_two h1 stack ls fs li1 (ll ++ [(e, a)]) fl1 a L1 R1) as (h2 & st2 & e2 & fs2 & E2 & R2 & L2 & D2);
      [by apply disjoint_sym|lia|]. rewrite (bind_run _ _ _ _ _ E2), Hread. cbn [Left].
    rewrite (rep_count _ _ _ _ L2), length_app. cbn [length].
    assert (Hll : (ll ++ [(e, a)]).*2 ++ addrs l ++ rest_pre (Node l a d c dp r :: ts)
      = ll.*2 ++ addrs (Node l a d c dp r) ++ rest_pre ts).
    { rewrite fmap_app. cbn. by rewrite <- !(assoc_L (++)). }
    destruct ((0 <? maxcount) && (Z.of_nat (length ll + 1) =? maxcount)) eqn:Hbr.
    + apply andb_true_iff in Hbr as [Hb1 Hb2]. apply Z.eqb_eq in Hb2.
      do 7 eexists. split; [done|]. split; [done|]. rewrite <- Hll. unfold bounded. rewrite Hb1.
      rewrite take_app_length'; [done|]. rewrite length_fmap, length_app. cbn [length]. lia.
    + rewrite <- Hll.
      apply (IH h2 st2 li1 ((e2, a) :: ls) fs2 (ll ++ [(e, a)]) fl1 l a (Node l a d c dp r :: ts)).
      * done.
      * apply Ht.
      * split; [cbn; f_equal; apply Hon|]. constructor; [|apply Hon]. split; [done|by exists p].
      * rewrite length_app. cbn. intros Hm0. specialize (Hm Hm0).
        rewrite (proj2 (Z.ltb_lt _ _) Hm0) in Hbr. cbn in Hbr. apply Z.eqb_neq in Hbr. lia.
      * cbn. lia.
      * cbn. rewrite length_app. cbn. lia.
Qed.

(** The stack is emptied and its nodes are freed. *)
Lemma drop_stack h stack lines ls fs ll fl :
  queues h stack lines ls fs ll fl →
  ∃ h', (do stack <- removeAllDQueueNodes stack; cleanDQueue stack;;; ret (FUNC_RETURN_OK, lines)) h
      = Some ((FUNC_RETURN_OK, lines), h') ∧ dq_rep h' lines ll fl ∧
    ∀ a, a ∈ own ls fs → cells h' !! a = None.
Proof.
  intros (Hst & Hli & Hd). destruct (remove_all_ok h stack ls fs Hst) as (h1 & st1 & E1 & R1 & F1).
  rewrite (bind_run _ _ _ _ _ E1).
  assert (L1 : dq_rep h1 lines ll fl).
  { eapply rep_frame; [done|apply R1|done|]. intros b Hb. by eapply disjoint_not. }
  assert (Hperm : reverse ls.*1 ++ fs ≡ₚ own ls fs) by (unfold own; by rewrite reverse_Permutation).
  destruct (clean_two h1 st1 _ lines ll fl R1 L1) as (h2 & E2 & L2 & D2 & _).
  { eapply own_perm_disjoint; [|exact Hd]. unfold own at 2. cbn. by rewrite Hperm. }
  rewrite (bind_run _ _ _ _ _ E2). exists h2. split; [done|]. split; [done|].
  intros a Ha. apply D2. by rewrite Hperm.
Qed.
End Code.

(** ** Theorem *)

Section Traversals.
Context {T C : Type} `{CC : Countable C} {KT : KeyedTable T Z C}.

(** The mid-order traversal of a tree appends the nodes of the tree to the
    lines in the order of their data; the pre-order traversal appends them
    with every node before its subtrees, and stops when there are [maxcount]
    lines if [maxcount] is positive.  Both end, leave the queue of lines well
    formed, and free the nodes of their stack. *)
Lemma traversals_correct h (tr : BBST T) t H hq lines ll fl fuel maxcount :
  bbst_rep h tr t H → dq_rep hq lines ll fl → 2 * size t < Z.of_nat fuel →
  2 * size t + Z.of_nat (length ll) < 2 ^ 31 - 1 →
  (0 < maxcount → Z.of_nat (length ll) < maxcount) →
  (∃ h' lines' ll' fl',
     traverseBBSTMidOrder (cells h) fuel tr lines hq = Some ((FUNC_RETURN_OK, lines'), h') ∧
     dq_rep h' lines' ll' fl' ∧ ll'.*2 = ll.*2 ++ (items t).*1) ∧
  (∃ h' lines' ll' fl',
     traverseBBSTPreOrder (cells h) fuel tr lines maxcount hq = Some ((FUNC_RETURN_OK, lines'), h') ∧
     dq_rep h' lines' ll' fl' ∧ ll'.*2 = bounded maxcount (ll.*2 ++ addrs t)).
Proof.
  intros Hrep Hq Hf Hb Hm. pose proof (br_holds _ _ _ _ Hrep) as HH.
  pose proof (holds_at 0 _ _ _ HH eq_refl) as Ht. cbn in Ht.
  assert (Hnn : ∀ p n, cells h !! p = Some n → p ≠ NULL).
  { intros p n Hp. apply (proj2 (holds_store _ _ HH)) in Hp. unfold NULL. lia. }
  assert (Hqs : queues hq initializeDQueue lines [] [] ll fl).
  { split; [apply empty_queue_rep, Hq|]. split; [done|]. apply Hq. }
  assert (Hon : on_stack (cells h) [] []) by (by split).
  pose proof (size_nonneg t).
  unfold traverseBBSTMidOrder, traverseBBSTPreOrder. rewrite (br_root _ _ _ _ Hrep). split.
  - destruct (mid_loop_ok (cells h) Hnn fuel hq _ lines [] [] ll fl t NULL [] Hqs Ht Hon)
      as (h1 & st1 & li1 & fs1 & ll1 & fl1 & E1 & Q1 & I1); [cbn; lia..|].
    rewrite (bind_run _ _ _ _ _ E1). destruct (drop_stack h1 st1 li1 [] fs1 ll1 fl1 Q1) as (h2 & E2 & R2 & _).
    cbn [fst snd]. exists h2, li1, ll1, fl1. split; [exact E2|]. split; [done|]. cbn in I1. by rewrite app_nil_r in I1.
  - destruct (pre_loop_ok (cells h) Hnn maxcount fuel hq _ lines [] [] ll fl t NULL [] Hqs Ht Hon Hm)
      as (h1 & st1 & li1 & ls1 & fs1 & ll1 & fl1 & E1 & Q1 & I1); [cbn; lia..|].
    rewrite (bind_run _ _ _ _ _ E1). destruct (drop_stack h1 st1 li1 ls1 fs1 ll1 fl1 Q1) as (h2 & E2 & R2 & _).
    cbn [fst snd]. exists h2, li1, ll1, fl1. split; [exact E2|]. split; [done|]. cbn in I1. by rewrite app_nil_r in I1.
Qed.
End Traversals.

(** ** A tree of three nodes *)

#[local] Instance demo_index : KeyedTable (HASHTABLE Z) Z Z :=
  @hashtable_keyed _ _ _ _ VOIDPT_ops VOIDPT_laws.

Lemma demo_tree :
  ∃ h (tr : BBST (HASHTABLE Z)) t H, bbst_rep h tr t H ∧ (items t).*2 = [1; 2; 3].
Proof.
  destruct (bbst_run_ok by_address 100 empty_store (initializeBBST new_index) [] [Insert 2; Insert 1; Insert 3]
    by_address_antisym by_address_trans) as (h' & tr' & _ & t & H & R & S & _).
  - exact (new_is by_address empty_store new_index empty_store_ok (proj1 new_index_ok) (proj2 new_index_ok)).
  - repeat (split; [split; [exact I|split; [vm_compute; reflexivity|vm_compute; lia]]|]). exact I.
  - by exists h', tr', t, H.
Qed.

