(* ===== verification/VarBlock.v ===== *)
(** Blocks of variable-length items (backend/cdb/cdbvarblock.c,
    include/cdb/cdbvarblock.h): the code.

    A block is a byte buffer: an eight byte header, the items one after the
    other, padding to an even length, and the array of the offsets of the
    items, two bytes each while the items start within the first 63K and
    three bytes each after that.  Pointers into the buffer are offsets.  The
    maker keeps the offsets in a scratch buffer of the caller until the block
    is finished.  [VarBlockByteLen], [VarBlockByteOffset] and [int] are
    32-bit signed integers. *)
From stdpp Require Import prelude numbers list.
From S2P Require Import Prelude.

Definition InitialVersion : Z := 1.
Definition VARBLOCK_BYTE_OFFSET_24_LEN : Z := 3.

(** ** The header *)

Record VarBlockHeader := mkVarBlockHeader { bytes_0_3 : Z; bytes_4_7 : Z }.

Definition VARBLOCK_HEADER_LEN : Z := 8.

(** A pointer to the header is a pointer to the buffer. *)
Definition load_varblock (b : list Z) : VarBlockHeader :=
  mkVarBlockHeader (rd_u32 0 b) (rd_u32 4 b).
Definition store_varblock (h : VarBlockHeader) (b : list Z) : list Z :=
  wr_u32 4 (bytes_4_7 h) (wr_u32 0 (bytes_0_3 h) b).

Definition VarBlockGet_offsetsAreSmall (h : VarBlockHeader) : Z :=
  Z.shiftr (bytes_0_3 h) 31.
Definition VarBlockGet_reserved (h : VarBlockHeader) : Z :=
  Z.shiftr (Z.land (bytes_0_3 h) 0x7C000000) 26.
Definition VarBlockGet_version (h : VarBlockHeader) : Z :=
  Z.shiftr (Z.land (bytes_0_3 h) 0x03000000) 24.
Definition VarBlockGet_itemLenSum (h : VarBlockHeader) : Z :=
  Z.land (bytes_0_3 h) 0x00FFFFFF.
Definition VarBlockGet_moreReserved (h : VarBlockHeader) : Z :=
  Z.shiftr (Z.land (bytes_4_7 h) 0xFF000000) 24.
Definition VarBlockGet_itemCount (h : VarBlockHeader) : Z :=
  Z.land (bytes_4_7 h) 0x00FFFFFF.

Definition VarBlockSet_offsetsAreSmall (e : bool) (h : VarBlockHeader) : VarBlockHeader :=
  mkVarBlockHeader
    (if e then Z.lor (bytes_0_3 h) 0x80000000 else Z.land (bytes_0_3 h) 0x7FFFFFFF)
    (bytes_4_7 h).
Definition VarBlockSet_version (e : Z) (h : VarBlockHeader) : VarBlockHeader :=
  mkVarBlockHeader
    (Z.lor (Z.land (bytes_0_3 h) 0xFCFFFFFF) (Z.land 0x03000000 (u32 (Z.shiftl e 24))))
    (bytes_4_7 h).
Definition VarBlockSet_itemLenSum (e : Z) (h : VarBlockHeader) : VarBlockHeader :=
  mkVarBlockHeader
    (Z.lor (Z.land (bytes_0_3 h) 0xFF000000) (Z.land 0x00FFFFFF e)) (bytes_4_7 h).
Definition VarBlockSet_itemCount (e : Z) (h : VarBlockHeader) : VarBlockHeader :=
  mkVarBlockHeader (bytes_0_3 h)
    (Z.lor (Z.land (bytes_4_7 h) 0xFF000000) (Z.land 0x00FFFFFF e)).

(** [((l + 1)/2)*2] on 32-bit integers. *)
Definition round_even (l : Z) : Z := s32 (Z.quot (s32 (l + 1)) 2 * 2).

(** [for (z = from; z < from + n; z++) buffer[z] = 0]. *)
Fixpoint zero_pad (n : nat) (from : Z) (b : list Z) : list Z :=
  match n with
  | 0%nat => b
  | S n => zero_pad n (from + 1) (<[Z.to_nat from:=0]> b)
  end.

(** ** The maker *)

Record VarBlockMaker := mkVarBlockMaker {
  vm_buffer : list Z;
  maxBufferLen : Z;
  currentItemLenSum : Z;
  tempScratchSpace : list Z;
  tempScratchSpaceLen : Z;
  vm_nextItemPtr : Z;
  last2ByteOffsetPtr : Z;
  currentItemCount : Z;
  maxItemCount : Z
}.

(** The memory set to zero and the two fields set by [VarBlockMakerInit] and
    [VarBlockMakerReset]. *)
Definition fresh_header (buffer : list Z) : list Z :=
  let buffer := memcpy buffer 0 (replicate 8 0) in
  let h := load_varblock buffer in
  let h := VarBlockSet_version InitialVersion h in
  let h := VarBlockSet_offsetsAreSmall true h in
  store_varblock h buffer.

Definition VarBlockMakerInit (buffer : list Z) (maxBufferLen : Z)
    (tempScratchSpace : list Z) (tempScratchSpaceLen : Z) : VarBlockMaker :=
  mkVarBlockMaker (fresh_header buffer) maxBufferLen 0 tempScratchSpace
    tempScratchSpaceLen VARBLOCK_HEADER_LEN (63 * 1024) 0
    (Z.quot tempScratchSpaceLen 2).

(** The reverse move to three byte offsets, for [r] down to zero. *)
Fixpoint widen_loop (r : nat) (scratch : list Z) : list Z :=
  let scratch :=
    wr 3 (Z.of_nat r * VARBLOCK_BYTE_OFFSET_24_LEN) (rd 2 (Z.of_nat r * 2) scratch)
      scratch in
  match r with
  | 0%nat => scratch
  | S r => widen_loop r scratch
  end.

(** What every successful branch does to the maker: its buffer (the header
    may have changed), scratch space and maximum count, and the new item. *)
Definition took_item (vm : VarBlockMaker) (buffer scratch : list Z)
    (maxCount itemLen newItemLenSum : Z) : VarBlockMaker :=
  mkVarBlockMaker buffer (maxBufferLen vm) newItemLenSum scratch
    (tempScratchSpaceLen vm) (vm_nextItemPtr vm + itemLen) (last2ByteOffsetPtr vm)
    (s32 (currentItemCount vm + 1)) maxCount.

(** The pointer to the next item and the maker, or [None] for NULL, which
    leaves the maker as it was. *)
Definition VarBlockMakerGetNextItemPtr (vm : VarBlockMaker) (itemLen : Z)
    : option (Z * VarBlockMaker) :=
  let count := currentItemCount vm in
  if maxItemCount vm <=? count then None
  else
    let header := load_varblock (vm_buffer vm) in
    let nextItemPtr := vm_nextItemPtr vm in
    let nextItemOffset := s32 nextItemPtr in
    let newItemLenSum := s32 (currentItemLenSum vm + itemLen) in
    let scratch := tempScratchSpace vm in
    let large_total :=
      s32 (VARBLOCK_HEADER_LEN + round_even newItemLenSum +
           round_even (s32 (s32 (count + 1) * VARBLOCK_BYTE_OFFSET_24_LEN))) in
    if negb (VarBlockGet_offsetsAreSmall header =? 0) then
      if last2ByteOffsetPtr vm <? nextItemPtr then
        if maxBufferLen vm <? large_total then None
        else
          let newMaxItemCount :=
            Z.quot (tempScratchSpaceLen vm) VARBLOCK_BYTE_OFFSET_24_LEN in
          if newMaxItemCount <=? count then None
          else
            let buffer :=
              store_varblock (VarBlockSet_offsetsAreSmall false header) (vm_buffer vm) in
            let scratch := widen_loop (Z.to_nat count) scratch in
            let scratch := wr 3 (count * VARBLOCK_BYTE_OFFSET_24_LEN) nextItemOffset scratch in
            Some (nextItemPtr,
                  took_item vm buffer scratch newMaxItemCount itemLen newItemLenSum)
      else
        let newTotalLen :=
          s32 (VARBLOCK_HEADER_LEN + round_even newItemLenSum + s32 (count * 2) + 2) in
        if maxBufferLen vm <? newTotalLen then None
        else
          Some (nextItemPtr,
                took_item vm (vm_buffer vm) (wr 2 (count * 2) nextItemOffset scratch)
                  (maxItemCount vm) itemLen newItemLenSum)
    else
      if maxBufferLen vm <? large_total then None
      else
        Some (nextItemPtr,
              took_item vm (vm_buffer vm)
                (wr 3 (count * VARBLOCK_BYTE_OFFSET_24_LEN) nextItemOffset scratch)
                (maxItemCount vm) itemLen newItemLenSum).

Definition VarBlockMakerItemCount (vm : VarBlockMaker) : Z := currentItemCount vm.

Definition set_buffer (b : list Z) (vm : VarBlockMaker) : VarBlockMaker :=
  mkVarBlockMaker b (maxBufferLen vm) (currentItemLenSum vm) (tempScratchSpace vm)
    (tempScratchSpaceLen vm) (vm_nextItemPtr vm) (last2ByteOffsetPtr vm)
    (currentItemCount vm) (maxItemCount vm).

(** The length of the block, and the maker with the finished buffer. *)
Definition VarBlockMakerFinish (vm : VarBlockMaker) : Z * VarBlockMaker :=
  let buffer := vm_buffer vm in
  let itemCount := currentItemCount vm in
  let itemLenSum := currentItemLenSum vm in
  let offsetToOffsetArray := s32 (VARBLOCK_HEADER_LEN + round_even itemLenSum) in
  let multiplier :=
    if negb (VarBlockGet_offsetsAreSmall (load_varblock buffer) =? 0) then 2
    else VARBLOCK_BYTE_OFFSET_24_LEN in
  let buffer :=
    memcpy buffer offsetToOffsetArray
      (slice 0 (itemCount * multiplier) (tempScratchSpace vm)) in
  let padStart := s32 (VARBLOCK_HEADER_LEN + itemLenSum) in
  let buffer := zero_pad (Z.to_nat (offsetToOffsetArray - padStart)) padStart buffer in
  let buffer :=
    store_varblock (VarBlockSet_itemLenSum itemLenSum (load_varblock buffer)) buffer in
  let buffer :=
    store_varblock (VarBlockSet_itemCount itemCount (load_varblock buffer)) buffer in
  let offsetArrayLen := s32 (itemCount * multiplier) in
  let offsetArrayLenRounded := round_even offsetArrayLen in
  let buffer :=
    zero_pad (Z.to_nat (offsetArrayLenRounded - offsetArrayLen))
      (offsetToOffsetArray + offsetArrayLen) buffer in
  (s32 (offsetToOffsetArray + offsetArrayLenRounded), set_buffer buffer vm).

Definition VarBlockMakerReset (vm : VarBlockMaker) : VarBlockMaker :=
  mkVarBlockMaker (fresh_header (vm_buffer vm)) (maxBufferLen vm) 0 (tempScratchSpace vm)
    (tempScratchSpaceLen vm) VARBLOCK_HEADER_LEN (last2ByteOffsetPtr vm) 0
    (Z.quot (tempScratchSpaceLen vm) 2).

(** ** Checks *)

Inductive VarBlockCheckError :=
  | VarBlockCheckOk
  | VarBlockCheckBadVersion
  | VarBlockCheckReservedNot0
  | VarBlockCheckMoreReservedNot0
  | VarBlockCheckItemSumLenBad1
  | VarBlockCheckItemSumLenBad2
  | VarBlockCheckZeroPadBad1
  | VarBlockCheckZeroPadBad2
  | VarBlockCheckItemCountBad1
  | VarBlockCheckItemCountBad2
  | VarBlockCheckOffsetBad1
  | VarBlockCheckOffsetBad2
  | VarBlockCheckOffsetBad3.

#[export] Instance VarBlockCheckError_eq_dec : EqDecision VarBlockCheckError.
Proof. solve_decision. Defined.

Definition VarBlockGetOffset (b : list Z) (offsetToOffsetArray itemIndex : Z) : Z :=
  if negb (VarBlockGet_offsetsAreSmall (load_varblock b) =? 0)
  then rd 2 (offsetToOffsetArray + itemIndex * 2) b
  else rd 3 (offsetToOffsetArray + itemIndex * VARBLOCK_BYTE_OFFSET_24_LEN) b.

Definition VarBlockHeaderIsValid (b : list Z) (peekLen : Z) : VarBlockCheckError :=
  let header := load_varblock b in
  if negb (VarBlockGet_version header =? InitialVersion) then VarBlockCheckBadVersion
  else if negb (VarBlockGet_reserved header =? 0) then VarBlockCheckReservedNot0
  else if negb (VarBlockGet_moreReserved header =? 0) then VarBlockCheckMoreReservedNot0
  else VarBlockCheckOk.

(** The bytes of [n] positions from [from] are zero. *)
Fixpoint is_zero_pad (n : nat) (from : Z) (b : list Z) : bool :=
  match n with
  | 0%nat => true
  | S n =>
    if negb (b !!! Z.to_nat from =? 0) then false else is_zero_pad n (from + 1) b
  end.

(** The loop over the offsets, [n] iterations: [offset] is never read
    again. *)
Fixpoint check_offsets (n : nat) (offset itemLenSum : Z) : VarBlockCheckError :=
  match n with
  | 0%nat => VarBlockCheckOk
  | S n =>
    let prevOffset := offset in
    if offset <? prevOffset then VarBlockCheckOffsetBad2
    else if itemLenSum + VARBLOCK_HEADER_LEN <? offset then VarBlockCheckOffsetBad3
    else check_offsets n offset itemLenSum
  end.

Definition VarBlockIsValid (b : list Z) (bufferLen : Z) : VarBlockCheckError :=
  let header := load_varblock b in
  let varBlockCheckError := VarBlockHeaderIsValid b bufferLen in
  if negb (bool_decide (varBlockCheckError = VarBlockCheckOk)) then varBlockCheckError
  else
    let itemLenSum := VarBlockGet_itemLenSum header in
    if bufferLen <=? itemLenSum then VarBlockCheckItemSumLenBad1
    else
      let offsetToOffsetArray := s32 (VARBLOCK_HEADER_LEN + round_even itemLenSum) in
      if bufferLen <? offsetToOffsetArray then VarBlockCheckItemSumLenBad2
      else
        let padStart := s32 (VARBLOCK_HEADER_LEN + itemLenSum) in
        if negb (is_zero_pad (Z.to_nat (offsetToOffsetArray - padStart)) padStart b)
        then VarBlockCheckZeroPadBad1
        else
          let itemCount := VarBlockGet_itemCount header in
          if itemCount =? 0 then
            if negb (offsetToOffsetArray =? bufferLen) then VarBlockCheckItemCountBad1
            else VarBlockCheckOk
          else
            let multiplier :=
              if negb (VarBlockGet_offsetsAreSmall header =? 0) then 2
              else VARBLOCK_BYTE_OFFSET_24_LEN in
            let actualOffsetArrayLenRounded := s32 (bufferLen - offsetToOffsetArray) in
            let calculatedOffsetArrayLen := s32 (itemCount * multiplier) in
            let calculatedOffsetArrayLenRounded := round_even calculatedOffsetArrayLen in
            if negb (actualOffsetArrayLenRounded =? calculatedOffsetArrayLenRounded)
            then VarBlockCheckItemCountBad2
            else
              let offset := VarBlockGetOffset b offsetToOffsetArray 0 in
              if negb (offset =? VARBLOCK_HEADER_LEN) then VarBlockCheckOffsetBad1
              else
                let r := check_offsets (Z.to_nat (itemCount - 1)) offset itemLenSum in
                if negb (bool_decide (r = VarBlockCheckOk)) then r
                else if negb (is_zero_pad
                                (Z.to_nat (calculatedOffsetArrayLenRounded
                                           - calculatedOffsetArrayLen))
                                (offsetToOffsetArray + calculatedOffsetArrayLen) b)
                then VarBlockCheckZeroPadBad2
                else VarBlockCheckOk.

(** [None] is [exit(1)]. *)
Definition VarBlockLenFromHeader (b : list Z) (peekLen : Z) : option Z :=
  if peekLen <? VARBLOCK_HEADER_LEN then None
  else
    let header := load_varblock b in
    let itemLenSum := VarBlockGet_itemLenSum header in
    let offsetToOffsetArray := s32 (VARBLOCK_HEADER_LEN + round_even itemLenSum) in
    let multiplier :=
      if negb (VarBlockGet_offsetsAreSmall header =? 0) then 2
      else VARBLOCK_BYTE_OFFSET_24_LEN in
    let offsetArrayLen := s32 (u32 (VarBlockGet_itemCount header * multiplier)) in
    let offsetArrayLen := round_even offsetArrayLen in
    Some (s32 (offsetToOffsetArray + offsetArrayLen)).

(** ** The reader *)

Record VarBlockReader := mkVarBlockReader {
  vr_buffer : list Z;
  vr_bufferLen : Z;
  nextIndex : Z;
  vr_nextItemPtr : Z;
  vr_offsetToOffsetArray : Z
}.

(** The reader and the count that the assertion compares with the header. *)
Definition VarBlockReaderInit (b : list Z) (bufferLen : Z) : VarBlockReader * Z :=
  let header := load_varblock b in
  let itemLenSum := VarBlockGet_itemLenSum header in
  let offsetToOffsetArray := s32 (VARBLOCK_HEADER_LEN + round_even itemLenSum) in
  let divisor :=
    if negb (VarBlockGet_offsetsAreSmall header =? 0) then 2
    else VARBLOCK_BYTE_OFFSET_24_LEN in
  let calculatedItemCount := Z.quot (s32 (bufferLen - offsetToOffsetArray)) divisor in
  (mkVarBlockReader b bufferLen 0 VARBLOCK_HEADER_LEN offsetToOffsetArray,
   calculatedItemCount).

(** The count of items is unsigned, and so is its comparison with an index. *)
Definition VarBlockGetItemLen (vr : VarBlockReader) (itemIndex : Z) : Z :=
  let header := load_varblock (vr_buffer vr) in
  let offset := VarBlockGetOffset (vr_buffer vr) (vr_offsetToOffsetArray vr) itemIndex in
  if u32 itemIndex <? u32 (VarBlockGet_itemCount header - 1) then
    let nextOffset :=
      VarBlockGetOffset (vr_buffer vr) (vr_offsetToOffsetArray vr) (itemIndex + 1) in
    s32 (nextOffset - offset)
  else s32 (VARBLOCK_HEADER_LEN + VarBlockGet_itemLenSum header - offset).

Definition VarBlockGetItemPtrAndLen (vr : VarBlockReader) (itemIndex : Z) : Z * Z :=
  let header := load_varblock (vr_buffer vr) in
  let offset := VarBlockGetOffset (vr_buffer vr) (vr_offsetToOffsetArray vr) itemIndex in
  let itemLen :=
    if u32 itemIndex <? u32 (VarBlockGet_itemCount header - 1) then
      let nextOffset :=
        VarBlockGetOffset (vr_buffer vr) (vr_offsetToOffsetArray vr) (itemIndex + 1) in
      s32 (nextOffset - offset)
    else s32 (VARBLOCK_HEADER_LEN + VarBlockGet_itemLenSum header - offset) in
  (offset, itemLen).

Definition VarBlockReaderPosition (vr : VarBlockReader) (itemIndex : Z) : VarBlockReader :=
  let '(nextItemPtr, _) := VarBlockGetItemPtrAndLen vr itemIndex in
  mkVarBlockReader (vr_buffer vr) (vr_bufferLen vr) itemIndex nextItemPtr
    (vr_offsetToOffsetArray vr).

(** The pointer and the length of the next item with the moved reader, or
    [None] for NULL. *)
Definition VarBlockReaderGetNextItemPtr (vr : VarBlockReader)
    : option (Z * Z * VarBlockReader) :=
  if VarBlockGet_itemCount (load_varblock (vr_buffer vr)) <=? u32 (nextIndex vr) then None
  else
    let itemLen := VarBlockGetItemLen vr (nextIndex vr) in
    Some (vr_nextItemPtr vr, itemLen,
          mkVarBlockReader (vr_buffer vr) (vr_bufferLen vr) (s32 (nextIndex vr + 1))
            (vr_nextItemPtr vr + itemLen) (vr_offsetToOffsetArray vr)).

Definition VarBlockReaderItemCount (vr : VarBlockReader) : Z :=
  VarBlockGet_itemCount (load_varblock (vr_buffer vr)).

Definition VarBlockReaderGetItemPtr (vr : VarBlockReader) (itemIndex : Z) : Z * Z :=
  VarBlockGetItemPtrAndLen vr itemIndex.

(** The target is the start of a buffer of its own or of the source's: the
    bytes are read before they are written, as [memmove] does. *)
Definition VarBlockCollapseToSingleItem (target source : list Z) (sourceLen : Z)
    : Z * list Z :=
  let '(vr, _) := VarBlockReaderInit source sourceLen in
  let '(itemPtr, itemLen) := VarBlockReaderGetItemPtr vr 0 in
  (itemLen, memcpy target 0 (slice itemPtr itemLen source)).
