(* ===== verification/VarBlockSpec.v ===== *)
(** Blocks of variable-length items: what the maker builds and what the
    reader and the check make of it.

    [layout] describes a finished block by the list of its items; the maker
    keeps [maker_inv], and finishing a maker gives a [layout].  The reader
    and the check are characterised on every [layout]. *)
From stdpp Require Import prelude numbers list.
From S2P Require Import Prelude VarBlock.

(** ** Generic facts *)

Definition even (l : Z) : Z := (l + 1) / 2 * 2.

Lemma even_bounds l : 0 ≤ l → l ≤ even l ≤ l + 1.
Proof. intros. unfold even. divlia. Qed.

Lemma even_mono l l' : l ≤ l' → even l ≤ even l'.
Proof. intros. unfold even. divlia. Qed.

Lemma even_double l : even (2 * l) = 2 * l.
Proof. unfold even. divlia. Qed.

Lemma round_even_even l : 0 ≤ l < 2 ^ 31 - 2 → round_even l = even l.
Proof.
  intros. unfold round_even, even. rewrite (s32_id (l + 1)) by lia.
  rewrite Z.quot_div_nonneg by lia. apply s32_id. divlia.
Qed.

Lemma slice_app off b1 b2 n m :
  0 ≤ off → 0 ≤ n → 0 ≤ m → ∀ b, slice off n b = b1 → slice (off + n) m b = b2 →
  slice off (n + m) b = b1 ++ b2.
Proof.
  intros Ho Hn Hm b <- <-. unfold slice.
  replace (Z.to_nat (n + m)) with (Z.to_nat n + Z.to_nat m)%nat by lia.
  rewrite <- take_take_drop, drop_drop. do 3 f_equal. lia.
Qed.

Lemma zero_pad_memcpy n from b :
  0 ≤ from → zero_pad n from b = memcpy b from (replicate n 0).
Proof.
  revert from b. induction n as [|n IH]; intros from b Hf; [done|].
  simpl. rewrite IH by lia. unfold memcpy. simpl.
  replace (Z.to_nat (from + 1)) with (S (Z.to_nat from)) by lia.
  symmetry. apply list_insert_inserts_lt. lia.
Qed.

Lemma is_zero_pad_slice n from b :
  0 ≤ from → slice from (Z.of_nat n) b = replicate n 0 → is_zero_pad n from b = true.
Proof.
  revert from. induction n as [|n IH]; intros from Hf Hs; [done|]. simpl.
  pose proof (f_equal (.!! 0%nat) Hs) as H0. rewrite slice_lookup in H0 by lia.
  simpl in H0. rewrite Nat.add_0_r in H0.
  rewrite (list_lookup_total_correct _ _ _ H0). simpl. apply IH; [lia|].
  rewrite <- (slice_slice from (Z.of_nat (S n)) 1) by lia. rewrite Hs.
  unfold slice. rewrite Nat2Z.id. simpl. rewrite drop_0.
  apply firstn_all2. by rewrite length_replicate.
Qed.

(** ** Layout *)

Definition first_bytes (items : list (list Z)) (i : nat) : Z := blen (mjoin (take i items)).

(** The offset of an item. *)
Definition start (items : list (list Z)) (i : nat) : Z := 8 + first_bytes items i.

Definition width (small : bool) : Z := if small then 2 else 3.

(** The first word of a header without the length. *)
Definition flags (small : bool) : Z := if small then 0x81000000 else 0x01000000.

(** Two byte offsets are enough: the last item starts within 63K. *)
Definition small_offsets (items : list (list Z)) : bool :=
  start items (pred (length items)) <=? 63 * 1024.

Definition offsets_start (items : list (list Z)) : Z := 8 + even (blen (mjoin items)).

Definition block_len (items : list (list Z)) : Z :=
  offsets_start items + even (Z.of_nat (length items) * width (small_offsets items)).

Record layout (b : list Z) (items : list (list Z)) : Prop := {
  lay_bytes : Forall is_byte b;
  lay_len : block_len items ≤ blen b;
  lay_max : block_len items ≤ 2 ^ 24;
  lay_word0 : rd_u32 0 b = flags (small_offsets items) + blen (mjoin items);
  lay_word1 : rd_u32 4 b = Z.of_nat (length items);
  lay_items : slice 8 (blen (mjoin items)) b = mjoin items;
  lay_pad1 : slice (8 + blen (mjoin items))
               (even (blen (mjoin items)) - blen (mjoin items)) b =
             replicate (Z.to_nat (even (blen (mjoin items)) - blen (mjoin items))) 0;
  lay_offsets : ∀ i, (i < length items)%nat →
    rd (width (small_offsets items))
      (offsets_start items + Z.of_nat i * width (small_offsets items)) b = start items i;
  lay_pad2 :
    let l := Z.of_nat (length items) * width (small_offsets items) in
    slice (offsets_start items + l) (even l - l) b = replicate (Z.to_nat (even l - l)) 0
}.

Lemma blen_mjoin_app (l1 l2 : list (list Z)) :
  blen (mjoin (l1 ++ l2)) = blen (mjoin l1) + blen (mjoin l2).
Proof. by rewrite join_app, blen_app. Qed.

Lemma first_bytes_all items i : (length items ≤ i)%nat →
  first_bytes items i = blen (mjoin items).
Proof. intros. unfold first_bytes. by rewrite firstn_all2. Qed.

Lemma first_bytes_S items i it :
  items !! i = Some it → first_bytes items (S i) = first_bytes items i + blen it.
Proof.
  intros Hi. unfold first_bytes. rewrite (take_S_r _ _ _ Hi), blen_mjoin_app. simpl.
  by rewrite app_nil_r.
Qed.

Lemma first_bytes_le items i j : (i ≤ j)%nat → first_bytes items i ≤ first_bytes items j.
Proof.
  intros. unfold first_bytes. rewrite <- (take_drop i (take j items)), blen_mjoin_app.
  rewrite take_take, Nat.min_l by lia. pose proof (blen_nonneg (mjoin (drop i (take j items)))).
  lia.
Qed.

Lemma first_bytes_app items l i : (i ≤ length items)%nat →
  first_bytes (items ++ l) i = first_bytes items i.
Proof. intros. unfold first_bytes. by rewrite take_app_le. Qed.

Lemma first_bytes_total items i : 0 ≤ first_bytes items i ≤ blen (mjoin items).
Proof.
  split; [apply blen_nonneg|]. destruct (decide (i ≤ length items)%nat).
  - rewrite <- (first_bytes_all items (length items)) by lia. by apply first_bytes_le.
  - rewrite first_bytes_all by lia. lia.
Qed.

Lemma block_len_bounds items :
  0 ≤ blen (mjoin items) ∧ 8 + blen (mjoin items) ≤ offsets_start items ∧
  offsets_start items + Z.of_nat (length items) * width (small_offsets items)
  ≤ block_len items ∧ 2 * Z.of_nat (length items) ≤
  Z.of_nat (length items) * width (small_offsets items) ≤ 3 * Z.of_nat (length items).
Proof.
  unfold block_len, offsets_start. pose proof (blen_nonneg (mjoin items)).
  pose proof (even_bounds (blen (mjoin items))).
  pose proof (even_bounds (Z.of_nat (length items) * width (small_offsets items))).
  destruct (small_offsets items); simpl in *; lia.
Qed.

(** Item [i] of a buffer that holds the items from offset 8. *)
Lemma slice_item items i it b :
  slice 8 (blen (mjoin items)) b = mjoin items → items !! i = Some it →
  slice (start items i) (blen it) b = it.
Proof.
  intros Hb Hi. unfold start.
  assert (E : mjoin items = mjoin (take i items) ++ it ++ mjoin (drop (S i) items)).
  { rewrite <- (take_drop_middle _ _ _ Hi) at 1. by rewrite join_app. }
  assert (Hl : first_bytes items i + blen it ≤ blen (mjoin items)).
  { rewrite E, !blen_app. unfold first_bytes.
    pose proof (blen_nonneg (mjoin (drop (S i) items))). lia. }
  rewrite <- (slice_slice 8 (blen (mjoin items)))
    by (done || apply blen_nonneg || lia).
  rewrite Hb, E. unfold slice, first_bytes, blen. rewrite !Nat2Z.id.
  rewrite drop_app_length, take_app_length. done.
Qed.

(** ** The header words *)

Lemma word_lor (small : bool) s : 0 ≤ s < 2 ^ 24 → flags small + s = Z.lor (flags small) s.
Proof.
  intros Hs. rewrite Z.add_comm, Z.lor_comm.
  replace (flags small) with (Z.shiftl (if small then 0x81 else 0x01) 24) by (by destruct small).
  symmetry. by apply lor_shiftl_add.
Qed.

(** A mask that separates the flags from a value of 24 bits. *)
Lemma word_mask (small : bool) s m :
  0 ≤ s < 2 ^ 24 →
  Z.land (flags small + s) m = Z.lor (Z.land (flags small) m) (Z.land s m).
Proof. intros. by rewrite word_lor, Z.land_lor_distr_l. Qed.

Lemma land_low_high s m m' :
  0 ≤ s < 2 ^ 24 → m' = Z.shiftl m 24 → Z.land s m' = 0.
Proof.
  intros Hs ->. apply Z.bits_inj'. intros i Hi. rewrite Z.land_spec, Z.testbit_0_l.
  destruct (Z.ltb_spec i 24).
  - rewrite Z.shiftl_spec_low by lia. apply andb_false_r.
  - by rewrite (range_testbit s 24) by lia.
Qed.

Lemma word_sum small s : 0 ≤ s < 2 ^ 24 → Z.land (flags small + s) 0x00FFFFFF = s.
Proof.
  intros. rewrite word_mask by done. change 0x00FFFFFF with (Z.ones 24).
  rewrite (Z.land_ones s) by lia. rewrite Z.mod_small by lia. by destruct small.
Qed.

Lemma word_top small s :
  0 ≤ s < 2 ^ 24 → Z.land (flags small + s) 0xFF000000 = flags small.
Proof.
  intros. rewrite word_mask by done. rewrite (land_low_high s 0xFF 0xFF000000) by done.
  by destruct small.
Qed.

Lemma word_version small s :
  0 ≤ s < 2 ^ 24 → Z.shiftr (Z.land (flags small + s) 0x03000000) 24 = 1.
Proof.
  intros. rewrite word_mask by done. rewrite (land_low_high s 0x03 0x03000000) by done.
  by destruct small.
Qed.

Lemma word_reserved small s :
  0 ≤ s < 2 ^ 24 → Z.shiftr (Z.land (flags small + s) 0x7C000000) 26 = 0.
Proof.
  intros. rewrite word_mask by done. rewrite (land_low_high s 0x7C 0x7C000000) by done.
  by destruct small.
Qed.

Lemma word_small small s :
  0 ≤ s < 2 ^ 24 → negb (Z.shiftr (flags small + s) 31 =? 0) = small.
Proof.
  intros. rewrite Z.shiftr_div_pow2 by lia. unfold flags. destruct small.
  - replace ((0x81000000 + s) / 2 ^ 31) with 1 by divlia. done.
  - by rewrite Z.div_small by lia.
Qed.

Lemma low24_id n : 0 ≤ n < 2 ^ 24 → Z.land n 0x00FFFFFF = n.
Proof.
  intros. change 0x00FFFFFF with (Z.ones 24). rewrite Z.land_ones by lia.
  by apply Z.mod_small.
Qed.

(** What the getters return on a finished block. *)
Section Layout.
Context (b : list Z) (items : list (list Z)) (Hlay : layout b items).

Lemma layout_bounds :
  0 ≤ blen (mjoin items) < 2 ^ 24 ∧ 0 ≤ Z.of_nat (length items) < 2 ^ 24 ∧
  8 ≤ offsets_start items ≤ block_len items ∧ block_len items ≤ 2 ^ 24 ∧ block_len items ≤ blen b.
Proof.
  destruct Hlay as [_ Hl Hm _ _ _ _ _ _]. pose proof (block_len_bounds items). lia.
Qed.

Lemma layout_itemLenSum : VarBlockGet_itemLenSum (load_varblock b) = blen (mjoin items).
Proof.
  unfold VarBlockGet_itemLenSum, load_varblock; cbn [bytes_0_3 bytes_4_7]. rewrite (lay_word0 _ _ Hlay).
  apply word_sum, layout_bounds.
Qed.

Lemma layout_itemCount : VarBlockGet_itemCount (load_varblock b) = Z.of_nat (length items).
Proof.
  unfold VarBlockGet_itemCount, load_varblock; cbn [bytes_0_3 bytes_4_7]. rewrite (lay_word1 _ _ Hlay).
  apply low24_id, layout_bounds.
Qed.

Lemma layout_small :
  negb (VarBlockGet_offsetsAreSmall (load_varblock b) =? 0) = small_offsets items.
Proof.
  unfold VarBlockGet_offsetsAreSmall, load_varblock; cbn [bytes_0_3 bytes_4_7]. rewrite (lay_word0 _ _ Hlay).
  apply word_small, layout_bounds.
Qed.

Lemma layout_offsets_start :
  s32 (VARBLOCK_HEADER_LEN + round_even (blen (mjoin items))) = offsets_start items.
Proof.
  pose proof layout_bounds. rewrite round_even_even by lia. apply s32_id.
  change (VARBLOCK_HEADER_LEN + even (blen (mjoin items))) with (offsets_start items). lia.
Qed.

Lemma layout_width :
  (if small_offsets items then 2 else VARBLOCK_BYTE_OFFSET_24_LEN)
  = width (small_offsets items).
Proof. done. Qed.

Lemma layout_offset i : (i < length items)%nat →
  VarBlockGetOffset b (offsets_start items) (Z.of_nat i) = start items i.
Proof.
  intros Hi. unfold VarBlockGetOffset. rewrite layout_small.
  rewrite <- (lay_offsets _ _ Hlay i Hi). by destruct (small_offsets items).
Qed.

Lemma layout_array_len :
  let l := Z.of_nat (length items) * width (small_offsets items) in
  s32 l = l ∧ round_even l = even l ∧
  s32 (offsets_start items + even l) = block_len items.
Proof.
  pose proof layout_bounds. pose proof (block_len_bounds items). unfold block_len in *.
  split_and!; [apply s32_id|apply round_even_even|apply s32_id]; lia.
Qed.

(** *** The check and the length *)

Lemma layout_header_valid len : VarBlockHeaderIsValid b len = VarBlockCheckOk.
Proof.
  pose proof layout_bounds as (Hs & Hn & _).
  unfold VarBlockHeaderIsValid, VarBlockGet_version, VarBlockGet_reserved,
    VarBlockGet_moreReserved, load_varblock; cbn [bytes_0_3 bytes_4_7].
  rewrite (lay_word0 _ _ Hlay), (lay_word1 _ _ Hlay).
  rewrite word_version, word_reserved by done.
  by rewrite (land_low_high _ 0xFF 0xFF000000) by done.
Qed.

Lemma check_offsets_ok n offset sum :
  offset ≤ sum + 8 → check_offsets n offset sum = VarBlockCheckOk.
Proof.
  intros Ho. induction n as [|n IH]; [done|]. simpl.
  rewrite (proj2 (Z.ltb_ge offset offset)) by lia.
  by rewrite (proj2 (Z.ltb_ge (sum + VARBLOCK_HEADER_LEN) offset)) by done.
Qed.

Lemma layout_valid : VarBlockIsValid b (block_len items) = VarBlockCheckOk.
Proof.
  pose proof layout_bounds as (Hs & Hn & Ho & Hm & Hl).
  pose proof (block_len_bounds items) as (_ & Hb1 & Hb2 & Hb3).
  pose proof layout_array_len as (E1 & E2 & _).
  unfold VarBlockIsValid. rewrite layout_header_valid, layout_itemLenSum, layout_itemCount,
    layout_small, layout_offsets_start, layout_width, bool_decide_eq_true_2 by done.
  cbv beta iota zeta delta [negb].
  rewrite (proj2 (Z.leb_gt _ _)) by lia. rewrite (proj2 (Z.ltb_ge _ _)) by lia.
  unfold VARBLOCK_HEADER_LEN. rewrite (s32_id (8 + _)) by lia.
  rewrite is_zero_pad_slice; [|lia|].
  2: { rewrite Z2Nat.id by lia. unfold offsets_start.
       replace (8 + even (blen (mjoin items)) - (8 + blen (mjoin items)))
         with (even (blen (mjoin items)) - blen (mjoin items)) by lia.
       apply (lay_pad1 _ _ Hlay). }
  cbv iota delta [negb]. destruct (Z.eqb_spec (Z.of_nat (length items)) 0) as [E0|E0].
  { rewrite (proj2 (Z.eqb_eq _ _)); [done|]. unfold block_len. rewrite E0, Z.mul_0_l.
    change (even 0) with 0. lia. }
  rewrite E1, E2. replace (block_len items - offsets_start items)
    with (even (Z.of_nat (length items) * width (small_offsets items)))
    by (unfold block_len; lia).
  rewrite s32_id by (unfold block_len in *; lia). rewrite Z.eqb_refl. cbv iota delta [negb].
  pose proof (layout_offset 0 ltac:(lia)) as Ef. change (Z.of_nat 0) with 0 in Ef.
  rewrite Ef. change (start items 0) with 8.
  rewrite check_offsets_ok by lia. rewrite (proj2 (Z.eqb_eq 8 8)) by done.
  rewrite bool_decide_eq_true_2 by done. cbv iota delta [negb].
  rewrite is_zero_pad_slice; [done|lia|].
  pose proof (even_bounds (Z.of_nat (length items) * width (small_offsets items))).
  rewrite Z2Nat.id by lia. apply (lay_pad2 _ _ Hlay).
Qed.

Lemma layout_len peekLen :
  8 ≤ peekLen → VarBlockLenFromHeader b peekLen = Some (block_len items).
Proof.
  intros Hp. unfold VarBlockLenFromHeader.
  pose proof layout_array_len as (E1 & E2 & E3). pose proof layout_bounds.
  pose proof (block_len_bounds items).
  rewrite (proj2 (Z.ltb_ge _ _)) by done.
  rewrite layout_itemLenSum, layout_itemCount, layout_small, layout_offsets_start, layout_width.
  rewrite u32_id by lia. cbv zeta in *. by rewrite E1, E2, E3.
Qed.

(** *** The reader *)

Lemma layout_item_len i it :
  items !! i = Some it →
  (if u32 (Z.of_nat i) <? u32 (VarBlockGet_itemCount (load_varblock b) - 1)
   then s32 (VarBlockGetOffset b (offsets_start items) (Z.of_nat i + 1)
             - VarBlockGetOffset b (offsets_start items) (Z.of_nat i))
   else s32 (VARBLOCK_HEADER_LEN + VarBlockGet_itemLenSum (load_varblock b)
             - VarBlockGetOffset b (offsets_start items) (Z.of_nat i))) = blen it.
Proof.
  intros Hi. pose proof (lookup_lt_Some _ _ _ Hi). pose proof layout_bounds.
  pose proof (first_bytes_total items i). pose proof (first_bytes_total items (S i)).
  rewrite layout_itemCount, layout_itemLenSum, !u32_id by lia.
  pose proof (first_bytes_S items i it Hi) as E. pose proof (blen_nonneg it).
  rewrite (layout_offset i) by done. unfold start, VARBLOCK_HEADER_LEN.
  destruct (Z.ltb_spec (Z.of_nat i) (Z.of_nat (length items) - 1)).
  - replace (Z.of_nat i + 1) with (Z.of_nat (S i)) by lia.
    rewrite layout_offset by lia. unfold start. rewrite s32_id; lia.
  - rewrite (first_bytes_all items (S i)) in E by lia. rewrite s32_id; lia.
Qed.

Definition reader_at (i : nat) : VarBlockReader :=
  mkVarBlockReader b (block_len items) (Z.of_nat i) (start items i) (offsets_start items).

Lemma layout_reader_init :
  VarBlockReaderInit b (block_len items) = (reader_at 0, Z.of_nat (length items)).
Proof.
  unfold VarBlockReaderInit.
  rewrite layout_itemLenSum, layout_small, layout_offsets_start, layout_width.
  f_equal. pose proof layout_bounds. pose proof (block_len_bounds items).
  pose proof (even_bounds (Z.of_nat (length items) * width (small_offsets items))).
  replace (block_len items - offsets_start items)
    with (even (Z.of_nat (length items) * width (small_offsets items)))
    by (unfold block_len; lia).
  rewrite s32_id by (unfold block_len in *; lia). unfold width in *.
  destruct (small_offsets items); rewrite Z.quot_div_nonneg by lia; unfold even; divlia.
Qed.

Lemma layout_get_item i it j :
  items !! i = Some it →
  VarBlockReaderGetItemPtr (reader_at j) (Z.of_nat i) = (start items i, blen it).
Proof.
  intros Hi. unfold VarBlockReaderGetItemPtr, VarBlockGetItemPtrAndLen; simpl.
  rewrite (layout_item_len i it Hi), layout_offset by (by eapply lookup_lt_Some). done.
Qed.

Lemma layout_position i it j :
  items !! i = Some it → VarBlockReaderPosition (reader_at j) (Z.of_nat i) = reader_at i.
Proof.
  intros Hi. unfold VarBlockReaderPosition.
  change (VarBlockGetItemPtrAndLen (reader_at j) (Z.of_nat i))
    with (VarBlockReaderGetItemPtr (reader_at j) (Z.of_nat i)).
  by rewrite (layout_get_item i it j Hi).
Qed.

Lemma layout_next i :
  (i ≤ length items)%nat →
  VarBlockReaderGetNextItemPtr (reader_at i) =
    (λ it, (start items i, blen it, reader_at (S i))) <$> items !! i.
Proof.
  intros Hle. pose proof layout_bounds. unfold VarBlockReaderGetNextItemPtr; simpl.
  rewrite layout_itemCount, u32_id by lia.
  destruct (items !! i) as [it|] eqn:Hi; simpl.
  - pose proof (lookup_lt_Some _ _ _ Hi). rewrite (proj2 (Z.leb_gt _ _)) by lia.
    unfold VarBlockGetItemLen; simpl. rewrite (layout_item_len i it Hi).
    rewrite s32_id by lia. unfold reader_at. do 3 f_equal; [lia|].
    unfold start. rewrite (first_bytes_S items i it Hi). lia.
  - apply lookup_ge_None in Hi. by rewrite (proj2 (Z.leb_le _ _)) by lia.
Qed.
End Layout.

(** ** The maker *)

(** A client that fills in each item it is given a pointer for. *)
Definition add_item (vm : VarBlockMaker) (it : list Z) : option VarBlockMaker :=
  '(p, vm) ← VarBlockMakerGetNextItemPtr vm (blen it);
  Some (set_buffer (memcpy (vm_buffer vm) p it) vm).

Fixpoint add_items (vm : VarBlockMaker) (items : list (list Z)) : option VarBlockMaker :=
  match items with
  | [] => Some vm
  | it :: items => vm ← add_item vm it; add_items vm items
  end.

(** The items and their offsets have room in the buffer and in the scratch
    space. *)
Definition fits (maxlen slen : Z) (items : list (list Z)) : Prop :=
  block_len items ≤ maxlen ∧
  Z.of_nat (length items) ≤ slen / width (small_offsets items).

Record maker_inv (maxlen slen : Z) (vm : VarBlockMaker) (items : list (list Z)) : Prop := {
  mi_max : maxBufferLen vm = maxlen;
  mi_buf : maxlen ≤ blen (vm_buffer vm);
  mi_bytes : Forall is_byte (vm_buffer vm);
  mi_word0 : rd_u32 0 (vm_buffer vm) = flags (small_offsets items);
  mi_word1 : rd_u32 4 (vm_buffer vm) = 0;
  mi_items : slice 8 (blen (mjoin items)) (vm_buffer vm) = mjoin items;
  mi_sum : currentItemLenSum vm = blen (mjoin items);
  mi_count : currentItemCount vm = Z.of_nat (length items);
  mi_next : vm_nextItemPtr vm = 8 + blen (mjoin items);
  mi_last : last2ByteOffsetPtr vm = 63 * 1024;
  mi_slen : tempScratchSpaceLen vm = slen;
  mi_scratch : blen (tempScratchSpace vm) = slen;
  mi_sbytes : Forall is_byte (tempScratchSpace vm);
  mi_maxcount : maxItemCount vm = slen / width (small_offsets items);
  mi_fits : fits maxlen slen items;
  mi_offsets : ∀ i, (i < length items)%nat →
    rd (width (small_offsets items)) (Z.of_nat i * width (small_offsets items))
      (tempScratchSpace vm) = start items i
}.

(** *** The move to three byte offsets *)

Lemma blen_widen r s : blen (widen_loop r s) = blen s.
Proof.
  revert s. induction r as [|r IH]; intros s; simpl; [apply blen_wr|].
  rewrite IH. apply blen_wr.
Qed.

Lemma bytes_widen r s : Forall is_byte s → Forall is_byte (widen_loop r s).
Proof.
  revert s. induction r as [|r IH]; intros s Hs; simpl; [|apply IH];
    by apply bytes_wr.
Qed.

Lemma widen_frame r s off :
  3 * (Z.of_nat r + 1) ≤ off → rd 3 off (widen_loop r s) = rd 3 off s.
Proof.
  unfold VARBLOCK_BYTE_OFFSET_24_LEN.
  revert s. induction r as [|r IH]; intros s Ho; cbn [widen_loop].
  - by rewrite rd_wr_disj by (unfold VARBLOCK_BYTE_OFFSET_24_LEN; lia).
  - rewrite IH by lia. by rewrite rd_wr_disj by (unfold VARBLOCK_BYTE_OFFSET_24_LEN; lia).
Qed.

(** The move in place keeps every offset. *)
Lemma widen_spec r s (i : nat) :
  Forall is_byte s → 3 * (Z.of_nat r + 1) ≤ blen s → (i ≤ r)%nat →
  rd 3 (Z.of_nat i * 3) (widen_loop r s) = rd 2 (Z.of_nat i * 2) s.
Proof.
  assert (Hwr : ∀ (k : nat) t, Forall is_byte t → 3 * (Z.of_nat k + 1) ≤ blen t →
    rd 3 (Z.of_nat k * 3) (wr 3 (Z.of_nat k * 3) (rd 2 (Z.of_nat k * 2) t) t)
    = rd 2 (Z.of_nat k * 2) t).
  { intros k t Ht Hl. rewrite rd_wr_same by lia. apply Z.mod_small.
    pose proof (rd_range 2 (Z.of_nat k * 2) t ltac:(lia) Ht). lia. }
  revert s i. induction r as [|r IH]; intros s i Hs Hl Hi; cbn [widen_loop];
    unfold VARBLOCK_BYTE_OFFSET_24_LEN.
  { replace i with 0%nat by lia. by apply Hwr. }
  destruct (decide (i = S r)) as [->|Hne].
  - rewrite widen_frame by lia. by apply Hwr.
  - rewrite IH; [|by apply bytes_wr|rewrite blen_wr; lia|lia].
    by rewrite rd_wr_disj by lia.
Qed.

(** *** Adding an item *)

Lemma start_app items it i :
  (i ≤ length items)%nat → start (items ++ [it]) i = start items i.
Proof. intros. unfold start. by rewrite first_bytes_app. Qed.

Lemma start_all items : start items (length items) = 8 + blen (mjoin items).
Proof. unfold start. by rewrite first_bytes_all. Qed.

Lemma small_app items it :
  small_offsets (items ++ [it]) = (8 + blen (mjoin items) <=? 63 * 1024).
Proof.
  unfold small_offsets. rewrite length_app; simpl.
  replace (pred (length items + 1)) with (length items) by lia.
  by rewrite start_app, start_all.
Qed.

Lemma small_before items it :
  small_offsets (items ++ [it]) = true → small_offsets items = true.
Proof.
  rewrite small_app. unfold small_offsets, start. rewrite !Z.leb_le.
  pose proof (first_bytes_total items (pred (length items))). lia.
Qed.

Lemma blen_items_app items it :
  blen (mjoin (items ++ [it])) = blen (mjoin items) + blen it.
Proof. rewrite blen_mjoin_app. simpl. by rewrite app_nil_r. Qed.

Lemma bytes_memcpy b off src :
  Forall is_byte b → Forall is_byte src → Forall is_byte (memcpy b off src).
Proof. intros. by apply Forall_inserts. Qed.

Lemma rd_memcpy_disj n off b off' src :
  0 ≤ off → 0 ≤ off' → 0 ≤ n → off + n ≤ off' ∨ off' + blen src ≤ off →
  rd n off (memcpy b off' src) = rd n off b.
Proof. intros. unfold rd. by rewrite slice_memcpy_disj. Qed.

(** *** Storing a header *)

Lemma store_word0 h b : 8 ≤ blen b → rd_u32 0 (store_varblock h b) = u32 (bytes_0_3 h).
Proof.
  intros. unfold store_varblock. rewrite rd_wr_disj by lia. by rewrite rd_u32_wr by lia.
Qed.

Lemma store_word1 h b : 8 ≤ blen b → rd_u32 4 (store_varblock h b) = u32 (bytes_4_7 h).
Proof. intros. unfold store_varblock. by rewrite rd_u32_wr by (rewrite ?blen_wr; lia). Qed.

Lemma store_slice h b off n :
  8 ≤ off → 0 ≤ n → slice off n (store_varblock h b) = slice off n b.
Proof. intros. unfold store_varblock. by rewrite !slice_wr_disj by lia. Qed.

Lemma store_blen h b : blen (store_varblock h b) = blen b.
Proof. unfold store_varblock. by rewrite !blen_wr. Qed.

Lemma store_bytes h b : Forall is_byte b → Forall is_byte (store_varblock h b).
Proof. intros. unfold store_varblock. by apply bytes_wr, bytes_wr. Qed.

Section Maker.
Context (maxlen slen : Z) (Hmax : 8 ≤ maxlen ≤ 2 ^ 24) (Hslen : 0 < slen < 2 ^ 31).

Lemma took_inv vm items it buf scr :
  let items' := items ++ [it] in
  maker_inv maxlen slen vm items → fits maxlen slen items' → Forall is_byte it →
  blen buf = blen (vm_buffer vm) → Forall is_byte buf →
  rd_u32 0 buf = flags (small_offsets items') → rd_u32 4 buf = 0 →
  slice 8 (blen (mjoin items)) buf = mjoin items →
  blen scr = slen → Forall is_byte scr →
  (∀ i, (i < length items')%nat →
    rd (width (small_offsets items')) (Z.of_nat i * width (small_offsets items')) scr
    = start items' i) →
  let vm' := took_item vm buf scr (slen / width (small_offsets items')) (blen it)
               (s32 (currentItemLenSum vm + blen it)) in
  maker_inv maxlen slen (set_buffer (memcpy (vm_buffer vm') (vm_nextItemPtr vm) it) vm') items'.
Proof.
  intros items' Hi Hf Hit Hbl Hby Hw0 Hw1 Hsl Hsc Hsb Hoff vm'.
  pose proof (block_len_bounds items') as Hb. destruct Hf as [Hf1 Hf2].
  destruct Hi as [I1 I2 I3 _ _ _ I4 I5 I6 I7 I8 _ _ _ _ _].
  pose proof (blen_nonneg (mjoin items)). pose proof (blen_nonneg it).
  unfold items' in Hb. rewrite blen_items_app in Hb. fold items' in Hb.
  assert (Hlen : length items' = S (length items)) by (unfold items'; rewrite length_app; simpl; lia).
  assert (He : blen (mjoin items') = blen (mjoin items) + blen it) by apply blen_items_app.
  split; cbn [vm' set_buffer took_item vm_buffer maxBufferLen currentItemLenSum
    tempScratchSpace tempScratchSpaceLen vm_nextItemPtr last2ByteOffsetPtr
    currentItemCount maxItemCount]; rewrite ?I1, ?I4, ?I5, ?I6, ?He; try done.
  - rewrite blen_memcpy. lia.
  - by apply bytes_memcpy.
  - rewrite rd_memcpy_disj by lia. done.
  - rewrite rd_memcpy_disj by lia. done.
  - unfold items'. rewrite join_app. simpl. rewrite app_nil_r. apply slice_app; try lia.
    + rewrite slice_memcpy_disj by lia. done.
    + apply slice_memcpy_same; [lia|done|lia].
  - apply s32_id. lia.
  - rewrite s32_id by lia. lia.
  - lia.
Qed.

Lemma maker_small vm items :
  maker_inv maxlen slen vm items →
  negb (VarBlockGet_offsetsAreSmall (load_varblock (vm_buffer vm)) =? 0) = small_offsets items.
Proof.
  intros Hi. unfold VarBlockGet_offsetsAreSmall, load_varblock; cbn [bytes_0_3].
  rewrite (mi_word0 _ _ _ _ Hi), <- (Z.add_0_r (flags _)). by apply word_small.
Qed.

(** The sum of the lengths that the branches compare with the limit. *)
Lemma total_len (n : nat) sum w :
  0 ≤ sum < 2 ^ 30 + 2 ^ 24 → Z.of_nat n < 2 ^ 24 → w = 2 ∨ w = 3 →
  s32 (VARBLOCK_HEADER_LEN + round_even sum +
       round_even (s32 (s32 (Z.of_nat n + 1) * w)))
  = 8 + even sum + even ((Z.of_nat n + 1) * w).
Proof.
  intros Hs Hn Hw. rewrite (s32_id (Z.of_nat n + 1)) by lia.
  rewrite (s32_id (_ * w)) by lia. rewrite !round_even_even by lia.
  pose proof (even_bounds sum). pose proof (even_bounds ((Z.of_nat n + 1) * w)).
  apply s32_id. unfold VARBLOCK_HEADER_LEN. lia.
Qed.

Lemma block_len_app items it :
  block_len (items ++ [it]) =
    8 + even (blen (mjoin items) + blen it) +
    even ((Z.of_nat (length items) + 1) * width (small_offsets (items ++ [it]))).
Proof.
  unfold block_len, offsets_start. rewrite blen_items_app, length_app; simpl.
  do 3 f_equal. lia.
Qed.

Lemma fits_app items it :
  fits maxlen slen (items ++ [it]) ↔
    8 + even (blen (mjoin items) + blen it) +
    even ((Z.of_nat (length items) + 1) * width (small_offsets (items ++ [it]))) ≤ maxlen ∧
    Z.of_nat (length items) < slen / width (small_offsets (items ++ [it])).
Proof.
  unfold fits. rewrite block_len_app, length_app; simpl. lia.
Qed.

(** The offsets of the old items and of the new one, in a scratch space in
    which the new one was written. *)
Lemma offsets_wr items it w scr :
  w = width (small_offsets (items ++ [it])) →
  (Z.of_nat (length items) + 1) * w ≤ blen scr →
  (8 + blen (mjoin items)) < 2 ^ (w * 8) →
  (∀ i, (i < length items)%nat → rd w (Z.of_nat i * w) scr = start items i) →
  ∀ i, (i < length (items ++ [it]))%nat →
    rd w (Z.of_nat i * w)
      (wr w (Z.of_nat (length items) * w) (s32 (8 + blen (mjoin items))) scr)
    = start (items ++ [it]) i.
Proof.
  intros Hw Hl Hp Ho i Hi. rewrite length_app in Hi. simpl in Hi.
  assert (2 ≤ w ≤ 3) by (subst w; destruct (small_offsets _); simpl; lia).
  rewrite start_app by lia. pose proof (blen_nonneg (mjoin items)).
  destruct (decide (i = length items)) as [->|Hne].
  - rewrite rd_wr_same by nia. rewrite start_all.
    assert (2 ^ (w * 8) ≤ 2 ^ 24) by (apply Z.pow_le_mono_r; lia).
    rewrite s32_id by lia. apply Z.mod_small. lia.
  - rewrite rd_wr_disj by nia. apply Ho. lia.
Qed.

(** The call with the invariant's values, one lemma for each case of the
    offsets of the old items and of the new one. *)
Section Step.
Context (vm : VarBlockMaker) (items : list (list Z)) (it : list Z).
Context (Hinv : maker_inv maxlen slen vm items) (Hit : blen it < 2 ^ 30).

Lemma step_bounds :
  0 ≤ blen (mjoin items) < 2 ^ 24 ∧ 0 ≤ blen it ∧ Z.of_nat (length items) < 2 ^ 23 ∧
  8 + blen (mjoin items) ≤ maxlen.
Proof.
  destruct (mi_fits _ _ _ _ Hinv) as [Hf _]. pose proof (block_len_bounds items).
  pose proof (blen_nonneg it). lia.
Qed.

Lemma step_sum : s32 (blen (mjoin items) + blen it) = blen (mjoin items) + blen it.
Proof. pose proof step_bounds. apply s32_id. lia. Qed.

Lemma step_small_total :
  s32 (VARBLOCK_HEADER_LEN + round_even (blen (mjoin items) + blen it)
       + s32 (Z.of_nat (length items) * 2) + 2)
  = 8 + even (blen (mjoin items) + blen it) + even ((Z.of_nat (length items) + 1) * 2).
Proof.
  pose proof step_bounds. rewrite (s32_id (_ * 2)), round_even_even by lia.
  pose proof (even_bounds (blen (mjoin items) + blen it)).
  rewrite (Z.mul_comm (_ + 1)), even_double.
  rewrite s32_id; unfold VARBLOCK_HEADER_LEN; lia.
Qed.

(** The result of the call: the space and the scratch space decide. *)
Lemma step_case (w : Z) (buf scr : list Z) (r : option (Z * VarBlockMaker)) :
  w = width (small_offsets (items ++ [it])) →
  (r = if slen / w <=? Z.of_nat (length items) then None
       else if maxlen <? 8 + even (blen (mjoin items) + blen it)
                         + even ((Z.of_nat (length items) + 1) * w) then None
       else Some (vm_nextItemPtr vm,
                  took_item vm buf scr (slen / w) (blen it)
                    (s32 (currentItemLenSum vm + blen it)))) →
  (fits maxlen slen (items ++ [it]) → r = Some (vm_nextItemPtr vm,
     took_item vm buf scr (slen / width (small_offsets (items ++ [it]))) (blen it)
       (s32 (currentItemLenSum vm + blen it)))) ∧
  (¬ fits maxlen slen (items ++ [it]) → r = None).
Proof.
  intros -> ->. rewrite fits_app.
  destruct (Z.leb_spec (slen / width (small_offsets (items ++ [it])))
              (Z.of_nat (length items))).
  { split; [lia|done]. }
  match goal with |- context [maxlen <? ?x] => destruct (Z.ltb_spec maxlen x) end.
  - split; [lia|done].
  - split; [done|lia].
Qed.

Lemma div3_le_div2 : slen / 3 ≤ slen / 2.
Proof. divlia. Qed.

(** The buffer and the scratch space of the maker with the new item. *)
Definition next_buffer : list Z :=
  if small_offsets items && negb (small_offsets (items ++ [it]))
  then store_varblock (VarBlockSet_offsetsAreSmall false (load_varblock (vm_buffer vm)))
         (vm_buffer vm)
  else vm_buffer vm.

Definition next_scratch : list Z :=
  let w := width (small_offsets (items ++ [it])) in
  wr w (Z.of_nat (length items) * w) (s32 (8 + blen (mjoin items)))
    (if small_offsets items && negb (small_offsets (items ++ [it]))
     then widen_loop (length items) (tempScratchSpace vm) else tempScratchSpace vm).

Lemma get_next_cases :
  (fits maxlen slen (items ++ [it]) →
   VarBlockMakerGetNextItemPtr vm (blen it) = Some (vm_nextItemPtr vm,
     took_item vm next_buffer next_scratch
       (slen / width (small_offsets (items ++ [it]))) (blen it)
       (s32 (currentItemLenSum vm + blen it)))) ∧
  (¬ fits maxlen slen (items ++ [it]) → VarBlockMakerGetNextItemPtr vm (blen it) = None).
Proof.
  pose proof step_bounds as (Hb1 & Hb2 & Hb3 & Hb4).
  apply (step_case (width (small_offsets (items ++ [it])))); [done|].
  unfold VarBlockMakerGetNextItemPtr, next_buffer, next_scratch.
  rewrite (maker_small vm items Hinv), (mi_maxcount _ _ _ _ Hinv), (mi_count _ _ _ _ Hinv),
    (mi_next _ _ _ _ Hinv), (mi_last _ _ _ _ Hinv), (mi_max _ _ _ _ Hinv),
    (mi_slen _ _ _ _ Hinv), (mi_sum _ _ _ _ Hinv), step_sum.
  rewrite (total_len (length items) _ 3), step_small_total by lia.
  pose proof (small_before items it) as Hsb. rewrite small_app in *.
  unfold VARBLOCK_BYTE_OFFSET_24_LEN. rewrite Nat2Z.id, Z.quot_div_nonneg by lia.
  pose proof div3_le_div2. rewrite (s32_id (8 + _)) by lia.
  destruct (Z.leb_spec (8 + blen (mjoin items)) (63 * 1024)) as [Hp|Hp].
  - rewrite Hsb by done. cbn [width andb negb].
    rewrite (proj2 (Z.ltb_ge (63 * 1024) _)) by lia. done.
  - destruct (small_offsets items); cbn [width andb negb].
    + rewrite (proj2 (Z.ltb_lt (63 * 1024) _)) by lia.
      destruct (Z.leb_spec (slen / 2) (Z.of_nat (length items))).
      { by rewrite (proj2 (Z.leb_le _ _)) by lia. }
      by destruct (maxlen <? _), (slen / 3 <=? _).
    + done.
Qed.

Lemma next_buffer_ok :
  blen next_buffer = blen (vm_buffer vm) ∧ Forall is_byte next_buffer ∧
  rd_u32 0 next_buffer = flags (small_offsets (items ++ [it])) ∧ rd_u32 4 next_buffer = 0 ∧
  slice 8 (blen (mjoin items)) next_buffer = mjoin items.
Proof.
  pose proof step_bounds as (Hb1 & Hb2 & Hb3 & Hb4). pose proof (mi_buf _ _ _ _ Hinv).
  pose proof (small_before items it) as Hsb. unfold next_buffer.
  destruct (small_offsets items) eqn:Es, (small_offsets (items ++ [it])) eqn:Es'; simpl;
    try (by specialize (Hsb eq_refl)).
  1, 3: pose proof (mi_word0 _ _ _ _ Hinv) as Hw; rewrite Es in Hw; split_and!;
    try done; apply Hinv.
  rewrite store_blen, store_word0, store_word1, store_slice by lia.
  unfold VarBlockSet_offsetsAreSmall, load_varblock; cbn [bytes_0_3 bytes_4_7].
  rewrite (mi_word0 _ _ _ _ Hinv), (mi_word1 _ _ _ _ Hinv), Es.
  split_and!; try done; [apply store_bytes|]; apply Hinv.
Qed.

Lemma next_scratch_ok :
  fits maxlen slen (items ++ [it]) →
  let w := width (small_offsets (items ++ [it])) in
  blen next_scratch = slen ∧ Forall is_byte next_scratch ∧
  ∀ i, (i < length (items ++ [it]))%nat →
    rd w (Z.of_nat i * w) next_scratch = start (items ++ [it]) i.
Proof.
  intros [Hf1 Hf2]%fits_app w. pose proof step_bounds as (Hb1 & Hb2 & Hb3 & Hb4).
  pose proof (mi_scratch _ _ _ _ Hinv) as Hsc. pose proof (mi_sbytes _ _ _ _ Hinv) as Hsb.
  pose proof (mi_offsets _ _ _ _ Hinv) as Ho. pose proof (small_before items it) as Hbf.
  unfold next_scratch. fold w.
  set (scr := if _ && _ then widen_loop _ _ else _).
  assert (Hw : w = 2 ∧ 8 + blen (mjoin items) < 2 ^ 16 ∨ w = 3).
  { unfold w. rewrite small_app. destruct (Z.leb_spec (8 + blen (mjoin items)) (63 * 1024));
      simpl; lia. }
  assert (Hroom : (Z.of_nat (length items) + 1) * w ≤ slen)
    by (fold w in Hf2; clear -Hw Hf2; clearbody w; destruct Hw as [[-> _]| ->]; divlia).
  assert (Hs : blen scr = slen ∧ Forall is_byte scr ∧
    ∀ i, (i < length items)%nat → rd w (Z.of_nat i * w) scr = start items i).
  { unfold scr, w in *. clear scr.
    destruct (small_offsets items), (small_offsets (items ++ [it])); simpl in *;
      try done; try (by specialize (Hbf eq_refl)).
    rewrite blen_widen. split_and!; [done|by apply bytes_widen|].
    intros i Hi. rewrite widen_spec by (done || lia). by apply Ho. }
  destruct Hs as (Hs1 & Hs2 & Hs3). split_and!.
  - by rewrite blen_wr.
  - apply bytes_wr; [lia|done].
  - apply offsets_wr; [done|lia| |done].
    fold w in Hf1. pose proof (even_bounds (blen (mjoin items) + blen it)).
    pose proof (even_bounds ((Z.of_nat (length items) + 1) * w)).
    clear -Hw Hb1 Hb2 Hf1 Hmax H H0. clearbody w. destruct Hw as [[-> ?]| ->]; simpl; lia.
Qed.

Lemma add_item_ok :
  Forall is_byte it → fits maxlen slen (items ++ [it]) →
  ∃ vm', add_item vm it = Some vm' ∧ maker_inv maxlen slen vm' (items ++ [it]).
Proof.
  intros Hby Hf. destruct get_next_cases as [Hok _].
  destruct next_buffer_ok as (B1 & B2 & B3 & B4 & B5).
  destruct (next_scratch_ok Hf) as (S1 & S2 & S3).
  unfold add_item. rewrite Hok by done. eexists. split; [done|]. by apply took_inv.
Qed.

Lemma add_item_full : ¬ fits maxlen slen (items ++ [it]) → add_item vm it = None.
Proof. intros Hf. unfold add_item. by rewrite (proj2 get_next_cases Hf). Qed.
End Step.

Lemma fits_prefix items it : fits maxlen slen (items ++ [it]) → fits maxlen slen items.
Proof.
  unfold fits. rewrite block_len_app, length_app. simpl. intros [Hf1 Hf2].
  pose proof (blen_nonneg it).
  pose proof (even_mono (blen (mjoin items)) (blen (mjoin items) + blen it)).
  pose proof (small_before items it) as Hsb. unfold block_len, offsets_start.
  pose proof (div3_le_div2).
  assert (Hw : width (small_offsets items) ≤ width (small_offsets (items ++ [it])) ∧
    slen / width (small_offsets (items ++ [it])) ≤ slen / width (small_offsets items)).
  { destruct (small_offsets items), (small_offsets (items ++ [it])); simpl; lia. }
  pose proof (even_mono (Z.of_nat (length items) * width (small_offsets items))
    ((Z.of_nat (length items) + 1) * width (small_offsets (items ++ [it])))) as He.
  assert (0 < width (small_offsets items)) by (destruct (small_offsets items); simpl; lia).
  specialize (He ltac:(nia)). lia.
Qed.

Lemma add_items_app vm items it :
  add_items vm (items ++ [it]) = vm' ← add_items vm items; add_item vm' it.
Proof.
  revert vm. induction items as [|x items IH]; intros vm; simpl.
  - by destruct (add_item vm it).
  - destruct (add_item vm x); simpl; [apply IH|done].
Qed.

(** All items are taken exactly when they fit. *)
Lemma add_items_spec vm0 items :
  maker_inv maxlen slen vm0 [] →
  Forall (λ it, Forall is_byte it ∧ blen it < 2 ^ 30) items →
  (fits maxlen slen items →
   ∃ vm, add_items vm0 items = Some vm ∧ maker_inv maxlen slen vm items) ∧
  (¬ fits maxlen slen items → add_items vm0 items = None).
Proof.
  intros H0. induction items as [|it items IH] using rev_ind; intros Hall.
  { split; [by eexists|]. intros []. apply H0. }
  apply Forall_app in Hall as [Hall [[Hby Hlen] _]%Forall_cons].
  destruct (IH Hall) as [IH1 IH2]. rewrite add_items_app. split; intros Hf.
  - destruct IH1 as (vm & -> & Hinv); [by eapply fits_prefix|]. simpl.
    by apply add_item_ok.
  - destruct (decide (block_len items ≤ maxlen ∧
      Z.of_nat (length items) ≤ slen / width (small_offsets items))) as [Hp|Hp].
    + destruct (IH1 Hp) as (vm & -> & Hinv). simpl. by eapply add_item_full.
    + by rewrite IH2.
Qed.
End Maker.

(** *** A new maker *)

Lemma fresh_header_ok b :
  8 ≤ blen b → Forall is_byte b →
  blen (fresh_header b) = blen b ∧ Forall is_byte (fresh_header b) ∧
  rd_u32 0 (fresh_header b) = flags true ∧ rd_u32 4 (fresh_header b) = 0.
Proof.
  intros Hl Hb. unfold fresh_header. set (z := memcpy b 0 (replicate 8 0)).
  assert (Hz : blen z = blen b) by apply blen_memcpy.
  assert (Hs : slice 0 8 z = replicate 8 0)
    by (apply slice_memcpy_same; [lia|by rewrite length_replicate|lia]).
  assert (H0 : rd_u32 0 z = 0 ∧ rd_u32 4 z = 0).
  { unfold rd. rewrite <- (slice_slice 0 8 0 4), <- (slice_slice 0 8 4 4), Hs by lia. done. }
  destruct H0 as [H0 H4]. rewrite store_blen, store_word0, store_word1 by lia.
  unfold load_varblock, VarBlockSet_version, VarBlockSet_offsetsAreSmall;
    cbn [bytes_0_3 bytes_4_7]. rewrite H0, H4. split_and!; try done.
  apply store_bytes, bytes_memcpy; [done|]. by apply Forall_replicate.
Qed.

Lemma maker_start maxlen slen vm b :
  8 ≤ maxlen ≤ 2 ^ 24 → 0 < slen < 2 ^ 31 → maxlen ≤ blen b → Forall is_byte b →
  vm_buffer vm = fresh_header b → maxBufferLen vm = maxlen → currentItemLenSum vm = 0 →
  currentItemCount vm = 0 → vm_nextItemPtr vm = 8 → last2ByteOffsetPtr vm = 63 * 1024 →
  tempScratchSpaceLen vm = slen → blen (tempScratchSpace vm) = slen →
  Forall is_byte (tempScratchSpace vm) → maxItemCount vm = Z.quot slen 2 →
  maker_inv maxlen slen vm [].
Proof.
  intros Hm Hs Hl Hb E1 E2 E3 E4 E5 E6 E7 E8 E9 E10.
  destruct (fresh_header_ok b ltac:(lia) Hb) as (F1 & F2 & F3 & F4).
  split; rewrite ?E1, ?F1; try done; try lia.
  - rewrite E10. change (width (small_offsets [])) with 2. apply Z.quot_div_nonneg; lia.
  - unfold fits. change (block_len []) with 8. change (width (small_offsets [])) with 2.
    simpl length. divlia.
  - simpl. lia.
Qed.

Lemma maker_init maxlen slen b scr :
  8 ≤ maxlen ≤ 2 ^ 24 → 0 < slen < 2 ^ 31 → maxlen ≤ blen b → Forall is_byte b →
  blen scr = slen → Forall is_byte scr →
  maker_inv maxlen slen (VarBlockMakerInit b maxlen scr slen) [].
Proof. intros. by apply maker_start with (b := b). Qed.

(** Any maker can be reset. *)
Lemma maker_reset maxlen slen vm items :
  8 ≤ maxlen ≤ 2 ^ 24 → 0 < slen < 2 ^ 31 → maker_inv maxlen slen vm items →
  maker_inv maxlen slen (VarBlockMakerReset vm) [].
Proof.
  intros Hm Hs Hi. destruct Hi. apply maker_start with (b := vm_buffer vm); try done.
  unfold VarBlockMakerReset; cbn [maxItemCount]. by f_equal.
Qed.

(** *** Finishing *)

Lemma blen_zero_pad n from b : blen (zero_pad n from b) = blen b.
Proof.
  revert from b. induction n as [|n IH]; intros; simpl; [done|].
  rewrite IH. unfold blen. by rewrite length_insert.
Qed.

Lemma blen_replicate n (x : Z) : blen (replicate n x) = Z.of_nat n.
Proof. unfold blen. by rewrite length_replicate. Qed.

Lemma flags_range small : 0 ≤ flags small < 2 ^ 32 - 2 ^ 24.
Proof. by destruct small. Qed.

Lemma set_sum_word small s :
  0 ≤ s < 2 ^ 24 →
  u32 (Z.lor (Z.land (flags small) 0xFF000000) (Z.land 0x00FFFFFF s)) = flags small + s.
Proof.
  intros. rewrite <- (Z.add_0_r (flags small)) at 1. rewrite word_top by lia.
  rewrite (Z.land_comm _ s), low24_id, <- word_lor by done. apply u32_id.
  pose proof (flags_range small). lia.
Qed.

Section Finish.
Context (maxlen slen : Z) (vm : VarBlockMaker) (items : list (list Z)).
Context (Hmax : 8 ≤ maxlen ≤ 2 ^ 24) (Hinv : maker_inv maxlen slen vm items).

Let sum := blen (mjoin items).
Let w := width (small_offsets items).
Let l := Z.of_nat (length items) * w.
Let oo := offsets_start items.

(** The buffer after each write. *)
Let b1 := memcpy (vm_buffer vm) oo (slice 0 l (tempScratchSpace vm)).
Let b2 := memcpy b1 (8 + sum) (replicate (Z.to_nat (even sum - sum)) 0).
Let b3 := store_varblock (VarBlockSet_itemLenSum sum (load_varblock b2)) b2.
Let b4 := store_varblock (VarBlockSet_itemCount (Z.of_nat (length items)) (load_varblock b3)) b3.
Let b5 := memcpy b4 (oo + l) (replicate (Z.to_nat (even l - l)) 0).

Lemma finish_bounds :
  0 ≤ sum < 2 ^ 24 ∧ oo = 8 + even sum ∧ sum ≤ even sum ≤ sum + 1 ∧ 0 ≤ l ≤ slen ∧
  l ≤ even l ∧ oo + even l = block_len items ∧ block_len items ≤ maxlen ∧
  maxlen ≤ blen (vm_buffer vm) ∧ Z.of_nat (length items) < 2 ^ 24 ∧ 2 ≤ w ≤ 3.
Proof.
  destruct (mi_fits _ _ _ _ Hinv) as [Hf1 Hf2]. pose proof (mi_buf _ _ _ _ Hinv).
  pose proof (block_len_bounds items) as (B1 & B2 & B3 & B4). fold w in Hf2, B3, B4.
  fold l in B3, B4. pose proof (even_bounds sum). pose proof (even_bounds l).
  assert (Hw : w = 2 ∨ w = 3) by (unfold w; destruct (small_offsets items); simpl; lia).
  assert (l ≤ slen) by (unfold l; clear -Hf2 Hw; clearbody w; destruct Hw as [-> | ->]; divlia).
  assert (E1 : oo = 8 + even sum) by done.
  assert (E2 : oo + even l = block_len items) by done.
  fold sum in B1, B2. fold oo in B2, B3. clearbody oo l sum w. lia.
Qed.

Lemma finish_arr : blen (slice 0 l (tempScratchSpace vm)) = l.
Proof.
  pose proof finish_bounds. pose proof (mi_scratch _ _ _ _ Hinv).
  unfold blen at 1. rewrite length_slice by lia. lia.
Qed.

Lemma finish_run : VarBlockMakerFinish vm = (block_len items, set_buffer b5 vm).
Proof.
  pose proof finish_bounds as (B1 & B2 & B3 & B4 & B5 & B6 & B7 & B8 & B9 & B10).
  unfold VarBlockMakerFinish. rewrite (mi_sum _ _ _ _ Hinv), (mi_count _ _ _ _ Hinv).
  rewrite (maker_small _ _ _ _ Hinv). fold sum.
  rewrite round_even_even by lia. unfold VARBLOCK_HEADER_LEN. rewrite <- B2.
  rewrite (s32_id oo), (s32_id (8 + sum)) by lia.
  replace (if small_offsets items then 2 else VARBLOCK_BYTE_OFFSET_24_LEN) with w by done.
  fold l. rewrite (s32_id l), (round_even_even l), (s32_id (oo + even l)) by lia.
  rewrite !zero_pad_memcpy by lia. rewrite B6.
  replace (oo - (8 + sum)) with (even sum - sum) by lia. done.
Qed.

Lemma finish_words :
  rd_u32 0 b5 = flags (small_offsets items) + sum ∧
  rd_u32 4 b5 = Z.of_nat (length items).
Proof.
  pose proof finish_bounds as (B1 & B2 & B3 & B4 & B5 & B6 & B7 & B8 & B9 & B10).
  assert (Hl2 : blen b2 = blen (vm_buffer vm)) by (unfold b2, b1; by rewrite !blen_memcpy).
  assert (W2 : ∀ off, 0 ≤ off ≤ 4 → rd_u32 off b2 = rd_u32 off (vm_buffer vm)).
  { intros off Ho. unfold b2, b1. by rewrite !rd_memcpy_disj by lia. }
  assert (W3 : rd_u32 0 b3 = flags (small_offsets items) + sum ∧ rd_u32 4 b3 = 0).
  { unfold b3. rewrite store_word0, store_word1 by lia.
    unfold VarBlockSet_itemLenSum, load_varblock; cbn [bytes_0_3 bytes_4_7].
    rewrite !W2, (mi_word0 _ _ _ _ Hinv), (mi_word1 _ _ _ _ Hinv) by lia.
    by rewrite set_sum_word. }
  assert (Hl3 : blen b3 = blen b2) by apply store_blen.
  unfold b5. rewrite !rd_memcpy_disj by lia. unfold b4.
  rewrite store_word0, store_word1 by lia.
  unfold VarBlockSet_itemCount, load_varblock; cbn [bytes_0_3 bytes_4_7].
  destruct W3 as [-> ->]. pose proof (flags_range (small_offsets items)).
  rewrite u32_id by lia. split; [done|].
  rewrite Z.land_0_l, Z.lor_0_l, (Z.land_comm _ (Z.of_nat _)), low24_id by lia.
  apply u32_id. lia.
Qed.

(** A region that no later write touches. *)
Lemma finish_frame off n b :
  8 ≤ off → 0 ≤ n → off + n ≤ oo + l →
  slice off n (memcpy (store_varblock (VarBlockSet_itemCount (Z.of_nat (length items))
    (load_varblock b)) b) (oo + l) (replicate (Z.to_nat (even l - l)) 0)) = slice off n b.
Proof.
  pose proof finish_bounds. intros. rewrite slice_memcpy_disj by lia. by apply store_slice.
Qed.

Lemma finish_layout : layout b5 items.
Proof.
  pose proof finish_bounds as (B1 & B2 & B3 & B4 & B5 & B6 & B7 & B8 & B9 & B10).
  pose proof finish_arr as Ha. unfold blen in Ha.
  assert (Hlen : blen b5 = blen (vm_buffer vm))
    by (unfold b5, b4, b3, b2, b1; by rewrite ?blen_memcpy, ?store_blen, ?blen_memcpy,
          ?store_blen, ?blen_memcpy).
  assert (Hl1 : blen b1 = blen (vm_buffer vm)) by apply blen_memcpy.
  assert (Harr : slice oo l b5 = slice 0 l (tempScratchSpace vm)).
  { unfold b5, b4. rewrite finish_frame by lia. unfold b3. rewrite store_slice by lia.
    unfold b2. rewrite slice_memcpy_disj by (rewrite ?length_replicate; lia).
    unfold b1. by rewrite slice_memcpy_same by lia. }
  destruct finish_words as [W0 W1]. split; try done; try lia.
  - unfold b5, b4, b3, b2, b1.
    assert (Hz : ∀ n, Forall is_byte (replicate n 0)) by (intros; by apply Forall_replicate).
    assert (Hs : Forall is_byte (slice 0 l (tempScratchSpace vm)))
      by apply Forall_take, Forall_drop, (mi_sbytes _ _ _ _ Hinv).
    pose proof (mi_bytes _ _ _ _ Hinv).
    auto 10 using bytes_memcpy, store_bytes.
  - fold sum. unfold b5, b4. rewrite finish_frame by lia. unfold b3.
    rewrite store_slice by lia. unfold b2, b1. rewrite !slice_memcpy_disj by lia.
    apply (mi_items _ _ _ _ Hinv).
  - fold sum. unfold b5, b4. rewrite finish_frame by lia. unfold b3.
    rewrite store_slice by lia. unfold b2.
    apply slice_memcpy_same; rewrite ?length_replicate; lia.
  - intros i Hi. fold w oo. rewrite <- (mi_offsets _ _ _ _ Hinv i Hi). fold w.
    assert (Z.of_nat i * w + w ≤ l) by (unfold l; nia). unfold rd. f_equal.
    rewrite <- (slice_slice oo l) by lia. rewrite Harr. by rewrite slice_slice by lia.
  - cbv zeta. fold w l oo. unfold b5. apply slice_memcpy_same; rewrite ?length_replicate; try lia.
    unfold b4, b3, b2. rewrite !store_blen, blen_memcpy. lia.
Qed.
End Finish.

(** ** Reading back *)

(** The items a reader still has to give, by asking for the next one until
    there is none. *)
Fixpoint read_all (fuel : nat) (vr : VarBlockReader) : option (list (list Z)) :=
  match fuel with
  | 0%nat => None
  | S fuel =>
    match VarBlockReaderGetNextItemPtr vr with
    | None => Some []
    | Some (p, n, vr') =>
      rest ← read_all fuel vr';
      Some (slice p n (vr_buffer vr) :: rest)
    end
  end.

Lemma layout_read_all b items fuel i :
  layout b items → (i ≤ length items < fuel + i)%nat →
  read_all fuel (reader_at b items i) = Some (drop i items).
Proof.
  intros Hlay. revert i. induction fuel as [|fuel IH]; intros i Hi; [lia|].
  cbn [read_all]. rewrite (layout_next b items Hlay) by lia.
  destruct (items !! i) as [it|] eqn:E; cbn [fmap option_fmap option_map].
  - pose proof (lookup_lt_Some _ _ _ E). rewrite IH by lia. cbn [mbind option_bind].
    change (vr_buffer (reader_at b items i)) with b.
    rewrite (slice_item items i it b (lay_items _ _ Hlay) E).
    by rewrite (drop_S _ _ _ E).
  - apply lookup_ge_None in E. by rewrite drop_ge.
Qed.

(** What a reader of a block of length [len] in buffer [b] finds. *)
Record reads_as (b : list Z) (len : Z) (items : list (list Z)) : Prop := {
  ra_valid : VarBlockIsValid b len = VarBlockCheckOk;
  ra_len : VarBlockLenFromHeader b VARBLOCK_HEADER_LEN = Some len;
  ra_count : let '(vr, calculatedItemCount) := VarBlockReaderInit b len in
    VarBlockReaderItemCount vr = Z.of_nat (length items) ∧
    calculatedItemCount = VarBlockReaderItemCount vr;
  ra_items : ∀ i it, items !! i = Some it →
    let '(p, n) := VarBlockReaderGetItemPtr (VarBlockReaderInit b len).1 (Z.of_nat i) in
    8 ≤ p ∧ p + n ≤ len ∧ slice p n b = it;
  ra_scan : read_all (S (length items)) (VarBlockReaderInit b len).1 = Some items;
  ra_scan_from : ∀ i, (i < length items)%nat →
    read_all (S (length items))
      (VarBlockReaderPosition (VarBlockReaderInit b len).1 (Z.of_nat i))
    = Some (drop i items)
}.

Lemma layout_reads_as b items : layout b items → reads_as b (block_len items) items.
Proof.
  intros Hlay. split.
  - by apply layout_valid.
  - by apply layout_len.
  - rewrite (layout_reader_init b items Hlay).
    unfold VarBlockReaderItemCount. change (vr_buffer (reader_at b items 0)) with b.
    by rewrite (layout_itemCount b items Hlay).
  - intros i it Hi. rewrite (layout_reader_init b items Hlay); cbn [fst].
    rewrite (layout_get_item b items Hlay i it 0 Hi).
    pose proof (slice_item items i it b (lay_items _ _ Hlay) Hi).
    pose proof (first_bytes_S items i it Hi). pose proof (first_bytes_total items (S i)).
    pose proof (first_bytes_total items i). pose proof (block_len_bounds items).
    unfold start in *. split_and!; [lia| |done]. lia.
  - rewrite (layout_reader_init b items Hlay); cbn [fst].
    by rewrite (layout_read_all b items) by (done || lia).
  - intros i Hi. rewrite (layout_reader_init b items Hlay); cbn [fst].
    destruct (lookup_lt_is_Some_2 items i Hi) as [it Hit].
    rewrite (layout_position b items Hlay i it 0 Hit).
    by rewrite (layout_read_all b items) by (done || lia).
Qed.

(** Items made of bytes, of a length that does not overflow the sums. *)
Definition items_ok (items : list (list Z)) : Prop :=
  Forall (λ it, Forall is_byte it ∧ blen it < 2 ^ 30) items.

(** A buffer with room for [maxlen] bytes and a scratch space. *)
Record room_ok (maxlen : Z) (buf scr : list Z) : Prop := {
  ro_max : 8 ≤ maxlen ≤ 2 ^ 24;
  ro_buf : maxlen ≤ blen buf;
  ro_bytes : Forall is_byte buf;
  ro_scr : 0 < blen scr < 2 ^ 31;
  ro_sbytes : Forall is_byte scr
}.

Lemma room_maker maxlen buf scr :
  room_ok maxlen buf scr →
  maker_inv maxlen (blen scr) (VarBlockMakerInit buf maxlen scr (blen scr)) [].
Proof. intros []. by apply maker_init. Qed.

(** ** Making one block after the other *)

(** For each batch of items: add them, finish, keep the block, and reset. *)
Fixpoint make_blocks (vm : VarBlockMaker) (batches : list (list (list Z)))
    : option (list (list Z * Z)) :=
  match batches with
  | [] => Some []
  | items :: batches =>
    vm ← add_items vm items;
    let '(len, vm) := VarBlockMakerFinish vm in
    blocks ← make_blocks (VarBlockMakerReset vm) batches;
    Some ((vm_buffer vm, len) :: blocks)
  end.

Lemma finish_reset maxlen slen vm items :
  8 ≤ maxlen ≤ 2 ^ 24 → 0 < slen < 2 ^ 31 → maker_inv maxlen slen vm items →
  let vm' := (VarBlockMakerFinish vm).2 in
  (VarBlockMakerFinish vm).1 = block_len items ∧ layout (vm_buffer vm') items ∧
  maker_inv maxlen slen (VarBlockMakerReset vm') [].
Proof.
  intros Hm Hs Hinv vm'. pose proof (finish_layout maxlen slen vm items Hm Hinv) as Hlay.
  pose proof (finish_run maxlen slen vm items Hm Hinv) as Hrun.
  unfold vm'. rewrite Hrun. cbn [fst snd]. split_and!; [done|exact Hlay|].
  eapply maker_start; [done|done| |exact (lay_bytes _ _ Hlay)|..]; try done;
    try apply Hinv.
  - rewrite !blen_memcpy, !store_blen, !blen_memcpy. apply Hinv.
  - unfold VarBlockMakerReset; cbn. by rewrite (mi_slen _ _ _ _ Hinv).
Qed.

Lemma make_blocks_spec maxlen slen vm batches :
  8 ≤ maxlen ≤ 2 ^ 24 → 0 < slen < 2 ^ 31 → maker_inv maxlen slen vm [] →
  Forall (λ items, items_ok items ∧ fits maxlen slen items) batches →
  ∃ blocks, make_blocks vm batches = Some blocks ∧
    Forall2 (λ bl items, reads_as bl.1 bl.2 items ∧ bl.2 ≤ maxlen) blocks batches.
Proof.
  intros Hm Hs. revert vm. induction batches as [|items batches IH]; intros vm Hinv Hall.
  { exists []. by split; [|constructor]. }
  apply Forall_cons in Hall as [[Hok Hf] Hall].
  destruct (proj1 (add_items_spec maxlen slen Hm Hs vm items Hinv Hok) Hf)
    as (vm1 & Hadd & Hinv1).
  destruct (finish_reset maxlen slen vm1 items Hm Hs Hinv1) as (Hl & Hlay & Hres).
  cbn [make_blocks]. rewrite Hadd. cbn [mbind option_bind].
  destruct (VarBlockMakerFinish vm1) as [len vm2]; cbn [fst snd] in *. subst len.
  destruct (IH _ Hres Hall) as (blocks & -> & Hbl). eexists. split; [done|].
  constructor; [|done]. split; [by apply layout_reads_as|]. apply Hf.
Qed.

(** ** Offsets the check does not look at *)

Lemma wr_lookup_total n off v b (k : nat) :
  0 ≤ off → 0 ≤ n → Z.of_nat k < off ∨ off + n ≤ Z.of_nat k →
  wr n off v b !!! k = b !!! k.
Proof.
  intros Ho Hn Hk. rewrite !list_lookup_total_alt. unfold wr, memcpy.
  pose proof (length_le_bytes n v Hn). destruct Hk.
  - by rewrite list_lookup_inserts_lt by lia.
  - by rewrite list_lookup_inserts_ge by lia.
Qed.

Lemma is_zero_pad_wr n from m off v b :
  0 ≤ from → 0 ≤ off → 0 ≤ m → from + Z.of_nat n ≤ off ∨ off + m ≤ from →
  is_zero_pad n from (wr m off v b) = is_zero_pad n from b.
Proof.
  revert from. induction n as [|n IH]; intros from Hf Ho Hm Hd; [done|]. simpl.
  rewrite wr_lookup_total by lia. by rewrite IH by lia.
Qed.

Section Unchecked.
Context (b : list Z) (len : Z) (Hlen : 8 ≤ len < 2 ^ 31).

Let h := load_varblock b.
Let w := width (negb (VarBlockGet_offsetsAreSmall h =? 0)).
Let oo := 8 + even (VarBlockGet_itemLenSum h).
Let count := VarBlockGet_itemCount h.

Lemma header_bounds :
  0 ≤ VarBlockGet_itemLenSum h < 2 ^ 24 ∧ 0 ≤ count < 2 ^ 24 ∧ 2 ≤ w ≤ 3 ∧
  VarBlockGet_itemLenSum h ≤ even (VarBlockGet_itemLenSum h) ≤ VarBlockGet_itemLenSum h + 1.
Proof.
  assert (Hr : ∀ x, 0 ≤ Z.land x 0x00FFFFFF < 2 ^ 24).
  { intros x. change 0x00FFFFFF with (Z.ones 24). rewrite Z.land_ones by lia.
    apply Z.mod_pos_bound. lia. }
  pose proof (Hr (bytes_0_3 h)) as Hs. pose proof (Hr (bytes_4_7 h)) as Hc.
  change (Z.land (bytes_0_3 h) 0x00FFFFFF) with (VarBlockGet_itemLenSum h) in Hs.
  change (Z.land (bytes_4_7 h) 0x00FFFFFF) with count in Hc.
  pose proof (even_bounds (VarBlockGet_itemLenSum h)).
  assert (2 ≤ w ≤ 3) by (unfold w; destruct (negb _); simpl; lia). lia.
Qed.

Lemma array_start :
  s32 (VARBLOCK_HEADER_LEN + round_even (VarBlockGet_itemLenSum h)) = oo.
Proof.
  pose proof header_bounds. rewrite round_even_even by lia. apply s32_id.
  unfold VARBLOCK_HEADER_LEN. lia.
Qed.

Lemma valid_array :
  VarBlockIsValid b len = VarBlockCheckOk → 0 < count → oo + count * w ≤ len.
Proof.
  pose proof header_bounds as (B1 & B2 & B3 & B4).
  assert (Hw : (if negb (VarBlockGet_offsetsAreSmall h =? 0) then 2
    else VARBLOCK_BYTE_OFFSET_24_LEN) = w) by done.
  unfold VarBlockIsValid. fold h count. rewrite array_start, Hw.
  intros Hv Hc. revert Hv. rewrite (proj2 (Z.eqb_neq count 0)) by lia.
  rewrite (s32_id (count * w)), (round_even_even (count * w)) by nia.
  destruct (negb (bool_decide _)) eqn:E0.
  { intros Hv. by rewrite bool_decide_eq_true_2 in E0. }
  destruct (len <=? _); [done|]. destruct (len <? oo); [done|].
  destruct (negb (is_zero_pad _ _ _)); [done|].
  destruct (Z.eqb_spec (s32 (len - oo)) (even (count * w))) as [E|]; [|done]. intros _.
  rewrite s32_id in E by (unfold oo; lia). pose proof (even_bounds (count * w)). nia.
Qed.

(** A later offset has no part in the verdict. *)
Lemma valid_wr_offset i v :
  1 ≤ i < count →
  let b' := wr w (oo + i * w) v b in
  load_varblock b' = h ∧ VarBlockIsValid b' len = VarBlockIsValid b len.
Proof.
  intros Hi b'. pose proof header_bounds as (B1 & B2 & B3 & B4).
  assert (oo = 8 + even (VarBlockGet_itemLenSum h)) by done.
  assert (Hld : load_varblock b' = h).
  { unfold h, load_varblock, b'. by rewrite !rd_wr_disj by nia. }
  assert (Hoff : VarBlockGetOffset b' oo 0 = VarBlockGetOffset b oo 0).
  { unfold VarBlockGetOffset. rewrite Hld. fold h. unfold b', w in *.
    destruct (negb _); cbn [width] in *; by rewrite rd_wr_disj by lia. }
  split; [done|]. unfold VarBlockIsValid, VarBlockHeaderIsValid.
  rewrite Hld. fold h count. rewrite array_start, Hoff.
  replace (if negb (VarBlockGet_offsetsAreSmall h =? 0) then 2
    else VARBLOCK_BYTE_OFFSET_24_LEN) with w by done.
  rewrite (s32_id (count * w)), (round_even_even (count * w)) by nia.
  pose proof (even_bounds (count * w)). unfold VARBLOCK_HEADER_LEN.
  rewrite (s32_id (8 + _)) by lia. unfold b'.
  by rewrite !is_zero_pad_wr by nia.
Qed.
End Unchecked.

(** ** Properties *)

#[local] Instance fits_dec maxlen slen items : Decision (fits maxlen slen items).
Proof. unfold fits. apply _. Defined.

(** C31. Round trip of a block: items that fit are all taken by a new maker,
    and finishing it gives a block of the expected length that the check
    accepts, whose length can be read from its header, and from which the
    reader gives back every item inside the block, in order, by index and
    from any position, with two byte and with three byte offsets. *)
Theorem varblock_roundtrip maxlen buf scr items :
  room_ok maxlen buf scr → items_ok items → fits maxlen (blen scr) items →
  ∃ vm, add_items (VarBlockMakerInit buf maxlen scr (blen scr)) items = Some vm ∧
    let '(len, vm') := VarBlockMakerFinish vm in
    len = block_len items ∧ len ≤ maxlen ∧ reads_as (vm_buffer vm') len items.
Proof.
  intros Hr Hok Hf. pose proof Hr as [Hm _ _ Hs _].
  destruct (proj1 (add_items_spec maxlen _ Hm Hs _ items (room_maker _ _ _ Hr) Hok) Hf)
    as (vm & Hadd & Hinv).
  exists vm. split; [done|].
  destruct (finish_reset _ _ vm items Hm Hs Hinv) as (Hl & Hlay & _).
  destruct (VarBlockMakerFinish vm) as [len vm']; cbn [fst snd] in *. subst len.
  split_and!; [done|apply Hf|by apply layout_reads_as].
Qed.

(** C32. When the maker is full: the items are all taken exactly when the
    block and its offsets fit the buffer and the scratch space, and a maker
    that took some items gives a pointer for one more exactly when that still
    fits; the pointer is right after the items so far and the item ends
    inside the buffer. *)
Theorem varblock_full_exact maxlen buf scr items it :
  room_ok maxlen buf scr → items_ok (items ++ [it]) →
  (is_Some (add_items (VarBlockMakerInit buf maxlen scr (blen scr)) items)
     ↔ fits maxlen (blen scr) items) ∧
  ∀ vm, add_items (VarBlockMakerInit buf maxlen scr (blen scr)) items = Some vm →
    match VarBlockMakerGetNextItemPtr vm (blen it) with
    | Some (p, vm') =>
      fits maxlen (blen scr) (items ++ [it]) ∧ p = 8 + blen (mjoin items) ∧
      p + blen it ≤ maxlen ∧
      VarBlockMakerItemCount vm' = Z.of_nat (length items) + 1
    | None => ¬ fits maxlen (blen scr) (items ++ [it])
    end.
Proof.
  intros Hr [Hok [[_ Hl] _]%Forall_cons]%Forall_app. pose proof Hr as [Hm _ _ Hs _].
  pose proof (add_items_spec maxlen _ Hm Hs _ items (room_maker _ _ _ Hr) Hok) as [Ha Hn].
  split.
  { split; [|intros Hf; destruct (Ha Hf) as (vm & -> & _); by eexists].
    intros [vm E]. destruct (decide (fits maxlen (blen scr) items)) as [|Hf]; [done|].
    by rewrite Hn in E. }
  intros vm E. destruct (decide (fits maxlen (blen scr) items)) as [Hf|Hf];
    [|by rewrite Hn in E].
  destruct (Ha Hf) as (vm1 & E1 & Hinv). rewrite E in E1. injection E1 as <-.
  destruct (get_next_cases maxlen _ Hm Hs vm items it Hinv Hl) as [Hsome Hnone].
  destruct (decide (fits maxlen (blen scr) (items ++ [it]))) as [Hf'|Hf'];
    [rewrite Hsome by done|by rewrite Hnone].
  pose proof (step_bounds maxlen _ Hm vm items it Hinv).
  pose proof (block_len_bounds (items ++ [it])) as Hb. rewrite blen_items_app in Hb.
  destruct Hf' as [Hf1 Hf2] eqn:EHf. clear EHf.
  unfold VarBlockMakerItemCount, took_item; cbn [currentItemCount].
  rewrite (mi_next _ _ _ _ Hinv), (mi_count _ _ _ _ Hinv), s32_id by lia.
  split_and!; [done|done|lia|done].
Qed.

(** Reuse of a maker: filling it, finishing the block and resetting it,
    for one batch of items after the other, gives for each batch a block that
    reads back as that batch, whatever the earlier batches left in the
    buffer and in the scratch space. *)
Lemma varblock_reuse maxlen buf scr batches :
  room_ok maxlen buf scr →
  Forall (λ items, items_ok items ∧ fits maxlen (blen scr) items) batches →
  ∃ blocks,
    make_blocks (VarBlockMakerInit buf maxlen scr (blen scr)) batches = Some blocks ∧
    Forall2 (λ bl items, reads_as bl.1 bl.2 items ∧ bl.2 ≤ maxlen) blocks batches.
Proof.
  intros Hr Hall. pose proof Hr as [Hm _ _ Hs _].
  by apply (make_blocks_spec maxlen (blen scr)); [| |apply room_maker|].
Qed.

(** The check of a block does not look at the offsets after the first:
    in a block that it accepts, any later offset can be overwritten with any
    value of its width, the check still accepts the block, and the reader
    returns that value as the position of the item. *)
Lemma varblock_offsets_unchecked b len i v :
  8 ≤ len < 2 ^ 31 → len ≤ blen b →
  VarBlockIsValid b len = VarBlockCheckOk →
  1 ≤ i < VarBlockGet_itemCount (load_varblock b) →
  let w := width (negb (VarBlockGet_offsetsAreSmall (load_varblock b) =? 0)) in
  0 ≤ v < 2 ^ (w * 8) →
  let b' := wr w (8 + even (VarBlockGet_itemLenSum (load_varblock b)) + i * w) v b in
  VarBlockIsValid b' len = VarBlockCheckOk ∧
  (VarBlockReaderGetItemPtr (VarBlockReaderInit b' len).1 i).1 = v.
Proof.
  intros Hlen Hbl Hv Hi w Hvr b'.
  destruct (valid_wr_offset b len i v Hi) as [Hld Hval]. fold w in Hld, Hval.
  fold b' in Hld, Hval. split; [by rewrite Hval|].
  pose proof (valid_array b len Hlen Hv ltac:(lia)) as Ha. fold w in Ha.
  pose proof (header_bounds b) as (B1 & B2 & B3 & B4). fold w in B3.
  unfold VarBlockReaderGetItemPtr, VarBlockGetItemPtrAndLen, VarBlockReaderInit.
  cbn [fst vr_buffer vr_offsetToOffsetArray].
  rewrite Hld, (array_start b). unfold VarBlockGetOffset. rewrite Hld.
  unfold b', w in *. destruct (negb _); cbn [width] in *;
    unfold VARBLOCK_BYTE_OFFSET_24_LEN; rewrite rd_wr_same by nia; by apply Z.mod_small.
Qed.

(** *** Witnesses *)

(** Conditions on concrete items. *)
Ltac check_items :=
  unfold items_ok, is_byte;
  repeat first [ apply Forall_nil_2 | apply Forall_cons_2 | split | by vm_compute ].

Definition demo_buf : list Z := replicate 40 7.
Definition demo_scr : list Z := replicate 12 9.
Definition demo_items : list (list Z) := [[1; 2; 3]; []; [4; 5]].

Lemma demo_room : room_ok 40 demo_buf demo_scr.
Proof.
  split; try (unfold demo_buf, demo_scr; rewrite ?blen_replicate; lia);
    by apply Forall_replicate.
Qed.

Lemma demo_items_ok : items_ok demo_items.
Proof. check_items. Qed.

Lemma varblock_roundtrip_witness :
  ∃ vm, add_items (VarBlockMakerInit demo_buf 40 demo_scr (blen demo_scr)) demo_items
        = Some vm ∧
    let '(len, vm') := VarBlockMakerFinish vm in
    len = block_len demo_items ∧ len ≤ 40 ∧ reads_as (vm_buffer vm') len demo_items.
Proof.
  apply (varblock_roundtrip 40 demo_buf demo_scr demo_items).
  - exact demo_room.
  - exact demo_items_ok.
  - by vm_compute.
Defined.

Lemma varblock_full_exact_witness :
  (is_Some (add_items (VarBlockMakerInit demo_buf 40 demo_scr (blen demo_scr))
              (demo_items ++ [[6]])) ↔ fits 40 (blen demo_scr) (demo_items ++ [[6]])) ∧
  fits 40 (blen demo_scr) (demo_items ++ [[6]]).
Proof.
  split; [|by vm_compute].
  apply (varblock_full_exact 40 demo_buf demo_scr (demo_items ++ [[6]]) [8]).
  - exact demo_room.
  - check_items.
Defined.

Definition demo_block : list Z :=
  match add_items (VarBlockMakerInit demo_buf 40 demo_scr (blen demo_scr)) demo_items with
  | Some vm => vm_buffer (VarBlockMakerFinish vm).2
  | None => []
  end.

