(* ===== verification/CdbHash.v ===== *)
(** Distribution of rows over the segments (backend/cdb/cdbhash.c,
    include/cdb/cdbhash.h), with its callers that route a row
    ([evalHashKey], backend/executor/nodeMotion.c) and that find the segment
    of constants for direct dispatch ([cdbhash_const], [cdbhash_const_list],
    backend/cdb/cdbmutate.c).

    A [Datum] is given with its type and what the accessor for the type reads
    from it: a number, the bits of a float, the bytes of a value after
    detoasting, or the fields of a structure.  Times are 64-bit integers
    ([HAVE_INT64_TIMESTAMP]).  The rows of [pg_type], the base type of a domain
    and the random number are parameters. *)
From stdpp Require Import prelude numbers list.
From S2P Require Import Prelude.
Open Scope hawq_scope.

Definition FNV1_32_INIT : Z := 0x811c9dc5.
Definition FNV_32_PRIME : Z := 0x01000193.
Definition NULL_VAL : Z := 0xF0F0F0F1.
Definition NAN_VAL : Z := 0xE0E0E0E1.
Definition INVALID_VAL : Z := 0xD0D0D0D1.

Definition FASTMOD (x y : Z) : Z := Z.land x (u32 (y - 1)).

(** ** Hash functions *)

(** [hval += (hval << 1) + (hval << 4) + (hval << 7) + (hval << 8) + (hval << 24)]. *)
Definition fnv_multiply (hval : Z) : Z :=
  u32 (hval + (u32 (Z.shiftl hval 1) + u32 (Z.shiftl hval 4) + u32 (Z.shiftl hval 7) +
               u32 (Z.shiftl hval 8) + u32 (Z.shiftl hval 24))).

Definition fnv1_32_buf (buf : list Z) (hval : Z) : Z :=
  foldl (λ hval b, Z.lxor (fnv_multiply hval) b) hval buf.

Definition fnv1a_32_buf (buf : list Z) (hval : Z) : Z :=
  foldl (λ hval b, fnv_multiply (Z.lxor hval b)) hval buf.

Definition ispowof2 (numsegs : Z) : bool := Z.land numsegs (numsegs - 1) =? 0.

(** [None] when a byte before the data is read. *)
Fixpoint ignoreblanks (data : list Z) (len : nat) : option nat :=
  match len with
  | 0%nat => None
  | S n =>
    if data !!! n =? 32 then
      if (n =? 1)%nat then Some n else ignoreblanks data n
    else Some len
  end.

(** ** The hash of a session *)

Inductive CdbHashAlg := HASH_FNV_1 | HASH_FNV_1A.
Inductive CdbHashReduce := REDUCE_LAZYMOD | REDUCE_BITMASK.

Record CdbHash := mkCdbHash {
  hash : Z;
  numsegs : Z;
  hashalg : CdbHashAlg;
  reducealg : CdbHashReduce;
  rrindex : Z
}.

Definition set_hash (v : Z) (h : CdbHash) : CdbHash :=
  mkCdbHash v (numsegs h) (hashalg h) (reducealg h) (rrindex h).

(** The function in the field [hashfn]. *)
Definition hashfn (h : CdbHash) : list Z → Z → Z :=
  match hashalg h with
  | HASH_FNV_1 => fnv1_32_buf
  | HASH_FNV_1A => fnv1a_32_buf
  end.

Definition makeCdbHash (numsegs : Z) (algorithm : CdbHashAlg) (randint : Z) : CdbHash :=
  mkCdbHash 0 numsegs algorithm
    (if ispowof2 numsegs then REDUCE_BITMASK else REDUCE_LAZYMOD) randint.

Definition cdbhashinit (h : CdbHash) : CdbHash := set_hash FNV1_32_INIT h.

Definition addToCdbHash (h : CdbHash) (buf : list Z) : CdbHash :=
  set_hash (hashfn h buf (hash h)) h.

(** ** Values *)

Inductive typoid :=
  | INT2OID | INT4OID | INT8OID | FLOAT4OID | FLOAT8OID | NUMERICOID | CHAROID
  | BPCHAROID | TEXTOID | VARCHAROID | BYTEAOID | NAMEOID | OIDOID | TIDOID
  | REGPROCOID | REGPROCEDUREOID | REGOPEROID | REGOPERATOROID | REGCLASSOID
  | REGTYPEOID | TIMESTAMPOID | TIMESTAMPTZOID | DATEOID | TIMEOID | TIMETZOID
  | INTERVALOID | ABSTIMEOID | RELTIMEOID | TINTERVALOID | INETOID | CIDROID
  | MACADDROID | BITOID | VARBITOID | BOOLOID | ACLITEMOID | ANYARRAYOID
  | INT2VECTOROID | OIDVECTOROID | CASHOID
  | OtherOID (oid : Z).

Record Interval := mkInterval { iv_time : Z; iv_day : Z; iv_month : Z }.

(** What the accessor of a type reads. *)
Inductive Datum :=
  | DInt (z : Z)                              (** numbers passed by value *)
  | DFloat (bits : Z)                         (** the bit pattern *)
  | DNumeric (nan : bool) (n_data : list Z)
  | DBytes (data : list Z)                    (** detoasted or fixed-length bytes *)
  | DTimeTz (time zone : Z)
  | DInterval (interval : Interval)
  | DTInterval (status data0 data1 : Z)
  | DInet (family bits : Z) (ipaddr : list Z)
  | DAclItem (privs grantee grantor : Z)
  | DInt2Vector (values : list Z)
  | DOidVector (values : list Z).

Definition bytes_of (n v : Z) : list Z := Z_to_little_endian n 8 v.

Definition INVALID_ABSTIME : Z := 0x7FFFFFFE.
Definition INVALID_RELTIME : Z := 0x7FFFFFFE.
Definition NAMEDATALEN : Z := 64.
Definition SizeOfIptrData : Z := 6.
Definition PGSQL_AF_INET : Z := 2.
Definition PGSQL_AF_INET6 : Z := 3.

Definition inet_getkey (family bits : Z) (ipaddr : list Z) : list Z :=
  let addrsize := if family =? PGSQL_AF_INET then 4
                  else if family =? PGSQL_AF_INET6 then 16 else 0 in
  family :: bits :: slice 0 addrsize ipaddr.

(** Without trailing blanks, for more than one character; [ignoreblanks]
    then stays inside the data. *)
Definition trim (buf : list Z) : list Z :=
  if (1 <? length buf)%nat then take (default 0%nat (ignoreblanks buf (length buf))) buf
  else buf.

(** The buffer that is hashed.  A value whose shape is not that of its type
    cannot be read with the accessor of the type and does not occur. *)
Definition datum_buf (datum : Datum) (type : typoid) : outcome (list Z) :=
  match type, datum with
  | (INT2OID | INT4OID | INT8OID), DInt z => Return (bytes_of 8 z)
  | FLOAT4OID, DFloat bits =>
    Return (bytes_of 4 (if Z.land bits 0x7FFFFFFF =? 0 then 0 else bits))
  | FLOAT8OID, DFloat bits =>
    Return (bytes_of 8 (if Z.land bits 0x7FFFFFFFFFFFFFFF =? 0 then 0 else bits))
  | NUMERICOID, DNumeric nan n_data =>
    Return (if nan then bytes_of 4 NAN_VAL else n_data)
  | CHAROID, DInt c => Return (bytes_of 1 c)
  | (BPCHAROID | TEXTOID | VARCHAROID), DBytes buf => Return (trim buf)
  | BYTEAOID, DBytes buf => Return buf
  | NAMEOID, DBytes buf => Return (trim (slice 0 NAMEDATALEN buf))
  | (OIDOID | REGPROCOID | REGPROCEDUREOID | REGOPEROID | REGOPERATOROID | REGCLASSOID
     | REGTYPEOID), DInt z => Return (bytes_of 8 (u32 z))
  | TIDOID, DBytes buf => Return (slice 0 SizeOfIptrData buf)
  | (TIMESTAMPOID | TIMESTAMPTZOID | TIMEOID), DInt z => Return (bytes_of 8 z)
  | DATEOID, DInt z => Return (bytes_of 4 z)
  | TIMETZOID, DTimeTz time zone => Return (bytes_of 8 time ++ bytes_of 4 zone)
  | INTERVALOID, DInterval i =>
    Return (slice 0 (8 + 4)
      (bytes_of 8 (iv_time i) ++ bytes_of 4 (iv_day i) ++ bytes_of 4 (iv_month i)))
  | ABSTIMEOID, DInt z =>
    Return (bytes_of 4 (if z =? INVALID_ABSTIME then INVALID_VAL else z))
  | RELTIMEOID, DInt z =>
    Return (bytes_of 4 (if z =? INVALID_RELTIME then INVALID_VAL else z))
  | TINTERVALOID, DTInterval status data0 data1 =>
    if (status =? 0) || (data0 =? INVALID_ABSTIME) || (data1 =? INVALID_ABSTIME)
    then Return (bytes_of 4 INVALID_VAL)
    else Return (bytes_of 4 (data1 - data0))
  | (INETOID | CIDROID), DInet family bits ipaddr => Return (inet_getkey family bits ipaddr)
  | MACADDROID, DBytes buf => Return (slice 0 6 buf)
  | (BITOID | VARBITOID), DBytes buf => Return buf
  | BOOLOID, DInt z => Return (bytes_of 1 z)
  | ACLITEMOID, DAclItem privs grantee grantor =>
    Return (bytes_of 4 (u32 (privs + grantee + grantor)))
  | ANYARRAYOID, DBytes buf => Return buf
  | INT2VECTOROID, DInt2Vector values => Return (mjoin (bytes_of 2 <$> values))
  | OIDVECTOROID, DOidVector values => Return (mjoin (bytes_of 4 <$> values))
  | CASHOID, DInt z => Return (bytes_of 4 z)
  | _, _ => ElogError
  end.

Section Client.
Context {A : Type} (hashFn : A → list Z → A).

Definition hashDatum (datum : Datum) (type : typoid) (clientData : A) : outcome A :=
  let* buf := datum_buf datum type in
  Return (hashFn clientData buf).

Definition hashNullDatum (clientData : A) : A := hashFn clientData (bytes_of 4 NULL_VAL).
End Client.

Definition cdbhash (h : CdbHash) (datum : Datum) (type : typoid) : outcome CdbHash :=
  hashDatum addToCdbHash datum type h.

Definition cdbhashnull (h : CdbHash) : CdbHash := hashNullDatum addToCdbHash h.

Definition cdbhashnokey (h : CdbHash) : CdbHash :=
  let h := addToCdbHash h (bytes_of 4 (rrindex h)) in
  mkCdbHash (hash h) (numsegs h) (hashalg h) (reducealg h) (u32 (rrindex h + 1)).

Definition cdbhashreduce (h : CdbHash) : Z :=
  let result :=
    match reducealg h with
    | REDUCE_BITMASK => s32 (FASTMOD (hash h) (u32 (numsegs h)))
    | REDUCE_LAZYMOD => s32 (hash h mod u32 (numsegs h))
    end in
  u32 result.

(** ** Types *)

Definition hashable_type (typid : typoid) : bool :=
  match typid with
  | OtherOID _ => false
  | _ => true
  end.

(** The columns of [pg_type] that are read. *)
Record Form_pg_type := mkForm_pg_type {
  typelem : Z;
  typtype : Z;
  typname : list Z;
  typinput : Z
}.

Definition InvalidOid : Z := 0.
Definition F_ARRAY_IN : Z := 750.

Section Catalog.
Context (typeidType : typoid → Form_pg_type) (getBaseType : typoid → typoid).

Definition typeIsArrayType (typeoid : typoid) : bool :=
  let typeform := typeidType typeoid in
  negb (typelem typeform =? InvalidOid) && negb (typtype typeform =? 100) &&
  (typname typeform !!! 0%nat =? 95) && (typinput typeform =? F_ARRAY_IN).

(** The row of a type that exists. *)
Definition get_typtype (typid : typoid) : Z := typtype (typeidType typid).

Definition isGreenplumDbHashable (typid : typoid) : bool :=
  if typeIsArrayType typid then true
  else
    let typid := if get_typtype typid =? 100 then getBaseType typid else typid in
    hashable_type typid.

(** ** Routing *)

(** The keys of a row with their types; [None] is NULL. *)
Fixpoint hash_keys (keys : list (option Datum * typoid)) (h : CdbHash) : outcome CdbHash :=
  match keys with
  | [] => Return h
  | (Some keyval, type) :: keys =>
    let* h := cdbhash h keyval type in
    hash_keys keys h
  | (None, _) :: keys => hash_keys keys (cdbhashnull h)
  end.

(** The segment and the hash for the next row. *)
Definition evalHashKey (hashkeys : list (option Datum * typoid)) (h : CdbHash)
    : outcome (Z * CdbHash) :=
  let h := cdbhashinit h in
  let* h := (if (0 <? length hashkeys)%nat then hash_keys hashkeys h
             else Return (cdbhashnokey h)) in
  Return (cdbhashreduce h, h).

Definition const_type (consttype : typoid) : typoid :=
  if typeIsArrayType consttype then ANYARRAYOID else consttype.

Fixpoint hash_consts (plConsts : list (option Datum * typoid)) (h : CdbHash)
    : outcome CdbHash :=
  match plConsts with
  | [] => Return h
  | (None, _) :: l => hash_consts l (cdbhashnull h)
  | (Some constvalue, consttype) :: l =>
    let* h := cdbhash h constvalue (const_type consttype) in
    hash_consts l h
  end.

Definition cdbhash_const_list (plConsts : list (option Datum * typoid)) (iSegments : Z)
    (randint : Z) : outcome Z :=
  let h := cdbhashinit (makeCdbHash iSegments HASH_FNV_1 randint) in
  let* h := hash_consts plConsts h in
  Return (s32 (cdbhashreduce h)).

Definition cdbhash_const (pconst : option Datum * typoid) (iSegments randint : Z) : outcome Z :=
  let h := cdbhashinit (makeCdbHash iSegments HASH_FNV_1 randint) in
  let* h :=
    match pconst.1 with
    | None => Return (cdbhashnull h)
    | Some constvalue => cdbhash h constvalue (const_type pconst.2)
    end in
  Return (s32 (cdbhashreduce h)).
End Catalog.

(** ** Equality of the values *)

(** Of [bpchar] (backend/utils/adt/varchar.c). *)
Fixpoint bcTruelen (p : list Z) (len : nat) : nat :=
  match len with
  | 0%nat => 0%nat
  | S i => if p !!! i =? 32 then bcTruelen p i else len
  end.

Definition bpeq (p0 p1 : list Z) : bool :=
  let len0 := bcTruelen p0 (length p0) in
  let len1 := bcTruelen p1 (length p1) in
  if negb (len0 =? len1)%nat then false
  else bool_decide (take len0 p0 = take len0 p1).

(** Of intervals (backend/utils/adt/timestamp.c). *)
Definition USECS_PER_DAY : Z := 86400000000.
Definition USECS_PER_HOUR : Z := 3600000000.

Definition interval_cmp_value (interval : Interval) : Z :=
  let span := iv_time interval in
  let span := s64 (span + s64 (iv_month interval * 30 * USECS_PER_DAY)) in
  s64 (span + s64 (iv_day interval * 24 * USECS_PER_HOUR)).

Definition interval_cmp_internal (interval1 interval2 : Interval) : Z :=
  let span1 := interval_cmp_value interval1 in
  let span2 := interval_cmp_value interval2 in
  if span1 <? span2 then -1 else if span2 <? span1 then 1 else 0.

(** ** Types of values *)

(** The values that the accessor of a type can read. *)
Definition shape (type : typoid) (datum : Datum) : bool :=
  match type, datum with
  | (FLOAT4OID | FLOAT8OID), DFloat _ => true
  | NUMERICOID, DNumeric _ _ => true
  | (BPCHAROID | TEXTOID | VARCHAROID | BYTEAOID | NAMEOID | TIDOID | MACADDROID | BITOID
     | VARBITOID | ANYARRAYOID), DBytes _ => true
  | TIMETZOID, DTimeTz _ _ => true
  | INTERVALOID, DInterval _ => true
  | TINTERVALOID, DTInterval _ _ _ => true
  | (INETOID | CIDROID), DInet _ _ _ => true
  | ACLITEMOID, DAclItem _ _ _ => true
  | INT2VECTOROID, DInt2Vector _ => true
  | OIDVECTOROID, DOidVector _ => true
  | (INT2OID | INT4OID | INT8OID | CHAROID | OIDOID | REGPROCOID | REGPROCEDUREOID
     | REGOPEROID | REGOPERATOROID | REGCLASSOID | REGTYPEOID | TIMESTAMPOID
     | TIMESTAMPTZOID | DATEOID | TIMEOID | ABSTIMEOID | RELTIMEOID | BOOLOID | CASHOID),
    DInt _ => true
  | OtherOID _, _ => true
  | _, _ => false
  end.
