(* ===== verification/CdbHashSpec.v ===== *)
(** Properties of the distribution of rows (CdbHash.v): a row goes to the
    segment that its FNV-1 hash modulo the number of segments names, whichever
    of the routines computes it; which types can be hashed; which equal values
    are on one segment; and the fairness of the distribution without a key. *)
From stdpp Require Import prelude numbers list.
From S2P Require Import Prelude CdbHash.
Open Scope hawq_scope.

(** ** The hash *)

(** FNV-1 as it is defined, with the multiplication. *)
Definition fnv1 (hval : Z) (bs : list Z) : Z :=
  foldl (λ hval b, Z.lxor (u32 (hval * FNV_32_PRIME)) b) hval bs.

Lemma fnv_multiply_prime hval : fnv_multiply hval = u32 (hval * FNV_32_PRIME).
Proof.
  unfold fnv_multiply, FNV_32_PRIME. rewrite !Z.shiftl_mul_pow2 by lia.
  u32_sum. f_equal. lia.
Qed.

Lemma fnv1_32_buf_fnv1 bs hval : fnv1_32_buf bs hval = fnv1 hval bs.
Proof.
  revert hval. induction bs as [|b bs IH]; intros; [done|].
  unfold fnv1_32_buf, fnv1 in *. cbn. rewrite IH. by rewrite fnv_multiply_prime.
Qed.

Lemma fnv1_app hval bs bs' : fnv1 hval (bs ++ bs') = fnv1 (fnv1 hval bs) bs'.
Proof. apply foldl_app. Qed.

Lemma ispowof2_pow n : 0 < n → ispowof2 n = true ↔ ∃ k, 0 ≤ k ∧ n = 2 ^ k.
Proof.
  intros Hn. unfold ispowof2. rewrite Z.eqb_eq. split.
  - intros H0. exists (Z.log2 n). split; [apply Z.log2_nonneg|].
    pose proof (Z.log2_spec n Hn) as [Hlo Hhi].
    destruct (decide (n = 2 ^ Z.log2 n)) as [|Hne]; [done|exfalso].
    assert (Hl : Z.log2 (n - 1) = Z.log2 n).
    { apply Z.log2_unique; [apply Z.log2_nonneg|]. lia. }
    assert (Hb : Z.testbit (Z.land n (n - 1)) (Z.log2 n) = true).
    { rewrite Z.land_spec, Z.bit_log2 by lia. rewrite <- Hl. apply Z.bit_log2.
      pose proof (Z.pow_pos_nonneg 2 (Z.log2 n)). pose proof (Z.log2_nonneg n). lia. }
    by rewrite H0, Z.bits_0 in Hb.
  - intros (k & Hk & ->). rewrite Z.sub_1_r, <- Z.ones_equiv, Z.land_ones by done.
    apply Z.mod_same. pose proof (Z.pow_pos_nonneg 2 k). lia.
Qed.

Definition made (n : Z) (h : CdbHash) : Prop :=
  numsegs h = n ∧ hashalg h = HASH_FNV_1 ∧
  reducealg h = (if ispowof2 n then REDUCE_BITMASK else REDUCE_LAZYMOD).

Lemma cdbhashreduce_mod n h :
  0 < n < 2 ^ 31 → made n h → cdbhashreduce h = hash h mod n.
Proof.
  intros Hn (Hs & _ & Hr). unfold cdbhashreduce. rewrite Hr, Hs.
  assert (Hm : 0 ≤ hash h mod n < n) by (apply Z.mod_pos_bound; lia).
  assert (Hu : u32 n = n) by (apply u32_id; lia).
  destruct (ispowof2 n) eqn:E.
  - apply ispowof2_pow in E as (k & Hk & ->); [|lia].
    unfold FASTMOD. rewrite Hu, (u32_id (2 ^ k - 1)) by lia.
    rewrite Z.sub_1_r, <- Z.ones_equiv, Z.land_ones by done.
    rewrite s32_id by lia. apply u32_id. lia.
  - rewrite Hu, s32_id by lia. apply u32_id. lia.
Qed.

(** ** Routing *)

(** What a key adds to the hashed bytes. *)
Definition key_bytes (key : option Datum * typoid) : outcome (list Z) :=
  match key with
  | (Some datum, type) => datum_buf datum type
  | (None, _) => Return (bytes_of 4 NULL_VAL)
  end.

Fixpoint row_bytes (keys : list (option Datum * typoid)) : outcome (list Z) :=
  match keys with
  | [] => Return []
  | key :: keys =>
    let* bs := key_bytes key in
    let* bs' := row_bytes keys in
    Return (bs ++ bs')
  end.

Lemma addToCdbHash_fnv1 h bs :
  hashalg h = HASH_FNV_1 → addToCdbHash h bs = set_hash (fnv1 (hash h) bs) h.
Proof.
  intros Ha. unfold addToCdbHash, hashfn. rewrite Ha. by rewrite fnv1_32_buf_fnv1.
Qed.

Lemma hash_keys_fnv1 keys h :
  hashalg h = HASH_FNV_1 →
  hash_keys keys h =
    (let* bs := row_bytes keys in Return (set_hash (fnv1 (hash h) bs) h)).
Proof.
  revert h. induction keys as [|[[d|] t] keys IH]; intros h Ha; cbn.
  - by destruct h.
  - unfold cdbhash, hashDatum. destruct (datum_buf d t) as [bs|]; cbn; [|done].
    rewrite addToCdbHash_fnv1 by done. rewrite IH by done.
    destruct (row_bytes keys); cbn; [|done]. by rewrite fnv1_app.
  - unfold cdbhashnull, hashNullDatum. rewrite addToCdbHash_fnv1, IH by done.
    destruct (row_bytes keys); cbn; [|done]. by rewrite <- fnv1_app.
Qed.

Lemma hash_consts_keys pg_type consts h :
  hash_consts pg_type consts h = hash_keys (prod_map id (const_type pg_type) <$> consts) h.
Proof.
  revert h. induction consts as [|[[d|] t] consts IH]; intros h; cbn; [done| |done].
  destruct (cdbhash h d (const_type pg_type t)); cbn; [|done]. apply IH.
Qed.

Lemma made_set_hash n v h : made n h → made n (set_hash v h).
Proof. done. Qed.

Lemma made_make n r : made n (makeCdbHash n HASH_FNV_1 r).
Proof. done. Qed.

Lemma evalHashKey_fnv1 n h keys :
  0 < n < 2 ^ 31 → made n h → keys ≠ [] →
  evalHashKey keys h =
    (let* bs := row_bytes keys in
     Return (fnv1 FNV1_32_INIT bs mod n, set_hash (fnv1 FNV1_32_INIT bs) h)).
Proof.
  intros Hn Hm Hk. unfold evalHashKey.
  replace (0 <? length keys)%nat with true by (destruct keys; done).
  rewrite hash_keys_fnv1 by apply Hm.
  destruct (row_bytes keys); cbn; [|done]. by rewrite (cdbhashreduce_mod n).
Qed.

Lemma cdbhash_const_list_fnv1 pg_type n r consts :
  0 < n < 2 ^ 31 →
  cdbhash_const_list pg_type consts n r =
    (let* bs := row_bytes (prod_map id (const_type pg_type) <$> consts) in
     Return (fnv1 FNV1_32_INIT bs mod n)).
Proof.
  intros Hn. unfold cdbhash_const_list. rewrite hash_consts_keys, hash_keys_fnv1 by done.
  destruct (row_bytes _) as [bs|]; cbn; [|done].
  rewrite (cdbhashreduce_mod n) by done. cbn.
  pose proof (Z.mod_pos_bound (fnv1 FNV1_32_INIT bs) n). by rewrite s32_id by lia.
Qed.

Lemma cdbhash_const_singleton pg_type c n r :
  cdbhash_const pg_type c n r = cdbhash_const_list pg_type [c] n r.
Proof.
  destruct c as [[d|] t]; [|done]. unfold cdbhash_const, cdbhash_const_list. cbn.
  by destruct (cdbhash _ _ _).
Qed.

(** ** Trailing blanks *)

Lemma bcTruelen_le p len : (bcTruelen p len ≤ len)%nat.
Proof. induction len as [|len IH]; cbn; [done|]. destruct (_ =? _); lia. Qed.

Lemma bcTruelen_blank p len i :
  (bcTruelen p len ≤ i < len)%nat → p !!! i = 32.
Proof.
  induction len as [|len IH]; cbn; [lia|].
  destruct (p !!! len =? 32) eqn:E; [|lia]. apply Z.eqb_eq in E.
  destruct (decide (i = len)) as [->|]; [done|]. intros. apply IH. lia.
Qed.

Lemma ignoreblanks_truelen p len :
  (1 < len)%nat → ignoreblanks p len = Some (bcTruelen p len `max` 1)%nat.
Proof.
  induction len as [|len IH]; intros Hl; [lia|]. cbn.
  destruct (p !!! len =? 32); [|f_equal; lia].
  destruct (len =? 1)%nat eqn:E.
  - apply Nat.eqb_eq in E as ->. f_equal. pose proof (bcTruelen_le p 1). lia.
  - apply Nat.eqb_neq in E. apply IH. lia.
Qed.

Lemma trim_truelen p :
  p ≠ [] → trim p = take (bcTruelen p (length p) `max` 1)%nat p.
Proof.
  intros Hp. unfold trim. destruct (1 <? length p)%nat eqn:E.
  - apply Nat.ltb_lt in E. by rewrite ignoreblanks_truelen.
  - apply Nat.ltb_ge in E. destruct p as [|b [|b' p]]; [done| |cbn in E; lia].
    cbn. by destruct (b =? 32).
Qed.

Lemma take_blank p :
  p ≠ [] → bcTruelen p (length p) = 0%nat → take 1 p = [32].
Proof.
  intros Hp H0. destruct p as [|b p]; [done|].
  pose proof (bcTruelen_blank (b :: p) (length (b :: p)) 0%nat) as Hb.
  rewrite H0 in Hb. cbn in *. rewrite take_0. f_equal. apply Hb. lia.
Qed.

Lemma trim_bpeq p q : p ≠ [] → q ≠ [] → bpeq p q = true → trim p = trim q.
Proof.
  intros Hp Hq. unfold bpeq.
  destruct (_ =? _)%nat eqn:E; cbn; [|done]. apply Nat.eqb_eq in E.
  intros Ht%bool_decide_eq_true_1. rewrite !trim_truelen, <- E by done.
  destruct (decide (bcTruelen p (length p) = 0%nat)) as [H0|].
  - rewrite H0. cbn [Nat.max]. rewrite !take_blank; congruence.
  - by rewrite Nat.max_l by lia.
Qed.

(** ** Rows without a key *)

(** The segments of [n] rows that are routed one after the other. *)
Fixpoint route (n : nat) (h : CdbHash) : outcome (list Z) :=
  match n with
  | 0%nat => Return []
  | S n =>
    let* p := evalHashKey [] h in
    let* l := route n p.2 in
    Return (p.1 :: l)
  end.

Definition nokey_segment (n i : Z) : Z := fnv1 FNV1_32_INIT (bytes_of 4 i) mod n.

Lemma evalHashKey_nokey n h :
  0 < n < 2 ^ 31 → made n h →
  ∃ h', evalHashKey [] h = Return (nokey_segment n (rrindex h), h') ∧ made n h' ∧
        rrindex h' = u32 (rrindex h + 1).
Proof.
  intros Hn (Hs & Ha & Hr). eexists. split; [|split].
  - unfold evalHashKey. cbn. f_equal. f_equal. rewrite (cdbhashreduce_mod n) by done.
    unfold nokey_segment. f_equal. unfold cdbhashnokey. rewrite addToCdbHash_fnv1 by done. done.
  - done.
  - done.
Qed.

Lemma route_segments n h (m : nat) :
  0 < n < 2 ^ 31 → made n h → 0 ≤ rrindex h → rrindex h + Z.of_nat m ≤ 2 ^ 32 →
  route m h = Return (nokey_segment n <$> seqZ (rrindex h) (Z.of_nat m)).
Proof.
  intros Hn. revert h. induction m as [|m IH]; intros h Hm H0 Hr; [done|].
  destruct (evalHashKey_nokey n h Hn Hm) as (h' & He & Hm' & Hi). cbn [route]. rewrite He. cbn.
  destruct (decide (m = 0%nat)) as [->|].
  - cbn. rewrite seqZ_cons by lia. done.
  - rewrite u32_id in Hi by lia. rewrite IH by (done || lia). cbn.
    rewrite Hi, (seqZ_cons (rrindex h)) by lia. cbn. do 4 f_equal; lia.
Qed.

(** *** Injectivity modulo a power of two *)

Section Mod2.
Context (k : Z) (Hk : 0 ≤ k ≤ 8).

Definition eqk (x y : Z) : Prop := x mod 2 ^ k = y mod 2 ^ k.

Lemma eqk_bits x y : eqk x y ↔ ∀ i, 0 ≤ i < k → Z.testbit x i = Z.testbit y i.
Proof.
  unfold eqk. split.
  - intros H i Hi. rewrite <- (Z.mod_pow2_bits_low x k), <- (Z.mod_pow2_bits_low y k) by lia.
    by rewrite H.
  - intros H. apply Z.bits_inj'. intros i Hi. destruct (decide (i < k)).
    + rewrite !Z.mod_pow2_bits_low by lia. apply H. lia.
    + by rewrite !Z.mod_pow2_bits_high by lia.
Qed.

Lemma eqk_lxor_r x y b : eqk (Z.lxor x b) (Z.lxor y b) → eqk x y.
Proof.
  rewrite !eqk_bits. intros H i Hi. specialize (H i Hi). rewrite !Z.lxor_spec in H.
  by destruct (Z.testbit x i), (Z.testbit y i), (Z.testbit b i).
Qed.

Lemma eqk_lxor_l x b b' : eqk (Z.lxor x b) (Z.lxor x b') → eqk b b'.
Proof. rewrite !(Z.lxor_comm x). apply eqk_lxor_r. Qed.

Lemma eqk_u32 x : eqk (u32 x) x.
Proof.
  apply eqk_bits. intros i Hi. unfold u32. by rewrite Z.mod_pow2_bits_low by lia.
Qed.

(** The prime is odd: it has an inverse. *)
Lemma eqk_prime x : eqk (x * FNV_32_PRIME * 0x359c449b) x.
Proof.
  unfold eqk. rewrite <- Z.mul_assoc.
  replace (FNV_32_PRIME * 0x359c449b) with (1 + (FNV_32_PRIME * 0x359c449b / 2 ^ 32) * 2 ^ 32)
    by reflexivity.
  rewrite Z.mul_add_distr_l, Z.mul_1_r, Z.mul_assoc. rewrite <- (eqk_u32 (x + _)).
  unfold u32. rewrite Z.mod_add by lia. apply (eqk_u32 x).
Qed.

Lemma eqk_mul x y c : eqk x y → eqk (x * c) (y * c).
Proof.
  unfold eqk. intros H. rewrite <- (Z.mul_mod_idemp_l x), H, Z.mul_mod_idemp_l; [done|lia..].
Qed.

Lemma eqk_multiply x y : eqk (u32 (x * FNV_32_PRIME)) (u32 (y * FNV_32_PRIME)) → eqk x y.
Proof.
  intros H. unfold eqk in *. rewrite !eqk_u32 in H.
  rewrite <- (eqk_prime x), <- (eqk_prime y). by apply eqk_mul.
Qed.

Lemma fnv1_inj bs x y : eqk (fnv1 x bs) (fnv1 y bs) → eqk x y.
Proof.
  revert x y. induction bs as [|b bs IH]; intros x y H; [done|].
  apply eqk_multiply, (eqk_lxor_r _ _ b), IH, H.
Qed.

(** Indexes in an aligned window differ in the low bits of the first byte. *)
Lemma shiftr_div s : Z.shiftr s 8 = s / 2 ^ k / 2 ^ (8 - k).
Proof.
  rewrite Z.shiftr_div_pow2 by lia. rewrite Z.div_div by lia.
  rewrite <- Z.pow_add_r by lia. do 2 f_equal. lia.
Qed.

Lemma window_bytes s i :
  s mod 2 ^ k = 0 → 0 ≤ i < 2 ^ k →
  bytes_of 4 (s + i) = Z.land (s + i) (Z.ones 8) :: bytes_of 3 (Z.shiftr s 8).
Proof.
  intros Hs Hi. unfold bytes_of. change 4 with (Z.succ 3) at 1. rewrite Z_to_little_endian_succ by lia.
  f_equal. f_equal. rewrite !shiftr_div. f_equal.
  apply Z.div_exact in Hs; [|lia]. rewrite Hs at 1.
  rewrite Z.mul_comm, Z.div_add_l by lia. rewrite (Z.div_small i) by done. lia.
Qed.

Lemma eqk_land8 x : eqk (Z.land x (Z.ones 8)) x.
Proof.
  apply eqk_bits. intros i Hi. rewrite Z.land_spec, Z.ones_spec_low by lia. apply andb_true_r.
Qed.

Lemma nokey_segment_inj s i j :
  s mod 2 ^ k = 0 → 0 ≤ i < 2 ^ k → 0 ≤ j < 2 ^ k →
  nokey_segment (2 ^ k) (s + i) = nokey_segment (2 ^ k) (s + j) → i = j.
Proof.
  intros Hs Hi Hj H. unfold nokey_segment in H. rewrite !window_bytes in H by done.
  apply (fnv1_inj _ (Z.lxor _ _) (Z.lxor _ _)), eqk_lxor_l in H.
  unfold eqk in H. rewrite !eqk_land8 in H.
  rewrite <- (Z.add_mod_idemp_l s i), <- (Z.add_mod_idemp_l s j), Hs in H by lia.
  by rewrite !Z.mod_small in H by lia.
Qed.
End Mod2.

Lemma window_permutation k s :
  0 ≤ k ≤ 8 → s mod 2 ^ k = 0 →
  nokey_segment (2 ^ k) <$> seqZ s (2 ^ k) ≡ₚ seqZ 0 (2 ^ k).
Proof.
  intros Hk Hs. assert (Hp : 0 < 2 ^ k) by lia. apply submseteq_length_Permutation.
  - apply NoDup_submseteq.
    + apply NoDup_fmap_2_strong; [|apply NoDup_seqZ].
      intros x y Hx%elem_of_seqZ Hy%elem_of_seqZ He.
      assert (x - s = y - s); [|lia].
      apply (nokey_segment_inj k Hk s); [done|lia..|].
      by rewrite !Z.add_sub_assoc, !(Z.add_comm s), !Z.add_simpl_r.
    + intros x (y & -> & _)%list_elem_of_fmap. apply elem_of_seqZ.
      unfold nokey_segment. apply Z.mod_pos_bound. lia.
  - rewrite length_fmap, !length_seqZ. done.
Qed.

(** ** Theorems *)

(** A type of its own, and a domain, as [pg_type] describes them. *)
Definition pg_type_base : Form_pg_type := mkForm_pg_type 0 98 [105] 0.
Definition pg_type_domain : Form_pg_type := mkForm_pg_type 0 100 [100] 0.

Lemma typeIsArrayType_domain pg_type t :
  typtype (pg_type t) = 100 → typeIsArrayType pg_type t = false.
Proof. unfold typeIsArrayType. intros ->. by destruct (negb _). Qed.

Lemma datum_buf_hashable d t :
  shape t d = true →
  match datum_buf d t with
  | Return _ => hashable_type t = true
  | ElogError => hashable_type t = false
  end.
Proof. destruct t, d; try done; cbn; by repeat case_match. Qed.

(** C37.  A constant can be hashed exactly when its type is one that
    [isGreenplumDbHashable] accepts, for every type that is not a domain:
    [cdbhash_const] then returns a segment between 0 and the number of
    segments, and raises an error for every other type.  For a domain the
    test looks at its base type but the hash at the domain itself, so that a
    domain over a hashable type is accepted and its constants raise an error. *)
Theorem hashable_types pg_type base typid d n r :
  0 < n < 2 ^ 31 → shape (const_type pg_type typid) d = true →
  (typtype (pg_type typid) ≠ 100 →
     match cdbhash_const pg_type (Some d, typid) n r with
     | Return seg => isGreenplumDbHashable pg_type base typid = true ∧ 0 ≤ seg < n
     | ElogError => isGreenplumDbHashable pg_type base typid = false
     end) ∧
  (∀ oid, typid = OtherOID oid → typtype (pg_type typid) = 100 →
     isGreenplumDbHashable pg_type base typid = hashable_type (base typid) ∧
     cdbhash_const pg_type (Some d, typid) n r = ElogError).
Proof.
  intros Hn Hs. apply datum_buf_hashable in Hs as Hb.
  rewrite cdbhash_const_singleton, cdbhash_const_list_fnv1 by done.
  unfold isGreenplumDbHashable, get_typtype. cbn. split.
  - intros Hd%Z.eqb_neq. rewrite Hd. unfold const_type in *.
    destruct (typeIsArrayType pg_type typid), (datum_buf _ _); cbn; try done;
      (split; [done|apply Z.mod_pos_bound; lia]).
  - intros oid -> Hd. unfold const_type in *.
    rewrite typeIsArrayType_domain in * by done. rewrite Hd. done.
Qed.

Lemma hashable_types_witness :
  isGreenplumDbHashable (λ _, pg_type_base) id TEXTOID = true ∧
  (∃ seg, cdbhash_const (λ _, pg_type_base) (Some (DBytes [65; 32]), TEXTOID) 6 0
          = Return seg) ∧
  isGreenplumDbHashable (λ _, pg_type_domain) (λ _, INT4OID) (OtherOID 20000) = true ∧
  cdbhash_const (λ _, pg_type_domain) (Some (DInt 7), OtherOID 20000) 6 0 = ElogError.
Proof.
  pose proof (hashable_types (λ _, pg_type_base) id TEXTOID (DBytes [65; 32]) 6 0) as H.
  destruct H as [H _]; [lia|done|].
  pose proof (hashable_types (λ _, pg_type_domain) (λ _, INT4OID) (OtherOID 20000)
                (DInt 7) 6 0) as H'.
  destruct H' as [_ H']; [lia|done|].
  destruct (H' 20000 eq_refl eq_refl) as [H1 H2].
  split; [done|]. split; [|by split]. eexists. reflexivity.
Defined.

(** C38.  Equal values are on the same segment, also across types: a number
    is hashed alike as [int2], [int4] or [int8], and as any of the object
    identifier types; both zeros of a float type are; and two [bpchar] values
    that [bpeq] finds equal are unless one of them is empty.  Intervals break
    the rule: some that [interval_cmp_internal] finds equal, like 1 day and
    24 hours, are hashed differently, and so is the empty [bpchar] value from
    an equal one of blanks. *)
Theorem equal_values_colocated h :
  (∀ z t t', t ∈ [INT2OID; INT4OID; INT8OID] → t' ∈ [INT2OID; INT4OID; INT8OID] →
     cdbhash h (DInt z) t = cdbhash h (DInt z) t') ∧
  (∀ z t, 0 ≤ z < 2 ^ 32 →
     t ∈ [OIDOID; REGPROCOID; REGPROCEDUREOID; REGOPEROID; REGOPERATOROID; REGCLASSOID;
          REGTYPEOID] →
     cdbhash h (DInt z) t = cdbhash h (DInt z) INT8OID) ∧
  cdbhash h (DFloat (2 ^ 31)) FLOAT4OID = cdbhash h (DFloat 0) FLOAT4OID ∧
  cdbhash h (DFloat (2 ^ 63)) FLOAT8OID = cdbhash h (DFloat 0) FLOAT8OID ∧
  (∀ p q, p ≠ [] → q ≠ [] → bpeq p q = true →
     cdbhash h (DBytes p) BPCHAROID = cdbhash h (DBytes q) BPCHAROID) ∧
  (∃ p q, bpeq p q = true ∧
     cdbhash_const (λ _, pg_type_base) (Some (DBytes p), BPCHAROID) 8 0 ≠
     cdbhash_const (λ _, pg_type_base) (Some (DBytes q), BPCHAROID) 8 0) ∧
  (∃ i j, interval_cmp_internal i j = 0 ∧
     cdbhash_const (λ _, pg_type_base) (Some (DInterval i), INTERVALOID) 8 0 ≠
     cdbhash_const (λ _, pg_type_base) (Some (DInterval j), INTERVALOID) 8 0).
Proof.
  unfold cdbhash, hashDatum. split_and!; [| |done|done| | |].
  - intros z t t' Ht Ht'. by decompose_list_elem_of; subst.
  - intros z t Hz Ht. decompose_list_elem_of; subst; cbn; by rewrite u32_id.
  - intros p q Hp Hq He. cbn. by rewrite (trim_bpeq p q).
  - exists [], [32]. split; [done|]. vm_compute. congruence.
  - exists (mkInterval 0 1 0), (mkInterval USECS_PER_DAY 0 0).
    split; [done|]. vm_compute. congruence.
Qed.

(** C39.  The segment of a row with distribution keys is the FNV-1 hash of
    the bytes of its keys, one after the other, modulo the number of
    segments, whatever rows were routed before; it is between 0 and the number of
    segments, and [FASTMOD] with the multiplication by shifts computes it.
    Constants with the same values are dispatched to the same segment: a
    statement that is sent to one segment only finds the row there. *)
Theorem routing_segment pg_type n h r keys :
  0 < n < 2 ^ 31 → made n h → keys ≠ [] →
  let types := prod_map id (const_type pg_type) <$> keys in
  evalHashKey types h =
    (let* bs := row_bytes types in
     Return (fnv1 FNV1_32_INIT bs mod n, set_hash (fnv1 FNV1_32_INIT bs) h)) ∧
  cdbhash_const_list pg_type keys n r =
    (let* p := evalHashKey types h in Return p.1) ∧
  (∀ c, keys = [c] → cdbhash_const pg_type c n r = cdbhash_const_list pg_type keys n r) ∧
  (∀ seg h', evalHashKey types h = Return (seg, h') → 0 ≤ seg < n ∧ made n h').
Proof.
  intros Hn Hm Hk types. assert (Ht : types ≠ []) by (by destruct keys).
  rewrite (evalHashKey_fnv1 n) by done. split_and!.
  - done.
  - rewrite cdbhash_const_list_fnv1 by done. fold types. by destruct (row_bytes types).
  - intros c ->. apply cdbhash_const_singleton.
  - intros seg h'. destruct (row_bytes types) as [bs|]; cbn; [|done].
    intros [= <- <-]. split; [apply Z.mod_pos_bound; lia|done].
Qed.

Lemma routing_segment_witness :
  cdbhash_const_list (λ _, pg_type_base) [(Some (DInt 42), INT4OID); (None, TEXTOID)] 6 17 =
    (let* p := evalHashKey [(Some (DInt 42), INT4OID); (None, TEXTOID)]
                 (makeCdbHash 6 HASH_FNV_1 5) in Return p.1).
Proof.
  apply (routing_segment (λ _, pg_type_base) 6 (makeCdbHash 6 HASH_FNV_1 5) 17
           [(Some (DInt 42), INT4OID); (None, TEXTOID)]); [lia|done|done].
Defined.

(** C40.  Rows of a relation without a distribution key are spread evenly:
    with 2^k segments, up to 256, as many rows that follow each other go to
    each of the segments once, when the round robin index starts at a multiple
    of the number of segments. *)
Theorem nokey_round_robin k h :
  0 ≤ k ≤ 8 → made (2 ^ k) h →
  0 ≤ rrindex h → rrindex h + 2 ^ k ≤ 2 ^ 32 → rrindex h mod 2 ^ k = 0 →
  ∃ segments, route (Z.to_nat (2 ^ k)) h = Return segments ∧ segments ≡ₚ seqZ 0 (2 ^ k).
Proof.
  intros Hk Hm H0 Hr Ha. assert (Hp : 0 < 2 ^ k ≤ 2 ^ 8).
  { split; [lia|apply Z.pow_le_mono_r; lia]. }
  eexists. split; [apply (route_segments (2 ^ k)); (done || lia)|].
  rewrite Z2Nat.id by lia. by apply window_permutation.
Qed.

Lemma nokey_round_robin_witness :
  ∃ segments, route 8 (makeCdbHash 8 HASH_FNV_1 48) = Return segments ∧
              segments ≡ₚ seqZ 0 8.
Proof.
  apply (nokey_round_robin 3 (makeCdbHash 8 HASH_FNV_1 48)); cbn; (done || lia).
Defined.
