(* ===== verification/ParquetBits.v ===== *)
(** Bytes and bits of Parquet pages: the code of
    backend/cdb/cdbparquetbitstreamutil.c, cdbparquetbytepacker.c and
    cdbparquetrleencoder.c with their headers.

    A page of a Parquet column stores the repetition and definition levels of
    its values with [RLEEncoder], a mix of run lengths and groups of eight
    values packed bit by bit, and the values of a boolean column with
    [ByteBasedBitPackingEncoder].  Only widths of one and two bits are compiled
    in ([NOT_USED] is not defined).

    [int] and [int32_t] are 32-bit signed.  [None] stands for a loop that does
    not end within its fuel, for a shift by the width or more, and for an
    access outside an array of the decoder. *)
From stdpp Require Import prelude numbers list.
From S2P Require Import Prelude.

(** ** Widths *)

Definition paddedByteCountFromBits (bitLength : Z) : Z := Z.quot (s32 (bitLength + 7)) 8.

Definition widthFromMaxInt (bound : Z) : Z :=
  if bound =? 0 then 32
  else
    let '(zeros, bound) :=
      if Z.land bound 0xffff0000 =? 0 then (16, u32 (Z.shiftl bound 16)) else (0, bound) in
    let '(zeros, bound) :=
      if Z.land bound 0xff000000 =? 0 then (zeros + 8, u32 (Z.shiftl bound 8))
      else (zeros, bound) in
    let '(zeros, bound) :=
      if Z.land bound 0xf0000000 =? 0 then (zeros + 4, u32 (Z.shiftl bound 4))
      else (zeros, bound) in
    let '(zeros, bound) :=
      if Z.land bound 0xc0000000 =? 0 then (zeros + 2, u32 (Z.shiftl bound 2))
      else (zeros, bound) in
    let zeros := if Z.land bound 0x80000000 =? 0 then zeros + 1 else zeros in
    u32 (32 - zeros).

(** ** Writer of bytes *)

Record CapacityByteWriter := mkCapacityByteWriter {
  w_buffer : list Z;
  w_bufferPos : Z;
  capacity : Z
}.

Definition CapacityByteWriter_Init (capacity : Z) : CapacityByteWriter :=
  mkCapacityByteWriter (replicate (Z.to_nat capacity) 0) 0 capacity.

(** Enlarging keeps the bytes written so far and clears those behind them. *)
Definition CapacityByteWriter_WriteSingle (writer : CapacityByteWriter) (value : Z)
    : CapacityByteWriter :=
  let pos := Z.to_nat (w_bufferPos writer) in
  let writer :=
    if capacity writer <=? w_bufferPos writer then
      mkCapacityByteWriter
        (take pos (w_buffer writer) ++ replicate (Z.to_nat (capacity writer)) 0)
        (w_bufferPos writer) (s32 (capacity writer * 2))
    else writer in
  mkCapacityByteWriter (<[pos := value]> (w_buffer writer))
    (s32 (w_bufferPos writer + 1)) (capacity writer).

Definition CapacityByteWriter_WriteMany (writer : CapacityByteWriter) (values : list Z)
    (offset len : Z) : CapacityByteWriter :=
  foldl CapacityByteWriter_WriteSingle writer (slice offset len values).

(** ** Integers *)

Fixpoint writeUnsignedVarInt (fuel : nat) (writer : CapacityByteWriter) (value : Z)
    : option CapacityByteWriter :=
  match fuel with
  | 0%nat => None
  | S fuel =>
    if negb (Z.land (u32 value) 0xFFFFFF80 =? 0) then
      writeUnsignedVarInt fuel
        (CapacityByteWriter_WriteSingle writer (u8 (Z.lor (Z.land value 0x7F) 0x80)))
        (Z.shiftr value 7)
    else Some (CapacityByteWriter_WriteSingle writer (u8 (Z.land value 0x7F)))
  end.

(** The number of bytes read and the value. *)
Fixpoint readVarInt_loop (bytes : list Z) (value i : Z) : option (Z * Z) :=
  match bytes with
  | [] => None
  | b :: bytes =>
    if 32 <=? i then None
    else if negb (Z.land b 0x80 =? 0) then
      readVarInt_loop bytes (Z.lor value (s32 (Z.shiftl (Z.land b 0x7f) i))) (i + 7)
    else Some (Z.quot i 7 + 1, Z.lor value (s32 (Z.shiftl b i)))
  end.

Definition readUnsignedVarInt (bytes : list Z) : option (Z * Z) := readVarInt_loop bytes 0 0.

Definition writeIntLittleEndianOnOneByte (out : CapacityByteWriter) (value : Z)
    : CapacityByteWriter :=
  CapacityByteWriter_WriteSingle out (Z.land (Z.shiftr (u32 value) 0) 0xFF).

Definition writeIntLittleEndianOnTwoBytes (out : CapacityByteWriter) (value : Z)
    : CapacityByteWriter :=
  let out := CapacityByteWriter_WriteSingle out (Z.land (Z.shiftr (u32 value) 0) 0xFF) in
  CapacityByteWriter_WriteSingle out (Z.land (Z.shiftr (u32 value) 8) 0xFF).

Definition readIntLittleEndianOnOneByte (bytes : list Z) : option Z := bytes !! 0%nat.

Definition readIntLittleEndianOnTwoBytes (bytes : list Z) : option Z :=
  ch1 ← bytes !! 0%nat;
  ch2 ← bytes !! 1%nat;
  Some (Z.shiftl ch2 8 + Z.shiftl ch1 0).

Definition writeIntLittleEndianPaddedOnBitWidth (writer : CapacityByteWriter)
    (value bitWidth : Z) : CapacityByteWriter :=
  match paddedByteCountFromBits bitWidth with
  | 1 => writeIntLittleEndianOnOneByte writer value
  | 2 => writeIntLittleEndianOnTwoBytes writer value
  | _ => writer
  end.

(** The number of bytes read, and the value, which is left as it is ([None])
    when the width is not supported. *)
Definition readIntLittleEndianPaddedOnBitWidth (bitWidth : Z) (bytes : list Z)
    : option (Z * option Z) :=
  let bytes_to_read := paddedByteCountFromBits bitWidth in
  match bytes_to_read with
  | 1 => val ← readIntLittleEndianOnOneByte bytes; Some (bytes_to_read, Some val)
  | 2 => val ← readIntLittleEndianOnTwoBytes bytes; Some (bytes_to_read, Some val)
  | _ => Some (-1, None)
  end.

(** ** Packing *)

Definition at_ (l : list Z) (i : Z) : Z := default 0 (l !! Z.to_nat i).

Definition pack8Values1Bits (bs : list Z) (inPos : Z) (out : list Z) (outPos : Z) : list Z :=
  let b i := Z.shiftl (Z.land (at_ bs (i + inPos)) 1) i in
  memcpy out outPos
    [u8 (Z.land (Z.lor (Z.lor (Z.lor (Z.lor (Z.lor (Z.lor (Z.lor
       (b 0) (b 1)) (b 2)) (b 3)) (b 4)) (b 5)) (b 6)) (b 7)) 255)].

Definition pack8Values2Bits (bs : list Z) (inPos : Z) (out : list Z) (outPos : Z) : list Z :=
  let b i s := Z.shiftl (Z.land (at_ bs (i + inPos)) 3) s in
  memcpy out outPos
    [u8 (Z.land (Z.lor (Z.lor (Z.lor (b 0 0) (b 1 2)) (b 2 4)) (b 3 6)) 255);
     u8 (Z.land (Z.lor (Z.lor (Z.lor (b 4 0) (b 5 2)) (b 6 4)) (b 7 6)) 255)].

Definition unpack8Values1Bits (bs : list Z) (inPos : Z) (out : list Z) (outPos : Z) : list Z :=
  let i := Z.land (at_ bs inPos) 255 in
  let v s := Z.land (Z.shiftr i s) 1 in
  memcpy out outPos [v 0; v 1; v 2; v 3; v 4; v 5; v 6; v 7].

Definition unpack8Values2Bits (bs : list Z) (inPos : Z) (out : list Z) (outPos : Z) : list Z :=
  let v j s := Z.land (Z.shiftr (Z.land (at_ bs (j + inPos)) 255) s) 3 in
  memcpy out outPos [v 0 0; v 0 2; v 0 4; v 0 6; v 1 0; v 1 2; v 1 4; v 1 6].

(** Other widths write nothing. *)
Definition pack8Values (bitWidth : Z) (bs : list Z) (inPos : Z) (out : list Z) (outPos : Z)
    : list Z :=
  match bitWidth with
  | 1 => pack8Values1Bits bs inPos out outPos
  | 2 => pack8Values2Bits bs inPos out outPos
  | _ => out
  end.

Definition unpack8Values (bitWidth : Z) (bs : list Z) (inPos : Z) (out : list Z) (outPos : Z)
    : list Z :=
  match bitWidth with
  | 1 => unpack8Values1Bits bs inPos out outPos
  | 2 => unpack8Values2Bits bs inPos out outPos
  | _ => out
  end.

(** ** Packed values *)

Record ByteBasedBitPackingEncoder := mkBitPackEncoder {
  be_bitWidth : Z;
  be_buffer : list Z;
  be_bufferPos : Z;
  be_bufferSize : Z;
  be_slabSize : Z;
  inputBuffer : list Z;
  inputBufferPos : Z;
  numValues : Z
}.

Record ByteBasedBitPackingDecoder := mkBitPackDecoder {
  bd_bitWidth : Z;
  bd_encode : list Z;
  encodePos : Z;
  bd_decode : list Z;
  decodePos : Z
}.

Definition pack (e : ByteBasedBitPackingEncoder) : ByteBasedBitPackingEncoder :=
  let '(buffer, bufferSize) :=
    if be_bufferPos e =? be_bufferSize e then
      (be_buffer e ++ replicate (Z.to_nat (be_slabSize e)) 0,
       s32 (be_bufferSize e + be_slabSize e))
    else (be_buffer e, be_bufferSize e) in
  mkBitPackEncoder (be_bitWidth e)
    (pack8Values (be_bitWidth e) (inputBuffer e) 0 buffer (be_bufferPos e))
    (s32 (be_bufferPos e + be_bitWidth e)) bufferSize (be_slabSize e)
    (inputBuffer e) 0 (numValues e).

(** The encoder and the decoder are allocated as zeros; their arrays are not
    touched. *)
Definition BitPack_InitEncoder (bitWidth : Z) : ByteBasedBitPackingEncoder :=
  let slabSize := s32 (bitWidth * 64 * 1024) in
  mkBitPackEncoder bitWidth (replicate (Z.to_nat slabSize) 0) 0 slabSize slabSize
    (replicate 8 0) 0 0.

Definition BitPack_InitDecoder (buffer : list Z) (bitWidth : Z) : ByteBasedBitPackingDecoder :=
  mkBitPackDecoder bitWidth buffer 0 (replicate 8 0) 7.

(** The number of bytes added. *)
Definition BitPack_WriteInt (e : ByteBasedBitPackingEncoder) (value : Z)
    : Z * ByteBasedBitPackingEncoder :=
  let e := mkBitPackEncoder (be_bitWidth e) (be_buffer e) (be_bufferPos e) (be_bufferSize e)
             (be_slabSize e) (<[Z.to_nat (inputBufferPos e) := value]> (inputBuffer e))
             (s32 (inputBufferPos e + 1)) (numValues e) in
  let '(bytes_added, e) :=
    if inputBufferPos e =? 8 then (be_bitWidth e, pack e) else (0, e) in
  (bytes_added,
   mkBitPackEncoder (be_bitWidth e) (be_buffer e) (be_bufferPos e) (be_bufferSize e)
     (be_slabSize e) (inputBuffer e) (inputBufferPos e) (s32 (numValues e + 1))).

Definition BitPack_ReadInt (d : ByteBasedBitPackingDecoder)
    : option (Z * ByteBasedBitPackingDecoder) :=
  let pos := s32 (decodePos d + 1) in
  let d :=
    if pos =? 8 then
      mkBitPackDecoder (bd_bitWidth d) (bd_encode d) (s32 (encodePos d + bd_bitWidth d))
        (unpack8Values (bd_bitWidth d) (bd_encode d) (encodePos d) (bd_decode d) 0) 0
    else mkBitPackDecoder (bd_bitWidth d) (bd_encode d) (encodePos d) (bd_decode d) pos in
  v ← bd_decode d !! Z.to_nat (decodePos d);
  Some (v, d).

(** Zeros from position [i] on. *)
Definition zero_from (i : Z) (l : list Z) : list Z :=
  take (Z.to_nat i) l ++ replicate (length l - Z.to_nat i) 0.

Definition BitPack_Flush (e : ByteBasedBitPackingEncoder) : Z * ByteBasedBitPackingEncoder :=
  if 0 <? inputBufferPos e then
    (be_bitWidth e,
     pack (mkBitPackEncoder (be_bitWidth e) (be_buffer e) (be_bufferPos e) (be_bufferSize e)
             (be_slabSize e) (zero_from (inputBufferPos e) (inputBuffer e)) (inputBufferPos e)
             (numValues e)))
  else (0, e).

Definition BitPack_Size (e : ByteBasedBitPackingEncoder) : Z :=
  paddedByteCountFromBits (s32 (numValues e * be_bitWidth e)).

Definition BitPack_Data (e : ByteBasedBitPackingEncoder) : list Z := be_buffer e.

(** ** Runs *)

Definition BITPACK_RUN_MAX_GROUP_COUNT : Z := 63.
Definition BITPACK_RUN_MAX_VALUE_COUNT : Z := 504.
Definition RDLEVEL_INIT_CAPACITY : Z := 1024.

Record RLEEncoder := mkRLEEncoder {
  re_bitWidth : Z;
  packBuffer : list Z;
  writer : CapacityByteWriter;
  bufferedValues : list Z;
  numBufferedValues : Z;
  previousValue : Z;
  repeatCount : Z;
  bitPackedGroupCount : Z;
  bitPackedRunHeaderPos : Z
}.

Definition RLEEncoder_Init (bitWidth : Z) : RLEEncoder :=
  mkRLEEncoder bitWidth (replicate (Z.to_nat bitWidth) 0)
    (CapacityByteWriter_Init RDLEVEL_INIT_CAPACITY) (replicate 8 0) 0 0 0 0 (-1).

Definition endPreviousBitPackedRun (e : RLEEncoder) : RLEEncoder :=
  if bitPackedRunHeaderPos e =? -1 then e
  else
    let bitPackHeader := u8 (Z.lor (Z.shiftl (bitPackedGroupCount e) 1) 1) in
    let w := writer e in
    mkRLEEncoder (re_bitWidth e) (packBuffer e)
      (mkCapacityByteWriter
         (<[Z.to_nat (bitPackedRunHeaderPos e) := bitPackHeader]> (w_buffer w))
         (w_bufferPos w) (capacity w))
      (bufferedValues e) (numBufferedValues e) (previousValue e) (repeatCount e) 0 (-1).

(** The start of a run: a byte for the header, to be filled in later. *)
Definition start_run (e : RLEEncoder) : RLEEncoder :=
  if bitPackedRunHeaderPos e =? -1 then
    mkRLEEncoder (re_bitWidth e) (packBuffer e) (CapacityByteWriter_WriteSingle (writer e) 0)
      (bufferedValues e) (numBufferedValues e) (previousValue e) (repeatCount e)
      (bitPackedGroupCount e) (w_bufferPos (writer e))
  else e.

Definition writeOrAppendBitPackedRun (e : RLEEncoder) : RLEEncoder :=
  let e := if BITPACK_RUN_MAX_GROUP_COUNT <=? bitPackedGroupCount e
           then endPreviousBitPackedRun e else e in
  let e := start_run e in
  let packBuffer := pack8Values (re_bitWidth e) (bufferedValues e) 0 (packBuffer e) 0 in
  mkRLEEncoder (re_bitWidth e) packBuffer
    (CapacityByteWriter_WriteMany (writer e) packBuffer 0 (re_bitWidth e))
    (bufferedValues e) 0 (previousValue e) 0 (s32 (bitPackedGroupCount e + 1))
    (bitPackedRunHeaderPos e).

(** Five bytes hold every [int] that is not negative. *)
Definition varint_fuel : nat := 5.

Definition writeRLERun (e : RLEEncoder) : option RLEEncoder :=
  let e := endPreviousBitPackedRun e in
  w ← writeUnsignedVarInt varint_fuel (writer e) (s32 (Z.shiftl (repeatCount e) 1));
  let w := writeIntLittleEndianPaddedOnBitWidth w (previousValue e) (re_bitWidth e) in
  Some (mkRLEEncoder (re_bitWidth e) (packBuffer e) w (bufferedValues e) 0
          (previousValue e) 0 (bitPackedGroupCount e) (bitPackedRunHeaderPos e)).

Definition set_repeat (previous count : Z) (e : RLEEncoder) : RLEEncoder :=
  mkRLEEncoder (re_bitWidth e) (packBuffer e) (writer e) (bufferedValues e)
    (numBufferedValues e) previous count (bitPackedGroupCount e) (bitPackedRunHeaderPos e).

Definition set_buffered (values : list Z) (count : Z) (e : RLEEncoder) : RLEEncoder :=
  mkRLEEncoder (re_bitWidth e) (packBuffer e) (writer e) values count (previousValue e)
    (repeatCount e) (bitPackedGroupCount e) (bitPackedRunHeaderPos e).

Definition buffer_value (e : RLEEncoder) (value : Z) : RLEEncoder :=
  let e := set_buffered (<[Z.to_nat (numBufferedValues e) := value]> (bufferedValues e))
             (s32 (numBufferedValues e + 1)) e in
  if numBufferedValues e =? 8 then writeOrAppendBitPackedRun e else e.

Definition RLEEncoder_WriteInt (e : RLEEncoder) (value : Z) : option RLEEncoder :=
  if value =? previousValue e then
    let e := set_repeat (previousValue e) (s32 (repeatCount e + 1)) e in
    if 8 <=? repeatCount e then Some e else Some (buffer_value e value)
  else
    e ← (if 8 <=? repeatCount e then writeRLERun e else Some e);
    Some (buffer_value (set_repeat value 1 e) value).

Definition RLEEncoder_Flush (e : RLEEncoder) : option (Z * RLEEncoder) :=
  e ← (if 8 <=? repeatCount e then writeRLERun e
       else if 0 <? numBufferedValues e then
         let e := set_buffered (zero_from (numBufferedValues e) (bufferedValues e))
                    (numBufferedValues e) e in
         Some (endPreviousBitPackedRun (writeOrAppendBitPackedRun e))
       else Some (endPreviousBitPackedRun e));
  Some (w_bufferPos (writer e), e).

Definition RLEEncoder_Data (e : RLEEncoder) : list Z := w_buffer (writer e).
Definition RLEEncoder_Size (e : RLEEncoder) : Z := w_bufferPos (writer e).

Definition MODE_RLE : Z := 0.
Definition MODE_BITPACK : Z := 1.

Record RLEDecoder := mkRLEDecoder {
  rd_bitWidth : Z;
  input : list Z;
  inputPos : Z;
  inputSize : Z;
  mode : Z;
  valueCount : Z;
  rleValue : Z;
  bitpackBuffer : list Z;
  bitpackBufferSize : Z
}.

(** The decoder is allocated as zeros; the fields after [inputSize] are not
    set. *)
Definition RLEDecoder_Init (bitWidth : Z) (bytes : list Z) (inputSize : Z) : RLEDecoder :=
  mkRLEDecoder bitWidth bytes 0 inputSize 0 0 0
    (replicate (Z.to_nat BITPACK_RUN_MAX_VALUE_COUNT) 0) 0.

(** The groups of a run, [i] values being unpacked. *)
Fixpoint unpack_loop (groups : nat) (d : RLEDecoder) (i : Z) : option RLEDecoder :=
  match groups with
  | 0%nat => Some d
  | S groups =>
    if (BITPACK_RUN_MAX_VALUE_COUNT <? i + 8) || (blen (input d) <? inputPos d + rd_bitWidth d)
    then None
    else
      unpack_loop groups
        (mkRLEDecoder (rd_bitWidth d) (input d) (s32 (inputPos d + rd_bitWidth d)) (inputSize d)
           (mode d) (valueCount d) (rleValue d)
           (unpack8Values (rd_bitWidth d) (input d) (inputPos d) (bitpackBuffer d) i)
           (bitpackBufferSize d))
        (i + 8)
  end.

Definition readNextRun (d : RLEDecoder) : option RLEDecoder :=
  if inputSize d <=? inputPos d then Some d
  else
    '(n, header) ← readUnsignedVarInt (drop (Z.to_nat (inputPos d)) (input d));
    let pos := s32 (inputPos d + n) in
    if Z.land header 1 =? 0 then
      '(n, val) ← readIntLittleEndianPaddedOnBitWidth (rd_bitWidth d)
                    (drop (Z.to_nat pos) (input d));
      Some (mkRLEDecoder (rd_bitWidth d) (input d) (s32 (pos + n)) (inputSize d) MODE_RLE
              (Z.shiftr header 1) (default (rleValue d) val) (bitpackBuffer d)
              (bitpackBufferSize d))
    else
      let valueCount := s32 (Z.shiftr header 1 * 8) in
      unpack_loop (Z.to_nat (valueCount / 8))
        (mkRLEDecoder (rd_bitWidth d) (input d) pos (inputSize d) MODE_BITPACK valueCount
           (rleValue d) (bitpackBuffer d) valueCount) 0.

Definition RLEDecoder_ReadInt (d : RLEDecoder) : option (Z * RLEDecoder) :=
  d ← (if valueCount d =? 0 then readNextRun d else Some d);
  result ← (if mode d =? MODE_RLE then Some (rleValue d)
            else if mode d =? MODE_BITPACK then
              bitpackBuffer d !! Z.to_nat (bitpackBufferSize d - valueCount d)
            else Some (-1));
  Some (result,
        mkRLEDecoder (rd_bitWidth d) (input d) (inputPos d) (inputSize d) (mode d)
          (s32 (valueCount d - 1)) (rleValue d) (bitpackBuffer d) (bitpackBufferSize d)).
