(* ===== verification/ParquetSpec.v ===== *)
(** Parquet levels and booleans read back as they were written.

    [runs] describes encoded data by the runs it is made of.  The encoder
    keeps [enc_inv], which says how the bytes and the pending values make up
    the values written; the decoder keeps [dec_inv], which says what is still
    to be read. *)
From stdpp Require Import prelude numbers list.
From S2P Require Import Prelude ParquetBits.

#[local] Arguments s32 : simpl never.
#[local] Arguments u32 : simpl never.
#[local] Arguments u8 : simpl never.

(** ** The writer *)

Definition written (w : CapacityByteWriter) : list Z :=
  take (Z.to_nat (w_bufferPos w)) (w_buffer w).

(** A buffer of its capacity, which doubles when it is full. *)
Definition writer_ok (w : CapacityByteWriter) : Prop :=
  0 ≤ w_bufferPos w ≤ capacity w ∧ blen (w_buffer w) = capacity w ∧ 0 < capacity w ∧
  (capacity w ≤ RDLEVEL_INIT_CAPACITY ∨ capacity w ≤ 2 * w_bufferPos w).

(** [w'] is [w] with the bytes [bs] written. *)
Definition wrote (w : CapacityByteWriter) (bs : list Z) (w' : CapacityByteWriter) : Prop :=
  writer_ok w' ∧ written w' = written w ++ bs.

Lemma length_written w : writer_ok w → Z.of_nat (length (written w)) = w_bufferPos w.
Proof.
  unfold written, writer_ok, blen. intros (? & ? & _). rewrite length_take. lia.
Qed.

Lemma wrote_pos w bs w' :
  writer_ok w → wrote w bs w' → w_bufferPos w' = w_bufferPos w + Z.of_nat (length bs).
Proof.
  intros Hw [Hw' He]. rewrite <- (length_written w), <- (length_written w') by done.
  rewrite He, length_app. lia.
Qed.

Lemma write_single_ok w v :
  writer_ok w → w_bufferPos w < 2 ^ 30 → wrote w [v] (CapacityByteWriter_WriteSingle w v).
Proof.
  unfold wrote, writer_ok, written, CapacityByteWriter_WriteSingle, RDLEVEL_INIT_CAPACITY.
  destruct w as [b p c]. cbn. intros (Hp & Hb & Hc & Hd) Hs. unfold blen in *.
  assert (Ht : ∀ l : list Z, (Z.to_nat p < length l)%nat → take (Z.to_nat p) l = take (Z.to_nat p) b →
    take (Z.to_nat (p + 1)) (<[Z.to_nat p := v]> l) = take (Z.to_nat p) b ++ [v]).
  { intros l Hl He. replace (Z.to_nat (p + 1)) with (S (Z.to_nat p)) by lia.
    rewrite (take_S_r _ _ v) by (by apply list_lookup_insert_eq).
    by rewrite take_insert_ge, He by lia. }
  destruct (c <=? p) eqn:E; cbn; rewrite (s32_id (p + 1)) by lia.
  - apply Z.leb_le in E. assert (p = c) as -> by lia. rewrite s32_id by lia.
    assert (Hf : take (Z.to_nat c) b = b) by (apply take_ge; lia).
    rewrite Hf, length_insert, length_app, length_replicate.
    split; [lia|]. rewrite Hf in Ht. apply Ht; [rewrite length_app, length_replicate; lia|].
    rewrite take_app_le by lia. done.
  - apply Z.leb_gt in E. rewrite length_insert. split; [lia|]. apply Ht; [lia|done].
Qed.

Lemma wrote_app w bs w' bs' w'' :
  wrote w bs w' → wrote w' bs' w'' → wrote w (bs ++ bs') w''.
Proof. intros [_ He] [Hw He']. split; [done|]. by rewrite He', He, app_assoc. Qed.

Lemma wrote_nil w : writer_ok w → wrote w [] w.
Proof. intros. split; [done|]. by rewrite app_nil_r. Qed.

Lemma fold_write_ok w bs :
  writer_ok w → w_bufferPos w + Z.of_nat (length bs) ≤ 2 ^ 30 →
  wrote w bs (foldl CapacityByteWriter_WriteSingle w bs).
Proof.
  revert w. induction bs as [|b bs IH]; intros w Hw Hp; [by apply wrote_nil|].
  cbn [length] in Hp. cbn [foldl]. pose proof (write_single_ok w b Hw) as H1.
  specialize (H1 ltac:(lia)). pose proof (wrote_pos _ _ _ Hw H1) as Hq.
  apply (wrote_app w [b] _ bs _ H1), IH; [apply H1|]. cbn [length] in Hq. lia.
Qed.

Lemma write_many_ok w bs :
  writer_ok w → w_bufferPos w + Z.of_nat (length bs) ≤ 2 ^ 30 →
  wrote w bs (CapacityByteWriter_WriteMany w bs 0 (Z.of_nat (length bs))).
Proof.
  intros. unfold CapacityByteWriter_WriteMany, slice.
  rewrite Nat2Z.id, drop_0, firstn_all. by apply fold_write_ok.
Qed.

(** ** Variable-length integers *)

(** Seven bits per byte, the lowest first. *)
Fixpoint varint (n : nat) (v : Z) : list Z :=
  match n with
  | 0%nat => []
  | S n => if v <? 128 then [v] else v mod 128 + 128 :: varint n (v / 128)
  end.

Lemma length_varint n v : (length (varint n v) ≤ n)%nat.
Proof. revert v. induction n as [|n IH]; intros v; cbn; [lia|]. case_match; cbn; [lia|]. specialize (IH (v / 128)). lia. Qed.

(** A test of the [k] highest of 32 bits. *)
Lemma high_bits_zero k v :
  0 ≤ k ≤ 32 → 0 ≤ v < 2 ^ 32 →
  (Z.land v (Z.shiftl (Z.ones k) (32 - k)) =? 0) = (v <? 2 ^ (32 - k)).
Proof.
  intros Hk Hv. apply eq_bool_prop_intro. rewrite !Is_true_true, Z.eqb_eq, Z.ltb_lt. split.
  - intros H0. apply (f_equal (λ x, Z.shiftr x (32 - k))) in H0.
    rewrite mask_get, Z.shiftr_0_l in H0 by lia. unfold field_get in H0.
    rewrite Z.land_ones, Z.shiftr_div_pow2 in H0 by lia.
    rewrite Z.mod_small in H0; [by apply Z.div_small_iff in H0; lia|].
    split; [apply Z.div_pos; lia|]. apply Z.div_lt_upper_bound; [lia|].
    rewrite <- Z.pow_add_r by lia. replace (32 - k + k) with 32 by lia. lia.
  - intros Hl. apply Z.bits_inj'. intros i Hi. rewrite Z.land_spec, Z.bits_0.
    destruct (decide (i < 32 - k)).
    + rewrite Z.shiftl_spec_low by lia. apply andb_false_r.
    + by rewrite (range_testbit v (32 - k)) by lia.
Qed.

Lemma more_than_seven_bits v :
  0 ≤ v < 2 ^ 32 → (Z.land (u32 v) 0xFFFFFF80 =? 0) = (v <? 128).
Proof. intros Hv. rewrite u32_id by done. by apply (high_bits_zero 25). Qed.

Lemma low_byte v : 0 ≤ v → u8 (Z.lor (Z.land v 0x7F) 0x80) = v mod 128 + 128.
Proof.
  intros Hv. change 0x7F with (Z.ones 7). rewrite Z.land_ones by lia.
  change 0x80 with (Z.shiftl 1 7). assert (0 ≤ v mod 2 ^ 7 < 2 ^ 7) by (apply Z.mod_pos_bound; lia).
  rewrite lor_shiftl_add by lia. change (Z.shiftl 1 7) with 128. unfold u8.
  rewrite (Z.mod_small (_ + _)) by lia. done.
Qed.

Lemma write_varint_ok n w v :
  writer_ok w → w_bufferPos w + Z.of_nat n ≤ 2 ^ 30 → 0 ≤ v < 2 ^ 31 →
  (0 < n)%nat → v < 2 ^ (7 * Z.of_nat n) →
  ∃ w', writeUnsignedVarInt n w v = Some w' ∧ wrote w (varint n v) w'.
Proof.
  revert w v. induction n as [|n IH]; intros w v Hw Hp Hv H0 Hn; [lia|].
  cbn [writeUnsignedVarInt varint]. rewrite more_than_seven_bits by lia.
  destruct (v <? 128) eqn:E; cbn [negb].
  - apply Z.ltb_lt in E. eexists. split; [done|].
    replace (u8 (Z.land v 0x7F)) with v; [by apply write_single_ok; [|lia]|].
    change 0x7F with (Z.ones 7). rewrite Z.land_ones by lia. unfold u8.
    rewrite !Z.mod_small by (rewrite ?Z.mod_small; lia). done.
  - apply Z.ltb_ge in E. rewrite low_byte by lia.
    pose proof (write_single_ok w (v mod 128 + 128) Hw ltac:(lia)) as H1.
    pose proof (wrote_pos _ _ _ Hw H1) as Hq. cbn [length] in Hq.
    rewrite Z.shiftr_div_pow2 by lia. change (2 ^ 7) with 128.
    destruct (IH (CapacityByteWriter_WriteSingle w (v mod 128 + 128)) (v / 128))
      as (w' & He & Hw').
    + apply H1.
    + lia.
    + divlia.
    + destruct n; [|lia]. change (2 ^ (7 * Z.of_nat 1)) with 128 in Hn. lia.
    + apply Z.div_lt_upper_bound; [lia|]. change 128 with (2 ^ 7).
      rewrite <- Z.pow_add_r by lia. replace (7 + _) with (7 * Z.of_nat (S n)) by lia. done.
    + exists w'. split; [done|]. apply (wrote_app _ [_] _ _ _ H1 Hw').
Qed.

(** A negative number has no last byte. *)
Lemma write_varint_negative n w v : - 2 ^ 31 ≤ v < 0 → writeUnsignedVarInt n w v = None.
Proof.
  revert w v. induction n as [|n IH]; intros w v Hv; [done|]. cbn [writeUnsignedVarInt].
  assert (Hu : Z.land (u32 v) 0xFFFFFF80 ≠ 0).
  { intros H0. apply (f_equal (λ x, Z.testbit x 31)) in H0.
    rewrite Z.land_spec, u32_spec, Z.bits_0 in H0 by lia.
    replace (Z.testbit v 31) with true in H0; [done|].
    symmetry. apply Z.testbit_true; [lia|].
    replace (v / 2 ^ 31) with (-1) by divlia. done. }
  rewrite (proj2 (Z.eqb_neq _ _) Hu). cbn [negb]. apply IH.
  rewrite Z.shiftr_div_pow2 by lia. divlia.
Qed.

Lemma seven_bits x :
  0 ≤ x < 128 → Z.land x 0x80 = 0 ∧ Z.land (x + 128) 0x80 = 128 ∧ Z.land (x + 128) 0x7f = x.
Proof.
  intros Hx. assert (Hall : Forall (λ x, Z.land x 0x80 = 0 ∧ Z.land (x + 128) 0x80 = 128 ∧
    Z.land (x + 128) 0x7f = x) (seqZ 0 128)) by (apply (bool_decide_unpack _); by vm_compute).
  rewrite Forall_forall in Hall. apply Hall, elem_of_seqZ. lia.
Qed.

Lemma read_varint n v t value j :
  0 ≤ j → 7 * j < 32 → 0 ≤ value < 2 ^ (7 * j) → (0 < n)%nat →
  0 ≤ v < 2 ^ (7 * Z.of_nat n) → value + v * 2 ^ (7 * j) < 2 ^ 31 →
  readVarInt_loop (varint n v ++ t) value (7 * j)
    = Some (j + Z.of_nat (length (varint n v)), value + v * 2 ^ (7 * j)).
Proof.
  revert v value j. induction n as [|n IH]; intros v value j Hj Hj' Hval H0 Hv Hs; [lia|].
  assert (Hpos : 0 < 2 ^ (7 * j)) by lia.
  cbn [varint]. destruct (v <? 128) eqn:E; cbn [app readVarInt_loop length].
  - apply Z.ltb_lt in E. rewrite (proj2 (Z.leb_gt _ _) Hj').
    destruct (seven_bits v) as [-> _]; [lia|]. cbn [negb Z.eqb].
    rewrite s32_id by (rewrite Z.shiftl_mul_pow2; nia).
    rewrite lor_shiftl_add, Z.shiftl_mul_pow2 by lia.
    rewrite Z.mul_comm, Z.quot_mul by lia. done.
  - apply Z.ltb_ge in E. rewrite (proj2 (Z.leb_gt _ _) Hj').
    assert (Hm : 0 ≤ v mod 128 < 128) by (apply Z.mod_pos_bound; lia).
    destruct (seven_bits (v mod 128)) as (_ & -> & ->); [done|]. cbn [negb Z.eqb].
    assert (Hd : v = 128 * (v / 128) + v mod 128) by (apply Z.div_mod; lia).
    assert (Hp : 2 ^ (7 * (j + 1)) = 128 * 2 ^ (7 * j)).
    { replace (7 * (j + 1)) with (7 + 7 * j) by lia. by rewrite Z.pow_add_r by lia. }
    rewrite s32_id by (rewrite Z.shiftl_mul_pow2; nia).
    rewrite lor_shiftl_add, Z.shiftl_mul_pow2 by lia.
    replace (7 * j + 7) with (7 * (j + 1)) by lia.
    assert (Hn : (0 < n)%nat).
    { destruct n; [|lia]. change (2 ^ (7 * Z.of_nat 1)) with 128 in Hv. lia. }
    rewrite IH.
    + f_equal. f_equal; [lia|]. rewrite Hp. nia.
    + lia.
    + assert (7 * (j + 1) < 31); [|lia]. apply (Z.pow_lt_mono_r_iff 2); [lia..|]. nia.
    + rewrite Hp. nia.
    + done.
    + split; [divlia|]. apply Z.div_lt_upper_bound; [lia|]. change 128 with (2 ^ 7).
      rewrite <- Z.pow_add_r by lia. replace (7 + _) with (7 * Z.of_nat (S n)) by lia. lia.
    + rewrite Hp. nia.
Qed.

Lemma readUnsignedVarInt_varint v t :
  0 ≤ v < 2 ^ 31 →
  readUnsignedVarInt (varint varint_fuel v ++ t)
    = Some (Z.of_nat (length (varint varint_fuel v)), v).
Proof.
  intros Hv. unfold readUnsignedVarInt, varint_fuel.
  pose proof (read_varint 5 v t 0 0) as H. rewrite Z.mul_1_r in H.
  apply H; cbn; lia.
Qed.

(** ** Groups of eight values *)

Definition width_ok (bw : Z) : Prop := bw = 1 ∨ bw = 2.

Definition value_ok (bw v : Z) : Prop := 0 ≤ v < 2 ^ bw.

Record group_ok (bw : Z) (g : list Z) : Prop := {
  group_length : length g = 8%nat;
  group_values : Forall (value_ok bw) g
}.

(** The bytes of a group. *)
Definition packed (bw : Z) (g : list Z) : list Z :=
  pack8Values bw g 0 (replicate (Z.to_nat bw) 0) 0.

Lemma length_packed bw g : width_ok bw → length (packed bw g) = Z.to_nat bw.
Proof. by intros [-> | ->]. Qed.

Lemma pack8Values_packed bw g out outPos :
  width_ok bw → pack8Values bw g 0 out outPos = memcpy out outPos (packed bw g).
Proof. by intros [-> | ->]. Qed.

Lemma bit_cases v : value_ok 1 v → v = 0 ∨ v = 1.
Proof. unfold value_ok. lia. Qed.

Lemma pair_cases v : value_ok 2 v → v = 0 ∨ v = 1 ∨ v = 2 ∨ v = 3.
Proof. unfold value_ok. lia. Qed.

(** The values of the bytes of a group. *)
Definition unpacked (bw : Z) (bs : list Z) : list Z :=
  unpack8Values bw bs 0 (replicate 8 0) 0.

Lemma at_slice bs pos n j :
  0 ≤ pos → 0 ≤ j < n → at_ (slice pos n bs) j = at_ bs (j + pos).
Proof. intros. unfold at_. rewrite slice_lookup by lia. do 2 f_equal. lia. Qed.

Lemma unpack8Values_unpacked bw bs inPos out outPos :
  width_ok bw → 0 ≤ inPos →
  unpack8Values bw bs inPos out outPos = memcpy out outPos (unpacked bw (slice inPos bw bs)).
Proof.
  intros [-> | ->] H0; unfold unpacked; cbn [unpack8Values].
  - unfold unpack8Values1Bits. rewrite at_slice by lia. done.
  - unfold unpack8Values2Bits. rewrite !Z.add_0_r, !at_slice by lia. done.
Qed.

Lemma unpacked_1 a b c d e f g h :
  Forall (value_ok 1) [a; b; c; d; e; f; g; h] →
  unpacked 1 (packed 1 [a; b; c; d; e; f; g; h]) = [a; b; c; d; e; f; g; h].
Proof.
  rewrite !Forall_cons. intros (Ha & Hb & Hc & Hd & He & Hf & Hg & Hh & _).
  apply bit_cases in Ha as [-> | ->], Hb as [-> | ->], Hc as [-> | ->], Hd as [-> | ->],
    He as [-> | ->], Hf as [-> | ->], Hg as [-> | ->], Hh as [-> | ->]; reflexivity.
Qed.

(** One byte of four values. *)
Lemma unpacked_2 a b c d e f g h :
  Forall (value_ok 2) [a; b; c; d; e; f; g; h] →
  unpacked 2 (packed 2 [a; b; c; d; e; f; g; h]) = [a; b; c; d; e; f; g; h].
Proof.
  assert (Hbyte : ∀ a b c d, Forall (value_ok 2) [a; b; c; d] →
    take 4 (unpacked 2 (packed 2 [a; b; c; d])) = [a; b; c; d] ∧
    drop 4 (unpacked 2 (packed 2 [0; 0; 0; 0; a; b; c; d])) = [a; b; c; d]).
  { clear. intros a b c d. rewrite !Forall_cons. intros (Ha & Hb & Hc & Hd & _).
    apply pair_cases in Ha as [-> |[-> |[-> | ->]]], Hb as [-> |[-> |[-> | ->]]],
      Hc as [-> |[-> |[-> | ->]]], Hd as [-> |[-> |[-> | ->]]]; by split. }
  intros Hf. change [a; b; c; d; e; f; g; h] with ([a; b; c; d] ++ [e; f; g; h]) in Hf.
  apply Forall_app in Hf as [H1 H2]. rewrite <- (take_drop 4 (unpacked 2 _)).
  trans ([a; b; c; d] ++ [e; f; g; h]); [|done]. f_equal.
  - apply (Hbyte a b c d H1).
  - apply (Hbyte e f g h H2).
Qed.

Lemma unpacked_packed bw g : width_ok bw → group_ok bw g → unpacked bw (packed bw g) = g.
Proof.
  intros Hw [Hl Hv]. do 8 (destruct g as [|? g]; [done|]). destruct g; [|done].
  destruct Hw as [-> | ->]; [by apply unpacked_1|by apply unpacked_2].
Qed.

(** ** Runs *)

Inductive run :=
  | RleRun (n v : Z)
  | PackRun (groups : list (list Z)).

Definition run_values (r : run) : list Z :=
  match r with
  | RleRun n v => replicate (Z.to_nat n) v
  | PackRun groups => mjoin groups
  end.

Definition run_bytes (bw : Z) (r : run) : list Z :=
  match r with
  | RleRun n v => varint varint_fuel (n * 2) ++ [v]
  | PackRun groups => Z.of_nat (length groups) * 2 + 1 :: mjoin (packed bw <$> groups)
  end.

Definition run_ok (bw : Z) (r : run) : Prop :=
  match r with
  | RleRun n v => 8 ≤ n < 2 ^ 30 ∧ value_ok bw v
  | PackRun groups => (0 < length groups ≤ 63)%nat ∧ Forall (group_ok bw) groups
  end.

Definition values (runs : list run) : list Z := mjoin (run_values <$> runs).
Definition bytes (bw : Z) (runs : list run) : list Z := mjoin (run_bytes bw <$> runs).

Lemma join_cons {A} (l : list A) ls : mjoin (l :: ls) = l ++ mjoin ls.
Proof. done. Qed.

Lemma values_app runs runs' : values (runs ++ runs') = values runs ++ values runs'.
Proof. unfold values. by rewrite fmap_app, join_app. Qed.

Lemma bytes_app bw runs runs' : bytes bw (runs ++ runs') = bytes bw runs ++ bytes bw runs'.
Proof. unfold bytes. by rewrite fmap_app, join_app. Qed.

Lemma length_groups bw groups :
  Forall (group_ok bw) groups → length (mjoin groups) = (8 * length groups)%nat.
Proof.
  induction 1 as [|g groups Hg _ IH]; [done|].
  rewrite join_cons, length_app, IH, (group_length _ _ Hg). cbn [length]. lia.
Qed.

Lemma length_packed_groups bw groups :
  width_ok bw → length (mjoin (packed bw <$> groups)) = (Z.to_nat bw * length groups)%nat.
Proof.
  intros Hw. induction groups as [|g groups IH]; [cbn; lia|].
  rewrite fmap_cons, join_cons, length_app, IH, length_packed by done. cbn [length]. lia.
Qed.

(** A run has no more bytes than values. *)
Lemma run_bytes_le bw r :
  width_ok bw → run_ok bw r → (length (run_bytes bw r) ≤ length (run_values r))%nat.
Proof.
  intros Hw. destruct r as [n v|groups]; cbn [run_ok run_bytes run_values].
  - intros [Hn _]. rewrite length_app, length_replicate. cbn [length].
    pose proof (length_varint varint_fuel (n * 2)). unfold varint_fuel in *. lia.
  - intros [Hg Hv]. cbn [length]. rewrite length_packed_groups, (length_groups bw) by done.
    destruct Hw; subst; lia.
Qed.

Lemma bytes_le bw runs :
  width_ok bw → Forall (run_ok bw) runs →
  (length (bytes bw runs) ≤ length (values runs))%nat.
Proof.
  intros Hw. induction 1 as [|r runs Hr _ IH]; [done|].
  unfold bytes, values in *. rewrite !fmap_cons, !join_cons, !length_app.
  pose proof (run_bytes_le bw r Hw Hr). lia.
Qed.

(** ** Encoding *)

(** The bytes of a run that is not ended: its header is still 0. *)
Definition open_bytes (bw : Z) (open : list (list Z)) : list Z :=
  match open with
  | [] => []
  | _ => 0 :: mjoin (packed bw <$> open)
  end.

(** The runs in the buffer and the groups of the run that is not ended. *)
Record enc_base (bw : Z) (runs : list run) (open : list (list Z)) (e : RLEEncoder) : Prop := {
  eb_width : re_bitWidth e = bw;
  eb_pack : length (packBuffer e) = Z.to_nat bw;
  eb_writer : writer_ok (writer e);
  eb_buffered : length (bufferedValues e) = 8%nat;
  eb_runs : Forall (run_ok bw) runs;
  eb_open : Forall (group_ok bw) open;
  eb_open_length : (length open ≤ 63)%nat;
  eb_count : bitPackedGroupCount e = Z.of_nat (length open);
  eb_written : written (writer e) = bytes bw runs ++ open_bytes bw open;
  eb_header : bitPackedRunHeaderPos e
    = match open with [] => -1 | _ => Z.of_nat (length (bytes bw runs)) end
}.

(** What an operation on the runs leaves of the values to be written. *)
Definition same_repeat (e e' : RLEEncoder) : Prop :=
  bufferedValues e' = bufferedValues e ∧ numBufferedValues e' = numBufferedValues e ∧
  previousValue e' = previousValue e ∧ repeatCount e' = repeatCount e.

Definition cleared (e e' : RLEEncoder) : Prop :=
  bufferedValues e' = bufferedValues e ∧ numBufferedValues e' = 0 ∧
  previousValue e' = previousValue e ∧ repeatCount e' = 0.

Lemma enc_base_pos bw runs open e :
  width_ok bw → enc_base bw runs open e →
  w_bufferPos (writer e) ≤ Z.of_nat (length (values runs ++ mjoin open)).
Proof.
  intros Hw Hb. rewrite <- length_written, (eb_written _ _ _ _ Hb) by apply Hb.
  rewrite !length_app. pose proof (bytes_le bw runs Hw (eb_runs _ _ _ _ Hb)).
  rewrite (length_groups bw) by apply Hb. destruct open as [|g open]; cbn [open_bytes length].
  - lia.
  - rewrite length_packed_groups by done. cbn [length]. destruct Hw; subst; lia.
Qed.

Lemma header_byte k : 0 ≤ k ≤ 63 → u8 (Z.lor (Z.shiftl k 1) 1) = k * 2 + 1.
Proof.
  intros Hk. rewrite Z.lor_comm, lor_shiftl_add, Z.shiftl_mul_pow2 by lia.
  unfold u8. rewrite Z.mod_small; lia.
Qed.

Lemma end_run_base bw runs open e :
  enc_base bw runs open e →
  ∃ runs', enc_base bw runs' [] (endPreviousBitPackedRun e) ∧
    values runs' = values runs ++ mjoin open ∧ same_repeat e (endPreviousBitPackedRun e).
Proof.
  intros [H1 H2 H3 H4 H5 H6 H7 H8 H9 H10]. unfold endPreviousBitPackedRun.
  destruct open as [|g open].
  - rewrite H10. cbn. exists runs. split; [by constructor|]. by rewrite app_nil_r.
  - rewrite H10. rewrite (proj2 (Z.eqb_neq _ _)) by lia.
    exists (runs ++ [PackRun (g :: open)]). split; [|split; [|done]].
    2: { rewrite values_app. unfold values at 2. cbn. by rewrite app_nil_r. }
    rewrite H8, header_byte by lia.
    constructor; cbn [re_bitWidth packBuffer writer bufferedValues bitPackedGroupCount
      bitPackedRunHeaderPos open_bytes]; try done.
    + destruct (writer e) as [b p c]. unfold writer_ok, blen in *. cbn in *.
      by rewrite length_insert.
    + apply Forall_app. split; [done|]. apply Forall_singleton. cbn [run_ok length] in *.
      split; [lia|done].
    + cbn. lia.
    + rewrite app_nil_r, bytes_app. apply length_written in H3 as Hl.
      unfold written in *. cbn [w_buffer w_bufferPos].
      rewrite Nat2Z.id, take_insert_lt, H9.
      2: { rewrite H9, length_app in Hl. cbn [open_bytes length] in Hl. lia. }
      rewrite insert_app_r_alt, Nat.sub_diag by lia.
      unfold bytes at 3. cbn. by rewrite app_nil_r.
Qed.

Lemma start_run_base bw runs open e :
  width_ok bw → enc_base bw runs open e →
  Z.of_nat (length (values runs ++ mjoin open)) < 2 ^ 29 →
  writer_ok (writer (start_run e)) ∧
  written (writer (start_run e))
    = bytes bw runs ++ 0 :: mjoin (packed bw <$> open) ∧
  bitPackedRunHeaderPos (start_run e) = Z.of_nat (length (bytes bw runs)) ∧
  bitPackedGroupCount (start_run e) = bitPackedGroupCount e ∧
  re_bitWidth (start_run e) = bw ∧ packBuffer (start_run e) = packBuffer e ∧
  same_repeat e (start_run e).
Proof.
  intros Hw Hb Hl. pose proof (enc_base_pos _ _ _ _ Hw Hb) as Hp.
  destruct Hb as [H1 H2 H3 H4 H5 H6 H7 H8 H9 H10]. unfold start_run.
  destruct open as [|g open]; rewrite H10.
  - cbn [Z.eqb Z.opp]. cbn [writer bitPackedRunHeaderPos bitPackedGroupCount re_bitWidth packBuffer].
    destruct (write_single_ok (writer e) 0 H3 ltac:(lia)) as [Hk Hwr].
    rewrite H9, app_nil_r in Hwr. split_and!; try done.
    rewrite <- length_written by done. by rewrite H9, app_nil_r.
  - rewrite (proj2 (Z.eqb_neq _ _)) by lia. split_and!; try done.
Qed.

(** A group is appended to a run that has room for it. *)
Lemma append_group_room bw runs open e :
  width_ok bw → enc_base bw runs open e → (length open < 63)%nat →
  Z.of_nat (length (values runs ++ mjoin open)) < 2 ^ 29 →
  group_ok bw (bufferedValues e) →
  let e' := start_run e in
  let packBuffer := pack8Values (re_bitWidth e') (bufferedValues e') 0 (packBuffer e') 0 in
  enc_base bw runs (open ++ [bufferedValues e])
    (mkRLEEncoder (re_bitWidth e') packBuffer
       (CapacityByteWriter_WriteMany (writer e') packBuffer 0 (re_bitWidth e'))
       (bufferedValues e') 0 (previousValue e') 0 (s32 (bitPackedGroupCount e' + 1))
       (bitPackedRunHeaderPos e')).
Proof.
  intros Hw Hb Hr Hl Hg. pose proof (enc_base_pos _ _ _ _ Hw Hb) as Hp.
  destruct (start_run_base _ _ _ _ Hw Hb Hl) as (W1 & W2 & W3 & W4 & W5 & W6 & W7 & W8 & W9 & W10).
  cbv zeta. rewrite W5, W6, W7, pack8Values_packed by done.
  assert (Hpk : memcpy (packBuffer e) 0 (packed bw (bufferedValues e)) = packed bw (bufferedValues e)).
  { pose proof (eb_pack _ _ _ _ Hb) as Hlen.
    pose proof (slice_memcpy_same (packBuffer e) 0 bw (packed bw (bufferedValues e))) as Hs.
    unfold slice in Hs. rewrite drop_0, take_ge in Hs by (rewrite length_memcpy; lia).
    apply Hs; [lia|rewrite length_packed by done|unfold blen]; destruct Hw; subst; lia. }
  rewrite Hpk. pose proof (length_packed bw (bufferedValues e) Hw) as Hlp.
  assert (Hbw : bw = Z.of_nat (length (packed bw (bufferedValues e)))) by (destruct Hw; subst; lia).
  assert (Hpos : w_bufferPos (writer (start_run e)) + Z.of_nat (length (packed bw (bufferedValues e))) ≤ 2 ^ 30).
  { rewrite <- length_written, W2, <- Hbw by done. rewrite !length_app. cbn [length].
    rewrite length_packed_groups by done.
    pose proof (bytes_le bw runs Hw (eb_runs _ _ _ _ Hb)). rewrite length_app in Hl.
    destruct Hw; subst; lia. }
  destruct (write_many_ok _ _ W1 Hpos) as [V1 V2]. rewrite <- Hbw in V1, V2.
  destruct Hb as [H1 H2 H3 H4 H5 H6 H7 H8 H9 H10].
  constructor; cbn [re_bitWidth packBuffer writer bufferedValues bitPackedGroupCount
    bitPackedRunHeaderPos]; try done.
  - by apply Forall_app_2; [|apply Forall_singleton].
  - rewrite length_app. cbn. lia.
  - rewrite W4, H8, length_app. cbn [length]. rewrite s32_id; lia.
  - rewrite V2, W2. destruct open as [|g open]; cbn; [by rewrite app_nil_r, <- app_assoc|].
    rewrite fmap_app, join_app. cbn. rewrite app_nil_r, <- !app_assoc. cbn.
    by rewrite <- !app_assoc.
  - rewrite W3. by destruct open.
Qed.

Lemma append_group_base bw runs open e :
  width_ok bw → enc_base bw runs open e →
  Z.of_nat (length (values runs ++ mjoin open)) < 2 ^ 29 →
  group_ok bw (bufferedValues e) →
  ∃ runs' open', enc_base bw runs' open' (writeOrAppendBitPackedRun e) ∧
    values runs' ++ mjoin open' = values runs ++ mjoin open ++ bufferedValues e ∧
    cleared e (writeOrAppendBitPackedRun e).
Proof.
  intros Hw Hb Hl Hg. unfold writeOrAppendBitPackedRun, BITPACK_RUN_MAX_GROUP_COUNT.
  destruct (63 <=? bitPackedGroupCount e) eqn:E.
  - destruct (end_run_base _ _ _ _ Hb) as (runs' & Hb' & Hv & S1 & S2 & S3 & S4).
    rewrite <- S1 in Hg. exists runs', ([] ++ [bufferedValues (endPreviousBitPackedRun e)]).
    assert (Hl' : Z.of_nat (length (values runs' ++ mjoin [])) < 2 ^ 29)
      by (by rewrite app_nil_r, Hv).
    destruct (start_run_base _ _ _ _ Hw Hb' Hl') as (_ & _ & _ & _ & _ & _ & T1 & T2 & T3 & T4).
    split; [apply append_group_room; [done|done|cbn; lia|done|done]|].
    split; [cbn; by rewrite app_nil_r, Hv, S1, app_assoc|].
    split_and!; cbn; [by rewrite T1, S1|done|by rewrite T3, S3|done].
  - apply Z.leb_gt in E. rewrite (eb_count _ _ _ _ Hb) in E.
    destruct (start_run_base _ _ _ _ Hw Hb Hl) as (_ & _ & _ & _ & _ & _ & T1 & T2 & T3 & T4).
    exists runs, (open ++ [bufferedValues e]).
    split; [apply append_group_room; [done|done|lia|done|done]|].
    split; [rewrite join_app; cbn; by rewrite app_nil_r|].
    split_and!; cbn; [by rewrite T1|done|by rewrite T3|done].
Qed.

Lemma write_level_ok bw w v :
  width_ok bw → value_ok bw v → writer_ok w → w_bufferPos w < 2 ^ 30 →
  wrote w [v] (writeIntLittleEndianPaddedOnBitWidth w v bw).
Proof.
  intros Hw Hv Hk Hp. unfold writeIntLittleEndianPaddedOnBitWidth.
  replace (paddedByteCountFromBits bw) with 1 by (by destruct Hw; subst).
  unfold writeIntLittleEndianOnOneByte.
  assert (0 ≤ v < 4) by (unfold value_ok in Hv; destruct Hw; subst; lia).
  rewrite u32_id, Z.shiftr_0_r by lia. change 0xFF with (Z.ones 8).
  rewrite Z.land_ones, Z.mod_small by lia. by apply write_single_ok.
Qed.

Lemma rle_run_base bw runs open e :
  width_ok bw → enc_base bw runs open e →
  Z.of_nat (length (values runs ++ mjoin open)) < 2 ^ 29 →
  8 ≤ repeatCount e < 2 ^ 29 → value_ok bw (previousValue e) →
  ∃ e' runs', writeRLERun e = Some e' ∧ enc_base bw runs' [] e' ∧
    values runs'
      = values runs ++ mjoin open ++ replicate (Z.to_nat (repeatCount e)) (previousValue e) ∧
    cleared e e'.
Proof.
  intros Hw Hb Hl Hr Hv. unfold writeRLERun.
  destruct (end_run_base _ _ _ _ Hb) as (runs' & Hb' & Hvs & S1 & S2 & S3 & S4).
  pose proof (enc_base_pos _ _ _ _ Hw Hb') as Hp. rewrite app_nil_r, Hvs in Hp.
  set (e1 := endPreviousBitPackedRun e) in *. rewrite S3, S4.
  rewrite Z.shiftl_mul_pow2, s32_id by lia. change (2 ^ 1) with 2.
  destruct (write_varint_ok varint_fuel (writer e1) (repeatCount e * 2)) as (w & -> & Hwr);
    [apply Hb'|unfold varint_fuel; lia..|].
  cbn [mbind option_bind].
  pose proof (wrote_pos _ _ _ (eb_writer _ _ _ _ Hb') Hwr) as Hq.
  pose proof (length_varint varint_fuel (repeatCount e * 2)) as Hlv. unfold varint_fuel at 2 in Hlv.
  destruct (write_level_ok bw w (previousValue e) Hw Hv ltac:(apply Hwr) ltac:(lia)) as [X1 X2].
  destruct Hb' as [H1 H2 H3 H4 H5 H6 H7 H8 H9 H10]. destruct Hwr as [Y1 Y2].
  eexists _, (runs' ++ [RleRun (repeatCount e) (previousValue e)]).
  split; [done|]. split; [|split].
  - rewrite H1. constructor; cbn [re_bitWidth packBuffer writer bufferedValues
      bitPackedGroupCount bitPackedRunHeaderPos]; try done.
    + apply Forall_app. split; [done|]. apply Forall_singleton. cbn. split; [lia|done].
    + rewrite X2, Y2, H9. cbn [open_bytes]. rewrite !app_nil_r, bytes_app, <- app_assoc.
      unfold bytes at 3. cbn [fmap list_fmap run_bytes]. rewrite join_cons. cbn. by rewrite app_nil_r.
  - rewrite values_app, Hvs. unfold values at 2. cbn. by rewrite app_nil_r, <- app_assoc.
  - split_and!; cbn; [by rewrite S1|done|done|done].
Qed.

(** The values that are not in a group or a run yet: they are buffered, or
    repeat a value too often to be packed. *)
Definition pending (e : RLEEncoder) : list Z :=
  if 8 <=? repeatCount e then replicate (Z.to_nat (repeatCount e)) (previousValue e)
  else take (Z.to_nat (numBufferedValues e)) (bufferedValues e).

(** Buffered values end with the repeated ones. *)
Definition buffer_ok (e : RLEEncoder) (n : Z) : Prop :=
  0 ≤ numBufferedValues e < 8 ∧ 0 ≤ n ≤ numBufferedValues e ∧
  ∃ pre, take (Z.to_nat (numBufferedValues e)) (bufferedValues e)
         = pre ++ replicate (Z.to_nat n) (previousValue e).

Record enc_inv (bw : Z) (vs : list Z) (e : RLEEncoder) : Prop := {
  ei_base : ∃ runs open, enc_base bw runs open e ∧
    vs = values runs ++ mjoin open ++ pending e;
  ei_pending : Forall (value_ok bw) (pending e);
  ei_repeat : 8 ≤ repeatCount e ∨ buffer_ok e (repeatCount e)
}.

Lemma pending_buffered e :
  repeatCount e < 8 → pending e = take (Z.to_nat (numBufferedValues e)) (bufferedValues e).
Proof. intros H. unfold pending. by rewrite (proj2 (Z.leb_gt _ _) H). Qed.

Lemma pending_repeated e :
  8 ≤ repeatCount e → pending e = replicate (Z.to_nat (repeatCount e)) (previousValue e).
Proof. intros H. unfold pending. by rewrite (proj2 (Z.leb_le _ _) H). Qed.

Lemma enc_inv_cleared bw vs e :
  (∃ runs open, enc_base bw runs open e ∧ vs = values runs ++ mjoin open) →
  numBufferedValues e = 0 → repeatCount e = 0 → enc_inv bw vs e.
Proof.
  intros (runs & open & Hb & ->) Hn Hr.
  assert (Hp : pending e = []) by (rewrite pending_buffered, Hn by lia; done).
  constructor; rewrite ?Hp.
  - exists runs, open. by rewrite app_nil_r.
  - constructor.
  - right. unfold buffer_ok. rewrite Hn, Hr. split; [lia|]. split; [lia|]. by exists [].
Qed.

Lemma take_insert_snoc (l : list Z) (n v : Z) :
  0 ≤ n → n < Z.of_nat (length l) →
  take (Z.to_nat (n + 1)) (<[Z.to_nat n := v]> l) = take (Z.to_nat n) l ++ [v].
Proof.
  intros. replace (Z.to_nat (n + 1)) with (S (Z.to_nat n)) by lia.
  rewrite (take_S_r _ _ v) by (apply list_lookup_insert_eq; lia).
  by rewrite take_insert_ge by lia.
Qed.

Lemma replicate_snoc n (v : Z) : 0 ≤ n →
  replicate (Z.to_nat (n + 1)) v = replicate (Z.to_nat n) v ++ [v].
Proof.
  intros. replace (Z.to_nat (n + 1)) with (Z.to_nat n + 1)%nat by lia.
  by rewrite replicate_add.
Qed.

Lemma set_buffered_base bw runs open e l n :
  enc_base bw runs open e → length l = 8%nat → enc_base bw runs open (set_buffered l n e).
Proof. intros [] Hl. by constructor. Qed.

Lemma set_repeat_base bw runs open e p n :
  enc_base bw runs open e → enc_base bw runs open (set_repeat p n e).
Proof. intros []. by constructor. Qed.

(** Buffering the value that was counted last. *)
Lemma buffer_value_inv bw runs open e :
  width_ok bw → enc_base bw runs open e → 1 ≤ repeatCount e < 8 →
  buffer_ok e (repeatCount e - 1) → value_ok bw (previousValue e) →
  Forall (value_ok bw) (take (Z.to_nat (numBufferedValues e)) (bufferedValues e)) →
  Z.of_nat (length (values runs ++ mjoin open)) < 2 ^ 29 →
  enc_inv bw (values runs ++ mjoin open ++
              take (Z.to_nat (numBufferedValues e)) (bufferedValues e) ++ [previousValue e])
    (buffer_value e (previousValue e)).
Proof.
  intros Hw Hb Hr (Hn & Hr' & pre & Hpre) Hv Hvs Hl. unfold buffer_value.
  pose proof (eb_buffered _ _ _ _ Hb) as H8.
  set (l := <[Z.to_nat (numBufferedValues e) := previousValue e]> (bufferedValues e)).
  assert (Hsnoc := take_insert_snoc (bufferedValues e) (numBufferedValues e) (previousValue e)
                     ltac:(lia) ltac:(lia)). fold l in Hsnoc. rewrite <- Hsnoc.
  rewrite s32_id by lia.
  assert (Hlen : length l = 8%nat) by (unfold l; by rewrite length_insert).
  pose proof (set_buffered_base _ _ _ e l (numBufferedValues e + 1) Hb Hlen) as Hb'.
  assert (Hall : Forall (value_ok bw) (take (Z.to_nat (numBufferedValues e + 1)) l)).
  { rewrite Hsnoc. by apply Forall_app_2; [|apply Forall_singleton]. }
  cbn [set_buffered numBufferedValues].
  destruct (numBufferedValues e + 1 =? 8) eqn:E.
  - apply Z.eqb_eq in E. rewrite E in *. rewrite take_ge in Hall |- * by lia.
    destruct (append_group_base bw runs open _ Hw Hb' Hl) as (runs' & open' & Hb2 & Hvals & C).
    { by constructor. }
    apply enc_inv_cleared; [|apply C..]. exists runs', open'. split; [done|]. by rewrite Hvals.
  - apply Z.eqb_neq in E.
    assert (Hp : pending (set_buffered l (numBufferedValues e + 1) e)
                 = take (Z.to_nat (numBufferedValues e + 1)) l)
      by (apply pending_buffered; cbn; lia).
    constructor.
    + exists runs, open. split; [done|]. by rewrite Hp.
    + by rewrite Hp.
    + right. unfold buffer_ok. cbn. split; [lia|]. split; [lia|]. exists pre.
      rewrite Hsnoc, Hpre, <- app_assoc, <- replicate_snoc by lia.
      do 3 f_equal. lia.
Qed.

Lemma repeat_pending bw runs open e :
  enc_base bw runs open e → 8 ≤ repeatCount e ∨ buffer_ok e (repeatCount e) →
  0 ≤ repeatCount e ≤ Z.of_nat (length (pending e)) ∧
  (7 ≤ repeatCount e → pending e = replicate (Z.to_nat (repeatCount e)) (previousValue e)).
Proof.
  intros Hb [Hr|(Hn & Hr & pre & Hpre)].
  - rewrite pending_repeated, length_replicate by done. split; [lia|done].
  - rewrite pending_buffered by lia. rewrite length_take, (eb_buffered _ _ _ _ Hb).
    split; [lia|]. intros H7. rewrite Hpre. destruct pre as [|x pre]; [done|].
    apply (f_equal length) in Hpre. rewrite length_take, length_app, length_replicate in Hpre.
    cbn [length] in Hpre. lia.
Qed.

Lemma write_same_inv bw vs e :
  width_ok bw → enc_inv bw vs e → value_ok bw (previousValue e) →
  Z.of_nat (length vs) < 2 ^ 29 - 1 →
  ∃ e', RLEEncoder_WriteInt e (previousValue e) = Some e' ∧
        enc_inv bw (vs ++ [previousValue e]) e'.
Proof.
  intros Hw [(runs & open & Hb & ->) Hp Hr] Hv Hl. rewrite !length_app in Hl.
  unfold RLEEncoder_WriteInt. rewrite Z.eqb_refl. cbn [set_repeat repeatCount].
  destruct (repeat_pending _ _ _ _ Hb Hr) as [Hlen H7]. rewrite s32_id by lia.
  pose proof (set_repeat_base _ _ _ e (previousValue e) (repeatCount e + 1) Hb) as Hb'.
  destruct (8 <=? repeatCount e + 1) eqn:E8.
  - apply Z.leb_le in E8. eexists. split; [done|].
    assert (Hp' : pending (set_repeat (previousValue e) (repeatCount e + 1) e)
                  = pending e ++ [previousValue e]).
    { rewrite H7, pending_repeated by (done || lia). cbn. apply replicate_snoc. lia. }
    constructor; [|rewrite Hp'; by apply Forall_app_2; [|apply Forall_singleton]|by left].
    exists runs, open. split; [done|]. by rewrite Hp', !app_assoc.
  - apply Z.leb_gt in E8. destruct Hr as [Hr|Hr]; [lia|].
    rewrite pending_buffered in * by lia. eexists. split; [done|].
    pose proof (buffer_value_inv bw runs open _ Hw Hb') as Hi. cbn in Hi.
    rewrite <- !app_assoc. apply Hi; [lia| |done|done|rewrite length_app; lia].
    unfold buffer_ok in *. cbn. by replace (repeatCount e + 1 - 1) with (repeatCount e) by lia.
Qed.

Lemma write_new_inv bw vs e v :
  width_ok bw → enc_inv bw vs e → value_ok bw v → v ≠ previousValue e →
  Z.of_nat (length vs) < 2 ^ 29 - 1 →
  ∃ e', RLEEncoder_WriteInt e v = Some e' ∧ enc_inv bw (vs ++ [v]) e'.
Proof.
  intros Hw [(runs & open & Hb & ->) Hp Hr] Hv Hne Hl. rewrite !length_app in Hl.
  unfold RLEEncoder_WriteInt. rewrite (proj2 (Z.eqb_neq _ _) Hne).
  destruct (8 <=? repeatCount e) eqn:E8.
  - apply Z.leb_le in E8. rewrite pending_repeated in * by done.
    rewrite length_replicate in Hl.
    destruct (rle_run_base bw runs open e Hw Hb) as (e' & runs' & He & Hb' & Hvs & C).
    { rewrite length_app. lia. }
    { lia. }
    { destruct (Z.to_nat (repeatCount e)) eqn:?; [lia|]. by inversion Hp. }
    rewrite He. cbn [mbind option_bind]. eexists. split; [done|].
    destruct C as (C1 & C2 & C3 & C4).
    pose proof (buffer_value_inv bw runs' [] _ Hw (set_repeat_base _ _ _ e' v 1 Hb')) as Hi.
    cbn in Hi. rewrite C2 in Hi. cbn in Hi. rewrite app_nil_r in Hi.
    rewrite <- Hvs. apply Hi; [lia| |done|constructor|].
    + unfold buffer_ok. cbn. rewrite C2. split; [lia|]. split; [lia|]. by exists [].
    + rewrite Hvs, !length_app, length_replicate. lia.
  - apply Z.leb_gt in E8. destruct Hr as [Hr|(Hn & Hr & _)]; [lia|].
    rewrite pending_buffered in * by lia. cbn [mbind option_bind]. eexists. split; [done|].
    pose proof (buffer_value_inv bw runs open _ Hw (set_repeat_base _ _ _ e v 1 Hb)) as Hi.
    cbn in Hi. rewrite <- !app_assoc. apply Hi; [lia| |done|done|rewrite length_app; lia].
    unfold buffer_ok. cbn. split; [lia|]. split; [lia|]. eexists. by rewrite app_nil_r.
Qed.

Lemma write_int_inv bw vs e v :
  width_ok bw → enc_inv bw vs e → value_ok bw v → Z.of_nat (length vs) < 2 ^ 29 - 1 →
  ∃ e', RLEEncoder_WriteInt e v = Some e' ∧ enc_inv bw (vs ++ [v]) e'.
Proof.
  intros Hw Hi Hv Hl. destruct (decide (v = previousValue e)) as [->|];
    [by apply write_same_inv|by apply write_new_inv].
Qed.

Lemma rle_init_inv bw : width_ok bw → enc_inv bw [] (RLEEncoder_Init bw).
Proof.
  intros Hw. apply enc_inv_cleared; [|done..]. exists [], []. split; [|done].
  constructor; try done.
  - cbn. by rewrite length_replicate.
  - unfold writer_ok, blen. cbn [RLEEncoder_Init writer CapacityByteWriter_Init w_buffer
      w_bufferPos capacity]. rewrite length_replicate. unfold RDLEVEL_INIT_CAPACITY. lia.
  - cbn. lia.
Qed.

Fixpoint write_ints (vs : list Z) (e : RLEEncoder) : option RLEEncoder :=
  match vs with
  | [] => Some e
  | v :: vs => e ← RLEEncoder_WriteInt e v; write_ints vs e
  end.

Lemma write_ints_inv bw vs vs' e :
  width_ok bw → enc_inv bw vs e → Forall (value_ok bw) vs' →
  Z.of_nat (length vs) + Z.of_nat (length vs') < 2 ^ 29 →
  ∃ e', write_ints vs' e = Some e' ∧ enc_inv bw (vs ++ vs') e'.
Proof.
  intros Hw. revert vs e. induction vs' as [|v vs' IH]; intros vs e Hi Hv Hl.
  { exists e. by rewrite app_nil_r. }
  cbn [length] in Hl. apply Forall_cons in Hv as [Hv Hvs].
  destruct (write_int_inv bw vs e v Hw Hi Hv) as (e1 & He & Hi1); [lia|].
  destruct (IH (vs ++ [v]) e1 Hi1 Hvs) as (e2 & He2 & Hi2).
  { rewrite length_app. cbn [length]. lia. }
  exists e2. cbn. rewrite He. cbn. split; [done|]. by rewrite <- app_assoc in Hi2.
Qed.

(** Flushing pads the last group with zeros. *)
Lemma flush_inv bw vs e :
  width_ok bw → enc_inv bw vs e → Z.of_nat (length vs) < 2 ^ 29 →
  ∃ e' runs pad, RLEEncoder_Flush e = Some (RLEEncoder_Size e', e') ∧
    enc_base bw runs [] e' ∧ values runs = vs ++ replicate pad 0 ∧ (pad < 8)%nat.
Proof.
  intros Hw [(runs & open & Hb & ->) Hp Hr] Hl. rewrite !length_app in Hl.
  unfold RLEEncoder_Flush. destruct (8 <=? repeatCount e) eqn:E8.
  - apply Z.leb_le in E8. rewrite pending_repeated in * by done. rewrite length_replicate in Hl.
    destruct (rle_run_base bw runs open e Hw Hb) as (e' & runs' & He & Hb' & Hvs & _).
    { rewrite length_app. lia. }
    { lia. }
    { destruct (Z.to_nat (repeatCount e)) eqn:?; [lia|]. by inversion Hp. }
    exists e', runs', 0%nat. rewrite He. cbn. rewrite app_nil_r. split_and!; [done..|lia].
  - apply Z.leb_gt in E8. destruct Hr as [Hr|(Hn & Hr & _)]; [lia|].
    rewrite pending_buffered in * by lia. pose proof (eb_buffered _ _ _ _ Hb) as H8.
    destruct (0 <? numBufferedValues e) eqn:E0.
    + apply Z.ltb_lt in E0.
      set (l := zero_from (numBufferedValues e) (bufferedValues e)).
      assert (Hll : length l = 8%nat).
      { unfold l, zero_from. rewrite length_app, length_take, length_replicate. lia. }
      pose proof (set_buffered_base _ _ _ e l (numBufferedValues e) Hb Hll) as Hb1.
      destruct (append_group_base bw runs open _ Hw Hb1) as (runs1 & open1 & Hb2 & Hvs & _).
      { rewrite length_app. lia. }
      { constructor; [done|]. apply Forall_app_2; [done|]. apply Forall_replicate.
        unfold value_ok. destruct Hw; subst; lia. }
      destruct (end_run_base _ _ _ _ Hb2) as (runs2 & Hb3 & Hvs2 & _).
      eexists _, runs2, _. split; [done|]. split; [done|]. rewrite Hvs2, Hvs.
      cbn [set_buffered bufferedValues]. unfold l, zero_from. rewrite <- !app_assoc.
      split; [done|]. lia.
    + apply Z.ltb_ge in E0. destruct (end_run_base _ _ _ _ Hb) as (runs2 & Hb3 & Hvs2 & _).
      eexists _, runs2, 0%nat. split; [done|]. split; [done|]. rewrite Hvs2.
      replace (numBufferedValues e) with 0 by lia. cbn. rewrite !app_nil_r. split; [done|lia].
Qed.

(** ** Decoding *)

(** What is left of the current run. *)
Definition current (d : RLEDecoder) : list Z :=
  if mode d =? MODE_RLE then replicate (Z.to_nat (valueCount d)) (rleValue d)
  else drop (Z.to_nat (bitpackBufferSize d - valueCount d))
         (take (Z.to_nat (bitpackBufferSize d)) (bitpackBuffer d)).

Record dec_inv (bw : Z) (vs : list Z) (d : RLEDecoder) : Prop := {
  di_width : rd_bitWidth d = bw;
  di_pos : 0 ≤ inputPos d;
  di_size : inputSize d < 2 ^ 30;
  di_input : ∃ runs t, Forall (run_ok bw) runs ∧
    drop (Z.to_nat (inputPos d)) (input d) = bytes bw runs ++ t ∧
    inputSize d = inputPos d + Z.of_nat (length (bytes bw runs)) ∧
    vs = current d ++ values runs;
  di_buffer : length (bitpackBuffer d) = 504%nat;
  di_count : 0 ≤ valueCount d < 2 ^ 31;
  di_mode : mode d = MODE_RLE ∨
    mode d = MODE_BITPACK ∧ valueCount d ≤ bitpackBufferSize d ≤ 504
}.

(** The groups of a run are unpacked behind what the buffer holds. *)
Lemma unpack_loop_ok bw groups t d (i : nat) :
  width_ok bw → rd_bitWidth d = bw → Forall (group_ok bw) groups → 0 ≤ inputPos d →
  inputPos d + Z.of_nat (Z.to_nat bw * length groups) < 2 ^ 30 →
  drop (Z.to_nat (inputPos d)) (input d) = mjoin (packed bw <$> groups) ++ t →
  (8 * i + 8 * length groups ≤ 504)%nat → length (bitpackBuffer d) = 504%nat →
  ∃ buffer, length buffer = 504%nat ∧
    take (8 * i + 8 * length groups) buffer = take (8 * i) (bitpackBuffer d) ++ mjoin groups ∧
    unpack_loop (length groups) d (8 * Z.of_nat i)
    = Some (mkRLEDecoder bw (input d)
              (inputPos d + Z.of_nat (Z.to_nat bw * length groups)) (inputSize d) (mode d)
              (valueCount d) (rleValue d) buffer (bitpackBufferSize d)).
Proof.
  intros Hw. revert d i. induction groups as [|g groups IH]; intros d i Hd Hg H0 Hs Hin Hi Hb.
  { exists (bitpackBuffer d). destruct d as [bw' inp pos sz md vc rv buf bs].
    cbn [length unpack_loop inputPos input rd_bitWidth bitpackBuffer] in *. subst.
    split; [done|]. rewrite Nat.mul_0_r, Nat.add_0_r. cbn. by rewrite app_nil_r, Nat.mul_0_r, Z.add_0_r. }
  apply Forall_cons in Hg as [Hg Hgs]. cbn [length] in Hs, Hi.
  assert (Hbw : 0 < bw) by (destruct Hw; lia).
  rewrite fmap_cons, join_cons, <- app_assoc in Hin. cbn [unpack_loop length].
  pose proof (length_packed bw g Hw) as Hlp.
  assert (Hlen : inputPos d + bw ≤ blen (input d)).
  { apply (f_equal length) in Hin. rewrite length_drop, length_app, Hlp in Hin. unfold blen. lia. }
  unfold BITPACK_RUN_MAX_VALUE_COUNT.
  rewrite (proj2 (Z.ltb_ge 504 _)), Hd, (proj2 (Z.ltb_ge (blen _) _)) by lia. cbn [orb].
  rewrite s32_id by lia. rewrite unpack8Values_unpacked by done.
  assert (Hsl : slice (inputPos d) bw (input d) = packed bw g).
  { unfold slice. rewrite Hin, <- Hlp. apply take_app_length. }
  rewrite Hsl, unpacked_packed by done.
  assert (H8 : length g = 8%nat) by apply Hg.
  replace (8 * Z.of_nat i + 8) with (8 * Z.of_nat (S i)) by lia.
  set (d' := mkRLEDecoder _ _ _ _ _ _ _ _ _).
  destruct (IH d' (S i)) as (buffer & Hl & Ht & He); unfold d' in *; clear d';
    cbn [rd_bitWidth inputPos input bitpackBuffer] in *.
  - done.
  - done.
  - lia.
  - lia.
  - rewrite Z2Nat.inj_add, <- drop_drop, Hin by lia. rewrite <- Hlp. apply drop_app_length.
  - lia.
  - by rewrite length_memcpy.
  - exists buffer. split; [done|]. split.
    + replace (8 * i + 8 * S (length groups))%nat with (8 * S i + 8 * length groups)%nat by lia.
      rewrite Ht, join_cons, memcpy_alt by (unfold blen; lia).
      rewrite (app_assoc _ g (mjoin groups)), (app_assoc _ g (drop _ _)). f_equal.
      replace (Z.to_nat (8 * Z.of_nat i)) with (8 * i)%nat by lia.
      rewrite take_app_le by (rewrite length_app, length_take; lia).
      apply take_ge. rewrite length_app, length_take. lia.
    + rewrite He. do 2 f_equal. lia.
Qed.

Lemma land_1 x : Z.land x 1 = x mod 2.
Proof. by apply (Z.land_ones x 1). Qed.

Lemma shiftr_1 x : Z.shiftr x 1 = x / 2.
Proof. by rewrite Z.shiftr_div_pow2. Qed.

Lemma read_rle_run bw d n x rest :
  width_ok bw → rd_bitWidth d = bw → 0 ≤ inputPos d → inputSize d < 2 ^ 30 →
  run_ok bw (RleRun n x) →
  inputPos d + Z.of_nat (length (run_bytes bw (RleRun n x))) ≤ inputSize d →
  drop (Z.to_nat (inputPos d)) (input d) = run_bytes bw (RleRun n x) ++ rest →
  readNextRun d
    = Some (mkRLEDecoder bw (input d)
              (inputPos d + Z.of_nat (length (run_bytes bw (RleRun n x)))) (inputSize d)
              MODE_RLE n x (bitpackBuffer d) (bitpackBufferSize d)).
Proof.
  cbn [run_ok run_bytes]. intros Hw Hd H0 Hs [Hn Hv] Hl Hin. unfold readNextRun.
  rewrite length_app in *. cbn [length] in *.
  rewrite (proj2 (Z.leb_gt _ _)) by lia. rewrite Hin, <- app_assoc.
  rewrite readUnsignedVarInt_varint by lia. cbn [mbind option_bind]. rewrite s32_id by lia.
  rewrite Z2Nat.inj_add, <- drop_drop, Hin, <- app_assoc, Nat2Z.id, drop_app_length by lia.
  rewrite land_1, Z.mod_mul by lia.
  cbn [Z.eqb]. rewrite Hd. unfold readIntLittleEndianPaddedOnBitWidth.
  replace (paddedByteCountFromBits bw) with 1 by (by destruct Hw; subst).
  unfold readIntLittleEndianOnOneByte.
  cbn [app lookup list_lookup mbind option_bind default from_option id].
  rewrite shiftr_1, Z.div_mul, s32_id by lia. do 2 f_equal. lia.
Qed.

Lemma read_pack_run bw d groups rest :
  width_ok bw → rd_bitWidth d = bw → 0 ≤ inputPos d → inputSize d < 2 ^ 30 →
  run_ok bw (PackRun groups) → length (bitpackBuffer d) = 504%nat →
  inputPos d + Z.of_nat (length (run_bytes bw (PackRun groups))) ≤ inputSize d →
  drop (Z.to_nat (inputPos d)) (input d) = run_bytes bw (PackRun groups) ++ rest →
  ∃ buffer, length buffer = 504%nat ∧
    take (8 * length groups) buffer = mjoin groups ∧
    readNextRun d
    = Some (mkRLEDecoder bw (input d)
              (inputPos d + Z.of_nat (length (run_bytes bw (PackRun groups)))) (inputSize d)
              MODE_BITPACK (8 * Z.of_nat (length groups)) (rleValue d) buffer
              (8 * Z.of_nat (length groups))).
Proof.
  cbn [run_ok run_bytes]. intros Hw Hd H0 Hs [Hn Hv] Hb Hl Hin. unfold readNextRun.
  cbn [length] in *. rewrite length_packed_groups in * by done.
  rewrite (proj2 (Z.leb_gt _ _)) by lia.
  assert (Hh : readUnsignedVarInt (drop (Z.to_nat (inputPos d)) (input d))
               = Some (1, Z.of_nat (length groups) * 2 + 1)).
  { rewrite Hin. pose proof (readUnsignedVarInt_varint (Z.of_nat (length groups) * 2 + 1)
      (mjoin (packed bw <$> groups) ++ rest)) as Hr. unfold varint_fuel in Hr. cbn [varint] in Hr.
    rewrite (proj2 (Z.ltb_lt _ 128)) in Hr by lia. apply Hr. lia. }
  rewrite Hh. cbn [mbind option_bind]. rewrite s32_id by lia.
  rewrite land_1, shiftr_1.
  replace ((Z.of_nat (length groups) * 2 + 1) mod 2) with 1 by divlia.
  replace ((Z.of_nat (length groups) * 2 + 1) / 2) with (Z.of_nat (length groups)) by divlia.
  cbn [Z.eqb].
  rewrite s32_id by lia. rewrite Z.div_mul, Nat2Z.id by lia.
  set (d' := mkRLEDecoder _ _ _ _ _ _ _ _ _).
  destruct (unpack_loop_ok bw groups rest d' 0) as (buffer & Hlb & Ht & He);
    unfold d' in *; clear d';
    cbn [rd_bitWidth inputPos input inputSize bitpackBuffer mode valueCount rleValue
         bitpackBufferSize] in *; [done|done|done|lia|lia| |lia|done|].
  - rewrite Z2Nat.inj_add, <- drop_drop, Hin by lia. done.
  - exists buffer. split; [done|]. split; [done|].
    change (8 * Z.of_nat 0) with 0 in He. rewrite He. do 2 f_equal; lia.
Qed.

(** The next run is read when the current one is used up. *)
Lemma read_next_run bw vs d v :
  width_ok bw → dec_inv bw (v :: vs) d → valueCount d = 0 →
  ∃ d', readNextRun d = Some d' ∧ dec_inv bw (v :: vs) d' ∧ 0 < valueCount d'.
Proof.
  intros Hw [H1 H2 H3 (runs & t & Hr & Hin & Hsz & Hvs) H5 H6 H7] Hc.
  assert (Hcur : current d = []).
  { unfold current. rewrite Hc. case_match; [done|].
    rewrite Z.sub_0_r. apply drop_ge. rewrite length_take. lia. }
  rewrite Hcur in Hvs. destruct runs as [|r runs]; [done|].
  apply Forall_cons in Hr as [Hr Hrs].
  unfold bytes in Hin, Hsz. rewrite fmap_cons, join_cons in Hin, Hsz.
  fold (bytes bw runs) in Hin, Hsz. rewrite length_app in Hsz. rewrite <- app_assoc in Hin.
  assert (Hrest : drop (Z.to_nat (inputPos d + Z.of_nat (length (run_bytes bw r)))) (input d)
                  = bytes bw runs ++ t).
  { rewrite Z2Nat.inj_add, <- drop_drop, Hin, Nat2Z.id by lia. apply drop_app_length. }
  destruct r as [n x|groups].
  - rewrite (read_rle_run bw d n x (bytes bw runs ++ t)) by (done || lia).
    eexists. split; [done|]. cbn [run_ok] in Hr. split; [|cbn; lia].
    constructor; cbn [rd_bitWidth inputPos input inputSize bitpackBuffer mode valueCount rleValue
      bitpackBufferSize]; [done|lia|done| |done|lia|by left].
    exists runs, t. split_and!; [done|done|lia|done].
  - destruct (read_pack_run bw d groups (bytes bw runs ++ t)) as (buffer & Hlb & Ht & ->);
      [done|done|done|done|done|done|lia|done|].
    eexists. split; [done|]. cbn [run_ok] in Hr. split; [|cbn; lia].
    constructor; cbn [rd_bitWidth inputPos input inputSize bitpackBuffer mode valueCount rleValue
      bitpackBufferSize]; [done|lia|done| |done|lia|right; split; [done|lia]].
    exists runs, t. split_and!; [done|done|lia|]. rewrite Hvs. unfold current. cbn [mode].
    cbn [Z.eqb MODE_BITPACK MODE_RLE valueCount bitpackBufferSize bitpackBuffer].
    rewrite Z.sub_diag, drop_0.
    replace (Z.to_nat (8 * Z.of_nat (length groups))) with (8 * length groups)%nat by lia.
    by rewrite Ht.
Qed.

Lemma read_int_inv bw vs d v :
  width_ok bw → dec_inv bw (v :: vs) d →
  ∃ d', RLEDecoder_ReadInt d = Some (v, d') ∧ dec_inv bw vs d'.
Proof.
  intros Hw Hd. unfold RLEDecoder_ReadInt.
  assert (∃ d1, (if valueCount d =? 0 then readNextRun d else Some d) = Some d1 ∧
                dec_inv bw (v :: vs) d1 ∧ 0 < valueCount d1) as (d1 & -> & Hd1 & Hc).
  { destruct (Z.eqb_spec (valueCount d) 0); [by apply read_next_run|].
    exists d. pose proof (di_count _ _ _ Hd). split_and!; [done|done|lia]. }
  cbn [mbind option_bind]. clear d Hd. destruct Hd1 as [H1 H2 H3 (runs & t & Hr & Hin & Hsz & Hvs) H5 H6 H7].
  rewrite s32_id by lia.
  assert (Hv : (if mode d1 =? MODE_RLE then Some (rleValue d1)
    else if mode d1 =? MODE_BITPACK
         then bitpackBuffer d1 !! Z.to_nat (bitpackBufferSize d1 - valueCount d1)
         else Some (-1)) = Some v ∧
    vs = current (mkRLEDecoder (rd_bitWidth d1) (input d1) (inputPos d1) (inputSize d1) (mode d1)
          (valueCount d1 - 1) (rleValue d1) (bitpackBuffer d1) (bitpackBufferSize d1)) ++ values runs).
  { unfold current in *. cbn [mode valueCount rleValue bitpackBuffer bitpackBufferSize].
    destruct H7 as [Hm|[Hm Hle]]; rewrite Hm in *; cbn [Z.eqb MODE_RLE MODE_BITPACK] in *.
    - replace (Z.to_nat (valueCount d1)) with (S (Z.to_nat (valueCount d1 - 1))) in Hvs by lia.
      cbn in Hvs. by simplify_eq.
    - set (k := Z.to_nat (bitpackBufferSize d1 - valueCount d1)) in *.
      replace (Z.to_nat (bitpackBufferSize d1 - (valueCount d1 - 1))) with (S k) by lia.
      destruct (lookup_lt_is_Some_2 (bitpackBuffer d1) k) as [y Hy]; [lia|].
      rewrite (drop_S _ y k) in Hvs by (rewrite lookup_take_lt; [done|lia]).
      cbn in Hvs. by simplify_eq. }
  destruct Hv as [-> Hvs']. cbn [mbind option_bind]. eexists. split; [done|].
  constructor; cbn [rd_bitWidth inputPos input inputSize bitpackBuffer mode valueCount rleValue
    bitpackBufferSize]; [done|done|done| |done|lia|].
  - by exists runs, t.
  - destruct H7 as [?|[? ?]]; [by left|right; split; [done|lia]].
Qed.

Fixpoint read_ints (n : nat) (d : RLEDecoder) : option (list Z) :=
  match n with
  | 0%nat => Some []
  | S n =>
    '(v, d) ← RLEDecoder_ReadInt d;
    vs ← read_ints n d;
    Some (v :: vs)
  end.

Lemma read_ints_inv bw vs vs' d :
  width_ok bw → dec_inv bw (vs ++ vs') d → read_ints (length vs) d = Some vs.
Proof.
  intros Hw. revert d. induction vs as [|v vs IH]; intros d Hd; [done|].
  destruct (read_int_inv bw (vs ++ vs') d v Hw Hd) as (d' & He & Hd').
  cbn. rewrite He. cbn. by rewrite (IH d' Hd').
Qed.

(** ** Packed values *)

Record pack_inv (bw : Z) (vs : list Z) (e : ByteBasedBitPackingEncoder) : Prop := {
  pi_width : be_bitWidth e = bw;
  pi_slab : be_slabSize e = bw * 65536;
  pi_buffer : blen (be_buffer e) = be_bufferSize e;
  pi_input : length (inputBuffer e) = 8%nat;
  pi_inputPos : 0 ≤ inputBufferPos e < 8;
  pi_values : Forall (value_ok bw) (take (Z.to_nat (inputBufferPos e)) (inputBuffer e));
  pi_groups : ∃ groups k, Forall (group_ok bw) groups ∧
    be_bufferPos e = bw * Z.of_nat (length groups) ∧
    be_bufferSize e = bw * k ∧ Z.of_nat (length groups) ≤ k ≤ Z.of_nat (length groups) + 65536 ∧
    take (Z.to_nat (be_bufferPos e)) (be_buffer e) = mjoin (packed bw <$> groups) ∧
    vs = mjoin groups ++ take (Z.to_nat (inputBufferPos e)) (inputBuffer e);
  pi_count : numValues e = Z.of_nat (length vs)
}.

(** The eight values of the input are packed behind the groups. *)
Lemma pack_groups bw groups k e :
  width_ok bw → be_bitWidth e = bw → be_slabSize e = bw * 65536 →
  blen (be_buffer e) = be_bufferSize e → Z.of_nat (length groups) < 2 ^ 26 →
  be_bufferPos e = bw * Z.of_nat (length groups) →
  be_bufferSize e = bw * k → Z.of_nat (length groups) ≤ k ≤ Z.of_nat (length groups) + 65536 →
  take (Z.to_nat (be_bufferPos e)) (be_buffer e) = mjoin (packed bw <$> groups) →
  let e' := pack e in
  be_bitWidth e' = bw ∧ be_slabSize e' = bw * 65536 ∧ blen (be_buffer e') = be_bufferSize e' ∧
  inputBuffer e' = inputBuffer e ∧ inputBufferPos e' = 0 ∧ numValues e' = numValues e ∧
  be_bufferPos e' = bw * (Z.of_nat (length groups) + 1) ∧
  (∃ k', be_bufferSize e' = bw * k' ∧
     Z.of_nat (length groups) + 1 ≤ k' ≤ Z.of_nat (length groups) + 1 + 65536) ∧
  take (Z.to_nat (be_bufferPos e')) (be_buffer e')
    = mjoin (packed bw <$> groups) ++ packed bw (inputBuffer e).
Proof.
  intros Hw H1 H2 H3 Hg H4 H5 H6 H7. cbv zeta. unfold pack.
  assert (Hbw : 1 ≤ bw ≤ 2) by (destruct Hw; lia).
  assert (∃ buffer size k', (if be_bufferPos e =? be_bufferSize e then
      (be_buffer e ++ replicate (Z.to_nat (be_slabSize e)) 0,
       s32 (be_bufferSize e + be_slabSize e))
    else (be_buffer e, be_bufferSize e)) = (buffer, size) ∧ blen buffer = size ∧
    size = bw * k' ∧ Z.of_nat (length groups) + 1 ≤ k' ≤ Z.of_nat (length groups) + 1 + 65536 ∧
    take (Z.to_nat (be_bufferPos e)) buffer = mjoin (packed bw <$> groups))
    as (buffer & size & k' & -> & Hsz & Hk & Hk' & Ht).
  { unfold blen in *. destruct (Z.eqb_spec (be_bufferPos e) (be_bufferSize e)) as [E|E].
    - rewrite s32_id by nia. eexists _, _, (k + 65536). split; [done|].
      rewrite length_app, length_replicate. split; [lia|]. split; [lia|]. split; [nia|].
      rewrite take_app_le by lia. done.
    - eexists _, _, k. split; [done|]. split; [done|]. split; [done|]. split; [nia|]. done. }
  rewrite H1, pack8Values_packed, s32_id by (done || nia).
  cbn [be_bitWidth be_slabSize be_buffer be_bufferSize inputBuffer inputBufferPos numValues
    be_bufferPos].
  pose proof (length_packed bw (inputBuffer e) Hw) as Hlp.
  rewrite blen_memcpy. split_and!; try done; [lia|by exists k'|].
  rewrite memcpy_alt by (rewrite ?Hlp; nia). rewrite Ht, app_assoc.
  assert (Hlg : length (mjoin (packed bw <$> groups) ++ packed bw (inputBuffer e))
                = Z.to_nat (be_bufferPos e + bw)).
  { rewrite length_app, Hlp, length_packed_groups by done. nia. }
  rewrite take_app_le by lia. apply take_ge. lia.
Qed.

Lemma pack_write_inv bw vs e v :
  width_ok bw → pack_inv bw vs e → value_ok bw v → Z.of_nat (length vs) < 2 ^ 29 - 8 →
  pack_inv bw (vs ++ [v]) (BitPack_WriteInt e v).2 ∧
  (BitPack_WriteInt e v).1
    = be_bufferPos (BitPack_WriteInt e v).2 - be_bufferPos e.
Proof.
  intros Hw [H1 H2 H3 H4 H5 H6 (groups & k & G1 & G2 & G3 & G4 & G5 & G6) H8] Hv Hl.
  assert (Hlg : (8 * length groups ≤ length vs)%nat).
  { rewrite G6, length_app, (length_groups bw) by done. lia. }
  unfold BitPack_WriteInt. rewrite (s32_id (inputBufferPos e + 1)) by lia.
  set (l := <[Z.to_nat (inputBufferPos e) := v]> (inputBuffer e)).
  assert (Hll : length l = 8%nat) by (unfold l; by rewrite length_insert).
  assert (Hsn := take_insert_snoc (inputBuffer e) (inputBufferPos e) v ltac:(lia) ltac:(lia)).
  fold l in Hsn.
  assert (Hall : Forall (value_ok bw) (take (Z.to_nat (inputBufferPos e + 1)) l)).
  { rewrite Hsn. by apply Forall_app_2; [|apply Forall_singleton]. }
  set (e1 := mkBitPackEncoder _ _ _ _ _ _ _ _). cbn [inputBufferPos e1].
  destruct (Z.eqb_spec (inputBufferPos e + 1) 8) as [E|E].
  - destruct (pack_groups bw groups k e1) as
      (P1 & P2 & P3 & P4 & P5 & P6 & P7 & (k' & P8 & P9) & P10); try done; [lia|].
    rewrite E, take_ge in Hall, Hsn by lia.
    split.
    2: { cbn [snd be_bufferPos fst]. rewrite P7. cbn. lia. }
    constructor; cbn [snd be_bitWidth be_slabSize be_buffer be_bufferSize inputBuffer
      inputBufferPos numValues be_bufferPos]; rewrite ?P5; try done.
    + by rewrite P4.
    + exists (groups ++ [l]), k'. rewrite length_app, fmap_app, join_app. cbn [length].
      split_and!; [|lia|done|lia|lia| |].
      * apply Forall_app_2; [done|]. by apply Forall_singleton.
      * rewrite P10. cbn. by rewrite app_nil_r.
      * rewrite join_app. cbn. rewrite !app_nil_r, Hsn, G6. by rewrite <- app_assoc.
    + rewrite P6, length_app. cbn. rewrite H8, s32_id; lia.
  - split; [|cbn; lia].
    constructor; cbn [snd be_bitWidth be_slabSize be_buffer be_bufferSize inputBuffer
      inputBufferPos numValues be_bufferPos e1]; try done; [lia| |].
    + exists groups, k. split_and!; [done|done|done|lia|lia|done|]. rewrite Hsn, G6. by rewrite <- app_assoc.
    + rewrite H8, length_app. cbn [length]. rewrite s32_id; lia.
Qed.

Lemma pack_init_inv bw : width_ok bw → pack_inv bw [] (BitPack_InitEncoder bw).
Proof.
  intros Hw. assert (Hbw : 1 ≤ bw ≤ 2) by (destruct Hw; lia).
  unfold BitPack_InitEncoder. rewrite s32_id by lia.
  constructor; cbn [be_bitWidth be_slabSize be_buffer be_bufferSize inputBuffer
    inputBufferPos numValues be_bufferPos]; try done; [lia| |].
  - unfold blen. rewrite length_replicate. lia.
  - exists [], 65536. split_and!; try done; cbn; lia.
Qed.

Fixpoint pack_ints (vs : list Z) (e : ByteBasedBitPackingEncoder) : ByteBasedBitPackingEncoder :=
  match vs with
  | [] => e
  | v :: vs => pack_ints vs (BitPack_WriteInt e v).2
  end.

Lemma pack_ints_inv bw vs vs' e :
  width_ok bw → pack_inv bw vs e → Forall (value_ok bw) vs' →
  Z.of_nat (length vs) + Z.of_nat (length vs') ≤ 2 ^ 29 - 8 →
  pack_inv bw (vs ++ vs') (pack_ints vs' e).
Proof.
  intros Hw. revert vs e. induction vs' as [|v vs' IH]; intros vs e Hi Hv Hl.
  { by rewrite app_nil_r. }
  cbn [length] in Hl. apply Forall_cons in Hv as [Hv Hvs]. cbn [pack_ints].
  change (v :: vs') with ([v] ++ vs'). rewrite app_assoc. apply IH; [|done|].
  - apply pack_write_inv; [done..|lia].
  - rewrite length_app. cbn [length]. lia.
Qed.

Lemma pack_flush_inv bw vs e :
  width_ok bw → pack_inv bw vs e → Z.of_nat (length vs) ≤ 2 ^ 29 - 8 →
  ∃ groups pad, Forall (group_ok bw) groups ∧ (pad < 8)%nat ∧
    mjoin groups = vs ++ replicate pad 0 ∧
    be_bufferPos (BitPack_Flush e).2 = bw * Z.of_nat (length groups) ∧
    take (Z.to_nat (be_bufferPos (BitPack_Flush e).2)) (BitPack_Data (BitPack_Flush e).2)
      = mjoin (packed bw <$> groups) ∧
    numValues (BitPack_Flush e).2 = Z.of_nat (length vs) ∧
    be_bitWidth (BitPack_Flush e).2 = bw.
Proof.
  intros Hw [H1 H2 H3 H4 H5 H6 (groups & k & G1 & G2 & G3 & G4 & G5 & G6) H8] Hl.
  unfold BitPack_Flush, BitPack_Data.
  assert (Hlg : (8 * length groups ≤ length vs)%nat).
  { rewrite G6, length_app, (length_groups bw) by done. lia. }
  destruct (0 <? inputBufferPos e) eqn:E; cbn [snd].
  - apply Z.ltb_lt in E. set (e1 := mkBitPackEncoder _ _ _ _ _ _ _ _).
    destruct (pack_groups bw groups k e1) as
      (P1 & _ & _ & P4 & P5 & P6 & P7 & _ & P10); try done; [lia|].
    exists (groups ++ [inputBuffer e1]), (8 - Z.to_nat (inputBufferPos e))%nat.
    rewrite fmap_app, !join_app, length_app, P10, P6. cbn [length fmap list_fmap].
    assert (Hi : inputBuffer e1 = take (Z.to_nat (inputBufferPos e)) (inputBuffer e) ++
                   replicate (8 - Z.to_nat (inputBufferPos e)) 0).
    { unfold e1, zero_from. cbn [inputBuffer]. by rewrite H4. }
    split_and!; [|lia| |lia|cbn; by rewrite app_nil_r|done|done].
    + apply Forall_app_2; [done|]. apply Forall_singleton. rewrite Hi. constructor.
      * rewrite length_app, length_take, length_replicate. lia.
      * apply Forall_app_2; [done|]. apply Forall_replicate.
        unfold value_ok. destruct Hw; subst; lia.
    + rewrite Hi, G6. cbn. by rewrite app_nil_r, <- app_assoc.
  - apply Z.ltb_ge in E. exists groups, 0%nat. replace (inputBufferPos e) with 0 in G6 by lia.
    cbn in G6. rewrite app_nil_r in G6. rewrite app_nil_r, G6.
    split_and!; try done; [lia|by rewrite <- G6].
Qed.

Record unpack_inv (bw : Z) (vs : list Z) (d : ByteBasedBitPackingDecoder) : Prop := {
  ui_width : bd_bitWidth d = bw;
  ui_decode : length (bd_decode d) = 8%nat;
  ui_pos : 0 ≤ decodePos d ≤ 7;
  ui_groups : 0 ≤ encodePos d ∧ ∃ groups t, Forall (group_ok bw) groups ∧
    encodePos d + bw * Z.of_nat (length groups) < 2 ^ 31 ∧
    drop (Z.to_nat (encodePos d)) (bd_encode d) = mjoin (packed bw <$> groups) ++ t ∧
    vs = drop (Z.to_nat (decodePos d + 1)) (bd_decode d) ++ mjoin groups
}.

Lemma unpack_read_inv bw vs d v :
  width_ok bw → unpack_inv bw (v :: vs) d →
  ∃ d', BitPack_ReadInt d = Some (v, d') ∧ unpack_inv bw vs d'.
Proof.
  intros Hw [H1 H2 H3 (H0 & groups & t & G1 & G2 & G3 & G4)]. unfold BitPack_ReadInt.
  assert (Hbw : 1 ≤ bw ≤ 2) by (destruct Hw; lia).
  rewrite (s32_id (decodePos d + 1)) by lia.
  destruct (Z.eqb_spec (decodePos d + 1) 8) as [E|E].
  - rewrite E, drop_ge in G4 by lia. destruct groups as [|g groups]; [done|].
    apply Forall_cons in G1 as [Hg Hgs]. rewrite fmap_cons, join_cons, <- app_assoc in G3.
    pose proof (length_packed bw g Hw) as Hlp. cbn [length] in G2.
    assert (Hsl : slice (encodePos d) bw (bd_encode d) = packed bw g).
    { unfold slice. rewrite G3, <- Hlp. apply take_app_length. }
    rewrite H1, unpack8Values_unpacked, Hsl, unpacked_packed by done.
    assert (H8 : length g = 8%nat) by apply Hg.
    rewrite memcpy_alt, drop_ge, app_nil_r by (unfold blen; lia). cbn [take app Z.to_nat].
    rewrite join_cons in G4. cbn [app] in G4.
    destruct g as [|x g]; [done|]. cbn in G4. injection G4 as -> ->.
    eexists. cbn. split; [done|]. constructor; cbn; [done|done|lia|].
    rewrite s32_id by lia. split; [lia|]. exists groups, t. split_and!; [done|lia| |done].
    rewrite Z2Nat.inj_add, <- drop_drop, G3, <- Hlp by lia. apply drop_app_length.
  - cbn [bd_decode decodePos].
    destruct (lookup_lt_is_Some_2 (bd_decode d) (Z.to_nat (decodePos d + 1))) as [y Hy]; [lia|].
    rewrite (drop_S _ y) in G4 by done. cbn in G4. injection G4 as -> ->. rewrite Hy.
    eexists. cbn. split; [done|]. constructor; cbn; [done|done|lia|].
    split; [done|]. exists groups, t. split_and!; [done|done|done|].
    do 2 f_equal. lia.
Qed.

Fixpoint unpack_ints (n : nat) (d : ByteBasedBitPackingDecoder) : option (list Z) :=
  match n with
  | 0%nat => Some []
  | S n =>
    '(v, d) ← BitPack_ReadInt d;
    vs ← unpack_ints n d;
    Some (v :: vs)
  end.

Lemma unpack_ints_inv bw vs vs' d :
  width_ok bw → unpack_inv bw (vs ++ vs') d → unpack_ints (length vs) d = Some vs.
Proof.
  intros Hw. revert d. induction vs as [|v vs IH]; intros d Hd; [done|].
  destruct (unpack_read_inv bw (vs ++ vs') d v Hw Hd) as (d' & He & Hd').
  cbn. rewrite He. cbn. by rewrite (IH d' Hd').
Qed.

(** ** Widths *)

(** One step of the search for the highest bit: [bound] shifted by [zeros]
    has no [k] zeros in front afterwards. *)
Lemma width_step bound k zeros b :
  1 ≤ k ≤ 16 → b = bound * 2 ^ zeros → 0 ≤ zeros → 2 ^ (32 - 2 * k) ≤ b < 2 ^ 32 →
  ∃ zeros', (if Z.land b (Z.shiftl (Z.ones k) (32 - k)) =? 0
             then (zeros + k, u32 (Z.shiftl b k)) else (zeros, b))
            = (zeros', bound * 2 ^ zeros') ∧
            0 ≤ zeros' ∧ 2 ^ (32 - k) ≤ bound * 2 ^ zeros' < 2 ^ 32.
Proof.
  intros Hk Hb Hz Hr. rewrite high_bits_zero by lia. destruct (Z.ltb_spec b (2 ^ (32 - k))).
  - exists (zeros + k). rewrite Z.shiftl_mul_pow2, Z.pow_add_r, Z.mul_assoc, <- Hb by lia.
    assert (H1 : 2 ^ (32 - k) * 2 ^ k = 2 ^ 32) by (rewrite <- Z.pow_add_r by lia; f_equal; lia).
    assert (H2 : 2 ^ (32 - 2 * k) * 2 ^ k = 2 ^ (32 - k))
      by (rewrite <- Z.pow_add_r by lia; f_equal; lia).
    rewrite u32_id by nia. split; [done|]. split; [lia|nia].
  - exists zeros. rewrite <- Hb. split; [done|]. lia.
Qed.

Lemma widthFromMaxInt_log2 bound :
  0 < bound < 2 ^ 32 → widthFromMaxInt bound = Z.log2 bound + 1.
Proof.
  intros Hb. unfold widthFromMaxInt. rewrite (proj2 (Z.eqb_neq bound 0)) by lia.
  change 0xffff0000 with (Z.shiftl (Z.ones 16) (32 - 16)).
  change 0xff000000 with (Z.shiftl (Z.ones 8) (32 - 8)).
  change 0xf0000000 with (Z.shiftl (Z.ones 4) (32 - 4)).
  change 0xc0000000 with (Z.shiftl (Z.ones 2) (32 - 2)).
  change 0x80000000 with (Z.shiftl (Z.ones 1) (32 - 1)).
  destruct (width_step bound 16 0 bound) as (z1 & H1 & Z1 & R1); [lia..|].
  rewrite Z.add_0_l in H1. rewrite H1.
  destruct (width_step bound 8 z1 (bound * 2 ^ z1)) as (z2 & -> & Z2 & R2); [lia..|].
  destruct (width_step bound 4 z2 (bound * 2 ^ z2)) as (z3 & -> & Z3 & R3); [lia..|].
  destruct (width_step bound 2 z3 (bound * 2 ^ z3)) as (z4 & -> & Z4 & R4); [lia..|].
  destruct (width_step bound 1 z4 (bound * 2 ^ z4)) as (z5 & H5 & Z5 & R5); [lia..|].
  assert (Hz5 : (if Z.land (bound * 2 ^ z4) (Z.shiftl (Z.ones 1) (32 - 1)) =? 0
                 then z4 + 1 else z4) = z5).
  { revert H5. clear. destruct (Z.land (bound * 2 ^ z4) _ =? 0); congruence. }
  rewrite Hz5. assert (Hlog : Z.log2 bound = 31 - z5).
  { assert (z5 ≤ 31).
    { assert (2 ^ z5 < 2 ^ 32) by nia. apply Z.pow_lt_mono_r_iff in H; lia. }
    apply Z.log2_unique; [lia|].
    assert (He : 2 ^ 31 = 2 ^ (31 - z5) * 2 ^ z5)
      by (rewrite <- Z.pow_add_r by lia; f_equal; lia).
    replace (Z.succ (31 - z5)) with (31 - z5 + 1) by lia. rewrite Z.pow_add_r by lia.
    assert (Hp : 0 < 2 ^ z5) by lia. split.
    - apply (Z.mul_le_mono_pos_r _ _ (2 ^ z5) Hp). rewrite <- He. apply R5.
    - apply (Z.mul_lt_mono_pos_r (2 ^ z5) _ _ Hp).
      replace (2 ^ (31 - z5) * 2 ^ 1 * 2 ^ z5) with (2 ^ 32); [apply R5|].
      change (2 ^ 32) with (2 ^ 31 * 2). rewrite He. ring. }
  pose proof (Z.log2_nonneg bound). rewrite u32_id; lia.
Qed.

(** ** Theorems *)

(**  [widthFromMaxInt] is the least number of bits that holds every level
    up to the maximum, for maxima from 1 on; it is 32 for the maximum 0. *)
Lemma level_width_exact bound :
  0 ≤ bound < 2 ^ 32 →
  (bound = 0 → widthFromMaxInt bound = 32) ∧
  (0 < bound →
     1 ≤ widthFromMaxInt bound ≤ 32 ∧ bound < 2 ^ widthFromMaxInt bound ∧
     ∀ w, 0 ≤ w → bound < 2 ^ w → widthFromMaxInt bound ≤ w).
Proof.
  intros Hb. split; [by intros ->|]. intros H0. rewrite widthFromMaxInt_log2 by lia.
  pose proof (Z.log2_nonneg bound). pose proof (Z.log2_spec bound H0) as [Hlo Hhi].
  split_and!; [lia| |by rewrite Z.add_1_r|].
  - assert (Z.log2 bound < 32) by (apply Z.log2_lt_pow2; lia). lia.
  - intros w Hw Hl. assert (Z.log2 bound < w) by (apply Z.log2_lt_pow2; lia). lia.
Qed.

(** C19.  A variable-length integer ends: an [int] that is not negative is
    written as at most five bytes, which the reader gives back together with
    their number, whatever follows.  A negative [int] would be written
    forever. *)
Theorem varint_roundtrip w v t :
  writer_ok w → w_bufferPos w ≤ 2 ^ 30 - 5 → - 2 ^ 31 ≤ v < 2 ^ 31 →
  (0 ≤ v → ∃ w' bs,
     writeUnsignedVarInt varint_fuel w v = Some w' ∧
     writer_ok w' ∧ written w' = written w ++ bs ∧ (1 ≤ length bs ≤ 5)%nat ∧
     readUnsignedVarInt (bs ++ t) = Some (Z.of_nat (length bs), v)) ∧
  (v < 0 → ∀ fuel, writeUnsignedVarInt fuel w v = None).
Proof.
  intros Hw Hp Hv. split; [|intros; apply write_varint_negative; lia].
  intros H0. destruct (write_varint_ok varint_fuel w v) as (w' & He & Hk & Hwr);
    [done|unfold varint_fuel; lia..|].
  exists w', (varint varint_fuel v). pose proof (length_varint varint_fuel v).
  split_and!; [done|done|done| |done|].
  - unfold varint_fuel. cbn [varint]. case_match; cbn; lia.
  - apply readUnsignedVarInt_varint. lia.
Qed.

Lemma varint_roundtrip_witness :
  ∃ w' bs, writeUnsignedVarInt varint_fuel (CapacityByteWriter_Init 4) 300 = Some w' ∧
    written w' = bs ∧ readUnsignedVarInt (bs ++ [7]) = Some (Z.of_nat (length bs), 300).
Proof.
  destruct (varint_roundtrip (CapacityByteWriter_Init 4) 300 [7]) as [H _].
  - repeat split; try (vm_compute; congruence). left. vm_compute. congruence.
  - vm_compute. congruence.
  - lia.
  - destruct H as (w' & bs & H1 & H2 & H3 & H4 & H5); [lia|].
    exists w', bs. split; [exact H1|]. split; [exact H3|exact H5].
Defined.

(** C10.  The levels of a page read back: for a maximum level of 1 to 3 any
    levels up to the maximum can be written to a new encoder, flushing it
    gives at most seven bytes more than there are levels, and a decoder of
    these bytes, whatever follows them, reads the levels in order. *)
Theorem levels_roundtrip maxlevel vs t :
  1 ≤ maxlevel ≤ 3 → Forall (λ v, 0 ≤ v ≤ maxlevel) vs → Z.of_nat (length vs) < 2 ^ 29 →
  let bitWidth := widthFromMaxInt maxlevel in
  ∃ e size e',
    write_ints vs (RLEEncoder_Init bitWidth) = Some e ∧
    RLEEncoder_Flush e = Some (size, e') ∧
    0 ≤ size ≤ Z.of_nat (length vs) + 7 ∧
    read_ints (length vs)
      (RLEDecoder_Init bitWidth (take (Z.to_nat size) (RLEEncoder_Data e') ++ t) size) = Some vs.
Proof.
  intros Hm Hv Hl bw.
  assert (width_ok bw ∧ maxlevel < 2 ^ bw) as [Hw Hmw].
  { unfold bw. assert (Hc : maxlevel = 1 ∨ maxlevel = 2 ∨ maxlevel = 3) by lia.
    destruct Hc as [-> |[-> | ->]]; split; done || (by left) || by right. }
  destruct (write_ints_inv bw [] vs _ Hw (rle_init_inv bw Hw)) as (e & He & Hi).
  { eapply Forall_impl; [done|]. unfold value_ok. cbn. lia. }
  { cbn. lia. }
  destruct (flush_inv bw vs e Hw Hi Hl) as (e' & runs & pad & Hf & Hb & Hvs & Hpad).
  exists e, (RLEEncoder_Size e'), e'. split; [done|]. split; [done|].
  pose proof (enc_base_pos _ _ _ _ Hw Hb) as Hpos.
  rewrite app_nil_r, Hvs, length_app, length_replicate in Hpos.
  pose proof (length_written _ (eb_writer _ _ _ _ Hb)) as Hlen.
  destruct Hb as [H1 H2 H3 H4 H5 H6 H7 H8 H9 H10]. unfold RLEEncoder_Size, RLEEncoder_Data.
  unfold written in H9, Hlen. rewrite H9 in Hlen |- *. cbn [open_bytes] in *.
  rewrite app_nil_r in *. split; [lia|].
  apply (read_ints_inv bw vs (replicate pad 0) _ Hw). rewrite <- Hvs.
  constructor; cbn [RLEDecoder_Init rd_bitWidth inputPos input inputSize bitpackBuffer mode
    valueCount rleValue bitpackBufferSize]; [done|lia|lia| |done|lia|by left].
  exists runs, t. split_and!; [done|done|lia|done].
Qed.

Lemma levels_roundtrip_witness :
  ∃ e size e', write_ints [0; 1; 3; 3; 3; 3; 3; 3; 3; 3; 3; 2; 1] (RLEEncoder_Init 2) = Some e ∧
    RLEEncoder_Flush e = Some (size, e') ∧
    read_ints 13 (RLEDecoder_Init 2 (take (Z.to_nat size) (RLEEncoder_Data e') ++ [255]) size)
      = Some [0; 1; 3; 3; 3; 3; 3; 3; 3; 3; 3; 2; 1].
Proof.
  destruct (levels_roundtrip 3 [0; 1; 3; 3; 3; 3; 3; 3; 3; 3; 3; 2; 1] [255])
    as (e & size & e' & H1 & H2 & _ & H3).
  - lia.
  - repeat constructor; lia.
  - cbn. lia.
  - exists e, size, e'. split; [exact H1|]. split; [exact H2|exact H3].
Defined.

(** C18.  The values of a boolean column read back: any values written to a
    new encoder of one bit each are read in order from its flushed bytes,
    whatever follows them, and the size reported is the number of those bytes.
    It holds for two bits each, where the bytes are at least the size
    reported. *)
Theorem bitpack_roundtrip bw vs t :
  width_ok bw → Forall (value_ok bw) vs → Z.of_nat (length vs) ≤ 2 ^ 29 - 8 →
  let e := (BitPack_Flush (pack_ints vs (BitPack_InitEncoder bw))).2 in
  unpack_ints (length vs)
    (BitPack_InitDecoder (take (Z.to_nat (be_bufferPos e)) (BitPack_Data e) ++ t) bw) = Some vs ∧
  BitPack_Size e ≤ be_bufferPos e ∧ (bw = 1 → BitPack_Size e = be_bufferPos e).
Proof.
  intros Hw Hv Hl e. pose proof (pack_ints_inv bw [] vs _ Hw (pack_init_inv bw Hw) Hv) as Hi.
  cbn [length app] in Hi. specialize (Hi ltac:(lia)).
  destruct (pack_flush_inv bw vs _ Hw Hi Hl) as (groups & pad & G1 & G2 & G3 & G4 & G5 & G6 & G7).
  fold e in G4, G5, G6, G7.
  assert (Hlg : (8 * length groups = length vs + pad)%nat).
  { rewrite <- (length_groups bw), G3, length_app, length_replicate by done. done. }
  assert (Hbw : 1 ≤ bw ≤ 2) by (destruct Hw; lia). split.
  - apply (unpack_ints_inv bw vs (replicate pad 0) _ Hw). rewrite <- G3, G5.
    constructor; cbn [BitPack_InitDecoder bd_bitWidth bd_decode decodePos encodePos bd_encode];
      [done|done|lia|]. split; [lia|]. exists groups, t. split_and!; [done|nia|done|done].
  - unfold BitPack_Size, paddedByteCountFromBits. rewrite G4, G6, G7.
    rewrite (s32_id (_ * _)), s32_id by nia. rewrite Z.quot_div_nonneg by nia.
    clear -Hw Hlg G2. destruct Hw as [-> | ->]; split; intros; divlia.
Qed.

Lemma bitpack_roundtrip_witness :
  unpack_ints 3
    (BitPack_InitDecoder
       (let e := (BitPack_Flush (pack_ints [1; 0; 1] (BitPack_InitEncoder 1))).2 in
        take (Z.to_nat (be_bufferPos e)) (BitPack_Data e) ++ [9]) 1) = Some [1; 0; 1].
Proof.
  refine (proj1 (bitpack_roundtrip 1 [1; 0; 1] [9] _ _ _)).
  - left. reflexivity.
  - repeat constructor; vm_compute; congruence.
  - cbn. lia.
Defined.

(** Writing, flushing and reading. *)
Definition reread (bitWidth : Z) (vs : list Z) : option (list Z) :=
  e ← write_ints vs (RLEEncoder_Init bitWidth);
  '(size, e) ← RLEEncoder_Flush e;
  read_ints (length vs) (RLEDecoder_Init bitWidth (RLEEncoder_Data e) size).

(** A maximum level of 4 or more needs three bits or more, for which nothing
    is packed: levels that are not repeated read back as zeros. *)
Lemma wide_levels_lost maxlevel :
  4 ≤ maxlevel < 2 ^ 16 →
  reread (widthFromMaxInt maxlevel) [0; 1; 2; 3; 4; 3; 2; 1] = Some (replicate 8 0).
Proof.
  intros Hm. assert (Hw : 3 ≤ widthFromMaxInt maxlevel < 3 + 14).
  { rewrite widthFromMaxInt_log2 by lia.
    pose proof (Z.log2_le_mono 4 maxlevel). change (Z.log2 4) with 2 in *.
    assert (Z.log2 maxlevel < 16) by (apply Z.log2_lt_pow2; lia). lia. }
  assert (Hall : Forall (λ bw, reread bw [0; 1; 2; 3; 4; 3; 2; 1] = Some (replicate 8 0))
                   (seqZ 3 14)) by (apply (bool_decide_unpack _); by vm_compute).
  rewrite Forall_forall in Hall. by apply Hall, elem_of_seqZ.
Qed.
