(* ===== verification/Bitmapset.v ===== *)
(** Sets of small integers: backend/nodes/bitmapset.c.

    A [Bitmapset] is an array of 32-bit words in a palloc'd object; NULL is
    the empty set too.  The code is in the monad of [Store]: an access through
    NULL or a freed pointer is a fault, and so is one outside the words.
    [BitmapsetSpec] shows that the functions compute on finite sets. *)
From stdpp Require Import prelude gmap list numbers.
From S2P Require Import Prelude Store.

Local Open Scope store_scope.

Definition BITS_PER_BITMAPWORD : Z := 32.
Definition BITS_PER_BITMAPWORD_LOG2 : Z := 5.

Record Bitmapset := mkBitmapset {
  nwords : Z;
  words : list Z
}.

Inductive BMS_Membership := BMS_EMPTY_SET | BMS_SINGLETON | BMS_MULTIPLE.

Definition WORDNUM (x : Z) : Z := s32 (Z.shiftr (u32 x) BITS_PER_BITMAPWORD_LOG2).
Definition BITNUM (x : Z) : Z := s32 (Z.land (u32 x) (BITS_PER_BITMAPWORD - 1)).

Definition RIGHTMOST_ONE (x : Z) : Z := Z.land (s32 x) (s32 (- s32 x)).
Definition HAS_MULTIPLE_ONES (x : Z) : bool := negb (u32 (RIGHTMOST_ONE x) =? x).

Definition number_of_ones : list Z :=
  [ 0; 1; 1; 2; 1; 2; 2; 3; 1; 2; 2; 3; 2; 3; 3; 4;
    1; 2; 2; 3; 2; 3; 3; 4; 2; 3; 3; 4; 3; 4; 4; 5;
    1; 2; 2; 3; 2; 3; 3; 4; 2; 3; 3; 4; 3; 4; 4; 5;
    2; 3; 3; 4; 3; 4; 4; 5; 3; 4; 4; 5; 4; 5; 5; 6;
    1; 2; 2; 3; 2; 3; 3; 4; 2; 3; 3; 4; 3; 4; 4; 5;
    2; 3; 3; 4; 3; 4; 4; 5; 3; 4; 4; 5; 4; 5; 5; 6;
    2; 3; 3; 4; 3; 4; 4; 5; 3; 4; 4; 5; 4; 5; 5; 6;
    3; 4; 4; 5; 4; 5; 5; 6; 4; 5; 5; 6; 5; 6; 6; 7;
    1; 2; 2; 3; 2; 3; 3; 4; 2; 3; 3; 4; 3; 4; 4; 5;
    2; 3; 3; 4; 3; 4; 4; 5; 3; 4; 4; 5; 4; 5; 5; 6;
    2; 3; 3; 4; 3; 4; 4; 5; 3; 4; 4; 5; 4; 5; 5; 6;
    3; 4; 4; 5; 4; 5; 5; 6; 4; 5; 5; 6; 5; 6; 6; 7;
    2; 3; 3; 4; 3; 4; 4; 5; 3; 4; 4; 5; 4; 5; 5; 6;
    3; 4; 4; 5; 4; 5; 5; 6; 4; 5; 5; 6; 5; 6; 6; 7;
    3; 4; 4; 5; 4; 5; 5; 6; 4; 5; 5; 6; 5; 6; 6; 7;
    4; 5; 5; 6; 5; 6; 6; 7; 5; 6; 6; 7; 6; 7; 7; 8 ].

(** The loop halves [i] from 16 to 0; [n] bounds its turns. *)
Fixpoint low_order_loop (n : nat) (i w x : Z) : option (Z * Z) :=
  match n with
  | O => None
  | S n =>
      if i =? 0 then Some (w, x) else
      let m := u32 (s32 (Z.shiftl 1 i) - 1) in
      if Z.land w m =? 0
      then low_order_loop n (Z.shiftr i 1) (Z.shiftr w i) (x + i)
      else low_order_loop n (Z.shiftr i 1) w x
  end.

Definition num_low_order_zero_bits (w : Z) : option Z :=
  '(w, x) ← low_order_loop 6 (BITS_PER_BITMAPWORD / 2) w 0;
  Some (if w =? 0 then x + 1 else x).

(** ** Accesses *)

Definition lift {A} (o : option A) : M Bitmapset A :=
  match o with Some a => ret a | None => fault end.

(** [b->words[i]] *)
Definition word (b : Bitmapset) (i : Z) : M Bitmapset Z := lift (words b !! Z.to_nat i).

(** [p->words[i] = w] *)
Definition set_word (p i w : Z) : M Bitmapset unit :=
  do b <- load p;
  do _ <- word b i;
  modify p (λ b, mkBitmapset (nwords b) (<[Z.to_nat i := w]> (words b))).

(** [for (; i < ...; i++) if (test(i)) return ...;], of [n] turns: the first
    index that passes the test. *)
Fixpoint find_word (test : Z → M Bitmapset bool) (i : Z) (n : nat) : M Bitmapset (option Z) :=
  match n with
  | O => ret None
  | S n => do t <- test i; if (t : bool) then ret (Some i) else find_word test (i + 1) n
  end.

(** [for (; i < ...; i++) result->words[i] = f(result->words[i], other->words[i]);]
    where the two objects may be the same one. *)
Fixpoint combine_words (f : Z → Z → Z) (result other i : Z) (n : nat) : M Bitmapset unit :=
  match n with
  | O => ret tt
  | S n =>
      do o <- load other; do y <- word o i;
      do r <- load result; do x <- word r i;
      set_word result i (f x y);;;
      combine_words f result other (i + 1) n
  end.

(** [for (; i < ...; i++) a->words[i] = 0;] *)
Fixpoint zero_words (a i : Z) (n : nat) : M Bitmapset unit :=
  match n with
  | O => ret tt
  | S n => set_word a i 0;;; zero_words a (i + 1) n
  end.

(** [~w] of a [bitmapword]. *)
Definition bmw_not (w : Z) : Z := u32 (Z.lnot w).

Definition or_word (x y : Z) : Z := Z.lor x y.
Definition and_word (x y : Z) : Z := Z.land x y.
Definition andnot_word (x y : Z) : Z := Z.land x (bmw_not y).

(** The turns of a loop from [i] to [n]. *)
Definition turns (i n : Z) : nat := Z.to_nat (n - i).

(** ** Functions that make a new set or only look *)

Definition bms_copy (a : Z) : M Bitmapset Z :=
  if a =? NULL then ret NULL else
  do b <- load a;
  alloc (mkBitmapset (nwords b) (take (Z.to_nat (nwords b)) (words b))).

Definition bms_is_empty (a : Z) : M Bitmapset bool :=
  if a =? NULL then ret true else
  do b <- load a;
  do r <- find_word (λ i, do w <- word b i; ret (negb (w =? 0))) 0 (turns 0 (nwords b));
  ret (match r with Some _ => false | None => true end).

Definition bms_equal (a b : Z) : M Bitmapset bool :=
  if a =? NULL then
    if b =? NULL then ret true else bms_is_empty b
  else if b =? NULL then bms_is_empty a
  else
  do x <- load a; do y <- load b;
  let '(shorter, longer) := if nwords x <=? nwords y then (x, y) else (y, x) in
  let shortlen := nwords shorter in
  do d <- find_word (λ i, do u <- word shorter i; do v <- word longer i;
                          ret (negb (u =? v))) 0 (turns 0 shortlen);
  match d with
  | Some _ => ret false
  | None =>
      let longlen := nwords longer in
      do e <- find_word (λ i, do v <- word longer i; ret (negb (v =? 0)))
                shortlen (turns shortlen longlen);
      ret (match e with Some _ => false | None => true end)
  end.

Definition bms_compare (a b : Z) : M Bitmapset Z :=
  if a =? NULL then
    if b =? NULL then ret 0 else
    do e <- bms_is_empty b;
    if (e : bool) then ret 0 else ret (-1)
  else if b =? NULL then
    do e <- bms_is_empty a;
    if (e : bool) then ret 0 else ret 1
  else
  do x <- load a; do y <- load b;
  let '(shortlen, longlen, longer, sign) :=
    if nwords x <=? nwords y then (nwords x, nwords y, y, -1)
    else (nwords y, nwords x, x, 1) in
  do d <- find_word (λ i, do u <- word x i; do v <- word y i;
                          if u <? v then ret true else ret (v <? u)) 0 (turns 0 shortlen);
  match d with
  | Some i => do u <- word x i; do v <- word y i; if u <? v then ret (-1) else ret 1
  | None =>
      do e <- find_word (λ i, do w <- word longer i; ret (negb (w =? 0)))
                shortlen (turns shortlen longlen);
      ret (match e with Some _ => sign | None => 0 end)
  end.

(** [palloc0(BITMAPSET_SIZE(n))] and [nwords = n] *)
Definition palloc0_words (n : Z) : M Bitmapset Z :=
  alloc (mkBitmapset n (replicate (Z.to_nat n) 0)).

Definition bms_make_singleton (x : Z) : M Bitmapset (outcome Z) :=
  if x <? 0 then ret ElogError else
  let wordnum := WORDNUM x in
  let bitnum := BITNUM x in
  do result <- palloc0_words (wordnum + 1);
  set_word result wordnum (u32 (Z.shiftl 1 bitnum));;;
  ret (Return result).

Definition bms_free (a : Z) : M Bitmapset unit :=
  if a =? NULL then ret tt else dealloc a.

Definition bms_union (a b : Z) : M Bitmapset Z :=
  if a =? NULL then bms_copy b else
  if b =? NULL then bms_copy a else
  do x <- load a; do y <- load b;
  do (result, other) <-
    (if nwords x <=? nwords y then do r <- bms_copy b; ret (r, a)
     else do r <- bms_copy a; ret (r, b));
  do o <- load other;
  combine_words or_word result other 0 (turns 0 (nwords o));;;
  ret result.

Definition bms_intersect (a b : Z) : M Bitmapset Z :=
  if (a =? NULL) || (b =? NULL) then ret NULL else
  do x <- load a; do y <- load b;
  do (result, other) <-
    (if nwords x <=? nwords y then do r <- bms_copy a; ret (r, b)
     else do r <- bms_copy b; ret (r, a));
  do r <- load result;
  combine_words and_word result other 0 (turns 0 (nwords r));;;
  ret result.

Definition bms_difference (a b : Z) : M Bitmapset Z :=
  if a =? NULL then ret NULL else
  if b =? NULL then bms_copy a else
  do result <- bms_copy a;
  do x <- load a; do y <- load b;
  let shortlen := Z.min (nwords x) (nwords y) in
  combine_words andnot_word result b 0 (turns 0 shortlen);;;
  ret result.

Definition bms_is_subset (a b : Z) : M Bitmapset bool :=
  if a =? NULL then ret true else
  if b =? NULL then bms_is_empty a else
  do x <- load a; do y <- load b;
  let shortlen := Z.min (nwords x) (nwords y) in
  do d <- find_word (λ i, do u <- word x i; do v <- word y i;
                          ret (negb (Z.land u (bmw_not v) =? 0))) 0 (turns 0 shortlen);
  match d with
  | Some _ => ret false
  | None =>
      if nwords y <? nwords x then
        let longlen := nwords x in
        do e <- find_word (λ i, do u <- word x i; ret (negb (u =? 0)))
                  shortlen (turns shortlen longlen);
        ret (match e with Some _ => false | None => true end)
      else ret true
  end.

Definition bms_is_member (x a : Z) : M Bitmapset (outcome bool) :=
  if x <? 0 then ret ElogError else
  if a =? NULL then ret (Return false) else
  do b <- load a;
  let wordnum := WORDNUM x in
  let bitnum := BITNUM x in
  if nwords b <=? wordnum then ret (Return false) else
  do w <- word b wordnum;
  if negb (Z.land w (u32 (Z.shiftl 1 bitnum)) =? 0) then ret (Return true)
  else ret (Return false).

Definition bms_overlap (a b : Z) : M Bitmapset bool :=
  if (a =? NULL) || (b =? NULL) then ret false else
  do x <- load a; do y <- load b;
  let shortlen := Z.min (nwords x) (nwords y) in
  do d <- find_word (λ i, do u <- word x i; do v <- word y i;
                          ret (negb (Z.land u v =? 0))) 0 (turns 0 shortlen);
  ret (match d with Some _ => true | None => false end).

Definition bms_nonempty_difference (a b : Z) : M Bitmapset bool :=
  if a =? NULL then ret false else
  if b =? NULL then do e <- bms_is_empty a; ret (negb e) else
  do x <- load a; do y <- load b;
  let shortlen := Z.min (nwords x) (nwords y) in
  do d <- find_word (λ i, do u <- word x i; do v <- word y i;
                          ret (negb (Z.land u (bmw_not v) =? 0))) 0 (turns 0 shortlen);
  match d with
  | Some _ => ret true
  | None =>
      do e <- find_word (λ i, do u <- word x i; ret (negb (u =? 0)))
                shortlen (turns shortlen (nwords x));
      ret (match e with Some _ => true | None => false end)
  end.

Fixpoint singleton_loop (b : Bitmapset) (wordnum : Z) (n : nat) (result : Z)
    : M Bitmapset (outcome Z) :=
  match n with
  | O => ret (if result <? 0 then ElogError else Return result)
  | S n =>
      do w <- word b wordnum;
      if negb (w =? 0) then
        if (0 <=? result) || HAS_MULTIPLE_ONES w then ret ElogError else
        do z <- lift (num_low_order_zero_bits w);
        singleton_loop b (wordnum + 1) n (s32 (z + wordnum * BITS_PER_BITMAPWORD))
      else singleton_loop b (wordnum + 1) n result
  end.

Definition bms_singleton_member (a : Z) : M Bitmapset (outcome Z) :=
  if a =? NULL then ret ElogError else
  do b <- load a;
  singleton_loop b 0 (turns 0 (nwords b)) (-1).

(** [while (w != 0)]: at most one turn for each byte of the word. *)
Fixpoint count_ones (n : nat) (w result : Z) : option Z :=
  if w =? 0 then Some result else
  match n with
  | O => None
  | S n =>
      k ← number_of_ones !! Z.to_nat (Z.land w 255);
      count_ones n (Z.shiftr w 8) (s32 (result + k))
  end.

Fixpoint count_loop (b : Bitmapset) (wordnum : Z) (n : nat) (result : Z) : M Bitmapset Z :=
  match n with
  | O => ret result
  | S n =>
      do w <- word b wordnum;
      do result <- lift (count_ones 4 w result);
      count_loop b (wordnum + 1) n result
  end.

Definition bms_num_members (a : Z) : M Bitmapset Z :=
  if a =? NULL then ret 0 else
  do b <- load a;
  count_loop b 0 (turns 0 (nwords b)) 0.

Fixpoint membership_loop (b : Bitmapset) (wordnum : Z) (n : nat) (result : BMS_Membership)
    : M Bitmapset BMS_Membership :=
  match n with
  | O => ret result
  | S n =>
      do w <- word b wordnum;
      if negb (w =? 0) then
        if match result with BMS_EMPTY_SET => HAS_MULTIPLE_ONES w | _ => true end
        then ret BMS_MULTIPLE
        else membership_loop b (wordnum + 1) n BMS_SINGLETON
      else membership_loop b (wordnum + 1) n result
  end.

Definition bms_membership (a : Z) : M Bitmapset BMS_Membership :=
  if a =? NULL then ret BMS_EMPTY_SET else
  do b <- load a;
  membership_loop b 0 (turns 0 (nwords b)) BMS_EMPTY_SET.

(** ** Functions that recycle their first argument *)

Definition bms_assign (tgt src : Z) : M Bitmapset Z :=
  if tgt =? NULL then bms_copy src else
  do t <- load tgt; do s <- load src;
  if nwords t <? nwords s then dealloc tgt;;; bms_copy src else
  combine_words (λ _ y, y) tgt src 0 (turns 0 (nwords s));;;
  zero_words tgt (nwords s) (turns (nwords s) (nwords t));;;
  ret tgt.

Definition bms_add_member (a x : Z) : M Bitmapset (outcome Z) :=
  if x <? 0 then ret ElogError else
  if a =? NULL then bms_make_singleton x else
  do b <- load a;
  let wordnum := WORDNUM x in
  let bitnum := BITNUM x in
  if nwords b <=? wordnum then
    do r <- bms_make_singleton x;
    match r with
    | ElogError => ret ElogError
    | Return result =>
        do b <- load a;
        combine_words or_word result a 0 (turns 0 (nwords b));;;
        dealloc a;;;
        ret (Return result)
    end
  else
  do w <- word b wordnum;
  set_word a wordnum (Z.lor w (u32 (Z.shiftl 1 bitnum)));;;
  ret (Return a).

Definition bms_del_member (a x : Z) : M Bitmapset (outcome Z) :=
  if x <? 0 then ret ElogError else
  if a =? NULL then ret (Return NULL) else
  do b <- load a;
  let wordnum := WORDNUM x in
  let bitnum := BITNUM x in
  if wordnum <? nwords b then
    do w <- word b wordnum;
    set_word a wordnum (andnot_word w (u32 (Z.shiftl 1 bitnum)));;;
    ret (Return a)
  else ret (Return a).

Definition bms_add_members (a b : Z) : M Bitmapset Z :=
  if a =? NULL then bms_copy b else
  if b =? NULL then ret a else
  do x <- load a; do y <- load b;
  do (result, other) <-
    (if nwords x <? nwords y then do r <- bms_copy b; ret (r, a) else ret (a, b));
  do o <- load other;
  combine_words or_word result other 0 (turns 0 (nwords o));;;
  (if negb (result =? a) then dealloc a else ret tt);;;
  ret result.

Definition bms_int_members (a b : Z) : M Bitmapset Z :=
  if a =? NULL then ret NULL else
  if b =? NULL then dealloc a;;; ret NULL else
  do x <- load a; do y <- load b;
  let shortlen := Z.min (nwords x) (nwords y) in
  combine_words and_word a b 0 (turns 0 shortlen);;;
  zero_words a shortlen (turns shortlen (nwords x));;;
  ret a.

Definition bms_del_members (a b : Z) : M Bitmapset Z :=
  if a =? NULL then ret NULL else
  if b =? NULL then ret a else
  do x <- load a; do y <- load b;
  let shortlen := Z.min (nwords x) (nwords y) in
  combine_words andnot_word a b 0 (turns 0 shortlen);;;
  ret a.

Definition bms_join (a b : Z) : M Bitmapset Z :=
  if a =? NULL then ret b else
  if b =? NULL then ret a else
  do x <- load a; do y <- load b;
  let '(result, other) := if nwords x <? nwords y then (b, a) else (a, b) in
  do o <- load other;
  combine_words or_word result other 0 (turns 0 (nwords o));;;
  (if negb (other =? result) then dealloc other else ret tt);;;
  ret result.

(** ** Iteration and hashing *)

Definition bms_first_from (a x : Z) : M Bitmapset Z :=
  if a =? NULL then ret (-1) else
  do b <- load a;
  let wordnum := WORDNUM x in
  if u32 (nwords b) <=? u32 wordnum then ret (-1) else
  do w <- word b wordnum;
  let w := Z.shiftr w (BITNUM x) in
  if negb (Z.land w 1 =? 0) then ret x else
  if negb (w =? 0) then
    do z <- lift (num_low_order_zero_bits w);
    ret (s32 (x + z))
  else
  do r <- find_word (λ i, do w <- word b i; ret (negb (w =? 0)))
            (wordnum + 1) (turns (wordnum + 1) (nwords b));
  match r with
  | Some wordnum =>
      do w <- word b wordnum;
      do z <- lift (num_low_order_zero_bits w);
      ret (s32 (wordnum * BITS_PER_BITMAPWORD + z))
  | None => ret (-1)
  end.

Definition bms_first_member (a : Z) : M Bitmapset Z :=
  if a =? NULL then ret (-1) else
  do b <- load a;
  do r <- find_word (λ i, do w <- word b i; ret (negb (w =? 0))) 0 (turns 0 (nwords b));
  match r with
  | Some wordnum =>
      do w <- word b wordnum;
      let one := u32 (RIGHTMOST_ONE w) in
      set_word a wordnum (andnot_word w one);;;
      do z <- lift (num_low_order_zero_bits one);
      ret (s32 (z + wordnum * BITS_PER_BITMAPWORD))
  | None => ret (-1)
  end.

(** [bms_foreach(member, set)]: the members seen by a loop that does not
    change the set; [None] in the result when [n] turns are not enough. *)
Fixpoint foreach_loop (n : nat) (set member : Z) (seen : list Z)
    : M Bitmapset (option (list Z)) :=
  if negb (0 <=? member) then ret (Some seen) else
  match n with
  | O => ret None
  | S n =>
      do next <- bms_first_from set (s32 (member + 1));
      foreach_loop n set next (seen ++ [member])
  end.

Definition bms_foreach (n : nat) (set : Z) : M Bitmapset (option (list Z)) :=
  do member <- bms_first_from set 0;
  foreach_loop n set member [].

(** [while ((x = bms_first_member(tmpset)) >= 0)]: the other way to visit
    the members, which empties the set. *)
Fixpoint drain_loop (n : nat) (tmpset : Z) (seen : list Z) : M Bitmapset (option (list Z)) :=
  do x <- bms_first_member tmpset;
  if negb (0 <=? x) then ret (Some seen) else
  match n with
  | O => ret None
  | S n => drain_loop n tmpset (seen ++ [x])
  end.

(** [for (wordnum = nwords; --wordnum > 0;)], from the last word down to the
    one before the first. *)
Fixpoint hash_loop (b : Bitmapset) (wordnum : nat) (result : Z) : M Bitmapset Z :=
  match wordnum with
  | O => ret result
  | S n =>
      do w <- word b (Z.of_nat wordnum);
      let result := Z.lxor result w in
      hash_loop b n
        (if negb (Z.land result (u32 (Z.shiftl 1 (BITS_PER_BITMAPWORD - 1))) =? 0)
         then Z.lor (u32 (Z.shiftl result 1)) 1
         else u32 (Z.shiftl result 1))
  end.

Definition bms_hash_value (a : Z) : M Bitmapset Z :=
  if a =? NULL then ret 0 else
  do b <- load a;
  if nwords b <=? 0 then ret 0 else
  do result <- hash_loop b (Z.to_nat (nwords b - 1)) 0;
  do w <- word b 0;
  ret (u32 (Z.lxor result w)).
