(* ===== verification/BitmapsetWords.v ===== *)
(** The words of a [Bitmapset]: their bits, and the bit tricks of
    backend/nodes/bitmapset.c.

    [lsb w] is the lowest set bit of a word and [ones w] the number of its set
    bits; [RIGHTMOST_ONE], [HAS_MULTIPLE_ONES], [num_low_order_zero_bits] and
    the table of byte counts compute them.  [members] is the set that a list of
    words stands for. *)
From stdpp Require Import prelude gmap list numbers sorting.
From S2P Require Import Prelude Store Bitmapset.

#[local] Arguments s32 : simpl never.
#[local] Arguments u32 : simpl never.

Definition is_word (w : Z) : Prop := 0 ≤ w < 2 ^ 32.

(** Word [k], zero beyond the end; bit [x] of the words. *)
Definition wd (l : list Z) (k : nat) : Z := default 0 (l !! k).

Definition bit (l : list Z) (x : Z) : bool :=
  (0 <=? x) && Z.testbit (wd l (Z.to_nat (x / 32))) (x `mod` 32).

Definition positions (l : list Z) : list Z := seqZ 0 (32 * Z.of_nat (length l)).

Definition members (l : list Z) : gset Z :=
  list_to_set (filter (λ x, bit l x = true) (positions l)).

(** ** Words *)

Lemma wd_range l k : Forall is_word l → is_word (wd l k).
Proof.
  intros Hl. unfold wd. destruct (l !! k) eqn:E; simpl; [|done].
  by eapply Forall_lookup in E.
Qed.

Lemma wd_ge l k : (length l ≤ k)%nat → wd l k = 0.
Proof. intros. unfold wd. by rewrite lookup_ge_None_2. Qed.

Lemma wd_nil k : wd [] k = 0.
Proof. unfold wd. by rewrite lookup_nil. Qed.

Lemma wd_lookup l k w : l !! k = Some w → wd l k = w.
Proof. unfold wd. by intros ->. Qed.

Lemma lookup_wd l k : (k < length l)%nat → l !! k = Some (wd l k).
Proof. intros Hk. unfold wd. by destruct (lookup_lt_is_Some_2 _ _ Hk) as [w ->]. Qed.

Lemma WORDNUM_eq x : 0 ≤ x < 2 ^ 31 → WORDNUM x = x / 32.
Proof.
  intros Hx. unfold WORDNUM, BITS_PER_BITMAPWORD_LOG2.
  rewrite u32_id, Z.shiftr_div_pow2 by lia. apply s32_id. change (2 ^ 5) with 32. divlia.
Qed.

Lemma BITNUM_eq x : 0 ≤ x < 2 ^ 31 → BITNUM x = x `mod` 32.
Proof.
  intros Hx. unfold BITNUM, BITS_PER_BITMAPWORD. rewrite u32_id by lia.
  change (32 - 1) with (Z.ones 5). rewrite Z.land_ones by lia. apply s32_id.
  change (2 ^ 5) with 32. divlia.
Qed.

Lemma bmw_not_spec w i : 0 ≤ i → Z.testbit (bmw_not w) i = (i <? 32) && negb (Z.testbit w i).
Proof. intros. unfold bmw_not. by rewrite u32_spec, Z.lnot_spec by lia. Qed.

Lemma bmw_not_range w : is_word (bmw_not w).
Proof. apply u32_range. Qed.

Lemma word_eq w w' : is_word w → is_word w' →
  w = w' ↔ ∀ i, 0 ≤ i < 32 → Z.testbit w i = Z.testbit w' i.
Proof.
  intros Hw Hw'. split; [by intros ->|]. intros Hb. apply Z.bits_inj'. intros i Hi.
  destruct (decide (i < 32)); [by apply Hb|].
  by rewrite (range_testbit w 32), (range_testbit w' 32) by (done || lia).
Qed.

Lemma land_word w w' : is_word w → is_word w' → is_word (Z.land w w').
Proof.
  intros Hw Hw'. apply testbit_range; [lia|]. intros i Hi.
  by rewrite Z.land_spec, (range_testbit w 32).
Qed.

Lemma or_word_range w w' : is_word w → is_word w' → is_word (or_word w w').
Proof. intros. by apply lor_range. Qed.

Lemma andnot_word_range w w' : is_word w → is_word (andnot_word w w').
Proof. intros. apply land_word; [done|apply bmw_not_range]. Qed.

Lemma andnot_word_0 w w' : is_word w → is_word w' →
  Z.land w (bmw_not w') = 0 ↔ ∀ i, 0 ≤ i < 32 → Z.testbit w i = true → Z.testbit w' i = true.
Proof.
  intros Hw Hw'. rewrite word_eq; [|by apply land_word, bmw_not_range|done].
  apply forall_proper. intros i. split; intros Hb Hi; specialize (Hb Hi); revert Hb;
    rewrite Z.land_spec, bmw_not_spec, Z.testbit_0_l by lia; decide_bools;
    destruct (Z.testbit w i), (Z.testbit w' i); naive_solver.
Qed.

Lemma land_word_0 w w' : is_word w → is_word w' →
  Z.land w w' = 0 ↔ ∀ i, 0 ≤ i < 32 → Z.testbit w i = true → Z.testbit w' i = false.
Proof.
  intros Hw Hw'. rewrite word_eq; [|by apply land_word|done].
  apply forall_proper. intros i. split; intros Hb Hi; specialize (Hb Hi); revert Hb;
    rewrite Z.land_spec, Z.testbit_0_l;
    destruct (Z.testbit w i), (Z.testbit w' i); naive_solver.
Qed.

(** The word with the one bit [n]. *)
Lemma one_bit n : 0 ≤ n < 32 → u32 (Z.shiftl 1 n) = 2 ^ n.
Proof.
  intros Hn. rewrite Z.shiftl_mul_pow2, Z.mul_1_l by lia. apply u32_id. split; [lia|].
  apply Z.pow_lt_mono_r; lia.
Qed.

Lemma one_bit_word n : 0 ≤ n < 32 → is_word (2 ^ n).
Proof. intros Hn. split; [lia|]. apply Z.pow_lt_mono_r; lia. Qed.

Lemma land_one_bit w n : 0 ≤ n → (Z.land w (2 ^ n) =? 0) = negb (Z.testbit w n).
Proof.
  intros Hn. destruct (Z.testbit w n) eqn:E; simpl.
  - apply Z.eqb_neq. intros H0. apply (f_equal (λ z, Z.testbit z n)) in H0.
    rewrite Z.land_spec, Z.pow2_bits_true, Z.testbit_0_l, E in H0 by done. done.
  - apply Z.eqb_eq, Z.bits_inj'. intros i Hi. rewrite Z.land_spec, Z.testbit_0_l.
    rewrite Z.pow2_bits_eqb by done. destruct (Z.eqb_spec n i) as [<-|]; [by rewrite E|].
    apply andb_false_r.
Qed.

(** ** The set of the bits *)

Lemma bit_neg l x : x < 0 → bit l x = false.
Proof. intros. unfold bit. by rewrite (proj2 (Z.leb_gt 0 x)) by lia. Qed.

Lemma bit_wd l x : 0 ≤ x → bit l x = Z.testbit (wd l (Z.to_nat (x / 32))) (x `mod` 32).
Proof. intros. unfold bit. by rewrite (proj2 (Z.leb_le 0 x)) by lia. Qed.

Lemma bit_in l x : bit l x = true → 0 ≤ x < 32 * Z.of_nat (length l).
Proof.
  unfold bit. intros [Hx Hb]%andb_true_iff. apply Z.leb_le in Hx.
  destruct (decide (Z.to_nat (x / 32) < length l)%nat); [divlia|].
  by rewrite wd_ge, Z.testbit_0_l in Hb by lia.
Qed.

Lemma elem_of_members l x : x ∈ members l ↔ bit l x = true.
Proof.
  unfold members, positions. rewrite elem_of_list_to_set, list_elem_of_filter, elem_of_seqZ.
  split; [naive_solver|]. intros Hb. pose proof (bit_in _ _ Hb). split; [done|lia].
Qed.

(** The bit [i] of word [k] is the member [32 k + i]. *)
Lemma bit_at l k i : 0 ≤ i < 32 → bit l (32 * Z.of_nat k + i) = Z.testbit (wd l k) i.
Proof.
  intros Hi. rewrite bit_wd by lia. f_equal; [f_equal|]; divlia.
Qed.

Lemma forall_bits (P : nat → Z → Prop) :
  (∀ x, 0 ≤ x → P (Z.to_nat (x / 32)) (x `mod` 32)) ↔ ∀ k i, 0 ≤ i < 32 → P k i.
Proof.
  split.
  - intros H k i Hi. specialize (H (32 * Z.of_nat k + i)). 
    replace (Z.to_nat ((32 * Z.of_nat k + i) / 32)) with k in H by divlia.
    replace ((32 * Z.of_nat k + i) `mod` 32) with i in H by divlia. apply H. lia.
  - intros H x Hx. apply H. divlia.
Qed.

Section Sets.
Context (l l' : list Z) (Hl : Forall is_word l) (Hl' : Forall is_word l').

Lemma members_eq : members l = members l' ↔ ∀ k, wd l k = wd l' k.
Proof.
  transitivity (∀ k i, 0 ≤ i < 32 → Z.testbit (wd l k) i = Z.testbit (wd l' k) i).
  - rewrite <- (forall_bits (λ k i, Z.testbit (wd l k) i = Z.testbit (wd l' k) i)). split.
    + intros E x Hx. rewrite <- !bit_wd by done. apply eq_true_iff_eq.
      by rewrite <- !elem_of_members, E.
    + intros E. apply set_eq. intros x. rewrite !elem_of_members.
      destruct (decide (0 ≤ x)); [|by rewrite !bit_neg by lia].
      by rewrite !bit_wd, E by done.
  - apply forall_proper. intros k. symmetry. apply word_eq; by apply wd_range.
Qed.

Lemma members_subset : members l ⊆ members l' ↔ ∀ k, Z.land (wd l k) (bmw_not (wd l' k)) = 0.
Proof.
  transitivity (∀ k i, 0 ≤ i < 32 → Z.testbit (wd l k) i = true → Z.testbit (wd l' k) i = true).
  - rewrite <- (forall_bits (λ k i, Z.testbit (wd l k) i = true → Z.testbit (wd l' k) i = true)).
    rewrite elem_of_subseteq. split.
    + intros E x Hx. rewrite <- !bit_wd, <- !elem_of_members by done. apply E.
    + intros E x. rewrite !elem_of_members. intros Hx. pose proof (bit_in _ _ Hx).
      rewrite bit_wd in * by lia. by apply E; [lia|].
  - apply forall_proper. intros k. symmetry. apply andnot_word_0; by apply wd_range.
Qed.

Lemma members_disjoint : members l ∩ members l' = ∅ ↔ ∀ k, Z.land (wd l k) (wd l' k) = 0.
Proof.
  transitivity (∀ k i, 0 ≤ i < 32 → Z.testbit (wd l k) i = true → Z.testbit (wd l' k) i = false).
  - rewrite <- (forall_bits (λ k i, Z.testbit (wd l k) i = true → Z.testbit (wd l' k) i = false)).
    split.
    + intros E x Hx. rewrite <- !bit_wd by done. intros Hb. apply not_true_is_false.
      rewrite <- elem_of_members in *. set_solver.
    + intros E. apply set_eq. intros x. rewrite elem_of_intersection, !elem_of_members.
      split; [|set_solver]. intros [Hx Hx']. pose proof (bit_in _ _ Hx).
      rewrite bit_wd in * by lia. apply E in Hx; [congruence|lia].
  - apply forall_proper. intros k. symmetry. apply land_word_0; by apply wd_range.
Qed.

Lemma members_empty : members l = ∅ ↔ ∀ k, wd l k = 0.
Proof.
  transitivity (∀ k i, 0 ≤ i < 32 → Z.testbit (wd l k) i = false).
  - rewrite <- (forall_bits (λ k i, Z.testbit (wd l k) i = false)). split.
    + intros E x Hx. rewrite <- bit_wd by done. apply not_true_is_false.
      rewrite <- elem_of_members. set_solver.
    + intros E. apply set_eq. intros x. rewrite elem_of_members.
      split; [|set_solver]. intros Hx. pose proof (bit_in _ _ Hx).
      rewrite bit_wd, E in Hx by lia. done.
  - apply forall_proper. intros k. rewrite (word_eq (wd l k) 0) by (done || by apply wd_range).
    by setoid_rewrite Z.testbit_0_l.
Qed.
End Sets.

(** ** The lowest set bit *)

Definition is_lsb (w k : Z) : Prop :=
  0 ≤ k ∧ Z.testbit w k = true ∧ ∀ i, 0 ≤ i < k → Z.testbit w i = false.

Lemma is_lsb_unique w k k' : is_lsb w k → is_lsb w k' → k = k'.
Proof.
  intros (? & Hk & Hlt) (? & Hk' & Hlt'). destruct (Z.lt_trichotomy k k') as [?|[?|?]]; [|done|].
  - rewrite Hlt' in Hk by lia. done.
  - rewrite Hlt in Hk' by lia. done.
Qed.

Lemma is_lsb_ex w : is_word w → w ≠ 0 → ∃ k, is_lsb w k ∧ k < 32.
Proof.
  intros Hw H0. destruct (list_find (λ i, Z.testbit w i = true) (seqZ 0 32)) as [[n k]|] eqn:E.
  - apply list_find_Some in E as (Hk & Hb & Hlt).
    apply lookup_seqZ in Hk as [-> Hn]. exists (0 + Z.of_nat n). split; [|lia].
    split; [lia|]. split; [done|]. intros i Hi. apply not_true_is_false.
    apply (Hlt (Z.to_nat i) i); [|lia]. apply lookup_seqZ. lia.
  - apply list_find_None in E. rewrite Forall_forall in E. destruct H0.
    apply word_eq; [done|done|]. intros i Hi. rewrite Z.testbit_0_l. apply not_true_is_false, E.
    apply elem_of_seqZ. lia.
Qed.

Lemma land_ones_lsb w k i : 0 ≤ i → is_lsb w k → Z.land w (Z.ones i) = 0 ↔ i ≤ k.
Proof.
  intros Hi (Hk & Hb & Hlt). split.
  - intros H0. destruct (decide (i ≤ k)); [done|].
    apply (f_equal (λ z, Z.testbit z k)) in H0.
    rewrite Z.land_spec, Z.ones_spec_low, Z.testbit_0_l, Hb in H0 by lia. done.
  - intros Hle. apply Z.bits_inj'. intros j Hj. rewrite Z.land_spec, Z.testbit_0_l.
    destruct (decide (j < i)); [by rewrite Hlt by lia|].
    rewrite Z.ones_spec_high by lia. apply andb_false_r.
Qed.

Lemma is_lsb_shift w i k : 0 ≤ i ≤ k → is_lsb w k → is_lsb (Z.shiftr w i) (k - i).
Proof.
  intros Hi (Hk & Hb & Hlt). split; [lia|]. split.
  - rewrite Z.shiftr_spec by lia. by rewrite Z.sub_add.
  - intros j Hj. rewrite Z.shiftr_spec by lia. apply Hlt. lia.
Qed.

Lemma low_order_loop_S n i w x :
  low_order_loop (S n) i w x =
    if i =? 0 then Some (w, x) else
    if Z.land w (u32 (s32 (Z.shiftl 1 i) - 1)) =? 0
    then low_order_loop n (Z.shiftr i 1) (Z.shiftr w i) (x + i)
    else low_order_loop n (Z.shiftr i 1) w x.
Proof. done. Qed.

(** The loop of [num_low_order_zero_bits] looks for the lowest bit among the
    [2 * i] low ones. *)
Lemma low_order_loop_ok n w x k :
  (n ≤ 5)%nat → is_lsb w k → k < 2 ^ Z.of_nat n →
  ∃ w', low_order_loop (S n) (2 ^ Z.of_nat n / 2) w x = Some (w', x + k) ∧ w' ≠ 0.
Proof.
  revert w x k. induction n as [|n IH]; intros w x k Hn Hk Hlt.
  { assert (k = 0) as -> by (destruct Hk; change (2 ^ Z.of_nat 0) with 1 in Hlt; lia).
    exists w. rewrite Z.add_0_r. split; [done|]. intros ->. by destruct Hk as (_ & ? & _). }
  assert (Hi : 2 ^ Z.of_nat (S n) / 2 = 2 ^ Z.of_nat n).
  { rewrite Nat2Z.inj_succ, Z.pow_succ_r, Z.mul_comm, Z.div_mul by lia. done. }
  assert (Hle : 2 ^ Z.of_nat n ≤ 2 ^ 4) by (apply Z.pow_le_mono_r; lia).
  pose proof (Z.pow_pos_nonneg 2 (Z.of_nat n) ltac:(lia) ltac:(lia)) as Hpos.
  rewrite Nat2Z.inj_succ, Z.pow_succ_r in Hlt by lia.
  rewrite Hi, low_order_loop_S. clear Hi. remember (2 ^ Z.of_nat n) as i eqn:Ei.
  rewrite (proj2 (Z.eqb_neq i 0)) by lia.
  pose proof (Z.pow_le_mono_r 2 i 16 ltac:(lia) ltac:(lia)) as Hp.
  rewrite Z.shiftl_mul_pow2, Z.mul_1_l, s32_id, u32_id by lia.
  rewrite Z.sub_1_r, <- Z.ones_equiv, (Z.shiftr_div_pow2 i 1) by lia. change (2 ^ 1) with 2.
  destruct (Z.eqb_spec (Z.land w (Z.ones i)) 0) as [H0|H0];
    rewrite (land_ones_lsb w k) in H0 by (done || lia).
  - destruct (IH (Z.shiftr w i) (x + i) (k - i)) as (w' & E & Hw');
      [lia|by apply is_lsb_shift; [lia|]|lia|].
    exists w'. rewrite E. split; [|done]. do 2 f_equal. lia.
  - destruct (IH w x k) as (w' & E & Hw'); [lia|done|lia|]. by exists w'.
Qed.

Lemma num_low_order_zero_bits_ok w k :
  is_lsb w k → k < 32 → num_low_order_zero_bits w = Some k.
Proof.
  intros Hk Hlt. destruct (low_order_loop_ok 5 w 0 k) as (w' & E & Hw'); [lia|done|done|].
  unfold num_low_order_zero_bits. change (BITS_PER_BITMAPWORD / 2) with (2 ^ Z.of_nat 5 / 2).
  rewrite E. simpl. by rewrite (proj2 (Z.eqb_neq w' 0)).
Qed.

Lemma is_lsb_pow2 k : 0 ≤ k → is_lsb (2 ^ k) k.
Proof.
  intros Hk. split; [done|]. split; [by apply Z.pow2_bits_true|].
  intros i Hi. apply Z.pow2_bits_false. lia.
Qed.

(** The bits of [- w]: none below the lowest one of [w], the same one, and the
    complement above it. *)
Lemma testbit_opp_lsb w k i :
  is_lsb w k → 0 ≤ i →
  Z.testbit (- w) i = (i =? k) || (k <? i) && negb (Z.testbit w i).
Proof.
  intros (Hk & Hb & Hlt) Hi.
  assert (Hw : w = Z.shiftl (Z.shiftr w (k + 1)) (k + 1) + 2 ^ k).
  { assert (Hm : Z.land w (Z.ones (k + 1)) = 2 ^ k).
    { apply Z.bits_inj'. intros j Hj. rewrite Z.land_spec.
      destruct (Z.lt_trichotomy j k) as [?|[->|?]].
      - by rewrite Hlt, Z.pow2_bits_false by lia.
      - by rewrite Hb, Z.ones_spec_low, Z.pow2_bits_true by lia.
      - rewrite Z.ones_spec_high, Z.pow2_bits_false by lia. apply andb_false_r. }
    rewrite Z.land_ones in Hm by lia. rewrite Z.shiftl_mul_pow2, Z.shiftr_div_pow2 by lia.
    pose proof (Z.div_mod w (2 ^ (k + 1))). lia. }
  set (q := Z.shiftr w (k + 1)) in *.
  assert (E : - w = Z.shiftl (Z.lnot q) (k + 1) + 2 ^ k).
  { rewrite Hw, !Z.shiftl_mul_pow2 by lia. unfold Z.lnot. rewrite Z.pow_add_r by lia.
    change (2 ^ 1) with 2. lia. }
  assert (Hs : 0 ≤ 2 ^ k < 2 ^ (k + 1)) by (split; [lia|apply Z.pow_lt_mono_r; lia]).
  rewrite E, Z.add_comm, <- lor_shiftl_add, Z.lor_spec, Z.pow2_bits_eqb by lia.
  rewrite (Z.eqb_sym k i). destruct (Z.eqb_spec i k) as [->|Hne]; [done|]. simpl.
  destruct (Z.ltb_spec k i); simpl.
  - rewrite Z.shiftl_spec, Z.lnot_spec by lia. unfold q. rewrite Z.shiftr_spec by lia.
    do 2 f_equal. lia.
  - by rewrite Z.shiftl_spec_low by lia.
Qed.

Lemma eq32_s32 z : eq32 (s32 z) z.
Proof.
  unfold eq32, s32, u32. rewrite <- (Z.add_opp_r ((z + _) `mod` _)).
  rewrite Z.add_mod_idemp_l by lia. f_equal. lia.
Qed.

Lemma eq32_testbit z z' i : 0 ≤ i < 32 → eq32 z z' → Z.testbit z i = Z.testbit z' i.
Proof.
  intros Hi Hu. apply (f_equal (λ z, Z.testbit z i)) in Hu. rewrite !u32_spec in Hu by lia.
  revert Hu. by decide_bools.
Qed.

Lemma s32_spec z i : 0 ≤ i < 32 → Z.testbit (s32 z) i = Z.testbit z i.
Proof. intros Hi. apply eq32_testbit; [done|apply eq32_s32]. Qed.

Lemma rightmost_one_ok w k : is_lsb w k → k < 32 → u32 (RIGHTMOST_ONE w) = 2 ^ k.
Proof.
  intros Hk Hlt. assert (0 ≤ k) by apply Hk.
  apply word_eq; [apply u32_range|by apply one_bit_word|]. intros i Hi.
  unfold RIGHTMOST_ONE. rewrite u32_spec, Z.land_spec, !s32_spec by lia. decide_bools.
  assert (Hn : Z.testbit (- s32 w) i = Z.testbit (- w) i).
  { apply eq32_testbit; [done|]. rewrite <- !Z.sub_0_l. by rewrite eq32_s32. }
  rewrite Hn, (testbit_opp_lsb w k i) by (done || lia). rewrite Z.pow2_bits_eqb, (Z.eqb_sym k i) by lia.
  destruct Hk as (_ & Hb & Hlt'). destruct (Z.eqb_spec i k) as [->|]; [by rewrite Hb|].
  destruct (Z.ltb_spec k i); simpl; [by destruct (Z.testbit w i)|apply andb_false_r].
Qed.

Lemma has_multiple_ones_ok w k : is_lsb w k → k < 32 → HAS_MULTIPLE_ONES w = negb (w =? 2 ^ k).
Proof.
  intros. unfold HAS_MULTIPLE_ONES. rewrite (rightmost_one_ok w k) by done.
  by rewrite Z.eqb_sym.
Qed.

(** ** Counting bits *)

Definition ones (w : Z) : list Z := filter (λ i, Z.testbit w i = true) (seqZ 0 32).

Lemma ones_0 : ones 0 = [].
Proof. done. Qed.

(** The number of set bits of a byte is in the table. *)
Definition byte_ones (w : Z) : list Z := filter (λ i, Z.testbit w i = true) (seqZ 0 8).

Lemma number_of_ones_ok b :
  0 ≤ b < 256 → number_of_ones !! Z.to_nat b = Some (Z.of_nat (length (byte_ones b))).
Proof.
  intros Hb. assert (Forall (λ b, number_of_ones !! Z.to_nat b
    = Some (Z.of_nat (length (byte_ones b)))) (seqZ 0 256)) as HF.
  { apply (bool_decide_unpack _). by vm_compute. }
  rewrite Forall_forall in HF. apply HF, elem_of_seqZ. lia.
Qed.

(** The bits of a word from bit [s] on. *)
Lemma filter_testbit_shift w (n : nat) s a :
  0 ≤ s → 0 ≤ a →
  filter (λ i, Z.testbit w i = true) (seqZ (a + s) (Z.of_nat n)) =
  Z.add s <$> filter (λ i, Z.testbit (Z.shiftr w s) i = true) (seqZ a (Z.of_nat n)).
Proof.
  intros Hs. revert a. induction n as [|n IH]; intros a Ha; [done|].
  rewrite !(seqZ_cons _ (Z.of_nat (S n))) by lia. rewrite !filter_cons.
  rewrite Z.shiftr_spec by lia. replace (Z.pred (Z.of_nat (S n))) with (Z.of_nat n) by lia.
  replace (Z.succ (a + s)) with (Z.succ a + s) by lia. rewrite IH by lia.
  case_decide; [|done]. cbn. f_equal. lia.
Qed.

Lemma s32_eq32 z z' : eq32 z z' → s32 z = s32 z'.
Proof.
  intros E. unfold s32. f_equal. change (u32 (z + 2 ^ 31) = u32 (z' + 2 ^ 31)).
  change (eq32 (z + 2 ^ 31) (z' + 2 ^ 31)). by rewrite E.
Qed.

Lemma count_ones_ok n w r :
  0 ≤ w < 2 ^ (8 * Z.of_nat n) →
  count_ones n w (s32 r) =
    Some (s32 (r + Z.of_nat (length (filter (λ i, Z.testbit w i = true)
                                       (seqZ 0 (8 * Z.of_nat n)))))).
Proof.
  assert (H0 : ∀ (m : Z), filter (λ i, Z.testbit 0 i = true) (seqZ 0 m) = []).
  { intros m. induction (seqZ 0 m) as [|i l IH]; [done|]. rewrite filter_cons.
    by rewrite decide_False by (by rewrite Z.testbit_0_l). }
  revert w r. induction n as [|n IH]; intros w r Hw.
  { assert (w = 0) as -> by (change (2 ^ (8 * Z.of_nat 0)) with 1 in Hw; lia).
    simpl. by rewrite Z.add_0_r. }
  cbn [count_ones]. destruct (Z.eqb_spec w 0) as [->|Hne].
  { rewrite H0. simpl. by rewrite Z.add_0_r. }
  change 255 with (Z.ones 8). rewrite Z.land_ones, number_of_ones_ok by (try apply Z.mod_pos_bound; lia).
  cbn [mbind option_bind]. 
  rewrite (s32_eq32 _ (r + Z.of_nat (length (byte_ones (w `mod` 2 ^ 8))))) by (by rewrite eq32_s32).
  rewrite IH.
  2: { rewrite Z.shiftr_div_pow2 by lia. split; [apply Z.div_pos; lia|].
       apply Z.div_lt_upper_bound; [lia|]. rewrite <- Z.pow_add_r by lia.
       replace (8 + 8 * Z.of_nat n) with (8 * Z.of_nat (S n)) by lia. lia. }
  do 2 f_equal. replace (8 * Z.of_nat (S n)) with (8 + 8 * Z.of_nat n) by lia.
  rewrite seqZ_app, filter_app, length_app by lia.
  pose proof (filter_testbit_shift w (8 * n) 8 0 ltac:(lia) ltac:(lia)) as Hs.
  rewrite Nat2Z.inj_mul in Hs. change (Z.of_nat 8) with 8 in Hs. change (0 + 8) with 8 in Hs |- *. rewrite Hs, length_fmap.
  assert (Hb : filter (λ i, Z.testbit w i = true) (seqZ 0 8) = byte_ones (w `mod` 2 ^ 8)).
  { apply filter_ext_in. intros i Hi%elem_of_seqZ.
    by rewrite Z.mod_pow2_bits_low by lia. }
  rewrite Hb. lia.
Qed.

Lemma count_ones_word w r :
  is_word w → count_ones 4 w (s32 r) = Some (s32 (r + Z.of_nat (length (ones w)))).
Proof. intros Hw. by apply (count_ones_ok 4). Qed.

(** A word with one set bit. *)
Lemma ones_pow2 k : 0 ≤ k < 32 → ones (2 ^ k) = [k].
Proof.
  intros Hk. assert (HF : Forall (λ k, ones (2 ^ k) = [k]) (seqZ 0 32)).
  { apply (bool_decide_unpack _). by vm_compute. }
  rewrite Forall_forall in HF. apply HF, elem_of_seqZ. lia.
Qed.

Lemma elem_of_ones w i : i ∈ ones w ↔ 0 ≤ i < 32 ∧ Z.testbit w i = true.
Proof. unfold ones. rewrite list_elem_of_filter, elem_of_seqZ. naive_solver lia. Qed.

(** ** The members in increasing order *)

Definition member_list (l : list Z) : list Z := filter (λ x, bit l x = true) (positions l).

Lemma members_list l : members l = list_to_set (member_list l).
Proof. done. Qed.

Lemma member_list_nil : member_list [] = [].
Proof. done. Qed.

Lemma elem_of_member_list l x : x ∈ member_list l ↔ bit l x = true.
Proof. by rewrite <- elem_of_members, members_list, elem_of_list_to_set. Qed.

Lemma filter_sorted {A} (R : relation A) (P : A → Prop) `{∀ x, Decision (P x)} (l : list A) :
  StronglySorted R l → StronglySorted R (filter P l).
Proof.
  induction 1 as [|x l Hl IH Hx]; [constructor|]. rewrite filter_cons.
  case_decide; [|done]. constructor; [done|]. rewrite Forall_forall in *.
  intros y [_ Hy]%list_elem_of_filter. by apply Hx.
Qed.

Lemma member_list_sorted l : StronglySorted Z.lt (member_list l).
Proof. apply filter_sorted, seqZ_sorted. Qed.

Lemma sorted_lt_nodup (l : list Z) : StronglySorted Z.lt l → NoDup l.
Proof.
  induction 1 as [|x l Hl IH Hx]; constructor; [|done]. rewrite Forall_forall in Hx.
  intros Hin%Hx. lia.
Qed.

Lemma size_members l : size (members l) = length (member_list l).
Proof. apply size_list_to_set, sorted_lt_nodup, member_list_sorted. Qed.

(** Two strictly increasing lists with the same elements are the same list. *)
Lemma sorted_lt_unique (l l' : list Z) :
  StronglySorted Z.lt l → StronglySorted Z.lt l' → (∀ x, x ∈ l ↔ x ∈ l') → l = l'.
Proof.
  intros Hl Hl' Heq. apply (StronglySorted_unique Z.le).
  - clear -Hl. induction Hl; constructor; [done|]. eapply Forall_impl; [done|]. simpl. lia.
  - clear -Hl'. induction Hl'; constructor; [done|]. eapply Forall_impl; [done|]. simpl. lia.
  - apply NoDup_Permutation; [by apply sorted_lt_nodup..|done].
Qed.

(** One more word. *)
Lemma member_list_snoc l w :
  member_list (l ++ [w]) =
    member_list l ++ (Z.add (32 * Z.of_nat (length l)) <$> ones w).
Proof.
  unfold member_list, positions. rewrite length_app. simpl length.
  replace (32 * Z.of_nat (length l + 1)) with (32 * Z.of_nat (length l) + 32) by lia.
  rewrite seqZ_app, filter_app by lia. f_equal.
  - apply filter_ext_in. intros x Hx%elem_of_seqZ. rewrite !bit_wd by lia. unfold wd.
    rewrite lookup_app_l by divlia. done.
  - unfold ones. change 32 with (Z.of_nat 32) at 2 4.
    assert (Hf : ∀ (n : nat) a, 0 ≤ a → a + Z.of_nat n ≤ 32 →
      filter (λ x, bit (l ++ [w]) x = true) (seqZ (0 + 32 * Z.of_nat (length l) + a) (Z.of_nat n)) =
      Z.add (32 * Z.of_nat (length l)) <$> filter (λ i, Z.testbit w i = true) (seqZ a (Z.of_nat n))).
    { induction n as [|n IH]; intros a Ha Hn; [done|].
      rewrite !(seqZ_cons _ (Z.of_nat (S n))) by lia. rewrite !filter_cons.
      replace (Z.pred (Z.of_nat (S n))) with (Z.of_nat n) by lia.
      replace (Z.succ (0 + 32 * Z.of_nat (length l) + a))
        with (0 + 32 * Z.of_nat (length l) + Z.succ a) by lia.
      rewrite IH, Z.add_0_l, bit_at by lia.
      assert (wd (l ++ [w]) (length l) = w) as ->.
      { unfold wd. by rewrite lookup_app_r, Nat.sub_diag by lia. }
      case_decide; done. }
    rewrite <- (Hf 32%nat 0), Z.add_0_r by lia. done.
Qed.

Lemma member_list_take l k :
  (k < length l)%nat →
  member_list (take (S k) l) =
    member_list (take k l) ++ (Z.add (32 * Z.of_nat k) <$> ones (wd l k)).
Proof.
  intros Hk. rewrite (take_S_r l k (wd l k)) by (by apply lookup_wd).
  by rewrite member_list_snoc, length_take, Nat.min_l by lia.
Qed.

(** The members of a word that is not zero. *)
Lemma ones_lsb w : is_word w → w ≠ 0 → ∃ k t, ones w = k :: t ∧ is_lsb w k ∧ 0 ≤ k < 32 ∧
  (HAS_MULTIPLE_ONES w = true ↔ t ≠ []) ∧ num_low_order_zero_bits w = Some k.
Proof.
  intros Hw H0. destruct (is_lsb_ex w Hw H0) as (k & Hk & Hlt).
  assert (0 ≤ k) by apply Hk.
  assert (Hs : StronglySorted Z.lt (ones w)) by apply filter_sorted, seqZ_sorted.
  assert (Hin : k ∈ ones w) by (apply elem_of_ones; split; [lia|apply Hk]).
  destruct (ones w) as [|k' t] eqn:E; [by apply not_elem_of_nil in Hin|].
  assert (k' = k) as ->.
  { apply StronglySorted_inv in Hs as [_ Hs]. rewrite Forall_forall in Hs.
    assert (Hk' : k' ∈ ones w) by (rewrite E; set_solver). apply elem_of_ones in Hk' as [? Hk'].
    apply elem_of_cons in Hin as [->|Hin]; [done|]. apply Hs in Hin.
    destruct Hk as (_ & _ & Hlow). by rewrite Hlow in Hk' by lia. }
  exists k, t. split_and!; [done..|lia|lia| |by apply num_low_order_zero_bits_ok].
  rewrite (has_multiple_ones_ok w k) by done. rewrite negb_true_iff, Z.eqb_neq. split.
  - intros Hne ->. apply Hne. apply word_eq; [done|apply one_bit_word; lia|]. intros i Hi.
    rewrite Z.pow2_bits_eqb by lia. destruct (Z.eqb_spec k i) as [<-|].
    { apply Hk. }
    apply not_true_is_false. intros Hi'. assert (i ∈ ones w) as Hin' by (by apply elem_of_ones).
    rewrite E in Hin'. set_solver.
  - intros Ht ->. by rewrite ones_pow2 in E by lia; simplify_eq.
Qed.
