(* ===== verification/BitmapsetOps.v ===== *)
(** What each function of backend/nodes/bitmapset.c does to the store.

    [repr h p v]: the pointer [p] is NULL and [v] is [None], or it points to a
    well-formed object and [v] is the set of its members.  [effect] describes
    a function that consumes some pointers and returns one: the result, what
    becomes of the objects it was given, and that nothing else changed. *)
From stdpp Require Import prelude gmap list numbers sorting.
From S2P Require Import Prelude Store Bitmapset BitmapsetWords.

#[local] Arguments s32 : simpl never.
#[local] Arguments u32 : simpl never.

(** The length is exact and no member exceeds an [int]. *)
Definition wf (b : Bitmapset) : Prop :=
  nwords b = Z.of_nat (length (words b)) ∧ nwords b ≤ 2 ^ 26 ∧ Forall is_word (words b).

Definition aset : Type := option (gset Z).
Definition elems (v : aset) : gset Z := default ∅ v.

Definition repr (h : Store Bitmapset) (p : Z) (v : aset) : Prop :=
  match v with
  | None => p = NULL
  | Some X => ∃ b, cells h !! p = Some b ∧ wf b ∧ members (words b) = X
  end.

Definition effect (h : Store Bitmapset) (given : list Z) (h' : Store Bitmapset) (p : Z) (v : aset)
    : Prop :=
  store_ok h' ∧ repr h' p v ∧
  (p = NULL ∨ p ∈ given ∨ cells h !! p = None) ∧
  (∀ q, q ∉ given → q ≠ p → cells h' !! q = cells h !! q) ∧
  (∀ q, q ∈ given → q ≠ p → cells h' !! q = None).

(** ** Accesses and loops *)

Lemma word_ok b k h : 0 ≤ k < Z.of_nat (length (words b)) →
  word b k h = Some (wd (words b) (Z.to_nat k), h).
Proof. intros Hk. unfold word. by rewrite lookup_wd by lia. Qed.

Lemma bind_word {B} b k (f : Z → M Bitmapset B) h :
  0 ≤ k < Z.of_nat (length (words b)) →
  bind (word b k) f h = f (wd (words b) (Z.to_nat k)) h.
Proof. intros Hk. unfold bind. by rewrite word_ok. Qed.

Lemma set_word_ok h p b i w :
  cells h !! p = Some b → 0 ≤ i < Z.of_nat (length (words b)) →
  set_word p i w h =
    Some (tt, mkStore (<[p := mkBitmapset (nwords b) (<[Z.to_nat i := w]> (words b))]> (cells h)) (brk h)).
Proof.
  intros Hp Hi. unfold set_word. erewrite bind_load by done. rewrite bind_word by done.
  by rewrite (modify_ok _ _ b).
Qed.

(** The first index of [i .. i + n) that passes a test. *)
Definition found (t : Z → bool) (i : Z) (n : nat) (r : option Z) : Prop :=
  match r with
  | Some k => i ≤ k < i + Z.of_nat n ∧ t k = true ∧ ∀ j, i ≤ j < k → t j = false
  | None => ∀ j, i ≤ j < i + Z.of_nat n → t j = false
  end.

Lemma find_word_ok test (t : Z → bool) h i n :
  (∀ k, i ≤ k < i + Z.of_nat n → test k h = Some (t k, h)) →
  ∃ r, find_word test i n h = Some (r, h) ∧ found t i n r.
Proof.
  revert i. induction n as [|n IH]; intros i Ht.
  { exists None. split; [done|]. intros j Hj. lia. }
  cbn [find_word]. unfold bind at 1. rewrite Ht by lia.
  destruct (t i) eqn:Ei.
  { exists (Some i). split; [done|]. split; [lia|]. split; [done|]. lia. }
  destruct (IH (i + 1)) as (r & -> & Hr); [intros; apply Ht; lia|].
  exists r. split; [done|]. destruct r as [k|]; cbn in *.
  - destruct Hr as (Hk & Htk & Hlt). split; [lia|]. split; [done|]. intros j Hj.
    destruct (decide (j = i)) as [->|]; [done|]. apply Hlt. lia.
  - intros j Hj. destruct (decide (j = i)) as [->|]; [done|]. apply Hr. lia.
Qed.

(** A search that is a test for all indices. *)
Lemma found_None t i n r : found t i n r → r = None ↔ ∀ j, i ≤ j < i + Z.of_nat n → t j = false.
Proof.
  destruct r as [k|]; cbn; [|done]. intros (Hk & Htk & _). split; [done|].
  intros Hj. by rewrite Hj in Htk by lia.
Qed.

Lemma combine_words_ok f n : ∀ h r o br bo i,
  cells h !! r = Some br → cells h !! o = Some bo → 0 ≤ i →
  i + Z.of_nat n ≤ Z.of_nat (length (words br)) →
  i + Z.of_nat n ≤ Z.of_nat (length (words bo)) →
  ∃ l, combine_words f r o i n h =
      Some (tt, mkStore (<[r := mkBitmapset (nwords br) l]> (cells h)) (brk h)) ∧
    length l = length (words br) ∧
    ∀ k, wd l k = if decide (i ≤ Z.of_nat k < i + Z.of_nat n)
                  then f (wd (words br) k) (wd (words bo) k) else wd (words br) k.
Proof.
  induction n as [|n IH]; intros h r o br bo i Hr Ho Hi Hlr Hlo.
  { exists (words br). split_and!; [|done|].
    - cbn. rewrite insert_id; [by destruct h|]. by destruct br.
    - intros k. rewrite decide_False by lia. done. }
  cbn [combine_words].
  erewrite bind_load by done. rewrite bind_word by lia.
  erewrite bind_load by done. rewrite bind_word by lia.
  erewrite bind_run by (apply set_word_ok; [done|lia]).
  set (v := f _ _). set (l1 := <[Z.to_nat i := v]> (words br)).
  set (bo' := if decide (r = o) then mkBitmapset (nwords br) l1 else bo).
  assert (Hl1 : length l1 = length (words br)) by (unfold l1; by rewrite length_insert).
  assert (Hwl1 : ∀ k, wd l1 k = if decide (k = Z.to_nat i) then v else wd (words br) k).
  { intros k. unfold wd, l1. rewrite insert_lookup_dec by lia. by case_decide. }
  destruct (IH (mkStore (<[r := mkBitmapset (nwords br) l1]> (cells h)) (brk h)) r o
    (mkBitmapset (nwords br) l1) bo' (i + 1)) as (l & E & Hlen & Hl).
  - cbn. by rewrite lookup_insert_eq.
  - cbn. unfold bo'. case_decide; subst; [by rewrite lookup_insert_eq|].
    by rewrite lookup_insert_ne.
  - lia.
  - cbn. lia.
  - unfold bo'. case_decide; subst; cbn; [|lia]. simplify_map_eq. lia.
  - exists l. rewrite E. cbn [cells brk nwords words] in *. split_and!.
    + by rewrite insert_insert_eq.
    + lia.
    + intros k. rewrite Hl, !Hwl1.
      assert (Hbo : k ≠ Z.to_nat i → wd (words bo') k = wd (words bo) k).
      { intros Hk. unfold bo'. case_decide; subst; [|done]. cbn [words].
        rewrite Hwl1, decide_False by done. by simplify_map_eq. }
      destruct (decide (k = Z.to_nat i)) as [->|Hk].
      * rewrite decide_False, decide_True by lia. done.
      * rewrite Hbo by done. by repeat case_decide; try lia.
Qed.

Lemma zero_words_ok n : ∀ h a b i,
  cells h !! a = Some b → 0 ≤ i → i + Z.of_nat n ≤ Z.of_nat (length (words b)) →
  ∃ l, zero_words a i n h =
      Some (tt, mkStore (<[a := mkBitmapset (nwords b) l]> (cells h)) (brk h)) ∧
    length l = length (words b) ∧
    ∀ k, wd l k = if decide (i ≤ Z.of_nat k < i + Z.of_nat n) then 0 else wd (words b) k.
Proof.
  induction n as [|n IH]; intros h a b i Ha Hi Hl.
  { exists (words b). split_and!; [|done|].
    - cbn. rewrite insert_id; [by destruct h|]. by destruct b.
    - intros k. rewrite decide_False by lia. done. }
  cbn [zero_words]. erewrite bind_run by (apply set_word_ok; [done|lia]).
  set (l1 := <[Z.to_nat i := 0]> (words b)).
  assert (Hl1 : length l1 = length (words b)) by (unfold l1; by rewrite length_insert).
  edestruct (IH (mkStore (<[a := mkBitmapset (nwords b) l1]> (cells h)) (brk h)) a
    (mkBitmapset (nwords b) l1) (i + 1)) as (l & E & Hlen & Hw).
  - cbn. by rewrite lookup_insert_eq.
  - lia.
  - cbn. lia.
  - exists l. rewrite E. cbn [cells brk nwords words] in *. split_and!.
    + by rewrite insert_insert_eq.
    + lia.
    + intros k. rewrite Hw. unfold wd at 1, l1. rewrite insert_lookup_dec by lia.
      repeat case_decide; subst; try lia; done.
Qed.

(** ** Well-formed objects *)

Lemma Forall_wd l : (∀ k, is_word (wd l k)) → Forall is_word l.
Proof. intros Hw. apply Forall_lookup. intros k w Hk. rewrite <- (wd_lookup _ _ _ Hk). apply Hw. Qed.

Lemma wf_rewords b l :
  wf b → length l = length (words b) → (∀ k, is_word (wd l k)) → wf (mkBitmapset (nwords b) l).
Proof. intros (Hn & Hm & _) Hl Hw. split_and!; cbn; [lia|done|by apply Forall_wd]. Qed.

Lemma wf_wd b k : wf b → is_word (wd (words b) k).
Proof. intros (_ & _ & Hw). by apply wd_range. Qed.

Lemma wd_out b k : wf b → nwords b ≤ Z.of_nat k → wd (words b) k = 0.
Proof. intros (Hn & _) Hk. apply wd_ge. lia. Qed.

(** Operations on all words are operations on sets. *)
Section Pointwise.
Context (l l1 l2 : list Z).

Lemma members_or :
  (∀ k, wd l k = or_word (wd l1 k) (wd l2 k)) → members l = members l1 ∪ members l2.
Proof.
  intros Hw. apply set_eq. intros x. rewrite elem_of_union, !elem_of_members. unfold bit.
  rewrite Hw. unfold or_word. rewrite Z.lor_spec, !andb_true_iff, orb_true_iff. naive_solver.
Qed.

Lemma members_and :
  (∀ k, wd l k = and_word (wd l1 k) (wd l2 k)) → members l = members l1 ∩ members l2.
Proof.
  intros Hw. apply set_eq. intros x. rewrite elem_of_intersection, !elem_of_members. unfold bit.
  rewrite Hw. unfold and_word. rewrite Z.land_spec, !andb_true_iff. naive_solver.
Qed.

Lemma members_andnot :
  (∀ k, wd l k = andnot_word (wd l1 k) (wd l2 k)) → members l = members l1 ∖ members l2.
Proof.
  intros Hw. apply set_eq. intros x. rewrite elem_of_difference, !elem_of_members. unfold bit.
  rewrite Hw. unfold andnot_word. rewrite Z.land_spec.
  destruct (Z.leb_spec 0 x); cbn; [|naive_solver].
  assert (0 ≤ x `mod` 32 < 32) by divlia. rewrite bmw_not_spec by lia. decide_bools.
  destruct (Z.testbit _ _), (Z.testbit _ _); naive_solver.
Qed.

Lemma members_same : (∀ k, wd l k = wd l1 k) → members l = members l1.
Proof.
  intros Hw. apply set_eq. intros x. rewrite !elem_of_members. unfold bit. by rewrite Hw.
Qed.
End Pointwise.

(** A word of zeros does not change the other one. *)
Lemma or_word_0 x : or_word x 0 = x.
Proof. apply Z.lor_0_r. Qed.

Lemma or_word_comm x y : or_word x y = or_word y x.
Proof. apply Z.lor_comm. Qed.

Lemma and_word_comm x y : and_word x y = and_word y x.
Proof. apply Z.land_comm. Qed.

Lemma andnot_word_r0 x : is_word x → andnot_word x 0 = x.
Proof.
  intros Hx. apply word_eq; [by apply andnot_word_range|done|]. intros i Hi.
  unfold andnot_word. rewrite Z.land_spec, bmw_not_spec, Z.testbit_0_l by lia. decide_bools. done.
Qed.

(** The words of one bit. *)
Lemma wd_one_bit n x k :
  0 ≤ x → (Z.to_nat (x / 32) < n)%nat →
  wd (<[Z.to_nat (x / 32) := 2 ^ (x `mod` 32)]> (replicate n 0)) k
    = if decide (k = Z.to_nat (x / 32)) then 2 ^ (x `mod` 32) else 0.
Proof.
  intros Hx Hn. unfold wd. rewrite insert_lookup_dec by (by rewrite length_replicate).
  case_decide; [done|]. destruct (decide (k < n)%nat).
  - by rewrite lookup_replicate_2.
  - by rewrite lookup_ge_None_2 by (rewrite length_replicate; lia).
Qed.

Lemma members_one_bit l x :
  0 ≤ x → (∀ k, wd l k = if decide (k = Z.to_nat (x / 32)) then 2 ^ (x `mod` 32) else 0) →
  members l = {[ x ]}.
Proof.
  intros Hx Hw. apply set_eq. intros y. rewrite elem_of_singleton, elem_of_members. unfold bit.
  rewrite Hw. destruct (Z.leb_spec 0 y); cbn; [|naive_solver lia]. case_decide.
  - rewrite Z.pow2_bits_eqb by divlia. rewrite Z.eqb_eq. split; [|by intros ->].
    intros. divlia.
  - rewrite Z.testbit_0_l. split; [done|]. by intros ->.
Qed.

(** Clearing one bit. *)
Lemma members_del_bit b l x :
  wf b → 0 ≤ x →
  (∀ k, wd l k = if decide (k = Z.to_nat (x / 32))
                 then andnot_word (wd (words b) k) (2 ^ (x `mod` 32)) else wd (words b) k) →
  members l = members (words b) ∖ {[ x ]}.
Proof.
  intros Hb Hx Hl. set (n := S (Z.to_nat (x / 32))).
  assert (Hw : ∀ k, wd (<[Z.to_nat (x / 32) := 2 ^ (x `mod` 32)]> (replicate n 0)) k =
    if decide (k = Z.to_nat (x / 32)) then 2 ^ (x `mod` 32) else 0)
    by (intros k; apply wd_one_bit; [done|unfold n; lia]).
  rewrite <- (members_one_bit _ x Hx Hw). apply members_andnot. intros k. rewrite Hl, Hw.
  case_decide; [done|]. by rewrite andnot_word_r0 by (by apply wf_wd).
Qed.

(** ** Building effects *)

Section Effects.
Context (h : Store Bitmapset) (Hok : store_ok h).

Lemma repr_nonnull p X : repr h p (Some X) → p ≠ NULL.
Proof.
  intros (b & Hb & _) ->. by rewrite store_ok_null in Hb.
Qed.

Lemma repr_cases p v : repr h p v →
  p = NULL ∧ v = None ∨
  p ≠ NULL ∧ ∃ b, cells h !! p = Some b ∧ wf b ∧ 0 ≤ nwords b ∧ p ≠ brk h ∧
    v = Some (members (words b)).
Proof.
  destruct v as [X|]; intros H; [right|by left]. split; [by eapply repr_nonnull|].
  destruct H as (b & Hp & Hb & <-). exists b. split_and!; try done; [destruct Hb; lia|].
  intros ->. by rewrite store_ok_fresh in Hp.
Qed.

Lemma effect_null : effect h [] h NULL None.
Proof. split_and!; [done|done|by left|done|set_solver]. Qed.

Lemma effect_same p v : repr h p v → effect h [p] h p v.
Proof. intros Hp. split_and!; [done|done|set_solver|done|set_solver]. Qed.

Lemma effect_new b X : wf b → members (words b) = X →
  effect h [] (mkStore (<[brk h := b]> (cells h)) (brk h + 1)) (brk h) (Some X).
Proof.
  intros Hb HX. split_and!.
  - by apply store_ok_alloc.
  - exists b. cbn. by rewrite lookup_insert_eq.
  - right; right. by apply store_ok_fresh.
  - intros q _ Hq. cbn. by rewrite lookup_insert_ne.
  - set_solver.
Qed.

Lemma effect_update a b0 b X : cells h !! a = Some b0 → wf b → members (words b) = X →
  effect h [a] (mkStore (<[a := b]> (cells h)) (brk h)) a (Some X).
Proof.
  intros Ha Hb HX. split_and!.
  - by eapply store_ok_insert.
  - exists b. cbn. by rewrite lookup_insert_eq.
  - set_solver.
  - intros q Hq _. cbn. rewrite lookup_insert_ne by set_solver. done.
  - set_solver.
Qed.

Lemma effect_free a : a ≠ NULL → effect h [a] (mkStore (delete a (cells h)) (brk h)) NULL None.
Proof.
  intros Ha. split_and!; [by apply store_ok_delete|done|by left|..].
  - intros q Hq _. cbn. rewrite lookup_delete_ne by set_solver. done.
  - intros q Hq _. cbn. assert (q = a) as -> by set_solver. apply lookup_delete_eq.
Qed.

(** NULL among the given pointers stands for no object. *)
Lemma effect_given_null h' p v : effect h [] h' p v → effect h [NULL] h' p v.
Proof.
  intros (Hok' & Hp & Hin & Hout & _). split_and!; [done|done|set_solver|..].
  - intros q Hq. apply Hout. set_solver.
  - intros q Hq _. assert (q = NULL) as -> by set_solver. by apply store_ok_null.
Qed.

(** One of the given pointers is returned, the others are NULL. *)
Lemma effect_returned given p v :
  repr h p v → p ∈ given → (∀ q, q ∈ given → q ≠ p → q = NULL) → effect h given h p v.
Proof.
  intros Hp Hin Hnull. split_and!; [done|done|by right; left|done|].
  intros q Hq Hne. rewrite (Hnull q Hq Hne). by apply store_ok_null.
Qed.

(** One given object is changed, the other freed. *)
Lemma effect_merge given r o b0 b X :
  (∀ q, q ∈ given ↔ q = r ∨ q = o) → r ≠ o → cells h !! r = Some b0 →
  wf b → members (words b) = X →
  effect h given (mkStore (delete o (<[r := b]> (cells h))) (brk h)) r (Some X).
Proof.
  intros Hg Hne Hr Hb HX. split_and!.
  - exact (store_ok_delete _ o (store_ok_insert h r b0 b Hok Hr)).
  - exists b. cbn. by rewrite lookup_delete_ne, lookup_insert_eq.
  - right; left. apply Hg. by left.
  - intros q Hq _. rewrite Hg in Hq. cbn. rewrite lookup_delete_ne, lookup_insert_ne by naive_solver.
    done.
  - intros q [->| ->]%Hg ?; [done|]. cbn. apply lookup_delete_eq.
Qed.

(** A new object in place of a given one. *)
Lemma effect_recycle a b0 b X : cells h !! a = Some b0 → wf b → members (words b) = X →
  effect h [a] (mkStore (delete a (<[brk h := b]> (cells h))) (brk h + 1)) (brk h) (Some X).
Proof.
  intros Ha Hb HX. assert (a ≠ brk h).
  { intros ->. by rewrite store_ok_fresh in Ha. }
  split_and!.
  - exact (store_ok_delete _ a (store_ok_alloc h b Hok)).
  - exists b. cbn. by rewrite lookup_delete_ne, lookup_insert_eq.
  - right; right. by apply store_ok_fresh.
  - intros q Hq ?. cbn. rewrite lookup_delete_ne by set_solver. by rewrite lookup_insert_ne.
  - intros q Hq _. cbn. assert (q = a) as -> by set_solver. apply lookup_delete_eq.
Qed.
End Effects.

(** ** The functions that build sets *)

Definition a_union (v w : aset) : aset :=
  match v, w with
  | None, _ => w
  | _, None => v
  | Some X, Some Y => Some (X ∪ Y)
  end.

Definition a_intersect (v w : aset) : aset :=
  match v, w with Some X, Some Y => Some (X ∩ Y) | _, _ => None end.

Definition a_difference (v w : aset) : aset :=
  match v with Some X => Some (X ∖ elems w) | None => None end.

Definition a_add (v : aset) (x : Z) : aset := Some ({[ x ]} ∪ elems v).

Lemma turns_nat i n : i ≤ n → Z.of_nat (turns i n) = n - i.
Proof. unfold turns. lia. Qed.

Ltac null_case p :=
  destruct (Z.eqb_spec p NULL) as [?|?]; subst; try done.

(** The two cases of an argument: NULL, or an object [x] with the facts about
    it named after it. *)
Ltac arg H x :=
  let Hne := fresh "Hne_" x in let Hw := fresh "Hwf_" x in
  let Hn := fresh "Hn_" x in let Hb := fresh "Hbrk_" x in
  match goal with Hok : store_ok ?h |- _ =>
    apply (repr_cases h Hok) in H as [[-> ->]|(Hne & x & H & Hw & Hn & Hb & ->)];
    [ rewrite ?Z.eqb_refl, ?orb_true_r, ?orb_true_l
    | rewrite ?(proj2 (Z.eqb_neq _ _) Hne); cbn [orb] ]
  end.

(** An address in use is not the next one. *)
Lemma used_ne_brk {N} (h : Store N) p (n : N) : store_ok h → cells h !! p = Some n → p ≠ brk h.
Proof. intros Hok Hp ->. by rewrite store_ok_fresh in Hp. Qed.

(** Combining the words of one set, in place, with those of another (or of
    itself) up to the length [n]. *)
Lemma combine_inplace h a b x y f n :
  cells h !! a = Some x → cells h !! b = Some y → wf x → wf y →
  0 ≤ n → n ≤ nwords x → n ≤ nwords y →
  (∀ u v, is_word u → is_word v → is_word (f u v)) →
  ∃ z, combine_words f a b 0 (turns 0 n) h =
       Some (tt, mkStore (<[a := z]> (cells h)) (brk h)) ∧ wf z ∧ nwords z = nwords x ∧
    ∀ k, wd (words z) k = if decide (Z.of_nat k < n)
                          then f (wd (words x) k) (wd (words y) k) else wd (words x) k.
Proof.
  intros Ha Hb Hx Hy Hn Hnx Hny Hf.
  destruct (combine_words_ok f (turns 0 n) h a b x y 0) as (l & E & Hlen & Hl);
    [done..| | |].
  - rewrite turns_nat by done. destruct Hx. lia.
  - rewrite turns_nat by done. destruct Hy. lia.
  - rewrite turns_nat in Hl by done.
    assert (Hl' : ∀ k, wd l k = if decide (Z.of_nat k < n)
                       then f (wd (words x) k) (wd (words y) k) else wd (words x) k).
    { intros k. rewrite Hl. by repeat case_decide; try lia. }
    eexists. rewrite E. cbn [words nwords]. split; [done|].
    split; [|done]. apply wf_rewords; [done..|]. intros k. rewrite Hl'.
    case_decide; auto using wf_wd.
Qed.

(** The sets of combined words. *)
Section Combined.
Context (x y z : Bitmapset) (Hx : wf x) (Hy : wf y) (n : Z).

Lemma combined_or :
  (∀ k, wd (words z) k = if decide (Z.of_nat k < n)
        then or_word (wd (words x) k) (wd (words y) k) else wd (words x) k) →
  nwords y ≤ n → members (words z) = members (words x) ∪ members (words y).
Proof.
  intros Hw Hn. apply members_or. intros k. rewrite Hw. case_decide; [done|].
  by rewrite (wd_out y), or_word_0 by (done || lia).
Qed.

Lemma combined_and :
  (∀ k, wd (words z) k = if decide (Z.of_nat k < n)
        then and_word (wd (words x) k) (wd (words y) k) else wd (words x) k) →
  nwords x ≤ n → members (words z) = members (words x) ∩ members (words y).
Proof.
  intros Hw Hn. apply members_and. intros k. rewrite Hw. case_decide; [done|].
  by rewrite (wd_out x) by (done || lia).
Qed.

Lemma combined_andnot :
  (∀ k, wd (words z) k = if decide (Z.of_nat k < n)
        then andnot_word (wd (words x) k) (wd (words y) k) else wd (words x) k) →
  nwords x ≤ n ∨ nwords y ≤ n → members (words z) = members (words x) ∖ members (words y).
Proof.
  intros Hw Hn. apply members_andnot. intros k. rewrite Hw. case_decide; [done|].
  destruct Hn.
  - by rewrite (wd_out x) by (done || lia).
  - rewrite (wd_out y), andnot_word_r0 by (done || lia || by apply wf_wd). done.
Qed.
End Combined.

Lemma bms_copy_run h a b :
  a ≠ NULL → cells h !! a = Some b → wf b →
  bms_copy a h = Some (brk h, mkStore (<[brk h := b]> (cells h)) (brk h + 1)).
Proof.
  intros Hne Ha (Hn & _). unfold bms_copy. rewrite (proj2 (Z.eqb_neq _ _) Hne).
  erewrite bind_load by done. rewrite Hn, Nat2Z.id, firstn_all, <- Hn. by destruct b.
Qed.

Section Ops.
Context (h : Store Bitmapset) (Hok : store_ok h).

Lemma bms_copy_ok a v :
  repr h a v → ∃ p h', bms_copy a h = Some (p, h') ∧ effect h [] h' p v.
Proof.
  intros Ha. arg Ha b; do 2 eexists; (split; [first [by apply bms_copy_run | done]|]).
  - apply effect_null; done.
  - by apply effect_new.
Qed.

Lemma bms_make_singleton_ok x :
  0 ≤ x < 2 ^ 31 →
  ∃ b, bms_make_singleton x h =
         Some (Return (brk h), mkStore (<[brk h := b]> (cells h)) (brk h + 1)) ∧
    wf b ∧ members (words b) = {[ x ]} ∧ nwords b = x / 32 + 1 ∧
    (∀ k, wd (words b) k = if decide (k = Z.to_nat (x / 32)) then 2 ^ (x `mod` 32) else 0).
Proof.
  intros Hx. unfold bms_make_singleton. rewrite (proj2 (Z.ltb_ge x 0)) by lia.
  rewrite WORDNUM_eq, BITNUM_eq, one_bit by (done || divlia).
  unfold palloc0_words. rewrite bind_alloc.
  erewrite bind_run.
  2: { apply set_word_ok; [cbn; apply lookup_insert_eq|]. cbn. rewrite length_replicate. divlia. }
  cbn [cells brk nwords words]. rewrite insert_insert_eq. eexists. split; [done|]. cbn [nwords words].
  pose proof (wd_one_bit (Z.to_nat (x / 32 + 1)) x) as Hw.
  split_and!; [|by apply members_one_bit; [lia|]; intros; apply Hw; divlia|done
    |intros; apply Hw; divlia].
  split_and!; cbn [nwords words].
  - rewrite length_insert, length_replicate. divlia.
  - divlia.
  - apply Forall_wd. intros k. rewrite Hw by divlia. case_decide; [|done].
    apply one_bit_word. divlia.
Qed.

(** Combining a copy of a set with another set. *)
Lemma combine_copy b x y f n :
  cells h !! b = Some y → wf x → wf y → 0 ≤ n → n ≤ nwords x → n ≤ nwords y →
  (∀ u v, is_word u → is_word v → is_word (f u v)) →
  ∃ z, combine_words f (brk h) b 0 (turns 0 n)
         (mkStore (<[brk h := x]> (cells h)) (brk h + 1)) =
       Some (tt, mkStore (<[brk h := z]> (cells h)) (brk h + 1)) ∧
    wf z ∧
    ∀ k, wd (words z) k = if decide (Z.of_nat k < n)
                          then f (wd (words x) k) (wd (words y) k) else wd (words x) k.
Proof.
  intros Hb Hx Hy Hn Hnx Hny Hf. pose proof (used_ne_brk _ _ _ Hok Hb).
  destruct (combine_inplace (mkStore (<[brk h := x]> (cells h)) (brk h + 1)) (brk h) b x y f n)
    as (z & E & Hz & _ & Hw); [apply lookup_insert_eq|by cbn; rewrite lookup_insert_ne|done..|].
  cbn [cells brk] in E. rewrite insert_insert_eq in E. by exists z.
Qed.

Lemma bms_union_ok a b v w :
  repr h a v → repr h b w →
  ∃ p h', bms_union a b h = Some (p, h') ∧ effect h [] h' p (a_union v w).
Proof.
  intros Ha Hb. unfold bms_union. pose proof (bms_copy_ok b w Hb).
  pose proof (bms_copy_ok a v Ha). arg Ha x; [done|]. arg Hb y; [done|].
  erewrite !bind_load by done.
  destruct (Z.leb_spec (nwords x) (nwords y)); rewrite bind_bind;
    erewrite bind_run by (by apply bms_copy_run); rewrite bind_ret;
    erewrite bind_load by (cbn; by rewrite lookup_insert_ne).
  - destruct (combine_copy a y x or_word (nwords x)) as (z & E & Hz & Hw);
      [done..|lia|apply or_word_range|].
    erewrite bind_run by done. do 2 eexists. split; [done|]. apply effect_new; [done..|].
    rewrite union_comm_L. by eapply combined_or.
  - destruct (combine_copy b x y or_word (nwords y)) as (z & E & Hz & Hw);
      [done..|lia|done|apply or_word_range|].
    erewrite bind_run by done. do 2 eexists. split; [done|]. apply effect_new; [done..|].
    by eapply combined_or.
Qed.

Lemma bms_intersect_ok a b v w :
  repr h a v → repr h b w →
  ∃ p h', bms_intersect a b h = Some (p, h') ∧ effect h [] h' p (a_intersect v w).
Proof.
  intros Ha Hb. unfold bms_intersect.
  arg Ha x; [do 2 eexists; by split; [|apply effect_null]|].
  arg Hb y; [do 2 eexists; by split; [|apply effect_null]|].
  erewrite !bind_load by done.
  destruct (Z.leb_spec (nwords x) (nwords y)); rewrite bind_bind;
    erewrite bind_run by (by apply bms_copy_run); rewrite bind_ret;
    erewrite bind_load by apply lookup_insert_eq.
  - destruct (combine_copy b x y and_word (nwords x)) as (z & E & Hz & Hw);
      [done..|apply land_word|].
    erewrite bind_run by done. do 2 eexists. split; [done|]. apply effect_new; [done..|].
    by eapply combined_and.
  - destruct (combine_copy a y x and_word (nwords y)) as (z & E & Hz & Hw);
      [done..|lia|apply land_word|].
    erewrite bind_run by done. do 2 eexists. split; [done|]. apply effect_new; [done..|].
    rewrite intersection_comm_L. by eapply combined_and.
Qed.

Lemma bms_difference_ok a b v w :
  repr h a v → repr h b w →
  ∃ p h', bms_difference a b h = Some (p, h') ∧ effect h [] h' p (a_difference v w).
Proof.
  intros Ha Hb. unfold bms_difference. pose proof (bms_copy_ok a v Ha) as Hcopy.
  arg Ha x; [do 2 eexists; by split; [|apply effect_null]|]. cbn [a_difference].
  arg Hb y; [by cbn; rewrite difference_empty_L|].
  erewrite bind_run by (by apply bms_copy_run).
  do 2 erewrite bind_load by (cbn; by rewrite lookup_insert_ne).
  destruct (combine_copy b x y andnot_word (nwords x `min` nwords y)) as (z & E & Hz & Hw);
    [done..|lia|lia|lia|by intros; apply andnot_word_range|].
  erewrite bind_run by done. do 2 eexists. split; [done|]. apply effect_new; [done..|].
  eapply combined_andnot; [done..|lia].
Qed.

Lemma bms_free_ok a v :
  repr h a v → ∃ h', bms_free a h = Some (tt, h') ∧ effect h [a] h' NULL None.
Proof.
  intros Ha. unfold bms_free. arg Ha x.
  - eexists. split; [done|]. by apply effect_same.
  - eexists. unfold dealloc. rewrite Ha. split; [done|]. by apply effect_free.
Qed.

(** ** The functions that recycle *)

Lemma copy_given_null a v :
  repr h a v → ∃ p h', bms_copy a h = Some (p, h') ∧ effect h [NULL] h' p v.
Proof.
  intros (p & h' & E & He)%bms_copy_ok. exists p, h'. split; [done|]. by apply effect_given_null.
Qed.

Lemma bms_assign_ok a b v Y :
  repr h a v → repr h b (Some Y) →
  ∃ p h', bms_assign a b h = Some (p, h') ∧ effect h [a] h' p (Some Y).
Proof.
  intros Ha Hb. unfold bms_assign. pose proof (copy_given_null b (Some Y) Hb) as Hcopy.
  pose proof (repr_nonnull h Hok _ _ Hb).
  arg Ha x; [done|]. destruct Hb as (y & Hb & Hwf_y & <-).
  erewrite !bind_load by done. destruct (Z.ltb_spec (nwords x) (nwords y)).
  - erewrite bind_dealloc by done. assert (a ≠ b) by (intros ->; simplify_eq; lia).
    rewrite (bms_copy_run _ b y) by (done || by cbn; rewrite lookup_delete_ne).
    do 2 eexists. split; [done|]. cbn [cells brk]. rewrite <- delete_insert_ne by done.
    by eapply effect_recycle.
  - destruct (combine_inplace h a b x y (λ _ v, v) (nwords y)) as (z & E & Hz & Hnz & Hw);
      [done..|destruct Hwf_y; lia|lia|done|done|].
    erewrite bind_run by done.
    edestruct (zero_words_ok (turns (nwords y) (nwords x))
      (mkStore (<[a := z]> (cells h)) (brk h)) a z (nwords y)) as (l & E' & Hlen & Hl);
      [apply lookup_insert_eq|destruct Hwf_y; lia|rewrite turns_nat by lia; destruct Hz; lia|].
    erewrite bind_run by done. cbn [cells brk]. rewrite insert_insert_eq.
    rewrite turns_nat in Hl by lia.
    assert (Hly : ∀ k, wd l k = wd (words y) k).
    { intros k. rewrite Hl, Hw. destruct (decide (Z.of_nat k < nwords y)).
      { by rewrite decide_False by lia. }
      rewrite (wd_out y) by (done || lia). case_decide; [done|].
      apply wd_out; [done|lia]. }
    do 2 eexists. split; [done|]. eapply effect_update; [done..| |by apply members_same].
    apply wf_rewords; [done..|]. intros k. rewrite Hly. by apply wf_wd.
Qed.

(** A set whose word [x / 32] is changed. *)
Lemma set_word_wf a b x w :
  cells h !! a = Some b → wf b → 0 ≤ x → x / 32 < nwords b → is_word w →
  ∃ z, set_word a (x / 32) w h = Some (tt, mkStore (<[a := z]> (cells h)) (brk h)) ∧ wf z ∧
    ∀ k, wd (words z) k = if decide (k = Z.to_nat (x / 32)) then w else wd (words b) k.
Proof.
  intros Ha Hb Hx Hlt Hw. assert (nwords b = Z.of_nat (length (words b))) as Hn by apply Hb.
  assert (Hl : ∀ k, wd (<[Z.to_nat (x / 32) := w]> (words b)) k =
                    if decide (k = Z.to_nat (x / 32)) then w else wd (words b) k).
  { intros k. unfold wd. rewrite insert_lookup_dec by divlia. by case_decide. }
  eexists. rewrite (set_word_ok _ _ b) by (done || divlia). split; [done|]. cbn [words].
  split; [|done]. apply wf_rewords; [done|by rewrite length_insert|]. intros k. rewrite Hl.
  case_decide; [done|]. by apply wf_wd.
Qed.

Lemma bms_add_member_ok a v x :
  repr h a v → 0 ≤ x < 2 ^ 31 →
  ∃ p h', bms_add_member a x h = Some (Return p, h') ∧ effect h [a] h' p (a_add v x).
Proof.
  intros Ha Hx. unfold bms_add_member. rewrite (proj2 (Z.ltb_ge x 0)) by lia.
  destruct (bms_make_singleton_ok x Hx) as (s & Es & Hs & Hms & Hns & Hws).
  arg Ha b.
  { do 2 eexists. split; [done|]. apply effect_given_null, effect_new; [done..|]. cbn. set_solver. }
  erewrite bind_load by done. rewrite WORDNUM_eq, BITNUM_eq, one_bit by (done || divlia).
  unfold a_add. cbn [elems default from_option id].
  destruct (Z.leb_spec (nwords b) (x / 32)).
  - erewrite bind_run by done. cbn beta iota.
    erewrite bind_load by (cbn; by rewrite lookup_insert_ne).
    destruct (combine_copy a s b or_word (nwords b)) as (z & E & Hz & Hw);
      [done..|lia|done|apply or_word_range|].
    erewrite bind_run by done.
    erewrite bind_dealloc by (cbn; by rewrite lookup_insert_ne).
    do 2 eexists. split; [done|]. eapply effect_recycle; [done..|].
    rewrite <- Hms. by eapply combined_or.
  - assert (nwords b = Z.of_nat (length (words b))) as Hnb by apply Hwf_b.
    rewrite bind_word by divlia.
    destruct (set_word_wf a b x (Z.lor (wd (words b) (Z.to_nat (x / 32))) (2 ^ (x `mod` 32))))
      as (z & E & Hz & Hw); [done..|lia|done| |].
    { apply or_word_range; [by apply wf_wd|]. apply one_bit_word. divlia. }
    erewrite bind_run by done. do 2 eexists. split; [done|]. eapply effect_update; [done..|].
    rewrite <- Hms, union_comm_L. apply members_or. intros k. rewrite Hw, Hws.
    case_decide; [by subst|]. by rewrite or_word_0.
Qed.

Lemma bms_del_member_ok a v x :
  repr h a v → 0 ≤ x < 2 ^ 31 →
  ∃ p h', bms_del_member a x h = Some (Return p, h') ∧
    effect h [a] h' p (a_difference v (Some {[ x ]})).
Proof.
  intros Ha Hx. unfold bms_del_member. rewrite (proj2 (Z.ltb_ge x 0)) by lia.
  arg Ha b; [do 2 eexists; split; [done|]; by apply effect_same|].
  erewrite bind_load by done. rewrite WORDNUM_eq, BITNUM_eq, one_bit by (done || divlia).
  cbn [a_difference elems default from_option id].
  destruct (Z.ltb_spec (x / 32) (nwords b)).
  - assert (nwords b = Z.of_nat (length (words b))) as Hnb by apply Hwf_b.
    rewrite bind_word by divlia.
    destruct (set_word_wf a b x (andnot_word (wd (words b) (Z.to_nat (x / 32))) (2 ^ (x `mod` 32))))
      as (z & E & Hz & Hw); [done..|lia|done|by apply andnot_word_range, wf_wd|].
    erewrite bind_run by done. do 2 eexists. split; [done|]. eapply effect_update; [done..|].
    apply members_del_bit; [done|lia|]. intros k. rewrite Hw. by case_decide; subst.
  - do 2 eexists. split; [done|]. apply effect_same; [done|]. exists b. split_and!; [done..|].
    apply members_del_bit; [done|lia|]. intros k. case_decide; [|done].
    by rewrite (wd_out b) by (done || lia).
Qed.

Lemma bms_add_members_ok a b v w :
  repr h a v → repr h b w →
  ∃ p h', bms_add_members a b h = Some (p, h') ∧ effect h [a] h' p (a_union v w).
Proof.
  intros Ha Hb. unfold bms_add_members. pose proof (copy_given_null b w Hb).
  pose proof (effect_same h Hok a v Ha). arg Ha x; [done|]. arg Hb y; [by do 2 eexists|].
  erewrite !bind_load by done. destruct (Z.ltb_spec (nwords x) (nwords y)).
  - rewrite bind_bind. erewrite bind_run by (by apply bms_copy_run). rewrite bind_ret.
    erewrite bind_load by (cbn; by rewrite lookup_insert_ne).
    destruct (combine_copy a y x or_word (nwords x)) as (z & E & Hz & Hw);
      [done..|lia|lia|apply or_word_range|].
    erewrite bind_run by done. rewrite (proj2 (Z.eqb_neq (brk h) a)) by done. cbn [negb].
    erewrite bind_dealloc by (cbn; by rewrite lookup_insert_ne).
    do 2 eexists. split; [done|]. eapply effect_recycle; [done..|].
    rewrite union_comm_L. by eapply combined_or.
  - rewrite bind_ret. erewrite bind_load by done.
    destruct (combine_inplace h a b x y or_word (nwords y)) as (z & E & Hz & _ & Hw);
      [done..|apply or_word_range|].
    erewrite bind_run by done. rewrite Z.eqb_refl. cbn [negb]. rewrite bind_ret.
    do 2 eexists. split; [done|]. eapply effect_update; [done..|]. by eapply combined_or.
Qed.

Lemma bms_int_members_ok a b v w :
  repr h a v → repr h b w →
  ∃ p h', bms_int_members a b h = Some (p, h') ∧ effect h [a] h' p (a_intersect v w).
Proof.
  intros Ha Hb. unfold bms_int_members.
  pose proof (effect_same h Hok a v Ha). arg Ha x; [by do 2 eexists|].
  arg Hb y.
  { erewrite bind_dealloc by done. do 2 eexists. split; [done|]. by apply effect_free. }
  erewrite !bind_load by done. set (n := nwords x `min` nwords y).
  destruct (combine_inplace h a b x y and_word n) as (z & E & Hz & Hnz & Hw);
    [done..|lia|lia|lia|apply land_word|].
  erewrite bind_run by done.
  edestruct (zero_words_ok (turns n (nwords x))
    (mkStore (<[a := z]> (cells h)) (brk h)) a z n) as (l & E' & Hlen & Hl);
    [apply lookup_insert_eq|lia|rewrite turns_nat by lia; destruct Hz; lia|].
  erewrite bind_run by done. cbn [cells brk]. rewrite insert_insert_eq, Hnz.
  rewrite turns_nat in Hl by lia.
  assert (Hly : ∀ k, wd l k = and_word (wd (words x) k) (wd (words y) k)).
  { intros k. rewrite Hl, Hw. destruct (decide (Z.of_nat k < n)).
    { by rewrite decide_False by lia. }
    assert (nwords x ≤ Z.of_nat k ∨ nwords y ≤ Z.of_nat k) as [|] by lia.
    - rewrite (wd_out x) by done. by case_decide.
    - rewrite (wd_out y) by done. unfold and_word. rewrite Z.land_0_r.
      case_decide; [done|]. apply wd_out; [done|lia]. }
  do 2 eexists. split; [done|]. eapply effect_update; [done..| |by apply members_and].
  rewrite <- Hnz. apply wf_rewords; [done..|]. intros k. rewrite Hly.
  apply land_word; by apply wf_wd.
Qed.

Lemma bms_del_members_ok a b v w :
  repr h a v → repr h b w →
  ∃ p h', bms_del_members a b h = Some (p, h') ∧ effect h [a] h' p (a_difference v w).
Proof.
  intros Ha Hb. unfold bms_del_members.
  pose proof (effect_same h Hok a v Ha) as Hsame. arg Ha x; [by do 2 eexists|].
  arg Hb y.
  { do 2 eexists. split; [done|]. cbn. by rewrite difference_empty_L. }
  erewrite !bind_load by done.
  destruct (combine_inplace h a b x y andnot_word (nwords x `min` nwords y))
    as (z & E & Hz & _ & Hw); [done..|lia|lia|lia|by intros; apply andnot_word_range|].
  erewrite bind_run by done. do 2 eexists. split; [done|]. eapply effect_update; [done..|].
  eapply combined_andnot; [done..|lia].
Qed.

Lemma bms_join_ok a b v w :
  repr h a v → repr h b w →
  ∃ p h', bms_join a b h = Some (p, h') ∧ effect h [a; b] h' p (a_union v w).
Proof.
  intros Ha Hb. unfold bms_join. arg Ha x.
  { do 2 eexists. split; [done|]. apply effect_returned; [done..|set_solver|set_solver]. }
  pose proof Hb as Hb'. arg Hb y.
  { do 2 eexists. split; [done|]. apply effect_returned; [done..|by exists x|set_solver|set_solver]. }
  erewrite !bind_load by done. destruct (Z.ltb_spec (nwords x) (nwords y)).
  - assert (a ≠ b) by (intros ->; simplify_eq; lia). erewrite bind_load by done.
    destruct (combine_inplace h b a y x or_word (nwords x)) as (z & E & Hz & _ & Hw);
      [done..|lia|lia|apply or_word_range|].
    erewrite bind_run by done. rewrite (proj2 (Z.eqb_neq a b)) by done. cbn [negb].
    erewrite bind_dealloc by (cbn; by rewrite lookup_insert_ne).
    do 2 eexists. split; [done|]. cbn [cells brk]. eapply effect_merge; [done|set_solver|done..|].
    rewrite union_comm_L. by eapply combined_or.
  - erewrite bind_load by done.
    destruct (combine_inplace h a b x y or_word (nwords y)) as (z & E & Hz & _ & Hw);
      [done..|apply or_word_range|].
    assert (HU : members (words z) = members (words x) ∪ members (words y)) by (by eapply combined_or).
    erewrite bind_run by done. destruct (Z.eqb_spec b a) as [->|Hne]; cbn [negb].
    + rewrite bind_ret. do 2 eexists. split; [done|].
      destruct (effect_update h Hok a x z (members (words x) ∪ members (words y)))
        as (? & ? & ? & Hout & Hin); [done..|].
      split_and!; [done|done|set_solver| |]; intros q Hq; [apply Hout|apply Hin]; set_solver.
    + erewrite bind_dealloc by (cbn; by rewrite lookup_insert_ne).
      do 2 eexists. split; [done|]. cbn [cells brk]. eapply effect_merge; [done|set_solver|done..].
Qed.
End Ops.
