(* ===== verification/BitmapsetQuery.v ===== *)
(** What the functions of backend/nodes/bitmapset.c that look at sets
    answer: comparisons, counts, iteration, hashing. *)
From stdpp Require Import prelude gmap list numbers sorting.
From S2P Require Import Prelude Store Bitmapset BitmapsetWords BitmapsetOps.

#[local] Arguments s32 : simpl never.
#[local] Arguments u32 : simpl never.

(** The members in increasing order. *)
Definition ascending (X : gset Z) : list Z := merge_sort Z.le (elements X).

(** Answers about the members in increasing order. *)
Definition one_member (s : list Z) : outcome Z :=
  match s with [x] => Return x | _ => ElogError end.

Definition first_or (s : list Z) : Z := default (-1) (head s).

Definition first_from_of (s : list Z) (x : Z) : Z :=
  if x <? 0 then -1 else first_or (filter (λ y, x ≤ y) s).

Definition membership_of (s : list Z) : BMS_Membership :=
  match s with [] => BMS_EMPTY_SET | [_] => BMS_SINGLETON | _ => BMS_MULTIPLE end.

Lemma strongly_sorted_lt (l : list Z) : StronglySorted Z.le l → NoDup l → StronglySorted Z.lt l.
Proof.
  induction 1 as [|x l Hl IH Hx]; intros Hnd; [constructor|]. apply NoDup_cons in Hnd as [Hn Hnd].
  constructor; [by apply IH|]. rewrite Forall_forall in *. intros y Hy.
  pose proof (Hx y Hy). assert (x ≠ y) by (by intros ->). lia.
Qed.

Lemma elem_of_ascending X x : x ∈ ascending X ↔ x ∈ X.
Proof. unfold ascending. by rewrite merge_sort_Permutation, elem_of_elements. Qed.

Lemma ascending_sorted X : StronglySorted Z.lt (ascending X).
Proof.
  apply strongly_sorted_lt; [apply StronglySorted_merge_sort; apply _|].
  unfold ascending. rewrite merge_sort_Permutation. apply NoDup_elements.
Qed.

Lemma ascending_unique X l :
  StronglySorted Z.lt l → (∀ x, x ∈ l ↔ x ∈ X) → ascending X = l.
Proof.
  intros Hl HX. apply sorted_lt_unique; [apply ascending_sorted|done|].
  intros x. by rewrite elem_of_ascending, HX.
Qed.

Lemma ascending_members l : ascending (members l) = member_list l.
Proof.
  apply ascending_unique; [apply member_list_sorted|]. intros x.
  by rewrite elem_of_members, elem_of_member_list.
Qed.

Lemma ascending_pop X x t : ascending X = x :: t → ascending (X ∖ {[ x ]}) = t.
Proof.
  intros E. pose proof (ascending_sorted X) as Hs. rewrite E in Hs.
  apply StronglySorted_inv in Hs as [Ht Hx]. apply ascending_unique; [done|].
  intros y. rewrite elem_of_difference, elem_of_singleton, <- elem_of_ascending, E, elem_of_cons.
  rewrite Forall_forall in Hx. split; [|naive_solver].
  intros Hy. split; [by right|]. intros ->. specialize (Hx x Hy). lia.
Qed.

(** The first element of an increasing list from [x] on. *)
Lemma first_filter (s : list Z) x y :
  StronglySorted Z.lt s → y ∈ s → x ≤ y → (∀ z, z ∈ s → x ≤ z → y ≤ z) →
  first_or (filter (λ z, x ≤ z) s) = y.
Proof.
  intros Hs Hy Hx Hmin. apply (filter_sorted _ (λ z, x ≤ z)) in Hs.
  assert (Hy' : y ∈ filter (λ z, x ≤ z) s) by (by apply list_elem_of_filter).
  destruct (filter (λ z, x ≤ z) s) as [|z t] eqn:E; [by apply not_elem_of_nil in Hy'|].
  assert (Hz : z ∈ filter (λ z, x ≤ z) s) by (rewrite E; set_solver).
  apply list_elem_of_filter in Hz as [Hxz Hz]. cbn. specialize (Hmin z Hz Hxz).
  apply elem_of_cons in Hy' as [->|Hin]; [done|]. apply StronglySorted_inv in Hs as [_ Hs].
  rewrite Forall_forall in Hs. apply Hs in Hin. lia.
Qed.

Lemma first_filter_none (s : list Z) x :
  (∀ z, z ∈ s → z < x) → first_or (filter (λ z, x ≤ z) s) = -1.
Proof.
  intros Hlt. destruct (filter (λ z, x ≤ z) s) as [|z t] eqn:E; [done|].
  assert (Hz : z ∈ filter (λ z, x ≤ z) s) by (rewrite E; set_solver).
  apply list_elem_of_filter in Hz as [Hxz Hz]. apply Hlt in Hz. lia.
Qed.

Lemma none_decide {A} (r : option A) (P : Prop) `{Decision P} :
  (r = None ↔ P) → (match r with Some _ => false | None => true end) = bool_decide P.
Proof.
  intros HP. symmetry. destruct r; [apply bool_decide_eq_false|apply bool_decide_eq_true];
    naive_solver.
Qed.

Lemma some_decide {A} (r : option A) (P : Prop) `{Decision P} :
  (r = None ↔ ¬ P) → (match r with Some _ => true | None => false end) = bool_decide P.
Proof.
  intros HP. symmetry. destruct (decide P); destruct r;
    [apply bool_decide_eq_true|..|apply bool_decide_eq_false]; naive_solver.
Qed.

Section Queries.
Context (h : Store Bitmapset) (Hok : store_ok h).

(** A search through the words of a set: none of the words [i .. n) passes. *)
Lemma find_words_ok b (t : Z → bool) i n :
  wf b → 0 ≤ i → i ≤ n → n ≤ nwords b →
  ∃ r, find_word (λ k, do w <- word b k; ret (t w))%store i (turns i n) h = Some (r, h) ∧
    found (λ k, t (wd (words b) (Z.to_nat k))) i (turns i n) r.
Proof.
  intros (Hn & _) Hi Hin Hnb. apply find_word_ok. intros k Hk. rewrite turns_nat in Hk by done.
  by rewrite bind_word by lia.
Qed.

Lemma find_words2_ok b c (t : Z → Z → bool) i n :
  wf b → wf c → 0 ≤ i → i ≤ n → n ≤ nwords b → n ≤ nwords c →
  ∃ r, find_word (λ k, do u <- word b k; do v <- word c k; ret (t u v))%store i (turns i n) h
         = Some (r, h) ∧
    found (λ k, t (wd (words b) (Z.to_nat k)) (wd (words c) (Z.to_nat k))) i (turns i n) r.
Proof.
  intros (Hn & _) (Hn' & _) Hi Hin Hnb Hnc. apply find_word_ok. intros k Hk.
  rewrite turns_nat in Hk by done. by rewrite !bind_word by lia.
Qed.

(** Searches as statements about all words. *)
Lemma not_found (t : nat → bool) i n r :
  found (λ k, t (Z.to_nat k)) i (turns i n) r → 0 ≤ i → i ≤ n →
  r = None ↔ ∀ k, i ≤ Z.of_nat k < n → t k = false.
Proof.
  intros Hf Hi Hn. rewrite (found_None _ _ _ _ Hf), turns_nat by done. split.
  - intros Hj k Hk. rewrite <- (Nat2Z.id k). apply Hj. lia.
  - intros Hk j Hj. apply Hk. lia.
Qed.

Lemma bms_is_empty_ok a v :
  repr h a v → bms_is_empty a h = Some (bool_decide (elems v = ∅), h).
Proof.
  intros Ha. unfold bms_is_empty. arg Ha x; [done|]. erewrite bind_load by done.
  destruct (find_words_ok x (λ w, negb (w =? 0)) 0 (nwords x)) as (r & E & Hr); [done..|].
  erewrite bind_run by done. unfold ret. do 2 f_equal. apply none_decide. cbn.
  rewrite (not_found (λ k, negb (wd (words x) k =? 0)) _ _ _ Hr) by lia.
  rewrite members_empty by apply Hwf_x. split.
  - intros H k. destruct (decide (Z.of_nat k < nwords x)); [|apply wd_out; [done|lia]].
    apply Z.eqb_eq, negb_false_iff, H. lia.
  - intros H k _. by rewrite H.
Qed.

Lemma equal_words x y :
  wf x → wf y → nwords x ≤ nwords y →
  members (words x) = members (words y) ↔
    (∀ k, 0 ≤ Z.of_nat k < nwords x → negb (wd (words x) k =? wd (words y) k) = false) ∧
    (∀ k, nwords x ≤ Z.of_nat k < nwords y → negb (wd (words y) k =? 0) = false).
Proof.
  intros Hx Hy Hle. rewrite members_eq by (apply Hx || apply Hy). split.
  - intros E. split; intros k Hk; apply negb_false_iff, Z.eqb_eq; [apply E|].
    rewrite <- E. apply wd_out; [done|lia].
  - intros [E1 E2] k. destruct (decide (Z.of_nat k < nwords x)).
    { apply Z.eqb_eq, negb_false_iff, E1. lia. }
    rewrite (wd_out x) by (done || lia). symmetry. destruct (decide (Z.of_nat k < nwords y)).
    { apply Z.eqb_eq, negb_false_iff, E2. lia. }
    apply wd_out; [done|lia].
Qed.

Lemma bms_equal_ok a b v w :
  repr h a v → repr h b w → bms_equal a b h = Some (bool_decide (elems v = elems w), h).
Proof.
  intros Ha Hb. unfold bms_equal. pose proof (bms_is_empty_ok a v Ha) as Ea.
  pose proof (bms_is_empty_ok b w Hb) as Eb. arg Ha x.
  { arg Hb y; [done|]. rewrite Eb. do 2 f_equal. by apply bool_decide_ext. }
  arg Hb y; [done|]. clear Ea Eb. erewrite !bind_load by done.
  cbn [elems default from_option id].
  assert (Hsl : ∃ s l, (if nwords x <=? nwords y then (x, y) else (y, x)) = (s, l) ∧
    wf s ∧ wf l ∧ 0 ≤ nwords s ≤ nwords l ∧
    (members (words x) = members (words y) ↔ members (words s) = members (words l))).
  { destruct (Z.leb_spec (nwords x) (nwords y)); do 2 eexists; split_and!; try done; lia. }
  destruct Hsl as (s & l & -> & Hs & Hl & Hle & Hiff).
  rewrite (bool_decide_ext _ _ Hiff). clear Hiff.
  destruct (find_words2_ok s l (λ u v, negb (u =? v)) 0 (nwords s)) as (r & E & Hr);
    [done..|lia|lia|lia|].
  erewrite bind_run by done.
  pose proof (not_found (λ k, negb (wd (words s) k =? wd (words l) k)) _ _ _ Hr ltac:(lia) ltac:(lia))
    as Hr'.
  destruct r as [k|].
  { unfold ret. do 2 f_equal. symmetry. apply bool_decide_eq_false.
    rewrite equal_words by (done || lia). intros [H1 _]. by apply Hr' in H1. }
  destruct (find_words_ok l (λ u, negb (u =? 0)) (nwords s) (nwords l)) as (r & E' & Hf);
    [done..|lia|lia|lia|].
  erewrite bind_run by done. unfold ret. do 2 f_equal. apply none_decide.
  rewrite equal_words by (done || lia).
  rewrite (not_found (λ k, negb (wd (words l) k =? 0)) _ _ _ Hf) by lia.
  pose proof (proj1 Hr' eq_refl). naive_solver.
Qed.

Lemma subset_words x y :
  wf x → wf y →
  members (words x) ⊆ members (words y) ↔
    (∀ k, 0 ≤ Z.of_nat k < nwords x `min` nwords y →
       negb (Z.land (wd (words x) k) (bmw_not (wd (words y) k)) =? 0) = false) ∧
    (∀ k, nwords x `min` nwords y ≤ Z.of_nat k < nwords x → negb (wd (words x) k =? 0) = false).
Proof.
  intros Hx Hy. rewrite members_subset by (apply Hx || apply Hy).
  assert (H0 : ∀ k, Z.land (wd (words x) k) (bmw_not 0) = wd (words x) k).
  { intros k. apply andnot_word_r0, wf_wd, Hx. }
  split.
  - intros E. split; intros k Hk; apply negb_false_iff, Z.eqb_eq; [apply E|].
    specialize (E k). rewrite (wd_out y), H0 in E by (done || lia). done.
  - intros [E1 E2] k. destruct (decide (Z.of_nat k < nwords x `min` nwords y)).
    { apply Z.eqb_eq, negb_false_iff, E1. lia. }
    destruct (decide (Z.of_nat k < nwords x)).
    { rewrite (wd_out y), H0 by (done || lia). apply Z.eqb_eq, negb_false_iff, E2. lia. }
    by rewrite (wd_out x) by (done || lia).
Qed.

Section Two.
Context (x y : Bitmapset) (Hx : wf x) (Hy : wf y) (Hnx : 0 ≤ nwords x) (Hny : 0 ≤ nwords y).
Let n := nwords x `min` nwords y.

(** The two loops of [bms_is_subset] and [bms_nonempty_difference]. *)
Lemma difference_loops :
  ∃ r s,
    find_word (λ i, do u <- word x i; do v <- word y i;
                    ret (negb (Z.land u (bmw_not v) =? 0)))%store 0 (turns 0 n) h = Some (r, h) ∧
    find_word (λ i, do u <- word x i; ret (negb (u =? 0)))%store n (turns n (nwords x)) h
      = Some (s, h) ∧
    (r = None ∧ s = None ↔ members (words x) ⊆ members (words y)) ∧
    (nwords x ≤ nwords y → s = None).
Proof.
  destruct (find_words2_ok x y (λ u v, negb (Z.land u (bmw_not v) =? 0)) 0 n) as (r & E & Hr);
    [done..|lia|lia|lia|].
  destruct (find_words_ok x (λ u, negb (u =? 0)) n (nwords x)) as (s & E' & Hs);
    [done..|lia|lia|lia|].
  exists r, s. split_and!; [done..| |].
  - rewrite subset_words by done. fold n.
    rewrite (not_found (λ k, negb (wd (words x) k =? 0)) _ _ _ Hs) by lia.
    by rewrite (not_found (λ k, negb (Z.land (wd (words x) k) (bmw_not (wd (words y) k)) =? 0))
      _ _ _ Hr) by lia.
  - intros Hle. rewrite (not_found (λ k, negb (wd (words x) k =? 0)) _ _ _ Hs) by lia.
    intros k Hk. lia.
Qed.
End Two.

Lemma bms_is_subset_ok a b v w :
  repr h a v → repr h b w → bms_is_subset a b h = Some (bool_decide (elems v ⊆ elems w), h).
Proof.
  intros Ha Hb. unfold bms_is_subset. pose proof (bms_is_empty_ok a v Ha) as Ea.
  arg Ha x. { by rewrite bool_decide_eq_true_2 by set_solver. }
  arg Hb y. { rewrite Ea. do 2 f_equal. apply bool_decide_ext. set_solver. }
  erewrite !bind_load by done. cbn [elems default from_option id].
  destruct (difference_loops x y) as (r & s & E & E' & Hiff & Hs); [done..|].
  erewrite bind_run by done. destruct r as [k|].
  { unfold ret. do 2 f_equal. symmetry. apply bool_decide_eq_false. naive_solver. }
  destruct (Z.ltb_spec (nwords y) (nwords x)).
  - erewrite bind_run by done. unfold ret. do 2 f_equal. apply none_decide. naive_solver.
  - unfold ret. do 2 f_equal. symmetry. apply bool_decide_eq_true. naive_solver lia.
Qed.

Lemma bms_nonempty_difference_ok a b v w :
  repr h a v → repr h b w →
  bms_nonempty_difference a b h = Some (bool_decide (elems v ∖ elems w ≠ ∅), h).
Proof.
  assert (Hd : ∀ X Y : gset Z, X ∖ Y ≠ ∅ ↔ ¬ X ⊆ Y).
  { intros X Y. split; intros H; [set_solver|]. intros E. apply H. intros x Hx.
    destruct (decide (x ∈ Y)); set_solver. }
  intros Ha Hb. unfold bms_nonempty_difference. pose proof (bms_is_empty_ok a v Ha) as Ea.
  rewrite (bool_decide_ext _ (¬ elems v ⊆ elems w)) by apply Hd.
  arg Ha x. { by rewrite bool_decide_eq_false_2 by set_solver. }
  arg Hb y.
  { erewrite bind_run by done. unfold ret. do 2 f_equal. rewrite bool_decide_not.
    f_equal. apply bool_decide_ext. set_solver. }
  erewrite !bind_load by done. cbn [elems default from_option id].
  destruct (difference_loops x y) as (r & s & E & E' & Hiff & Hs); [done..|].
  erewrite bind_run by done. destruct r as [k|].
  { unfold ret. do 2 f_equal. symmetry. apply bool_decide_eq_true. naive_solver. }
  erewrite bind_run by done. unfold ret. do 2 f_equal. apply some_decide.
  destruct (decide (members (words x) ⊆ members (words y))); naive_solver.
Qed.

Lemma bms_overlap_ok a b v w :
  repr h a v → repr h b w → bms_overlap a b h = Some (bool_decide (elems v ∩ elems w ≠ ∅), h).
Proof.
  intros Ha Hb. unfold bms_overlap.
  arg Ha x. { rewrite bool_decide_eq_false_2; [done|]. set_solver. }
  arg Hb y. { rewrite bool_decide_eq_false_2; [done|]. set_solver. }
  erewrite !bind_load by done. cbn [elems default from_option id].
  destruct (find_words2_ok x y (λ u v, negb (Z.land u v =? 0)) 0 (nwords x `min` nwords y))
    as (r & E & Hr); [done..|lia|lia|lia|].
  erewrite bind_run by done. unfold ret. do 2 f_equal. apply some_decide.
  rewrite (not_found (λ k, negb (Z.land (wd (words x) k) (wd (words y) k) =? 0)) _ _ _ Hr) by lia.
  transitivity (members (words x) ∩ members (words y) = ∅);
    [|split; [by intros E' []|apply dec_stable]].
  rewrite members_disjoint by (apply Hwf_x || apply Hwf_y). split.
  - intros H k. destruct (decide (Z.of_nat k < nwords x `min` nwords y)).
    { apply Z.eqb_eq, negb_false_iff, H. lia. }
    destruct (decide (Z.of_nat k < nwords x)).
    + rewrite (wd_out y) by (done || lia). apply Z.land_0_r.
    + by rewrite (wd_out x) by (done || lia).
  - intros H k _. by rewrite H.
Qed.

Lemma bms_is_member_ok a v x :
  repr h a v → 0 ≤ x < 2 ^ 31 →
  bms_is_member x a h = Some (Return (bool_decide (x ∈ elems v)), h).
Proof.
  intros Ha Hx. unfold bms_is_member. rewrite (proj2 (Z.ltb_ge x 0)) by lia.
  arg Ha b. { rewrite bool_decide_eq_false_2; [done|]. set_solver. }
  erewrite bind_load by done. rewrite WORDNUM_eq, BITNUM_eq, one_bit by (done || divlia).
  cbn [elems default from_option id]. rewrite (bool_decide_ext _ (bit (words b) x = true))
    by apply elem_of_members.
  rewrite bit_wd by lia. assert (nwords b = Z.of_nat (length (words b))) as Hn by apply Hwf_b.
  destruct (Z.leb_spec (nwords b) (x / 32)).
  - rewrite (wd_out b), Z.testbit_0_l by (done || divlia). done.
  - rewrite bind_word by divlia. rewrite land_one_bit, negb_involutive by divlia.
    by destruct (Z.testbit _ _).
Qed.

(** ** Loops over the words *)

Section Loops.
Context (b : Bitmapset) (Hb : wf b).
Let l := words b.

Lemma count_loop_ok n k :
  (k + n)%nat = length l →
  count_loop b (Z.of_nat k) n (s32 (Z.of_nat (length (member_list (take k l))))) h
    = Some (s32 (Z.of_nat (length (member_list l))), h).
Proof.
  revert k. induction n as [|n IH]; intros k Hk.
  { cbn. rewrite take_ge by lia. done. }
  cbn [count_loop]. rewrite bind_word by (fold l; lia). fold l. rewrite Nat2Z.id.
  rewrite count_ones_word by (by apply wf_wd). cbn [lift]. rewrite bind_ret.
  rewrite <- (IH (S k)) by lia. rewrite member_list_take, length_app, length_fmap by lia.
  do 3 f_equal; lia.
Qed.

(** What is left of the words from [k] on. *)
Lemma member_list_prefix k : ∃ t, member_list l = member_list (take k l) ++ t.
Proof.
  destruct (decide (k ≤ length l)%nat) as [Hk|].
  2: { exists []. by rewrite take_ge, app_nil_r by lia. }
  remember (length l - k)%nat as n eqn:Hn. revert k Hk Hn. induction n as [|n IH]; intros k Hk Hn.
  { exists []. by rewrite take_ge, app_nil_r by lia. }
  destruct (IH (S k)) as (t & ->); [lia|lia|]. rewrite member_list_take by lia.
  rewrite <- app_assoc. by eexists.
Qed.

Lemma singleton_loop_ok n k :
  (k + n)%nat = length l → (length (member_list (take k l)) ≤ 1)%nat →
  singleton_loop b (Z.of_nat k) n (first_or (member_list (take k l))) h
    = Some (one_member (member_list l), h).
Proof.
  assert (nwords b ≤ 2 ^ 26 ∧ nwords b = Z.of_nat (length l)) as [Hm Hn] by (split; apply Hb).
  assert (Hpos : ∀ k x, x ∈ member_list (take k l) → 0 ≤ x).
  { intros j x Hx. apply elem_of_member_list, bit_in in Hx. lia. }
  revert k. induction n as [|n IH]; intros k Hk Hlen.
  { cbn [singleton_loop]. rewrite take_ge in * by lia. unfold ret. do 2 f_equal.
    specialize (Hpos (length l)). rewrite take_ge in Hpos by lia.
    destruct (member_list l) as [|x [|y t]]; cbn in *; [done| |lia].
    rewrite (proj2 (Z.ltb_ge x 0)); [done|]. apply Hpos. set_solver. }
  cbn [singleton_loop]. rewrite bind_word by (fold l; lia). fold l. rewrite Nat2Z.id.
  pose proof (member_list_take l k ltac:(lia)) as Ht.
  destruct (Z.eqb_spec (wd l k) 0) as [E|Hne]; cbn [negb].
  { rewrite E, ones_0, app_nil_r in Ht. rewrite <- Ht. replace (Z.of_nat k + 1) with (Z.of_nat (S k)) by lia.
    apply IH; [lia|]. by rewrite Ht. }
  destruct (ones_lsb (wd l k)) as (i & t & Eo & _ & Hi & Hmul & Hlow); [by apply wf_wd|done|].
  rewrite Eo in Ht. cbn in Ht.
  assert (Hmany : (2 ≤ length (member_list (take (S k) l)))%nat → one_member (member_list l) = ElogError).
  { destruct (member_list_prefix (S k)) as (t' & ->).
    destruct (member_list (take (S k) l)) as [|? [|? ?]]; cbn; [lia..|done]. }
  destruct (member_list (take k l)) as [|x s] eqn:Es.
  - cbn [first_or head default from_option]. cbn [Z.leb Z.compare orb].
    destruct (HAS_MULTIPLE_ONES (wd l k)) eqn:Hmo.
    { rewrite Hmany; [done|]. rewrite Ht. destruct t; [|cbn; lia]. by destruct (proj1 Hmul eq_refl). }
    rewrite Hlow. cbn [lift]. rewrite bind_ret. assert (t = []) as ->.
    { destruct t; [done|]. by discriminate (proj2 Hmul). }
    replace (Z.of_nat k + 1) with (Z.of_nat (S k)) by lia.
    rewrite <- IH with (k := S k) by (lia || by rewrite Ht).
    rewrite Ht. cbn. unfold BITS_PER_BITMAPWORD. rewrite s32_id by lia.
    by rewrite (Z.add_comm i), (Z.mul_comm (Z.of_nat k)).
  - cbn [first_or head default from_option id].
    rewrite (proj2 (Z.leb_le 0 x)) by (apply (Hpos k); rewrite Es; set_solver). cbn [orb].
    rewrite Hmany; [done|]. rewrite Ht, length_app. cbn. lia.
Qed.

Lemma membership_loop_ok n k :
  (k + n)%nat = length l → (length (member_list (take k l)) ≤ 1)%nat →
  membership_loop b (Z.of_nat k) n (membership_of (member_list (take k l))) h
    = Some (membership_of (member_list l), h).
Proof.
  revert k. induction n as [|n IH]; intros k Hk Hlen.
  { cbn. by rewrite take_ge by lia. }
  cbn [membership_loop]. rewrite bind_word by (fold l; lia). fold l. rewrite Nat2Z.id.
  pose proof (member_list_take l k ltac:(lia)) as Ht.
  replace (Z.of_nat k + 1) with (Z.of_nat (S k)) by lia.
  destruct (Z.eqb_spec (wd l k) 0) as [E|Hne]; cbn [negb].
  { rewrite E, ones_0, app_nil_r in Ht. rewrite <- Ht. apply IH; [lia|]. by rewrite Ht. }
  destruct (ones_lsb (wd l k)) as (i & t & Eo & _ & Hi & Hmul & Hlow); [by apply wf_wd|done|].
  rewrite Eo in Ht. cbn in Ht.
  assert (Hmany : (2 ≤ length (member_list (take (S k) l)))%nat →
    membership_of (member_list l) = BMS_MULTIPLE).
  { destruct (member_list_prefix (S k)) as (t' & ->).
    destruct (member_list (take (S k) l)) as [|? [|? ?]]; cbn; [lia..|done]. }
  destruct (member_list (take k l)) as [|x [|y s]] eqn:Es; cbn [membership_of].
  - destruct (HAS_MULTIPLE_ONES (wd l k)) eqn:Hmo.
    { rewrite Hmany; [done|]. rewrite Ht. destruct t; [|cbn; lia]. by destruct (proj1 Hmul eq_refl). }
    assert (t = []) as ->.
    { destruct t; [done|]. by discriminate (proj2 Hmul). }
    rewrite <- IH with (k := S k) by (lia || by rewrite Ht). by rewrite Ht.
  - rewrite Hmany; [done|]. rewrite Ht, length_app. cbn. lia.
  - cbn in Hlen. lia.
Qed.
End Loops.

Lemma bms_num_members_ok a v :
  repr h a v → bms_num_members a h = Some (s32 (Z.of_nat (size (elems v))), h).
Proof.
  intros Ha. unfold bms_num_members. arg Ha b; [done|]. erewrite bind_load by done.
  assert (nwords b = Z.of_nat (length (words b))) as Hn by apply Hwf_b.
  rewrite <- (s32_id 0) by lia. change 0 with (Z.of_nat 0) at 1.
  cbn [elems default from_option id]. rewrite size_members.
  by apply (count_loop_ok b Hwf_b (turns 0 (nwords b)) 0); unfold turns; lia.
Qed.

Lemma bms_singleton_member_ok a v :
  repr h a v → bms_singleton_member a h = Some (one_member (ascending (elems v)), h).
Proof.
  intros Ha. unfold bms_singleton_member. arg Ha b; [done|]. erewrite bind_load by done.
  assert (nwords b = Z.of_nat (length (words b))) as Hn by apply Hwf_b.
  cbn [elems default from_option id]. rewrite ascending_members.
  apply (singleton_loop_ok b Hwf_b (turns 0 (nwords b)) 0); [unfold turns; lia|].
  rewrite take_0, member_list_nil. cbn. lia.
Qed.

Lemma bms_membership_ok a v :
  repr h a v → bms_membership a h = Some (membership_of (ascending (elems v)), h).
Proof.
  intros Ha. unfold bms_membership. arg Ha b; [done|]. erewrite bind_load by done.
  assert (nwords b = Z.of_nat (length (words b))) as Hn by apply Hwf_b.
  cbn [elems default from_option id]. rewrite ascending_members.
  apply (membership_loop_ok b Hwf_b (turns 0 (nwords b)) 0); [unfold turns; lia|].
  rewrite take_0, member_list_nil. cbn. lia.
Qed.

(** ** Iteration *)

(** The smallest member from [x] on: none in the words up to [x], and the
    lowest bit of the first word that is not zero. *)
Lemma first_in_word b k j x :
  wf b → x ≤ 32 * Z.of_nat k + j → 0 ≤ j < 32 → Z.testbit (wd (words b) k) j = true →
  (∀ z, bit (words b) z = true → x ≤ z → 32 * Z.of_nat k + j ≤ z) →
  first_or (filter (λ z, x ≤ z) (member_list (words b))) = 32 * Z.of_nat k + j.
Proof.
  intros Hb Hx Hj Hbit Hmin. apply first_filter; [apply member_list_sorted| |done|].
  - apply elem_of_member_list. by rewrite bit_at.
  - intros z Hz. rewrite elem_of_member_list in Hz. by apply Hmin.
Qed.

Lemma bit_word l z : bit l z = true → 0 ≤ z ∧ Z.testbit (wd l (Z.to_nat (z / 32))) (z `mod` 32) = true.
Proof. intros Hz. pose proof (bit_in _ _ Hz). rewrite bit_wd in Hz by lia. split; [lia|done]. Qed.

(** The first word that is not zero from word [i] on. *)
Lemma first_nonzero_word b i x r :
  wf b → 0 ≤ i → i ≤ nwords b → x ≤ 32 * i →
  (∀ z, bit (words b) z = true → x ≤ z → 32 * i ≤ z) →
  found (λ k, negb (wd (words b) (Z.to_nat k) =? 0)) i (turns i (nwords b)) r →
  match r with
  | Some k => i ≤ k < nwords b ∧ ∃ j, is_lsb (wd (words b) (Z.to_nat k)) j ∧ 0 ≤ j < 32 ∧
      num_low_order_zero_bits (wd (words b) (Z.to_nat k)) = Some j ∧
      first_or (filter (λ z, x ≤ z) (member_list (words b))) = 32 * k + j
  | None => first_or (filter (λ z, x ≤ z) (member_list (words b))) = -1
  end.
Proof.
  intros Hb Hi Hin Hx Hout Hr. destruct r as [k|]; cbn [found] in Hr; rewrite turns_nat in Hr by done.
  - destruct Hr as (Hk & Hnz & Hz). split; [lia|].
    apply negb_true_iff, Z.eqb_neq in Hnz.
    destruct (ones_lsb (wd (words b) (Z.to_nat k))) as (j & t & _ & Hlsb & Hj & _ & Hlow);
      [by apply wf_wd|done|].
    exists j. split_and!; [done|lia|lia|done|].
    replace (32 * k + j) with (32 * Z.of_nat (Z.to_nat k) + j) by lia.
    apply first_in_word; [done|lia|done|apply Hlsb|].
    intros z Hzb Hxz. pose proof (Hout z Hzb Hxz). apply bit_word in Hzb as [Hz0 Hzb].
    destruct (decide (z / 32 < k)).
    { specialize (Hz (z / 32)). rewrite negb_false_iff, Z.eqb_eq in Hz. rewrite Hz in Hzb by divlia.
      by rewrite Z.testbit_0_l in Hzb. }
    destruct (decide (z / 32 = k)) as [E|]; [|divlia]. rewrite E in Hzb.
    destruct (decide (j ≤ z `mod` 32)); [divlia|].
    destruct Hlsb as (_ & _ & Hlsb). rewrite Hlsb in Hzb by divlia. done.
  - apply first_filter_none. intros z Hzb%elem_of_member_list.
    destruct (decide (z < x)) as [|Hxz]; [done|]. pose proof (Hout z Hzb ltac:(lia)).
    pose proof (bit_in _ _ Hzb) as Hb'. apply bit_word in Hzb as [Hz0 Hzb].
    assert (nwords b = Z.of_nat (length (words b))) as Hn by apply Hb.
    specialize (Hr (z / 32)). rewrite negb_false_iff, Z.eqb_eq in Hr. rewrite Hr in Hzb by divlia.
    by rewrite Z.testbit_0_l in Hzb.
Qed.

Lemma wordnum_negative x n :
  - 2 ^ 31 ≤ x < 0 → 0 ≤ n ≤ 2 ^ 26 → u32 n <=? u32 (WORDNUM x) = true.
Proof.
  intros Hx Hn. apply Z.leb_le. rewrite (u32_id n) by lia. unfold WORDNUM, BITS_PER_BITMAPWORD_LOG2.
  assert (u32 x = x + 2 ^ 32) as ->.
  { unfold u32. rewrite <- (Z.mod_small (x + 2 ^ 32) (2 ^ 32)) by lia.
    rewrite Z.add_mod, Z.mod_same, Z.add_0_r, Z.mod_mod by lia. done. }
  rewrite Z.shiftr_div_pow2 by lia. change (2 ^ 5) with 32.
  rewrite s32_id, u32_id by divlia. divlia.
Qed.

(** The member [z] is in the word of [x], at or after it. *)
Lemma bit_same_word l x z :
  0 ≤ x → bit l z = true → x ≤ z < 32 * (x / 32) + 32 →
  Z.testbit (Z.shiftr (wd l (Z.to_nat (x / 32))) (x `mod` 32)) (z - x) = true.
Proof.
  intros Hx Hz Hzx. apply bit_word in Hz as [_ Hz]. rewrite Z.shiftr_spec by lia.
  replace (Z.to_nat (z / 32)) with (Z.to_nat (x / 32)) in Hz by divlia. rewrite <- Hz. f_equal. divlia.
Qed.

Lemma first_same_word b x j :
  wf b → 0 ≤ x → is_lsb (Z.shiftr (wd (words b) (Z.to_nat (x / 32))) (x `mod` 32)) j →
  first_or (filter (λ z, x ≤ z) (member_list (words b))) = x + j ∧ j + x `mod` 32 < 32.
Proof.
  intros Hb Hx (Hj & Hlsb & Hlow). set (k := Z.to_nat (x / 32)) in *.
  rewrite Z.shiftr_spec in Hlsb by done.
  assert (Hlt : j + x `mod` 32 < 32).
  { destruct (decide (j + x `mod` 32 < 32)); [done|].
    by rewrite (range_testbit _ 32) in Hlsb by (lia || by apply wf_wd). }
  split; [|done].
  replace (x + j) with (32 * Z.of_nat k + (j + x `mod` 32)) by (unfold k; divlia).
  apply first_in_word; [done|unfold k; divlia|divlia|done|]. intros z Hz Hxz.
  destruct (decide (x + j ≤ z)); [unfold k; divlia|].
  pose proof (bit_same_word _ x z Hx Hz ltac:(divlia)) as Hsame.
  fold k in Hsame. by rewrite Hlow in Hsame by lia.
Qed.

Lemma bms_first_from_ok a v x :
  repr h a v → - 2 ^ 31 ≤ x < 2 ^ 31 →
  bms_first_from a x h = Some (first_from_of (ascending (elems v)) x, h).
Proof.
  intros Ha Hx. unfold bms_first_from, first_from_of. arg Ha b; [by case_match|].
  erewrite bind_load by done. assert (nwords b ≤ 2 ^ 26) as Hm by apply Hwf_b.
  assert (nwords b = Z.of_nat (length (words b))) as Hn by apply Hwf_b.
  cbn [elems default from_option id]. rewrite ascending_members.
  destruct (Z.ltb_spec x 0) as [|Hx0]. { by rewrite wordnum_negative by lia. }
  rewrite WORDNUM_eq, BITNUM_eq, !u32_id by divlia.
  destruct (Z.leb_spec (nwords b) (x / 32)).
  { rewrite first_filter_none; [done|]. intros z Hz%elem_of_member_list.
    apply bit_in in Hz. divlia. }
  rewrite bind_word by divlia. pose proof (first_same_word b x) as Hsame.
  assert (Hw : is_word (wd (words b) (Z.to_nat (x / 32)))) by (by apply wf_wd).
  set (w := Z.shiftr (wd (words b) (Z.to_nat (x / 32))) (x `mod` 32)) in *.
  change 1 with (2 ^ 0) at 1. rewrite land_one_bit, negb_involutive by lia.
  destruct (Z.testbit w 0) eqn:E0.
  { destruct (Hsame 0) as [-> _]; [done..| |by rewrite Z.add_0_r].
    split_and!; [done..|]. intros i Hi. lia. }
  destruct (Z.eqb_spec w 0) as [Hw0|Hw0]; cbn [negb].
  - destruct (find_words_ok b (λ w, negb (w =? 0)) (x / 32 + 1) (nwords b)) as (r & E & Hr);
      [done|divlia|lia|lia|].
    erewrite bind_run by done.
    apply (first_nonzero_word b _ x) in Hr; [|done|divlia|lia|divlia|].
    2: { intros z Hz Hxz. destruct (decide (32 * (x / 32 + 1) ≤ z)); [done|].
         pose proof (bit_same_word _ x z Hx0 Hz ltac:(lia)) as Hz'. fold w in Hz'.
         by rewrite Hw0, Z.testbit_0_l in Hz'. }
    destruct r as [j|]; [|by rewrite Hr].
    destruct Hr as (Hj & i & _ & Hi & Hlow & ->). rewrite bind_word by divlia.
    rewrite Hlow. cbn [lift]. rewrite bind_ret. unfold BITS_PER_BITMAPWORD.
    rewrite s32_id by divlia. by rewrite (Z.mul_comm j).
  - destruct (ones_lsb w) as (j & t & _ & Hlsb & Hj & _ & Hlow); [|done|].
    { unfold w. destruct Hw. split; [by apply Z.shiftr_nonneg|]. rewrite Z.shiftr_div_pow2 by divlia.
      pose proof (Z.pow_pos_nonneg 2 (x `mod` 32)).
      pose proof (Z.div_le_upper_bound (wd (words b) (Z.to_nat (x / 32))) (2 ^ (x `mod` 32))
        (wd (words b) (Z.to_nat (x / 32)))). divlia. }
    rewrite Hlow. cbn [lift]. rewrite bind_ret.
    destruct (Hsame j) as [-> Hlt]; [done..|]. by rewrite s32_id by divlia.
Qed.

Definition a_pop (v : aset) : aset :=
  match v with
  | Some X => Some (match ascending X with x :: _ => X ∖ {[ x ]} | [] => X end)
  | None => None
  end.

Lemma bms_first_member_ok a v :
  repr h a v →
  ∃ h', bms_first_member a h = Some (first_or (ascending (elems v)), h') ∧
    effect h [a] h' a (a_pop v).
Proof.
  intros Ha. unfold bms_first_member. pose proof (effect_same h Hok a v Ha) as Hsame.
  arg Ha b; [by eexists|]. erewrite bind_load by done.
  destruct (find_words_ok b (λ w, negb (w =? 0)) 0 (nwords b)) as (r & E & Hr); [done..|].
  erewrite bind_run by done. cbn [elems default from_option id a_pop].
  rewrite ascending_members.
  assert (Hall : filter (λ z, 0 ≤ z) (member_list (words b)) = member_list (words b)).
  { apply filter_all. intros z Hz%elem_of_member_list. apply bit_in in Hz. lia. }
  apply (first_nonzero_word b _ 0) in Hr; [|done..|by intros z Hz%bit_in; lia].
  rewrite Hall in Hr. destruct r as [k|].
  - destruct Hr as (Hk & j & Hlsb & Hj & Hlow & Hfirst). 
    assert (nwords b = Z.of_nat (length (words b))) as Hn by apply Hwf_b.
    assert (nwords b ≤ 2 ^ 26) as Hm by apply Hwf_b.
    rewrite bind_word by lia. rewrite (rightmost_one_ok _ j) by (done || lia).
    remember (32 * k + j) as x eqn:Ex.
    assert (k = x / 32 ∧ j = x `mod` 32) as [-> ->] by divlia.
    destruct (set_word_wf h a b x
      (andnot_word (wd (words b) (Z.to_nat (x / 32))) (2 ^ (x `mod` 32)))) as (z & E' & Hz & Hw);
      [done..|lia|lia|by apply andnot_word_range, wf_wd|].
    erewrite bind_run by done.
    rewrite (num_low_order_zero_bits_ok _ (x `mod` 32)) by (apply is_lsb_pow2 || lia; lia).
    cbn [lift]. rewrite bind_ret. unfold BITS_PER_BITMAPWORD. rewrite s32_id by lia.
    eexists. rewrite Hfirst. split; [unfold ret; do 2 f_equal; lia|].
    destruct (member_list (words b)) as [|y t] eqn:Em; cbn in Hfirst; [lia|].
    subst y. eapply effect_update; [done..|]. apply members_del_bit; [done|lia|].
    intros i. rewrite Hw. by case_decide; subst.
  - eexists. rewrite Hr. split; [done|].
    destruct (member_list (words b)) as [|z t] eqn:Em; [done|]. cbn in Hr. subst z.
    assert (Hz : -1 ∈ member_list (words b)) by (rewrite Em; set_solver).
    apply elem_of_member_list, bit_in in Hz. lia.
Qed.

Lemma repr_bound a v x : repr h a v → x ∈ elems v → 0 ≤ x < 2 ^ 31.
Proof.
  intros Ha Hx. arg Ha b; [by apply not_elem_of_empty in Hx|]. cbn in Hx.
  apply elem_of_members, bit_in in Hx. destruct Hwf_b as (Hn & Hm & _). lia.
Qed.

(** The members after [m]. *)
Lemma filter_after (seen rest : list Z) m :
  StronglySorted Z.lt (seen ++ m :: rest) →
  filter (λ z, m + 1 ≤ z) (seen ++ m :: rest) = rest.
Proof.
  intros Hs. rewrite filter_app, filter_cons, decide_False by lia.
  apply StronglySorted_app in Hs as (Hlt & _ & Hs). apply StronglySorted_inv in Hs as [_ Hs].
  rewrite Forall_forall in Hs. rewrite (filter_all _ rest) by (intros z Hz; apply Hs in Hz; lia).
  replace (filter _ seen) with (@nil Z); [done|]. symmetry.
  assert (Hseen : ∀ z, z ∈ seen → z < m) by (intros z Hz; apply Hlt; set_solver).
  clear -Hseen. induction seen as [|z seen IH]; [done|].
  rewrite filter_cons, decide_False by (specialize (Hseen z); set_solver by lia).
  apply IH. set_solver.
Qed.

Lemma foreach_loop_ok a v n seen rest :
  repr h a v → ascending (elems v) = seen ++ rest → (length rest ≤ n)%nat →
  foreach_loop n a (first_or rest) seen h = Some (Some (ascending (elems v)), h).
Proof.
  intros Ha. revert n seen. induction rest as [|m rest IH]; intros n seen E Hn.
  { rewrite E, app_nil_r. by destruct n. }
  assert (Hin : ∀ z, z ∈ m :: rest → 0 ≤ z < 2 ^ 31).
  { intros z Hz. eapply repr_bound; [done|]. apply elem_of_ascending. rewrite E. set_solver. }
  destruct n as [|n]; cbn in Hn; [lia|].
  pose proof (Hin m ltac:(set_solver)) as Hm. cbn [foreach_loop first_or head default from_option id].
  rewrite (proj2 (Z.leb_le 0 m)) by lia. cbn [negb].
  pose proof (ascending_sorted (elems v)) as Hs. rewrite E in Hs.
  assert (Hnext : bms_first_from a (s32 (m + 1)) h = Some (first_or rest, h)).
  { destruct (decide (m + 1 < 2 ^ 31)).
    - rewrite s32_id, (bms_first_from_ok a v) by (done || lia). unfold first_from_of.
      rewrite (proj2 (Z.ltb_ge _ _)) by lia. by rewrite E, filter_after.
    - assert (m + 1 = 2 ^ 31) as -> by lia.
      rewrite (bms_first_from_ok a v) by (done || by vm_compute). unfold first_from_of. cbn.
      destruct rest as [|z rest]; [done|]. apply StronglySorted_app in Hs as (_ & _ & Hs).
      apply StronglySorted_inv in Hs as [_ Hs]. apply Forall_cons in Hs as [Hz _].
      specialize (Hin z ltac:(set_solver)). lia. }
  erewrite bind_run by done. apply IH; [|lia]. by rewrite <- app_assoc.
Qed.

Lemma bms_foreach_ok a v n :
  repr h a v → (size (elems v) ≤ n)%nat →
  bms_foreach n a h = Some (Some (ascending (elems v)), h).
Proof.
  intros Ha Hn. unfold bms_foreach. erewrite bind_run by (by eapply bms_first_from_ok).
  unfold first_from_of. rewrite filter_all.
  2: { intros z Hz%elem_of_ascending. by eapply repr_bound in Hz as []. }
  apply (foreach_loop_ok a v n []); [done..|].
  unfold ascending. rewrite merge_sort_Permutation. done.
Qed.
End Queries.

Lemma effect_trans h h1 h2 a v1 v2 :
  effect h [a] h1 a v1 → effect h1 [a] h2 a v2 → effect h [a] h2 a v2.
Proof.
  intros (_ & _ & _ & Ho1 & _) (? & ? & _ & Ho2 & _). split_and!; [done|done|set_solver|..].
  - intros q Hq Hne. by rewrite Ho2, Ho1.
  - set_solver.
Qed.

Lemma drain_loop_ok n : ∀ h a v seen,
  store_ok h → repr h a v → (size (elems v) ≤ n)%nat →
  ∃ h', drain_loop n a seen h = Some (Some (seen ++ ascending (elems v)), h') ∧
    effect h [a] h' a (match v with Some _ => Some ∅ | None => None end).
Proof.
  assert (Hstop : ∀ h a v seen n, store_ok h → repr h a v → ascending (elems v) = [] →
    ∃ h', drain_loop n a seen h = Some (Some (seen ++ ascending (elems v)), h') ∧
      effect h [a] h' a (match v with Some _ => Some ∅ | None => None end)).
  { intros h a v seen k Hok Ha E. destruct (bms_first_member_ok h Hok a v Ha) as (h' & Ef & He).
    exists h'. rewrite E, app_nil_r. rewrite E in Ef.
    split; [destruct k; cbn [drain_loop]; by erewrite bind_run by done|].
    destruct v as [X|]; [|done]. cbn in E, He. rewrite E in He.
    assert (X = ∅) as ->; [|done]. apply set_eq. intros x. rewrite <- elem_of_ascending, E. set_solver. }
  induction n as [|n IH]; intros h a v seen Hok Ha Hn.
  { apply Hstop; [done..|]. apply Nat.le_0_r, size_empty_inv, leibniz_equiv in Hn. by rewrite Hn. }
  destruct (decide (ascending (elems v) = [])) as [E|Hne]; [by apply Hstop|].
  destruct (ascending (elems v)) as [|x t] eqn:E; [done|]. clear Hne.
  destruct v as [X|]; [|done]. cbn in E, Hn.
  destruct (bms_first_member_ok h Hok a (Some X) Ha) as (h1 & Ef & He).
  cbn [elems default from_option id a_pop] in Ef, He. rewrite E in Ef, He.
  assert (Hx : x ∈ X) by (apply elem_of_ascending; rewrite E; set_solver).
  pose proof (repr_bound h Hok a (Some X) x Ha Hx).
  destruct (IH h1 a (Some (X ∖ {[ x ]})) (seen ++ [x])) as (h2 & E2 & He2);
    [apply He|apply He|cbn; rewrite size_difference, size_singleton by set_solver; lia|].
  exists h2. cbn [drain_loop]. erewrite bind_run by done. cbn [first_or head default from_option id].
  rewrite (proj2 (Z.leb_le 0 x)) by lia. cbn [negb]. rewrite E2. split.
  - cbn. rewrite (ascending_pop X x t E), <- app_assoc. done.
  - by eapply effect_trans.
Qed.

(** ** Comparison and hashing *)

Definition words_of (h : Store Bitmapset) (p : Z) : list Z :=
  match cells h !! p with Some b => words b | None => [] end.

Lemma repr_words h p v :
  store_ok h → repr h p v → members (words_of h p) = elems v ∧ Forall is_word (words_of h p).
Proof.
  intros Hok Hp. unfold words_of. arg Hp b.
  - by rewrite store_ok_null.
  - rewrite Hp. split; [done|]. apply Hwf_b.
Qed.

(** The order of the lowest word in which two sets differ. *)
Definition lex (c : Z) (l l' : list Z) : Prop :=
  c = 0 ∧ (∀ k, wd l k = wd l' k) ∨
  ∃ k, (c = -1 ∧ wd l k < wd l' k ∨ c = 1 ∧ wd l' k < wd l k) ∧
       ∀ j, (j < k)%nat → wd l j = wd l' j.

Lemma lex_sym c l l' : lex c l l' → lex (- c) l' l.
Proof.
  intros [[-> E]|(k & Hk & E)]; [by left|]. right. exists k. split; [lia|].
  intros j Hj. by rewrite E.
Qed.

Lemma lex_fun c c' l l' : lex c l l' → lex c' l l' → c = c'.
Proof.
  intros [[-> E]|(k & Hk & E)] [[-> E']|(k' & Hk' & E')]; try done.
  - specialize (E k'). lia.
  - specialize (E' k). lia.
  - destruct (Nat.lt_trichotomy k k') as [Hlt|[->|Hlt]]; [|lia|].
    + specialize (E' k Hlt). lia.
    + specialize (E k' Hlt). lia.
Qed.

Lemma lex_trans c c' l1 l2 l3 :
  lex c l1 l2 → lex c' l2 l3 → c ≤ 0 → c' ≤ 0 → lex (Z.min c c') l1 l3.
Proof.
  intros [[-> E]|(k & Hk & E)] [[-> E']|(k' & Hk' & E')] Hc Hc'.
  - left. split; [done|]. intros k. by rewrite E.
  - right. exists k'. rewrite E. split; [lia|]. intros j Hj. by rewrite E, E'.
  - right. exists k. rewrite <- E'. split; [lia|]. intros j Hj. by rewrite <- E', E.
  - right. exists (k `min` k')%nat. split.
    + destruct (Nat.lt_trichotomy k k') as [Hlt|[->|Hlt]].
      * rewrite Nat.min_l, <- (E' k) by lia. lia.
      * rewrite Nat.min_l by lia. lia.
      * rewrite Nat.min_r, (E k') by lia. lia.
    + intros j Hj. rewrite E, E' by lia. done.
Qed.

Lemma lex_zero c l l' :
  Forall is_word l → Forall is_word l' → lex c l l' → c = 0 ↔ members l = members l'.
Proof.
  intros Hl Hl' Hc. rewrite members_eq by done. split.
  - intros ->. destruct Hc as [[_ E]|(k & Hk & _)]; [done|lia].
  - intros E. destruct Hc as [[-> _]|(k & Hk & _)]; [done|]. specialize (E k). lia.
Qed.

Section Compare.
Context (h : Store Bitmapset) (Hok : store_ok h).

(** A set against NULL: the first word that is not zero. *)
Lemma lex_nil l : Forall is_word l → lex (if bool_decide (members l = ∅) then 0 else 1) l [].
Proof.
  intros Hl. case_bool_decide as E.
  { rewrite members_empty in E by done. left. by setoid_rewrite wd_nil. }
  destruct (list_find (λ w, w ≠ 0) l) as [[k w]|] eqn:Ef.
  - apply list_find_Some in Ef as (Hk & Hw & Hlt). right. exists k. split.
    + right. split; [done|]. pose proof (wd_range l k Hl) as Hr.
      rewrite (wd_lookup _ _ _ Hk), wd_nil in *. unfold is_word in Hr. lia.
    + intros j Hj. rewrite wd_nil. unfold wd. destruct (l !! j) as [y|] eqn:Ej; [|done]. cbn.
      specialize (Hlt j y Ej Hj). apply dec_stable in Hlt. done.
  - apply list_find_None in Ef. destruct E. rewrite members_empty by done. intros k. unfold wd.
    destruct (l !! k) as [w|] eqn:Ek; [|done]. cbn. rewrite Forall_lookup in Ef.
    apply dec_stable, (Ef k w Ek).
Qed.

(** The words of the longer set beyond the shorter one. *)
Lemma lex_longer x y s :
  wf x → wf y → 0 ≤ nwords x ≤ nwords y →
  (∀ k, Z.of_nat k < nwords x → wd (words x) k = wd (words y) k) →
  found (λ k, negb (wd (words y) (Z.to_nat k) =? 0)) (nwords x) (turns (nwords x) (nwords y)) s →
  lex (match s with Some _ => -1 | None => 0 end) (words x) (words y).
Proof.
  intros Hx Hy Hle Heq Hs. destruct s as [k|]; cbn [found] in Hs; rewrite turns_nat in Hs by lia.
  - destruct Hs as (Hk & Hne & Hz). apply negb_true_iff, Z.eqb_neq in Hne.
    right. exists (Z.to_nat k). split.
    + left. split; [done|]. rewrite (wd_out x) by (done || lia).
      pose proof (wf_wd y (Z.to_nat k) Hy) as []. lia.
    + intros j Hj. destruct (decide (Z.of_nat j < nwords x)); [by apply Heq|].
      specialize (Hz (Z.of_nat j) ltac:(lia)).
      rewrite negb_false_iff, Z.eqb_eq, Nat2Z.id in Hz. rewrite Hz. apply wd_out; [done|lia].
  - left. split; [done|]. intros k. destruct (decide (Z.of_nat k < nwords x)); [by apply Heq|].
    rewrite (wd_out x) by (done || lia). symmetry.
    destruct (decide (Z.of_nat k < nwords y)); [|apply wd_out; [done|lia]].
    specialize (Hs (Z.of_nat k) ltac:(lia)). by rewrite negb_false_iff, Z.eqb_eq, Nat2Z.id in Hs.
Qed.

Lemma compare_loop x y n :
  wf x → wf y → 0 ≤ n ≤ nwords x → n ≤ nwords y →
  ∃ r, find_word (λ i, do u <- word x i; do v <- word y i;
                       if u <? v then ret true else ret (v <? u))%store 0 (turns 0 n) h = Some (r, h) ∧
    match r with
    | Some k => 0 ≤ k < n ∧ lex (if wd (words x) (Z.to_nat k) <? wd (words y) (Z.to_nat k) then -1 else 1)
                             (words x) (words y)
    | None => ∀ k, Z.of_nat k < n → wd (words x) k = wd (words y) k
    end.
Proof.
  intros (Hnx & _) (Hny & _) Hn Hn'.
  destruct (find_word_ok (λ i, do u <- word x i; do v <- word y i;
      if u <? v then ret true else ret (v <? u))%store
    (λ i, negb (wd (words x) (Z.to_nat i) =? wd (words y) (Z.to_nat i))) h 0 (turns 0 n)) as (r & E & Hr).
  { intros k Hk. rewrite turns_nat in Hk by lia. rewrite !bind_word by lia.
    destruct (Z.ltb_spec (wd (words x) (Z.to_nat k)) (wd (words y) (Z.to_nat k))),
      (Z.eqb_spec (wd (words x) (Z.to_nat k)) (wd (words y) (Z.to_nat k))); try lia; [done|..];
      unfold ret; do 2 f_equal; [apply Z.ltb_ge|apply Z.ltb_lt]; lia. }
  exists r. split; [done|]. destruct r as [k|]; cbn in Hr; rewrite turns_nat in Hr by lia.
  - destruct Hr as (Hk & Hne & Hlow). apply negb_true_iff, Z.eqb_neq in Hne. split; [lia|].
    right. exists (Z.to_nat k). split.
    + destruct (Z.ltb_spec (wd (words x) (Z.to_nat k)) (wd (words y) (Z.to_nat k))); lia.
    + intros j Hj. specialize (Hlow (Z.of_nat j) ltac:(lia)).
      by rewrite negb_false_iff, Z.eqb_eq, Nat2Z.id in Hlow.
  - intros k Hk. specialize (Hr (Z.of_nat k) ltac:(lia)).
    by rewrite negb_false_iff, Z.eqb_eq, Nat2Z.id in Hr.
Qed.

Lemma bms_compare_ok a b v w :
  repr h a v → repr h b w →
  ∃ c, bms_compare a b h = Some (c, h) ∧ lex c (words_of h a) (words_of h b).
Proof.
  intros Ha Hb. destruct (repr_words h a v Hok Ha) as [Hma Hwa].
  destruct (repr_words h b w Hok Hb) as [Hmb Hwb].
  pose proof (lex_nil _ Hwa) as La. pose proof (lex_nil _ Hwb) as Lb. rewrite Hma in La. rewrite Hmb in Lb.
  unfold bms_compare. pose proof (bms_is_empty_ok h Hok a v Ha) as Ea.
  pose proof (bms_is_empty_ok h Hok b w Hb) as Eb.
  assert (Hnull : words_of h NULL = []) by (unfold words_of; by rewrite store_ok_null).
  arg Ha x.
  { rewrite Hnull. arg Hb y. { exists 0. split; [done|]. rewrite Hnull. by left. }
    erewrite bind_run by done. apply lex_sym in Lb. eexists. split; [|done].
    by destruct (bool_decide (elems (Some _) = ∅)). }
  arg Hb y.
  { rewrite Hnull. erewrite bind_run by done. eexists. split; [|done].
    by destruct (bool_decide (elems (Some _) = ∅)). }
  clear Ea Eb La Lb Hma Hmb Hwa Hwb. unfold words_of. rewrite Ha, Hb. erewrite !bind_load by done.
  destruct (compare_loop x y (nwords x `min` nwords y)) as (r & E & Hr); [done..|lia|lia|].
  destruct (Z.leb_spec (nwords x) (nwords y)).
  - rewrite Z.min_l in E, Hr by lia. erewrite bind_run by done. destruct r as [k|].
    { destruct Hr as [Hk Hlex]. destruct Hwf_x as (Hnx & _), Hwf_y as (Hny & _).
      rewrite !bind_word by lia. eexists. split; [|done]. by case_match. }
    destruct (find_words_ok h y (λ w, negb (w =? 0)) (nwords x) (nwords y)) as (s & E' & Hs);
      [done|lia|lia|lia|].
    erewrite bind_run by done. eexists. split; [done|]. by apply lex_longer.
  - rewrite Z.min_r in E, Hr by lia. erewrite bind_run by done. destruct r as [k|].
    { destruct Hr as [Hk Hlex]. destruct Hwf_x as (Hnx & _), Hwf_y as (Hny & _).
      rewrite !bind_word by lia. eexists. split; [|done]. by case_match. }
    destruct (find_words_ok h x (λ w, negb (w =? 0)) (nwords y) (nwords x)) as (s & E' & Hs);
      [done|lia|lia|lia|].
    erewrite bind_run by done. eexists. split; [done|].
    apply (lex_longer y x) in Hs; [|done|done|lia|by intros; rewrite Hr].
    apply lex_sym in Hs. by destruct s.
Qed.

(** The loop of [bms_hash_value] on words given by a function. *)
Definition rotate (r : Z) : Z :=
  if negb (Z.land r (u32 (Z.shiftl 1 (BITS_PER_BITMAPWORD - 1))) =? 0)
  then Z.lor (u32 (Z.shiftl r 1)) 1 else u32 (Z.shiftl r 1).

Fixpoint hash_words (f : nat → Z) (n : nat) (r : Z) : Z :=
  match n with O => r | S k => hash_words f k (rotate (Z.lxor r (f n))) end.

Definition hash_of (f : nat → Z) (n : nat) : Z := u32 (Z.lxor (hash_words f (n - 1) 0) (f O)).

Lemma hash_words_zero f n m :
  (m ≤ n)%nat → (∀ k, (m < k ≤ n)%nat → f k = 0) → hash_words f n 0 = hash_words f m 0.
Proof.
  induction n as [|n IH]; intros Hm Hf; [by assert (m = 0)%nat as -> by lia|].
  destruct (decide (m = S n)) as [->|]; [done|]. cbn [hash_words]. rewrite Hf by lia.
  change (rotate (Z.lxor 0 0)) with 0. apply IH; [lia|]. intros k Hk. apply Hf. lia.
Qed.

Lemma hash_words_ext f g n r :
  (∀ k, f k = g k) → hash_words f n r = hash_words g n r.
Proof. intros E. revert r. induction n as [|n IH]; intros r; [done|]. cbn. by rewrite E, IH. Qed.

Lemma hash_loop_ok b n r :
  (n < length (words b))%nat → hash_loop b n r h = Some (hash_words (wd (words b)) n r, h).
Proof.
  revert r. induction n as [|n IH]; intros r Hn; [done|]. cbn [hash_loop].
  rewrite bind_word by lia. rewrite Nat2Z.id. rewrite IH by lia. done.
Qed.

Lemma bms_hash_value_ok a v n :
  repr h a v → (length (words_of h a) ≤ n)%nat →
  bms_hash_value a h = Some (hash_of (wd (words_of h a)) n, h).
Proof.
  intros Ha Hn. assert (Hz : ∀ m, (length (words_of h a) ≤ m + 1)%nat → (m ≤ n - 1)%nat →
    hash_words (wd (words_of h a)) (n - 1) 0 = hash_words (wd (words_of h a)) m 0).
  { intros m Hm Hmn. apply hash_words_zero; [done|]. intros k Hk. apply wd_ge. lia. }
  unfold bms_hash_value, hash_of. arg Ha b.
  { unfold words_of in *. rewrite store_ok_null in * by done. rewrite (Hz 0%nat) by (cbn; lia). done. }
  erewrite bind_load by done. unfold words_of in *. rewrite Ha in *.
  destruct Hwf_b as (Hnb & _). destruct (Z.leb_spec (nwords b) 0).
  { destruct (words b) eqn:E; cbn in Hnb; [|lia]. rewrite (Hz 0%nat) by (cbn; lia). done. }
  erewrite bind_run by (apply hash_loop_ok; lia). rewrite bind_word by lia.
  unfold ret. rewrite (Hz (Z.to_nat (nwords b - 1))) by lia. done.
Qed.
End Compare.
