(* ===== verification/BitmapsetSpec.v ===== *)
(** Bitmap sets are finite sets: programs over set variables.

    A program keeps sets in variables, each the only holder of its object, as
    the comments of backend/nodes/bitmapset.c ask for ("foo =
    bms_add_member(foo, x)").  [run] executes it over a store; [arun] computes
    with finite sets.  They agree on every program, NULL and aliased arguments
    included, no object is leaked and none is used after it was freed. *)
From stdpp Require Import prelude gmap list numbers sorting functions.
From S2P Require Import Prelude Store Bitmapset BitmapsetWords BitmapsetOps BitmapsetQuery.

#[local] Arguments s32 : simpl never.
#[local] Arguments u32 : simpl never.

Inductive build_op := Union | Intersect | Difference.
Inductive recycle_op := AddMembers | IntMembers | DelMembers.
Inductive query_op := Equal | Subset | Overlap | NonemptyDifference.

Inductive cmd :=
  | Copy (i j : nat)                    (* i = bms_copy(j) *)
  | Singleton (i : nat) (x : Z)         (* i = bms_make_singleton(x) *)
  | Build (o : build_op) (i j k : nat)  (* i = bms_union(j, k), ... *)
  | Assign (i j : nat)                  (* i = bms_assign(i, j) *)
  | Recycle (o : recycle_op) (i j : nat)(* i = bms_add_members(i, j), ... *)
  | Join (i j : nat)                    (* i = bms_join(i, j); j = NULL *)
  | AddMember (i : nat) (x : Z)
  | DelMember (i : nat) (x : Z)
  | FirstMember (i : nat)
  | Free (i : nat)                      (* bms_free(i); i = NULL *)
  | Query (o : query_op) (i j : nat)
  | IsMember (x : Z) (i : nat)
  | IsEmpty (i : nat)
  | NumMembers (i : nat)
  | MembershipOf (i : nat)
  | SingletonMember (i : nat)
  | FirstFrom (i : nat) (x : Z).

Inductive answer :=
  | Done
  | Bool (b : bool)
  | Int (z : Z)
  | Kind (m : BMS_Membership)
  | Elog.

Definition build_fun (o : build_op) : Z → Z → M Bitmapset Z :=
  match o with
  | Union => bms_union | Intersect => bms_intersect | Difference => bms_difference
  end.

Definition recycle_fun (o : recycle_op) : Z → Z → M Bitmapset Z :=
  match o with
  | AddMembers => bms_add_members | IntMembers => bms_int_members | DelMembers => bms_del_members
  end.

Definition query_fun (o : query_op) : Z → Z → M Bitmapset bool :=
  match o with
  | Equal => bms_equal | Subset => bms_is_subset
  | Overlap => bms_overlap | NonemptyDifference => bms_nonempty_difference
  end.

Definition env : Type := nat → Z.

Local Open Scope store_scope.

(** [i = p;] after the object of [i] was freed. *)
Definition overwrite (e : env) (i : nat) (p : Z) : M Bitmapset (answer * env) :=
  bms_free (e i);;; ret (Done, <[i := p]> e).

Definition on_outcome {A} (r : outcome A) (e : env) (k : A → M Bitmapset (answer * env))
    : M Bitmapset (answer * env) :=
  match r with Return a => k a | ElogError => ret (Elog, e) end.

(** Arguments of type [int] are taken modulo its width. *)
Definition step (c : cmd) (e : env) : M Bitmapset (answer * env) :=
  match c with
  | Copy i j => do p <- bms_copy (e j); overwrite e i p
  | Singleton i x => do r <- bms_make_singleton (s32 x); on_outcome r e (overwrite e i)
  | Build o i j k => do p <- build_fun o (e j) (e k); overwrite e i p
  | Assign i j => do p <- bms_assign (e i) (e j); ret (Done, <[i := p]> e)
  | Recycle o i j => do p <- recycle_fun o (e i) (e j); ret (Done, <[i := p]> e)
  | Join i j => do p <- bms_join (e i) (e j); ret (Done, <[i := p]> (<[j := NULL]> e))
  | AddMember i x =>
      do r <- bms_add_member (e i) (s32 x); on_outcome r e (λ p, ret (Done, <[i := p]> e))
  | DelMember i x =>
      do r <- bms_del_member (e i) (s32 x); on_outcome r e (λ p, ret (Done, <[i := p]> e))
  | FirstMember i => do x <- bms_first_member (e i); ret (Int x, e)
  | Free i => overwrite e i NULL
  | Query o i j => do b <- query_fun o (e i) (e j); ret (Bool b, e)
  | IsMember x i => do r <- bms_is_member (s32 x) (e i); on_outcome r e (λ b, ret (Bool b, e))
  | IsEmpty i => do b <- bms_is_empty (e i); ret (Bool b, e)
  | NumMembers i => do n <- bms_num_members (e i); ret (Int n, e)
  | MembershipOf i => do m <- bms_membership (e i); ret (Kind m, e)
  | SingletonMember i => do r <- bms_singleton_member (e i); on_outcome r e (λ x, ret (Int x, e))
  | FirstFrom i x => do y <- bms_first_from (e i) (s32 x); ret (Int y, e)
  end.

Fixpoint run (cs : list cmd) (e : env) : M Bitmapset (list answer * env) :=
  match cs with
  | [] => ret ([], e)
  | c :: cs =>
      do (a, e) <- step c e;
      do (l, e) <- run cs e;
      ret (a :: l, e)
  end.

(** ** The same programs on finite sets

    A variable is [None] when it is NULL; the two kinds of empty set differ
    only in what they can be assigned to. *)

Definition aenv : Type := nat → aset.

Definition build_spec (o : build_op) : aset → aset → aset :=
  match o with
  | Union => a_union | Intersect => a_intersect | Difference => a_difference
  end.

Definition recycle_spec (o : recycle_op) : aset → aset → aset :=
  match o with
  | AddMembers => a_union | IntMembers => a_intersect | DelMembers => a_difference
  end.

Definition query_spec (o : query_op) (X Y : gset Z) : bool :=
  match o with
  | Equal => bool_decide (X = Y)
  | Subset => bool_decide (X ⊆ Y)
  | Overlap => bool_decide (X ∩ Y ≠ ∅)
  | NonemptyDifference => bool_decide (X ∖ Y ≠ ∅)
  end.

Definition checked (x : Z) (e : aenv) (k : answer * aenv) : answer * aenv :=
  if s32 x <? 0 then (Elog, e) else k.

Definition answer_of (r : outcome Z) : answer :=
  match r with Return x => Int x | ElogError => Elog end.

Definition astep (c : cmd) (e : aenv) : option (answer * aenv) :=
  match c with
  | Copy i j => Some (Done, <[i := e j]> e)
  | Singleton i x => Some (checked x e (Done, <[i := Some {[ s32 x ]}]> e))
  | Build o i j k => Some (Done, <[i := build_spec o (e j) (e k)]> e)
  | Assign i j =>
      match e i, e j with
      | Some _, None => None
      | _, v => Some (Done, <[i := v]> e)
      end
  | Recycle o i j => Some (Done, <[i := recycle_spec o (e i) (e j)]> e)
  | Join i j => Some (Done, <[i := a_union (e i) (e j)]> (<[j := None]> e))
  | AddMember i x => Some (checked x e (Done, <[i := a_add (e i) (s32 x)]> e))
  | DelMember i x =>
      Some (checked x e (Done, <[i := a_difference (e i) (Some {[ s32 x ]})]> e))
  | FirstMember i =>
      Some (Int (first_or (ascending (elems (e i)))), <[i := a_pop (e i)]> e)
  | Free i => Some (Done, <[i := None]> e)
  | Query o i j => Some (Bool (query_spec o (elems (e i)) (elems (e j))), e)
  | IsMember x i => Some (checked x e (Bool (bool_decide (s32 x ∈ elems (e i))), e))
  | IsEmpty i => Some (Bool (bool_decide (elems (e i) = ∅)), e)
  | NumMembers i => Some (Int (s32 (Z.of_nat (size (elems (e i))))), e)
  | MembershipOf i => Some (Kind (membership_of (ascending (elems (e i)))), e)
  | SingletonMember i => Some (answer_of (one_member (ascending (elems (e i)))), e)
  | FirstFrom i x => Some (Int (first_from_of (ascending (elems (e i))) (s32 x)), e)
  end.

Fixpoint arun (cs : list cmd) (e : aenv) : option (list answer * aenv) :=
  match cs with
  | [] => Some ([], e)
  | c :: cs =>
      '(a, e) ← astep c e;
      '(l, e) ← arun cs e;
      Some (a :: l, e)
  end.

(** ** Variables that own their objects *)

Definition owns (h : Store Bitmapset) (e : env) (v : aenv) : Prop :=
  store_ok h ∧
  (∀ i, repr h (e i) (v i)) ∧
  (∀ i j, e i = e j → e i ≠ NULL → i = j) ∧
  (∀ p, is_Some (cells h !! p) → ∃ i, e i = p).

(** The object of a variable that was not given away is where it was, and is
    not the result. *)
Lemma owns_other h e v I h' p w k :
  owns h e v → effect h (e <$> I) h' p w → k ∉ I → e k ≠ NULL →
  e k ∉ e <$> I ∧ e k ≠ p ∧ cells h' !! e k = cells h !! e k.
Proof.
  intros (Hok & Hr & Hu & _) (_ & _ & Hp & Hout & _) Hk Hne.
  assert (Hni : e k ∉ e <$> I).
  { intros (j & E & Hj)%list_elem_of_fmap. by rewrite (Hu k j) in Hk. }
  assert (Hkp : e k ≠ p).
  { intros <-. destruct Hp as [?|[?|Hp]]; [done..|]. specialize (Hr k).
    destruct (v k) as [X|]; cbn in Hr; [|done]. destruct Hr as (b & Hb & _). congruence. }
  auto.
Qed.

Lemma owns_effect I i h e v h' p w e' v' :
  owns h e v → effect h (e <$> I) h' p w → i ∈ I →
  (∀ k, e' k = if decide (k = i) then p else if decide (k ∈ I) then NULL else e k) →
  (∀ k, v' k = if decide (k = i) then w else if decide (k ∈ I) then None else v k) →
  owns h' e' v'.
Proof.
  intros Ho He Hi He' Hv'. pose proof (λ k, owns_other h e v I h' p w k Ho He) as Hother.
  destruct Ho as (Hok & Hr & Hu & Hc), He as (Hok' & Hp & Hfrom & Hout & Hin).
  split_and!; [done|..].
  - intros k. rewrite He', Hv'. do 2 (case_decide; [done|]). specialize (Hr k).
    destruct (v k) as [X|] eqn:Ev; cbn in *; [|done]. destruct Hr as (b & Hb & Hr).
    exists b. split; [|done]. rewrite <- Hb. apply Hother; [done|].
    intros E. rewrite E in Hb. by rewrite store_ok_null in Hb.
  - intros j k. rewrite !He'.
    destruct (decide (j = i)) as [->|], (decide (k = i)) as [->|]; [done|..].
    + destruct (decide (k ∈ I)); [by intros ->|]. intros -> Hne. by destruct (Hother k) as (_ & []& _).
    + destruct (decide (j ∈ I)); [done|]. intros E Hne. by destruct (Hother j) as (_ & [] & _).
    + destruct (decide (j ∈ I)), (decide (k ∈ I)); try done; apply Hu.
  - intros q Hq. destruct (decide (q = p)) as [->|Hqp].
    { exists i. by rewrite He', decide_True. }
    assert (Hqg : q ∉ e <$> I). { intros Hg. rewrite Hin in Hq by done. by destruct Hq. }
    rewrite Hout in Hq by done. destruct (Hc q Hq) as (j & <-). exists j. rewrite He'.
    assert (j ∉ I) by (intros Hj; apply Hqg; by apply list_elem_of_fmap_2).
    by rewrite !decide_False by (done || by intros ->).
Qed.

Lemma owns_effect1 i h e v h' p w :
  owns h e v → effect h [e i] h' p w → owns h' (<[i := p]> e) (<[i := w]> v).
Proof.
  intros Ho He. eapply (owns_effect [i] i); [done..|set_solver| |]; intros k;
    unfold insert, fn_insert; repeat case_decide; set_solver.
Qed.

Lemma owns_effect2 i j h e v h' p w :
  owns h e v → effect h [e i; e j] h' p w →
  owns h' (<[i := p]> (<[j := NULL]> e)) (<[i := w]> (<[j := None]> v)).
Proof.
  intros Ho He. eapply (owns_effect [i; j] i); [done..|set_solver| |]; intros k;
    unfold insert, fn_insert; repeat case_decide; set_solver.
Qed.

(** A new set, and then the object it replaces freed. *)
Lemma effect_then_free h h1 h2 q p w :
  (q ≠ NULL → is_Some (cells h !! q)) → effect h [] h1 p w → effect h1 [q] h2 NULL None →
  effect h [q] h2 p w.
Proof.
  intros Hq (Hok1 & Hp & Hfrom & Hout & _) (Hok2 & _ & _ & Hout2 & Hin2).
  assert (Hpq : p = NULL ∨ p ≠ q).
  { destruct (decide (p = q)) as [->|]; [|by right]. left. destruct (decide (q = NULL)) as [|Hn]; [done|].
    destruct Hfrom as [|[Hf|Hf]]; [done|set_solver|]. specialize (Hq Hn). rewrite Hf in Hq. by destruct Hq. }
  assert (Hnull : cells h2 !! NULL = None) by (by apply store_ok_null).
  split_and!; [done|..].
  - destruct w as [X|]; cbn in *; [|done]. destruct Hp as (b & Hb & Hp). exists b. split; [|done].
    assert (p ≠ NULL) by (intros ->; by rewrite store_ok_null in Hb).
    rewrite Hout2; [done|set_solver|done].
  - set_solver.
  - intros r Hr Hrp. destruct (decide (r = NULL)) as [->|].
    + rewrite Hnull. rewrite <- (Hout NULL) by set_solver. by rewrite store_ok_null.
    + rewrite Hout2 by done. apply Hout; set_solver.
  - intros r Hr Hrp. destruct (decide (r = NULL)) as [->|]; [done|]. by apply Hin2.
Qed.

Lemma overwrite_ok h e v i h1 p w :
  owns h e v → effect h [] h1 p w →
  ∃ h2, overwrite e i p h1 = Some ((Done, <[i := p]> e), h2) ∧
    owns h2 (<[i := p]> e) (<[i := w]> v).
Proof.
  intros Ho He. pose proof Ho as (Hok & Hr & _). specialize (Hr i).
  assert (Hq : e i ≠ NULL → is_Some (cells h !! e i)).
  { intros Hne. destruct (v i); cbn in Hr; [|done]. destruct Hr as (b & Hb & _). by rewrite Hb. }
  assert (Hr1 : repr h1 (e i) (v i)).
  { destruct (v i) as [X|]; cbn in *; [|done]. destruct Hr as (b & Hb & Hrest). exists b.
    split; [|done]. destruct He as (_ & _ & Hfrom & Hout & _). rewrite Hout; [done|set_solver|].
    intros <-. destruct Hfrom as [E|[Hf|Hf]]; [|set_solver|congruence].
    rewrite E in Hb. by rewrite store_ok_null in Hb. }
  destruct (bms_free_ok h1 (proj1 He) (e i) (v i) Hr1) as (h2 & Ef & Hf).
  exists h2. split; [unfold overwrite; by erewrite bind_run by done|].
  eapply owns_effect1; [done|]. by eapply effect_then_free.
Qed.

(** ** Every step agrees *)

Lemma checked_lt x e k : s32 x <? 0 = true → checked x e k = (Elog, e).
Proof. unfold checked. by intros ->. Qed.

Lemma s32_range z : - 2 ^ 31 ≤ s32 z < 2 ^ 31.
Proof. unfold s32. pose proof (Z.mod_pos_bound (z + 2 ^ 31) (2 ^ 32)). lia. Qed.

Definition agrees (o : option (answer * aenv)) (m : option ((answer * env) * Store Bitmapset)) : Prop :=
  match o with
  | Some (a, v) => ∃ e h, m = Some ((a, e), h) ∧ owns h e v
  | None => m = None
  end.

(** The guard [x < 0] of the functions that take a member. *)
Ltac negative :=
  match goal with H : ?x < 0 |- _ => rewrite (proj2 (Z.ltb_lt _ _) H) end.

Section Step.
Context (h : Store Bitmapset) (e : env) (v : aenv) (Ho : owns h e v).

Let Hok : store_ok h := proj1 Ho.
Let Hr i : repr h (e i) (v i) := proj1 (proj2 Ho) i.

Lemma owns_same i : owns h e (<[i := v i]> v) ↔ owns h e v.
Proof.
  assert (E : ∀ j, (<[i := v i]> v) j = v j).
  { intros j. unfold insert, fn_insert. by case_decide; subst. }
  unfold owns. by setoid_rewrite E.
Qed.

Lemma step_new i (m : M Bitmapset Z) w :
  (∃ p h', m h = Some (p, h') ∧ effect h [] h' p w) →
  agrees (Some (Done, <[i := w]> v)) (bind m (overwrite e i) h).
Proof.
  intros (p & h1 & E & He). destruct (overwrite_ok h e v i h1 p w Ho He) as (h2 & E2 & Ho2).
  do 2 eexists. erewrite bind_run by done. done.
Qed.

Lemma step_recycle i (m : M Bitmapset Z) w :
  (∃ p h', m h = Some (p, h') ∧ effect h [e i] h' p w) →
  agrees (Some (Done, <[i := w]> v)) (bind m (λ p, ret (Done, <[i := p]> e)) h).
Proof.
  intros (p & h1 & E & He). do 2 eexists. erewrite bind_run by done. split; [done|].
  by apply (owns_effect1 i h).
Qed.

Lemma step_recycle_int i x (m : M Bitmapset (outcome Z)) w :
  (s32 x < 0 → m h = Some (ElogError, h)) →
  (0 ≤ s32 x < 2 ^ 31 → ∃ p h', m h = Some (Return p, h') ∧ effect h [e i] h' p w) →
  agrees (Some (checked x v (Done, <[i := w]> v)))
    (bind m (λ r, on_outcome r e (λ p, ret (Done, <[i := p]> e))) h).
Proof.
  intros Hneg Hpos. unfold checked. destruct (Z.ltb_spec (s32 x) 0) as [Hlt|Hge].
  - do 2 eexists. erewrite bind_run by auto. done.
  - pose proof (s32_range x). destruct Hpos as (p & h1 & E & He); [lia|].
    do 2 eexists. erewrite bind_run by done. split; [done|]. by apply (owns_effect1 i h).
Qed.

Lemma step_query {A} (m : M Bitmapset A) (a : A) (k : A → answer) :
  m h = Some (a, h) → agrees (Some (k a, v)) (bind m (λ a, ret (k a, e)) h).
Proof. intros E. do 2 eexists. erewrite bind_run by done. done. Qed.

Lemma bms_assign_null a b X :
  repr h a (Some X) → repr h b None → bms_assign a b h = None.
Proof.
  intros Ha Hb. cbn in Hb. subst. unfold bms_assign. pose proof (repr_nonnull h Hok _ _ Ha) as Hne.
  rewrite (proj2 (Z.eqb_neq _ _) Hne). destruct Ha as (x & Ha & _). erewrite bind_load by done.
  unfold bind, load. by rewrite store_ok_null.
Qed.

Lemma step_ok c : agrees (astep c v) (step c e h).
Proof.
  destruct c as [i j|i x|o i j k|i j|o i j|i j|i x|i x|i|i|o i j|x i|i|i|i|i|i x]; cbn [astep step].
  - by apply step_new, bms_copy_ok.
  - unfold checked. destruct (Z.ltb_spec (s32 x) 0) as [Hlt|Hge].
    + do 2 eexists. unfold bms_make_singleton. by negative.
    + destruct (bms_make_singleton_ok h (s32 x)) as (b & E & Hb & Hm & _); [pose proof (s32_range x); lia|].
      erewrite bind_run by done. cbn [on_outcome].
      destruct (overwrite_ok h e v i (mkStore (<[brk h := b]> (cells h)) (brk h + 1)) (brk h)
        (Some {[ s32 x ]}) Ho) as (h2 & E2 & Ho2); [by apply effect_new|]. by do 2 eexists.
  - apply step_new. destruct o; [by apply bms_union_ok|by apply bms_intersect_ok|by apply bms_difference_ok].
  - pose proof (Hr i) as Hi. pose proof (Hr j) as Hj.
    destruct (v i) as [X|], (v j) as [Y|].
    + apply step_recycle. by eapply bms_assign_ok.
    + cbn [agrees]. unfold bind. by rewrite (bms_assign_null _ _ X).
    + apply step_recycle. by eapply bms_assign_ok.
    + apply step_recycle. unfold bms_assign. rewrite (Hi : e i = NULL). cbn. by apply copy_given_null.
  - apply step_recycle. destruct o;
      [by apply bms_add_members_ok|by apply bms_int_members_ok|by apply bms_del_members_ok].
  - destruct (bms_join_ok h Hok (e i) (e j) (v i) (v j)) as (p & h1 & E & He); [done..|].
    do 2 eexists. erewrite bind_run by done. split; [done|]. by apply (owns_effect2 i j h).
  - apply step_recycle_int; [intros Hlt; unfold bms_add_member; by negative|].
    intros Hx. by apply bms_add_member_ok.
  - apply step_recycle_int; [intros Hlt; unfold bms_del_member; by negative|].
    intros Hx. by apply bms_del_member_ok.
  - destruct (bms_first_member_ok h Hok (e i) (v i)) as (h1 & E & He); [done|].
    do 2 eexists. erewrite bind_run by done. split; [done|].
    eapply owns_effect1 in He; [|done]. revert He. unfold owns.
    assert (Ee : ∀ j, (<[i := e i]> e) j = e j)
      by (intros j; unfold insert, fn_insert; by case_decide; subst).
    by setoid_rewrite Ee.
  - destruct (overwrite_ok h e v i h NULL None Ho) as (h2 & E2 & Ho2); [by apply effect_null|].
    by do 2 eexists.
  - destruct o; apply step_query;
      [by apply bms_equal_ok|by apply bms_is_subset_ok|by apply bms_overlap_ok
      |by apply bms_nonempty_difference_ok].
  - unfold checked. destruct (Z.ltb_spec (s32 x) 0) as [Hlt|Hge]; do 2 eexists.
    + unfold bms_is_member. by negative.
    + erewrite bind_run by (apply bms_is_member_ok; [done|done|pose proof (s32_range x); lia]). done.
  - by apply (step_query _ _ Bool), bms_is_empty_ok.
  - by apply (step_query _ _ Int), bms_num_members_ok.
  - by apply (step_query _ _ Kind), bms_membership_ok.
  - do 2 eexists. erewrite bind_run by (by apply bms_singleton_member_ok).
    by destruct (one_member _).
  - apply (step_query _ _ Int), bms_first_from_ok; [done|done|apply s32_range].
Qed.
End Step.

Lemma run_ok cs : ∀ h e v, owns h e v →
  match arun cs v with
  | Some (l, v') => ∃ e' h', run cs e h = Some ((l, e'), h') ∧ owns h' e' v'
  | None => run cs e h = None
  end.
Proof.
  induction cs as [|c cs IH]; intros h e v Ho; [by do 2 eexists|].
  cbn [arun run]. pose proof (step_ok h e v Ho c) as Hs.
  destruct (astep c v) as [[a v1]|]; cbn [agrees] in Hs.
  2: { cbn. unfold bind. by rewrite Hs. }
  destruct Hs as (e1 & h1 & E & Ho1). erewrite bind_run by done. cbn [mbind option_bind].
  specialize (IH h1 e1 v1 Ho1). destruct (arun cs v1) as [[l v2]|]; cbn.
  - destruct IH as (e2 & h2 & E2 & Ho2). exists e2, h2. by erewrite bind_run by done.
  - unfold bind. by rewrite IH.
Qed.

(** C7. Bitmap sets are finite sets of integers: every program over set
    variables (copies, singletons, unions, intersections, differences, the
    functions that recycle an argument, aliased arguments, NULL, removals,
    searches and counts) gives the answers that finite sets give, errors for
    negative members included; the only program that faults is one that
    assigns NULL to a variable that is not; every object is held by exactly
    one variable at the end, so none was leaked or freed twice. *)
Theorem bms_refines_sets cs :
  match arun cs (λ _, None) with
  | Some (l, v) => ∃ e h, run cs (λ _, NULL) (mkStore ∅ 1) = Some ((l, e), h) ∧ owns h e v
  | None => run cs (λ _, NULL) (mkStore ∅ 1) = None
  end.
Proof.
  apply run_ok. split_and!.
  - split; [done|]. intros p n Hp. cbn in Hp. by rewrite lookup_empty in Hp.
  - done.
  - done.
  - intros p [b Hp]. cbn in Hp. by rewrite lookup_empty in Hp.
Qed.

(** C21. Both ways to visit the members of a set see each member once, in
    increasing order: [bms_foreach], which leaves the set as it is, and the
    loop on [bms_first_member], which empties it.  As many turns as there are
    members are enough. *)
Theorem bms_iteration h a v n :
  store_ok h → repr h a v → (size (elems v) ≤ n)%nat →
  bms_foreach n a h = Some (Some (ascending (elems v)), h) ∧
  ∃ h', drain_loop n a [] h = Some (Some (ascending (elems v)), h') ∧
    effect h [a] h' a (match v with Some _ => Some ∅ | None => None end).
Proof.
  intros Hok Ha Hn. split; [by apply bms_foreach_ok|].
  by apply (drain_loop_ok n h a v []).
Qed.

Definition store2 : Store Bitmapset :=
  mkStore (<[1 := mkBitmapset 2 [5; 2147483648]]> (<[2 := mkBitmapset 1 [4]]> ∅)) 3.

Lemma store2_ok : store_ok store2.
Proof.
  split; [done|]. intros p n Hp. cbn in Hp. cbn.
  apply lookup_insert_Some in Hp as [[<- _]|[_ Hp]]; [lia|].
  apply lookup_insert_Some in Hp as [[<- _]|[_ Hp]]; [lia|]. by rewrite lookup_empty in Hp.
Qed.

Lemma store2_repr1 : repr store2 1 (Some {[ 0; 2; 63 ]}).
Proof.
  exists (mkBitmapset 2 [5; 2147483648]). split; [done|]. split.
  - split; [done|]. split; [by vm_compute|]. by repeat constructor.
  - apply (bool_decide_unpack _). by vm_compute.
Qed.

Lemma store2_repr2 : repr store2 2 (Some {[ 2 ]}).
Proof.
  exists (mkBitmapset 1 [4]). split; [done|]. split.
  - split; [done|]. split; [by vm_compute|]. by repeat constructor.
  - apply (bool_decide_unpack _). by vm_compute.
Qed.

Lemma bms_iteration_witness :
  bms_foreach 3 1 store2 = Some (Some [0; 2; 63], store2) ∧
  ∃ h', drain_loop 3 1 [] store2 = Some (Some [0; 2; 63], h').
Proof.
  destruct (bms_iteration store2 1 (Some {[ 0; 2; 63 ]}) 3 store2_ok store2_repr1)
    as (E & h' & E' & _); [by vm_compute; lia|].
  assert (ascending (elems (Some {[ 0; 2; 63 ]})) = [0; 2; 63]) as Ea by (by vm_compute).
  rewrite Ea in E, E'. split; [done|]. by exists h'.
Defined.

(** C25. [bms_compare] is a total order on sets that calls two sets equal
    exactly when they have the same members, whatever the lengths of their
    objects, and [bms_hash_value] gives sets that are equal the same value:
    what sorting and hashing by sets rely on. *)
Theorem bms_compare_hash h a b c u v w :
  store_ok h → repr h a u → repr h b v → repr h c w →
  ∃ ab ba bc ac ha hb,
    bms_compare a b h = Some (ab, h) ∧ bms_compare b a h = Some (ba, h) ∧
    bms_compare b c h = Some (bc, h) ∧ bms_compare a c h = Some (ac, h) ∧
    bms_hash_value a h = Some (ha, h) ∧ bms_hash_value b h = Some (hb, h) ∧
    (ab = 0 ↔ elems u = elems v) ∧ ba = - ab ∧ (ab ≤ 0 → bc ≤ 0 → ac ≤ 0) ∧
    (elems u = elems v → ha = hb).
Proof.
  intros Hok Ha Hb Hc.
  destruct (bms_compare_ok h Hok a b u v) as (ab & Eab & Lab); [done..|].
  destruct (bms_compare_ok h Hok b a v u) as (ba & Eba & Lba); [done..|].
  destruct (bms_compare_ok h Hok b c v w) as (bc & Ebc & Lbc); [done..|].
  destruct (bms_compare_ok h Hok a c u w) as (ac & Eac & Lac); [done..|].
  destruct (repr_words h a u Hok Ha) as [Hma Hwa], (repr_words h b v Hok Hb) as [Hmb Hwb].
  set (n := (length (words_of h a) + length (words_of h b))%nat).
  exists ab, ba, bc, ac, (hash_of (wd (words_of h a)) n), (hash_of (wd (words_of h b)) n).
  split_and!; try done.
  - apply (bms_hash_value_ok h Hok a u); [done|lia].
  - apply (bms_hash_value_ok h Hok b v); [done|lia].
  - rewrite <- Hma, <- Hmb. by apply lex_zero.
  - eapply lex_fun; [done|]. by apply lex_sym.
  - intros H1 H2. pose proof (lex_trans _ _ _ _ _ Lab Lbc H1 H2) as L.
    rewrite (lex_fun _ _ _ _ Lac L). lia.
  - rewrite <- Hma, <- Hmb, members_eq by done. intros E. unfold hash_of.
    by rewrite (hash_words_ext _ _ _ _ E), E.
Qed.

Lemma bms_compare_hash_witness :
  ∃ ab, bms_compare 1 2 store2 = Some (ab, store2) ∧ ab = 1.
Proof.
  destruct (bms_compare_hash store2 1 2 NULL (Some {[ 0; 2; 63 ]}) (Some {[ 2 ]}) None
    store2_ok store2_repr1 store2_repr2 eq_refl) as (ab & ba & bc & ac & ha & hb & E & _).
  exists ab. split; [done|]. vm_compute in E. by simplify_eq.
Defined.
