(* ===== verification/Varlena.v ===== *)
(** Variable-length values: the header macros of include/postgres.h.

    A value is given by the bytes from its address on, of which the header
    says how many belong to it.  The first byte tells the four kinds of value
    apart; 4-byte headers are big endian.  Also here: what a fault and an
    error make of a computation ([res]), used by the files on tuples. *)
From stdpp Require Import prelude numbers list.
From S2P Require Import Prelude.

(** ** Faults and errors

    [None]: an access outside a buffer or to something that is not a pointer;
    [Some ElogError]: [elog(ERROR)]. *)

Definition res (A : Type) : Type := option (outcome A).

Definition ok {A} (a : A) : res A := Some (Return a).
Definition elog {A} : res A := Some ElogError.

Definition res_bind {A B} (m : res A) (f : A → res B) : res B :=
  match m with
  | Some (Return a) => f a
  | Some ElogError => Some ElogError
  | None => None
  end.

Notation "'let+' x ':=' m 'in' k" := (res_bind m (fun x => k))
  (at level 200, x pattern, m at level 100, k at level 200) : hawq_scope.

Open Scope hawq_scope.

(** A partial operation that raises no error. *)
Definition lift_opt {A} (o : option A) : res A := Return <$> o.

Lemma res_bind_ok {A B} (m : res A) (f : A → res B) a : m = ok a → res_bind m f = f a.
Proof. by intros ->. Qed.

(** ** Headers *)

Definition rd_be32 (off : Z) (b : list Z) : Z := little_endian_to_Z 8 (reverse (slice off 4 b)).
Definition wr_be32 (off v : Z) (b : list Z) : list Z :=
  memcpy b off (reverse (Z_to_little_endian 4 8 v)).

Definition VARHDRSZ : Z := 4.
Definition VARHDRSZ_SHORT : Z := 1.
Definition VARHDRSZ_EXTERNAL : Z := 4.
Definition VARATT_SHORT_MAX : Z := 0x7F.

(** [((varattrib_1b * ) p)->va_header] *)
Definition va_header (b : list Z) : Z := default 0 (b !! 0%nat).

Definition VARATT_IS_4B (b : list Z) : bool := Z.land (va_header b) 0x80 =? 0x00.
Definition VARATT_IS_4B_U (b : list Z) : bool := Z.land (va_header b) 0xC0 =? 0x00.
Definition VARATT_IS_4B_C (b : list Z) : bool := Z.land (va_header b) 0xC0 =? 0x40.
Definition VARATT_IS_1B (b : list Z) : bool := Z.land (va_header b) 0x80 =? 0x80.
Definition VARATT_IS_1B_E (b : list Z) : bool := va_header b =? 0x80.

Definition VARATT_IS_COMPRESSED := VARATT_IS_4B_C.
Definition VARATT_IS_EXTERNAL := VARATT_IS_1B_E.
Definition VARATT_IS_SHORT := VARATT_IS_1B.
Definition VARATT_IS_EXTENDED (b : list Z) : bool := negb (VARATT_IS_4B_U b).

Definition VARSIZE (b : list Z) : Z := Z.land (rd_be32 0 b) 0x3FFFFFFF.
Definition VARSIZE_SHORT (b : list Z) : Z := Z.land (va_header b) 0x7F.

(** [struct varatt_external]: two sizes and two object identifiers. *)
Definition sizeof_varatt_external : Z := 16.
Definition VARSIZE_EXTERNAL (b : list Z) : Z := VARHDRSZ_EXTERNAL + sizeof_varatt_external.

Definition SET_VARSIZE (b : list Z) (len : Z) : list Z := wr_be32 0 (Z.land len 0x3FFFFFFF) b.
Definition SET_VARSIZE_COMPRESSED (b : list Z) (len : Z) : list Z :=
  wr_be32 0 (Z.lor (Z.land len 0x3FFFFFFF) 0x40000000) b.
Definition VARATT_SET_COMPRESSED (b : list Z) : list Z := <[0%nat := Z.lor (va_header b) 0x40]> b.

Definition VARDATA (b : list Z) : list Z := drop (Z.to_nat VARHDRSZ) b.
Definition VARDATA_SHORT (b : list Z) : list Z := drop (Z.to_nat VARHDRSZ_SHORT) b.

Definition VARATT_COULD_SHORT (b : list Z) : bool :=
  VARATT_IS_4B_U b && (VARSIZE b - VARHDRSZ + VARHDRSZ_SHORT <=? VARATT_SHORT_MAX).
Definition VARSIZE_TO_SHORT (b : list Z) : Z :=
  Z.lor (u8 (VARSIZE b - VARHDRSZ + VARHDRSZ_SHORT)) 0x80.

Definition VARSIZE_ANY (b : list Z) : Z :=
  if VARATT_IS_1B_E b then VARSIZE_EXTERNAL b
  else if VARATT_IS_1B b then VARSIZE_SHORT b else VARSIZE b.

Definition VARSIZE_ANY_EXHDR (b : list Z) : Z :=
  if VARATT_IS_1B_E b then VARSIZE_EXTERNAL b - VARHDRSZ_EXTERNAL
  else if VARATT_IS_1B b then VARSIZE_SHORT b - VARHDRSZ_SHORT else VARSIZE b - VARHDRSZ.

Definition VARDATA_ANY (b : list Z) : list Z :=
  if VARATT_IS_1B b then VARDATA_SHORT b else VARDATA b.

(** ** Types (include/catalog/pg_type.h, pg_magic_oid.h; include/access/tupmacs.h) *)

Definition INT2VECTOROID : Z := 22.
Definition OIDVECTOROID : Z := 30.
Definition FirstNormalObjectId : Z := 16384.

Definition value_type_could_short (b : list Z) (typid : Z) : bool :=
  negb (VARATT_IS_EXTERNAL b) &&
  (VARATT_IS_SHORT b ||
   (VARATT_COULD_SHORT b && negb (typid =? INT2VECTOROID) && negb (typid =? OIDVECTOROID) &&
    (typid <? FirstNormalObjectId))).

(** ** Well-formed values *)

(** The bytes after the address include the value that the header announces. *)
Definition varlena_ok (b : list Z) : Prop :=
  is_byte (va_header b) ∧ b ≠ [] ∧ VARSIZE_ANY b ≤ blen b ∧
  (VARATT_IS_4B b = true → 4 ≤ blen b ∧ VARHDRSZ ≤ VARSIZE b).

#[export] Instance varlena_ok_dec b : Decision (varlena_ok b).
Proof. unfold varlena_ok, is_byte. apply _. Defined.

(** The value itself: the data of an uncompressed value. *)
Definition payload (b : list Z) : list Z :=
  take (Z.to_nat (VARSIZE_ANY_EXHDR b)) (VARDATA_ANY b).

(** [palloc], [SET_VARSIZE] and [memcpy] of the data, in one. *)
Definition varlena (data : list Z) : list Z :=
  reverse (Z_to_little_endian 4 8 (blen data + VARHDRSZ)) ++ data.

(** ** Lemmas *)

(** A property of all bytes, by evaluation. *)
Lemma byte_forall (P : Z → Prop) `{∀ z, Decision (P z)} :
  forallb (λ z, bool_decide (P z)) (seqZ 0 256) = true → ∀ z, is_byte z → P z.
Proof.
  intros Hall z Hz. rewrite forallb_forall in Hall. apply (bool_decide_unpack _), Is_true_true, Hall.
  apply list_elem_of_In, elem_of_seqZ. unfold is_byte in Hz. lia.
Qed.

Lemma header_cases b :
  is_byte (va_header b) →
  VARATT_IS_4B_U b = bool_decide (va_header b < 64) ∧
  VARATT_IS_4B_C b = bool_decide (64 ≤ va_header b < 128) ∧
  VARATT_IS_4B b = bool_decide (va_header b < 128) ∧
  VARATT_IS_1B b = bool_decide (128 ≤ va_header b) ∧
  VARSIZE_SHORT b = va_header b `mod` 128.
Proof.
  unfold VARATT_IS_4B_U, VARATT_IS_4B_C, VARATT_IS_4B, VARATT_IS_1B, VARSIZE_SHORT.
  generalize (va_header b). eapply byte_forall. by vm_compute.
Qed.

Lemma va_header_byte b : Forall is_byte b → is_byte (va_header b).
Proof.
  intros Hb. unfold va_header. destruct b as [|h b]; cbn; [done|]. by inversion Hb.
Qed.

Lemma va_header_app b c : b ≠ [] → va_header (b ++ c) = va_header b.
Proof. by destruct b. Qed.

Lemma rd_be32_4 b0 b1 b2 b3 r :
  Forall is_byte [b0; b1; b2; b3] →
  rd_be32 0 (b0 :: b1 :: b2 :: b3 :: r) = b3 + 2 ^ 8 * b2 + 2 ^ 16 * b1 + 2 ^ 24 * b0.
Proof.
  intros Hb.
  assert (E : rd_be32 0 (b0 :: b1 :: b2 :: b3 :: r) = little_endian_to_Z 8 [b3; b2; b1; b0]) by done.
  rewrite E. cbn [little_endian_to_Z]. rewrite Z.shiftl_0_l, Z.lor_0_r.
  rewrite !Forall_cons in Hb. unfold is_byte in Hb.
  destruct Hb as (H0 & H1 & H2 & H3 & _).
  rewrite (lor_shiftl_add b1 b0 8) by lia. rewrite (lor_shiftl_add b2 _ 8) by lia.
  rewrite (lor_shiftl_add b3 _ 8), !Z.shiftl_mul_pow2 by lia. lia.
Qed.

(** The first byte of a 4-byte header is the top of the length word. *)
Lemma va_header_be32 b :
  Forall is_byte (take 4 b) → 4 ≤ blen b →
  0 ≤ rd_be32 0 b < 2 ^ 32 ∧ va_header b = rd_be32 0 b `div` 2 ^ 24.
Proof.
  intros Hb Hl. destruct b as [|b0 [|b1 [|b2 [|b3 r]]]]; try (unfold blen in Hl; cbn [length] in Hl; lia).
  assert (H4 : Forall is_byte [b0; b1; b2; b3]) by exact Hb.
  rewrite rd_be32_4 by done. change (va_header _) with b0.
  rewrite !Forall_cons in H4. unfold is_byte in H4. divlia.
Qed.

Lemma VARSIZE_mod b : VARSIZE b = rd_be32 0 b `mod` 2 ^ 30.
Proof. unfold VARSIZE. change 0x3FFFFFFF with (Z.ones 30). by rewrite Z.land_ones. Qed.

Lemma VARSIZE_range b : 0 ≤ VARSIZE b < 2 ^ 30.
Proof. unfold VARSIZE. change 0x3FFFFFFF with (Z.ones 30). rewrite Z.land_ones by lia. divlia. Qed.

Lemma rd_wr_be32 off v b :
  0 ≤ off → off + 4 ≤ blen b → rd_be32 off (wr_be32 off v b) = u32 v.
Proof.
  intros Ho Hb. unfold rd_be32, wr_be32.
  rewrite slice_memcpy_same, reverse_involutive, little_endian_to_Z_to_little_endian;
    [done|lia|lia|lia|rewrite length_reverse, length_le_bytes; lia|done].
Qed.

Lemma varsize_compressed b len :
  4 ≤ blen b → 0 ≤ len < 2 ^ 30 → VARSIZE (SET_VARSIZE_COMPRESSED b len) = len.
Proof.
  intros Hb Hl. unfold VARSIZE, SET_VARSIZE_COMPRESSED. rewrite rd_wr_be32 by lia.
  change 0x3FFFFFFF with (Z.ones 30). change 0x40000000 with (2 ^ 30).
  apply Z.bits_inj'. intros i Hi. rewrite Z.land_spec, u32_spec, Z.lor_spec, Z.land_spec by lia.
  destruct (decide (i < 30)).
  - rewrite !Z.ones_spec_low, Z.pow2_bits_false by lia. decide_bools. done.
  - rewrite !Z.ones_spec_high, andb_false_r by lia. by rewrite (range_testbit len 30) by lia.
Qed.

Lemma blen_set_varsize b len : blen (SET_VARSIZE_COMPRESSED b len) = blen b.
Proof. apply blen_memcpy. Qed.

(** ** Headers that are set *)

Lemma wr_be32_app b v :
  4 ≤ blen b → wr_be32 0 v b = reverse (Z_to_little_endian 4 8 v) ++ drop 4 b.
Proof.
  intros Hb. unfold wr_be32. assert (Hl : length (reverse (Z_to_little_endian 4 8 v)) = 4%nat)
    by (rewrite length_reverse, length_le_bytes; done).
  rewrite memcpy_alt; [|lia|unfold blen in *; lia]. by rewrite Hl.
Qed.

Lemma wr_be32_header b v :
  4 ≤ blen b → va_header (wr_be32 0 v b) = u32 v `div` 2 ^ 24 ∧ is_byte (va_header (wr_be32 0 v b)).
Proof.
  intros Hb. destruct (va_header_be32 (wr_be32 0 v b)) as [_ E].
  - rewrite wr_be32_app by done. rewrite take_app_length'
      by (rewrite length_reverse, length_le_bytes; done).
    apply Forall_reverse. eapply Forall_impl; [apply (Z_to_little_endian_bound 4 8); lia|].
    unfold is_byte. intros; lia.
  - unfold wr_be32. by rewrite blen_memcpy.
  - rewrite E, rd_wr_be32 by lia. split; [done|]. pose proof (u32_range v). unfold is_byte. divlia.
Qed.

(** A value of [len] bytes whose header is set. *)
Lemma set_varsize_spec b len :
  4 ≤ blen b → 4 ≤ len < 2 ^ 30 →
  let b' := SET_VARSIZE b len in
  is_byte (va_header b') ∧ va_header b' < 64 ∧ VARSIZE b' = len ∧
  VARATT_IS_4B_U b' = true ∧ VARATT_IS_1B b' = false ∧ VARATT_IS_4B_C b' = false ∧
  VARATT_IS_1B_E b' = false ∧ drop 4 b' = drop 4 b.
Proof.
  intros Hb Hl b'. assert (El : Z.land len 0x3FFFFFFF = len).
  { change 0x3FFFFFFF with (Z.ones 30). rewrite Z.land_ones by lia. apply Z.mod_small. lia. }
  unfold b', SET_VARSIZE. rewrite El. destruct (wr_be32_header b len Hb) as [Eh Hh].
  rewrite u32_id in Eh by lia. assert (Hlt : va_header (wr_be32 0 len b) < 64) by (rewrite Eh; divlia).
  destruct (header_cases _ Hh) as (-> & -> & _ & -> & _). unfold is_byte in *.
  split; [done|]. split; [done|]. split_and!; [| | | |unfold VARATT_IS_1B_E; lia|].
  - unfold VARSIZE. rewrite rd_wr_be32, u32_id by lia. done.
  - by rewrite bool_decide_true by lia.
  - by rewrite bool_decide_false by lia.
  - by rewrite bool_decide_false by lia.
  - rewrite wr_be32_app by done. apply drop_app_length'. by rewrite length_reverse, length_le_bytes.
Qed.

Lemma le_bytes_4 z :
  Z_to_little_endian 4 8 z =
    [z `mod` 2 ^ 8; z `div` 2 ^ 8 `mod` 2 ^ 8; z `div` 2 ^ 16 `mod` 2 ^ 8; z `div` 2 ^ 24 `mod` 2 ^ 8].
Proof.
  change 4 with (Z.succ (Z.succ (Z.succ (Z.succ 0)))).
  rewrite !Z_to_little_endian_succ, Z_to_little_endian_0 by lia. rewrite !Z.shiftr_shiftr by lia.
  rewrite !Z.land_ones, !Z.shiftr_div_pow2 by lia. done.
Qed.

(** The same with the flag of compressed data. *)
Lemma set_varsize_c_spec b len :
  4 ≤ blen b → 4 ≤ len < 2 ^ 30 →
  let b' := SET_VARSIZE_COMPRESSED b len in
  is_byte (va_header b') ∧ VARSIZE b' = len ∧ VARATT_IS_4B_C b' = true ∧
  VARATT_IS_1B b' = false ∧ VARATT_IS_1B_E b' = false ∧ drop 4 b' = drop 4 b ∧
  VARATT_SET_COMPRESSED b' = b' ∧ VARATT_SET_COMPRESSED (SET_VARSIZE b len) = b'.
Proof.
  intros Hb Hl b'. pose proof (varsize_compressed b len Hb ltac:(lia)) as Esz.
  assert (El : Z.land len 0x3FFFFFFF = len).
  { change 0x3FFFFFFF with (Z.ones 30). rewrite Z.land_ones by lia. apply Z.mod_small. lia. }
  assert (Ec : Z.lor len 0x40000000 = len + 2 ^ 30).
  { change 0x40000000 with (Z.shiftl 1 30). rewrite lor_shiftl_add by lia. done. }
  unfold b', SET_VARSIZE_COMPRESSED, SET_VARSIZE in *. rewrite El, Ec in *.
  destruct (wr_be32_header b (len + 2 ^ 30) Hb) as [Eh Hh]. rewrite u32_id in Eh by lia.
  assert (Hr : 64 ≤ va_header (wr_be32 0 (len + 2 ^ 30) b) < 128) by (rewrite Eh; divlia).
  assert (Hor : ∀ h, 64 ≤ h < 128 → Z.lor h 0x40 = h).
  { intros h Hh'. change 0x40 with (Z.shiftl 1 6).
    assert (E : h = Z.lor (h - 64) (Z.shiftl 1 6))
      by (rewrite lor_shiftl_add by lia; rewrite Z.shiftl_mul_pow2 by lia; lia).
    rewrite E at 1. by rewrite <- Z.lor_assoc, Z.lor_diag, <- E. }
  assert (Hlow : Z.lor (len `div` 2 ^ 24) 0x40 = (len + 2 ^ 30) `div` 2 ^ 24).
  { change 0x40 with (Z.shiftl 1 6). rewrite lor_shiftl_add by divlia. rewrite Z.shiftl_mul_pow2 by lia. divlia. }
  pose proof Hh as Hh'. destruct (header_cases _ Hh) as (_ & -> & _ & -> & _). unfold is_byte in Hh'.
  split; [done|]. split_and!; [done|by rewrite bool_decide_true by lia|by rewrite bool_decide_false by lia
    |unfold VARATT_IS_1B_E; lia| | |].
  - rewrite wr_be32_app by done. apply drop_app_length'. by rewrite length_reverse, length_le_bytes.
  - unfold VARATT_SET_COMPRESSED. rewrite Hor by done. apply list_insert_id.
    unfold va_header. rewrite wr_be32_app, le_bytes_4 by done. done.
  - unfold VARATT_SET_COMPRESSED. rewrite !wr_be32_app, !le_bytes_4 by done.
    unfold va_header. cbn [reverse rev_append app lookup list_lookup default from_option id insert list_insert].
    f_equal; [|f_equal; [divlia|f_equal; [divlia|f_equal; divlia]]].
    rewrite !Z.mod_small by divlia. exact Hlow.
Qed.
