(* ===== verification/PgLz.v ===== *)
(** LZ compression of values: backend/utils/adt/pg_lzcompress.c.

    The source and the destination are buffers; positions in them are offsets.
    The history is the two static arrays of the file: list heads by hash index
    (absent: NULL) and entries linked by their index.  The entries keep what a
    previous call left in them, so they are an argument and a result of
    [pglz_compress].  A read or a write outside a buffer, or through NULL, is a
    fault ([None] in the compressor; the decompressor tells reads and writes
    apart). *)
From stdpp Require Import prelude gmap list numbers.
From S2P Require Import Prelude Varlena.

(** [PGLZ_Header]: the varlena header, then [rawsize]. *)
Definition sizeof_PGLZ_Header : Z := 8.
Definition PGLZ_RAW_SIZE (b : list Z) : Z := s32 (rd_u32 4 b).
Definition PGLZ_MAX_OUTPUT (dlen : Z) : Z := dlen + 4 + sizeof_PGLZ_Header.

(** ** Strategies *)

Record PGLZ_Strategy := mkStrategy {
  min_input_size : Z;
  max_input_size : Z;
  min_comp_rate : Z;
  first_success_by : Z;
  match_size_good : Z;
  match_size_drop : Z
}.

Definition INT_MAX : Z := 2147483647.
Definition PGLZ_strategy_default : PGLZ_Strategy := mkStrategy 32 INT_MAX 25 1024 128 10.
Definition PGLZ_strategy_always : PGLZ_Strategy := mkStrategy 0 INT_MAX 0 INT_MAX 128 6.

(** ** The history *)

Definition PGLZ_HISTORY_LISTS : Z := 8192.
Definition PGLZ_HISTORY_MASK : Z := PGLZ_HISTORY_LISTS - 1.
Definition PGLZ_HISTORY_SIZE : Z := 4096.
Definition PGLZ_MAX_MATCH : Z := 273.

Record PGLZ_HistEntry := mkEntry {
  next : option Z;
  prev : option Z;
  hindex : Z;
  pos : Z
}.

Record History := mkHistory {
  hist_start : gmap Z Z;
  hist_entries : gmap Z PGLZ_HistEntry;
  hist_next : Z;
  hist_recycle : bool
}.

(** [s[i]] of a [char *], which is signed. *)
Definition char_at (s : list Z) (i : Z) : option Z :=
  if i <? 0 then None else
  b ← s !! Z.to_nat i;
  Some (if b <? 128 then b else b - 256).

Definition pglz_hist_idx (source : list Z) (s e : Z) : option Z :=
  if e - s <? 4 then
    c0 ← char_at source s;
    Some (Z.land c0 PGLZ_HISTORY_MASK)
  else
    c0 ← char_at source s; c1 ← char_at source (s + 1);
    c2 ← char_at source (s + 2); c3 ← char_at source (s + 3);
    Some (Z.land (Z.lxor (Z.lxor (Z.lxor (Z.shiftl c0 9) (Z.shiftl c1 6)) (Z.shiftl c2 3)) c3)
            PGLZ_HISTORY_MASK).

Definition set_next (E : gmap Z PGLZ_HistEntry) (i : Z) (n : option Z) : option (gmap Z PGLZ_HistEntry) :=
  e ← E !! i; Some (<[i := mkEntry n (prev e) (hindex e) (pos e)]> E).

Definition set_prev (E : gmap Z PGLZ_HistEntry) (i : Z) (p : option Z) : option (gmap Z PGLZ_HistEntry) :=
  e ← E !! i; Some (<[i := mkEntry (next e) p (hindex e) (pos e)]> E).

(** [hs[k] = p] where [p] may be NULL. *)
Definition set_start (hs : gmap Z Z) (k : Z) (p : option Z) : gmap Z Z :=
  match p with Some i => <[k := i]> hs | None => delete k hs end.

(** The part of [pglz_hist_add] that unlinks the entry about to be reused
    from its neighbours. *)
Definition delink_prev (hs : gmap Z Z) (E : gmap Z PGLZ_HistEntry) (my : PGLZ_HistEntry)
    : option (gmap Z Z * gmap Z PGLZ_HistEntry) :=
  match prev my with
  | None => Some (set_start hs (hindex my) (next my), E)
  | Some p => E ← set_next E p (next my); Some (hs, E)
  end.

Definition delink_next (E : gmap Z PGLZ_HistEntry) (my : PGLZ_HistEntry)
    : option (gmap Z PGLZ_HistEntry) :=
  match next my with
  | Some n => set_prev E n (prev my)
  | None => Some E
  end.

Definition hist_delink (hs : gmap Z Z) (E : gmap Z PGLZ_HistEntry) (hn : Z)
    : option (gmap Z Z * gmap Z PGLZ_HistEntry) :=
  my ← E !! hn;
  '(hs, E) ← delink_prev hs E my;
  E ← delink_next E my;
  Some (hs, E).

Definition pglz_hist_add (source : list Z) (h : History) (s e : Z) : option History :=
  k ← pglz_hist_idx source s e;
  let hn := hist_next h in
  '(hs, E) ← (if hist_recycle h then hist_delink (hist_start h) (hist_entries h) hn
              else Some (hist_start h, hist_entries h));
  let head := hs !! k in
  let E := <[hn := mkEntry head None k s]> E in
  E ← match head with Some i => set_prev E i (Some hn) | None => Some E end;
  let hs := <[k := hn]> hs in
  Some (if PGLZ_HISTORY_SIZE <=? hn + 1 then mkHistory hs E 0 true
        else mkHistory hs E (hn + 1) (hist_recycle h)).

(** ** Looking for a match *)

(** [while (ip < end && *ip == *hp && thislen < PGLZ_MAX_MATCH)] *)
Fixpoint match_loop (n : nat) (source : list Z) (ip hp e thislen : Z) : option Z :=
  if ip <? e then
    a ← char_at source ip; b ← char_at source hp;
    if (a =? b) && (thislen <? PGLZ_MAX_MATCH) then
      match n with
      | O => None
      | S n => match_loop n source (ip + 1) (hp + 1) e (thislen + 1)
      end
    else Some thislen
  else Some thislen.

(** [memcmp(ip, hp, len) == 0] *)
Definition memcmp_eq (source : list Z) (ip hp len : Z) : option bool :=
  if (0 <=? ip) && (0 <=? hp) && (ip + len <=? blen source) && (hp + len <=? blen source)
  then Some (bool_decide (slice ip len source = slice hp len source)) else None.

Definition match_turns : nat := Z.to_nat PGLZ_MAX_MATCH.

Fixpoint find_loop (n : nat) (source : list Z) (E : gmap Z PGLZ_HistEntry) (input e : Z)
    (hent : option Z) (len off good_match good_drop : Z) : option (Z * Z) :=
  match hent with
  | None => Some (len, off)
  | Some i =>
      match n with
      | O => None
      | S n =>
          ent ← E !! i;
          let ip := input in
          let hp := pos ent in
          let thisoff := ip - hp in
          if 0x0fff <=? thisoff then Some (len, off) else
          thislen ← (if 16 <=? len then
                       eq ← memcmp_eq source ip hp len;
                       if (eq : bool) then match_loop match_turns source (ip + len) (hp + len) e len
                       else Some 0
                     else match_loop match_turns source ip hp e 0);
          let '(len, off) := if len <? thislen then (thislen, thisoff) else (len, off) in
          match next ent with
          | None => Some (len, off)
          | Some _ =>
              if good_match <=? len then Some (len, off) else
              find_loop n source E input e (next ent) len off
                (good_match - Z.quot (good_match * good_drop) 100) good_drop
          end
      end
  end.

(** A list has no more entries than the array. *)
Definition find_turns : nat := Z.to_nat PGLZ_HISTORY_SIZE.

Definition pglz_find_match (source : list Z) (h : History) (input e good_match good_drop : Z)
    : option (option (Z * Z)) :=
  k ← pglz_hist_idx source input e;
  '(len, off) ← find_loop find_turns source (hist_entries h) input e
                  (hist_start h !! k) 0 0 good_match good_drop;
  Some (if 2 <? len then Some (len, off) else None).

(** ** Output *)

Record Out := mkOut {
  ctrlp : option Z;     (* [None]: [&ctrl_dummy] *)
  ctrlb : Z;
  ctrl : Z;
  bp : Z;
  dest : list Z
}.

Definition put (b : list Z) (i v : Z) : option (list Z) :=
  if (0 <=? i) && (i <? blen b) then Some (<[Z.to_nat i := v]> b) else None.

(** [*ctrlp = ctrlb] *)
Definition flush_ctrl (o : Out) : option (list Z) :=
  match ctrlp o with Some i => put (dest o) i (ctrlb o) | None => Some (dest o) end.

Definition pglz_out_ctrl (o : Out) : option Out :=
  if Z.land (ctrl o) 0xff =? 0 then
    d ← flush_ctrl o;
    Some (mkOut (Some (bp o)) 0 1 (bp o + 1) d)
  else Some o.

Definition pglz_out_literal (o : Out) (b : Z) : option Out :=
  o ← pglz_out_ctrl o;
  d ← put (dest o) (bp o) (u8 b);
  Some (mkOut (ctrlp o) (ctrlb o) (u8 (Z.shiftl (ctrl o) 1)) (bp o + 1) d).

Definition pglz_out_tag (o : Out) (len off : Z) : option Out :=
  o ← pglz_out_ctrl o;
  let cb := u8 (Z.lor (ctrlb o) (ctrl o)) in
  let c := u8 (Z.shiftl (ctrl o) 1) in
  if 17 <? len then
    d ← put (dest o) (bp o) (u8 (Z.lor (Z.shiftr (Z.land off 0xf00) 4) 0x0f));
    d ← put d (bp o + 1) (u8 (Z.land off 0xff));
    d ← put d (bp o + 2) (u8 (len - 18));
    Some (mkOut (ctrlp o) cb c (bp o + 3) d)
  else
    d ← put (dest o) (bp o) (u8 (Z.lor (Z.shiftr (Z.land off 0xf00) 4) (len - 3)));
    d ← put d (bp o + 1) (u8 (Z.land off 0xff));
    Some (mkOut (ctrlp o) cb c (bp o + 2) d).

(** ** Compression *)

(** [while (match_len--) { pglz_hist_add(...); dp++; }] *)
Fixpoint hist_add_all (n : nat) (source : list Z) (h : History) (dp dend : Z) : option History :=
  match n with
  | O => Some h
  | S n => h ← pglz_hist_add source h dp dend; hist_add_all n source h (dp + 1) dend
  end.

(** The main loop; [inl] is the [return false] inside it. *)
Fixpoint compress_loop (n : nat) (source : list Z) (dend result_max first_success good_match good_drop : Z)
    (dp : Z) (h : History) (o : Out) (found_match : bool) : option (Out * History + Out * History) :=
  if dp <? dend then
    match n with
    | O => None
    | S n =>
        if result_max <=? bp o - sizeof_PGLZ_Header then Some (inl (o, h)) else
        if negb found_match && (first_success <=? bp o - sizeof_PGLZ_Header) then Some (inl (o, h)) else
        m ← pglz_find_match source h dp dend good_match good_drop;
        match m with
        | Some (match_len, match_off) =>
            o ← pglz_out_tag o match_len match_off;
            h ← hist_add_all (Z.to_nat match_len) source h dp dend;
            compress_loop n source dend result_max first_success good_match good_drop
              (dp + match_len) h o true
        | None =>
            c ← char_at source dp;
            o ← pglz_out_literal o c;
            h ← pglz_hist_add source h dp dend;
            compress_loop n source dend result_max first_success good_match good_drop
              (dp + 1) h o found_match
        end
    end
  else Some (inr (o, h)).

(** A value limited to a range, as the match parameters are. *)
Definition clamp (lo hi x : Z) : Z := if x <? lo then lo else if hi <? x then hi else x.

Definition result_limit (slen need_rate : Z) : Z :=
  if INT_MAX / 100 <? slen then s32 ((slen / 100) * (100 - need_rate))
  else s32 (slen * (100 - need_rate)) / 100.

(** The result: the value returned, [dest] and the entries left behind. *)
Definition pglz_compress (entries : gmap Z PGLZ_HistEntry) (source : list Z) (slen : Z)
    (dest : list Z) (strategy : option PGLZ_Strategy)
    : option (bool * list Z * gmap Z PGLZ_HistEntry) :=
  let strategy := default PGLZ_strategy_default strategy in
  if (match_size_good strategy <=? 0) || (slen <? min_input_size strategy)
     || (max_input_size strategy <? slen)
  then Some (false, dest, entries) else
  let dest := wr_u32 4 slen dest in
  let good_match :=
    if PGLZ_MAX_MATCH <? match_size_good strategy then PGLZ_MAX_MATCH
    else if match_size_good strategy <? 17 then 17 else match_size_good strategy in
  let good_drop := clamp 0 100 (match_size_drop strategy) in
  let need_rate := clamp 0 99 (min_comp_rate strategy) in
  let result_max := result_limit slen need_rate in
  r ← compress_loop (Z.to_nat slen) source slen result_max (first_success_by strategy)
        good_match good_drop 0 (mkHistory ∅ entries 0 false)
        (mkOut None 0 0 sizeof_PGLZ_Header dest) false;
  match r with
  | inl (o, h) => Some (false, PgLz.dest o, hist_entries h)
  | inr (o, h) =>
      d ← flush_ctrl o;
      let result_size := bp o - sizeof_PGLZ_Header in
      if result_max <=? result_size then Some (false, d, hist_entries h) else
      Some (true, SET_VARSIZE_COMPRESSED d (result_size + sizeof_PGLZ_Header), hist_entries h)
  end.

(** ** Decompression *)

Inductive access (A : Type) : Type :=
  | Val (a : A)
  | BadRead
  | BadWrite
  | OutOfFuel.
Arguments Val {A} a.
Arguments BadRead {A}.
Arguments BadWrite {A}.
Arguments OutOfFuel {A}.

Definition access_bind {A B} (m : access A) (f : A → access B) : access B :=
  match m with
  | Val a => f a
  | BadRead => BadRead
  | BadWrite => BadWrite
  | OutOfFuel => OutOfFuel
  end.

Declare Scope access_scope.
Delimit Scope access_scope with access.
Notation "'let!' x ':=' m 'in' k" := (access_bind m (fun x => k))
  (at level 10, x pattern, m at level 100, k at level 200) : access_scope.

Local Open Scope access_scope.

Definition get (b : list Z) (i : Z) : access Z :=
  if i <? 0 then BadRead else
  match b !! Z.to_nat i with Some v => Val v | None => BadRead end.

Definition set (b : list Z) (i v : Z) : access (list Z) :=
  match put b i v with Some b => Val b | None => BadWrite end.

(** [while (len--) { *dp = dp[-off]; dp++; }] *)
Fixpoint copy_loop (len : nat) (dest : list Z) (dp off : Z) : access (list Z) :=
  match len with
  | O => Val dest
  | S len =>
      let! v := get dest (dp - off) in
      let! dest := set dest dp v in
      copy_loop len dest (dp + 1) off
  end.

(** [for (ctrlc = 0; ctrlc < 8 && sp < srcend; ctrlc++)], [n] turns left;
    a [break] only leaves this loop. *)
Fixpoint item_loop (n : nat) (source : list Z) (srcend destend ctrl sp dp : Z) (dest : list Z)
    : access (Z * Z * list Z) :=
  match n with
  | O => Val (sp, dp, dest)
  | S n =>
      if negb (sp <? srcend) then Val (sp, dp, dest) else
      if negb (Z.land ctrl 1 =? 0) then
        let! b0 := get source sp in
        let! b1 := get source (sp + 1) in
        let len := Z.land b0 0x0f + 3 in
        let off := Z.lor (Z.shiftl (Z.land b0 0xf0) 4) b1 in
        let sp := sp + 2 in
        let! (len, sp) :=
          (if len =? 18 then let! b2 := get source sp in Val (len + b2, sp + 1)
           else Val (len, sp)) in
        if destend <? dp + len then Val (sp, dp + len, dest) else
        let! dest := copy_loop (Z.to_nat len) dest dp off in
        item_loop n source srcend destend (Z.shiftr ctrl 1) sp (dp + len) dest
      else
        if destend <=? dp then Val (sp, dp, dest) else
        let! v := get source sp in
        let! dest := set dest dp v in
        item_loop n source srcend destend (Z.shiftr ctrl 1) (sp + 1) (dp + 1) dest
  end.

Fixpoint decompress_loop (n : nat) (source : list Z) (srcend destend sp dp : Z) (dest : list Z)
    : access (Z * Z * list Z) :=
  if (sp <? srcend) && (dp <? destend) then
    match n with
    | O => OutOfFuel
    | S n =>
        let! ctrl := get source sp in
        let! (sp, dp, dest) := item_loop 8 source srcend destend ctrl (sp + 1) dp dest in
        decompress_loop n source srcend destend sp dp dest
    end
  else Val (sp, dp, dest).

Definition pglz_decompress (source dest : list Z) : access (outcome (list Z)) :=
  let srcend := VARSIZE source in
  let destend := PGLZ_RAW_SIZE source in
  let! (sp, dp, dest) :=
    decompress_loop (Z.to_nat srcend) source srcend destend sizeof_PGLZ_Header 0 dest in
  Val (if negb (dp =? destend) || negb (sp =? srcend) then ElogError else Return dest).
