(* ===== verification/PgLzHist.v ===== *)
(** The history of the compressor: hash lists of earlier positions.

    [linked E l]: the entries [l] of the array [E] are a doubly linked list.
    [hist_inv] is the invariant that [pglz_hist_add] keeps, while it recycles
    entries too: every hash index heads such a list, of distinct entries with
    that index, for positions before the current one. *)
From stdpp Require Import prelude functions gmap numbers list.
From S2P Require Import Prelude Varlena PgLz.

Definition prev_at (l : list Z) (j : nat) : option Z :=
  match j with O => None | S j => l !! j end.

Definition linked (E : gmap Z PGLZ_HistEntry) (l : list Z) : Prop :=
  ∀ j i, l !! j = Some i →
    ∃ e, E !! i = Some e ∧ next e = l !! S j ∧ prev e = prev_at l j.

Definition hist_inv (h : History) (dp : Z) : Prop :=
  ∃ L : Z → list Z,
    (∀ k, hist_start h !! k = L k !! 0%nat ∧ linked (hist_entries h) (L k) ∧ NoDup (L k)) ∧
    (∀ k i, i ∈ L k → ∃ e, hist_entries h !! i = Some e ∧ hindex e = k ∧ 0 ≤ pos e < dp) ∧
    (∀ i, (∃ k, i ∈ L k) ↔
      0 ≤ i < if hist_recycle h then PGLZ_HISTORY_SIZE else hist_next h) ∧
    0 ≤ hist_next h < PGLZ_HISTORY_SIZE.

(** ** Unlinking an entry *)

Lemma linked_frame E E' l : (∀ i, i ∈ l → E' !! i = E !! i) → linked E l → linked E' l.
Proof.
  intros HE Hl j i Hj. rewrite HE by (by eapply list_elem_of_lookup_2). by apply Hl.
Qed.

Definition relink (l : list Z) (j : nat) (x : Z) (e : PGLZ_HistEntry) : PGLZ_HistEntry :=
  mkEntry (if decide (Some x = prev_at l j) then l !! S j else next e)
          (if decide (Some x = l !! S j) then prev_at l j else prev e) (hindex e) (pos e).

Section Delink.
Context (hs : gmap Z Z) (E : gmap Z PGLZ_HistEntry) (k : Z) (l : list Z) (j : nat) (i : Z).
Context (Hl : linked E l) (Hnd : NoDup l) (Hj : l !! j = Some i).

Lemma entry_ext (e : PGLZ_HistEntry) : mkEntry (next e) (prev e) (hindex e) (pos e) = e.
Proof. by destruct e. Qed.

Lemma fmap_entry_id x (f : PGLZ_HistEntry → PGLZ_HistEntry) :
  (∀ e, f e = e) → E !! x = f <$> E !! x.
Proof. intros Hf. destruct (E !! x); cbn; [by rewrite Hf|done]. Qed.

Lemma delink_prev_ok e :
  E !! i = Some e →
  ∃ E', delink_prev hs E e
      = Some (match j with O => set_start hs (hindex e) (l !! 1%nat) | _ => hs end, E') ∧
    ∀ x, E' !! x = (λ e, mkEntry (if decide (Some x = prev_at l j) then l !! S j else next e)
                           (prev e) (hindex e) (pos e)) <$> E !! x.
Proof.
  intros He. destruct (Hl j i Hj) as (e' & He' & Hn & Hp). simplify_eq.
  unfold delink_prev. rewrite Hn, Hp. destruct j as [|j0] eqn:Ej; cbn [prev_at] in *.
  - eexists. split; [done|]. intros x. apply fmap_entry_id. intros ex.
    rewrite decide_False by done. apply entry_ext.
  - destruct (lookup_lt_is_Some_2 l j0) as [p Ep]; [apply lookup_lt_Some in Hj; lia|].
    rewrite Ep. destruct (Hl _ _ Ep) as (ep & Hep & _). unfold set_next. rewrite Hep.
    eexists. split; [done|]. intros x. destruct (decide (x = p)) as [->|Hx].
    + rewrite lookup_insert_eq, Hep. cbn. by rewrite decide_True.
    + rewrite lookup_insert_ne by done. apply fmap_entry_id. intros ex.
      rewrite decide_False by congruence. apply entry_ext.
Qed.

Lemma delink_next_ok e E1 :
  E !! i = Some e →
  (∀ x, E1 !! x = (λ e, mkEntry (if decide (Some x = prev_at l j) then l !! S j else next e)
                          (prev e) (hindex e) (pos e)) <$> E !! x) →
  ∃ E', delink_next E1 e = Some E' ∧ ∀ x, E' !! x = relink l j x <$> E !! x.
Proof.
  intros He HE1. destruct (Hl j i Hj) as (e' & He' & Hn & Hp). simplify_eq.
  unfold delink_next, relink. rewrite Hn, Hp. destruct (l !! S j) as [n|] eqn:En.
  - destruct (Hl _ _ En) as (en & Hen & _). unfold set_prev. rewrite HE1, Hen.
    eexists. split; [done|]. intros x. destruct (decide (x = n)) as [->|Hx].
    + rewrite lookup_insert_eq, Hen. cbn. f_equal. by rewrite (decide_True (P := Some n = Some n)).
    + rewrite lookup_insert_ne, HE1 by done. destruct (E !! x); cbn; [|done].
      by rewrite (decide_False (P := Some x = Some n)) by congruence.
  - eexists. split; [done|]. intros x. rewrite HE1. destruct (E !! x); cbn; [|done].
    by rewrite (decide_False (P := Some x = None)).
Qed.

Lemma hist_delink_entries e :
  E !! i = Some e →
  ∃ E', hist_delink hs E i
      = Some (match j with O => set_start hs (hindex e) (l !! 1%nat) | _ => hs end, E') ∧
    ∀ x, E' !! x = relink l j x <$> E !! x.
Proof.
  intros He. destruct (delink_prev_ok e He) as (E1 & H1 & HE1).
  destruct (delink_next_ok e E1 He HE1) as (E2 & H2 & HE2).
  exists E2. split; [|done]. unfold hist_delink. rewrite He. cbn. by rewrite H1; cbn; rewrite H2.
Qed.

Lemma relink_linked E' : (∀ x, E' !! x = relink l j x <$> E !! x) → linked E' (delete j l).
Proof.
  intros HE m x Hm.
  assert (Hidx : ∀ a b, l !! a = Some x → l !! b = Some x → a = b)
    by (intros a b Ha Hb; by eapply NoDup_lookup).
  rewrite HE. destruct (decide (m < j)%nat) as [Hlt|Hge].
  - rewrite list_lookup_delete_lt in Hm by done. destruct (Hl m x Hm) as (e & -> & Hn & Hp).
    cbn. eexists. split; [done|]. cbn. split.
    + destruct (decide (S m = j)) as [<-|Hne].
      * rewrite decide_True by (by cbn). rewrite list_lookup_delete_ge by lia. done.
      * rewrite decide_False; [by rewrite list_lookup_delete_lt by lia|].
        destruct j as [|j0]; cbn; [done|]. intros Hx. symmetry in Hx. specialize (Hidx _ _ Hm Hx). lia.
    + rewrite decide_False by (intros Hx; symmetry in Hx; specialize (Hidx _ _ Hm Hx); lia).
      rewrite Hp. destruct m as [|m]; cbn; [done|]. by rewrite list_lookup_delete_lt by lia.
  - rewrite list_lookup_delete_ge in Hm by lia. destruct (Hl (S m) x Hm) as (e & -> & Hn & Hp).
    cbn. eexists. split; [done|]. cbn. split.
    + rewrite decide_False; [by rewrite list_lookup_delete_ge by lia|].
      destruct j as [|j0]; cbn; [done|]. intros Hx. symmetry in Hx. specialize (Hidx _ _ Hm Hx). lia.
    + destruct (decide (m = j)) as [->|Hne].
      * rewrite decide_True by done. destruct j as [|j0]; cbn; [done|].
        by rewrite list_lookup_delete_lt by lia.
      * rewrite decide_False by (intros Hx; symmetry in Hx; specialize (Hidx _ _ Hm Hx); lia).
        rewrite Hp. destruct m as [|m]; cbn; [lia|]. by rewrite list_lookup_delete_ge by lia.
Qed.
End Delink.

(** A new entry at the head of a list. *)
Lemma linked_cons E E' l i k p :
  linked E l → NoDup (i :: l) →
  E' !! i = Some (mkEntry (l !! 0%nat) None k p) →
  (∀ x e, E !! x = Some e → x ≠ i → E' !! x =
     Some (mkEntry (next e) (if decide (Some x = l !! 0%nat) then Some i else prev e) (hindex e) (pos e))) →
  linked E' (i :: l).
Proof.
  intros Hl [Hi Hnd]%NoDup_cons Ei HE m x Hm. destruct m as [|m]; cbn in Hm.
  - simplify_eq. eexists. split; [done|]. by destruct l.
  - destruct (Hl m x Hm) as (e & He & Hn & Hp).
    assert (x ≠ i) by (intros ->; by apply list_elem_of_lookup_2 in Hm).
    eexists. split; [by apply HE|]. cbn. split; [done|]. destruct m as [|m]; cbn.
    + by rewrite decide_True.
    + rewrite decide_False; [done|]. intros Hx. symmetry in Hx.
      pose proof (NoDup_lookup _ _ _ _ Hnd Hm Hx). lia.
Qed.

(** ** The invariant *)

(** The lists [L], none of which has the entry [hn]; [live] entries but it
    are in one. *)
Definition lists_inv (hs : gmap Z Z) (E : gmap Z PGLZ_HistEntry) (L : Z → list Z)
    (live : Z → Prop) (dp : Z) : Prop :=
  (∀ k, hs !! k = L k !! 0%nat ∧ linked E (L k) ∧ NoDup (L k)) ∧
  (∀ k i, i ∈ L k → ∃ e, E !! i = Some e ∧ hindex e = k ∧ 0 ≤ pos e < dp) ∧
  (∀ i, (∃ k, i ∈ L k) ↔ live i).

Lemma lists_disjoint hs E L live dp k k' i :
  lists_inv hs E L live dp → i ∈ L k → i ∈ L k' → k = k'.
Proof.
  intros (_ & He & _) Hk Hk'. destruct (He k i Hk) as (e & E1 & <- & _).
  destruct (He k' i Hk') as (e' & E2 & <- & _). by simplify_eq.
Qed.

Lemma set_start_lookup hs k p : set_start hs k p !! k = p.
Proof. destruct p; cbn; [apply lookup_insert_eq|apply lookup_delete_eq]. Qed.

Lemma set_start_lookup_ne hs k k' p : k ≠ k' → set_start hs k p !! k' = hs !! k'.
Proof. intros. destruct p; cbn; [by rewrite lookup_insert_ne|by rewrite lookup_delete_ne]. Qed.

Lemma hist_delink_inv hs E L live dp hn :
  lists_inv hs E L live dp → live hn →
  ∃ hs' E' L', hist_delink hs E hn = Some (hs', E') ∧
    lists_inv hs' E' L' (λ i, live i ∧ i ≠ hn) dp.
Proof.
  intros HL Hlive. pose proof (lists_disjoint hs E L live dp) as Hdisj.
  destruct HL as (Hk & He & Hc). destruct (proj2 (Hc hn) Hlive) as (k & Hin).
  destruct (He k hn Hin) as (e & Ee & Hidx & Hpos).
  apply list_elem_of_lookup in Hin as (j & Hj). destruct (Hk k) as (Hs & Hl & Hnd).
  destruct (hist_delink_entries hs E (L k) j hn Hl Hj e Ee) as (E' & -> & HE').
  do 2 eexists. exists (<[k := delete j (L k)]> L). split; [done|].
  pose proof (delete_Permutation (L k) j hn Hj) as HP.
  assert (Hnd' : NoDup (hn :: delete j (L k))) by (by rewrite <- HP).
  apply NoDup_cons in Hnd' as [Hni Hnd'].
  assert (Hdel : ∀ i, i ∈ delete j (L k) ↔ i ∈ L k ∧ i ≠ hn).
  { intros i. assert (Hi : i ∈ L k ↔ i ∈ hn :: delete j (L k)) by (by rewrite <- HP).
    rewrite elem_of_cons in Hi. naive_solver. }
  split_and!.
  - intros k'. destruct (decide (k' = k)) as [->|Hne].
    + rewrite fn_lookup_insert. split_and!; [|by eapply relink_linked|done].
      destruct j as [|j]; cbn.
      * rewrite Hidx, set_start_lookup, list_lookup_delete_ge by lia. done.
      * rewrite Hs, list_lookup_delete_lt by lia. done.
    + rewrite fn_lookup_insert_ne by done. destruct (Hk k') as (Hs' & Hl' & Hndk).
      split_and!; [|eapply linked_frame; [|done]|done].
      * destruct j as [|j]; [|done]. by rewrite Hidx, set_start_lookup_ne.
      * intros i Hi. rewrite HE'. destruct (He k' i Hi) as (ei & -> & Hki & _). cbn. unfold relink.
        assert (Hout : ∀ m, L k !! m ≠ Some i).
        { intros m Hm%list_elem_of_lookup_2. by apply Hne, (Hdisj k' k i). }
        rewrite !decide_False; [by rewrite entry_ext| |].
        -- intros Hx. symmetry in Hx. by apply Hout in Hx.
        -- destruct j as [|j]; cbn; [done|]. intros Hx. symmetry in Hx. by apply Hout in Hx.
  - assert (Hkeep : ∀ k' i, i ∈ L k' → ∃ e, E' !! i = Some e ∧ hindex e = k' ∧ 0 ≤ pos e < dp).
    { intros k' i Hi. destruct (He k' i Hi) as (ei & Eei & ? & ?). rewrite HE', Eei. by eexists. }
    intros k' i. destruct (decide (k' = k)) as [->|Hne].
    + rewrite fn_lookup_insert, Hdel. intros [? _]. by apply Hkeep.
    + rewrite fn_lookup_insert_ne by done. apply Hkeep.
  - intros i. rewrite <- Hc. split.
    + intros (k' & Hi). destruct (decide (k' = k)) as [->|Hne].
      * rewrite fn_lookup_insert, Hdel in Hi. destruct Hi. split; [by exists k|done].
      * rewrite fn_lookup_insert_ne in Hi by done. split; [by exists k'|]. intros ->.
        apply Hne. eapply (Hdisj _ _ hn); [done|done|]. by eapply list_elem_of_lookup_2.
    + intros ((k' & Hi) & Hne). exists k'. destruct (decide (k' = k)) as [->|Hnk].
      * rewrite fn_lookup_insert. by apply Hdel.
      * by rewrite fn_lookup_insert_ne.
Qed.

(** Linking a new entry at the head of the list [k]. *)
Lemma hist_link_inv hs E L live dp hn k :
  lists_inv hs E L live dp → ¬ live hn → 0 ≤ dp →
  ∃ E', match hs !! k with
        | Some i => set_prev (<[hn := mkEntry (hs !! k) None k dp]> E) i (Some hn)
        | None => Some (<[hn := mkEntry (hs !! k) None k dp]> E)
        end = Some E' ∧
    lists_inv (<[k := hn]> hs) E' (<[k := hn :: L k]> L) (λ i, live i ∨ i = hn) (dp + 1).
Proof.
  intros HL Hlive Hdp. pose proof (lists_disjoint hs E L live dp) as Hdisj.
  destruct HL as (Hk & He & Hc). destruct (Hk k) as (Hs & Hl & Hnd).
  assert (Hni : ∀ k', hn ∉ L k') by (intros k' Hin; apply Hlive, Hc; by exists k').
  assert (HE : ∃ E', match hs !! k with
      | Some i => set_prev (<[hn := mkEntry (hs !! k) None k dp]> E) i (Some hn)
      | None => Some (<[hn := mkEntry (hs !! k) None k dp]> E) end = Some E' ∧
    E' !! hn = Some (mkEntry (hs !! k) None k dp) ∧
    ∀ x e, E !! x = Some e → x ≠ hn → E' !! x =
      Some (mkEntry (next e) (if decide (Some x = hs !! k) then Some hn else prev e) (hindex e) (pos e))).
  { destruct (hs !! k) as [i|] eqn:Ei.
    - assert (Hi : i ∈ L k) by (symmetry in Hs; by eapply list_elem_of_lookup_2).
      assert (i ≠ hn) by (intros ->; by apply Hni in Hi).
      destruct (He k i Hi) as (e & Ee & _). unfold set_prev. rewrite lookup_insert_ne, Ee by done.
      eexists. split; [done|]. split; [by rewrite lookup_insert_ne, lookup_insert_eq|].
      intros x ex Hx Hxn. destruct (decide (x = i)) as [->|].
      + rewrite lookup_insert_eq, decide_True by done. by simplify_eq.
      + rewrite !lookup_insert_ne, decide_False by congruence. by rewrite entry_ext.
    - eexists. split; [done|]. split; [apply lookup_insert_eq|]. intros x ex Hx Hxn.
      rewrite lookup_insert_ne, decide_False by done. by rewrite entry_ext. }
  destruct HE as (E' & HE & Hhn & Hx). exists E'. split; [done|]. rewrite Hs in Hhn. rewrite Hs in Hx.
  split_and!.
  - intros k'. destruct (decide (k' = k)) as [->|Hne].
    + rewrite fn_lookup_insert, lookup_insert_eq.
      assert (NoDup (hn :: L k)) by (by apply NoDup_cons).
      split_and!; [done| |done]. by eapply linked_cons.
    + rewrite fn_lookup_insert_ne, lookup_insert_ne by done. destruct (Hk k') as (Hs' & Hl' & Hnd').
      split_and!; [done| |done]. eapply linked_frame; [|done]. intros i Hi.
      destruct (He k' i Hi) as (e & Ee & _). rewrite (Hx i e Ee) by (intros ->; by apply Hni in Hi).
      rewrite Ee, decide_False; [by rewrite entry_ext|]. intros Hx0. symmetry in Hx0.
      apply Hne, (Hdisj k' k i); [done|done|]. by eapply list_elem_of_lookup_2.
  - assert (Hkeep : ∀ k' i, i ∈ L k' → ∃ e, E' !! i = Some e ∧ hindex e = k' ∧ 0 ≤ pos e < dp + 1).
    { intros k' i Hi. destruct (He k' i Hi) as (ei & Eei & ? & ?).
      rewrite (Hx i ei Eei) by (intros ->; by apply Hni in Hi). eexists. split; [done|]. cbn. lia. }
    intros k' i. destruct (decide (k' = k)) as [->|Hne].
    + rewrite fn_lookup_insert. intros [->|Hi]%elem_of_cons; [|by apply Hkeep].
      eexists. split; [done|]. cbn. lia.
    + rewrite fn_lookup_insert_ne by done. apply Hkeep.
  - intros i. rewrite <- Hc. split.
    + intros (k' & Hi). destruct (decide (k' = k)) as [->|Hne].
      * rewrite fn_lookup_insert in Hi. apply elem_of_cons in Hi as [->|Hi]; [by right|]. left. by exists k.
      * rewrite fn_lookup_insert_ne in Hi by done. left. by exists k'.
    + intros [(k' & Hi)| ->].
      * exists k'. destruct (decide (k' = k)) as [->|]; [|by rewrite fn_lookup_insert_ne].
        rewrite fn_lookup_insert. by right.
      * exists k. rewrite fn_lookup_insert. by left.
Qed.

Section Add.
Context (source : list Z).

Lemma char_at_ok i : 0 ≤ i < blen source → ∃ c, char_at source i = Some c.
Proof.
  intros Hi. unfold char_at. rewrite (proj2 (Z.ltb_ge _ _)) by lia. unfold blen in Hi.
  destruct (lookup_lt_is_Some_2 source (Z.to_nat i)) as [b ->]; [lia|]. by eexists.
Qed.

Lemma hist_idx_ok s : 0 ≤ s < blen source → ∃ k, pglz_hist_idx source s (blen source) = Some k.
Proof.
  intros Hs. unfold pglz_hist_idx. destruct (char_at_ok s Hs) as (c0 & ->).
  destruct (Z.ltb_spec (blen source - s) 4); [by eexists|].
  destruct (char_at_ok (s + 1)) as (c1 & ->); [lia|].
  destruct (char_at_ok (s + 2)) as (c2 & ->); [lia|].
  destruct (char_at_ok (s + 3)) as (c3 & ->); [lia|]. by eexists.
Qed.

Lemma hist_inv_empty E : hist_inv (mkHistory ∅ E 0 false) 0.
Proof.
  exists (λ _, []). split_and!; [|set_solver|cbn|done|done].
  - intros k. cbn. split_and!; [by rewrite lookup_empty|intros j i; by rewrite lookup_nil|constructor].
  - intros i. split; [set_solver|lia].
Qed.

Lemma hist_add_ok h dp :
  hist_inv h dp → 0 ≤ dp < blen source →
  ∃ h', pglz_hist_add source h dp (blen source) = Some h' ∧ hist_inv h' (dp + 1).
Proof.
  intros (L & Hk & He & Hc & Hn) Hdp. unfold pglz_hist_add.
  destruct (hist_idx_ok dp Hdp) as (k & ->). cbn [mbind option_bind].
  set (live := λ i, 0 ≤ i < if hist_recycle h then PGLZ_HISTORY_SIZE else hist_next h).
  assert (HL : lists_inv (hist_start h) (hist_entries h) L live dp) by done.
  assert (Hstep : ∃ hs E L' live', (if hist_recycle h
      then hist_delink (hist_start h) (hist_entries h) (hist_next h)
      else Some (hist_start h, hist_entries h)) = Some (hs, E) ∧
    lists_inv hs E L' live' dp ∧ (∀ i, live' i ↔ live i ∧ i ≠ hist_next h)).
  { destruct (hist_recycle h) eqn:Er.
    - destruct (hist_delink_inv _ _ L live dp (hist_next h) HL) as (hs & E & L' & HE & HL'); [done|].
      by do 4 eexists.
    - do 4 eexists. split; [done|]. split; [done|]. intros i. unfold live. lia. }
  destruct Hstep as (hs & E & L' & live' & -> & HL' & Hlive). cbn [mbind option_bind].
  destruct (hist_link_inv hs E L' live' dp (hist_next h) k HL') as (E' & -> & HL'').
  { rewrite Hlive. naive_solver. }
  { lia. }
  cbn [mbind option_bind]. eexists. split; [done|]. destruct HL'' as (Hk' & He' & Hc').
  exists (<[k := hist_next h :: L' k]> L').
  assert (Hlast : PGLZ_HISTORY_SIZE <=? hist_next h + 1 = true ∧ hist_next h = PGLZ_HISTORY_SIZE - 1 ∨
    PGLZ_HISTORY_SIZE <=? hist_next h + 1 = false ∧ hist_next h < PGLZ_HISTORY_SIZE - 1).
  { destruct (Z.leb_spec PGLZ_HISTORY_SIZE (hist_next h + 1)); lia. }
  destruct Hlast as [[-> Hh]|[-> Hh]]; cbn; (split_and!; [done|done| |unfold PGLZ_HISTORY_SIZE in *; lia..]).
  - intros i. rewrite Hc', Hlive. unfold live. destruct (hist_recycle h);
      destruct (decide (i = hist_next h)); lia.
  - intros i. rewrite Hc', Hlive. unfold live. destruct (hist_recycle h);
      destruct (decide (i = hist_next h)); lia.
Qed.

Lemma hist_add_all_ok n h dp :
  hist_inv h dp → 0 ≤ dp → dp + Z.of_nat n ≤ blen source →
  ∃ h', hist_add_all n source h dp (blen source) = Some h' ∧ hist_inv h' (dp + Z.of_nat n).
Proof.
  revert h dp. induction n as [|n IH]; intros h dp Hh Hdp Hn.
  { exists h. split; [done|]. by rewrite Z.add_0_r. }
  cbn [hist_add_all]. destruct (hist_add_ok h dp Hh) as (h1 & -> & Hh1); [lia|]. cbn [mbind option_bind].
  destruct (IH h1 (dp + 1)) as (h2 & -> & Hh2); [done|lia|lia|]. exists h2. split; [done|].
  by replace (dp + Z.of_nat (S n)) with (dp + 1 + Z.of_nat n) by lia.
Qed.
End Add.
