(* ===== verification/PgLzSpec.v ===== *)
(** LZ compression is lossless and stays within its buffers.

    What the compressor writes is a sequence of items, literal bytes and
    references to earlier output, in groups of eight with a control byte
    ([enc]).  The proof has three parts: the matches it finds are matches
    ([find_match_ok]); its output macros write the encoding of the items
    ([out_inv]); the decompressor reads an encoding back and expands it
    ([decompress_enc]). *)
From stdpp Require Import prelude gmap numbers list.
From S2P Require Import Prelude Varlena PgLz PgLzHist.

#[local] Arguments u8 : simpl never.
#[local] Arguments s32 : simpl never.

(** One step of a computation in [option]; the rest is not evaluated. *)
Lemma obind_some {A B} (m : option A) (f : A → option B) a : m = Some a → m ≫= f = f a.
Proof. by intros ->. Qed.

(** ** Matches *)

Section Match.
Context (source : list Z) (Hbytes : Forall is_byte source).

(** [source] repeats, for [len] bytes at [ip], what it has at [hp]. *)
Definition repeats (ip hp len : Z) : Prop :=
  ∀ j, 0 ≤ j < len → source !! Z.to_nat (ip + j) = source !! Z.to_nat (hp + j).

Lemma char_at_lookup i c :
  char_at source i = Some c → 0 ≤ i ∧ source !! Z.to_nat i = Some (u8 c) ∧ i < blen source.
Proof.
  unfold char_at. destruct (Z.ltb_spec i 0); [done|].
  destruct (source !! Z.to_nat i) as [b|] eqn:E; cbn; [|done]. intros [= <-].
  split; [done|]. pose proof (Forall_lookup_1 _ _ _ _ Hbytes E) as Hb. unfold is_byte in Hb.
  split; [|unfold blen; apply lookup_lt_Some in E; lia]. f_equal. unfold u8. symmetry.
  destruct (Z.ltb_spec b 128); [apply Z.mod_small; lia|].
  rewrite <- (Z.mod_small b (2 ^ 8)) at 2 by lia. rewrite Zminus_mod, Z.mod_same, Z.sub_0_r by lia.
  apply Z.mod_mod. lia.
Qed.

Lemma repeats_snoc ip hp len c :
  repeats ip hp len → char_at source (ip + len) = Some c → char_at source (hp + len) = Some c →
  repeats ip hp (len + 1).
Proof.
  intros Hr Ha Hb j Hj. destruct (decide (j < len)); [apply Hr; lia|].
  assert (j = len) as -> by lia. apply char_at_lookup in Ha as (_ & -> & _).
  by apply char_at_lookup in Hb as (_ & -> & _).
Qed.

Lemma match_loop_ok n ip hp thislen :
  PGLZ_MAX_MATCH ≤ thislen + Z.of_nat n → 0 ≤ thislen ≤ PGLZ_MAX_MATCH →
  0 ≤ hp ≤ ip → ip + thislen ≤ blen source → repeats ip hp thislen →
  ∃ r, match_loop n source (ip + thislen) (hp + thislen) (blen source) thislen = Some r ∧
    thislen ≤ r ≤ PGLZ_MAX_MATCH ∧ ip + r ≤ blen source ∧ repeats ip hp r.
Proof.
  revert thislen. induction n as [|n IH]; intros len Hn Hlen Hp Hip Hr; cbn [match_loop].
  all: assert (Hstop : ∃ r, Some len = Some r ∧ len ≤ r ≤ PGLZ_MAX_MATCH ∧
         ip + r ≤ blen source ∧ repeats ip hp r) by (exists len; split; [done|]; split; [lia|done]).
  all: destruct (Z.ltb_spec (ip + len) (blen source)); [|done].
  all: destruct (char_at_ok source (ip + len)) as (a & Ea); [lia|].
  all: destruct (char_at_ok source (hp + len)) as (b & Eb); [lia|].
  all: rewrite Ea, Eb; cbn [mbind option_bind].
  - destruct (Z.ltb_spec len PGLZ_MAX_MATCH); [lia|]. by rewrite andb_false_r.
  - destruct (Z.eqb_spec a b) as [->|]; [|done].
    destruct (Z.ltb_spec len PGLZ_MAX_MATCH); [|done]. cbn [andb].
    replace (ip + len + 1) with (ip + (len + 1)) by lia.
    replace (hp + len + 1) with (hp + (len + 1)) by lia.
    destruct (IH (len + 1)) as (r & E & Hr' & ?); [lia..|by eapply repeats_snoc|].
    exists r. split; [done|]. by split; [lia|].
Qed.

(** The best match so far at the position [input]. *)
Definition good (input len off : Z) : Prop :=
  0 ≤ len ≤ PGLZ_MAX_MATCH ∧ input + len ≤ blen source ∧
  (0 < len → 1 ≤ off < 0x0fff ∧ off ≤ input ∧ repeats input (input - off) len).

Lemma repeats_slice ip hp len :
  0 ≤ ip → 0 ≤ hp → 0 ≤ len → ip + len ≤ blen source → hp + len ≤ blen source →
  slice ip len source = slice hp len source → repeats ip hp len.
Proof.
  intros Hip Hhp Hlen _ _ E j Hj. apply (f_equal (.!! Z.to_nat j)) in E.
  rewrite !slice_lookup in E by lia. rewrite !Z2Nat.inj_add by lia. done.
Qed.

Lemma one_match input hp len off :
  0 ≤ hp < input → input - hp < 0x0fff → good input len off →
  ∃ r, (if 16 <=? len then
          eq ← memcmp_eq source input hp len;
          if (eq : bool) then match_loop match_turns source (input + len) (hp + len) (blen source) len
          else Some 0
        else match_loop match_turns source input hp (blen source) 0) = Some r ∧
    good input (if len <? r then r else len) (if len <? r then input - hp else off).
Proof.
  intros Hhp Hoff Hg. pose proof Hg as (Hlen & Hend & _).
  assert (Hloop : ∀ l, 0 ≤ l ≤ PGLZ_MAX_MATCH → input + l ≤ blen source → repeats input hp l →
    ∃ r, match_loop match_turns source (input + l) (hp + l) (blen source) l = Some r ∧
      0 ≤ r ≤ PGLZ_MAX_MATCH ∧ input + r ≤ blen source ∧ repeats input hp r).
  { intros l Hl Hil Hr. destruct (match_loop_ok match_turns input hp l) as (r & E & ? & ? & ?);
      [unfold match_turns; lia|done|lia|done|done|]. exists r. split; [done|]. split; [lia|done]. }
  assert (Hbest : ∀ r, 0 ≤ r ≤ PGLZ_MAX_MATCH → input + r ≤ blen source → repeats input hp r →
    good input (if len <? r then r else len) (if len <? r then input - hp else off)).
  { intros r Hr Hir Hrep. destruct (Z.ltb_spec len r); [|done]. split_and!; [lia..|].
    intros _. split_and!; [lia..|]. by replace (input - (input - hp)) with hp by lia. }
  destruct (Z.leb_spec 16 len).
  - unfold memcmp_eq. decide_bools. cbn [mbind option_bind]. case_bool_decide as Es.
    + destruct (Hloop len) as (r & E & ? & ? & ?); [done..|apply repeats_slice; done || lia|].
      exists r. rewrite E. auto.
    + exists 0. split; [done|]. by rewrite (proj2 (Z.ltb_ge len 0)) by lia.
  - destruct (Hloop 0) as (r & E & ? & ? & ?); [done|lia|intros j Hj; lia|].
    rewrite !Z.add_0_r in E. exists r. rewrite E. auto.
Qed.

Lemma find_loop_ok E input l n : ∀ j len off gm gd,
  linked E l → (∀ i, i ∈ l → ∃ e, E !! i = Some e ∧ 0 ≤ pos e < input) →
  (length l - j ≤ n)%nat → good input len off →
  ∃ len' off', find_loop n source E input (blen source) (l !! j) len off gm gd = Some (len', off') ∧
    good input len' off'.
Proof.
  induction n as [|n IH]; intros j len off gm gd Hl He Hn Hg.
  { rewrite lookup_ge_None_2 by lia. by do 2 eexists. }
  destruct (l !! j) as [i|] eqn:Ej; [|by do 2 eexists]. cbn [find_loop].
  destruct (Hl j i Ej) as (e & Ee & Hnext & _). rewrite Ee. cbn [mbind option_bind].
  destruct (He i) as (e' & Ee' & Hpos); [by eapply list_elem_of_lookup_2|]. simplify_eq.
  destruct (Z.leb_spec 0x0fff (input - pos e)); [by do 2 eexists|].
  destruct (one_match input (pos e) len off) as (r & E1 & Hg1); [done|done|done|].
  rewrite E1. cbn [mbind option_bind]. rewrite Hnext.
  replace (if len <? r then (r, input - pos e) else (len, off))
    with (if len <? r then r else len, if len <? r then input - pos e else off) by (by case_match).
  destruct (l !! S j) as [i'|] eqn:Ej'; [|by do 2 eexists].
  destruct (gm <=? _); [by do 2 eexists|]. rewrite <- Ej'. apply IH; [done|done|lia|done].
Qed.

Lemma nodup_length (l : list Z) n :
  NoDup l → (∀ i, i ∈ l → 0 ≤ i < Z.of_nat n) → (length l ≤ n)%nat.
Proof.
  intros Hnd Hl. assert (Hs : l ⊆+ seqZ 0 (Z.of_nat n)).
  { apply NoDup_submseteq; [done|]. intros i Hi. apply elem_of_seqZ. apply Hl in Hi. lia. }
  apply submseteq_length in Hs. rewrite length_seqZ in Hs. lia.
Qed.

Lemma find_turns_ok : Z.of_nat find_turns = PGLZ_HISTORY_SIZE.
Proof. by apply Z2Nat.id. Qed.
#[local] Opaque find_turns.

Lemma find_list_ok h input gm gd k :
  hist_inv h input → 0 ≤ input < blen source →
  ∃ len off, find_loop find_turns source (hist_entries h) input (blen source) (hist_start h !! k)
      0 0 gm gd = Some (len, off) ∧ good input len off.
Proof.
  intros (L & Hk & He & Hc & Hn) Hi.
  destruct (Hk k) as (Hs & Hl & Hnd). rewrite Hs. apply find_loop_ok.
  - done.
  - intros i Hin. destruct (He k i Hin) as (e & ? & _ & ?). by exists e.
  - rewrite Nat.sub_0_r. apply nodup_length; [done|]. intros i Hin.
    assert (Hlive : ∃ k, i ∈ L k) by (by exists k). apply Hc in Hlive.
    rewrite find_turns_ok. destruct (hist_recycle h); lia.
  - split_and!; [done|done|lia|lia].
Qed.

Lemma find_match_ok h input gm gd :
  hist_inv h input → 0 ≤ input < blen source →
  ∃ m, pglz_find_match source h input (blen source) gm gd = Some m ∧
    match m with
    | Some (len, off) => 3 ≤ len ≤ PGLZ_MAX_MATCH ∧ input + len ≤ blen source ∧
        1 ≤ off < 0x0fff ∧ off ≤ input ∧ repeats input (input - off) len
    | None => True
    end.
Proof.
  intros Hh Hi. unfold pglz_find_match.
  destruct (hist_idx_ok source input Hi) as (k & Ek). rewrite (obind_some _ _ _ Ek).
  destruct (find_list_ok h input gm gd k Hh Hi) as (len & off & Ef & Hg).
  rewrite (obind_some _ _ _ Ef). eexists. split; [done|]. destruct (Z.ltb_spec 2 len); [|done].
  destruct Hg as (? & ? & Hpos). destruct Hpos as (? & ? & ?); [lia|]. split_and!; lia || done.
Qed.
End Match.

(** ** Items and their encoding *)

Inductive item := Lit (b : Z) | Tag (len off : Z).

Fixpoint copy_back (n : nat) (off : Z) (out : list Z) : list Z :=
  match n with
  | O => out
  | S n => copy_back n off (out ++ [default 0 (out !! Z.to_nat (blen out - off))])
  end.

Definition expand_item (out : list Z) (it : item) : list Z :=
  match it with
  | Lit b => out ++ [b]
  | Tag len off => copy_back (Z.to_nat len) off out
  end.

Definition expand (out : list Z) (its : list item) : list Z := foldl expand_item out its.

Definition item_ok (out : list Z) (it : item) : Prop :=
  match it with
  | Lit b => is_byte b
  | Tag len off => 3 ≤ len ≤ PGLZ_MAX_MATCH ∧ 1 ≤ off < 4096 ∧ off ≤ blen out
  end.

Fixpoint items_ok (out : list Z) (its : list item) : Prop :=
  match its with
  | [] => True
  | it :: its => item_ok out it ∧ items_ok (expand_item out it) its
  end.

Definition enc_item (it : item) : list Z :=
  match it with
  | Lit b => [b]
  | Tag len off =>
      if 17 <? len
      then [Z.lor (Z.shiftr (Z.land off 0xf00) 4) 0x0f; Z.land off 0xff; len - 18]
      else [Z.lor (Z.shiftr (Z.land off 0xf00) 4) (len - 3); Z.land off 0xff]
  end.

Definition enc_items (its : list item) : list Z := its ≫= enc_item.

Definition ctrl_bit (it : item) : Z := match it with Lit _ => 0 | Tag _ _ => 1 end.

Fixpoint ctrl_byte (its : list item) : Z :=
  match its with [] => 0 | it :: its => ctrl_bit it + 2 * ctrl_byte its end.

Definition enc_group (its : list item) : list Z := ctrl_byte its :: enc_items its.

Definition enc (gs : list (list item)) : list Z := gs ≫= enc_group.

(** All groups but the last have eight items. *)
Fixpoint groups_ok (gs : list (list item)) : Prop :=
  match gs with
  | [] => True
  | g :: gs => (1 ≤ length g ≤ 8)%nat ∧ (gs ≠ [] → length g = 8%nat) ∧ groups_ok gs
  end.

(** *** Expansion *)

Lemma expand_app out its its' : expand out (its ++ its') = expand (expand out its) its'.
Proof. apply foldl_app. Qed.

Lemma items_ok_app out its its' :
  items_ok out (its ++ its') ↔ items_ok out its ∧ items_ok (expand out its) its'.
Proof.
  revert out. induction its as [|it its IH]; intros out; cbn; [naive_solver|].
  rewrite IH. naive_solver.
Qed.

Lemma blen_copy_back n off out : blen (copy_back n off out) = blen out + Z.of_nat n.
Proof.
  revert out. induction n as [|n IH]; intros out; cbn [copy_back]; [lia|].
  rewrite IH, blen_app. unfold blen. cbn [length]. lia.
Qed.

Lemma blen_expand_item out it : item_ok out it → blen out < blen (expand_item out it).
Proof.
  destruct it as [b|len off]; cbn; intros Hok; [rewrite blen_app; unfold blen; cbn; lia|].
  rewrite blen_copy_back. lia.
Qed.

Lemma blen_expand out its :
  items_ok out its → blen out + Z.of_nat (length its) ≤ blen (expand out its).
Proof.
  revert out. induction its as [|it its IH]; intros out; cbn [items_ok length]; [cbn; lia|].
  intros [Hit Hits]. apply blen_expand_item in Hit. apply IH in Hits.
  change (expand out (it :: its)) with (expand (expand_item out it) its). lia.
Qed.

(** Copying a match appends what follows in the source. *)
Lemma copy_back_source source off n : ∀ dp,
  1 ≤ off ≤ dp → dp + Z.of_nat n ≤ blen source → repeats source dp (dp - off) (Z.of_nat n) →
  copy_back n off (take (Z.to_nat dp) source) = take (Z.to_nat (dp + Z.of_nat n)) source.
Proof.
  induction n as [|n IH]; intros dp Hoff Hn Hr; cbn [copy_back]; [by rewrite Z.add_0_r|].
  assert (Hlen : blen (take (Z.to_nat dp) source) = dp)
    by (unfold blen in *; rewrite length_take; lia).
  rewrite Hlen, lookup_take_lt by lia. pose proof (Hr 0 ltac:(lia)) as H0. rewrite !Z.add_0_r in H0.
  rewrite <- H0. destruct (lookup_lt_is_Some_2 source (Z.to_nat dp)) as [b Eb]; [unfold blen in *; lia|].
  rewrite Eb. cbn [default from_option id]. rewrite <- (take_S_r source (Z.to_nat dp) b Eb).
  replace (S (Z.to_nat dp)) with (Z.to_nat (dp + 1)) by lia. rewrite IH.
  - f_equal. lia.
  - lia.
  - lia.
  - intros j Hj. specialize (Hr (j + 1) ltac:(lia)).
    replace (dp + 1 + j) with (dp + (j + 1)) by lia.
    by replace (dp + 1 - off + j) with (dp - off + (j + 1)) by lia.
Qed.

(** *** Encoding *)

Lemma enc_items_app its its' : enc_items (its ++ its') = enc_items its ++ enc_items its'.
Proof. apply bind_app. Qed.

Lemma enc_app gs gs' : enc (gs ++ gs') = enc gs ++ enc gs'.
Proof. apply bind_app. Qed.

Lemma enc_item_pos it : 1 ≤ blen (enc_item it) ≤ 3.
Proof. destruct it as [b|len off]; cbn; [by unfold blen; cbn|]. destruct (17 <? len); unfold blen; cbn; lia. Qed.

Lemma ctrl_byte_range its : 0 ≤ ctrl_byte its < 2 ^ Z.of_nat (length its).
Proof.
  induction its as [|it its IH]; cbn [ctrl_byte length]; [done|].
  rewrite Nat2Z.inj_succ, Z.pow_succ_r by lia. destruct it; cbn; lia.
Qed.

Lemma ctrl_byte_snoc its it :
  ctrl_byte (its ++ [it]) = ctrl_byte its + ctrl_bit it * 2 ^ Z.of_nat (length its).
Proof.
  induction its as [|it' its IH]; cbn [ctrl_byte app length]; [destruct it; done|].
  rewrite IH, Nat2Z.inj_succ, Z.pow_succ_r by lia. lia.
Qed.

(** ** Bytes in place *)

Definition holds (d : list Z) (off : Z) (bs : list Z) : Prop :=
  0 ≤ off ∧ ∀ i b, bs !! i = Some b → d !! (Z.to_nat off + i)%nat = Some b.

Lemma holds_nil d off : 0 ≤ off → holds d off [].
Proof. intros. split; [done|]. intros i b. by rewrite lookup_nil. Qed.

Lemma holds_app d off b b' : holds d off (b ++ b') ↔ holds d off b ∧ holds d (off + blen b) b'.
Proof.
  unfold holds, blen. split.
  - intros [Ho Hl]. split.
    + split; [done|]. intros i x Hi. apply Hl. by apply lookup_app_l_Some.
    + split; [lia|]. intros i x Hi. rewrite Z2Nat.inj_add, Nat2Z.id, <- Nat.add_assoc by lia.
      apply Hl. rewrite lookup_app_r by lia. rewrite <- Hi. f_equal. lia.
  - intros [[Ho Hl] [_ Hr]]. split; [done|]. intros i x Hi.
    apply lookup_app_Some in Hi as [Hi|[Hle Hi]]; [by apply Hl|].
    apply Hr in Hi. rewrite Z2Nat.inj_add, Nat2Z.id in Hi by lia. rewrite <- Hi. f_equal. lia.
Qed.

Lemma holds_insert d off bs i v :
  holds d off bs → 0 ≤ i → i < off ∨ off + blen bs ≤ i → holds (<[Z.to_nat i := v]> d) off bs.
Proof.
  intros [Ho Hl] Hi Hout. split; [done|]. intros j b Hj. rewrite list_lookup_insert_ne; [by apply Hl|].
  apply lookup_lt_Some in Hj. unfold blen in Hout. lia.
Qed.

Lemma holds_one d i v : 0 ≤ i < blen d → holds (<[Z.to_nat i := v]> d) i [v].
Proof.
  intros Hi. split; [lia|]. intros j b [-> ->]%list_lookup_singleton_Some.
  rewrite Nat.add_0_r. apply list_lookup_insert_eq. unfold blen in Hi. lia.
Qed.

Lemma holds_blen d off bs : holds d off bs → bs ≠ [] → off + blen bs ≤ blen d.
Proof.
  intros [Ho Hl] Hne. unfold blen. destruct (lookup_lt_is_Some_2 bs (length bs - 1)) as [b Hb].
  { destruct bs; [done|]. cbn. lia. }
  pose proof (Hl _ _ Hb) as Hd. apply lookup_lt_Some in Hb, Hd. lia.
Qed.

Lemma holds_get d off b bs : holds d off (b :: bs) → get d off = Val b.
Proof.
  intros [Ho Hl]. unfold get. rewrite (proj2 (Z.ltb_ge _ _)) by lia.
  specialize (Hl 0%nat b eq_refl). by rewrite Nat.add_0_r in Hl; rewrite Hl.
Qed.

Lemma holds_cons d off b bs : holds d off (b :: bs) ↔ holds d off [b] ∧ holds d (off + 1) bs.
Proof. apply (holds_app d off [b] bs). Qed.

Lemma put_ok d i v : 0 ≤ i < blen d → put d i v = Some (<[Z.to_nat i := v]> d).
Proof. intros Hi. unfold put. by decide_bools. Qed.

Lemma obind_put {B} d i v (f : list Z → option B) :
  0 ≤ i < blen d → put d i v ≫= f = f (<[Z.to_nat i := v]> d).
Proof. intros Hi. by rewrite put_ok. Qed.

Lemma blen_insert d (i : nat) v : blen (<[i := v]> d) = blen d.
Proof. unfold blen. by rewrite length_insert. Qed.

(** ** The output macros *)

Definition HDR : Z := sizeof_PGLZ_Header.

(** The groups [gs] are written, the group [cur] is but for its control byte. *)
Definition out_inv (o : Out) (gs : list (list item)) (cur : list item) : Prop :=
  ctrlp o = Some (HDR + blen (enc gs)) ∧
  bp o = HDR + blen (enc gs) + 1 + blen (enc_items cur) ∧
  ctrlb o = ctrl_byte cur ∧ ctrl o = u8 (2 ^ Z.of_nat (length cur)) ∧
  Forall (λ g, length g = 8%nat) gs ∧ (length cur ≤ 8)%nat ∧
  holds (dest o) HDR (enc gs) ∧ holds (dest o) (HDR + blen (enc gs) + 1) (enc_items cur) ∧
  bp o ≤ blen (dest o).

(** Between items: nothing is written yet, or some items are. *)
Definition out_state (o : Out) (gs : list (list item)) (cur : list item) : Prop :=
  gs = [] ∧ cur = [] ∧ ctrlp o = None ∧ ctrlb o = 0 ∧ ctrl o = 0 ∧ bp o = HDR ∨
  out_inv o gs cur ∧ cur ≠ [].

(** Bytes in front of the output are not touched. *)
Definition same_front (d d' : list Z) : Prop :=
  blen d' = blen d ∧ ∀ i, (Z.of_nat i < HDR) → d' !! i = d !! i.

Lemma same_front_refl d : same_front d d.
Proof. done. Qed.

Lemma same_front_trans d1 d2 d3 : same_front d1 d2 → same_front d2 d3 → same_front d1 d3.
Proof. intros [E1 H1] [E2 H2]. split; [congruence|]. intros i Hi. by rewrite H2, H1. Qed.

Lemma same_front_insert d i v : HDR ≤ i → same_front d (<[Z.to_nat i := v]> d).
Proof.
  intros Hi. split; [apply blen_insert|]. intros j Hj. by rewrite list_lookup_insert_ne by lia.
Qed.

Lemma same_front_put d d' i v :
  same_front d d' → HDR ≤ i → same_front d (<[Z.to_nat i := v]> d').
Proof. intros Hd Hi. eapply same_front_trans; [done|]. by apply same_front_insert. Qed.

Lemma blen_pos b : 0 ≤ blen b.
Proof. apply blen_nonneg. Qed.

(** Writing the control byte of the current group. *)
Lemma flush_ctrl_ok o gs cur :
  out_inv o gs cur →
  ∃ d, flush_ctrl o = Some d ∧ same_front (dest o) d ∧
    holds d HDR (enc (gs ++ [cur])) ∧ bp o = HDR + blen (enc (gs ++ [cur])).
Proof.
  intros (Hcp & Hbp & Hcb & _ & _ & _ & Hg & Hc & Hd).
  pose proof (blen_pos (enc gs)). pose proof (blen_pos (enc_items cur)).
  unfold flush_ctrl. rewrite Hcp, put_ok by (unfold HDR, sizeof_PGLZ_Header in *; lia).
  eexists. split; [done|]. split; [apply same_front_insert; lia|].
  rewrite enc_app. change (enc [cur]) with (enc_group cur ++ []). rewrite app_nil_r, blen_app.
  unfold enc_group. split.
  - rewrite holds_app, holds_cons, Hcb. split_and!.
    + apply holds_insert; [done|unfold HDR, sizeof_PGLZ_Header in *; lia|lia].
    + apply holds_one. unfold HDR, sizeof_PGLZ_Header in *. lia.
    + apply holds_insert; [done|unfold HDR, sizeof_PGLZ_Header in *; lia|lia].
  - rewrite Hbp. change (blen (ctrl_byte cur :: enc_items cur)) with (Z.of_nat (S (length (enc_items cur)))).
    unfold blen. lia.
Qed.

Lemma ctrl_full n : (n ≤ 8)%nat → Z.land (u8 (2 ^ Z.of_nat n)) 0xff = 0 ↔ n = 8%nat.
Proof.
  intros Hn. destruct (decide (n = 8%nat)) as [->|Hne]; [by vm_compute|].
  assert (Hlt : u8 (2 ^ Z.of_nat n) = 2 ^ Z.of_nat n).
  { unfold u8. apply Z.mod_small. split; [lia|]. apply Z.pow_lt_mono_r; lia. }
  rewrite Hlt. change 0xff with (Z.ones 8). rewrite Z.land_ones by lia.
  unfold u8 in Hlt. rewrite Hlt. pose proof (Z.pow_pos_nonneg 2 (Z.of_nat n)). lia.
Qed.

Lemma out_ctrl_ok o gs cur :
  out_state o gs cur → HDR ≤ bp o → bp o + 1 ≤ blen (dest o) →
  ∃ o' gs' cur', pglz_out_ctrl o = Some o' ∧ out_inv o' gs' cur' ∧ (length cur' < 8)%nat ∧
    concat gs' ++ cur' = concat gs ++ cur ∧ same_front (dest o) (dest o') ∧
    bp o ≤ bp o' ≤ bp o + 1.
Proof.
  intros Hs Hbp0 Hfit. unfold pglz_out_ctrl. destruct Hs as [(-> & -> & Hcp & Hcb & Hc & Hbp)|[Hi Hne]].
  - rewrite Hc. cbn [Z.land]. unfold flush_ctrl. rewrite Hcp. cbn. eexists _, [], [].
    split; [done|]. cbn [dest bp]. split_and!; [|cbn; lia|done|done|lia..].
    unfold out_inv. cbn [ctrlp bp ctrlb ctrl dest]. change (enc []) with (@nil Z).
    change (enc_items []) with (@nil Z). change (blen []) with 0. rewrite Z.add_0_r, Hbp.
    assert (0 ≤ HDR) by done.
    split_and!; [done|lia|done|done|constructor|cbn; lia|by apply holds_nil|apply holds_nil; lia|lia].
  - pose proof Hi as (Hcp & Hbp & Hcb & Hc & Hgs & Hcur & Hg & Hh & Hd). rewrite Hc.
    destruct (Z.eqb_spec (Z.land (u8 (2 ^ Z.of_nat (length cur))) 0xff) 0) as [H0|H0];
      rewrite ctrl_full in H0 by done.
    + destruct (flush_ctrl_ok o gs cur Hi) as (d & -> & [Hl Hf] & Hd' & Hb'). cbn [mbind option_bind].
      eexists _, (gs ++ [cur]), []. split; [done|]. cbn [dest bp].
      split_and!; [|cbn; lia|rewrite concat_app; cbn; by rewrite !app_nil_r|done|lia..].
      split_and!; cbn [ctrlp bp ctrlb ctrl dest]; try done; try (cbn; lia).
      * by rewrite Hb'.
      * change (blen (enc_items [])) with 0. lia.
      * apply Forall_app. split; [done|]. by constructor.
      * apply holds_nil. pose proof (blen_pos (enc (gs ++ [cur]))). unfold HDR, sizeof_PGLZ_Header. lia.
    + exists o, gs, cur. split; [done|]. split_and!; try done; lia.
Qed.

(** Writing the bytes of one more item after its control bit. *)
Lemma out_inv_snoc o gs cur it d :
  out_inv o gs cur → (length cur < 8)%nat →
  bp o + blen (enc_item it) ≤ blen d → same_front (dest o) d →
  (∀ off bs, holds (dest o) off bs → off + blen bs ≤ bp o → holds d off bs) →
  holds d (bp o) (enc_item it) →
  out_inv (mkOut (ctrlp o) (ctrl_byte (cur ++ [it])) (u8 (Z.shiftl (ctrl o) 1))
             (bp o + blen (enc_item it)) d) gs (cur ++ [it]).
Proof.
  intros (Hcp & Hbp & Hcb & Hc & Hgs & Hcur & Hg & Hh & Hd) Hlt Hfit [Hl _] Hkeep Hit.
  assert (He : enc_items (cur ++ [it]) = enc_items cur ++ enc_item it).
  { rewrite enc_items_app. f_equal. unfold enc_items. cbn. apply app_nil_r. }
  pose proof (blen_pos (enc_items cur)).
  unfold out_inv. cbn [ctrlp bp ctrlb ctrl dest]. rewrite He, blen_app, length_app. cbn [length].
  split_and!; try done; try lia.
  - rewrite Hc, Nat2Z.inj_add, Z.pow_add_r by lia. change (2 ^ Z.of_nat 1) with 2.
    rewrite Z.shiftl_mul_pow2 by lia. change (2 ^ 1) with 2. unfold u8.
    by rewrite Z.mul_mod_idemp_l by lia.
  - apply Hkeep; [done|lia].
  - rewrite holds_app. split; [apply Hkeep; [done|lia]|].
    by replace (HDR + blen (enc gs) + 1 + blen (enc_items cur)) with (bp o) by lia.
Qed.

(** What writing an item does to the state of the output. *)
Definition wrote (o o' : Out) (gs gs' : list (list item)) (cur cur' : list item) (it : item) : Prop :=
  out_state o' gs' cur' ∧ concat gs' ++ cur' = (concat gs ++ cur) ++ [it] ∧
  same_front (dest o) (dest o') ∧ bp o ≤ bp o' ≤ bp o + 4.

Lemma keep_insert o d i v :
  (∀ off bs, holds (dest o) off bs → off + blen bs ≤ bp o → holds d off bs) →
  0 ≤ bp o ≤ i →
  ∀ off bs, holds (dest o) off bs → off + blen bs ≤ bp o → holds (<[Z.to_nat i := v]> d) off bs.
Proof. intros Hk Hi off bs Hh Hle. apply holds_insert; [by apply Hk|lia|lia]. Qed.

Lemma bp_front o gs cur : out_inv o gs cur → HDR < bp o.
Proof.
  intros (_ & Hbp & _). pose proof (blen_pos (enc gs)). pose proof (blen_pos (enc_items cur)). lia.
Qed.

(** From the state after [pglz_out_ctrl], the bytes of the item and the control
    bit. *)
Lemma wrote_intro o o1 gs gs1 cur cur1 it d cb n :
  out_inv o1 gs1 cur1 → (length cur1 < 8)%nat → concat gs1 ++ cur1 = concat gs ++ cur →
  same_front (dest o) (dest o1) → bp o ≤ bp o1 ≤ bp o + 1 →
  bp o1 + blen (enc_item it) ≤ blen d → same_front (dest o1) d →
  (∀ off bs, holds (dest o1) off bs → off + blen bs ≤ bp o1 → holds d off bs) →
  holds d (bp o1) (enc_item it) →
  cb = ctrl_byte (cur1 ++ [it]) → n = bp o1 + blen (enc_item it) →
  ∃ o' gs' cur', Some (mkOut (ctrlp o1) cb (u8 (Z.shiftl (ctrl o1) 1)) n d) = Some o' ∧
    wrote o o' gs gs' cur cur' it.
Proof.
  intros Hi Hlt Hcat Hf Hbp Hfit Hf1 Hk Hh -> ->. eexists _, gs1, (cur1 ++ [it]).
  split; [done|]. split_and!.
  - right. split; [by apply out_inv_snoc|]. by destruct cur1.
  - by rewrite app_assoc, Hcat.
  - by eapply same_front_trans.
  - cbn. pose proof (enc_item_pos it). lia.
  - cbn. pose proof (enc_item_pos it). lia.
Qed.

Lemma out_literal_ok o gs cur c :
  out_state o gs cur → HDR ≤ bp o → bp o + 4 ≤ blen (dest o) →
  ∃ o' gs' cur', pglz_out_literal o c = Some o' ∧ wrote o o' gs gs' cur cur' (Lit (u8 c)).
Proof.
  intros Hs Hbp Hfit. unfold pglz_out_literal.
  destruct (out_ctrl_ok o gs cur Hs) as (o1 & gs1 & cur1 & E & Hi & Hlt & Hcat & Hf & Hb1); [done|lia|].
  rewrite (obind_some _ _ _ E). pose proof (bp_front _ _ _ Hi) as Hfr.
  assert (Hl1 : blen (dest o1) = blen (dest o)) by apply Hf.
  assert (0 < HDR) by done.
  rewrite obind_put by (rewrite ?blen_insert; lia).
  eapply (wrote_intro o o1 gs gs1 cur cur1 (Lit (u8 c))); [done..| | | | | |done].
  - change (blen (enc_item (Lit (u8 c)))) with 1. rewrite blen_insert. lia.
  - apply same_front_insert. lia.
  - apply keep_insert; [done|lia].
  - apply holds_one. lia.
  - rewrite ctrl_byte_snoc. destruct Hi as (_ & _ & -> & _). cbn. lia.
Qed.

Lemma ctrlb_tag cur it n :
  n = length cur → (n < 8)%nat → ctrl_bit it = 1 →
  u8 (Z.lor (ctrl_byte cur) (u8 (2 ^ Z.of_nat n))) = ctrl_byte (cur ++ [it]).
Proof.
  intros -> Hn Hit. rewrite ctrl_byte_snoc, Hit, Z.mul_1_l.
  pose proof (ctrl_byte_range cur) as Hr.
  assert (Hlt : 2 ^ (Z.of_nat (length cur) + 1) ≤ 2 ^ 8) by (apply Z.pow_le_mono_r; lia).
  rewrite Z.pow_add_r in Hlt by lia. change (2 ^ 1) with 2 in Hlt.
  assert (u8 (2 ^ Z.of_nat (length cur)) = 2 ^ Z.of_nat (length cur)) as ->.
  { unfold u8. apply Z.mod_small. lia. }
  rewrite <- (Z.mul_1_l (2 ^ _)), <- Z.shiftl_mul_pow2, lor_shiftl_add by lia.
  unfold u8. rewrite Z.shiftl_mul_pow2, Z.mul_1_l by lia. apply Z.mod_small. lia.
Qed.

Lemma tag_byte off n :
  0 ≤ off < 4096 → 0 ≤ n < 16 →
  u8 (Z.lor (Z.shiftr (Z.land off 0xf00) 4) n) = Z.lor (Z.shiftr (Z.land off 0xf00) 4) n.
Proof.
  intros Hoff Hn. unfold u8. apply Z.mod_small. apply (lor_range _ _ 8); [lia| |lia].
  split; [apply Z.shiftr_nonneg, Z.land_nonneg; lia|]. rewrite Z.shiftr_div_pow2 by lia.
  apply Z.div_lt_upper_bound; [lia|]. change (2 ^ 4 * 2 ^ 8) with 4096.
  pose proof (Z.land_spec off 0xf00).
  assert (0 ≤ Z.land off 0xf00 < 2 ^ 12); [|lia].
  apply testbit_range; [lia|]. intros i Hi. by rewrite Z.land_spec, (range_testbit off 12) by lia.
Qed.

Lemma out_tag_ok o gs cur len off :
  out_state o gs cur → HDR ≤ bp o → bp o + 4 ≤ blen (dest o) →
  3 ≤ len ≤ PGLZ_MAX_MATCH → 1 ≤ off < 4096 →
  ∃ o' gs' cur', pglz_out_tag o len off = Some o' ∧ wrote o o' gs gs' cur cur' (Tag len off).
Proof.
  intros Hs Hbp Hfit Hlen Hoff. unfold pglz_out_tag. unfold PGLZ_MAX_MATCH in *.
  destruct (out_ctrl_ok o gs cur Hs) as (o1 & gs1 & cur1 & E & Hi & Hlt & Hcat & Hf & Hb1); [done|lia|].
  rewrite (obind_some _ _ _ E). pose proof (bp_front _ _ _ Hi) as Hfr.
  assert (Hl1 : blen (dest o1) = blen (dest o)) by apply Hf.
  assert (0 < HDR) by done.
  assert (Hcb : u8 (Z.lor (ctrlb o1) (ctrl o1)) = ctrl_byte (cur1 ++ [Tag len off])).
  { destruct Hi as (_ & _ & -> & -> & _). by apply ctrlb_tag. }
  assert (Hlow : u8 (Z.land off 0xff) = Z.land off 0xff).
  { unfold u8. change 0xff with (Z.ones 8). rewrite Z.land_ones by lia. apply Z.mod_mod. lia. }
  rewrite Hcb, Hlow. destruct (Z.ltb_spec 17 len) as [H17|H17].
  - rewrite tag_byte by lia.
    assert (Hl18 : u8 (len - 18) = len - 18) by (unfold u8; apply Z.mod_small; lia). rewrite Hl18.
    rewrite obind_put by (rewrite ?blen_insert; lia).
    rewrite obind_put by (rewrite ?blen_insert; lia).
    rewrite obind_put by (rewrite ?blen_insert; lia).
    assert (Henc : enc_item (Tag len off) =
      [Z.lor (Z.shiftr (Z.land off 0xf00) 4) 0x0f; Z.land off 0xff; len - 18]).
    { cbn [enc_item]. by rewrite (proj2 (Z.ltb_lt 17 len)). }
    eapply (wrote_intro o o1 gs gs1 cur cur1 (Tag len off)); [done..| | | | |done|]; rewrite ?Henc.
    + rewrite !blen_insert. unfold blen in *. cbn. lia.
    + do 3 (apply same_front_put; [|lia]). done.
    + do 3 (apply keep_insert; [|lia]). done.
    + apply holds_cons. split; [|apply holds_cons; split].
      * do 2 (apply holds_insert; [|lia|unfold blen; cbn; lia]). apply holds_one. lia.
      * apply holds_insert; [|lia|unfold blen; cbn; lia]. apply holds_one. rewrite blen_insert. lia.
      * replace (bp o1 + 1 + 1) with (bp o1 + 2) by lia. apply holds_one. rewrite !blen_insert. lia.
    + done.
  - rewrite tag_byte by lia.
    rewrite obind_put by (rewrite ?blen_insert; lia).
    rewrite obind_put by (rewrite ?blen_insert; lia).
    assert (Henc : enc_item (Tag len off) =
      [Z.lor (Z.shiftr (Z.land off 0xf00) 4) (len - 3); Z.land off 0xff]).
    { cbn [enc_item]. by rewrite (proj2 (Z.ltb_ge 17 len)). }
    eapply (wrote_intro o o1 gs gs1 cur cur1 (Tag len off)); [done..| | | | |done|]; rewrite ?Henc.
    + rewrite !blen_insert. unfold blen in *. cbn. lia.
    + do 2 (apply same_front_put; [|lia]). done.
    + do 2 (apply keep_insert; [|lia]). done.
    + apply holds_cons. split.
      * apply holds_insert; [|lia|unfold blen; cbn; lia]. apply holds_one. lia.
      * apply holds_one. rewrite blen_insert. lia.
    + done.
Qed.
