(* ===== verification/PgLzRound.v ===== *)
(** The round trip of LZ compression, and what the decompressor does with
    bytes that no compressor wrote. *)
From stdpp Require Import prelude gmap numbers list.
From S2P Require Import Prelude Varlena PgLz PgLzHist PgLzSpec.

#[local] Arguments u8 : simpl never.
#[local] Arguments s32 : simpl never.

(** ** Reading an encoding *)

Lemma set_dest_ok d i v : 0 ≤ i < blen d → set d i v = Val (<[Z.to_nat i := v]> d).
Proof. intros Hi. unfold set. by rewrite put_ok. Qed.

Lemma holds_snoc d out v :
  holds d 0 out → blen out < blen d → holds (<[Z.to_nat (blen out) := v]> d) 0 (out ++ [v]).
Proof.
  intros Hh Hl. pose proof (blen_nonneg out). apply holds_app. rewrite Z.add_0_l. split.
  - apply holds_insert; [done|lia|lia].
  - apply holds_one. lia.
Qed.

Lemma copy_loop_ok n off : ∀ d out,
  holds d 0 out → 1 ≤ off ≤ blen out → blen out + Z.of_nat n ≤ blen d →
  ∃ d', copy_loop n d (blen out) off = Val d' ∧ blen d' = blen d ∧ holds d' 0 (copy_back n off out).
Proof.
  induction n as [|n IH]; intros d out Hh Hoff Hn; cbn [copy_loop copy_back]; [by exists d|].
  destruct (lookup_lt_is_Some_2 out (Z.to_nat (blen out - off))) as [v Ev]; [unfold blen in *; lia|].
  assert (Hget : get d (blen out - off) = Val v).
  { unfold get. rewrite (proj2 (Z.ltb_ge _ _)) by lia. destruct Hh as [_ Hh].
    specialize (Hh _ _ Ev). rewrite Nat.add_0_l in Hh. by rewrite Hh. }
  rewrite Hget, Ev. cbn [access_bind default from_option id]. rewrite set_dest_ok by (unfold blen in *; lia).
  cbn [access_bind]. set (d1 := <[Z.to_nat (blen out) := v]> d).
  assert (Hl1 : blen d1 = blen d) by apply blen_insert.
  assert (Hb : blen (out ++ [v]) = blen out + 1) by (rewrite blen_app; done).
  destruct (IH d1 (out ++ [v])) as (d' & E & Hl & Hd').
  - apply holds_snoc; [done|lia].
  - lia.
  - lia.
  - rewrite Hb in E. exists d'. split; [done|]. split; [lia|done].
Qed.

(** The two bytes of a tag give back the offset and the length nibble. *)
Lemma tag_decode off n :
  0 ≤ off < 4096 → 0 ≤ n < 16 →
  Z.land (Z.lor (Z.shiftr (Z.land off 0xf00) 4) n) 0x0f = n ∧
  Z.lor (Z.shiftl (Z.land (Z.lor (Z.shiftr (Z.land off 0xf00) 4) n) 0xf0) 4) (Z.land off 0xff) = off.
Proof.
  intros Hoff Hn. change 0xf00 with (Z.shiftl (Z.ones 4) 8). change 0x0f with (Z.ones 4).
  change 0xf0 with (Z.shiftl (Z.ones 4) 4). change 0xff with (Z.ones 8).
  assert (Ho : 0 ≤ off < 2 ^ 12) by done. assert (Hn' : 0 ≤ n < 2 ^ 4) by done.
  assert (Hones : ∀ w i, 0 ≤ w → Z.testbit (Z.ones w) i = (0 <=? i) && (i <? w)).
  { intros w i Hw. destruct (Z.leb_spec 0 i); cbn; [|by rewrite Z.testbit_neg_r].
    destruct (Z.ltb_spec i w); [by rewrite Z.ones_spec_low by lia|by rewrite Z.ones_spec_high by lia]. }
  split; apply Z.bits_inj'; intros i Hi.
  - rewrite !Z.land_spec, Z.lor_spec, Z.shiftr_spec, !Z.land_spec, Z.shiftl_spec, !Hones by lia.
    destruct (decide (i < 4)); decide_bools; [done|]. by rewrite (range_testbit n 4) by lia.
  - rewrite Z.lor_spec, Z.shiftl_spec, !Z.land_spec, Z.lor_spec by lia.
    destruct (decide (i < 4)).
    { rewrite (Z.shiftl_spec_low (Z.ones 4)) by lia.
      rewrite andb_false_r, orb_false_l, Hones by lia. by decide_bools. }
    rewrite Z.shiftr_spec, Z.land_spec, !Z.shiftl_spec, !Hones by lia.
    replace (i - 4 + 4) with i by lia.
    destruct (decide (i < 8)); [decide_bools; rewrite ?orb_false_l; by decide_bools|].
    rewrite (range_testbit n 4) by lia. destruct (decide (i < 12)); decide_bools; [done|].
    by rewrite (range_testbit off 12) by lia.
Qed.

(** One group: the items, from their control bits. *)
Section Items.
Context (source : list Z) (srcend destend : Z).

Lemma item_loop_literal n c sp dp d b :
  sp < srcend → Z.land c 1 = 0 → holds source sp [b] → 0 ≤ dp < destend → destend ≤ blen d →
  item_loop (S n) source srcend destend c sp dp d =
    item_loop n source srcend destend (Z.shiftr c 1) (sp + 1) (dp + 1) (<[Z.to_nat dp := b]> d).
Proof.
  intros Hsp Hc Hs Hdp Hd. cbn [item_loop]. rewrite (proj2 (Z.ltb_lt sp srcend)), Hc by done.
  cbn [negb Z.eqb]. rewrite (proj2 (Z.leb_gt destend dp)) by lia.
  rewrite (holds_get _ _ _ _ Hs). cbn [access_bind]. by rewrite set_dest_ok by lia.
Qed.

Lemma item_loop_tag n c sp dp d len off :
  sp < srcend → Z.land c 1 = 1 → 3 ≤ len ≤ PGLZ_MAX_MATCH → 1 ≤ off < 4096 →
  holds source sp (enc_item (Tag len off)) → dp + len ≤ destend →
  item_loop (S n) source srcend destend c sp dp d =
    access_bind (copy_loop (Z.to_nat len) d dp off) (λ d1,
      item_loop n source srcend destend (Z.shiftr c 1) (sp + blen (enc_item (Tag len off)))
        (dp + len) d1).
Proof.
  intros Hsp Hc Hlen Hoff Hs Hfit. unfold PGLZ_MAX_MATCH in Hlen.
  cbn [item_loop]. rewrite (proj2 (Z.ltb_lt sp srcend)), Hc by done. cbn [negb Z.eqb].
  cbn [enc_item] in Hs |- *. revert Hs. destruct (Z.ltb_spec 17 len) as [H17|H17]; intros Hs.
  - destruct (tag_decode off 0x0f) as [Hnib Hoff']; [lia|lia|].
    pose proof (holds_get _ _ _ _ Hs) as G0. apply holds_cons in Hs as [_ Hs].
    pose proof (holds_get _ _ _ _ Hs) as G1. apply holds_cons in Hs as [_ Hs].
    pose proof (holds_get _ _ _ _ Hs) as G2.
    rewrite G0, G1. cbn [access_bind]. rewrite Hnib, Hoff'.
    change (15 + 3 =? 18) with true. cbn beta iota zeta.
    replace (sp + 2) with (sp + 1 + 1) by lia. rewrite G2. cbn [access_bind]. cbn beta iota zeta.
    replace (15 + 3 + (len - 18)) with len by lia.
    rewrite (proj2 (Z.ltb_ge destend (dp + len))) by lia.
    by replace (sp + 1 + 1 + 1) with (sp + 3) by lia.
  - destruct (tag_decode off (len - 3)) as [Hnib Hoff']; [lia|lia|].
    pose proof (holds_get _ _ _ _ Hs) as G0. apply holds_cons in Hs as [_ Hs].
    pose proof (holds_get _ _ _ _ Hs) as G1.
    rewrite G0, G1. cbn [access_bind]. rewrite Hnib, Hoff'.
    replace (len - 3 + 3) with len by lia. rewrite (proj2 (Z.eqb_neq len 18)) by lia.
    cbn [access_bind]. cbn beta iota zeta. by rewrite (proj2 (Z.ltb_ge destend (dp + len))) by lia.
Qed.

Lemma ctrl_byte_cons it its :
  Z.land (ctrl_byte (it :: its)) 1 = ctrl_bit it ∧ Z.shiftr (ctrl_byte (it :: its)) 1 = ctrl_byte its.
Proof.
  cbn [ctrl_byte]. change 1 with (Z.ones 1) at 1. rewrite Z.land_ones, Z.shiftr_div_pow2 by lia.
  change (2 ^ 1) with 2. split; destruct it; cbn [ctrl_bit]; divlia.
Qed.

Lemma item_loop_ok its : ∀ n sp out d,
  (length its ≤ n)%nat → items_ok out its → holds source sp (enc_items its) →
  sp + blen (enc_items its) ≤ srcend →
  ((length its < n)%nat → sp + blen (enc_items its) = srcend) →
  holds d 0 out → blen (expand out its) ≤ destend → destend ≤ blen d →
  ∃ d', item_loop n source srcend destend (ctrl_byte its) sp (blen out) d
      = Val (sp + blen (enc_items its), blen (expand out its), d') ∧
    blen d' = blen d ∧ holds d' 0 (expand out its).
Proof.
  induction its as [|it its IH]; intros n sp out d Hn Hok Hsrc Hend Hlast Hd Hexp Hdst.
  { exists d. change (blen (enc_items [])) with 0 in *. rewrite Z.add_0_r in *. split; [|done].
    destruct n as [|n]; [done|]. cbn [item_loop]. rewrite (proj2 (Z.ltb_ge _ _)); [done|].
    rewrite Hlast; [done|]. cbn. lia. }
  destruct n as [|n]; [cbn in Hn; lia|]. cbn [length] in Hn, Hlast. destruct Hok as [Hit Hits].
  change (expand out (it :: its)) with (expand (expand_item out it) its) in *.
  change (enc_items (it :: its)) with (enc_item it ++ enc_items its) in *.
  rewrite blen_app in *. pose proof (enc_item_pos it). pose proof (blen_nonneg (enc_items its)).
  rewrite holds_app in Hsrc. destruct Hsrc as [Hsi Hss].
  pose proof (blen_expand _ _ Hits). pose proof (blen_expand_item _ _ Hit).
  pose proof (blen_nonneg out). destruct (ctrl_byte_cons it its) as [Hbit Hshift].
  assert (Hstep : ∃ d1, item_loop (S n) source srcend destend (ctrl_byte (it :: its)) sp (blen out) d =
      item_loop n source srcend destend (ctrl_byte its) (sp + blen (enc_item it))
        (blen (expand_item out it)) d1 ∧ blen d1 = blen d ∧ holds d1 0 (expand_item out it)).
  { destruct it as [b|len off].
    - eexists. rewrite (item_loop_literal _ _ _ _ _ b) by (done || lia). rewrite Hshift.
      cbn [expand_item enc_item]. rewrite blen_app. split; [done|]. split; [apply blen_insert|].
      apply holds_snoc; [done|lia].
    - destruct Hit as (Hlen & Hoff & Hback).
      assert (Hb : blen (expand_item out (Tag len off)) = blen out + len)
        by (cbn; rewrite blen_copy_back; lia).
      destruct (copy_loop_ok (Z.to_nat len) off d out) as (d1 & E & Hl & Hh); [done|lia|lia|].
      exists d1. rewrite (item_loop_tag _ _ _ _ _ len off) by (done || lia). by rewrite E, Hshift, Hb. }
  destruct Hstep as (d1 & -> & Hl1 & Hd1).
  destruct (IH n (sp + blen (enc_item it)) (expand_item out it) d1) as (d' & E & Hl & Hd');
    [lia|done|done|lia|intros Hlt; rewrite <- Z.add_assoc; apply Hlast; lia|done|done|lia|].
  exists d'. rewrite E, Z.add_assoc. split; [done|]. split; [lia|done].
Qed.

(** All groups. *)
Lemma decompress_loop_ok gs : ∀ n sp out d,
  (length gs ≤ n)%nat → groups_ok gs → items_ok out (concat gs) →
  holds source sp (enc gs) → sp + blen (enc gs) = srcend →
  holds d 0 out → blen (expand out (concat gs)) = destend → destend ≤ blen d →
  ∃ d', decompress_loop n source srcend destend sp (blen out) d = Val (srcend, destend, d') ∧
    blen d' = blen d ∧ holds d' 0 (expand out (concat gs)).
Proof.
  induction gs as [|g gs IH]; intros n sp out d Hn Hgs Hok Hsrc Hend Hd Hexp Hdst.
  { exists d. change (blen (enc [])) with 0 in Hend. rewrite Z.add_0_r in Hend. cbn in Hexp.
    subst. split; [|done]. destruct n; cbn [decompress_loop];
      by rewrite (proj2 (Z.ltb_ge srcend srcend)) by lia. }
  destruct n as [|n]; [cbn in Hn; lia|]. cbn [length] in Hn. destruct Hgs as (Hg & Hfull & Hgs).
  cbn [concat] in *. rewrite items_ok_app in Hok. destruct Hok as [Hokg Hok].
  rewrite expand_app in *. change (enc (g :: gs)) with (ctrl_byte g :: enc_items g ++ enc gs) in *.
  apply holds_cons in Hsrc as [Hc Hsrc]. apply holds_app in Hsrc as [Hsg Hsrc].
  assert (Hbl : blen (ctrl_byte g :: enc_items g ++ enc gs) = 1 + (blen (enc_items g) + blen (enc gs))).
  { rewrite <- blen_app. unfold blen. cbn [length]. lia. }
  rewrite Hbl in Hend. pose proof (blen_nonneg (enc_items g)). pose proof (blen_nonneg (enc gs)).
  pose proof (blen_expand _ _ Hokg). pose proof (blen_expand _ _ Hok).
  cbn [decompress_loop]. rewrite (proj2 (Z.ltb_lt sp srcend)), (proj2 (Z.ltb_lt (blen out) destend)) by lia.
  cbn [andb]. rewrite (holds_get _ _ _ _ Hc). cbn [access_bind].
  destruct (item_loop_ok g 8 (sp + 1) out d) as (d1 & E & Hl1 & Hd1); try done; try lia.
  { intros Hlt. destruct gs as [|g' gs]; [change (blen (enc [])) with 0 in *; lia|].
    rewrite Hfull in Hlt by done. lia. }
  rewrite E. cbn [access_bind].
  destruct (IH n (sp + 1 + blen (enc_items g)) (expand out g) d1) as (d' & E' & Hl' & Hd'); try done; try lia.
  exists d'. rewrite E'. split; [done|]. split; [lia|done].
Qed.
End Items.

(** ** The compressor writes an encoding of its source *)

Section Compress.
Context (source d0 : list Z) (Hbytes : Forall is_byte source).
Context (Hd0 : blen d0 = PGLZ_MAX_OUTPUT (blen source)).

(** After [dp] bytes of the source. *)
Definition compress_inv (dp : Z) (h : History) (o : Out) (gs : list (list item)) (cur : list item)
    : Prop :=
  hist_inv h dp ∧ 0 ≤ dp ≤ blen source ∧ out_state o gs cur ∧
  items_ok [] (concat gs ++ cur) ∧
  expand [] (concat gs ++ cur) = take (Z.to_nat dp) source ∧ same_front d0 (dest o).

Lemma out_state_bp o gs cur : out_state o gs cur → HDR ≤ bp o.
Proof. intros [(_ & _ & _ & _ & _ & ->)|[Hi _]]; [done|]. apply bp_front in Hi. lia. Qed.

(** The output after one more item. *)
Lemma compress_item dp h o gs cur o' gs' cur' it n h' :
  compress_inv dp h o gs cur → wrote o o' gs gs' cur cur' it →
  hist_inv h' (dp + n) → 0 ≤ n → dp + n ≤ blen source →
  item_ok (take (Z.to_nat dp) source) it →
  expand_item (take (Z.to_nat dp) source) it = take (Z.to_nat (dp + n)) source →
  compress_inv (dp + n) h' o' gs' cur'.
Proof.
  intros (_ & Hdp & _ & Hok & Hex & Hf) (Ho & Hcat & Hf' & _) Hh Hn Hend Hit Hx.
  unfold compress_inv. rewrite Hcat. split_and!; [done|lia|lia|done| | |].
  - apply items_ok_app. split; [done|]. by rewrite Hex.
  - by rewrite expand_app, Hex.
  - by eapply same_front_trans.
Qed.

Section Loop.
Context (result_max first_success good_match good_drop : Z) (Hmax : result_max ≤ blen source).

Lemma compress_step dp h o gs cur :
  compress_inv dp h o gs cur → dp < blen source → bp o - sizeof_PGLZ_Header < result_max →
  ∃ m, pglz_find_match source h dp (blen source) good_match good_drop = Some m ∧
    match m with
    | Some (len, off) => ∃ o' h' gs' cur', pglz_out_tag o len off = Some o' ∧
        hist_add_all (Z.to_nat len) source h dp (blen source) = Some h' ∧
        compress_inv (dp + len) h' o' gs' cur' ∧ 1 ≤ len
    | None => ∃ c o' h' gs' cur', char_at source dp = Some c ∧ pglz_out_literal o c = Some o' ∧
        pglz_hist_add source h dp (blen source) = Some h' ∧ compress_inv (dp + 1) h' o' gs' cur'
    end.
Proof.
  intros Hinv Hdp Hbp. pose proof Hinv as (Hh & Hdp0 & Ho & _ & _ & [Hl _]).
  pose proof (out_state_bp _ _ _ Ho) as Hb.
  assert (Hfit : bp o + 4 ≤ blen (dest o)).
  { rewrite Hl, Hd0. unfold PGLZ_MAX_OUTPUT in *. lia. }
  destruct (find_match_ok source Hbytes h dp good_match good_drop Hh) as (m & E & Hm); [lia|].
  exists m. split; [done|]. destruct m as [[len off]|].
  - destruct Hm as (Hlen & Hend & Hoff & Hback & Hrep).
    destruct (out_tag_ok o gs cur len off) as (o' & gs' & cur' & Eo & Hw); [done..|lia|].
    destruct (hist_add_all_ok source (Z.to_nat len) h dp) as (h' & Eh & Hh'); [done|lia|lia|].
    rewrite Z2Nat.id in Hh' by lia. exists o', h', gs', cur'. split_and!; [done|done| |lia].
    eapply compress_item; [done..|lia|lia| |].
    + cbn. rewrite blen_take by lia. lia.
    + cbn. rewrite (copy_back_source source off) by (rewrite ?Z2Nat.id by lia; done || lia).
      by rewrite Z2Nat.id by lia.
  - destruct (char_at_ok source dp) as (c & Ec); [lia|].
    destruct (char_at_lookup source Hbytes dp c Ec) as (_ & Eb & _).
    destruct (out_literal_ok o gs cur c) as (o' & gs' & cur' & Eo & Hw); [done|done|done|].
    destruct (hist_add_ok source h dp) as (h' & Eh & Hh'); [done|lia|].
    exists c, o', h', gs', cur'. split_and!; [done..|].
    eapply compress_item; [done..|lia| |].
    + cbn. unfold u8, is_byte. apply Z.mod_pos_bound. lia.
    + cbn. rewrite <- (take_S_r _ _ _ Eb). f_equal. lia.
Qed.

Lemma compress_loop_ok n : ∀ dp h o gs cur fm,
  compress_inv dp h o gs cur → blen source - dp ≤ Z.of_nat n →
  ∃ r, compress_loop n source (blen source) result_max first_success good_match good_drop dp h o fm
      = Some r ∧
    match r with
    | inl (o', _) => same_front d0 (dest o')
    | inr (o', h') => ∃ gs' cur', compress_inv (blen source) h' o' gs' cur'
    end.
Proof.
  induction n as [|n IH]; intros dp h o gs cur fm Hinv Hn;
    pose proof Hinv as (_ & Hdp & _ & _ & _ & Hf); cbn [compress_loop].
  { rewrite (proj2 (Z.ltb_ge _ _)) by lia. eexists. split; [done|]. exists gs, cur.
    by replace (blen source) with dp by lia. }
  destruct (Z.ltb_spec dp (blen source)) as [Hlt|Hge].
  2: { eexists. split; [done|]. exists gs, cur. by replace (blen source) with dp by lia. }
  destruct (Z.leb_spec result_max (bp o - sizeof_PGLZ_Header)); [by eexists|].
  destruct (negb fm && _); [by eexists|].
  destruct (compress_step dp h o gs cur Hinv Hlt) as (m & E & Hm); [done|].
  rewrite (obind_some _ _ _ E). destruct m as [[len off]|].
  - destruct Hm as (o' & h' & gs' & cur' & Eo & Eh & Hinv' & Hlen).
    rewrite (obind_some _ _ _ Eo), (obind_some _ _ _ Eh). eapply IH; [done|lia].
  - destruct Hm as (c & o' & h' & gs' & cur' & Ec & Eo & Eh & Hinv').
    rewrite (obind_some _ _ _ Ec), (obind_some _ _ _ Eo), (obind_some _ _ _ Eh). eapply IH; [done|lia].
Qed.
End Loop.
End Compress.

(** ** The header *)

Lemma holds_set_varsize b len off bs :
  holds b off bs → 4 ≤ off → holds (SET_VARSIZE_COMPRESSED b len) off bs.
Proof.
  intros [Ho Hh] Hoff. split; [done|]. intros i x Hi. unfold SET_VARSIZE_COMPRESSED, wr_be32, memcpy.
  rewrite list_lookup_inserts_ge; [by apply Hh|]. rewrite length_reverse, length_le_bytes by lia. cbn. lia.
Qed.

Lemma raw_size_kept b d len slen :
  8 ≤ blen b → same_front (wr_u32 4 slen b) d → 0 ≤ slen < 2 ^ 31 →
  PGLZ_RAW_SIZE (SET_VARSIZE_COMPRESSED d len) = slen.
Proof.
  intros Hb [Hl Hf] Hs. unfold PGLZ_RAW_SIZE.
  assert (Hrd : rd_u32 4 (SET_VARSIZE_COMPRESSED d len) = rd_u32 4 (wr_u32 4 slen b)).
  { unfold rd. f_equal. unfold SET_VARSIZE_COMPRESSED, wr_be32. rewrite slice_memcpy_disj;
      [|lia|lia|lia|rewrite length_reverse, length_le_bytes; lia].
    apply list_eq. intros i. destruct (decide (Z.of_nat i < 4)).
    - rewrite !slice_lookup by lia. apply Hf. unfold HDR, sizeof_PGLZ_Header. lia.
    - rewrite !lookup_ge_None_2; [done| |]; unfold slice; rewrite length_take; lia. }
  rewrite Hrd, rd_u32_wr, u32_id, s32_id by lia. done.
Qed.

(** ** Strategies *)

Lemma clamp_range lo hi x : lo ≤ hi → lo ≤ clamp lo hi x ≤ hi.
Proof. intros. unfold clamp. destruct (Z.ltb_spec x lo); [lia|]. destruct (Z.ltb_spec hi x); lia. Qed.

Lemma result_limit_ok slen r :
  0 ≤ slen < 2 ^ 31 → 0 ≤ r ≤ 99 → result_limit slen r ≤ slen.
Proof.
  intros Hs Hr. unfold result_limit, INT_MAX. change (2147483647 / 100) with 21474836.
  destruct (Z.ltb_spec 21474836 slen).
  - assert (slen / 100 * (100 - r) ≤ slen / 100 * 100).
    { apply Z.mul_le_mono_nonneg_l; [apply Z.div_pos; lia|lia]. }
    assert (0 ≤ slen / 100 * (100 - r)) by (apply Z.mul_nonneg_nonneg; [apply Z.div_pos; lia|lia]).
    pose proof (Z.mul_div_le slen 100). rewrite s32_id by lia. lia.
  - assert (0 ≤ slen * (100 - r) ≤ slen * 100) by (split; [apply Z.mul_nonneg_nonneg|apply Z.mul_le_mono_nonneg_l]; lia).
    rewrite s32_id by lia. apply Z.div_le_upper_bound; lia.
Qed.

(** ** The round trip *)

Lemma groups_ok_full gs cur :
  Forall (λ g, length g = 8%nat) gs → cur ≠ [] → (length cur ≤ 8)%nat → groups_ok (gs ++ [cur]).
Proof.
  intros Hgs Hne Hcur. induction Hgs as [|g gs Hg Hgs IH]; cbn.
  - split; [|done]. destruct cur; [done|]. cbn in *. lia.
  - split_and!; [lia|lia|done|done].
Qed.

Lemma length_enc gs : Z.of_nat (length gs) ≤ blen (enc gs).
Proof.
  induction gs as [|g gs IH]; [done|].
  change (enc (g :: gs)) with (enc_group g ++ enc gs). rewrite blen_app. unfold enc_group.
  unfold blen in *. cbn [length]. lia.
Qed.

(** What [pglz_decompress] does with the encoding of a source. *)
Lemma decompress_enc b gs source out :
  groups_ok gs → items_ok [] (concat gs) → expand [] (concat gs) = source →
  holds b HDR (enc gs) → VARSIZE b = HDR + blen (enc gs) → PGLZ_RAW_SIZE b = blen source →
  blen out = blen source → pglz_decompress b out = Val (Return source).
Proof.
  intros Hgs Hok Hex Hh Hsz Hraw Hout. unfold pglz_decompress.
  pose proof (length_enc gs).
  destruct (decompress_loop_ok b (VARSIZE b) (PGLZ_RAW_SIZE b) gs (Z.to_nat (VARSIZE b)) HDR [] out)
    as (d & E & Hl & Hd); try done.
  - rewrite Hsz. unfold HDR, sizeof_PGLZ_Header. lia.
  - by rewrite Hex.
  - lia.
  - change (blen []) with 0 in E. change sizeof_PGLZ_Header with HDR. rewrite E.
    cbn [access_bind]. rewrite !Z.eqb_refl. cbn. do 2 f_equal. rewrite Hex in Hd.
    destruct Hd as [_ Hd]. apply list_eq. intros i.
    destruct (source !! i) as [v|] eqn:Ev; [by apply (Hd i v) in Ev|].
    apply lookup_ge_None in Ev. apply lookup_ge_None. unfold blen in *. lia.
Qed.

(** A value that holds the compressed [source]: what it decompresses to depends
    on its length and on the bytes after the header only. *)
Definition copy_of (b d : list Z) : Prop :=
  VARSIZE b = VARSIZE d ∧
  take (Z.to_nat (VARSIZE d - VARHDRSZ)) (VARDATA b) = take (Z.to_nat (VARSIZE d - VARHDRSZ)) (VARDATA d).

Definition compressed_value (d source : list Z) : Prop :=
  is_byte (va_header d) ∧ VARATT_IS_4B_C d = true ∧ VARATT_SET_COMPRESSED d = d ∧
  HDR ≤ VARSIZE d < blen source + HDR ∧ VARSIZE d ≤ blen d ∧ PGLZ_RAW_SIZE d = blen source ∧
  ∀ b out, copy_of b d → blen out = blen source → pglz_decompress b out = Val (Return source).

(** The size and the items of a copy. *)
Lemma copy_lookup b d i :
  copy_of b d → 4 ≤ Z.of_nat i < VARSIZE d → b !! i = d !! i.
Proof.
  intros [_ E] Hi. unfold VARDATA, VARHDRSZ in E. change (Z.to_nat 4) with 4%nat in E.
  apply (f_equal (.!! (i - 4)%nat)) in E. rewrite !lookup_take_lt, !lookup_drop in E by lia.
  by replace (4 + (i - 4))%nat with i in E by lia.
Qed.

Lemma copy_reads b d :
  HDR ≤ VARSIZE d → copy_of b d →
  PGLZ_RAW_SIZE b = PGLZ_RAW_SIZE d ∧
  ∀ bs, HDR + blen bs ≤ VARSIZE d → holds d HDR bs → holds b HDR bs.
Proof.
  unfold HDR, sizeof_PGLZ_Header. intros Hn Hc. split.
  - unfold PGLZ_RAW_SIZE, rd. do 2 f_equal. apply list_eq. intros i. destruct (decide (Z.of_nat i < 4)).
    + rewrite !slice_lookup by lia. apply copy_lookup; [done|lia].
    + rewrite !lookup_ge_None_2; [done| |]; unfold slice; rewrite length_take; lia.
  - intros bs Hle [Ho Hh]. split; [done|]. intros i x Hi. pose proof (lookup_lt_Some _ _ _ Hi).
    rewrite (copy_lookup b d); [by apply Hh|done|unfold blen in Hle; lia].
Qed.

(** A destination that holds an encoding, once its length is set. *)
Lemma compressed_result b d source n gs :
  blen b = PGLZ_MAX_OUTPUT (blen source) → same_front (wr_u32 4 (blen source) b) d →
  groups_ok gs → items_ok [] (concat gs) → expand [] (concat gs) = source →
  holds d HDR (enc gs) → n = HDR + blen (enc gs) → n - HDR < blen source ≤ 2 ^ 30 - 8 →
  compressed_value (SET_VARSIZE_COMPRESSED d n) source.
Proof.
  intros Hb Hf Hgs Hok Hex Hh Hn Hlt. set (d' := SET_VARSIZE_COMPRESSED d n).
  pose proof Hf as [Hl _]. rewrite blen_wr in Hl.
  pose proof (blen_nonneg (enc gs)). unfold PGLZ_MAX_OUTPUT, HDR, sizeof_PGLZ_Header in *.
  destruct (set_varsize_c_spec d n ltac:(lia) ltac:(lia)) as (Hhd & Hsz & HC & _ & _ & _ & HS & _).
  fold d' in Hhd, Hsz, HC, HS.
  assert (Hraw : PGLZ_RAW_SIZE d' = blen source) by (apply (raw_size_kept b); done || lia).
  split; [done|]. split; [done|]. split; [done|]. unfold HDR, sizeof_PGLZ_Header.
  rewrite Hsz. split; [lia|]. split; [unfold d'; rewrite blen_set_varsize; lia|]. split; [done|].
  intros c out Hc Hout.
  destruct (copy_reads c d') as (Er & Hhold); [unfold HDR, sizeof_PGLZ_Header; lia|done|].
  pose proof (proj1 Hc) as Ec. apply (decompress_enc _ gs); try done; [|unfold HDR, sizeof_PGLZ_Header; lia|congruence].
  apply Hhold; [unfold HDR, sizeof_PGLZ_Header; lia|]. by apply holds_set_varsize.
Qed.

Lemma pglz_compress_ok entries source dest strategy :
  Forall is_byte source → blen source ≤ 2 ^ 30 - 8 →
  blen dest = PGLZ_MAX_OUTPUT (blen source) →
  ∃ ok dest' entries',
    pglz_compress entries source (blen source) dest strategy = Some (ok, dest', entries') ∧
    blen dest' = blen dest ∧ (ok = true → compressed_value dest' source).
Proof.
  intros Hb Hlen Hd. pose proof (blen_nonneg source). unfold pglz_compress.
  set (st := default PGLZ_strategy_default strategy).
  destruct (_ || _ || _); [by do 3 eexists|].
  set (gm := if PGLZ_MAX_MATCH <? _ then _ else _). set (gd := clamp 0 100 _).
  pose proof (result_limit_ok (blen source) (clamp 0 99 (min_comp_rate st)) ltac:(lia)
    (clamp_range 0 99 _ ltac:(lia))) as Hmax.
  set (rmax := result_limit _ _) in *. set (d0 := wr_u32 4 (blen source) dest).
  assert (Hd0 : blen d0 = PGLZ_MAX_OUTPUT (blen source)) by (unfold d0; by rewrite blen_wr).
  destruct (compress_loop_ok source d0 Hb Hd0 rmax (first_success_by st) gm gd Hmax
    (Z.to_nat (blen source)) 0 (mkHistory ∅ entries 0 false)
    (mkOut None 0 0 sizeof_PGLZ_Header d0) [] [] false) as (r & E & Hr).
  - split_and!; [apply hist_inv_empty|lia|lia|by left|done|by rewrite take_0|done..].
  - lia.
  - rewrite (obind_some _ _ _ E). destruct r as [[o h]|[o h]].
    { do 3 eexists. split; [done|]. split; [|done]. destruct Hr as [-> _]. by rewrite Hd0. }
    destruct Hr as (gs & cur & _ & _ & Ho & Hok & Hex & Hf).
    destruct Ho as [(-> & -> & Hcp & _ & _ & Hbp)|[Hi Hne]].
    { unfold flush_ctrl. rewrite Hcp. cbn [mbind option_bind]. cbn in Hex.
      assert (blen source = 0).
      { apply (f_equal length) in Hex. rewrite length_take in Hex. cbn in Hex. unfold blen in *. lia. }
      rewrite (proj2 (Z.leb_le _ _)) by (rewrite Hbp; change (HDR - sizeof_PGLZ_Header) with 0; lia).
      do 3 eexists. split; [done|]. split; [|done]. destruct Hf as [-> _]. by rewrite Hd0. }
    destruct (flush_ctrl_ok o gs cur Hi) as (d & Ef & Hf' & Hh & Hbp). rewrite (obind_some _ _ _ Ef).
    pose proof (same_front_trans _ _ _ Hf Hf') as Hfd. pose proof Hfd as [Hld _].
    destruct (Z.leb_spec rmax (bp o - sizeof_PGLZ_Header)).
    { do 3 eexists. split; [done|]. split; [|done]. by rewrite Hld, Hd0. }
    do 3 eexists. split; [done|]. split; [rewrite blen_set_varsize; by rewrite Hld, Hd0|]. intros _.
    change sizeof_PGLZ_Header with HDR in *. replace (bp o - HDR + HDR) with (bp o) by lia.
    destruct Hi as (_ & _ & _ & _ & Hgs & Hcur & _).
    apply (compressed_result dest d source (bp o) (gs ++ [cur])); try done; try lia.
    + by apply groups_ok_full.
    + by rewrite concat_app; cbn; rewrite app_nil_r.
    + rewrite concat_app. cbn. rewrite app_nil_r, Hex. apply take_ge. unfold blen. lia.
Qed.

(** C29. What [pglz_compress] compresses, [pglz_decompress] gives back: for
    every source of up to 1 GB, every strategy and whatever earlier calls left
    in the history, compression ends without an access outside the source, the
    history or a destination of [PGLZ_MAX_OUTPUT] bytes; when it succeeds the
    result is smaller than the source with its header, records the size of the
    source, and decompresses to it. *)
Theorem pglz_roundtrip entries source dest strategy :
  Forall is_byte source → blen source ≤ 2 ^ 30 - 8 →
  blen dest = PGLZ_MAX_OUTPUT (blen source) →
  ∃ ok dest' entries',
    pglz_compress entries source (blen source) dest strategy = Some (ok, dest', entries') ∧
    blen dest' = blen dest ∧
    (ok = true →
      VARSIZE dest' < blen source + sizeof_PGLZ_Header ∧ PGLZ_RAW_SIZE dest' = blen source ∧
      ∀ out, blen out = blen source → pglz_decompress dest' out = Val (Return source)).
Proof.
  intros Hb Hlen Hd. destruct (pglz_compress_ok entries source dest strategy Hb Hlen Hd)
    as (ok & dest' & entries' & E & Hl & Hok).
  exists ok, dest', entries'. split; [done|]. split; [done|]. intros E'.
  destruct (Hok E') as (_ & _ & _ & Hsz & _ & Hraw & Hdec). unfold HDR in Hsz.
  split; [lia|]. split; [done|]. intros out Hout. by apply Hdec.
Qed.

Definition sample : list Z := concat (replicate 10 [65; 200; 67; 68]).

Lemma pglz_roundtrip_witness :
  ∃ d e, pglz_compress ∅ sample 40 (replicate 52 0) None = Some (true, d, e) ∧
    pglz_decompress d (replicate 40 0) = Val (Return sample).
Proof.
  destruct (pglz_roundtrip ∅ sample (replicate 52 0) None) as (ok & d & e & E & _ & Hok).
  - by repeat constructor.
  - by vm_compute.
  - by vm_compute.
  - change (blen sample) with 40 in *. assert (ok = true) as ->.
    { apply (f_equal (λ r, match r with Some (b, _, _) => b | None => false end)) in E.
      cbn beta iota in E. rewrite <- E. by vm_compute. }
    destruct (Hok eq_refl) as (_ & _ & Hd). exists d, e. split; [done|by apply Hd].
Defined.

(** ** Any input *)

Section Safe.
Context (source : list Z) (Hbytes : Forall is_byte source) (srcend destend : Z).

(** Nothing is written from [destend] on. *)
Definition within (d d' : list Z) : Prop :=
  blen d' = blen d ∧ ∀ i, destend ≤ Z.of_nat i → d' !! i = d !! i.

Lemma within_trans d1 d2 d3 : within d1 d2 → within d2 d3 → within d1 d3.
Proof. intros [E1 H1] [E2 H2]. split; [congruence|]. intros i Hi. by rewrite H2, H1. Qed.

Lemma set_safe d i v : 0 ≤ i < destend → destend ≤ blen d → ∃ d', set d i v = Val d' ∧ within d d'.
Proof.
  intros Hi Hd. rewrite set_dest_ok by lia. eexists. split; [done|]. split; [apply blen_insert|].
  intros j Hj. by rewrite list_lookup_insert_ne by lia.
Qed.

Lemma get_safe b i : get b i = BadRead ∨ ∃ v, get b i = Val v ∧ (Forall is_byte b → 0 ≤ v < 256).
Proof.
  unfold get. destruct (i <? 0); [by left|]. destruct (b !! Z.to_nat i) as [v|] eqn:E; [|by left].
  right. exists v. split; [done|]. intros Hb. by eapply (Forall_lookup_1 is_byte).
Qed.

Lemma copy_loop_safe n off : ∀ d dp,
  0 ≤ dp → dp + Z.of_nat n ≤ destend → destend ≤ blen d →
  copy_loop n d dp off = BadRead ∨ ∃ d', copy_loop n d dp off = Val d' ∧ within d d'.
Proof.
  induction n as [|n IH]; intros d dp Hdp Hn Hd; cbn [copy_loop]; [right; by exists d|].
  destruct (get_safe d (dp - off)) as [->|(v & -> & _)]; [by left|]. cbn [access_bind].
  destruct (set_safe d dp v) as (d1 & -> & Hd1); [lia|done|]. cbn [access_bind].
  assert (blen d1 = blen d) by apply Hd1.
  destruct (IH d1 (dp + 1)) as [->|(d2 & -> & Hd2)]; [lia..|by left|].
  right. exists d2. split; [done|]. by eapply within_trans.
Qed.

(** A run of the inner loop ends, with [sp] and [dp] not before where they
    were. *)
Definition ran (sp dp : Z) (d : list Z) (r : access (Z * Z * list Z)) : Prop :=
  r = BadRead ∨ ∃ sp' dp' d', r = Val (sp', dp', d') ∧ sp ≤ sp' ∧ dp ≤ dp' ∧ within d d'.

Lemma ran_stop sp dp d sp' dp' : sp ≤ sp' → dp ≤ dp' → ran sp dp d (Val (sp', dp', d)).
Proof. intros. right. by exists sp', dp', d. Qed.

Lemma ran_more sp dp d sp1 dp1 d1 r :
  ran sp1 dp1 d1 r → sp ≤ sp1 → dp ≤ dp1 → within d d1 → ran sp dp d r.
Proof.
  intros [->|(sp' & dp' & d' & -> & ? & ? & ?)] ? ? ?; [by left|]. right. exists sp', dp', d'.
  split_and!; [done|lia|lia|by eapply within_trans].
Qed.

Lemma item_loop_safe n : ∀ c sp dp d,
  0 ≤ dp → destend ≤ blen d → ran sp dp d (item_loop n source srcend destend c sp dp d).
Proof.
  induction n as [|n IH]; intros c sp dp d Hdp Hd; cbn [item_loop]; [by apply ran_stop|].
  destruct (sp <? srcend); cbn [negb]; [|by apply ran_stop].
  destruct (Z.land c 1 =? 0); cbn [negb].
  - destruct (Z.leb_spec destend dp); [by apply ran_stop|].
    destruct (get_safe source sp) as [->|(v & -> & _)]; [by left|]. cbn [access_bind].
    destruct (set_safe d dp v) as (d1 & -> & Hd1); [lia|done|]. cbn [access_bind].
    assert (blen d1 = blen d) by apply Hd1. eapply ran_more; [apply IH; lia|lia|lia|done].
  - destruct (get_safe source sp) as [->|(b0 & -> & Hb0)]; [by left|]. cbn [access_bind].
    destruct (get_safe source (sp + 1)) as [->|(b1 & -> & _)]; [by left|]. cbn [access_bind].
    pose proof (Z.land_nonneg b0 0x0f) as Hnn. set (off := Z.lor _ b1).
    assert (Htail : ∀ len sp1, 0 ≤ len → sp ≤ sp1 → ran sp dp d
      (if destend <? dp + len then Val (sp1, dp + len, d)
       else access_bind (copy_loop (Z.to_nat len) d dp off) (λ d1,
         item_loop n source srcend destend (Z.shiftr c 1) sp1 (dp + len) d1))).
    { intros len sp1 Hlen Hsp. destruct (Z.ltb_spec destend (dp + len)); [apply ran_stop; lia|].
      destruct (copy_loop_safe (Z.to_nat len) off d dp) as [->|(d1 & -> & Hd1)]; [lia..|by left|].
      cbn [access_bind]. assert (blen d1 = blen d) by apply Hd1.
      eapply ran_more; [apply IH; lia|lia|lia|done]. }
    destruct (Z.land b0 0x0f + 3 =? 18).
    + destruct (get_safe source (sp + 2)) as [->|(b2 & -> & Hb2)]; [by left|]. cbn [access_bind].
      cbn beta iota. specialize (Hb2 Hbytes). apply Htail; lia.
    + cbn [access_bind]. cbn beta iota. apply Htail; lia.
Qed.

Lemma decompress_loop_safe n : ∀ sp dp d,
  0 ≤ dp → destend ≤ blen d → srcend - sp ≤ Z.of_nat n →
  ran sp dp d (decompress_loop n source srcend destend sp dp d).
Proof.
  induction n as [|n IH]; intros sp dp d Hdp Hd Hn; cbn [decompress_loop].
  - rewrite (proj2 (Z.ltb_ge sp srcend)) by lia. by apply ran_stop.
  - destruct ((sp <? srcend) && _); [|by apply ran_stop].
    destruct (get_safe source sp) as [->|(c & -> & _)]; [by left|]. cbn [access_bind].
    destruct (item_loop_safe 8 c (sp + 1) dp d Hdp Hd) as [->|(sp' & dp' & d' & -> & ? & ? & Hw)];
      [by left|]. cbn [access_bind]. assert (blen d' = blen d) by apply Hw.
    eapply ran_more; [apply IH; lia|lia|lia|done].
Qed.
End Safe.

(** C34. Whatever bytes it is given, [pglz_decompress] ends and writes nothing
    outside the [rawsize] bytes that the header announces: it returns the
    destination with only these changed, or reports corrupt data, or else has
    read outside its buffers. *)
Theorem pglz_decompress_safe source dest :
  Forall is_byte source → PGLZ_RAW_SIZE source ≤ blen dest →
  pglz_decompress source dest = BadRead ∨ pglz_decompress source dest = Val ElogError ∨
  ∃ d, pglz_decompress source dest = Val (Return d) ∧ within (PGLZ_RAW_SIZE source) dest d.
Proof.
  intros Hb Hd. unfold pglz_decompress.
  destruct (decompress_loop_safe source Hb (VARSIZE source) (PGLZ_RAW_SIZE source)
    (Z.to_nat (VARSIZE source)) sizeof_PGLZ_Header 0 dest) as [->|(sp & dp & d & -> & _ & _ & Hw)].
  - lia.
  - done.
  - unfold sizeof_PGLZ_Header. lia.
  - by left.
  - right. cbn [access_bind]. destruct (_ || _); [by left|]. right. by exists d.
Qed.

(** A stored value of one tag, with nothing before it to copy. *)
Definition corrupt : list Z := [64; 0; 0; 11; 3; 0; 0; 0; 1; 0; 1].

Lemma pglz_decompress_safe_witness :
  pglz_decompress corrupt [0; 0; 0] = BadRead ∨ pglz_decompress corrupt [0; 0; 0] = Val ElogError ∨
  ∃ d, pglz_decompress corrupt [0; 0; 0] = Val (Return d) ∧ within 3 [0; 0; 0] d.
Proof.
  apply (pglz_decompress_safe corrupt [0; 0; 0]); [by repeat constructor|by vm_compute].
Defined.

(** A tag can refer to bytes before the destination, which are read. *)
Lemma pglz_decompress_reads_before : pglz_decompress corrupt [0; 0; 0] = BadRead.
Proof. by vm_compute. Qed.
