(* ===== verification/HeapTuple.v ===== *)
(** Heap tuples: backend/access/common/heaptuple.c and the macros of
    include/access/tupmacs.h, htup.h and heapam.h.

    A tuple is its header fields, its null bitmap and its data area, which
    starts at an address aligned for every type, so that offsets in it are
    aligned as addresses are.  The offsets that a descriptor caches
    ([attcacheoff], -1 when unknown) are a list beside its attributes: reading
    an attribute changes them.  [HeapTupleSpec] shows that what a tuple was
    formed from is read back, whatever is cached. *)
From Stdlib Require Import Ascii.
From stdpp Require Import prelude numbers list.
From S2P Require Import Prelude Varlena.

Local Open Scope char_scope.
Local Open Scope Z_scope.

(** ** Data *)

(** A [Datum] is a value of up to 8 bytes or a pointer: the bytes from there on. *)
Inductive Datum :=
| ByVal (v : Z)
| ByRef (p : list Z).

Definition DatumGetPointer (d : Datum) : option (list Z) :=
  match d with ByRef p => Some p | ByVal _ => None end.

Record Form_pg_attribute := mkAttribute {
  atttypid : Z;
  attlen : Z;
  attndims : Z;
  atttypmod : Z;
  attbyval : bool;
  attstorage : ascii;
  attalign : ascii
}.

Record TupleDesc := mkTupleDesc {
  attrs : list Form_pg_attribute;
  tdtypeid : Z;
  tdtypmod : Z;
  tdhasoid : bool
}.

Definition natts (d : TupleDesc) : Z := Z.of_nat (length (attrs d)).

Record HeapTuple := mkHeapTuple {
  t_len : Z;
  datum_len_ : Z;
  datum_typeid : Z;
  datum_typmod : Z;
  t_infomask2 : Z;
  t_infomask : Z;
  t_hoff : Z;
  t_bits : list Z;
  t_oid : option Z;          (* the four bytes before [t_hoff], when there is one *)
  t_area : list Z            (* the bytes from [t_hoff] on *)
}.

Definition HEAP_HASNULL : Z := 0x0001.
Definition HEAP_HASVARWIDTH : Z := 0x0002.
Definition HEAP_HASEXTERNAL : Z := 0x0004.
Definition HEAP_HASCOMPRESSED : Z := 0x0008.
Definition HEAP_HASEXTENDED : Z := 0x000C.
Definition HEAP_HASOID : Z := 0x0010.
Definition HEAP_NATTS_MASK : Z := 0x7FF.
Definition MaxTupleAttributeNumber : Z := 1664.
Definition HIGHBIT : Z := 0x80.
Definition sizeof_Oid : Z := 4.
Definition InvalidOid : Z := 0.

(** [offsetof(HeapTupleHeaderData, t_bits)] *)
Definition offset_t_bits : Z := 23.
(** [MAXALIGN(sizeof(HeapTupleData))] *)
Definition HEAPTUPLESIZE : Z := 24.

Definition HeapTupleNoNulls (t : HeapTuple) : bool := Z.land (t_infomask t) HEAP_HASNULL =? 0.
Definition HeapTupleHasNulls (t : HeapTuple) : bool := negb (Z.land (t_infomask t) HEAP_HASNULL =? 0).
Definition HeapTupleHasVarWidth (t : HeapTuple) : bool :=
  negb (Z.land (t_infomask t) HEAP_HASVARWIDTH =? 0).
Definition HeapTupleAllFixed (t : HeapTuple) : bool := Z.land (t_infomask t) HEAP_HASVARWIDTH =? 0.
Definition HeapTupleHeaderGetNatts (t : HeapTuple) : Z := Z.land (t_infomask2 t) HEAP_NATTS_MASK.
Definition HeapTupleHeaderSetNatts (infomask2 n : Z) : Z :=
  Z.lor (Z.land infomask2 (Z.lnot HEAP_NATTS_MASK)) n.
Definition BITMAPLEN (n : Z) : Z := Z.quot (n + 7) 8.

(** ** Alignment and lengths *)

Definition TYPEALIGN (a len : Z) : Z := Z.land (len + (a - 1)) (Z.lnot (a - 1)).
Definition SHORTALIGN : Z → Z := TYPEALIGN 2.
Definition INTALIGN : Z → Z := TYPEALIGN 4.
Definition DOUBLEALIGN : Z → Z := TYPEALIGN 8.
Definition MAXALIGN : Z → Z := TYPEALIGN 8.

Definition att_align (cur_offset : Z) (align : ascii) : Z :=
  if Ascii.eqb align "i" then INTALIGN cur_offset
  else if Ascii.eqb align "c" then cur_offset
  else if Ascii.eqb align "d" then DOUBLEALIGN cur_offset
  else SHORTALIGN cur_offset.

Definition att_isnull (att : Z) (bits : list Z) : option bool :=
  b ← bits !! Z.to_nat (Z.shiftr att 3);
  Some (Z.land b (Z.shiftl 1 (Z.land att 0x07)) =? 0).

Fixpoint strlen (p : list Z) : option Z :=
  match p with
  | [] => None
  | c :: p => if c =? 0 then Some 0 else n ← strlen p; Some (n + 1)
  end.

(** [VARSIZE_ANY] of a pointer: the header has to be there. *)
Definition varsize_any (p : list Z) : option Z :=
  match p with
  | [] => None
  | _ => if VARATT_IS_1B p || (4 <=? blen p) then Some (VARSIZE_ANY p) else None
  end.

Definition att_addlength (cur_offset len : Z) (attval : Datum) : option Z :=
  if 0 <? len then Some (cur_offset + len)
  else if len =? -1 then p ← DatumGetPointer attval; n ← varsize_any p; Some (cur_offset + n)
  else p ← DatumGetPointer attval; n ← strlen p; Some (cur_offset + (n + 1)).

(** A value of [n] bytes extended with its sign, as a [Datum] is made of a
    [char], an [int16] or an [int32]. *)
Definition sext (n v : Z) : Z := (v + 2 ^ (8 * n - 1)) `mod` 2 ^ (8 * n) - 2 ^ (8 * n - 1).

Definition load_int (n : Z) (tp : list Z) (off : Z) : option Datum :=
  if (0 <=? off) && (off + n <=? blen tp) then Some (ByVal (sext n (rd n off tp))) else None.

(** [fetchatt(a, tp + off)] *)
Definition fetchatt (a : Form_pg_attribute) (tp : list Z) (off : Z) : option Datum :=
  if attbyval a then
    if attlen a =? 8 then load_int 8 tp off
    else if attlen a =? 4 then load_int 4 tp off
    else if attlen a =? 2 then load_int 2 tp off
    else load_int 1 tp off
  else Some (ByRef (drop (Z.to_nat off) tp)).

(** ** Forming a tuple *)

Definition is_varlena_short (a : Form_pg_attribute) (v : Datum) : option bool :=
  if attlen a =? -1 then p ← DatumGetPointer v; Some (value_type_could_short p (atttypid a))
  else Some false.

Fixpoint compute_loop (atts : list Form_pg_attribute) (values : list Datum) (isnull : list bool)
    (data_length : Z) : option Z :=
  match atts, values, isnull with
  | [], _, _ => Some data_length
  | a :: atts, v :: values, null :: isnull =>
      if (null : bool) then compute_loop atts values isnull data_length else
      s ← is_varlena_short a v;
      if (s : bool) then
        p ← DatumGetPointer v;
        compute_loop atts values isnull (data_length + (VARSIZE_ANY_EXHDR p + VARHDRSZ_SHORT))
      else
        data_length ← att_addlength (att_align data_length (attalign a)) (attlen a) v;
        compute_loop atts values isnull data_length
  | _, _, _ => None
  end.

Definition heap_compute_data_size (d : TupleDesc) (values : list Datum) (isnull : list bool)
    : option Z :=
  compute_loop (attrs d) values isnull 0.

(** Reading [n] bytes at a pointer, and writing bytes at [pos] of the area. *)
Definition read_bytes (p : list Z) (n : Z) : option (list Z) :=
  if (0 <=? n) && (n <=? blen p) then Some (take (Z.to_nat n) p) else None.
Definition write_bytes (data : list Z) (pos : Z) (src : list Z) : option (list Z) :=
  if (0 <=? pos) && (pos + blen src <=? blen data) then Some (memcpy data pos src) else None.

Fixpoint zero_loop (n : nat) (data : list Z) (pos misalignment : Z) : option (list Z * Z) :=
  if Z.land pos misalignment =? 0 then Some (data, pos) else
  match n with
  | O => None
  | S n => data ← write_bytes data pos [0]; zero_loop n data (pos + 1) misalignment
  end.

(** An alignment is at most 8. *)
Definition att_align_zero (data : list Z) (pos : Z) (alignchar : ascii) : option (list Z * Z) :=
  zero_loop 8 data pos (att_align 1 alignchar - 1).

Definition store_att_byval (data : list Z) (pos v len : Z) : res (list Z) :=
  if (len =? 1) || (len =? 2) || (len =? 4) || (len =? 8)
  then lift_opt (write_bytes data pos (Z_to_little_endian len 8 v))
  else elog.

(** The state of [heap_fill_tuple]: the area and the position in it, the
    infomask, and the null bitmap with the byte and the bit of the attribute. *)
Record Fill := mkFill {
  f_data : list Z;
  f_pos : Z;
  f_infomask : Z;
  f_bit : option (list Z);
  f_bitP : Z;
  f_bitmask : Z
}.

Definition set_flag (flag : Z) (f : Fill) : Fill :=
  mkFill (f_data f) (f_pos f) (Z.lor (f_infomask f) flag) (f_bit f) (f_bitP f) (f_bitmask f).
Definition wrote (data : list Z) (pos : Z) (f : Fill) : Fill :=
  mkFill data pos (f_infomask f) (f_bit f) (f_bitP f) (f_bitmask f).

(** The bitmap's part of the loop: the state, and whether to go on to the
    next attribute. *)
Definition fill_bit (null : bool) (f : Fill) : option (Fill * bool) :=
  match f_bit f with
  | None => Some (f, false)
  | Some bits =>
      '(bits, bitP, bitmask) ←
        (if negb (f_bitmask f =? HIGHBIT) then Some (bits, f_bitP f, Z.shiftl (f_bitmask f) 1)
         else _ ← bits !! Z.to_nat (f_bitP f + 1);
              Some (<[Z.to_nat (f_bitP f + 1) := 0]> bits, f_bitP f + 1, 1));
      if null then
        Some (mkFill (f_data f) (f_pos f) (Z.lor (f_infomask f) HEAP_HASNULL) (Some bits) bitP bitmask,
              true)
      else
        b ← bits !! Z.to_nat bitP;
        Some (mkFill (f_data f) (f_pos f) (f_infomask f)
                (Some (<[Z.to_nat bitP := Z.lor b bitmask]> bits)) bitP bitmask, false)
  end.

(** [att_align_zero] and [memcpy] of [n] bytes; [data += n]. *)
Definition fill_aligned (a : Form_pg_attribute) (p : list Z) (n : Z) (f : Fill) : option Fill :=
  '(data, pos) ← att_align_zero (f_data f) (f_pos f) (attalign a);
  src ← read_bytes p n;
  data ← write_bytes data pos src;
  Some (wrote data (pos + n) f).

Definition fill_varlena (a : Form_pg_attribute) (p : list Z) (f : Fill) : option Fill :=
  let f := set_flag HEAP_HASVARWIDTH f in
  let f := if VARATT_IS_COMPRESSED p then set_flag HEAP_HASCOMPRESSED f else f in
  if VARATT_IS_EXTERNAL p then fill_aligned a p (VARSIZE_EXTERNAL p) (set_flag HEAP_HASEXTERNAL f)
  else if VARATT_IS_SHORT p then
    src ← read_bytes p (VARSIZE_SHORT p);
    data ← write_bytes (f_data f) (f_pos f) src;
    Some (wrote data (f_pos f + VARSIZE_SHORT p) f)
  else if VARATT_COULD_SHORT p && negb (atttypid a =? INT2VECTOROID) &&
          negb (atttypid a =? OIDVECTOROID) && (atttypid a <? FirstNormalObjectId) then
    let data_length := VARSIZE p - VARHDRSZ + VARHDRSZ_SHORT in
    data ← write_bytes (f_data f) (f_pos f) [VARSIZE_TO_SHORT p];
    src ← read_bytes (VARDATA p) (data_length - 1);
    data ← write_bytes data (f_pos f + 1) src;
    Some (wrote data (f_pos f + data_length) f)
  else fill_aligned a p (VARSIZE p) f.

Definition fill_value (a : Form_pg_attribute) (v : Datum) (f : Fill) : res Fill :=
  if attbyval a then
    match v with
    | ByRef _ => None
    | ByVal z =>
        let+ (data, pos) := lift_opt (att_align_zero (f_data f) (f_pos f) (attalign a)) in
        let+ data := store_att_byval data pos z (attlen a) in
        ok (wrote data (pos + attlen a) f)
    end
  else
    let+ p := lift_opt (DatumGetPointer v) in
    if attlen a =? -1 then lift_opt (fill_varlena a p f)
    else if attlen a =? -2 then
      let+ n := lift_opt (strlen p) in
      lift_opt (fill_aligned a p (n + 1) (set_flag HEAP_HASVARWIDTH f))
    else lift_opt (fill_aligned a p (attlen a) f).

Fixpoint fill_loop (atts : list Form_pg_attribute) (values : list Datum) (isnull : list bool)
    (f : Fill) : res Fill :=
  match atts, values, isnull with
  | [], _, _ => ok f
  | a :: atts, v :: values, null :: isnull =>
      let+ (f, next) := lift_opt (fill_bit null f) in
      if (next : bool) then fill_loop atts values isnull f else
      let+ f := fill_value a v f in
      fill_loop atts values isnull f
  | _, _, _ => None
  end.

Definition heap_fill_tuple (d : TupleDesc) (values : list Datum) (isnull : list bool)
    (data : list Z) (infomask : Z) (bit : option (list Z)) : res Fill :=
  let infomask :=
    Z.land infomask (Z.lnot (Z.lor HEAP_HASNULL (Z.lor HEAP_HASVARWIDTH HEAP_HASEXTENDED))) in
  fill_loop (attrs d) values isnull
    (mkFill data 0 infomask bit (-1) (match bit with Some _ => HIGHBIT | None => 0 end)).

(** [AllocSizeIsValid]: requests from this on are errors. *)
Definition MaxAllocSize : Z := 0x3fffffff.

(** The length of the header in front of the data area. *)
Definition header_len (d : TupleDesc) (has_nulls hasoid : bool) : Z :=
  MAXALIGN (offset_t_bits + (if has_nulls then BITMAPLEN (natts d) else 0) +
            (if hasoid then sizeof_Oid else 0)).

(** [toast_flatten_tuple_attribute] of tuptoaster.c, and fresh memory, whose
    contents are arbitrary. *)
Section Form.
Context (flatten : list Z → Z → Z → res (list Z)).
Context (palloc : Z → list Z).

Definition alloc (n : Z) : res (list Z) :=
  if (0 <=? n) && (n <? MaxAllocSize) then ok (palloc n) else elog.

Definition may_be_composite (a : Form_pg_attribute) (v : Datum) : bool :=
  match v with
  | ByRef p =>
      (attlen a =? -1) && Ascii.eqb (attalign a) "d" && (attndims a =? 0) &&
      negb (VARATT_IS_EXTENDED p)
  | ByVal _ => false
  end.

(** The first loop: the values with composite ones flattened, and [hasnull]. *)
Fixpoint flatten_loop (atts : list Form_pg_attribute) (values : list Datum) (isnull : list bool)
    (hasnull : bool) : res (list Datum * bool) :=
  match atts, values, isnull with
  | [], _, _ => ok ([], hasnull)
  | a :: atts, v :: values, null :: isnull =>
      if (null : bool) then
        let+ (vs, hasnull) := flatten_loop atts values isnull true in ok (v :: vs, hasnull)
      else
        let+ v :=
          (if may_be_composite a v then
             let+ p := lift_opt (DatumGetPointer v) in
             let+ p := flatten p (atttypid a) (atttypmod a) in ok (ByRef p)
           else ok v) in
        let+ (vs, hasnull) := flatten_loop atts values isnull hasnull in ok (v :: vs, hasnull)
  | _, _, _ => None
  end.

(** [dstlen]: the size of the caller's memory; the result is [NULL] and the
    size needed when it is too small. *)
Definition heaptuple_form_to (d : TupleDesc) (values : list Datum) (isnull : list bool)
    (dstlen : option Z) : res (option HeapTuple * option Z) :=
  if MaxTupleAttributeNumber <? natts d then elog else
  let+ (values, hasnull) := flatten_loop (attrs d) values isnull false in
  let hoff := header_len d hasnull (tdhasoid d) in
  let+ predicted_len := lift_opt (heap_compute_data_size d values isnull) in
  let len := hoff + predicted_len in
  let need := HEAPTUPLESIZE + len in
  if match dstlen with Some n => n <? need | None => false end then ok (None, Some (u32 need)) else
  let+ _ := match dstlen with Some _ => ok [] | None => alloc need end in
  let infomask2 := HeapTupleHeaderSetNatts 0 (natts d) in
  let '(infomask, oid) := if tdhasoid d then (HEAP_HASOID, Some InvalidOid) else (0, None) in
  let+ f :=
    heap_fill_tuple d values isnull (palloc predicted_len) infomask
      (if hasnull then Some (palloc (BITMAPLEN (natts d))) else None) in
  ok (Some (mkHeapTuple (u32 len) (Z.land len 0x3FFFFFFF) (tdtypeid d) (tdtypmod d) infomask2 (f_infomask f) (u8 hoff)
              (default [] (f_bit f)) oid (f_data f)),
      match dstlen with Some _ => Some (u32 need) | None => None end).

Definition heap_form_tuple (d : TupleDesc) (values : list Datum) (isnull : list bool)
    : res HeapTuple :=
  let+ (t, _) := heaptuple_form_to d values isnull None in
  lift_opt t.
End Form.

(** ** Reading a tuple *)

(** Where an attribute starts, from the end of the one before it: a varlena
    may or may not be aligned, so look for something that is a padding byte.
    [if (thisatt->attlen != -1 || !tp[off]) off = att_align(off, thisatt->attalign);] *)
Definition find_off (tp : list Z) (a : Form_pg_attribute) (off : Z) : option Z :=
  if negb (attlen a =? -1) then Some (att_align off (attalign a)) else
  b ← tp !! Z.to_nat off;
  Some (if b =? 0 then att_align off (attalign a) else off).

(** The loop that [heap_deform_tuple] and [slot_deform_tuple] share, from
    attribute [attnum] on: values and nulls, and the cache, the offset and
    [slow] at the end. *)
Fixpoint deform_loop (hasnulls : bool) (bp tp : list Z) (atts : list Form_pg_attribute)
    (attnum : Z) (cache : list Z) (off : Z) (slow : bool)
    : option (list Datum * list bool * list Z * Z * bool) :=
  match atts with
  | [] => Some ([], [], cache, off, slow)
  | a :: atts =>
      null ← (if hasnulls then att_isnull attnum bp else Some false);
      if (null : bool) then
        '(vs, ns, cache, off, slow) ← deform_loop hasnulls bp tp atts (attnum + 1) cache off true;
        Some (ByVal 0 :: vs, true :: ns, cache, off, slow)
      else
        c ← cache !! Z.to_nat attnum;
        '(off, cache) ←
          (if negb slow && (0 <=? c) then Some (c, cache) else
           off ← find_off tp a off;
           Some (off, if negb slow && negb (attlen a =? -1)
                      then <[Z.to_nat attnum := off]> cache else cache));
        let slow := slow || (attlen a <? 0) in
        v ← fetchatt a tp off;
        off ← att_addlength off (attlen a) (ByRef (drop (Z.to_nat off) tp));
        '(vs, ns, cache, off, slow) ← deform_loop hasnulls bp tp atts (attnum + 1) cache off slow;
        Some (v :: vs, false :: ns, cache, off, slow)
  end.

Definition heap_deform_tuple (t : HeapTuple) (d : TupleDesc) (cache : list Z)
    : option (list Datum * list bool * list Z) :=
  let n := Z.min (HeapTupleHeaderGetNatts t) (natts d) in
  '(vs, ns, cache, _, _) ←
    deform_loop (HeapTupleHasNulls t) (t_bits t) (t_area t) (take (Z.to_nat n) (attrs d))
      0 cache 0 false;
  let rest := Z.to_nat (natts d - n) in
  Some (vs ++ replicate rest (ByVal 0), ns ++ replicate rest true, cache).

(** [for (i = 0; i < byte; i++) if (bp[i] != 0xFF) ...] *)
Fixpoint earlier_nulls (n : nat) (bp : list Z) (i : Z) : option bool :=
  match n with
  | O => Some false
  | S n => b ← bp !! Z.to_nat i; if negb (b =? 0xFF) then Some true else earlier_nulls n bp (i + 1)
  end.

Definition nulls_before (bp : list Z) (attnum : Z) : option bool :=
  let byte := Z.shiftr attnum 3 in
  let finalbit := Z.land attnum 0x07 in
  b ← bp !! Z.to_nat byte;
  if negb (Z.land (Z.lnot b) (Z.shiftl 1 finalbit - 1) =? 0) then Some true
  else earlier_nulls (Z.to_nat byte) bp 0.

(** [while (j < attnum && att[j]->attcacheoff > 0) j++;] *)
Fixpoint cached_loop (n : nat) (cache : list Z) (j attnum : Z) : option Z :=
  if j <? attnum then
    c ← cache !! Z.to_nat j;
    if 0 <? c then match n with O => None | S n => cached_loop n cache (j + 1) attnum end
    else Some j
  else Some j.

(** The condition of the loop that fills the cache, after [j <= attnum]. *)
Definition can_cache (t : HeapTuple) (atts : list Form_pg_attribute) (cache : list Z) (j : Z)
    : option bool :=
  if negb (j <? HeapTupleHeaderGetNatts t) then Some false else
  c ← cache !! Z.to_nat j;
  if negb (c =? -1) then Some false else
  null ← (if HeapTupleNoNulls t then Some false else att_isnull j (t_bits t));
  if (null : bool) then Some false else
  if HeapTupleAllFixed t then Some true else
  a ← atts !! Z.to_nat j; Some (0 <? attlen a).

Fixpoint cache_loop (n : nat) (t : HeapTuple) (atts : list Form_pg_attribute) (cache : list Z)
    (attnum j off : Z) : option (list Z) :=
  go ← (if j <=? attnum then Some true else can_cache t atts cache j);
  if (go : bool) then
    match n with
    | O => None
    | S n =>
        a ← atts !! Z.to_nat j;
        let off := att_align off (attalign a) in
        let cache := <[Z.to_nat j := off]> cache in
        off ← att_addlength off (attlen a) (ByRef (drop (Z.to_nat off) (t_area t)));
        cache_loop n t atts cache attnum (j + 1) off
    end
  else Some cache.

(** The careful walk over the attributes before [attnum]. *)
Fixpoint walk_loop (n : nat) (t : HeapTuple) (atts : list Form_pg_attribute) (cache : list Z)
    (i off : Z) (usecache : bool) : option (list Z * Z) :=
  match n with
  | O => Some (cache, off)
  | S n =>
      null ← (if HeapTupleHasNulls t then att_isnull i (t_bits t) else Some false);
      if (null : bool) then walk_loop n t atts cache (i + 1) off false else
      a ← atts !! Z.to_nat i;
      c ← cache !! Z.to_nat i;
      '(off, cache) ←
        (if usecache && negb (c =? -1) then Some (c, cache) else
         off ← find_off (t_area t) a off;
         Some (off, if usecache && negb (attlen a =? -1) then <[Z.to_nat i := off]> cache else cache));
      off' ← att_addlength off (attlen a) (ByRef (drop (Z.to_nat off) (t_area t)));
      walk_loop n t atts cache (i + 1) off' (usecache && negb (attlen a <? 0))
  end.

Definition nocachegetattr (t : HeapTuple) (attnum : Z) (atts : list Form_pg_attribute)
    (cache : list Z) : option (Datum * list Z) :=
  let attnum := attnum - 1 in
  a ← atts !! Z.to_nat attnum;
  slow ← (if HeapTupleNoNulls t then Some false else nulls_before (t_bits t) attnum);
  c ← cache !! Z.to_nat attnum;
  if negb slow && (0 <=? c) then v ← fetchatt a (t_area t) c; Some (v, cache) else
  let slow := slow || (HeapTupleHasVarWidth t &&
                       existsb (λ a, attlen a <=? 0) (take (Z.to_nat (attnum + 1)) atts)) in
  let cache := <[0%nat := 0]> cache in
  if negb slow then
    j ← cached_loop (length cache) cache 1 attnum;
    a0 ← atts !! Z.to_nat (j - 1);
    c0 ← cache !! Z.to_nat (j - 1);
    cache ← cache_loop (Z.to_nat (Z.max (attnum + 1) (HeapTupleHeaderGetNatts t)))
              t atts cache attnum j (c0 + attlen a0);
    c ← cache !! Z.to_nat attnum;
    v ← fetchatt a (t_area t) c;
    Some (v, cache)
  else
    '(cache, off) ← walk_loop (Z.to_nat attnum) t atts cache 0 0 true;
    off ← find_off (t_area t) a off;
    v ← fetchatt a (t_area t) off;
    Some (v, cache).

(** The value, [isnull] and the cache. *)
Definition fastgetattr (t : HeapTuple) (attnum : Z) (atts : list Form_pg_attribute)
    (cache : list Z) : option (Datum * bool * list Z) :=
  if HeapTupleNoNulls t then
    a ← atts !! Z.to_nat (attnum - 1);
    c ← cache !! Z.to_nat (attnum - 1);
    if 0 <=? c then v ← fetchatt a (t_area t) c; Some (v, false, cache)
    else '(v, cache) ← nocachegetattr t attnum atts cache; Some (v, false, cache)
  else
    null ← att_isnull (attnum - 1) (t_bits t);
    if (null : bool) then Some (ByVal 0, true, cache)
    else '(v, cache) ← nocachegetattr t attnum atts cache; Some (v, false, cache).

(** For user attributes, whose numbers are positive. *)
Definition heap_getattr (t : HeapTuple) (attnum : Z) (atts : list Form_pg_attribute)
    (cache : list Z) : option (Datum * bool * list Z) :=
  if HeapTupleHeaderGetNatts t <? attnum then Some (ByVal 0, true, cache)
  else fastgetattr t attnum atts cache.

Definition SelfItemPointerAttributeNumber : Z := -1.
Definition GpSegmentIdAttributeNumber : Z := -8.

(** The system attributes, [GpSegmentIdAttributeNumber] to
    [SelfItemPointerAttributeNumber], are never null. *)
Definition heap_attisnull (t : HeapTuple) (attnum : Z) : res bool :=
  if HeapTupleHeaderGetNatts t <? attnum then ok true
  else if 0 <? attnum then
    if HeapTupleNoNulls t then ok false else lift_opt (att_isnull (attnum - 1) (t_bits t))
  else if (GpSegmentIdAttributeNumber <=? attnum) && (attnum <=? SelfItemPointerAttributeNumber)
  then ok false
  else elog.

(** ** Slots *)

Record TupleTableSlot := mkSlot {
  tts_heaptuple : option HeapTuple;
  tts_nvalid : Z;
  tts_values : list Datum;
  tts_isnull : list bool;
  tts_off : Z;
  tts_slow : bool
}.

Definition slot_deform_tuple (s : TupleTableSlot) (d : TupleDesc) (t : HeapTuple) (n : Z)
    (cache : list Z) : option (TupleTableSlot * list Z) :=
  let attnum := tts_nvalid s in
  let '(off, slow) := if attnum =? 0 then (0, false) else (tts_off s, tts_slow s) in
  '(vs, ns, cache, off, slow) ←
    deform_loop (HeapTupleHasNulls t) (t_bits t) (t_area t)
      (take (Z.to_nat (n - attnum)) (drop (Z.to_nat attnum) (attrs d))) attnum cache off slow;
  Some (mkSlot (tts_heaptuple s) (Z.max attnum n)
          (list_inserts (Z.to_nat attnum) vs (tts_values s))
          (list_inserts (Z.to_nat attnum) ns (tts_isnull s)) off slow, cache).

Definition _slot_getsomeattrs (s : TupleTableSlot) (d : TupleDesc) (attnum : Z) (cache : list Z)
    : res (TupleTableSlot * list Z) :=
  if attnum <=? tts_nvalid s then ok (s, cache) else
  if (attnum <=? 0) || (natts d <? attnum) then elog else
  match tts_heaptuple s with
  | None => elog
  | Some t =>
      let attno := Z.min (HeapTupleHeaderGetNatts t) attnum in
      let+ (s, cache) := lift_opt (slot_deform_tuple s d t attno cache) in
      let rest := Z.to_nat (attnum - attno) in
      ok (mkSlot (tts_heaptuple s) attnum
            (list_inserts (Z.to_nat attno) (replicate rest (ByVal 0)) (tts_values s))
            (list_inserts (Z.to_nat attno) (replicate rest true) (tts_isnull s))
            (tts_off s) (tts_slow s), cache)
  end.

(** ** Changing columns *)

Fixpoint replace_columns {A} (old repl : list A) (doReplace : list bool) : list A :=
  match old, repl, doReplace with
  | o :: old, r :: repl, c :: doReplace =>
      (if c : bool then r else o) :: replace_columns old repl doReplace
  | _, _, _ => old
  end.

Definition heap_modify_tuple (flatten : list Z → Z → Z → res (list Z)) (palloc : Z → list Z)
    (t : HeapTuple) (d : TupleDesc) (replValues : list Datum) (replIsnull doReplace : list bool)
    (cache : list Z) : res (HeapTuple * list Z) :=
  let+ (values, isnull, cache) := lift_opt (heap_deform_tuple t d cache) in
  let values := replace_columns values replValues doReplace in
  let isnull := replace_columns isnull replIsnull doReplace in
  let+ n := heap_form_tuple flatten palloc d values isnull in
  ok (mkHeapTuple (t_len n) (datum_len_ n) (datum_typeid n) (datum_typmod n) (t_infomask2 n)
        (t_infomask n) (t_hoff n) (t_bits n)
        (if tdhasoid d then Some (default InvalidOid (t_oid t)) else t_oid n) (t_area n), cache).

(** ** Other ways to make a tuple *)

(** A copy, in new memory or in that of the caller, as in [heaptuple_form_to]. *)
Definition heaptuple_copy_to (palloc : Z → list Z) (t : option HeapTuple) (destlen : option Z)
    : res (option HeapTuple * option Z) :=
  match t with
  | None => ok (None, destlen)
  | Some t =>
      let len := u32 (HEAPTUPLESIZE + t_len t) in
      match destlen with
      | Some n => ok (if n <? len then None else Some t, Some len)
      | None => let+ _ := alloc palloc (HEAPTUPLESIZE + t_len t) in ok (Some t, None)
      end
  end.

(** The data of a row without nulls and varlenas, with a header.  The fields
    that are not filled are zero, since [palloc0] is used. *)
Definition heap_addheader (palloc : Z → list Z) (natts : Z) (withoid : bool) (structure : list Z)
    : res HeapTuple :=
  let hoff := MAXALIGN (offset_t_bits + (if withoid then sizeof_Oid else 0)) in
  let len := hoff + blen structure in
  let+ _ := alloc palloc (HEAPTUPLESIZE + len) in
  ok (mkHeapTuple (u32 len) 0 0 0 (HeapTupleHeaderSetNatts 0 natts) (if withoid then HEAP_HASOID else 0) (u8 hoff)
        [] (if withoid then Some 0 else None) structure).
