(* ===== verification/HeapTupleForm.v ===== *)
(** What a tuple is formed of: the bytes of each attribute, where they start,
    and that [heap_compute_data_size] predicts and [heap_fill_tuple] writes
    exactly these, with the null bitmap and the flags of the infomask. *)
From Stdlib Require Import Ascii.
From stdpp Require Import prelude functions numbers list.
From S2P Require Import Prelude Varlena HeapTuple.

Local Open Scope Z_scope.

(** ** Alignment *)

Definition align_of (al : ascii) : Z :=
  if Ascii.eqb al "i"%char then 4 else if Ascii.eqb al "c"%char then 1
  else if Ascii.eqb al "d"%char then 8 else 2.

Lemma align_of_pow al : ∃ k, 0 ≤ k ≤ 3 ∧ align_of al = 2 ^ k.
Proof.
  unfold align_of. repeat case_match; [exists 2|exists 0|exists 3|exists 1]; by split.
Qed.

Lemma TYPEALIGN_pow k len : 0 ≤ k → TYPEALIGN (2 ^ k) len = (len + (2 ^ k - 1)) `div` 2 ^ k * 2 ^ k.
Proof.
  intros Hk. unfold TYPEALIGN. rewrite <- Z.ldiff_land.
  replace (2 ^ k - 1) with (Z.ones k) at 2 by (rewrite Z.ones_equiv; lia).
  by rewrite Z.ldiff_ones_r, Z.shiftl_mul_pow2, Z.shiftr_div_pow2 by lia.
Qed.

Lemma att_align_eq off al :
  att_align off al = (off + (align_of al - 1)) `div` align_of al * align_of al.
Proof.
  unfold att_align, align_of, INTALIGN, DOUBLEALIGN, SHORTALIGN.
  repeat case_match; [apply (TYPEALIGN_pow 2)|rewrite Z.div_1_r|apply (TYPEALIGN_pow 3)|
    apply (TYPEALIGN_pow 1)]; lia.
Qed.

Lemma align_of_range al : 1 ≤ align_of al ≤ 8.
Proof. unfold align_of. repeat case_match; lia. Qed.

Lemma att_align_range off al : off ≤ att_align off al < off + align_of al.
Proof. rewrite att_align_eq. pose proof (align_of_range al). divlia. Qed.

Lemma att_align_0 al : att_align 0 al = 0.
Proof. rewrite att_align_eq. pose proof (align_of_range al). rewrite Z.div_small by lia. done. Qed.

(** The bytes between an offset and the next aligned one. *)
Definition pad (off : Z) (al : ascii) : list Z := replicate (Z.to_nat (att_align off al - off)) 0.

Lemma blen_pad off al : blen (pad off al) = att_align off al - off.
Proof. unfold pad, blen. rewrite length_replicate. pose proof (att_align_range off al). lia. Qed.

Lemma memcpy_app b off s1 s2 :
  0 ≤ off → memcpy (memcpy b off s1) (off + blen s1) s2 = memcpy b off (s1 ++ s2).
Proof.
  intros Hoff. unfold memcpy. rewrite list_inserts_app_l. f_equal. unfold blen. lia.
Qed.

Lemma write_bytes_ok data pos src :
  0 ≤ pos → pos + blen src ≤ blen data → write_bytes data pos src = Some (memcpy data pos src).
Proof. intros. unfold write_bytes. by rewrite !(proj2 (Z.leb_le _ _)) by lia. Qed.

Lemma read_bytes_ok p n : 0 ≤ n ≤ blen p → read_bytes p n = Some (take (Z.to_nat n) p).
Proof. intros. unfold read_bytes. by rewrite !(proj2 (Z.leb_le _ _)) by lia. Qed.

Lemma align_land pos al :
  Z.land pos (align_of al - 1) = pos `mod` align_of al.
Proof.
  destruct (align_of_pow al) as (k & Hk & ->).
  replace (2 ^ k - 1) with (Z.ones k) by (rewrite Z.ones_equiv; lia). apply Z.land_ones. lia.
Qed.

Lemma att_align_step pos al :
  (pos `mod` align_of al = 0 → att_align pos al = pos) ∧
  (pos `mod` align_of al ≠ 0 → pos < att_align pos al ∧ att_align (pos + 1) al = att_align pos al).
Proof. rewrite !att_align_eq. unfold align_of. repeat case_match; divlia. Qed.

Lemma zero_loop_ok al (n : nat) : ∀ data pos,
  0 ≤ pos → att_align pos al - pos ≤ Z.of_nat n → att_align pos al ≤ blen data →
  zero_loop n data pos (align_of al - 1) = Some (memcpy data pos (pad pos al), att_align pos al).
Proof.
  induction n as [|n IH]; intros data pos Hpos Hn Hd; cbn [zero_loop]; rewrite align_land;
    destruct (att_align_step pos al) as [H0 H1]; destruct (Z.eqb_spec (pos `mod` align_of al) 0) as [E|E].
  1, 3: unfold pad; by rewrite (H0 E), Z.sub_diag.
  - destruct (H1 E). lia.
  - destruct (H1 E) as [Hlt Heq].
    rewrite write_bytes_ok by (rewrite ?blen_cons, ?blen_nil; lia). cbn [mbind option_bind].
    rewrite IH, Heq by (rewrite ?blen_memcpy; lia). do 2 f_equal.
    rewrite (memcpy_app _ _ [0]) by done. f_equal. unfold pad.
    by replace (Z.to_nat (att_align pos al - pos))
      with (S (Z.to_nat (att_align (pos + 1) al - (pos + 1)))) by lia.
Qed.

Lemma att_align_zero_ok data pos al :
  0 ≤ pos → att_align pos al ≤ blen data →
  att_align_zero data pos al = Some (memcpy data pos (pad pos al), att_align pos al).
Proof.
  intros Hpos Hd. unfold att_align_zero.
  replace (att_align 1 al - 1) with (align_of al - 1)
    by (rewrite att_align_eq; unfold align_of; by repeat case_match).
  apply zero_loop_ok; [done| |done]. pose proof (att_align_range pos al).
  pose proof (align_of_range al). lia.
Qed.

(** ** The bytes of an attribute *)

(** The value is stored with a 1-byte header, which is not aligned. *)
Definition packed (a : Form_pg_attribute) (v : Datum) : bool :=
  match v with
  | ByRef p => (attlen a =? -1) && value_type_could_short p (atttypid a)
  | ByVal _ => false
  end.

Definition shrink (p : list Z) : list Z :=
  VARSIZE_TO_SHORT p :: take (Z.to_nat (VARSIZE p - VARHDRSZ)) (VARDATA p).

Definition attr_image (a : Form_pg_attribute) (v : Datum) : list Z :=
  match v with
  | ByVal z => Z_to_little_endian (attlen a) 8 z
  | ByRef p =>
      if attlen a =? -1 then
        if packed a v && negb (VARATT_IS_SHORT p) then shrink p
        else take (Z.to_nat (VARSIZE_ANY p)) p
      else if attlen a =? -2 then take (Z.to_nat (default 0 (strlen p) + 1)) p
      else take (Z.to_nat (attlen a)) p
  end.

Definition attr_start (a : Form_pg_attribute) (v : Datum) (pos : Z) : Z :=
  if packed a v then pos else att_align pos (attalign a).

Definition attr_pad (a : Form_pg_attribute) (v : Datum) (pos : Z) : list Z :=
  if packed a v then [] else pad pos (attalign a).

(** A value that an attribute can have. *)
Definition attr_ok (a : Form_pg_attribute) (v : Datum) : Prop :=
  match v with
  | ByVal _ => attbyval a = true ∧ attlen a ∈ [1; 2; 4; 8]
  | ByRef p =>
      attbyval a = false ∧
      (attlen a = -1 ∧ varlena_ok p ∨ attlen a = -2 ∧ is_Some (strlen p) ∨ 0 < attlen a ≤ blen p)
  end.

Lemma strlen_range p n : strlen p = Some n → 0 ≤ n < blen p.
Proof.
  revert n. induction p as [|c p IH]; intros n; cbn [strlen]; [done|].
  case_match; intros E; simplify_eq/=; [unfold blen; cbn; lia|].
  destruct (strlen p) as [m|] eqn:Em; simplify_eq/=. specialize (IH m eq_refl).
  unfold blen in *. cbn [length]. lia.
Qed.

(** What a well-formed value looks like, by its header. *)
Lemma varlena_cases p :
  varlena_ok p →
  is_byte (va_header p) ∧
  (VARATT_IS_EXTERNAL p = true ∧ VARATT_IS_SHORT p = true ∧ VARSIZE_ANY p = 20 ∧ 20 ≤ blen p ∨
   VARATT_IS_EXTERNAL p = false ∧ VARATT_IS_SHORT p = true ∧ VARSIZE_ANY p = VARSIZE_SHORT p ∧
     1 ≤ VARSIZE_SHORT p < 128 ∧ VARSIZE_SHORT p ≤ blen p ∨
   VARATT_IS_EXTERNAL p = false ∧ VARATT_IS_SHORT p = false ∧ VARSIZE_ANY p = VARSIZE p ∧
     4 ≤ VARSIZE p ≤ blen p).
Proof.
  intros (Hh & Hne & Hsz & H4). split; [done|].
  destruct (header_cases p Hh) as (_ & _ & E4 & E1 & Es).
  unfold VARSIZE_ANY, VARATT_IS_EXTERNAL, VARATT_IS_SHORT, VARATT_IS_1B_E in *. rewrite E1, E4 in *.
  unfold is_byte in Hh. destruct (Z.eqb_spec (va_header p) 128) as [E|E].
  - left. rewrite E in *. by split_and!.
  - right. case_bool_decide as H1; [left|right].
    + rewrite Es in *. split_and!; [done..|divlia|divlia|lia].
    + rewrite bool_decide_true in H4 by lia. destruct H4 as [? ?]; [done|].
      unfold VARHDRSZ in *. split_and!; [done..|lia|lia].
Qed.

Lemma varlena_4b p :
  varlena_ok p → VARATT_IS_1B p = false → VARSIZE_ANY p = VARSIZE p ∧ 4 ≤ VARSIZE p ≤ blen p.
Proof.
  intros Hp H1. unfold VARATT_IS_1B in H1.
  destruct (varlena_cases p Hp) as [_ [(_ & E & _)|[(_ & E & _)|(_ & _ & ? & ?)]]]; [..|done];
    unfold VARATT_IS_SHORT, VARATT_IS_1B in E; congruence.
Qed.

Lemma varlena_size p : varlena_ok p → 0 < VARSIZE_ANY p ≤ blen p.
Proof. intros Hp. destruct (varlena_cases p Hp) as [_ [|[|]]]; lia. Qed.

Lemma va_header_take n p : (0 < n)%nat → va_header (take n p) = va_header p.
Proof. intros. destruct n; [lia|]. by destruct p. Qed.

Lemma slice_front n p rest : (4 ≤ n)%nat → 4 ≤ blen p → slice 0 4 (take n p ++ rest) = slice 0 4 p.
Proof.
  intros Hn Hp. unfold slice, blen in *. change (Z.to_nat 0) with 0%nat. rewrite !drop_0, take_app_le, take_take.
  - f_equal. lia.
  - rewrite length_take. lia.
Qed.

(** Pointers with the same header. *)
Definition same_header (p q : list Z) : Prop :=
  va_header p = va_header q ∧ (VARATT_IS_1B q = false → slice 0 4 p = slice 0 4 q).

Lemma same_header_eqs p q :
  same_header p q →
  VARSIZE_ANY p = VARSIZE_ANY q ∧ VARATT_IS_1B p = VARATT_IS_1B q ∧ VARATT_IS_1B_E p = VARATT_IS_1B_E q ∧
  VARATT_IS_4B_C p = VARATT_IS_4B_C q ∧ VARATT_IS_4B_U p = VARATT_IS_4B_U q.
Proof.
  intros [Eh Es].
  assert (E : VARATT_IS_1B q = false → VARSIZE p = VARSIZE q).
  { intros E. unfold VARSIZE, rd_be32. by rewrite (Es E). }
  unfold VARSIZE_ANY, VARATT_IS_1B, VARATT_IS_1B_E, VARSIZE_SHORT, VARSIZE_EXTERNAL, VARATT_IS_4B_C,
    VARATT_IS_4B_U in *. rewrite Eh.
  split_and!; try done. repeat case_match; try done. by apply E.
Qed.

Lemma same_header_take p rest :
  varlena_ok p → same_header (take (Z.to_nat (VARSIZE_ANY p)) p ++ rest) p.
Proof.
  intros Hp. pose proof (varlena_size p Hp) as Hn. split.
  - rewrite va_header_app, va_header_take; [done|lia|]. intros E%(f_equal length).
    unfold blen in Hn. rewrite length_take in E. cbn in E. lia.
  - intros E1. destruct (varlena_4b p Hp E1). apply slice_front; lia.
Qed.

Lemma varsize_any_eq p :
  p ≠ [] → VARATT_IS_1B p = true ∨ 4 ≤ blen p → varsize_any p = Some (VARSIZE_ANY p).
Proof.
  intros Hne Hp. unfold varsize_any. destruct p; [done|].
  destruct Hp as [->|Hp]; [done|]. by rewrite (proj2 (Z.leb_le _ _) Hp), orb_true_r.
Qed.

(** The bytes of a value are enough to find its length. *)
Lemma varsize_any_take p rest :
  varlena_ok p →
  varsize_any (take (Z.to_nat (VARSIZE_ANY p)) p ++ rest) = Some (VARSIZE_ANY p).
Proof.
  intros Hp. pose proof (same_header_take p rest Hp) as Hs.
  destruct (same_header_eqs _ _ Hs) as (E & E1 & _).
  pose proof (varlena_size p Hp) as Hn. rewrite varsize_any_eq, E; [done| |].
  - intros E0%(f_equal blen). rewrite blen_app, blen_take, blen_nil in E0 by lia.
    pose proof (blen_nonneg rest). lia.
  - rewrite E1, blen_app, blen_take by lia. pose proof (blen_nonneg rest).
    destruct (VARATT_IS_1B p) eqn:E2; [by left|right]. destruct (varlena_4b p Hp E2). lia.
Qed.

(** A value that is stored with a shorter header. *)
Lemma shrink_header p :
  varlena_ok p → VARATT_IS_SHORT p = false → VARATT_COULD_SHORT p = true →
  va_header (shrink p) = VARSIZE p - 3 + 128 ∧ 1 ≤ VARSIZE p - 3 < 128 ∧
  blen (shrink p) = VARSIZE p - 3.
Proof.
  intros Hp H1 Hc. destruct (varlena_4b p Hp H1) as [_ Hs].
  unfold VARATT_COULD_SHORT in Hc. apply andb_true_iff in Hc as [_ Hc%Z.leb_le].
  unfold VARHDRSZ, VARHDRSZ_SHORT, VARATT_SHORT_MAX in Hc. unfold shrink.
  rewrite blen_cons, blen_take.
  - split_and!; [|lia..|unfold VARHDRSZ; lia]. unfold va_header, VARSIZE_TO_SHORT, VARHDRSZ, VARHDRSZ_SHORT.
    cbn [lookup list_lookup default from_option]. replace (VARSIZE p - 4 + 1) with (VARSIZE p - 3) by lia.
    change 0x80 with (Z.shiftl 1 7). assert (Eu : u8 (VARSIZE p - 3) = VARSIZE p - 3) by (unfold u8; divlia).
    rewrite Eu, lor_shiftl_add by lia. done.
  - unfold VARHDRSZ, VARDATA, blen in *. rewrite length_drop. unfold VARHDRSZ. lia.
Qed.

Lemma shrink_size p rest :
  varlena_ok p → VARATT_IS_SHORT p = false → VARATT_COULD_SHORT p = true →
  varsize_any (shrink p ++ rest) = Some (blen (shrink p)).
Proof.
  intros Hp H1 Hc. destruct (shrink_header p Hp H1 Hc) as (Eh & Hr & El).
  assert (Eh' : va_header (shrink p ++ rest) = VARSIZE p - 3 + 128) by by rewrite va_header_app.
  assert (Hb : is_byte (va_header (shrink p ++ rest))) by (rewrite Eh'; unfold is_byte; lia).
  destruct (header_cases _ Hb) as (_ & _ & _ & E1 & Es). rewrite Eh' in *.
  rewrite bool_decide_true in E1 by lia.
  rewrite varsize_any_eq; [|by destruct p|by left].
  unfold VARSIZE_ANY, VARATT_IS_1B_E. rewrite Eh', E1, Es, El.
  destruct (Z.eqb_spec (VARSIZE p - 3 + 128) 128); [lia|]. f_equal. divlia.
Qed.

(** When the short form is used. *)
Lemma packed_shrink a p :
  packed a (ByRef p) = true → VARATT_IS_SHORT p = false → VARATT_COULD_SHORT p = true.
Proof.
  cbn [packed]. unfold value_type_could_short. intros H E. rewrite E in H.
  destruct (VARATT_COULD_SHORT p); [done|]. by rewrite andb_false_r, andb_false_r in H.
Qed.

Lemma image_byref a p :
  attlen a = -1 →
  attr_image a (ByRef p) =
    if packed a (ByRef p) && negb (VARATT_IS_SHORT p) then shrink p
    else take (Z.to_nat (VARSIZE_ANY p)) p.
Proof. intros E. unfold attr_image. by rewrite E. Qed.

Lemma image_read a p rest :
  attlen a = -1 → varlena_ok p →
  varsize_any (attr_image a (ByRef p) ++ rest) = Some (blen (attr_image a (ByRef p))).
Proof.
  intros Ea Hp. rewrite image_byref by done.
  destruct (packed a (ByRef p) && negb (VARATT_IS_SHORT p)) eqn:E.
  - apply andb_true_iff in E as [E1 E2%negb_true_iff]. apply shrink_size; [done..|].
    by apply (packed_shrink a).
  - pose proof (varlena_size p Hp). rewrite blen_take by lia. by apply varsize_any_take.
Qed.

(** The length of the stored bytes, as the attribute's length and the stored
    header give it. *)
Lemma image_addlength a v rest off :
  attr_ok a v →
  att_addlength off (attlen a) (ByRef (attr_image a v ++ rest)) = Some (off + blen (attr_image a v)).
Proof.
  intros Hok. unfold att_addlength. destruct v as [z|p]; cbn [attr_ok] in Hok.
  - destruct Hok as [_ Hl]. cbn [attr_image]. unfold blen.
    rewrite length_le_bytes by (set_unfold; lia). rewrite (proj2 (Z.ltb_lt _ _)) by (set_unfold; lia).
    f_equal. set_unfold. lia.
  - destruct Hok as [_ [[Ea Hp]|[[Ea [n Hn]]|Ha]]].
    + rewrite Ea. cbn [Z.ltb Z.compare Z.eqb Pos.eqb DatumGetPointer mbind option_bind].
      by rewrite image_read.
    + unfold attr_image. rewrite Ea, Hn. cbn [Z.ltb Z.compare Z.eqb Pos.eqb DatumGetPointer mbind option_bind default from_option].
      pose proof (strlen_range _ _ Hn). rewrite blen_take by (unfold id; lia).
      assert (E : strlen (take (Z.to_nat (n + 1)) p ++ rest) = Some n).
      { clear Ea H. revert n Hn. induction p as [|c p IH]; intros n Hn; [done|].
        cbn [strlen] in Hn. destruct (Z.eqb_spec c 0) as [->|Hc].
        - simplify_eq. done.
        - destruct (strlen p) as [m|] eqn:Em; simplify_eq/=. pose proof (strlen_range _ _ Em).
          replace (Z.to_nat (m + 1 + 1)) with (S (Z.to_nat (m + 1))) by lia.
          cbn [take app strlen]. rewrite (proj2 (Z.eqb_neq _ _) Hc), (IH m) by done. done. }
      unfold id. rewrite E. done.
    + unfold attr_image. rewrite (proj2 (Z.ltb_lt _ _)) by lia.
      rewrite (proj2 (Z.eqb_neq _ _)), (proj2 (Z.eqb_neq _ _)), blen_take by lia. done.
Qed.

Lemma image_pos a v : attr_ok a v → 0 < blen (attr_image a v).
Proof.
  intros Hok. pose proof (image_addlength a v [] 0 Hok) as E. rewrite app_nil_r in E.
  destruct v as [z|p]; cbn [attr_ok] in Hok.
  - unfold blen. cbn [attr_image]. rewrite length_le_bytes; set_unfold; lia.
  - destruct Hok as [_ [[Ea Hp]|[[Ea [n Hn]]|Ha]]]; unfold attr_image.
    + rewrite Ea. cbn [Z.eqb Pos.eqb]. pose proof (varlena_size p Hp).
      case_match; [|rewrite blen_take; lia]. unfold shrink. rewrite blen_cons.
      pose proof (blen_nonneg (take (Z.to_nat (VARSIZE p - VARHDRSZ)) (VARDATA p))). lia.
    + rewrite Ea, Hn. cbn [Z.eqb Pos.eqb default from_option]. unfold id.
      pose proof (strlen_range _ _ Hn). rewrite blen_take; lia.
    + rewrite (proj2 (Z.eqb_neq _ _)), (proj2 (Z.eqb_neq _ _)), blen_take by lia. lia.
Qed.

Lemma image_fixed a v : attr_ok a v → 0 < attlen a → blen (attr_image a v) = attlen a.
Proof.
  intros Hok Ha. pose proof (image_addlength a v [] 0 Hok) as E. unfold att_addlength in E.
  rewrite (proj2 (Z.ltb_lt _ _) Ha) in E. injection E. lia.
Qed.

Lemma packed_len a v : packed a v = true → attlen a = -1.
Proof. destruct v; cbn; [done|]. intros [?%Z.eqb_eq _]%andb_true_iff. done. Qed.

Lemma packed_header a v rest :
  attr_ok a v → packed a v = true → 128 ≤ va_header (attr_image a v ++ rest).
Proof.
  intros Hok Hp. pose proof (packed_len _ _ Hp) as Ea. destruct v as [z|p]; [done|].
  destruct Hok as [_ [[_ Hv]|[[? _]|?]]]; [|lia..].
  rewrite image_byref, Hp by done. cbn [andb]. destruct (VARATT_IS_SHORT p) eqn:E; cbn [negb].
  - destruct (same_header_take p rest Hv) as [-> _]. destruct Hv as (Hh & _).
    destruct (header_cases p Hh) as (_ & _ & _ & E1 & _).
    unfold VARATT_IS_SHORT in E. rewrite E in E1. by apply eq_sym, bool_decide_eq_true in E1.
  - pose proof (packed_shrink a p Hp E) as Hc. destruct (shrink_header p Hv E Hc) as (Eh & Hr & El).
    rewrite va_header_app by done. lia.
Qed.

(** What [heap_compute_data_size] adds for a value. *)
Lemma packed_size a p :
  attr_ok a (ByRef p) → packed a (ByRef p) = true →
  VARSIZE_ANY_EXHDR p + VARHDRSZ_SHORT = blen (attr_image a (ByRef p)).
Proof.
  intros Hok Hp. pose proof (packed_len _ _ Hp) as Ea.
  destruct Hok as [_ [[_ Hv]|[[? _]|?]]]; [|lia..].
  rewrite image_byref, Hp by done. cbn [andb].
  assert (HE : VARATT_IS_EXTERNAL p = false).
  { cbn [packed] in Hp. unfold value_type_could_short in Hp. by destruct (VARATT_IS_EXTERNAL p);
      [rewrite andb_false_r in Hp|]. }
  pose proof (varlena_size p Hv) as Hn. unfold VARSIZE_ANY_EXHDR, VARSIZE_ANY in *.
  unfold VARATT_IS_EXTERNAL in HE. rewrite HE in *.
  destruct (VARATT_IS_SHORT p) eqn:E; cbn [negb]; pose proof E as E'; unfold VARATT_IS_SHORT in E';
    rewrite E' in *.
  - rewrite blen_take by lia. lia.
  - pose proof (packed_shrink a p Hp E) as Hc. destruct (shrink_header p Hv E Hc) as (Eh & Hr & El).
    rewrite El. unfold VARHDRSZ, VARHDRSZ_SHORT. lia.
Qed.

Lemma unpacked_size a v off :
  attr_ok a v → packed a v = false →
  att_addlength off (attlen a) v = Some (off + blen (attr_image a v)).
Proof.
  intros Hok Hp. destruct (decide (0 < attlen a)) as [Hl|Hl].
  { unfold att_addlength. rewrite (proj2 (Z.ltb_lt _ _) Hl). by rewrite image_fixed. }
  destruct v as [z|p]; [destruct Hok as [_ Hl']; set_unfold; lia|].
  destruct Hok as [_ [[Ea Hv]|[[Ea [n Hn]]|?]]]; [| |lia]; unfold att_addlength; rewrite Ea;
    cbn [Z.ltb Z.compare Z.eqb Pos.eqb DatumGetPointer mbind option_bind].
  - rewrite image_byref, Hp by done. cbn [andb]. pose proof (varlena_size p Hv).
    rewrite blen_take by lia. pose proof Hv as (_ & Hne & _).
    rewrite varsize_any_eq; [done|done|].
    destruct (VARATT_IS_1B p) eqn:E; [by left|right]. pose proof (varlena_4b p Hv E). lia.
  - unfold attr_image. rewrite Ea, Hn. cbn [Z.eqb Pos.eqb mbind option_bind default from_option].
    unfold id. pose proof (strlen_range _ _ Hn). by rewrite blen_take by lia.
Qed.

(** ** The bytes of a row *)

Fixpoint layout (atts : list Form_pg_attribute) (values : list Datum) (isnull : list bool)
    (pos : Z) : list Z :=
  match atts, values, isnull with
  | a :: atts, v :: values, null :: isnull =>
      if (null : bool) then layout atts values isnull pos else
      attr_pad a v pos ++ attr_image a v ++
      layout atts values isnull (attr_start a v pos + blen (attr_image a v))
  | _, _, _ => []
  end.

Definition col_ok (a : Form_pg_attribute) (v : Datum) (null : bool) : Prop :=
  null = false → attr_ok a v.

Definition row_ok : list Form_pg_attribute → list Datum → list bool → Prop := Forall3 col_ok.

Lemma attr_start_pad a v pos : attr_start a v pos = pos + blen (attr_pad a v pos).
Proof.
  unfold attr_start, attr_pad. destruct (packed a v); [by rewrite blen_nil, Z.add_0_r|].
  rewrite blen_pad. lia.
Qed.

Lemma compute_loop_ok atts vs ns :
  row_ok atts vs ns → ∀ pos, compute_loop atts vs ns pos = Some (pos + blen (layout atts vs ns pos)).
Proof.
  induction 1 as [|a v n atts vs ns Hc Hrow IH]; intros pos; cbn [compute_loop layout].
  - by rewrite blen_nil, Z.add_0_r.
  - destruct n; [apply IH|]. specialize (Hc eq_refl).
    assert (Es : is_varlena_short a v = Some (packed a v)).
    { unfold is_varlena_short, packed. destruct v as [z|p].
      - destruct Hc as [_ Hl]. rewrite (proj2 (Z.eqb_neq _ _)); [done|set_unfold; lia].
      - by destruct (attlen a =? -1). }
    rewrite Es. cbn [mbind option_bind].
    rewrite !blen_app, !Z.add_assoc, <- attr_start_pad. unfold attr_start.
    destruct (packed a v) eqn:Ep.
    + destruct v as [z|p]; [done|]. cbn [DatumGetPointer mbind option_bind].
      rewrite (packed_size a) by done. by rewrite IH.
    + rewrite (unpacked_size a) by done. cbn [mbind option_bind]. by rewrite IH.
Qed.

(** ** Filling *)

Definition attr_flags (a : Form_pg_attribute) (v : Datum) : Z :=
  match v with
  | ByVal _ => 0
  | ByRef p =>
      if attlen a =? -1 then
        Z.lor HEAP_HASVARWIDTH
          (Z.lor (if VARATT_IS_COMPRESSED p then HEAP_HASCOMPRESSED else 0)
                 (if VARATT_IS_EXTERNAL p then HEAP_HASEXTERNAL else 0))
      else if attlen a =? -2 then HEAP_HASVARWIDTH else 0
  end.

Lemma fill_aligned_ok a p n f :
  0 ≤ f_pos f → 0 ≤ n ≤ blen p → att_align (f_pos f) (attalign a) + n ≤ blen (f_data f) →
  fill_aligned a p n f =
    Some (wrote (memcpy (f_data f) (f_pos f) (pad (f_pos f) (attalign a) ++ take (Z.to_nat n) p))
            (att_align (f_pos f) (attalign a) + n) f).
Proof.
  intros Hpos Hn Hd. unfold fill_aligned. pose proof (att_align_range (f_pos f) (attalign a)).
  rewrite att_align_zero_ok by lia. cbn [mbind option_bind]. rewrite read_bytes_ok by done.
  cbn [mbind option_bind]. rewrite write_bytes_ok by (rewrite ?blen_memcpy, ?blen_take; lia).
  cbn [mbind option_bind]. do 2 f_equal. rewrite <- memcpy_app by done. rewrite blen_pad. f_equal. lia.
Qed.

Lemma wrote_flags fl d pos f :
  wrote d pos (set_flag fl f) = mkFill d pos (Z.lor (f_infomask f) fl) (f_bit f) (f_bitP f) (f_bitmask f).
Proof. done. Qed.

(** The state after a value. *)
Definition filled (a : Form_pg_attribute) (v : Datum) (f : Fill) : Fill :=
  mkFill (memcpy (f_data f) (f_pos f) (attr_pad a v (f_pos f) ++ attr_image a v))
    (attr_start a v (f_pos f) + blen (attr_image a v)) (Z.lor (f_infomask f) (attr_flags a v))
    (f_bit f) (f_bitP f) (f_bitmask f).

Lemma fill_short_ok p f :
  varlena_ok p → VARATT_IS_SHORT p = false → VARATT_COULD_SHORT p = true →
  0 ≤ f_pos f → f_pos f + blen (shrink p) ≤ blen (f_data f) →
  (data ← write_bytes (f_data f) (f_pos f) [VARSIZE_TO_SHORT p];
   src ← read_bytes (VARDATA p) (VARSIZE p - VARHDRSZ + VARHDRSZ_SHORT - 1);
   data ← write_bytes data (f_pos f + 1) src;
   Some (wrote data (f_pos f + (VARSIZE p - VARHDRSZ + VARHDRSZ_SHORT)) f)) =
  Some (wrote (memcpy (f_data f) (f_pos f) (shrink p)) (f_pos f + blen (shrink p)) f).
Proof.
  intros Hp H1 Hc Hpos Hd. destruct (shrink_header p Hp H1 Hc) as (_ & Hr & El).
  destruct (varlena_4b p Hp H1) as [_ Hs]. unfold VARHDRSZ, VARHDRSZ_SHORT.
  replace (VARSIZE p - 4 + 1 - 1) with (VARSIZE p - 4) by lia.
  assert (Hdata : VARSIZE p - 4 ≤ blen (VARDATA p))
    by (unfold VARDATA, VARHDRSZ, blen in *; rewrite length_drop; lia).
  rewrite write_bytes_ok by (rewrite ?blen_cons, ?blen_nil; lia). cbn [mbind option_bind].
  rewrite read_bytes_ok by lia. cbn [mbind option_bind].
  rewrite write_bytes_ok by (rewrite ?blen_memcpy, ?blen_take; lia). cbn [mbind option_bind].
  do 2 f_equal; [|lia]. unfold shrink. change (f_pos f + 1) with (f_pos f + blen [VARSIZE_TO_SHORT p]).
  by rewrite memcpy_app.
Qed.

Lemma fill_varlena_ok a p f :
  attlen a = -1 → varlena_ok p → 0 ≤ f_pos f →
  attr_start a (ByRef p) (f_pos f) + blen (attr_image a (ByRef p)) ≤ blen (f_data f) →
  fill_varlena a p f = Some (filled a (ByRef p) f).
Proof.
  intros Ea Hp Hpos. unfold filled. rewrite image_byref by done. unfold attr_start, attr_pad, attr_flags.
  rewrite Ea. change (-1 =? -1) with true. cbv iota.
  destruct (varlena_cases p Hp) as [_ Hc]. pose proof (varlena_size p Hp) as Hsz.
  assert (Epk : packed a (ByRef p) = value_type_could_short p (atttypid a)) by (cbn; by rewrite Ea).
  unfold value_type_could_short in Epk. unfold fill_varlena.
  set (f1 := if VARATT_IS_COMPRESSED p then _ else _).
  assert (Ef : ∀ d q, wrote d q f1 =
    mkFill d q (Z.lor (f_infomask f) (Z.lor HEAP_HASVARWIDTH
      (if VARATT_IS_COMPRESSED p then HEAP_HASCOMPRESSED else 0))) (f_bit f) (f_bitP f) (f_bitmask f)).
  { intros. unfold f1. destruct (VARATT_IS_COMPRESSED p); unfold wrote, set_flag; cbn; f_equal;
      by rewrite ?Z.lor_0_r, ?Z.lor_assoc. }
  assert (Ed : f_data f1 = f_data f ∧ f_pos f1 = f_pos f) by (unfold f1; by destruct (VARATT_IS_COMPRESSED p)).
  destruct Ed as [Ed Eq].
  destruct Hc as [(E1 & E2 & E3 & Hl)|[(E1 & E2 & E3 & Hl)|(E1 & E2 & E3 & Hl)]];
    rewrite E1, E2 in *; cbn [negb andb orb] in *.
  - rewrite Epk, E3. cbn [andb]. intros Hd. rewrite blen_take in Hd by lia.
    unfold VARSIZE_EXTERNAL, VARHDRSZ_EXTERNAL, sizeof_varatt_external. cbn [Z.add Pos.add Pos.succ].
    rewrite fill_aligned_ok; cbn [set_flag f_pos f_data]; rewrite ?Ed, ?Eq; [|done|lia|lia].
    f_equal. change (wrote ?d ?q (set_flag ?fl ?g)) with (set_flag fl (wrote d q g)). rewrite Ef.
    unfold set_flag. cbn [f_data f_pos f_infomask f_bit f_bitP f_bitmask]. rewrite blen_take by lia.
    by rewrite <- !Z.lor_assoc.
  - rewrite Epk, E3. cbn [andb]. intros Hd. rewrite blen_take in Hd |- * by lia. rewrite Ed, Eq.
    rewrite read_bytes_ok by lia. cbn [mbind option_bind].
    rewrite write_bytes_ok by (rewrite ?blen_take; lia). cbn [mbind option_bind]. rewrite Ef.
    by rewrite Z.lor_0_r.
  - rewrite <- !andb_assoc in Epk. rewrite <- !andb_assoc, <- Epk. destruct (packed a (ByRef p)) eqn:Ek; cbn [andb]; intros Hd.
    + rewrite fill_short_ok; rewrite ?Ed, ?Eq; [|done..| |done|done].
      * f_equal. rewrite Ef. by rewrite Z.lor_0_r.
      * by apply (packed_shrink a).
    + rewrite E3 in *. rewrite blen_take in Hd |- * by lia.
      rewrite fill_aligned_ok; rewrite ?Ed, ?Eq; [|done|lia|lia]. rewrite Ef. by rewrite Z.lor_0_r.
Qed.

Lemma fill_value_ok a v f :
  attr_ok a v → 0 ≤ f_pos f →
  attr_start a v (f_pos f) + blen (attr_image a v) ≤ blen (f_data f) →
  fill_value a v f = ok (filled a v f).
Proof.
  intros Hok Hpos Hd. unfold fill_value. destruct v as [z|p].
  - pose proof Hok as [-> Hl]. assert (Hpl : 0 < attlen a) by (set_unfold; lia).
    pose proof (image_fixed a (ByVal z) Hok Hpl) as Hf. rewrite Hf in Hd.
    unfold filled, attr_start, attr_pad. cbn [packed attr_flags] in *. rewrite Hf, Z.lor_0_r.
    unfold attr_start in Hd. cbn [packed] in Hd.
    rewrite att_align_zero_ok by lia. cbn [lift_opt fmap option_fmap option_map res_bind].
    unfold store_att_byval.
    assert ((attlen a =? 1) || (attlen a =? 2) || (attlen a =? 4) || (attlen a =? 8) = true) as ->.
    { set_unfold. by destruct Hl as [->|[->|[->|[->|[]]]]]. }
    pose proof (att_align_range (f_pos f) (attalign a)). cbn [attr_image] in *.
    rewrite write_bytes_ok by (rewrite ?blen_memcpy; lia).
    cbn [lift_opt fmap option_fmap option_map res_bind]. unfold wrote.
    rewrite <- memcpy_app, blen_pad by done. by rewrite Z.add_sub_assoc, Z.add_simpl_l.
  - pose proof Hok as [-> Hc]. cbn [DatumGetPointer lift_opt fmap option_fmap option_map res_bind].
    destruct Hc as [[Ea Hp]|[[Ea [n Hn]]|Ha]].
    + rewrite Ea. change (-1 =? -1) with true. cbv iota. by rewrite fill_varlena_ok.
    + unfold filled, attr_start, attr_pad, attr_flags, attr_image in *. cbn [packed] in *. rewrite Ea, Hn in *.
      change (-2 =? -1) with false in *. change (-2 =? -2) with true in *.
      cbn [andb lift_opt fmap option_fmap option_map res_bind default from_option] in *. unfold id in *.
      pose proof (strlen_range _ _ Hn). rewrite blen_take in Hd |- * by lia.
      by rewrite fill_aligned_ok by (cbn [set_flag f_pos f_data]; lia).
    + unfold filled, attr_start, attr_pad, attr_flags, attr_image in *. cbn [packed] in *.
      rewrite (proj2 (Z.eqb_neq (attlen a) (-1))), (proj2 (Z.eqb_neq (attlen a) (-2))) in * by lia.
      cbn [andb] in *. rewrite blen_take in Hd |- * by lia. rewrite Z.lor_0_r.
      by rewrite fill_aligned_ok by lia.
Qed.

(** ** The null bitmap *)

(** Bit [i] of the bitmap is set when attribute [i] is not null. *)
Definition bits_ok (bits : list Z) (isnull : list bool) : Prop :=
  ∀ (i : nat) n, isnull !! i = Some n →
    ∃ b, bits !! Z.to_nat (Z.of_nat i `div` 8) = Some b ∧ is_byte b ∧
         Z.testbit b (Z.of_nat i `mod` 8) = negb n.

(** The bitmap while it is filled, after the attributes in [pre]. *)
Definition bits_inv (f : Fill) (size : Z) (pre : list bool) : Prop :=
  let k := Z.of_nat (length pre) in
  ∃ bits, f_bit f = Some bits ∧ blen bits = size ∧ bits_ok bits pre ∧
    f_bitP f = (k + 7) `div` 8 - 1 ∧ f_bitmask f = 2 ^ ((k + 7) `mod` 8) ∧
    (k `mod` 8 ≠ 0 → ∃ b, bits !! Z.to_nat (k `div` 8) = Some b ∧ 0 ≤ b < 2 ^ (k `mod` 8)).

Lemma bits_ok_insert bits pre j b b' :
  bits_ok bits pre → bits !! j = Some b → is_byte b' →
  (∀ i, (i < length pre)%nat → Z.to_nat (Z.of_nat i `div` 8) = j →
     Z.testbit b' (Z.of_nat i `mod` 8) = Z.testbit b (Z.of_nat i `mod` 8)) →
  bits_ok (<[j := b']> bits) pre.
Proof.
  intros Hok Hj Hb' Hsame i n Hi. destruct (Hok i n Hi) as (c & Hc & Hbc & Ht).
  destruct (decide (Z.to_nat (Z.of_nat i `div` 8) = j)) as [E|E].
  - exists b'. rewrite E. split; [apply list_lookup_insert_eq; by eapply lookup_lt_Some|].
    split; [done|]. rewrite Hsame; [|by eapply lookup_lt_Some|done]. rewrite E in Hc. by simplify_eq.
  - exists c. by rewrite list_lookup_insert_ne.
Qed.

Lemma bits_ok_snoc bits pre n b :
  bits_ok bits pre → bits !! Z.to_nat (Z.of_nat (length pre) `div` 8) = Some b → is_byte b →
  Z.testbit b (Z.of_nat (length pre) `mod` 8) = negb n → bits_ok bits (pre ++ [n]).
Proof.
  intros Hok Hb Hbb Ht i m Hi. apply lookup_app_Some in Hi as [Hi|[Hge Hi]]; [by apply Hok|].
  apply list_lookup_singleton_Some in Hi as [Hi ->].
  assert (i = length pre) as -> by lia. by exists b.
Qed.

Lemma testbit_small b k : 0 ≤ b < 2 ^ k → 0 ≤ k → Z.testbit b k = false.
Proof. intros. by apply (range_testbit b k). Qed.

Lemma lor_bit_range b k : 0 ≤ b < 2 ^ k → 0 ≤ k → 0 ≤ Z.lor b (2 ^ k) < 2 ^ (k + 1).
Proof.
  intros Hb Hk. replace (2 ^ k) with (Z.shiftl 1 k) by (rewrite Z.shiftl_mul_pow2; lia).
  rewrite lor_shiftl_add, Z.shiftl_mul_pow2 by lia. rewrite Z.pow_add_r by lia. lia.
Qed.

(** The byte of the next bit, started at 0 or with the bits before it. *)
Lemma next_byte f size pre :
  let k := Z.of_nat (length pre) in
  bits_inv f size pre → k < 8 * size →
  ∃ bits bits' b, f_bit f = Some bits ∧
    (if negb (f_bitmask f =? HIGHBIT) then Some (bits, f_bitP f, Z.shiftl (f_bitmask f) 1)
     else _ ← bits !! Z.to_nat (f_bitP f + 1);
          Some (<[Z.to_nat (f_bitP f + 1) := 0]> bits, f_bitP f + 1, 1))
    = Some (bits', k `div` 8, 2 ^ (k `mod` 8)) ∧
    blen bits' = size ∧ bits_ok bits' pre ∧ bits' !! Z.to_nat (k `div` 8) = Some b ∧
    0 ≤ b < 2 ^ (k `mod` 8).
Proof.
  intros k (bits & Ef & El & Hok & EP & EM & Hcur) Hk. fold k in EP, EM, Hcur. exists bits.
  destruct (decide (k `mod` 8 = 0)) as [E|E].
  - assert (Hm : f_bitmask f = 128).
    { rewrite EM. replace ((k + 7) `mod` 8) with 7 by divlia. done. }
    rewrite Hm. change (negb (128 =? HIGHBIT)) with false. cbv iota.
    assert (HP : f_bitP f + 1 = k `div` 8) by (rewrite EP; divlia). rewrite HP.
    assert (Hlt : (Z.to_nat (k `div` 8) < length bits)%nat).
    { unfold blen in El. assert (k `div` 8 < size) by divlia. assert (0 ≤ k `div` 8) by divlia. lia. }
    destruct (lookup_lt_is_Some_2 _ _ Hlt) as [b0 Hb0]. rewrite Hb0. cbn [mbind option_bind].
    exists (<[Z.to_nat (k `div` 8) := 0]> bits), 0. rewrite E. split_and!; [done..| | | |done|done].
    + unfold blen in *. by rewrite length_insert.
    + apply (bits_ok_insert _ _ _ b0); [done..|]. intros i Hi Ei. exfalso.
      assert (Z.of_nat i `div` 8 < k `div` 8) by (unfold k in *; divlia).
      assert (0 ≤ Z.of_nat i `div` 8) by divlia. lia.
    + by apply list_lookup_insert_eq.
  - assert (Hne : f_bitmask f ≠ 128).
    { rewrite EM. replace ((k + 7) `mod` 8) with (k `mod` 8 - 1) by divlia.
      intros E'. change 128 with (2 ^ 7) in E'. apply Z.pow_inj_r in E'; divlia. }
    unfold HIGHBIT. rewrite (proj2 (Z.eqb_neq _ _) Hne). cbn [negb].
    destruct (Hcur E) as (b & Hb & Hr). exists bits, b. split_and!; try done; [|lia..].
    do 3 f_equal; [rewrite EP; divlia|]. rewrite EM, Z.shiftl_mul_pow2 by lia.
    replace ((k + 7) `mod` 8) with (k `mod` 8 - 1) by divlia.
    rewrite <- Z.pow_add_r by divlia. f_equal. lia.
Qed.

Lemma bits_inv_next f bits size pre n b :
  let k := Z.of_nat (length pre) in
  f_bit f = Some bits → blen bits = size → bits_ok bits pre →
  f_bitP f = k `div` 8 → f_bitmask f = 2 ^ (k `mod` 8) →
  bits !! Z.to_nat (k `div` 8) = Some b → 0 ≤ b < 2 ^ (k `mod` 8 + 1) →
  Z.testbit b (k `mod` 8) = negb n → bits_inv f size (pre ++ [n]).
Proof.
  intros k Ef El Hok EP EM Hb Hr Ht.
  assert (Hk : Z.of_nat (length (pre ++ [n])) = k + 1) by (rewrite length_app; cbn; lia).
  assert (Hm8 : 0 ≤ k `mod` 8 < 8) by divlia.
  exists bits. rewrite Hk. split_and!; try done.
  - apply (bits_ok_snoc _ _ _ b); [done..| |done].
    unfold is_byte. pose proof (Z.pow_le_mono_r 2 (k `mod` 8 + 1) 8). lia.
  - rewrite EP. divlia.
  - rewrite EM. f_equal. divlia.
  - intros Hne. exists b. replace ((k + 1) `div` 8) with (k `div` 8) by divlia.
    split; [done|]. by replace ((k + 1) `mod` 8) with (k `mod` 8 + 1) by divlia.
Qed.

Lemma fill_bit_ok null f size pre :
  bits_inv f size pre → Z.of_nat (length pre) < 8 * size →
  ∃ f', fill_bit null f = Some (f', null) ∧ bits_inv f' size (pre ++ [null]) ∧
    f_data f' = f_data f ∧ f_pos f' = f_pos f ∧
    f_infomask f' = Z.lor (f_infomask f) (if null then HEAP_HASNULL else 0).
Proof.
  intros Hinv Hk. destruct (next_byte f size pre Hinv Hk) as (bits & bits' & b & Ef & E & El & Hok & Hb & Hr).
  set (k := Z.of_nat (length pre)) in *.
  assert (Hm8 : 0 ≤ k `mod` 8 < 8) by divlia.
  assert (Hpow : 2 ^ (k `mod` 8) < 2 ^ (k `mod` 8 + 1)) by (apply Z.pow_lt_mono_r; lia).
  unfold fill_bit. rewrite Ef, E. cbn [mbind option_bind]. destruct null.
  - eexists. split; [done|]. split; [|done].
    apply (bits_inv_next _ bits' _ _ _ b); fold k; try done; [lia|]. by rewrite (testbit_small b) by lia.
  - rewrite Hb. cbn [mbind option_bind]. eexists. split; [done|].
    split; [|cbn; by rewrite Z.lor_0_r].
    pose proof (lor_bit_range b (k `mod` 8) Hr) as Hlr.
    apply (bits_inv_next _ (<[Z.to_nat (k `div` 8) := Z.lor b (2 ^ (k `mod` 8))]> bits') _ _ _
             (Z.lor b (2 ^ (k `mod` 8)))); fold k; try done.
    + unfold blen in *. by rewrite length_insert.
    + apply (bits_ok_insert _ _ _ b); [done..| |].
      * unfold is_byte. pose proof (Z.pow_le_mono_r 2 (k `mod` 8 + 1) 8). lia.
      * intros i Hi Ei. rewrite Z.lor_spec, Z.pow2_bits_false, orb_false_r; [done|].
        unfold k in *. assert (0 ≤ Z.of_nat i `div` 8) by divlia. assert (0 ≤ Z.of_nat (length pre) `div` 8) by divlia.
        assert (Z.of_nat i `div` 8 = Z.of_nat (length pre) `div` 8) by lia. divlia.
    + apply list_lookup_insert_eq. by eapply lookup_lt_Some.
    + apply Hlr. lia.
    + by rewrite Z.lor_spec, Z.pow2_bits_true, orb_true_r by lia.
Qed.

(** ** The loop *)

Fixpoint row_flags (atts : list Form_pg_attribute) (values : list Datum) (isnull : list bool) : Z :=
  match atts, values, isnull with
  | a :: atts, v :: values, null :: isnull =>
      Z.lor (if null : bool then HEAP_HASNULL else attr_flags a v) (row_flags atts values isnull)
  | _, _, _ => 0
  end.

(** The bitmap is there exactly when a value is null. *)
Definition bit_state (hasnull : bool) (f : Fill) (size : Z) (pre : list bool) : Prop :=
  if hasnull then bits_inv f size pre else f_bit f = None.

Lemma fill_bit_state hasnull null f size pre :
  bit_state hasnull f size pre → (hasnull = true → Z.of_nat (length pre) < 8 * size) →
  (hasnull = false → null = false) →
  ∃ f', fill_bit null f = Some (f', null) ∧ bit_state hasnull f' size (pre ++ [null]) ∧
    f_data f' = f_data f ∧ f_pos f' = f_pos f ∧
    f_infomask f' = Z.lor (f_infomask f) (if null then HEAP_HASNULL else 0).
Proof.
  destruct hasnull; cbn [bit_state]; intros Hf Hlen Hnull; [apply fill_bit_ok; auto|].
  rewrite (Hnull eq_refl). unfold fill_bit. rewrite Hf. exists f. by rewrite Z.lor_0_r.
Qed.

Lemma bit_state_filled hasnull a v f size pre :
  bit_state hasnull f size pre → bit_state hasnull (filled a v f) size pre.
Proof. by destruct hasnull. Qed.

Lemma fill_loop_ok hasnull size atts vs ns :
  row_ok atts vs ns → (hasnull = false → Forall (eq false) ns) → ∀ f pre,
  bit_state hasnull f size pre →
  (hasnull = true → Z.of_nat (length pre + length ns) ≤ 8 * size) →
  0 ≤ f_pos f → f_pos f + blen (layout atts vs ns (f_pos f)) ≤ blen (f_data f) →
  ∃ f', fill_loop atts vs ns f = ok f' ∧ bit_state hasnull f' size (pre ++ ns) ∧
    f_data f' = memcpy (f_data f) (f_pos f) (layout atts vs ns (f_pos f)) ∧
    f_infomask f' = Z.lor (f_infomask f) (row_flags atts vs ns).
Proof.
  induction 1 as [|a v n atts vs ns Hc Hrow IH]; intros Hall f pre Hst Hsz Hpos Hd.
  - exists f. cbn. by rewrite app_nil_r, Z.lor_0_r.
  - cbn [fill_loop layout row_flags length] in *.
    assert (Hall' : hasnull = false → Forall (eq false) ns ∧ n = false)
      by (intros E; specialize (Hall E); rewrite Forall_cons in Hall; naive_solver).
    destruct (fill_bit_state hasnull n f size pre Hst) as (f1 & E1 & Hst1 & Ed & Ep & Em).
    { intros E. specialize (Hsz E). lia. }
    { intros E. by apply Hall'. }
    rewrite E1. cbn [lift_opt fmap option_fmap option_map res_bind].
    assert (Hsz' : hasnull = true → Z.of_nat (length (pre ++ [n]) + length ns) ≤ 8 * size).
    { intros E. specialize (Hsz E). rewrite length_app. cbn. lia. }
    destruct n.
    + destruct (IH (λ E, proj1 (Hall' E)) f1 (pre ++ [true]) Hst1 Hsz') as (f' & E & Hst' & Ed' & Em'); rewrite ?Ed, ?Ep; [done..|].
      exists f'. rewrite E, Ed', Em', Ed, Ep, Em, Z.lor_assoc. by rewrite <- app_assoc in Hst'.
    + specialize (Hc eq_refl). rewrite !blen_app, !Z.add_assoc, <- attr_start_pad in Hd.
      pose proof (image_pos a v Hc). pose proof (blen_nonneg (layout atts vs ns (attr_start a v (f_pos f) + blen (attr_image a v)))).
      pose proof (attr_start_pad a v (f_pos f)) as Hpad. pose proof (blen_nonneg (attr_pad a v (f_pos f))).
      rewrite (fill_value_ok a v f1) by (rewrite ?Ed, ?Ep; done || lia). cbn [ok res_bind].
      destruct (IH (λ E, proj1 (Hall' E)) (filled a v f1) (pre ++ [false])) as (f' & E & Hst' & Ed' & Em').
      * by apply bit_state_filled.
      * done.
      * cbn [filled f_pos]. rewrite Ep. lia.
      * cbn [filled f_pos f_data]. rewrite Ed, Ep, blen_memcpy. lia.
      * exists f'. rewrite E, Ed', Em'. cbn [filled f_pos f_data f_infomask]. rewrite Ed, Ep, Em.
        rewrite <- app_assoc in Hst'. split_and!; [done|done| |by rewrite Z.lor_0_r, Z.lor_assoc].
        rewrite app_assoc, <- (memcpy_app _ _ (attr_pad a v (f_pos f) ++ attr_image a v)) by done.
        f_equal. rewrite blen_app, Hpad. lia.
Qed.

(** ** A formed tuple *)

Definition has_varwidth (atts : list Form_pg_attribute) (isnull : list bool) : bool :=
  existsb (λ '(a, n), negb n && (attlen a <? 0)) (zip atts isnull).

(** What reading a tuple relies on: the tuple [t] holds the row. *)
Record formed (t : HeapTuple) (atts : list Form_pg_attribute) (values : list Datum)
    (isnull : list bool) : Prop := {
  formed_row : row_ok atts values isnull;
  formed_natts : HeapTupleHeaderGetNatts t = Z.of_nat (length atts);
  formed_area : t_area t = layout atts values isnull 0;
  formed_nulls : HeapTupleHasNulls t = existsb id isnull;
  formed_bits : existsb id isnull = true → bits_ok (t_bits t) isnull;
  formed_varwidth : HeapTupleHasVarWidth t = has_varwidth atts isnull
}.

Lemma land_lor_eq0 a b m : Z.land (Z.lor a b) m =? 0 = (Z.land a m =? 0) && (Z.land b m =? 0).
Proof.
  rewrite Z.land_lor_distr_l. apply eq_true_iff_eq. rewrite andb_true_iff, !Z.eqb_eq. apply Z.lor_eq_0_iff.
Qed.

Lemma row_flags_null atts vs ns :
  row_ok atts vs ns → Z.land (row_flags atts vs ns) HEAP_HASNULL =? 0 = negb (existsb id ns).
Proof.
  induction 1 as [|a v n atts vs ns Hc Hrow IH]; [done|]. cbn [row_flags existsb].
  rewrite land_lor_eq0, IH. destruct n; [done|]. cbn [id orb]. unfold attr_flags.
  repeat case_match; done.
Qed.

Lemma row_flags_varwidth atts vs ns :
  row_ok atts vs ns → Z.land (row_flags atts vs ns) HEAP_HASVARWIDTH =? 0 = negb (has_varwidth atts ns).
Proof.
  induction 1 as [|a v n atts vs ns Hc Hrow IH]; [done|]. unfold has_varwidth in *.
  cbn [row_flags existsb zip zip_with]. rewrite land_lor_eq0, IH, negb_orb. f_equal.
  destruct n; [done|]. specialize (Hc eq_refl). cbn [negb andb]. destruct v as [z|p]; cbn [attr_flags].
  - destruct Hc as [_ Hl]. rewrite (proj2 (Z.ltb_ge _ _)); [done|set_unfold; lia].
  - destruct Hc as [_ [[Ea _]|[[Ea _]|Ha]]].
    + rewrite Ea. cbn [Z.eqb Pos.eqb]. by repeat case_match.
    + by rewrite Ea.
    + rewrite (proj2 (Z.eqb_neq (attlen a) (-1))), (proj2 (Z.eqb_neq (attlen a) (-2))), (proj2 (Z.ltb_ge _ _)) by lia.
      done.
Qed.

Lemma blen_layout_nonneg atts vs ns pos : 0 ≤ blen (layout atts vs ns pos).
Proof. apply blen_nonneg. Qed.

Lemma row_ok_length atts vs ns : row_ok atts vs ns → length vs = length atts ∧ length ns = length atts.
Proof. induction 1; cbn; lia. Qed.

Lemma no_nulls ns : existsb id ns = false → Forall (eq false) ns.
Proof.
  induction ns as [|n ns IH]; [done|]. cbn. intros [Hn Hns]%orb_false_iff.
  apply Forall_cons. split; [by destruct n|by apply IH].
Qed.

Lemma bitmaplen_range n : 0 ≤ n → 0 ≤ BITMAPLEN n ∧ n ≤ 8 * BITMAPLEN n ≤ n + 7.
Proof. intros. unfold BITMAPLEN. divlia. Qed.

Lemma heap_fill_tuple_ok d vs ns data im bit :
  row_ok (attrs d) vs ns → blen data = blen (layout (attrs d) vs ns 0) →
  (if existsb id ns then ∃ bits, bit = Some bits ∧ blen bits = BITMAPLEN (natts d) else bit = None) →
  ∃ f, heap_fill_tuple d vs ns data im bit = ok f ∧ f_data f = layout (attrs d) vs ns 0 ∧
    f_infomask f = Z.lor (Z.land im (Z.lnot 15)) (row_flags (attrs d) vs ns) ∧
    (existsb id ns = true → ∃ bits, f_bit f = Some bits ∧ bits_ok bits ns).
Proof.
  intros Hrow Hlen Hbit. destruct (row_ok_length _ _ _ Hrow) as [_ Hn].
  pose proof (bitmaplen_range (natts d) ltac:(unfold natts; lia)) as [Hb0 Hb8].
  destruct (fill_loop_ok (existsb id ns) (BITMAPLEN (natts d)) (attrs d) vs ns Hrow (no_nulls ns)
    (mkFill data 0 (Z.land im (Z.lnot 15)) bit (-1) (match bit with Some _ => HIGHBIT | None => 0 end)) [])
    as (f & Ef & Hst & Ed & Em).
  - unfold bit_state. destruct (existsb id ns); [|done]. destruct Hbit as (bits & -> & Hl).
    exists bits. by split_and!.
  - intros _. cbn [length]. unfold natts in *. lia.
  - done.
  - cbn [f_data f_pos]. lia.
  - exists f. split; [exact Ef|]. cbn [f_data f_pos f_infomask] in *. split_and!; [|done|].
    + rewrite Ed. unfold memcpy. change (Z.to_nat 0) with 0%nat.
      rewrite <- (app_nil_r (layout (attrs d) vs ns 0)) at 1.
      apply list_inserts_0_l. unfold blen in Hlen. lia.
    + intros E. unfold bit_state in Hst. rewrite E in Hst.
      destruct Hst as (bits & ? & _ & ? & _). by exists bits.
Qed.

Section FormSpec.
Context (flatten : list Z → Z → Z → res (list Z)) (palloc : Z → list Z).
Context (palloc_len : ∀ n, 0 ≤ n → blen (palloc n) = n).

(** Flattening a value raises an error or gives a value. *)
Context (flatten_ok : ∀ p typid typmod, varlena_ok p →
  flatten p typid typmod = elog ∨ ∃ q, flatten p typid typmod = ok q ∧ varlena_ok q).

(** The value that is stored for a value that may be composite, and whether
    there is one. *)
Definition flat_datum (a : Form_pg_attribute) (v : Datum) : Datum :=
  match v with
  | ByRef p =>
      if may_be_composite a v then
        match flatten p (atttypid a) (atttypmod a) with Some (Return q) => ByRef q | _ => v end
      else v
  | ByVal _ => v
  end.

Definition flat_fails (a : Form_pg_attribute) (v : Datum) : bool :=
  match v with
  | ByRef p =>
      may_be_composite a v &&
      match flatten p (atttypid a) (atttypmod a) with Some (Return _) => false | _ => true end
  | ByVal _ => false
  end.

Fixpoint flat_row (atts : list Form_pg_attribute) (vs : list Datum) (ns : list bool) : list Datum :=
  match atts, vs, ns with
  | a :: atts, v :: vs, n :: ns =>
      (if n : bool then v else flat_datum a v) :: flat_row atts vs ns
  | _, _, _ => []
  end.

Fixpoint flat_row_fails (atts : list Form_pg_attribute) (vs : list Datum) (ns : list bool) : bool :=
  match atts, vs, ns with
  | a :: atts, v :: vs, n :: ns => negb n && flat_fails a v || flat_row_fails atts vs ns
  | _, _, _ => false
  end.

(** Flattening one value, as the code does it. *)
Definition flatten_value (a : Form_pg_attribute) (v : Datum) : res Datum :=
  if may_be_composite a v then
    let+ p := lift_opt (DatumGetPointer v) in
    let+ p := flatten p (atttypid a) (atttypmod a) in ok (ByRef p)
  else ok v.

Lemma flatten_value_ok a v :
  attr_ok a v → flatten_value a v = if flat_fails a v then elog else ok (flat_datum a v).
Proof.
  intros Hok. unfold flatten_value, flat_fails, flat_datum. destruct v as [z|p]; [done|].
  destruct (may_be_composite a (ByRef p)) eqn:E; [|done]. cbn [may_be_composite] in E.
  rewrite !andb_true_iff, Z.eqb_eq in E. destruct E as [[[Ea _] _] _].
  destruct Hok as [_ [[_ Hp]|[[? _]|?]]]; [|lia..].
  cbn [DatumGetPointer lift_opt fmap option_fmap option_map res_bind andb].
  by destruct (flatten_ok p (atttypid a) (atttypmod a) Hp) as [->|(q & -> & _)].
Qed.

Lemma flat_datum_ok a v : attr_ok a v → attr_ok a (flat_datum a v).
Proof.
  destruct v as [z|p]; [done|]. intros Hok. unfold flat_datum.
  destruct (may_be_composite a (ByRef p)) eqn:E; [|done]. cbn [may_be_composite] in E.
  rewrite !andb_true_iff, Z.eqb_eq in E. destruct E as [[[Ea _] _] _]. pose proof Hok as [Hb [[_ Hp]|[[? _]|?]]]; [|lia..].
  destruct (flatten_ok p (atttypid a) (atttypmod a) Hp) as [->|(q & -> & Hq)]; [done|]. split; [done|]. by left.
Qed.

Lemma flat_row_ok atts vs ns : row_ok atts vs ns → row_ok atts (flat_row atts vs ns) ns.
Proof.
  induction 1 as [|a v n atts vs ns Hc Hrow IH]; [constructor|]. constructor; [|done].
  intros ->. by apply flat_datum_ok, Hc.
Qed.

Lemma flatten_loop_ok atts vs ns :
  row_ok atts vs ns → ∀ h,
  flatten_loop flatten atts vs ns h =
    if flat_row_fails atts vs ns then elog else ok (flat_row atts vs ns, h || existsb id ns).
Proof.
  induction 1 as [|a v n atts vs ns Hc Hrow IH]; intros h.
  { cbn. by rewrite orb_false_r. }
  cbn [flatten_loop flat_row flat_row_fails existsb]. destruct n; cbn [id orb negb andb].
  - rewrite IH, orb_true_r. by destruct (flat_row_fails atts vs ns).
  - fold (flatten_value a v). rewrite (flatten_value_ok a v (Hc eq_refl)).
    destruct (flat_fails a v); cbn [orb ok elog res_bind]; [done|]. rewrite IH. by destruct (flat_row_fails atts vs ns).
Qed.

Lemma natts_mask n :
  0 ≤ n ≤ MaxTupleAttributeNumber → Z.land (HeapTupleHeaderSetNatts 0 n) HEAP_NATTS_MASK = n.
Proof.
  unfold MaxTupleAttributeNumber. intros Hn. unfold HeapTupleHeaderSetNatts. rewrite Z.land_0_l, Z.lor_0_l.
  change HEAP_NATTS_MASK with (Z.ones 11). rewrite Z.land_ones by lia. apply Z.mod_small. lia.
Qed.

(** The length of the header fits into the byte that holds it. *)
Lemma header_len_byte d hn ho :
  natts d ≤ MaxTupleAttributeNumber → 0 ≤ header_len d hn ho ∧ u8 (header_len d hn ho) = header_len d hn ho.
Proof.
  intros Hn. pose proof (bitmaplen_range (natts d) ltac:(unfold natts; lia)) as [Hb0 Hb8].
  unfold header_len, MAXALIGN, u8. rewrite (TYPEALIGN_pow 3) by lia.
  unfold offset_t_bits, sizeof_Oid, MaxTupleAttributeNumber in *. destruct hn, ho; divlia.
Qed.

(** The memory for a tuple, and the tuple. *)
Definition tuple_size (d : TupleDesc) (vs : list Datum) (ns : list bool) : Z :=
  HEAPTUPLESIZE + header_len d (existsb id ns) (tdhasoid d) + blen (layout (attrs d) vs ns 0).

(** With the values flattened: the tuple when there is memory for it. *)
Lemma heaptuple_form_to_ok d vs ns :
  row_ok (attrs d) vs ns → natts d ≤ MaxTupleAttributeNumber → flat_row_fails (attrs d) vs ns = false →
  let need := tuple_size d (flat_row (attrs d) vs ns) ns in
  ∃ t, formed t (attrs d) (flat_row (attrs d) vs ns) ns ∧
    need = HEAPTUPLESIZE + t_hoff t + blen (t_area t) ∧
    t_len t = u32 (t_hoff t + blen (t_area t)) ∧ datum_len_ t = Z.land (t_hoff t + blen (t_area t)) 0x3FFFFFFF ∧
    heaptuple_form_to flatten palloc d vs ns None = (if need <? MaxAllocSize then ok (Some t, None) else elog) ∧
    ∀ n, heaptuple_form_to flatten palloc d vs ns (Some n) =
      ok (if n <? need then None else Some t, Some (u32 need)).
Proof.
  intros Hrow Hn Hfl. pose proof (flatten_loop_ok _ _ _ Hrow false) as Efl. rewrite Hfl in Efl.
  pose proof (flat_row_ok _ _ _ Hrow) as Hrow'. unfold tuple_size.
  set (vs' := flat_row (attrs d) vs ns) in *. set (hn := existsb id ns) in *. set (area := layout (attrs d) vs' ns 0).
  destruct (header_len_byte d hn (tdhasoid d) Hn) as [Hh0 Hhoff]. set (hoff := header_len d hn (tdhasoid d)) in *.
  pose proof (bitmaplen_range (natts d) ltac:(unfold natts; lia)) as [Hb0 _]. pose proof (blen_nonneg area) as Ha0.
  destruct (heap_fill_tuple_ok d vs' ns (palloc (blen area)) (if tdhasoid d then HEAP_HASOID else 0)
    (if hn then Some (palloc (BITMAPLEN (natts d))) else None) Hrow') as (f & Ef & Ed & Em & Hbits).
  { rewrite palloc_len; [done|apply blen_nonneg]. }
  { fold hn. destruct hn; [|done]. eexists. split; [done|]. by rewrite palloc_len. }
  exists (mkHeapTuple (u32 (hoff + blen area)) (Z.land (hoff + blen area) 0x3FFFFFFF) (tdtypeid d) (tdtypmod d)
      (HeapTupleHeaderSetNatts 0 (natts d)) (f_infomask f) (u8 hoff) (default [] (f_bit f))
      (if tdhasoid d then Some InvalidOid else None) area).
  cbn [t_len t_hoff t_area datum_len_]. rewrite Hhoff.
  split; [|split; [done|split; [done|split; [done|]]]].
  - split; cbn [t_infomask2 t_area t_bits t_infomask]; unfold HeapTupleHasNulls, HeapTupleHasVarWidth;
      cbn [t_infomask]; rewrite ?Em; try done.
    + apply natts_mask. unfold natts in *. lia.
    + rewrite land_lor_eq0, row_flags_null by done. fold hn.
      replace (Z.land (Z.land (if tdhasoid d then HEAP_HASOID else 0) (Z.lnot 15)) HEAP_HASNULL =? 0)
        with true by by destruct (tdhasoid d). cbn [andb]. by rewrite negb_involutive.
    + intros E. destruct (Hbits E) as (bits & -> & Hok). done.
    + rewrite land_lor_eq0, row_flags_varwidth by done.
      replace (Z.land (Z.land (if tdhasoid d then HEAP_HASOID else 0) (Z.lnot 15)) HEAP_HASVARWIDTH =? 0)
        with true by by destruct (tdhasoid d). cbn [andb]. by rewrite negb_involutive.
  - rewrite <- Z.add_assoc. unfold heaptuple_form_to. rewrite (proj2 (Z.ltb_ge _ _) Hn), Efl. cbn [ok res_bind orb]. fold hn hoff.
    unfold heap_compute_data_size. rewrite compute_loop_ok by done. fold area.
    cbn [lift_opt fmap option_fmap option_map res_bind]. rewrite Z.add_0_l, Hhoff. unfold alloc.
    rewrite (proj2 (Z.leb_le 0 (HEAPTUPLESIZE + (hoff + blen area)))) by (unfold HEAPTUPLESIZE; lia). cbn [andb].
    split; [|intros n]; (destruct (_ <? _); cbn [ok elog res_bind]; [|]); try done;
      (destruct (tdhasoid d); rewrite Ef; cbn [ok res_bind]; by rewrite Ed).
Qed.

(** The first error: too many columns, or a value that cannot be flattened. *)
Lemma heaptuple_form_to_error d vs ns dst :
  row_ok (attrs d) vs ns → MaxTupleAttributeNumber < natts d ∨ flat_row_fails (attrs d) vs ns = true →
  heaptuple_form_to flatten palloc d vs ns dst = elog.
Proof.
  intros Hrow H. unfold heaptuple_form_to. destruct (Z.ltb_spec MaxTupleAttributeNumber (natts d)) as [|Hn]; [done|].
  destruct H as [?|H]; [lia|]. by rewrite flatten_loop_ok, H.
Qed.
End FormSpec.
