(* ===== verification/HeapTupleRead.v ===== *)
(** Reading tuples: every way to read an attribute finds the bytes it was
    formed from, whatever offsets are cached, and caches only right offsets. *)
From Stdlib Require Import Ascii.
From stdpp Require Import prelude functions numbers list.
From S2P Require Import Prelude Varlena HeapTuple HeapTupleForm.

Local Open Scope Z_scope.

(** ** One attribute *)

(** The [Datum] of an attribute that starts at [s]. *)
Definition fetched (tp : list Z) (a : Form_pg_attribute) (v : Datum) (s : Z) : Datum :=
  match v with
  | ByVal z => ByVal (sext (attlen a) z)
  | ByRef _ => ByRef (drop (Z.to_nat s) tp)
  end.

Lemma sext_mod n v : 1 ≤ n → sext n (v `mod` 2 ^ (8 * n)) = sext n v.
Proof.
  intros Hn. unfold sext. f_equal. rewrite Zplus_mod_idemp_l. done.
Qed.

Lemma drop_app_Z (p q tp : list Z) pos :
  0 ≤ pos → drop (Z.to_nat pos) tp = p ++ q → drop (Z.to_nat (pos + blen p)) tp = q.
Proof.
  intros Hpos E. replace (Z.to_nat (pos + blen p)) with (Z.to_nat pos + length p)%nat by (unfold blen; lia).
  by rewrite <- drop_drop, E, drop_app_length.
Qed.

Lemma drop_slice tp s p q :
  0 ≤ s → drop (Z.to_nat s) tp = p ++ q → slice s (blen p) tp = p ∧ s + blen p ≤ blen tp ∨ p = [].
Proof.
  intros Hs E. destruct (decide (p = [])) as [->|Hne]; [by right|left]. split.
  - unfold slice, blen. rewrite E, Nat2Z.id. apply take_app_length.
  - apply (f_equal blen) in E. rewrite blen_app in E. unfold blen in *. rewrite length_drop in E.
    destruct p; [done|]. cbn [length] in *. lia.
Qed.

Lemma fetchatt_image tp a v s rest :
  attr_ok a v → 0 ≤ s → drop (Z.to_nat s) tp = attr_image a v ++ rest → fetchatt a tp s = Some (fetched tp a v s).
Proof.
  intros Hok Hs Hd. unfold fetchatt, fetched. destruct v as [z|p]; [|by destruct Hok as [-> _]].
  pose proof Hok as [-> Hl].
  destruct (drop_slice tp _ _ _ Hs Hd) as [[Esl Hle]|E];
    [|pose proof (image_pos a (ByVal z) Hok) as Hi; rewrite E in Hi; by cbn in Hi].
  assert (Hgen : attlen a ∈ [1; 2; 4; 8] → load_int (attlen a) tp s = Some (ByVal (sext (attlen a) z))).
  { intros Hin. pose proof (image_fixed a (ByVal z) Hok ltac:(set_unfold; lia)) as Hf. rewrite Hf in *.
    unfold load_int. rewrite !(proj2 (Z.leb_le _ _)) by lia. cbn [andb]. do 2 f_equal.
    unfold rd. rewrite Esl. cbn [attr_image]. rewrite little_endian_to_Z_to_little_endian by (set_unfold; lia).
    rewrite Z.mul_comm. apply sext_mod. set_unfold. lia. }
  specialize (Hgen Hl). set_unfold. destruct Hl as [E|[E|[E|[E|[]]]]]; rewrite E in *; exact Hgen.
Qed.

Section One.
Context (tp : list Z) (a : Form_pg_attribute) (v : Datum) (pos : Z) (rest : list Z).
Context (Hok : attr_ok a v) (Hpos : 0 ≤ pos).
Context (Htp : drop (Z.to_nat pos) tp = attr_pad a v pos ++ attr_image a v ++ rest).

Local Abbreviation s := (attr_start a v pos).

Lemma start_nonneg : 0 ≤ s.
Proof. rewrite attr_start_pad. pose proof (blen_nonneg (attr_pad a v pos)). lia. Qed.

Lemma drop_start : drop (Z.to_nat s) tp = attr_image a v ++ rest.
Proof. rewrite attr_start_pad. by apply (drop_app_Z (attr_pad a v pos)). Qed.

Lemma drop_after : drop (Z.to_nat (s + blen (attr_image a v))) tp = rest.
Proof. apply drop_app_Z; [apply start_nonneg|apply drop_start]. Qed.

Lemma find_off_ok : find_off tp a pos = Some s.
Proof.
  unfold find_off, attr_start, attr_pad in *. destruct (packed a v) eqn:Ep.
  - rewrite (packed_len a v Ep). cbn [Z.eqb Pos.eqb negb]. pose proof (packed_header a v rest Hok Ep) as Hh.
    rewrite <- (app_nil_l (_ ++ rest)), <- Htp in Hh. unfold va_header in Hh. rewrite lookup_drop, Nat.add_0_r in Hh.
    destruct (tp !! Z.to_nat pos) as [b|]; cbn in *; [|lia].
    destruct (Z.eqb_spec b 0); [unfold id in *; lia|done].
  - destruct (Z.eqb_spec (attlen a) (-1)) as [Ea|Ea]; cbn [negb]; [|done].
    pose proof (att_align_range pos (attalign a)).
    destruct (decide (att_align pos (attalign a) = pos)) as [E|E].
    + rewrite E in *. pose proof (image_pos a v Hok) as Hi.
      destruct (tp !! Z.to_nat pos) as [b|] eqn:Eb; cbn; [by destruct (b =? 0)|].
      apply lookup_ge_None in Eb. apply (f_equal length) in Htp. rewrite length_drop, !length_app in Htp.
      unfold blen in Hi. lia.
    + assert (Hp : tp !! Z.to_nat pos = Some 0).
      { rewrite <- (Nat.add_0_r (Z.to_nat pos)), <- lookup_drop, Htp. unfold pad.
        rewrite lookup_app_l; [apply lookup_replicate_2|rewrite length_replicate]; lia. }
      by rewrite Hp.
Qed.

Lemma fetchatt_ok : fetchatt a tp s = Some (fetched tp a v s).
Proof. eapply fetchatt_image; [done|apply start_nonneg|apply drop_start]. Qed.

Lemma addlength_ok :
  att_addlength s (attlen a) (ByRef (drop (Z.to_nat s) tp)) = Some (s + blen (attr_image a v)).
Proof. rewrite drop_start. by apply image_addlength. Qed.
End One.

(** ** The cached offsets *)

Definition fixed_end (atts : list Form_pg_attribute) : Z :=
  foldl (λ pos a, att_align pos (attalign a) + attlen a) 0 atts.

Definition all_fixed (atts : list Form_pg_attribute) : Prop := Forall (λ a, 0 < attlen a) atts.

(** A cached offset is that of an attribute after others of fixed length. *)
Definition cached_ok (all : list Form_pg_attribute) (i : nat) (c : Z) : Prop :=
  c = -1 ∨
  ∃ a, all !! i = Some a ∧ c = att_align (fixed_end (take i all)) (attalign a) ∧
       all_fixed (take i all) ∧ (attlen a ≠ -1 ∨ i = 0%nat).

Definition cache_ok (all : list Form_pg_attribute) (cache : list Z) : Prop :=
  length cache = length all ∧ ∀ i c, cache !! i = Some c → cached_ok all i c.

Lemma fixed_end_nonneg atts : all_fixed atts → 0 ≤ fixed_end atts.
Proof.
  unfold fixed_end. assert (H : ∀ pos, 0 ≤ pos → all_fixed atts →
    0 ≤ foldl (λ pos a, att_align pos (attalign a) + attlen a) pos atts); [|auto with lia].
  induction atts as [|a atts IH]; intros pos Hpos Hf; [done|]. cbn. apply Forall_cons in Hf as [Ha Hf].
  apply IH; [|done]. pose proof (att_align_range pos (attalign a)). lia.
Qed.

Lemma fixed_end_snoc atts a : fixed_end (atts ++ [a]) = att_align (fixed_end atts) (attalign a) + attlen a.
Proof. unfold fixed_end. by rewrite foldl_app. Qed.

Lemma cache_ok_insert all cache i c :
  cache_ok all cache → cached_ok all i c → cache_ok all (<[i := c]> cache).
Proof.
  intros [Hl Hc] Hi. split; [by rewrite length_insert|]. intros j d Hj.
  apply list_lookup_insert_Some in Hj as [(-> & -> & _)|[_ Hj]]; auto.
Qed.

Lemma cache_ok_first all cache :
  cache_ok all cache → cache_ok all (<[0%nat := 0]> cache).
Proof.
  intros Hc. destruct all as [|a all].
  - destruct Hc as [Hl _]. by destruct cache.
  - apply cache_ok_insert; [done|]. right. exists a. split_and!; [done| |constructor|by right].
    cbn. by rewrite att_align_0.
Qed.

Lemma cache_fresh all : cache_ok all (replicate (length all) (-1)).
Proof.
  split; [by rewrite length_replicate|]. intros i c [-> _]%lookup_replicate. by left.
Qed.

(** An offset from the cache is where the attribute starts, when the
    attributes before it are of fixed length and not null. *)
Lemma cached_start pre a v more c :
  cached_ok (pre ++ a :: more) (length pre) c → attr_ok a v → c ≠ -1 →
  c = attr_start a v (fixed_end pre).
Proof.
  intros [?|(a' & Ha & -> & _ & Hor)] Hok Hc; [done|].
  rewrite lookup_app_r, Nat.sub_diag in Ha by lia. simplify_eq/=.
  rewrite take_app_length. unfold attr_start. destruct (packed a' v) eqn:Ep; [|done].
  pose proof (packed_len a' v Ep). destruct Hor as [?|E]; [lia|].
  destruct pre; [|done]. cbn. apply att_align_0.
Qed.

Lemma cached_nonneg all i c : cached_ok all i c → c ≠ -1 → 0 ≤ c.
Proof.
  intros [?|(a & _ & -> & Hf & _)] ?; [done|]. pose proof (fixed_end_nonneg _ Hf).
  pose proof (att_align_range (fixed_end (take i all)) (attalign a)). lia.
Qed.

(** ** The loops *)

(** [slow] is not set while offsets can be cached. *)
Definition fast_at (slow : bool) (pre : list Form_pg_attribute) (pos : Z) : Prop :=
  slow = false → all_fixed pre ∧ pos = fixed_end pre.

Lemma attlen_nonzero a v : attr_ok a v → attlen a < 0 ∨ 0 < attlen a.
Proof. destruct v; cbn; [intros [_ H]; set_unfold|intros [_ [[? _]|[[? _]|?]]]]; lia. Qed.

Lemma fast_next slow pre a v pos :
  fast_at slow pre pos → attr_ok a v →
  fast_at (slow || (attlen a <? 0)) (pre ++ [a]) (attr_start a v pos + blen (attr_image a v)).
Proof.
  intros Hfast Hok [Hs Hl%Z.ltb_ge]%orb_false_iff. destruct (Hfast Hs) as [Hf ->].
  assert (Hpl : 0 < attlen a) by (pose proof (attlen_nonzero a v Hok); lia). split.
  - apply Forall_app. split; [done|]. by apply Forall_singleton.
  - rewrite fixed_end_snoc, image_fixed by done. unfold attr_start.
    destruct (packed a v) eqn:Ep; [|done]. pose proof (packed_len _ _ Ep). lia.
Qed.

(** Finding the next attribute, with or without the cache. *)
Definition seek (tp : list Z) (a : Form_pg_attribute) (k : nat) (cache : list Z) (off : Z)
    (slow : bool) : option (Z * list Z) :=
  c ← cache !! k;
  if negb slow && (0 <=? c) then Some (c, cache) else
  off ← find_off tp a off;
  Some (off, if negb slow && negb (attlen a =? -1) then <[k := off]> cache else cache).

Lemma seek_ok tp pre a v more cache pos slow rest :
  let all := pre ++ a :: more in
  attr_ok a v → 0 ≤ pos → drop (Z.to_nat pos) tp = attr_pad a v pos ++ attr_image a v ++ rest →
  cache_ok all cache → fast_at slow pre pos →
  ∃ cache', seek tp a (length pre) cache pos slow = Some (attr_start a v pos, cache') ∧
    cache_ok all cache'.
Proof.
  intros all Hok Hpos Htp Hcache Hfast. pose proof Hcache as [Hlen Hc].
  destruct (lookup_lt_is_Some_2 cache (length pre)) as [c Ec].
  { rewrite Hlen. unfold all. rewrite length_app. cbn. lia. }
  unfold seek. rewrite Ec. cbn [mbind option_bind]. specialize (Hc _ _ Ec).
  rewrite (find_off_ok tp a v pos rest) by done. cbn [mbind option_bind].
  destruct slow; cbn [negb andb]; [by exists cache|]. destruct (Hfast eq_refl) as [Hf ->].
  destruct (Z.leb_spec 0 c).
  - exists cache. rewrite <- (cached_start pre a v more c); [done|done|done|lia].
  - eexists. split; [done|]. destruct (Z.eqb_spec (attlen a) (-1)) as [E|E]; cbn [negb]; [done|].
    apply cache_ok_insert; [done|]. right. exists a. unfold all.
    rewrite lookup_app_r, Nat.sub_diag, take_app_length by lia. split_and!; [done| |done|by left].
    unfold attr_start. destruct (packed a v) eqn:Ep; [|done]. by pose proof (packed_len _ _ Ep).
Qed.

Fixpoint fetched_row (tp : list Z) (atts : list Form_pg_attribute) (values : list Datum)
    (isnull : list bool) (pos : Z) : list Datum :=
  match atts, values, isnull with
  | a :: atts, v :: values, null :: isnull =>
      if (null : bool) then ByVal 0 :: fetched_row tp atts values isnull pos else
      let s := attr_start a v pos in
      fetched tp a v s :: fetched_row tp atts values isnull (s + blen (attr_image a v))
  | _, _, _ => []
  end.

(** The null test of the loops. *)
Definition null_at (hasnulls : bool) (bp : list Z) (k : Z) : option bool :=
  if hasnulls then att_isnull k bp else Some false.

Definition nulls_from (hasnulls : bool) (bp : list Z) (k : Z) (ns : list bool) : Prop :=
  ∀ (i : nat) n, ns !! i = Some n → null_at hasnulls bp (k + Z.of_nat i) = Some n.

Lemma nulls_from_cons hasnulls bp k n ns :
  nulls_from hasnulls bp k (n :: ns) →
  null_at hasnulls bp k = Some n ∧ nulls_from hasnulls bp (k + 1) ns.
Proof.
  intros H. split; [by rewrite <- (H 0%nat n eq_refl), Z.add_0_r|].
  intros i m Hi. rewrite <- (H (S i) m Hi). f_equal. lia.
Qed.

Lemma deform_loop_ok hasnulls bp tp more rest atts vs ns :
  row_ok atts vs ns → ∀ pre cache pos slow,
  0 ≤ pos → drop (Z.to_nat pos) tp = layout atts vs ns pos ++ rest →
  nulls_from hasnulls bp (Z.of_nat (length pre)) ns →
  cache_ok (pre ++ atts ++ more) cache → fast_at slow pre pos →
  ∃ cache' slow',
    deform_loop hasnulls bp tp atts (Z.of_nat (length pre)) cache pos slow =
      Some (fetched_row tp atts vs ns pos, ns, cache', pos + blen (layout atts vs ns pos), slow') ∧
    cache_ok (pre ++ atts ++ more) cache' ∧
    fast_at slow' (pre ++ atts) (pos + blen (layout atts vs ns pos)).
Proof.
  induction 1 as [|a v n atts vs ns Hc Hrow IH]; intros pre cache pos slow Hpos Htp Hnull Hcache Hfast.
  { exists cache, slow. cbn. rewrite blen_nil, Z.add_0_r, app_nil_r. done. }
  apply nulls_from_cons in Hnull as [Hn Hnull].
  cbn [deform_loop layout fetched_row] in *. unfold null_at in Hn. rewrite Hn. cbn [mbind option_bind].
  replace (Z.of_nat (length pre) + 1) with (Z.of_nat (length (pre ++ [a]))) in *
    by (rewrite length_app; cbn; lia).
  assert (Eall : pre ++ (a :: atts) ++ more = (pre ++ [a]) ++ atts ++ more)
    by by rewrite <- app_assoc.
  destruct n.
  - destruct (IH (pre ++ [a]) cache pos true) as (cache' & slow' & E & Hc' & Hf'); rewrite <- ?Eall; try done.
    rewrite E. cbn [mbind option_bind]. exists cache', slow'. rewrite Eall. split_and!; [done..|].
    by rewrite <- app_assoc in Hf'.
  - specialize (Hc eq_refl). rewrite <- !app_assoc in Htp.
    pose proof (start_nonneg a v pos Hpos) as Hs. pose proof (image_pos a v Hc) as Hi.
    destruct (seek_ok tp pre a v (atts ++ more) cache pos slow _ Hc Hpos Htp Hcache Hfast) as (c1 & E1 & Hc1).
    unfold seek in E1. rewrite Nat2Z.id. destruct (cache !! length pre) as [c|]; [|done].
    cbn [mbind option_bind] in E1 |- *. rewrite E1. cbn [mbind option_bind].
    rewrite (fetchatt_ok tp a v pos _ Hc Hpos Htp). cbn [mbind option_bind].
    rewrite (addlength_ok tp a v pos _ Hc Hpos Htp). cbn [mbind option_bind].
    destruct (IH (pre ++ [a]) c1 (attr_start a v pos + blen (attr_image a v)) (slow || (attlen a <? 0)))
      as (cache' & slow' & E & Hc' & Hf'); rewrite <- ?Eall; try done.
    + lia.
    + by eapply drop_after.
    + by apply fast_next.
    + rewrite E. cbn [mbind option_bind]. exists cache', slow'. rewrite Eall.
      rewrite !blen_app, !Z.add_assoc, <- attr_start_pad. split_and!; [done..|].
      by rewrite <- app_assoc in Hf'.
Qed.

(** ** The null bitmap *)

Lemma testbit_land b k : 0 ≤ k → (Z.land b (Z.shiftl 1 k) =? 0) = negb (Z.testbit b k).
Proof.
  intros Hk. replace (Z.shiftl 1 k) with (2 ^ k) by (rewrite Z.shiftl_mul_pow2; lia).
  destruct (Z.testbit b k) eqn:E; cbn [negb].
  - apply Z.eqb_neq. intros H. assert (Ht : Z.testbit (Z.land b (2 ^ k)) k = true)
      by by rewrite Z.land_spec, E, Z.pow2_bits_true.
    by rewrite H, Z.testbit_0_l in Ht.
  - apply Z.eqb_eq, Z.bits_inj'. intros i Hi. rewrite Z.land_spec, Z.testbit_0_l.
    destruct (decide (i = k)) as [->|Hne]; [by rewrite E|]. by rewrite Z.pow2_bits_false, andb_false_r.
Qed.

Lemma att_isnull_ok bits ns (i : nat) n :
  bits_ok bits ns → ns !! i = Some n → att_isnull (Z.of_nat i) bits = Some n.
Proof.
  intros Hok Hi. destruct (Hok i n Hi) as (b & Hb & _ & Ht). unfold att_isnull.
  rewrite Z.shiftr_div_pow2 by lia. change (2 ^ 3) with 8. rewrite Hb. cbn [mbind option_bind].
  change 0x07 with (Z.ones 3). rewrite Z.land_ones by lia. change (2 ^ 3) with 8.
  rewrite testbit_land, Ht, negb_involutive by divlia. done.
Qed.

Lemma formed_null_at t atts vs ns (i : nat) n :
  formed t atts vs ns → ns !! i = Some n →
  null_at (HeapTupleHasNulls t) (t_bits t) (Z.of_nat i) = Some n.
Proof.
  intros Hf Hi. unfold null_at. rewrite (formed_nulls _ _ _ _ Hf).
  destruct (existsb id ns) eqn:E.
  - apply (att_isnull_ok _ ns); [by apply (formed_bits _ _ _ _ Hf)|done].
  - pose proof (no_nulls ns E) as Hall. rewrite Forall_lookup in Hall. f_equal. by apply (Hall i n).
Qed.

Lemma earlier_nulls_ok bits ns (n : nat) : ∀ i : nat,
  bits_ok bits ns → (8 * (i + n) ≤ length ns)%nat →
  earlier_nulls n bits (Z.of_nat i) = Some (existsb id (take (8 * n) (drop (8 * i) ns))).
Proof.
  induction n as [|n IH]; intros i Hok Hl; [done|]. cbn [earlier_nulls].
  assert (Hb : ∃ b, bits !! i = Some b ∧ is_byte b ∧
     ∀ k : nat, (k < 8)%nat → ns !! (8 * i + k)%nat = Some (negb (Z.testbit b (Z.of_nat k)))).
  { destruct (lookup_lt_is_Some_2 ns (8 * i)) as [m0 Hm0]; [lia|].
    destruct (Hok _ _ Hm0) as (b & Hb & Hbb & _). exists b.
    assert (Ei : Z.to_nat (Z.of_nat (8 * i) `div` 8) = i) by divlia. rewrite Ei in Hb. split_and!; [done..|].
    intros k Hk. destruct (lookup_lt_is_Some_2 ns (8 * i + k)) as [m Hm]; [lia|].
    destruct (Hok _ _ Hm) as (b' & Hb' & _ & Ht).
    assert (Ek : Z.to_nat (Z.of_nat (8 * i + k) `div` 8) = i) by divlia. rewrite Ek in Hb'. simplify_eq.
    replace (Z.of_nat (8 * i + k) `mod` 8) with (Z.of_nat k) in Ht by divlia.
    by rewrite Ht, negb_involutive. }
  destruct Hb as (b & Hb & Hbb & Hbits). rewrite Nat2Z.id, Hb. cbn [mbind option_bind].
  replace (8 * S n)%nat with (8 + 8 * n)%nat by lia. rewrite <- take_take_drop, existsb_app, drop_drop.
  assert (E8 : existsb id (take 8 (drop (8 * i) ns)) = negb (b =? 0xFF)).
  { assert (Et : take 8 (drop (8 * i) ns) = map (λ k, negb (Z.testbit b (Z.of_nat k))) (seq 0 8)).
    { apply list_eq. intros k. destruct (decide (k < 8)%nat) as [Hk|Hk].
      - rewrite lookup_take_lt, lookup_drop, Hbits by done.
        change (map ?f ?l) with (f <$> l). rewrite list_lookup_fmap, lookup_seq_lt by done. done.
      - rewrite !lookup_ge_None_2; [done|by rewrite length_map, length_seq; lia|rewrite length_take; lia]. }
    rewrite Et. clear -Hbb. revert b Hbb. eapply byte_forall. by vm_compute. }
  rewrite E8. destruct (negb (b =? 255)); [done|]. cbn [orb].
  replace (Z.of_nat i + 1) with (Z.of_nat (S i)) by lia. rewrite IH by (done || lia).
  do 3 f_equal. f_equal. lia.
Qed.

Lemma low_bits_null b (fb : nat) :
  is_byte b → (fb < 8)%nat →
  negb (Z.land (Z.lnot b) (Z.shiftl 1 (Z.of_nat fb) - 1) =? 0) =
    existsb id (map (λ k, negb (Z.testbit b (Z.of_nat k))) (seq 0 fb)).
Proof.
  intros Hb Hfb.
  assert (H : forallb (λ fb : nat, Bool.eqb (negb (Z.land (Z.lnot b) (Z.shiftl 1 (Z.of_nat fb) - 1) =? 0))
    (existsb id (map (λ k, negb (Z.testbit b (Z.of_nat k))) (seq 0 fb)))) (seq 0 8) = true).
  { revert b Hb. eapply byte_forall. by vm_compute. }
  rewrite forallb_forall in H. apply eqb_prop, H, list_elem_of_In, elem_of_seq. lia.
Qed.

Lemma nulls_before_ok bits ns (k : nat) :
  bits_ok bits ns → (k < length ns)%nat →
  nulls_before bits (Z.of_nat k) = Some (existsb id (take k ns)).
Proof.
  intros Hok Hk. unfold nulls_before. rewrite Z.shiftr_div_pow2 by lia. change (2 ^ 3) with 8.
  change 0x07 with (Z.ones 3). rewrite Z.land_ones by lia. change (2 ^ 3) with 8.
  destruct (lookup_lt_is_Some_2 ns k Hk) as [m Hm]. destruct (Hok k m Hm) as (b & Hb & Hbb & _).
  rewrite Hb. cbn [mbind option_bind].
  set (by8 := Z.to_nat (Z.of_nat k `div` 8)) in *. set (fb := Z.to_nat (Z.of_nat k `mod` 8)).
  assert (Ek : k = (8 * by8 + fb)%nat) by (unfold by8, fb; divlia).
  assert (Hfb : (fb < 8)%nat) by (unfold fb; divlia).
  replace (Z.of_nat k `mod` 8) with (Z.of_nat fb) by (unfold fb; divlia).
  rewrite low_bits_null by done.
  assert (Et : take fb (drop (8 * by8) ns) = map (λ k, negb (Z.testbit b (Z.of_nat k))) (seq 0 fb)).
  { apply list_eq. intros j. destruct (decide (j < fb)%nat) as [Hj|Hj].
    - rewrite lookup_take_lt, lookup_drop by done.
      destruct (lookup_lt_is_Some_2 ns (8 * by8 + j)) as [n Hn]; [lia|].
      destruct (Hok _ _ Hn) as (b' & Hb' & _ & Ht).
      assert (Ej : Z.to_nat (Z.of_nat (8 * by8 + j) `div` 8) = by8) by divlia. rewrite Ej in Hb'.
      assert (b' = b) as -> by congruence.
      replace (Z.of_nat (8 * by8 + j) `mod` 8) with (Z.of_nat j) in Ht by divlia.
      change (map ?f ?l) with (f <$> l). rewrite list_lookup_fmap, lookup_seq_lt, Hn by done.
      cbn. by rewrite Ht, negb_involutive.
    - rewrite !lookup_ge_None_2; [done|by rewrite length_map, length_seq; lia|rewrite length_take; lia]. }
  rewrite <- Et, Ek, <- take_take_drop, existsb_app, orb_comm.
  destruct (existsb id (take fb (drop (8 * by8) ns))); [done|]. cbn [orb].
  change 0 with (Z.of_nat 0). rewrite (earlier_nulls_ok bits ns) by (done || lia). by rewrite drop_0.
Qed.

(** ** Splitting a row at an attribute *)

Lemma row_ok_take m atts vs ns : row_ok atts vs ns → row_ok (take m atts) (take m vs) (take m ns).
Proof.
  intros H. revert m. induction H as [|a v n A VA NA Hc Hr IH]; intros m; [rewrite !take_nil; constructor|].
  destruct m; constructor; [done|]. apply IH.
Qed.

Lemma row_ok_drop m atts vs ns : row_ok atts vs ns → row_ok (drop m atts) (drop m vs) (drop m ns).
Proof.
  intros H. revert m. induction H as [|a v n A VA NA Hc Hr IH]; intros m; [rewrite !drop_nil; constructor|].
  destruct m; cbn; [by constructor|]. apply IH.
Qed.

Lemma layout_app A VA NA B VB NB : row_ok A VA NA → ∀ pos,
  layout (A ++ B) (VA ++ VB) (NA ++ NB) pos =
    layout A VA NA pos ++ layout B VB NB (pos + blen (layout A VA NA pos)).
Proof.
  induction 1 as [|a v n A VA NA Hc Hrow IH]; intros pos; cbn [layout app].
  - by rewrite blen_nil, Z.add_0_r.
  - destruct n; [apply IH|]. rewrite IH, !blen_app, !Z.add_assoc, <- attr_start_pad. by rewrite <- !app_assoc.
Qed.

Lemma fetched_row_app tp A VA NA B VB NB : row_ok A VA NA → ∀ pos,
  fetched_row tp (A ++ B) (VA ++ VB) (NA ++ NB) pos =
    fetched_row tp A VA NA pos ++ fetched_row tp B VB NB (pos + blen (layout A VA NA pos)).
Proof.
  induction 1 as [|a v n A VA NA Hc Hrow IH]; intros pos; cbn [layout fetched_row app].
  - by rewrite blen_nil, Z.add_0_r.
  - destruct n; [by rewrite IH|]. rewrite IH, !blen_app, !Z.add_assoc, <- attr_start_pad. done.
Qed.

Lemma fetched_row_length tp atts vs ns pos :
  row_ok atts vs ns → length (fetched_row tp atts vs ns pos) = length atts.
Proof. intros H. revert pos. induction H as [|a v n ? ? ? ? ? IH]; intros pos; [done|]. cbn. destruct n; cbn; by rewrite IH. Qed.

Lemma layout_fixed A VA NA :
  row_ok A VA NA → all_fixed A → existsb id NA = false → blen (layout A VA NA 0) = fixed_end A.
Proof.
  intros Hrow Hf Hn. unfold fixed_end.
  assert (H : ∀ pos, pos + blen (layout A VA NA pos) =
    foldl (λ pos a, att_align pos (attalign a) + attlen a) pos A); [|by rewrite <- (H 0)].
  revert Hf Hn. induction Hrow as [|a v n A VA NA Hc Hrow IH]; intros Hf Hn pos; cbn [layout foldl].
  - by rewrite blen_nil, Z.add_0_r.
  - cbn in Hn. apply orb_false_iff in Hn as [Hn0 Hn]. destruct n; [done|]. specialize (Hc eq_refl).
    apply Forall_cons in Hf as [Ha Hf]. rewrite <- IH by done.
    rewrite !blen_app, !Z.add_assoc, <- attr_start_pad, (image_fixed a v) by done.
    unfold attr_start. destruct (packed a v) eqn:Ep; [|done]. pose proof (packed_len _ _ Ep). lia.
Qed.

Lemma row_split atts vs ns k a :
  row_ok atts vs ns → atts !! k = Some a →
  ∃ A B VA v VB NA n NB, atts = A ++ a :: B ∧ vs = VA ++ v :: VB ∧ ns = NA ++ n :: NB ∧
    length A = k ∧ length VA = k ∧ length NA = k ∧ row_ok A VA NA ∧ col_ok a v n ∧ row_ok B VB NB.
Proof.
  intros Hrow. revert k. induction Hrow as [|a0 v0 n0 atts vs ns Hc Hrow IH]; intros k Hk; [done|].
  destruct k as [|k].
  - simplify_eq/=. exists [], atts, [], v0, vs, [], n0, ns. split_and!; try done. constructor.
  - destruct (IH k Hk) as (A & B & VA & v & VB & NA & n & NB & -> & -> & -> & HA & HVA & HNA & H1 & H2 & H3).
    exists (a0 :: A), B, (v0 :: VA), v, VB, (n0 :: NA), n, NB.
    split_and!; try done; [cbn; by f_equal..|]. by constructor.
Qed.

(** ** [nocachegetattr] *)

Lemma cache_lookup all cache i a :
  cache_ok all cache → all !! i = Some a → ∃ c, cache !! i = Some c ∧ cached_ok all i c.
Proof.
  intros [Hl Hc] Ha. destruct (lookup_lt_is_Some_2 cache i) as [c Ec].
  - rewrite Hl. by eapply lookup_lt_Some.
  - exists c. auto.
Qed.

Lemma cached_test all i c : cached_ok all i c → negb (c =? -1) = (0 <=? c).
Proof.
  intros Hc. destruct (Z.eqb_spec c (-1)) as [->|Hne]; [done|]. cbn [negb]. symmetry.
  apply Z.leb_le. by eapply cached_nonneg.
Qed.

Lemma walk_loop_ok t more rest A VA NA :
  row_ok A VA NA → ∀ pre cache pos slow,
  0 ≤ pos → drop (Z.to_nat pos) (t_area t) = layout A VA NA pos ++ rest →
  nulls_from (HeapTupleHasNulls t) (t_bits t) (Z.of_nat (length pre)) NA →
  cache_ok (pre ++ A ++ more) cache → fast_at slow pre pos →
  ∃ cache', walk_loop (length A) t (pre ++ A ++ more) cache (Z.of_nat (length pre)) pos (negb slow) =
      Some (cache', pos + blen (layout A VA NA pos)) ∧ cache_ok (pre ++ A ++ more) cache'.
Proof.
  induction 1 as [|a v n A VA NA Hc Hrow IH]; intros pre cache pos slow Hpos Htp Hnull Hcache Hfast.
  { exists cache. cbn. by rewrite blen_nil, Z.add_0_r. }
  apply nulls_from_cons in Hnull as [Hn Hnull].
  cbn [walk_loop layout length] in *. unfold null_at in Hn. rewrite Hn. cbn [mbind option_bind].
  replace (Z.of_nat (length pre) + 1) with (Z.of_nat (length (pre ++ [a]))) in *
    by (rewrite length_app; cbn; lia).
  assert (Eall : pre ++ (a :: A) ++ more = (pre ++ [a]) ++ A ++ more) by by rewrite <- app_assoc.
  assert (Ea : (pre ++ (a :: A) ++ more) !! length pre = Some a)
    by (rewrite lookup_app_r, Nat.sub_diag by lia; done).
  destruct n.
  - rewrite Eall in *. destruct (IH (pre ++ [a]) cache pos true) as (cache' & E & Hc'); try done.
    cbn [negb] in E. rewrite E. by exists cache'.
  - specialize (Hc eq_refl). rewrite Nat2Z.id, Ea. cbn [mbind option_bind].
    rewrite <- app_assoc in Htp. pose proof (start_nonneg a v pos Hpos) as Hs. pose proof (image_pos a v Hc) as Hi.
    rewrite <- app_assoc in Htp.
    destruct (cache_lookup _ _ _ _ Hcache Ea) as (c & Ec & Hcc).
    destruct (seek_ok (t_area t) pre a v (A ++ more) cache pos slow _ Hc Hpos Htp Hcache Hfast) as (c1 & E1 & Hc1).
    unfold seek in E1. rewrite Ec in E1 |- *. cbn [mbind option_bind] in E1 |- *.
    rewrite (cached_test _ _ _ Hcc), E1. cbn [mbind option_bind].
    rewrite (addlength_ok (t_area t) a v pos _ Hc Hpos Htp). cbn [mbind option_bind].
    rewrite <- negb_orb. change (pre ++ a :: A ++ more) with (pre ++ (a :: A) ++ more) in Hc1. rewrite Eall in *.
    destruct (IH (pre ++ [a]) c1 (attr_start a v pos + blen (attr_image a v)) (slow || (attlen a <? 0)))
      as (cache' & E & Hc'); try done.
    + lia.
    + by eapply drop_after.
    + by apply fast_next.
    + rewrite E. exists cache'. by rewrite !blen_app, !Z.add_assoc, <- attr_start_pad.
Qed.

(** The entries of the cache before [j] are known. *)
Definition known_to (cache : list Z) (j : nat) : Prop :=
  ∀ i c, (i < j)%nat → cache !! i = Some c → c ≠ -1.

Lemma cached_loop_ok all cache k : ∀ n j,
  cache_ok all cache → known_to cache j → (1 ≤ j)%nat → (j ≤ k ∨ j = 1)%nat → (k ≤ length all)%nat →
  (k ≤ j + n)%nat →
  ∃ j', cached_loop n cache (Z.of_nat j) (Z.of_nat k) = Some (Z.of_nat j') ∧ known_to cache j' ∧
    (1 ≤ j')%nat ∧ (j' ≤ k ∨ j' = 1)%nat.
Proof.
  induction n as [|n IH]; intros j Hc Hkn Hj Hjk Hk Hn; cbn [cached_loop];
    destruct (Z.ltb_spec (Z.of_nat j) (Z.of_nat k)); try lia; [by exists j| |by exists j].
  destruct Hc as [Hl Hc]. destruct (lookup_lt_is_Some_2 cache j) as [c Ec]; [lia|].
  rewrite Nat2Z.id, Ec. cbn [mbind option_bind]. destruct (Z.ltb_spec 0 c); [|by exists j].
  replace (Z.of_nat j + 1) with (Z.of_nat (S j)) by lia. apply IH; [done| |lia..].
  intros i d Hi Hd. destruct (decide (i = j)) as [->|]; [|apply (Hkn i); [lia|done]].
  simplify_eq. lia.
Qed.

Section Cache.
Context (t : HeapTuple) (atts more : list Form_pg_attribute) (vs : list Datum) (ns : list bool).
Context (Hf : formed t atts vs ns).

(** A non-null attribute of a tuple without values of variable width. *)
Lemma all_fixed_attr i a :
  HeapTupleAllFixed t = true → atts !! i = Some a → ns !! i = Some false → 0 < attlen a.
Proof.
  intros Hall Ha Hn. destruct (row_split _ _ _ i a (formed_row _ _ _ _ Hf) Ha)
    as (A & B & VA & v & VB & NA & n & NB & EA & EV & EN & HA & HVA & HNA & _ & Hcol & _).
  assert (n = false) as -> by (rewrite EN, lookup_app_r, HNA, Nat.sub_diag in Hn by lia; by simplify_eq/=).
  specialize (Hcol eq_refl). destruct (attlen_nonzero a v Hcol) as [Hlt|]; [exfalso|done].
  assert (Hv : HeapTupleHasVarWidth t = true).
  { rewrite (formed_varwidth _ _ _ _ Hf). unfold has_varwidth. rewrite existsb_exists.
    exists (a, false). split; [|by apply Z.ltb_lt]. apply list_elem_of_In, list_elem_of_lookup. exists i.
    rewrite lookup_zip_with_Some. by exists a, false. }
  unfold HeapTupleHasVarWidth, HeapTupleAllFixed in *. by rewrite Hall in Hv.
Qed.

Lemma no_null_at i : existsb id ns = false → (i < length ns)%nat → ns !! i = Some false.
Proof.
  intros Hn Hi. destruct (lookup_lt_is_Some_2 ns i Hi) as [m Hm]. rewrite Hm. f_equal.
  pose proof (no_nulls ns Hn) as Hall. rewrite Forall_lookup in Hall. symmetry. by apply (Hall i).
Qed.

Lemma formed_length : length ns = length atts.
Proof. by destruct (row_ok_length _ _ _ (formed_row _ _ _ _ Hf)). Qed.

(** When the loop goes on, its attribute has a fixed length and is not null. *)
Lemma can_cache_ok cache (j : nat) :
  cache_ok (atts ++ more) cache →
  ∃ go, can_cache t (atts ++ more) cache (Z.of_nat j) = Some go ∧
    (go = true → ∃ a, atts !! j = Some a ∧ 0 < attlen a ∧ ns !! j = Some false).
Proof.
  intros Hc. unfold can_cache. rewrite (formed_natts _ _ _ _ Hf), Nat2Z.id.
  destruct (Z.ltb_spec (Z.of_nat j) (Z.of_nat (length atts))) as [Hj|Hj]; cbn [negb]; [|by exists false].
  destruct (lookup_lt_is_Some_2 atts j) as [a Ha]; [lia|].
  assert (Ha' : (atts ++ more) !! j = Some a) by (rewrite lookup_app_l; [done|lia]).
  destruct (cache_lookup _ _ _ _ Hc Ha') as (c & -> & _). cbn [mbind option_bind].
  destruct (negb (c =? -1)); [by exists false|].
  destruct (lookup_lt_is_Some_2 ns j) as [m Hm]; [rewrite formed_length; lia|].
  pose proof (formed_null_at _ _ _ _ _ _ Hf Hm) as Hn. unfold null_at, HeapTupleHasNulls in Hn.
  unfold HeapTupleNoNulls. destruct (Z.land (t_infomask t) HEAP_HASNULL =? 0); cbn [negb] in Hn; rewrite ?Hn;
    simplify_eq; cbn [mbind option_bind].
  2: destruct m; [by exists false|].
  all: destruct (HeapTupleAllFixed t) eqn:Eall;
    [exists true; split; [done|]; intros _; exists a; split_and!; [done| |done]; by eapply all_fixed_attr|].
  all: rewrite Ha'; cbn [mbind option_bind]; exists (0 <? attlen a); split; [done|];
    intros Hl%Z.ltb_lt; by exists a.
Qed.

Lemma loop_go (k j : nat) cache :
  all_fixed (take (S k) atts) → (k < length atts)%nat → cache_ok (atts ++ more) cache →
  ∃ go, (if Z.of_nat j <=? Z.of_nat k then Some true
         else can_cache t (atts ++ more) cache (Z.of_nat j)) = Some go ∧
    (go = true → ∃ a, atts !! j = Some a ∧ 0 < attlen a) ∧ (go = false → (k < j)%nat).
Proof.
  intros Hfk Hk Hc. destruct (Z.leb_spec (Z.of_nat j) (Z.of_nat k)) as [Hjk|Hjk].
  - exists true. split_and!; [done| |done]. intros _.
    destruct (lookup_lt_is_Some_2 atts j) as [a Ha]; [lia|]. exists a. split; [done|].
    unfold all_fixed in Hfk. rewrite Forall_lookup in Hfk. apply (Hfk j). rewrite lookup_take_lt; [done|lia].
  - destruct (can_cache_ok cache j Hc) as (go & E & Hgo). exists go. split_and!; [done| |lia].
    intros Eg. destruct (Hgo Eg) as (a & ? & ? & _). by exists a.
Qed.

(** Filling the cache from [j] on, where the attributes before [j] are of
    fixed length. *)
Lemma cache_loop_ok (k : nat) : all_fixed (take (S k) atts) → (k < length atts)%nat →
  ∀ n j cache, cache_ok (atts ++ more) cache → known_to cache j → all_fixed (take j atts) →
  (Nat.max (S k) (length atts) ≤ j + n)%nat →
  ∃ cache', cache_loop n t (atts ++ more) cache (Z.of_nat k) (Z.of_nat j) (fixed_end (take j atts))
      = Some cache' ∧ cache_ok (atts ++ more) cache' ∧ known_to cache' (S k).
Proof.
  intros Hfk Hk. induction n as [|n IH]; intros j cache Hc Hkn Hfj Hn;
    destruct (loop_go k j cache Hfk Hk Hc) as (go & E & Hgo & Hstop); cbn [cache_loop]; rewrite E;
    cbn [mbind option_bind]; destruct go;
    try (exists cache; split_and!; [done..|]; intros i c Hi; apply Hkn; specialize (Hstop eq_refl); lia);
    destruct (Hgo eq_refl) as (a & Ha & Hl); pose proof (lookup_lt_Some _ _ _ Ha) as Hlt; [lia|].
  assert (Ha' : (atts ++ more) !! j = Some a) by (rewrite lookup_app_l; [done|lia]).
  rewrite Nat2Z.id, Ha'. cbn [mbind option_bind]. unfold att_addlength.
  rewrite (proj2 (Z.ltb_lt _ _) Hl). cbn [mbind option_bind].
  replace (Z.of_nat j + 1) with (Z.of_nat (S j)) by lia.
  assert (Et : take (S j) atts = take j atts ++ [a]) by by apply take_S_r.
  rewrite <- fixed_end_snoc, <- Et. apply IH.
  - apply cache_ok_insert; [done|]. right. exists a. rewrite take_app_le by lia. split_and!; [done..|left; lia].
  - intros i c Hi Hic. destruct (decide (i = j)) as [->|Hne].
    + rewrite list_lookup_insert_eq in Hic by (destruct Hc as [-> _]; rewrite length_app; lia). simplify_eq.
      pose proof (fixed_end_nonneg _ Hfj). pose proof (att_align_range (fixed_end (take j atts)) (attalign a)). lia.
    + rewrite list_lookup_insert_ne in Hic by done. apply (Hkn i); [lia|done].
  - rewrite Et. apply Forall_app. split; [done|]. by apply Forall_singleton.
  - lia.
Qed.
End Cache.

(** ** The functions *)

(** The values of null attributes are not set. *)
Lemma fetched_row_null tp atts vs ns pos k :
  row_ok atts vs ns → ns !! k = Some true → fetched_row tp atts vs ns pos !! k = Some (ByVal 0).
Proof.
  intros Hrow. revert k pos. induction Hrow as [|a v n A VA NA Hc Hr IH]; intros k pos Hn; [done|].
  destruct k as [|k]; cbn in Hn; simplify_eq; [done|]. cbn [fetched_row]. destruct n; by apply IH.
Qed.

Section Read.
Context (t : HeapTuple) (atts more : list Form_pg_attribute) (vs : list Datum) (ns : list bool).
Context (Hf : formed t atts vs ns).

(** What the attributes of the tuple read as. *)
Definition row_values : list Datum := fetched_row (t_area t) atts vs ns 0.

Lemma formed_nulls_from : nulls_from (HeapTupleHasNulls t) (t_bits t) 0 ns.
Proof. intros i n Hi. rewrite Z.add_0_l. by eapply formed_null_at. Qed.

Lemma heap_deform_tuple_ok d cache :
  attrs d = atts ++ more → cache_ok (attrs d) cache →
  ∃ cache', heap_deform_tuple t d cache =
      Some (row_values ++ replicate (length more) (ByVal 0), ns ++ replicate (length more) true, cache') ∧
    cache_ok (attrs d) cache'.
Proof.
  intros Ed Hc. unfold heap_deform_tuple, natts. rewrite (formed_natts _ _ _ _ Hf), Ed, length_app.
  rewrite Z.min_l by lia. rewrite Nat2Z.id, take_app_length.
  destruct (deform_loop_ok (HeapTupleHasNulls t) (t_bits t) (t_area t) more [] atts vs ns
    (formed_row _ _ _ _ Hf) [] cache 0 false) as (cache' & slow' & E & Hc' & _).
  - done.
  - change (Z.to_nat 0) with 0%nat. rewrite drop_0, app_nil_r. apply (formed_area _ _ _ _ Hf).
  - apply formed_nulls_from.
  - by rewrite <- Ed.
  - intros _. by split; [constructor|].
  - cbn [length] in E. change (Z.of_nat 0) with 0 in E. rewrite E. cbn [mbind option_bind]. exists cache'.
    split; [|done]. do 3 f_equal. 1, 2: do 2 f_equal; lia.
Qed.

(** One attribute, which is not null, and its place in the row. *)
Section Attribute.
Context (A B : list Form_pg_attribute) (a : Form_pg_attribute) (VA VB : list Datum) (v : Datum).
Context (NA NB : list bool) (cache : list Z).
Context (EA : atts = A ++ a :: B) (EV : vs = VA ++ v :: VB) (EN : ns = NA ++ false :: NB).
Context (HrA : row_ok A VA NA) (Hok : attr_ok a v) (Hc : cache_ok (atts ++ more) cache).

Local Abbreviation k := (length A).
Local Abbreviation base := (blen (layout A VA NA 0)).
Local Abbreviation s := (attr_start a v base).
Local Abbreviation value := (fetched (t_area t) a v s).

Lemma value_at : row_values !! k = Some value.
Proof.
  unfold row_values. rewrite EA, EV, EN, fetched_row_app by done.
  rewrite lookup_app_r, fetched_row_length, Nat.sub_diag by (rewrite ?fetched_row_length; done). done.
Qed.

Lemma attr_at : (atts ++ more) !! k = Some a.
Proof. rewrite EA, <- app_assoc, lookup_app_r, Nat.sub_diag by lia. done. Qed.

Lemma null_len : length NA = k.
Proof. by destruct (row_ok_length _ _ _ HrA). Qed.

Lemma area_at :
  t_area t = layout A VA NA 0 ++ attr_pad a v base ++ attr_image a v ++
    layout B VB NB (s + blen (attr_image a v)).
Proof. rewrite (formed_area _ _ _ _ Hf), EA, EV, EN, layout_app by done. done. Qed.

Lemma drop_at :
  drop (Z.to_nat base) (t_area t) = attr_pad a v base ++ attr_image a v ++
    layout B VB NB (s + blen (attr_image a v)).
Proof. apply (drop_app_Z (layout A VA NA 0) _ _ 0); [done|]. by rewrite drop_0, <- area_at. Qed.

Lemma fetch_at : fetchatt a (t_area t) s = Some value.
Proof. eapply fetchatt_ok; [done|apply blen_nonneg|apply drop_at]. Qed.

Lemma slow_at :
  (if HeapTupleNoNulls t then Some false else nulls_before (t_bits t) (Z.of_nat k))
    = Some (existsb id NA).
Proof.
  pose proof (formed_nulls _ _ _ _ Hf) as Hn. pose proof (formed_bits _ _ _ _ Hf) as Hb.
  unfold HeapTupleHasNulls in Hn. unfold HeapTupleNoNulls.
  destruct (Z.land (t_infomask t) HEAP_HASNULL =? 0); cbn [negb] in Hn.
  - rewrite EN, existsb_app in Hn. symmetry in Hn. apply orb_false_iff in Hn as [-> _]. done.
  - rewrite (nulls_before_ok _ ns), EN, <- null_len, take_app_length;
      [done|by apply Hb|rewrite EN, length_app, null_len; cbn; lia].
Qed.

Lemma cached_at c : cached_ok (atts ++ more) k c → existsb id NA = false → c ≠ -1 → c = s.
Proof.
  intros Hcc Hn Hne. assert (HfA : all_fixed A).
  { destruct Hcc as [?|(a' & _ & _ & HfA & _)]; [done|]. by rewrite EA, <- app_assoc, take_app_length in HfA. }
  rewrite (layout_fixed A VA NA) by done. rewrite EA, <- app_assoc in Hcc. by eapply cached_start.
Qed.

Lemma take_at : take (S k) atts = A ++ [a].
Proof.
  rewrite (take_S_r atts k a); rewrite EA; [by rewrite take_app_length|].
  by rewrite lookup_app_r, Nat.sub_diag by lia.
Qed.

(** The tests of the code say that the attributes have fixed lengths. *)
Lemma fixed_at :
  existsb id NA = false →
  HeapTupleHasVarWidth t && existsb (λ a, attlen a <=? 0) (take (S k) (atts ++ more)) = false →
  all_fixed (A ++ [a]).
Proof.
  intros Hnn Hvar. assert (Hk : (S k ≤ length atts)%nat) by (rewrite EA, length_app; cbn; lia).
  rewrite take_app_le, take_at in Hvar by done. apply Forall_lookup. intros i x Hx.
  destruct (HeapTupleHasVarWidth t) eqn:Ev; cbn [andb] in Hvar.
  - destruct (Z.leb_spec (attlen x) 0) as [Hle|]; [|done].
    assert (existsb (λ a, attlen a <=? 0) (A ++ [a]) = true); [|congruence].
    apply existsb_exists. exists x. split; [|by apply Z.leb_le]. apply list_elem_of_In. by eapply list_elem_of_lookup_2.
  - pose proof (lookup_lt_Some _ _ _ Hx) as Hi. rewrite length_app in Hi. cbn in Hi.
    apply (all_fixed_attr t atts vs ns Hf i).
    + unfold HeapTupleAllFixed, HeapTupleHasVarWidth in *. by apply negb_false_iff in Ev.
    + rewrite <- take_at in Hx. rewrite lookup_take_lt in Hx by lia. done.
    + rewrite EN. destruct (decide (i < k)%nat).
      * rewrite lookup_app_l by (rewrite null_len; lia). pose proof (no_nulls NA Hnn) as Hall.
        destruct (lookup_lt_is_Some_2 NA i) as [m Hm]; [rewrite null_len; lia|]. rewrite Hm. f_equal.
        rewrite Forall_lookup in Hall. symmetry. by apply (Hall i).
      * rewrite lookup_app_r by (rewrite null_len; lia). by replace (i - length NA)%nat with 0%nat by (rewrite null_len; lia).
Qed.

(** The fast path: the cache is filled up to the attribute. *)
Lemma fast_at_ok :
  all_fixed (A ++ [a]) → existsb id NA = false → ∀ cache, cache_ok (atts ++ more) cache →
  cache !! 0%nat = Some 0 →
  ∃ cache',
    (j ← cached_loop (length cache) cache 1 (Z.of_nat k);
     a0 ← (atts ++ more) !! Z.to_nat (j - 1);
     c0 ← cache !! Z.to_nat (j - 1);
     cache ← cache_loop (Z.to_nat (Z.max (Z.of_nat k + 1) (HeapTupleHeaderGetNatts t)))
               t (atts ++ more) cache (Z.of_nat k) j (c0 + attlen a0);
     c ← cache !! k;
     v ← fetchatt a (t_area t) c;
     Some (v, cache)) = Some (value, cache') ∧ cache_ok (atts ++ more) cache'.
Proof.
  intros Hfix Hnn ca Hca H0.
  assert (Hk : (k < length atts)%nat) by (rewrite EA, length_app; cbn; lia).
  pose proof take_at as Etk.
  pose proof Hca as [Hlen Hall].
  destruct (cached_loop_ok (atts ++ more) ca k (length ca) 1) as (j & Ej & Hkn & Hj1 & Hj2);
    [done| |lia|lia| |rewrite Hlen, length_app; lia|].
  { intros i c Hi Hic. assert (i = 0%nat) as -> by lia. rewrite H0 in Hic. by simplify_eq. }
  { rewrite length_app. lia. }
  change (Z.of_nat 1) with 1 in Ej. rewrite Ej. cbn [mbind option_bind].
  destruct (lookup_lt_is_Some_2 atts (j - 1)) as [a0 Ha0]; [lia|].
  assert (Ha0' : (atts ++ more) !! (j - 1)%nat = Some a0) by (rewrite lookup_app_l; [done|lia]).
  replace (Z.to_nat (Z.of_nat j - 1)) with (j - 1)%nat by lia. rewrite Ha0'. cbn [mbind option_bind].
  destruct (cache_lookup _ _ _ _ Hca Ha0') as (c0 & Ec0 & Hcc0). rewrite Ec0. cbn [mbind option_bind].
  assert (Hfj : all_fixed (take j atts)).
  { assert (Hpre : take j atts = take j (A ++ [a])) by (rewrite <- Etk, take_take; f_equal; lia).
    rewrite Hpre. by apply Forall_take. }
  assert (Eoff : c0 + attlen a0 = fixed_end (take j atts)).
  { destruct Hcc0 as [->|(a' & Ha'' & -> & _)]; [by destruct (Hkn (j - 1)%nat (-1)); [lia|..]|].
    assert (a' = a0) as -> by congruence.
    assert (Et : take j atts = take (j - 1) atts ++ [a0])
      by (rewrite <- (take_S_r atts _ _ Ha0); f_equal; lia).
    rewrite Et, fixed_end_snoc. by rewrite take_app_le by lia. }
  rewrite Eoff. replace (Z.to_nat (Z.max (Z.of_nat k + 1) (HeapTupleHeaderGetNatts t)))
    with (Nat.max (S k) (length atts)) by (rewrite (formed_natts _ _ _ _ Hf); lia).
  destruct (cache_loop_ok t atts more vs ns Hf k) with (n := Nat.max (S k) (length atts)) (j := j) (cache := ca)
    as (ca' & E & Hca' & Hkn'); [by rewrite Etk|done..|lia|].
  rewrite E. cbn [mbind option_bind].
  destruct (cache_lookup _ _ _ _ Hca' attr_at) as (c & Ec & Hcc). rewrite Ec. cbn [mbind option_bind].
  rewrite (cached_at c Hcc Hnn), fetch_at by (eapply Hkn'; [|done]; lia). by exists ca'.
Qed.

Lemma walk_at ca :
  cache_ok (atts ++ more) ca →
  ∃ cache',
    ('(cache, off) ← walk_loop k t (atts ++ more) ca 0 0 true;
     off ← find_off (t_area t) a off;
     v ← fetchatt a (t_area t) off;
     Some (v, cache)) = Some (value, cache') ∧ cache_ok (atts ++ more) cache'.
Proof.
  intros Hca. assert (Eall : atts ++ more = [] ++ A ++ (a :: B ++ more)) by (rewrite EA; by rewrite <- app_assoc).
  destruct (walk_loop_ok t (a :: B ++ more) (attr_pad a v base ++ attr_image a v ++
    layout B VB NB (s + blen (attr_image a v))) A VA NA HrA [] ca 0 false) as (ca' & E & Hca').
  - done.
  - by rewrite drop_0, <- area_at.
  - intros i n Hi. apply formed_nulls_from. rewrite EN, lookup_app_l; [done|by eapply lookup_lt_Some].
  - by rewrite <- Eall.
  - intros _. by split; [constructor|].
  - cbn [negb length] in E. change (Z.of_nat 0) with 0 in E. rewrite Eall, E. cbn [mbind option_bind].
    rewrite Z.add_0_l, (find_off_ok _ a v base _ Hok drop_at). cbn [mbind option_bind].
    rewrite fetch_at. by exists ca'.
Qed.

Lemma nocachegetattr_at :
  ∃ cache', nocachegetattr t (Z.of_nat k + 1) (atts ++ more) cache = Some (value, cache') ∧
    cache_ok (atts ++ more) cache'.
Proof.
  unfold nocachegetattr. rewrite Z.add_simpl_r, Nat2Z.id, attr_at. cbn [mbind option_bind].
  rewrite slow_at. cbn [mbind option_bind].
  destruct (cache_lookup _ _ _ _ Hc attr_at) as (c & Ec & Hcc). rewrite Ec. cbn [mbind option_bind].
  destruct (negb (existsb id NA) && (0 <=? c)) eqn:E.
  - apply andb_true_iff in E as [E1%negb_true_iff E2%Z.leb_le].
    rewrite (cached_at c Hcc E1), fetch_at by lia. by exists cache.
  - pose proof (cache_ok_first _ _ Hc) as Hc0.
    destruct (existsb id NA || _) eqn:Es; cbn [negb]; [by apply walk_at|].
    apply orb_false_iff in Es as [Hnn Hvar]. apply fast_at_ok; [|done|done|].
    + apply fixed_at; [done|]. by replace (Z.to_nat (Z.of_nat k + 1)) with (S k) in Hvar by lia.
    + apply list_lookup_insert_eq. destruct Hc as [-> _]. rewrite EA, !length_app. cbn. lia.
Qed.
End Attribute.

Lemma nocachegetattr_ok (k : nat) cache :
  ns !! k = Some false → cache_ok (atts ++ more) cache →
  ∃ v cache', nocachegetattr t (Z.of_nat k + 1) (atts ++ more) cache = Some (v, cache') ∧
    row_values !! k = Some v ∧ cache_ok (atts ++ more) cache'.
Proof.
  intros Hn Hc. pose proof (formed_row _ _ _ _ Hf) as Hrow.
  destruct (lookup_lt_is_Some_2 atts k) as [a Ha].
  { rewrite <- (formed_length t atts vs ns Hf). by eapply lookup_lt_Some. }
  destruct (row_split _ _ _ k a Hrow Ha)
    as (A & B & VA & v & VB & NA & n & NB & EA & EV & EN & HA & HVA & HNA & HrA & Hcol & _).
  assert (n = false) as -> by (rewrite EN, lookup_app_r, HNA, Nat.sub_diag in Hn by lia; cbn in Hn; congruence).
  specialize (Hcol eq_refl). rewrite <- HA.
  destruct (nocachegetattr_at A B a VA VB v NA NB cache EA EV EN HrA Hcol Hc) as (cache' & E & Hc').
  do 2 eexists. split; [exact E|]. split; [by eapply value_at|done].
Qed.

Lemma fastgetattr_ok (k : nat) n cache :
  ns !! k = Some n → cache_ok (atts ++ more) cache →
  ∃ v cache', fastgetattr t (Z.of_nat k + 1) (atts ++ more) cache = Some (v, n, cache') ∧
    row_values !! k = Some v ∧ cache_ok (atts ++ more) cache'.
Proof.
  intros Hn Hc. unfold fastgetattr. rewrite Z.add_simpl_r, Nat2Z.id.
  pose proof (formed_null_at _ _ _ _ _ _ Hf Hn) as Hna. unfold null_at, HeapTupleHasNulls in Hna.
  pose proof (nocachegetattr_ok k cache) as Hno. unfold HeapTupleNoNulls.
  destruct (Z.land (t_infomask t) HEAP_HASNULL =? 0) eqn:Enn; cbn [negb] in Hna.
  - injection Hna as <-. destruct (Hno Hn Hc) as (v & cache' & E & Hv & Hc').
    destruct (lookup_lt_is_Some_2 (atts ++ more) k) as [a Ha].
    { rewrite length_app, <- (formed_length t atts vs ns Hf). pose proof (lookup_lt_Some _ _ _ Hn). lia. }
    destruct (cache_lookup _ _ _ _ Hc Ha) as (c & Ec & _). rewrite Ha, Ec. cbn [mbind option_bind].
    destruct (Z.leb_spec 0 c).
    + unfold nocachegetattr, HeapTupleNoNulls in E. rewrite Z.add_simpl_r, Nat2Z.id, Ha, Enn in E.
      cbn [mbind option_bind] in E. rewrite Ec in E. cbn [mbind option_bind negb andb] in E.
      rewrite (proj2 (Z.leb_le 0 c)) in E by done.
      destruct (fetchatt a (t_area t) c); simplify_eq/=. by exists v, cache'.
    + rewrite E. by exists v, cache'.
  - rewrite Hna. cbn [mbind option_bind]. destruct n.
    + exists (ByVal 0), cache. split; [done|]. split; [|done].
      apply fetched_row_null; [apply (formed_row _ _ _ _ Hf)|done].
    + destruct (Hno Hn Hc) as (v & cache' & E & Hv & Hc'). rewrite E. by exists v, cache'.
Qed.

(** Attributes that were added to the table after the tuple was stored are null. *)
Lemma heap_getattr_ok (k : nat) cache :
  (k < length (atts ++ more))%nat → cache_ok (atts ++ more) cache →
  ∃ v n cache', heap_getattr t (Z.of_nat k + 1) (atts ++ more) cache = Some (v, n, cache') ∧
    (row_values ++ replicate (length more) (ByVal 0)) !! k = Some v ∧
    (ns ++ replicate (length more) true) !! k = Some n ∧ cache_ok (atts ++ more) cache'.
Proof.
  intros Hk Hc. rewrite length_app in Hk. unfold heap_getattr. rewrite (formed_natts _ _ _ _ Hf).
  assert (Hlv : length row_values = length atts) by apply fetched_row_length, (formed_row _ _ _ _ Hf).
  pose proof (formed_length t atts vs ns Hf) as Hln.
  destruct (Z.ltb_spec (Z.of_nat (length atts)) (Z.of_nat k + 1)).
  - exists (ByVal 0), true, cache. split; [done|].
    rewrite !lookup_app_r, Hlv, Hln by lia. by rewrite !lookup_replicate_2 by lia.
  - destruct (lookup_lt_is_Some_2 ns k) as [n Hn]; [lia|].
    destruct (fastgetattr_ok k n cache Hn Hc) as (v & cache' & E & Hv & Hc').
    exists v, n, cache'. rewrite !lookup_app_l by lia. done.
Qed.

Lemma heap_attisnull_ok (k : nat) :
  (k < length (atts ++ more))%nat →
  heap_attisnull t (Z.of_nat k + 1) = lift_opt ((ns ++ replicate (length more) true) !! k).
Proof.
  intros Hk. rewrite length_app in Hk. unfold heap_attisnull. rewrite (formed_natts _ _ _ _ Hf).
  pose proof (formed_length t atts vs ns Hf) as Hln.
  destruct (Z.ltb_spec (Z.of_nat (length atts)) (Z.of_nat k + 1)).
  - by rewrite lookup_app_r, lookup_replicate_2 by lia.
  - rewrite lookup_app_l, (proj2 (Z.ltb_lt _ _)) by lia.
    destruct (lookup_lt_is_Some_2 ns k) as [n Hn]; [lia|]. rewrite Hn.
    pose proof (formed_null_at _ _ _ _ _ _ Hf Hn) as Hna. unfold null_at, HeapTupleHasNulls in Hna.
    unfold HeapTupleNoNulls. rewrite Z.add_simpl_r.
    destruct (Z.land (t_infomask t) HEAP_HASNULL =? 0); cbn [negb] in Hna; [by injection Hna as <-|].
    by rewrite Hna.
Qed.

(** ** Slots *)

(** The first [n] entries of an array are set. *)
Definition agree {A} (n : nat) (xs full : list A) : Prop :=
  length xs = length full ∧ ∀ i, (i < n)%nat → xs !! i = full !! i.

Lemma agree_inserts {A} n m k (xs full : list A) :
  agree n xs full → (m ≤ n)%nat → (m + k ≤ length full)%nat →
  agree (Nat.max n (m + k)) (list_inserts m (take k (drop m full)) xs) full.
Proof.
  intros [Hl Ha] Hm Hk. split; [by rewrite length_inserts|]. intros i Hi.
  assert (Hlen : length (take k (drop m full)) = k) by (rewrite length_take, length_drop; lia).
  destruct (decide (m ≤ i < m + k)%nat) as [Hin|Hout].
  - rewrite list_lookup_inserts by lia. rewrite lookup_take_lt, lookup_drop by lia. f_equal. lia.
  - destruct (decide (i < m)%nat).
    + rewrite list_lookup_inserts_lt by lia. apply Ha. lia.
    + rewrite list_lookup_inserts_ge by lia. apply Ha. lia.
Qed.

Definition full_values : list Datum := row_values ++ replicate (length more) (ByVal 0).
Definition full_nulls : list bool := ns ++ replicate (length more) true.

(** The offset to go on from after [n] attributes. *)
Definition off_ok (n : nat) (s : TupleTableSlot) : Prop :=
  let m := Nat.min n (length atts) in
  tts_off s = blen (layout (take m atts) (take m vs) (take m ns) 0) ∧
  fast_at (tts_slow s) (take m atts) (tts_off s).

(** A slot that has read its tuple up to [tts_nvalid]. *)
Definition slot_ok (s : TupleTableSlot) : Prop :=
  ∃ n : nat, tts_nvalid s = Z.of_nat n ∧ tts_heaptuple s = Some t ∧
    agree n (tts_values s) full_values ∧ agree n (tts_isnull s) full_nulls ∧
    ((0 < n)%nat → off_ok n s).

Local Abbreviation base m := (blen (layout (take m atts) (take m vs) (take m ns) 0)).

(** The attributes from [n] to [e], in the row and in the area. *)
Lemma segment n e :
  (n ≤ e ≤ length atts)%nat →
  let M := take (e - n) (drop n atts) in
  let VM := take (e - n) (drop n vs) in
  let NM := take (e - n) (drop n ns) in
  row_ok M VM NM ∧ take n atts ++ M = take e atts ∧
  (∃ rest, drop (Z.to_nat (base n)) (t_area t) = layout M VM NM (base n) ++ rest) ∧
  base n + blen (layout M VM NM (base n)) = base e ∧
  take (e - n) (drop n full_values) = fetched_row (t_area t) M VM NM (base n) ∧
  take (e - n) (drop n full_nulls) = NM.
Proof.
  intros Hne M VM NM. pose proof (formed_row _ _ _ _ Hf) as Hrow.
  destruct (row_ok_length _ _ _ Hrow) as [Hlv Hln].
  assert (Hn : row_ok (take n atts) (take n vs) (take n ns)) by by apply row_ok_take.
  assert (HM : row_ok M VM NM) by (apply row_ok_take, row_ok_drop, Hrow).
  assert (Hcut : ∀ {A} (l : list A), take n l ++ take (e - n) (drop n l) = take e l).
  { intros A l. rewrite take_take_drop. f_equal. lia. }
  assert (Hcut' : ∀ {A} (l : list A), l = take n l ++ take (e - n) (drop n l) ++ drop e l).
  { intros A l. rewrite app_assoc, Hcut. symmetry. apply take_drop. }
  assert (Hlt : length (take n atts) = n) by (rewrite length_take; lia).
  split_and!; [done|apply Hcut| | | |].
  - eexists. apply (drop_app_Z (layout (take n atts) (take n vs) (take n ns) 0) _ _ 0); [done|].
    rewrite drop_0, (formed_area _ _ _ _ Hf). rewrite (Hcut' _ atts), (Hcut' _ vs), (Hcut' _ ns) at 1.
    rewrite layout_app, layout_app by done. rewrite Z.add_0_l. done.
  - rewrite <- (Hcut _ atts), <- (Hcut _ vs), <- (Hcut _ ns), layout_app, blen_app by done. done.
  - unfold full_values, row_values. rewrite (Hcut' _ atts), (Hcut' _ vs), (Hcut' _ ns) at 1.
    rewrite fetched_row_app, fetched_row_app, <- !app_assoc by done. rewrite Z.add_0_l.
    rewrite drop_app_length' by (rewrite fetched_row_length; done).
    apply take_app_length'. rewrite fetched_row_length by done. unfold M. rewrite length_take, length_drop. lia.
  - unfold full_nulls, NM. rewrite drop_app_le, take_app_le by (rewrite ?length_drop; lia). done.
Qed.

Lemma full_length :
  length full_values = (length atts + length more)%nat ∧
  length full_nulls = (length atts + length more)%nat.
Proof.
  unfold full_values, full_nulls, row_values.
  rewrite !length_app, fetched_row_length, !length_replicate, (formed_length t atts vs ns Hf); [done|].
  apply (formed_row _ _ _ _ Hf).
Qed.

Lemma slot_deform_ok s d cache (e : nat) :
  slot_ok s → (e ≤ length atts)%nat → attrs d = atts ++ more → cache_ok (attrs d) cache →
  ∃ s' cache', slot_deform_tuple s d t (Z.of_nat e) cache = Some (s', cache') ∧ slot_ok s' ∧
    tts_nvalid s' = Z.max (tts_nvalid s) (Z.of_nat e) ∧ off_ok (Z.to_nat (tts_nvalid s')) s' ∧
    cache_ok (attrs d) cache'.
Proof.
  intros (n & En & Et & Hv & Hnl & Hoff) He Ed Hc. unfold slot_deform_tuple. rewrite En, Nat2Z.id.
  set (st := if Z.of_nat n =? 0 then (0, false) else (tts_off s, tts_slow s)).
  assert (Hst : st.1 = base (Nat.min n (length atts)) ∧ fast_at st.2 (take (Nat.min n (length atts)) atts) st.1).
  { unfold st. destruct (Z.eqb_spec (Z.of_nat n) 0); [|apply Hoff; lia].
    assert (n = 0%nat) as -> by lia. split; [done|]. intros _. by split; [constructor|]. }
  destruct st as [off slow]. cbn [fst snd] in Hst. destruct Hst as [-> Hfast].
  destruct (decide (n ≤ e)%nat) as [Hne|Hne].
  - rewrite Nat.min_l in * by lia.
    destruct (segment n e) as (HM & EM & [rest Harea] & Hbase & Hfv & Hfn); [lia|].
    replace (Z.to_nat (Z.of_nat e - Z.of_nat n)) with (e - n)%nat by lia.
    assert (Eseg : take (e - n) (drop n (attrs d)) = take (e - n) (drop n atts))
      by (rewrite Ed, drop_app_le, take_app_le; [done|rewrite length_drop; lia|lia]).
    assert (Eall : attrs d = take n atts ++ take (e - n) (drop n atts) ++ (drop e atts ++ more)).
    { rewrite app_assoc, EM, app_assoc, take_drop. done. }
    destruct (deform_loop_ok (HeapTupleHasNulls t) (t_bits t) (t_area t) (drop e atts ++ more) rest _ _ _ HM
      (take n atts) cache (base n) slow) as (cache' & slow' & E & Hc' & Hf'); [apply blen_nonneg|done| |by rewrite <- Eall|done|].
    { intros i m Hi. rewrite length_take, Nat.min_l, <- Nat2Z.inj_add by lia.
      apply (formed_null_at t atts vs ns); [done|]. apply lookup_take_Some in Hi as [Hi _].
      by rewrite lookup_drop in Hi. }
    rewrite length_take, Nat.min_l in E by lia. rewrite Eseg, E. cbn [mbind option_bind].
    set (s' := mkSlot _ _ _ _ _ _). exists s', cache'. split; [done|].
    assert (Hoff' : off_ok e s').
    { unfold off_ok, s'. cbn [tts_off tts_slow]. rewrite Nat.min_l, Hbase by lia. split; [done|].
      by rewrite <- Hbase, <- EM. }
    destruct full_length as [Hlv Hln].
    split_and!; [|done|unfold s'; cbn [tts_nvalid]; by replace (Z.to_nat _) with e by lia|by rewrite Eall].
    exists e. split; [unfold s'; cbn; lia|]. split; [done|].
    assert (Emax : e = Nat.max n (n + (e - n))) by lia.
    split; [|split; [|done]]; unfold s'; cbn [tts_values tts_isnull]; rewrite <- ?Hfv, <- ?Hfn;
      rewrite Emax at 1; apply agree_inserts; (done || lia).
  - replace (Z.to_nat (Z.of_nat e - Z.of_nat n)) with 0%nat by lia. rewrite take_0. cbn [deform_loop mbind option_bind].
    set (s' := mkSlot _ _ _ _ _ _). exists s', cache. split; [done|].
    split_and!; [|done|unfold s'; cbn [tts_nvalid]; by replace (Z.to_nat _) with n by lia|done].
    exists n. unfold s'. cbn [tts_nvalid tts_heaptuple tts_values tts_isnull list_inserts].
    split; [lia|]. split; [done|]. split; [done|]. split; [done|]. done.
Qed.

(** The entry point: also the attributes that the tuple does not have. *)
Lemma slot_getsomeattrs_ok s d cache (k : nat) :
  slot_ok s → attrs d = atts ++ more → cache_ok (attrs d) cache → (0 < k ≤ length (attrs d))%nat →
  ∃ s' cache', _slot_getsomeattrs s d (Z.of_nat k) cache = ok (s', cache') ∧ slot_ok s' ∧
    tts_nvalid s' = Z.max (tts_nvalid s) (Z.of_nat k) ∧ cache_ok (attrs d) cache'.
Proof.
  intros Hs Ed Hc Hk. unfold _slot_getsomeattrs, natts.
  destruct (Z.leb_spec (Z.of_nat k) (tts_nvalid s)) as [Hle|Hlt].
  { exists s, cache. split_and!; [done..|lia|done]. }
  rewrite (proj2 (Z.leb_gt _ _)), (proj2 (Z.ltb_ge _ _)) by lia. cbn [orb].
  pose proof Hs as (_ & _ & Et & _). rewrite Et, (formed_natts _ _ _ _ Hf), <- Nat2Z.inj_min.
  set (e := Nat.min (length atts) k).
  destruct (slot_deform_ok s d cache e Hs ltac:(lia) Ed Hc) as (s' & cache' & E & Hs' & Hnv & Hoff' & Hc').
  rewrite E. cbn [lift_opt fmap option_fmap option_map res_bind]. do 2 eexists. split; [done|].
  split_and!; [|cbn; lia|done]. destruct Hs' as (n & En & Et' & Hv & Hnl & Hoff).
  assert (Hkm : (e ≤ n < k ∨ n = e)%nat) by (rewrite En in Hnv; lia).
  destruct full_length as [Hlv Hln].
  rewrite Ed, length_app in Hk.
  replace (Z.to_nat (Z.of_nat k - Z.of_nat e)) with (k - e)%nat by lia. rewrite Nat2Z.id.
  assert (Hrest : (k - e)%nat = 0%nat ∨ e = length atts) by lia.
  assert (Ev : replicate (k - e) (ByVal 0) = take (k - e) (drop e full_values)).
  { destruct Hrest as [->| ->]; [by rewrite take_0|]. unfold full_values, row_values.
    rewrite drop_app_length' by (rewrite fetched_row_length; [done|apply (formed_row _ _ _ _ Hf)]).
    rewrite take_replicate. f_equal. lia. }
  assert (Enl : replicate (k - e) true = take (k - e) (drop e full_nulls)).
  { destruct Hrest as [->| ->]; [by rewrite take_0|]. unfold full_nulls.
    rewrite drop_app_length' by by rewrite (formed_length t atts vs ns Hf).
    rewrite take_replicate. f_equal. lia. }
  exists k. cbn [tts_nvalid tts_heaptuple tts_values tts_isnull tts_off tts_slow].
  rewrite Ev, Enl. assert (Emax : k = Nat.max n (e + (k - e))) by lia.
  split; [done|]. split; [done|]. split; [|split].
  - rewrite Emax at 1. apply agree_inserts; [done|lia|lia].
  - rewrite Emax at 1. apply agree_inserts; [done|lia|lia].
  - intros _. assert (Emin : Nat.min k (length atts) = Nat.min n (length atts)) by lia. unfold off_ok in *.
    cbn [tts_off tts_slow]. rewrite Emin. by rewrite En, Nat2Z.id in Hoff'.
Qed.
End Read.
