(* ===== verification/HeapTupleSpec.v ===== *)
(** Heap tuples hold the rows they are formed of: what is read from a tuple
    is the value that was stored, by every way to read it. *)
From Stdlib Require Import Ascii.
From stdpp Require Import prelude functions numbers list.
From S2P Require Import Prelude Varlena HeapTuple HeapTupleForm HeapTupleRead.

Local Open Scope Z_scope.

(** ** The value in the stored bytes *)

(** What a varlena stands for, whatever the length of its header. *)
Definition content (p : list Z) : list Z :=
  if VARATT_IS_EXTERNAL p || VARATT_IS_COMPRESSED p then take (Z.to_nat (VARSIZE_ANY p)) p
  else payload p.

Definition same_varlena (p q : list Z) : Prop :=
  VARATT_IS_EXTERNAL q = VARATT_IS_EXTERNAL p ∧ VARATT_IS_COMPRESSED q = VARATT_IS_COMPRESSED p ∧
  content q = content p.

(** The length of a value that is not a varlena. *)
Definition plain_len (a : Form_pg_attribute) (p : list Z) : Z :=
  if attlen a =? -2 then default 0 (strlen p) + 1 else attlen a.

Definition same_value (a : Form_pg_attribute) (v d : Datum) : Prop :=
  match v, d with
  | ByVal z, ByVal z' => z' = sext (attlen a) z
  | ByRef p, ByRef q =>
      if attlen a =? -1 then same_varlena p q
      else take (Z.to_nat (plain_len a p)) q = take (Z.to_nat (plain_len a p)) p
  | _, _ => False
  end.

Lemma take_front (p rest : list Z) n :
  n ≤ blen p → take (Z.to_nat n) (take (Z.to_nat n) p ++ rest) = take (Z.to_nat n) p.
Proof.
  unfold blen. intros Hn. rewrite take_app_le, take_take, Nat.min_id; [done|rewrite length_take; lia].
Qed.

Lemma take_drop_front (p rest : list Z) (h n : Z) :
  0 ≤ h ≤ n → n ≤ blen p →
  take (Z.to_nat (n - h)) (drop (Z.to_nat h) (take (Z.to_nat n) p ++ rest)) =
  take (Z.to_nat (n - h)) (drop (Z.to_nat h) p).
Proof.
  intros Hh Hn. unfold blen in Hn.
  rewrite drop_app_le, take_app_le by (rewrite ?length_drop, ?length_take; lia).
  rewrite skipn_firstn_comm, take_take. f_equal. lia.
Qed.

Lemma strlen_take p n rest :
  strlen p = Some n → strlen (take (Z.to_nat (n + 1)) p ++ rest) = Some n.
Proof.
  revert n. induction p as [|c p IH]; intros n E; [done|]. pose proof (strlen_range _ _ E) as Hr.
  replace (Z.to_nat (n + 1)) with (S (Z.to_nat n)) by lia. cbn [take app strlen] in *.
  destruct (c =? 0); [done|]. destruct (strlen p) as [m|] eqn:Em; simplify_eq/=.
  pose proof (strlen_range _ _ Em). by rewrite (IH m).
Qed.

Lemma payload_take p rest :
  varlena_ok p → VARATT_IS_EXTERNAL p = false →
  payload (take (Z.to_nat (VARSIZE_ANY p)) p ++ rest) = payload p.
Proof.
  intros Hp He. destruct (same_header_eqs _ _ (same_header_take p rest Hp)) as (E & E1 & EE & _).
  pose proof (same_header_take p rest Hp) as [Eh Es].
  set (q := take (Z.to_nat (VARSIZE_ANY p)) p ++ rest) in *.
  unfold payload, VARSIZE_ANY_EXHDR, VARDATA_ANY. rewrite E1, EE. unfold VARATT_IS_EXTERNAL in He. rewrite He.
  destruct (VARATT_IS_1B p) eqn:E1'.
  - assert (Esz : VARSIZE_SHORT q = VARSIZE_SHORT p) by (unfold VARSIZE_SHORT; by rewrite Eh).
    assert (Ean : VARSIZE_ANY p = VARSIZE_SHORT p) by (unfold VARSIZE_ANY; by rewrite He, E1').
    destruct (varlena_cases p Hp) as [_ [(? & _)|[(_ & _ & _ & Hs)|(_ & Hb & _)]]];
      unfold VARATT_IS_EXTERNAL, VARATT_IS_SHORT in *; [congruence| |congruence].
    rewrite Esz. unfold q, VARDATA_SHORT. rewrite Ean. apply (take_drop_front _ _ VARHDRSZ_SHORT);
      unfold VARHDRSZ_SHORT; lia.
  - destruct (varlena_4b p Hp E1') as [Ean Hs].
    assert (Esz : VARSIZE q = VARSIZE p) by (unfold VARSIZE, rd_be32; by rewrite Es).
    rewrite Esz. unfold q, VARDATA. rewrite Ean. apply (take_drop_front _ _ VARHDRSZ); unfold VARHDRSZ; lia.
Qed.

(** A value keeps its kind and its content when it is copied. *)
Lemma take_same p rest :
  varlena_ok p → same_varlena p (take (Z.to_nat (VARSIZE_ANY p)) p ++ rest).
Proof.
  intros Hp. pose proof (varlena_size p Hp) as Hsz.
  destruct (same_header_eqs _ _ (same_header_take p rest Hp)) as (E & _ & EE & EC & _).
  unfold same_varlena, content, VARATT_IS_EXTERNAL, VARATT_IS_COMPRESSED in *.
  split; [done|]. split; [done|]. rewrite EE, EC, E. destruct (VARATT_IS_1B_E p) eqn:He; cbn [orb].
  - apply take_front. lia.
  - destruct (VARATT_IS_4B_C p); [apply take_front; lia|by apply payload_take].
Qed.

(** The flags of a short value. *)
Lemma shrink_flags p rest :
  varlena_ok p → VARATT_IS_SHORT p = false → VARATT_COULD_SHORT p = true →
  VARATT_IS_1B_E (shrink p ++ rest) = false ∧ VARATT_IS_1B (shrink p ++ rest) = true ∧
  VARATT_IS_4B_C (shrink p ++ rest) = false ∧ VARATT_IS_4B (shrink p ++ rest) = false ∧
  VARSIZE_SHORT (shrink p ++ rest) = VARSIZE p - 3.
Proof.
  intros Hp H1 Hc. destruct (shrink_header p Hp H1 Hc) as (Eh & Hr & El).
  assert (Eh' : va_header (shrink p ++ rest) = VARSIZE p - 3 + 128) by by rewrite va_header_app.
  assert (Hb : is_byte (va_header (shrink p ++ rest))) by (rewrite Eh'; unfold is_byte; lia).
  destruct (header_cases _ Hb) as (_ & -> & -> & -> & ->). unfold VARATT_IS_1B_E. rewrite Eh'.
  split_and!; [lia|by rewrite bool_decide_true by lia|by rewrite bool_decide_false by lia..|divlia].
Qed.

Lemma shrink_same p rest :
  varlena_ok p → VARATT_IS_SHORT p = false → VARATT_COULD_SHORT p = true →
  same_varlena p (shrink p ++ rest).
Proof.
  intros Hp H1 Hc. destruct (shrink_flags p rest Hp H1 Hc) as (FE & F1 & FC & _ & FS).
  destruct (varlena_4b p Hp H1) as [_ Hs]. destruct (shrink_header p Hp H1 Hc) as (_ & _ & El).
  apply andb_true_iff in Hc as [Hu _].
  pose proof (proj1 Hp) as Hh. destruct (header_cases p Hh) as (EU & EC & _ & E1 & _).
  rewrite Hu in EU. symmetry in EU. apply bool_decide_eq_true in EU.
  assert (HE : VARATT_IS_1B_E p = false) by (unfold VARATT_IS_1B_E; lia).
  rewrite bool_decide_false in EC, E1 by lia.
  unfold same_varlena, content, VARATT_IS_EXTERNAL, VARATT_IS_COMPRESSED. rewrite FE, FC, HE, EC.
  split; [done|]. split; [done|]. cbn [orb].
  unfold payload, VARSIZE_ANY_EXHDR, VARDATA_ANY. rewrite FE, F1, HE, E1, FS.
  change (VARDATA_SHORT (shrink p ++ rest)) with (take (Z.to_nat (VARSIZE p - VARHDRSZ)) (VARDATA p) ++ rest).
  unfold VARHDRSZ_SHORT. replace (VARSIZE p - 3 - 1) with (VARSIZE p - VARHDRSZ) by (unfold VARHDRSZ; lia).
  apply take_front. unfold VARDATA, VARHDRSZ, blen in *. rewrite length_drop. lia.
Qed.

(** What is read of a stored value is the value, and can be stored again. *)
Lemma image_same a p rest :
  attr_ok a (ByRef p) → same_value a (ByRef p) (ByRef (attr_image a (ByRef p) ++ rest)).
Proof.
  intros [_ Hok]. cbn [same_value]. unfold plain_len.
  destruct Hok as [[Ea Hp]|[[Ea [n Hn]]|Ha]].
  - rewrite Ea. cbn [Z.eqb Pos.eqb]. rewrite image_byref by done.
    destruct (packed a (ByRef p) && negb (VARATT_IS_SHORT p)) eqn:E; [|by apply take_same].
    apply andb_true_iff in E as [E1 E2%negb_true_iff]. apply shrink_same; [done..|].
    by apply (packed_shrink a).
  - unfold attr_image. rewrite Ea, Hn. cbn [Z.eqb Pos.eqb default from_option id].
    pose proof (strlen_range _ _ Hn). apply take_front. lia.
  - unfold attr_image. destruct (Z.eqb_spec (attlen a) (-1)), (Z.eqb_spec (attlen a) (-2)); [lia..|].
    apply take_front. lia.
Qed.

Lemma shrink_ok p rest :
  varlena_ok p → VARATT_IS_SHORT p = false → VARATT_COULD_SHORT p = true → varlena_ok (shrink p ++ rest).
Proof.
  intros Hp H1 Hc. destruct (shrink_flags p rest Hp H1 Hc) as (FE & F1 & FC & F4 & FS).
  destruct (varlena_4b p Hp H1) as [En Hs]. destruct (shrink_header p Hp H1 Hc) as (Eh & Hr & El).
  assert (Esz : VARSIZE_ANY (shrink p ++ rest) = blen (shrink p))
    by (unfold VARSIZE_ANY; rewrite FE, F1, FS; done).
  assert (Hh : is_byte (va_header (shrink p))) by (rewrite Eh; unfold is_byte; lia).
  split; [by rewrite va_header_app|]. rewrite Esz.
  split_and!; [done|rewrite blen_app; pose proof (blen_nonneg rest); lia|by rewrite F4].
Qed.

Lemma take_ok p rest : varlena_ok p → varlena_ok (take (Z.to_nat (VARSIZE_ANY p)) p ++ rest).
Proof.
  intros Hp. destruct (same_header_eqs _ _ (same_header_take p rest Hp)) as (E & E1 & _).
  pose proof (same_header_take p rest Hp) as [Eh Es]. pose proof (varlena_size p Hp) as Hn.
  pose proof Hp as (Hh & _ & _ & H4). set (q := take _ p ++ rest) in *.
  assert (Hq : VARSIZE_ANY p ≤ blen q)
    by (unfold q; rewrite blen_app, blen_take; [pose proof (blen_nonneg rest)|]; lia).
  split; [by rewrite Eh|]. rewrite E. split_and!; [intros E0; rewrite E0, blen_nil in Hq; lia|done|].
  intros F4. assert (F4' : VARATT_IS_4B p = true) by (unfold VARATT_IS_4B in *; by rewrite <- Eh).
  destruct (H4 F4') as [? Hv]. destruct (header_cases p Hh) as (_ & _ & G4 & G1 & _).
  rewrite F4' in G4. symmetry in G4. apply bool_decide_eq_true in G4. rewrite bool_decide_false in G1 by lia.
  destruct (varlena_4b p Hp G1) as [Ea _].
  assert (Eq : VARSIZE q = VARSIZE p) by (unfold VARSIZE, rd_be32; by rewrite (Es G1)).
  rewrite Eq. unfold VARHDRSZ in *. split; lia.
Qed.

Lemma image_ok a p rest : attr_ok a (ByRef p) → attr_ok a (ByRef (attr_image a (ByRef p) ++ rest)).
Proof.
  intros [Hb Hok]. split; [done|]. destruct Hok as [[Ea Hp]|[[Ea [n Hn]]|Ha]].
  - left. split; [done|]. rewrite image_byref by done.
    destruct (packed a (ByRef p) && negb (VARATT_IS_SHORT p)) eqn:E; [|by apply take_ok].
    apply andb_true_iff in E as [E1 E2%negb_true_iff]. apply shrink_ok; [done..|].
    by apply (packed_shrink a).
  - right; left. split; [done|]. unfold attr_image. rewrite Ea, Hn. cbn [Z.eqb Pos.eqb default from_option id].
    eexists. by apply strlen_take.
  - right; right. rewrite blen_app, (image_fixed a (ByRef p)); [pose proof (blen_nonneg rest); lia| |lia].
    split; [done|]. by right; right.
Qed.

(** ** Rows *)

(** Values [ds] that are the values [vs] of a row, and could be stored again. *)
Inductive same_row : list Form_pg_attribute → list Datum → list bool → list Datum → Prop :=
| same_row_nil : same_row [] [] [] []
| same_row_null a v d atts vs ns ds :
    same_row atts vs ns ds → same_row (a :: atts) (v :: vs) (true :: ns) (d :: ds)
| same_row_value a v d atts vs ns ds :
    same_value a v d → attr_ok a d →
    same_row atts vs ns ds → same_row (a :: atts) (v :: vs) (false :: ns) (d :: ds).

Lemma fetched_row_same tp rest atts vs ns :
  row_ok atts vs ns → ∀ pos, 0 ≤ pos → drop (Z.to_nat pos) tp = layout atts vs ns pos ++ rest →
  same_row atts vs ns (fetched_row tp atts vs ns pos).
Proof.
  induction 1 as [|a v n atts vs ns Hc Hrow IH]; intros pos Hpos Htp; [constructor|].
  cbn [layout fetched_row] in *. destruct n; [constructor; by apply IH|].
  specialize (Hc eq_refl). rewrite <- !app_assoc in Htp.
  pose proof (drop_start tp a v pos _ Hpos Htp) as Hd. pose proof (start_nonneg a v pos Hpos) as Hs.
  constructor.
  - destruct v as [z|p]; [done|]. unfold fetched. rewrite Hd. by apply image_same.
  - destruct v as [z|p]; [done|]. unfold fetched. rewrite Hd. by apply image_ok.
  - apply IH; [pose proof (blen_nonneg (attr_image a v)); lia|]. by apply drop_after.
Qed.

Lemma row_values_same t atts vs ns : formed t atts vs ns → same_row atts vs ns (row_values t atts vs ns).
Proof.
  intros Hf. apply (fetched_row_same _ []); [apply (formed_row _ _ _ _ Hf)|done|].
  change (Z.to_nat 0) with 0%nat. rewrite drop_0, app_nil_r. apply (formed_area _ _ _ _ Hf).
Qed.

(** A row that was read is stored as the same bytes again. *)
Lemma varlena_again a p rest :
  attlen a = -1 → varlena_ok p →
  let q := attr_image a (ByRef p) ++ rest in
  packed a (ByRef q) = packed a (ByRef p) ∧ attr_image a (ByRef q) = attr_image a (ByRef p).
Proof.
  intros Ea Hp q. destruct (packed a (ByRef p) && negb (VARATT_IS_SHORT p)) eqn:E.
  - apply andb_true_iff in E as [Ep Hs%negb_true_iff]. pose proof (packed_shrink a p Ep Hs) as Hc.
    destruct (shrink_flags p rest Hp Hs Hc) as (FE & F1 & _ & _ & FS). destruct (shrink_header p Hp Hs Hc) as (_ & _ & El).
    assert (Eq : q = shrink p ++ rest) by (unfold q; by rewrite image_byref, Ep, Hs).
    assert (Epq : packed a (ByRef q) = true).
    { rewrite Eq. cbn [packed]. unfold value_type_could_short, VARATT_IS_EXTERNAL, VARATT_IS_SHORT. by rewrite Ea, FE, F1. }
    rewrite Epq, Ep, !image_byref, Epq, Ep, Hs, Eq by done. unfold VARATT_IS_SHORT. rewrite F1. cbn [negb andb].
    split; [done|]. unfold VARSIZE_ANY. rewrite FE, F1, FS, <- El. unfold blen. by rewrite Nat2Z.id, take_app_length.
  - assert (Ei : attr_image a (ByRef p) = take (Z.to_nat (VARSIZE_ANY p)) p) by (by rewrite image_byref, E).
    pose proof (same_header_take p rest Hp) as Hh. unfold q. rewrite Ei. clear q Ei. set (q := take _ p ++ rest) in *.
    destruct (same_header_eqs _ _ Hh) as (Es & E1 & EE & _ & EU).
    assert (Epq : packed a (ByRef q) = packed a (ByRef p)).
    { cbn [packed]. rewrite Ea. cbn [Z.eqb Pos.eqb andb]. unfold value_type_could_short, VARATT_COULD_SHORT.
      unfold VARATT_IS_EXTERNAL, VARATT_IS_SHORT in *. rewrite E1, EE, EU.
      destruct (VARATT_IS_1B p) eqn:H1; [by rewrite !orb_true_l|]. unfold VARSIZE, rd_be32. by rewrite (proj2 Hh H1). }
    split; [done|]. rewrite image_byref, Epq by done. unfold VARATT_IS_SHORT in *. rewrite E1, E, Es.
    pose proof (varlena_size p Hp). apply take_front. lia.
Qed.

Lemma image_again a p rest :
  attr_ok a (ByRef p) →
  let q := attr_image a (ByRef p) ++ rest in
  packed a (ByRef q) = packed a (ByRef p) ∧ attr_image a (ByRef q) = attr_image a (ByRef p).
Proof.
  intros [_ Hok] q. destruct Hok as [[Ea Hp]|[[Ea [n Hn]]|Ha]]; [by apply varlena_again| |].
  - cbn [packed]. unfold q, attr_image. rewrite Ea, Hn. cbn [Z.eqb Pos.eqb andb default from_option id].
    pose proof (strlen_range _ _ Hn). rewrite (strlen_take p n) by done. cbn [default from_option id].
    split; [done|]. apply take_front. lia.
  - cbn [packed]. unfold q, attr_image. rewrite (proj2 (Z.eqb_neq _ _)), (proj2 (Z.eqb_neq _ _)) by lia. cbn [andb].
    split; [done|]. apply take_front. lia.
Qed.

Lemma le_bytes_sext n z : 1 ≤ n → Z_to_little_endian n 8 (sext n z) = Z_to_little_endian n 8 z.
Proof.
  intros Hn.
  assert (E : ∀ x, Z_to_little_endian n 8 x = Z_to_little_endian n 8 (x `mod` 2 ^ (n * 8))).
  { intros x. rewrite <- little_endian_to_Z_to_little_endian by lia. symmetry.
    apply Z_to_little_endian_to_Z; [by rewrite length_le_bytes by lia; lia|lia|].
    apply Z_to_little_endian_bound; lia. }
  rewrite (E (sext n z)), (E z). f_equal. unfold sext. rewrite (Z.mul_comm n 8), Zminus_mod_idemp_l.
  f_equal. lia.
Qed.

Lemma layout_fetched tp rest atts vs ns :
  row_ok atts vs ns → ∀ pos, 0 ≤ pos → drop (Z.to_nat pos) tp = layout atts vs ns pos ++ rest →
  layout atts (fetched_row tp atts vs ns pos) ns pos = layout atts vs ns pos.
Proof.
  induction 1 as [|a v n atts vs ns Hc Hrow IH]; intros pos Hpos Htp; [done|].
  cbn [layout fetched_row] in *. destruct n; cbn [layout]; [by apply IH|].
  specialize (Hc eq_refl). rewrite <- !app_assoc in Htp.
  pose proof (drop_start tp a v pos _ Hpos Htp) as Hd. pose proof (start_nonneg a v pos Hpos) as Hs.
  assert (Ha : attr_image a (fetched tp a v (attr_start a v pos)) = attr_image a v ∧
    packed a (fetched tp a v (attr_start a v pos)) = packed a v).
  { destruct v as [z|p]; unfold fetched.
    - split; [|done]. cbn [attr_image]. destruct Hc as [_ Hl].
      apply le_bytes_sext. set_unfold. lia.
    - rewrite Hd. destruct (image_again a p (layout atts vs ns (attr_start a (ByRef p) pos + blen (attr_image a (ByRef p))) ++ rest) Hc).
      done. }
  destruct Ha as [Ei Ep]. unfold attr_pad, attr_start in *. rewrite Ei, Ep. do 2 f_equal.
  apply IH; [pose proof (blen_nonneg (attr_image a v)); lia|]. by apply drop_after.
Qed.

Lemma same_row_ok atts vs ns ds : same_row atts vs ns ds → row_ok atts ds ns.
Proof. unfold row_ok, col_ok. by induction 1; constructor. Qed.

Lemma same_row_more atts vs ns ds more :
  same_row atts vs ns ds →
  same_row (atts ++ more) (vs ++ replicate (length more) (ByVal 0)) (ns ++ replicate (length more) true)
    (ds ++ replicate (length more) (ByVal 0)).
Proof.
  induction 1; cbn [app]; [|by constructor..]. induction more; cbn; by constructor.
Qed.

(** [heap_addheader] makes a tuple of the bytes of a row without nulls and with
    attributes of fixed length only, as it is used for pg_attribute. *)
Lemma heap_addheader_formed palloc atts vs withoid t :
  row_ok atts vs (replicate (length atts) false) → all_fixed atts →
  Z.of_nat (length atts) ≤ MaxTupleAttributeNumber →
  heap_addheader palloc (Z.of_nat (length atts)) withoid (layout atts vs (replicate (length atts) false) 0) = ok t →
  formed t atts vs (replicate (length atts) false).
Proof.
  intros Hrow Hfix Hn Et. unfold heap_addheader in Et. destruct (alloc _ _) as [[mem|]|]; cbn [res_bind] in Et; try done.
  injection Et as <-. clear mem.
  assert (Hex : existsb id (replicate (length atts) false) = false)
    by (clear; induction (length atts); by cbn).
  assert (Hvw : has_varwidth atts (replicate (length atts) false) = false).
  { unfold has_varwidth. clear Hrow Hex Hn. induction Hfix as [|a atts Ha _ IH]; [done|]. cbn.
    unfold has_varwidth in IH. rewrite IH. by destruct (Z.ltb_spec (attlen a) 0); [lia|]. }
  split; rewrite ?Hex, ?Hvw; try done; unfold HeapTupleHeaderGetNatts,
    HeapTupleHasNulls, HeapTupleHasVarWidth; cbn [t_infomask2 t_infomask].
  - apply natts_mask. lia.
  - by destruct withoid.
  - by destruct withoid.
Qed.

(** ** Copies of copies *)

Lemma sext_idem n v : 1 ≤ n → sext n (sext n v) = sext n v.
Proof.
  intros Hn. unfold sext. rewrite Z.sub_add, Zmod_mod. done.
Qed.

Lemma strlen_same p q n :
  strlen p = Some n → take (Z.to_nat (n + 1)) q = take (Z.to_nat (n + 1)) p → strlen q = Some n.
Proof.
  intros Hp E. rewrite <- (take_drop (Z.to_nat (n + 1)) q), E. by apply strlen_take.
Qed.

Lemma same_value_trans a v d e :
  attr_ok a v → same_value a v d → same_value a d e → same_value a v e.
Proof.
  destruct v as [z|p], d as [z'|q], e as [z''|r]; cbn [same_value]; try done.
  - intros [_ Hl] -> ->. apply sext_idem. set_unfold. lia.
  - unfold same_varlena, plain_len. intros [_ Hok].
    destruct (Z.eqb_spec (attlen a) (-1)) as [_|Hne].
    { intros (-> & -> & ->) (-> & -> & ->). done. }
    destruct (Z.eqb_spec (attlen a) (-2)) as [?|?]; [|congruence].
    destruct Hok as [[? _]|[[_ [n Hn]]|?]]; [done| |lia]. rewrite Hn. cbn [default from_option id].
    intros E1 E2. rewrite (strlen_same p q n Hn E1) in E2. cbn [default from_option id] in E2. congruence.
Qed.

(** ** Replaced columns *)

Definition repl_ok (atts : list Form_pg_attribute) (repl : list Datum) (rnull doReplace : list bool) : Prop :=
  length rnull = length atts ∧ length doReplace = length atts ∧
  Forall3 (λ a v '(n, c), c = true → col_ok a v n) atts repl (zip rnull doReplace).

Lemma repl_ok_cons a atts repl rnull dor :
  repl_ok (a :: atts) repl rnull dor →
  ∃ r rs n ns c cs, repl = r :: rs ∧ rnull = n :: ns ∧ dor = c :: cs ∧
    (c = true → col_ok a r n) ∧ repl_ok atts rs ns cs.
Proof.
  intros (Hn & Hc & H). destruct rnull as [|n ns], dor as [|c cs]; try done. cbn [zip zip_with] in H.
  inversion H; simplify_eq/=. by repeat eexists.
Qed.

Lemma replace_row_ok atts vs ns : row_ok atts vs ns → ∀ repl rnull dor,
  repl_ok atts repl rnull dor →
  row_ok atts (replace_columns vs repl dor) (replace_columns ns rnull dor).
Proof.
  induction 1 as [|a v n atts vs ns Hc Hrow IH]; intros repl rnull dor Hr; [constructor|].
  apply repl_ok_cons in Hr as (r & rs & rn & rns & c & cs & -> & -> & -> & Hcol & Hr).
  cbn [replace_columns]. constructor; [destruct c; auto|by apply IH].
Qed.

(** Reading, replacing, storing and reading again. *)
Lemma replace_row_same atts vs ns ds : same_row atts vs ns ds → row_ok atts vs ns →
  ∀ repl rnull dor es, repl_ok atts repl rnull dor →
  same_row atts (replace_columns ds repl dor) (replace_columns ns rnull dor) es →
  same_row atts (replace_columns vs repl dor) (replace_columns ns rnull dor) es.
Proof.
  induction 1 as [|a v d atts vs ns ds Hs IH|a v d atts vs ns ds Hv Hd Hs IH];
    intros Hrow repl rnull dor es Hr He; [done|..];
    apply repl_ok_cons in Hr as (r & rs & rn & rns & c & cs & -> & -> & -> & Hcol & Hr);
    inversion Hrow as [|? ? ? ? ? ? Hok Hrow']; subst; cbn [replace_columns] in *;
    destruct c, rn; inversion He; subst; constructor; eauto using same_value_trans.
Qed.

(** ** The contract *)

(** Reads of a tuple: one attribute, the first attributes into a slot, and the
    whole tuple, in any order.  They share the cached offsets and the slot. *)
Inductive read_op :=
| ReadAttr (attnum : Z)
| ReadSlot (attnum : Z)
| ReadAll.

Definition do_read (t : HeapTuple) (d : TupleDesc) (op : read_op) (st : TupleTableSlot * list Z)
    : res (list (Datum * bool) * (TupleTableSlot * list Z)) :=
  let '(s, cache) := st in
  match op with
  | ReadAttr k =>
      let+ (v, null, cache) := lift_opt (heap_getattr t k (attrs d) cache) in
      ok ([(v, null)], (s, cache))
  | ReadSlot k =>
      let+ (s, cache) := _slot_getsomeattrs s d k cache in
      ok (zip (take (Z.to_nat k) (tts_values s)) (take (Z.to_nat k) (tts_isnull s)), (s, cache))
  | ReadAll =>
      let+ (vs, ns, cache) := lift_opt (heap_deform_tuple t d cache) in
      ok (zip vs ns, (s, cache))
  end.

Fixpoint do_reads (t : HeapTuple) (d : TupleDesc) (ops : list read_op) (st : TupleTableSlot * list Z)
    : res (list (list (Datum * bool)) * (TupleTableSlot * list Z)) :=
  match ops with
  | [] => ok ([], st)
  | op :: ops =>
      let+ (r, st) := do_read t d op st in
      let+ (rs, st) := do_reads t d ops st in
      ok (r :: rs, st)
  end.

(** A slot in which the tuple was just stored. *)
Definition new_slot (t : HeapTuple) (d : TupleDesc) : TupleTableSlot :=
  mkSlot (Some t) 0 (replicate (length (attrs d)) (ByVal 0)) (replicate (length (attrs d)) true) 0 false.

Definition read_valid (d : TupleDesc) (op : read_op) : Prop :=
  match op with ReadAttr k | ReadSlot k => 1 ≤ k ≤ natts d | ReadAll => True end.

(** What a read gives, from the columns of the row. *)
Definition read_spec (row : list (Datum * bool)) (op : read_op) : list (Datum * bool) :=
  match op with
  | ReadAttr k => take 1 (drop (Z.to_nat (k - 1)) row)
  | ReadSlot k => take (Z.to_nat k) row
  | ReadAll => row
  end.

Section Reads.
Context (t : HeapTuple) (d : TupleDesc) (more : list Form_pg_attribute).
Context (atts : list Form_pg_attribute) (vs : list Datum) (ns : list bool).
Context (Hf : formed t atts vs ns) (Ed : attrs d = atts ++ more).

Local Abbreviation values := (full_values t atts more vs ns).
Local Abbreviation nulls := (full_nulls more ns).

Lemma new_slot_ok : slot_ok t atts more vs ns (new_slot t d).
Proof.
  destruct (full_length t atts more vs ns Hf) as [Hv Hn].
  exists 0%nat. split; [done|]. split; [done|]. cbn [new_slot tts_values tts_isnull].
  split; [|split; [|lia]]; (split; [rewrite length_replicate, Ed, length_app; lia|lia]).
Qed.

Lemma agree_take {A} n m (xs full : list A) : agree n xs full → (m ≤ n)%nat → take m xs = take m full.
Proof.
  intros [Hl Ha] Hm. apply list_eq. intros i. destruct (decide (i < m)%nat).
  - rewrite !lookup_take_lt by lia. apply Ha. lia.
  - by rewrite !lookup_take_ge by lia.
Qed.

Lemma do_read_ok op s cache :
  read_valid d op → slot_ok t atts more vs ns s → cache_ok (attrs d) cache →
  ∃ s' cache', do_read t d op (s, cache) = ok (read_spec (zip values nulls) op, (s', cache')) ∧
    slot_ok t atts more vs ns s' ∧ cache_ok (attrs d) cache'.
Proof.
  intros Hv Hs Hc. destruct op as [k|k|]; cbn [do_read read_valid read_spec] in *.
  - unfold natts in Hv. rewrite Ed in *. set (i := Z.to_nat (k - 1)).
    destruct (heap_getattr_ok t atts more vs ns Hf i cache) as (v & n & cache' & E & Hvi & Hni & Hc'); [lia|done|].
    replace (Z.of_nat i + 1) with k in E by lia. rewrite E.
    cbn [lift_opt fmap option_fmap option_map res_bind]. exists s, cache'. split; [|done]. do 3 f_equal.
    symmetry. assert (Hz : zip values nulls !! i = Some (v, n)) by (apply lookup_zip_with_Some; eauto).
    rewrite (drop_S _ _ _ Hz). done.
  - unfold natts in Hv. destruct (slot_getsomeattrs_ok t atts more vs ns Hf s d cache (Z.to_nat k)) as
      (s' & cache' & E & Hs' & Hnv & Hc'); [done..|lia|].
    replace (Z.of_nat (Z.to_nat k)) with k in * by lia. rewrite E. cbn [res_bind ok].
    exists s', cache'. split; [|done]. do 3 f_equal. destruct Hs' as (n & En & _ & Hav & Han & _).
    rewrite (agree_take n _ _ _ Hav), (agree_take n _ _ _ Han) by lia.
    symmetry. apply zip_with_take.
  - destruct (heap_deform_tuple_ok t atts more vs ns Hf d cache Ed Hc) as (cache' & E & Hc').
    rewrite E. by exists s, cache'.
Qed.

Lemma do_reads_ok ops : ∀ s cache,
  Forall (read_valid d) ops → slot_ok t atts more vs ns s → cache_ok (attrs d) cache →
  ∃ st', do_reads t d ops (s, cache) = ok (read_spec (zip values nulls) <$> ops, st') ∧
    cache_ok (attrs d) st'.2.
Proof.
  induction ops as [|op ops IH]; intros s cache Hv Hs Hc; [by exists (s, cache)|].
  apply Forall_cons in Hv as [Hop Hv]. cbn [do_reads].
  destruct (do_read_ok op s cache Hop Hs Hc) as (s' & cache' & E & Hs' & Hc'). rewrite E. cbn [res_bind ok].
  destruct (IH s' cache' Hv Hs' Hc') as (st' & E' & Hst). rewrite E'. by exists st'.
Qed.
End Reads.

(** [toast_flatten_tuple_attribute] raises an error or gives a value for a
    value, and [palloc] as many bytes as are asked for. *)
Section Spec.
Context (flatten : list Z → Z → Z → res (list Z)) (palloc : Z → list Z).
Context (palloc_len : ∀ n, 0 ≤ n → blen (palloc n) = n).
Context (flatten_ok : ∀ p typid typmod, varlena_ok p →
  flatten p typid typmod = elog ∨ ∃ q, flatten p typid typmod = ok q ∧ varlena_ok q).

Local Abbreviation form := (heap_form_tuple flatten palloc).
Local Abbreviation form_to := (heaptuple_form_to flatten palloc).
Local Abbreviation flat := (flat_row flatten).

Lemma u32_tuple_len n : 0 ≤ n → HEAPTUPLESIZE + n < MaxAllocSize → u32 n = n.
Proof. unfold MaxAllocSize, HEAPTUPLESIZE. intros. apply u32_id. lia. Qed.

Lemma heap_form_tuple_ok d vs ns :
  row_ok (attrs d) vs ns → natts d ≤ MaxTupleAttributeNumber → flat_row_fails flatten (attrs d) vs ns = false →
  tuple_size d (flat (attrs d) vs ns) ns < MaxAllocSize →
  ∃ t, form d vs ns = ok t ∧ formed t (attrs d) (flat (attrs d) vs ns) ns ∧
    tuple_size d (flat (attrs d) vs ns) ns = HEAPTUPLESIZE + t_len t ∧ t_len t = t_hoff t + blen (t_area t).
Proof.
  intros Hrow Hn Hfl Hsz.
  destruct (heaptuple_form_to_ok flatten palloc palloc_len flatten_ok d vs ns Hrow Hn Hfl)
    as (t & Hf & Esz & El & _ & E & _). exists t. unfold heap_form_tuple. rewrite E, (proj2 (Z.ltb_lt _ _) Hsz).
  destruct (header_len_byte d (existsb id ns) (tdhasoid d) Hn) as [Hh _].
  pose proof (blen_nonneg (layout (attrs d) (flat (attrs d) vs ns) ns 0)) as HL.
  rewrite u32_tuple_len in El by (unfold tuple_size in *; lia). split_and!; [done|done|lia|done].
Qed.

(** Forming fails for too many columns, for a value that cannot be flattened,
    and for a tuple that there is no memory for. *)
Lemma heap_form_tuple_error d vs ns :
  row_ok (attrs d) vs ns →
  MaxTupleAttributeNumber < natts d ∨ flat_row_fails flatten (attrs d) vs ns = true ∨
    MaxAllocSize ≤ tuple_size d (flat (attrs d) vs ns) ns → form d vs ns = elog.
Proof.
  intros Hrow H. unfold heap_form_tuple.
  destruct (Z.ltb_spec MaxTupleAttributeNumber (natts d)) as [|Hn];
    [by rewrite heaptuple_form_to_error by auto|].
  destruct (flat_row_fails flatten (attrs d) vs ns) eqn:Hfl; [by rewrite heaptuple_form_to_error by auto|].
  destruct H as [?|[?|H]]; [lia|done|].
  destruct (heaptuple_form_to_ok flatten palloc palloc_len flatten_ok d vs ns Hrow Hn Hfl) as (t & _ & _ & _ & _ & E & _).
  by rewrite E, (proj2 (Z.ltb_ge _ _) H).
Qed.

(** C11. A row is read back from the tuple that it is formed into.  For every row
    whose values fit the descriptor, with composite values flattened,
    [heap_form_tuple] returns a tuple of the length it announces, and
    [heap_deform_tuple] of that tuple gives the same nulls and the values of
    the flattened row, whatever offsets the descriptor has cached, and null
    for columns that the table got later.  It is an error when there are more
    than [MaxTupleAttributeNumber] columns, when flattening a value is one,
    or when the tuple takes [MaxAllocSize] bytes.  Forming into memory of the
    caller gives the same tuple when the memory is large enough, and otherwise
    says how much is needed, modulo 2^32. *)
Theorem heap_form_deform d d' more vs ns cache :
  row_ok (attrs d) vs ns → attrs d' = attrs d ++ more → cache_ok (attrs d') cache →
  let row := flat (attrs d) vs ns in let need := tuple_size d row ns in
  if (MaxTupleAttributeNumber <? natts d) || flat_row_fails flatten (attrs d) vs ns then
    ∀ dst, form d vs ns = elog ∧ form_to d vs ns dst = elog
  else ∃ t ds cache',
    form d vs ns = (if need <? MaxAllocSize then ok t else elog) ∧
    (need < 2 ^ 32 → need = HEAPTUPLESIZE + t_len t) ∧
    (∀ n, form_to d vs ns (Some n) = ok (if n <? need then None else Some t, Some (u32 need))) ∧
    heap_deform_tuple t d' cache =
      Some (ds ++ replicate (length more) (ByVal 0), ns ++ replicate (length more) true, cache') ∧
    same_row (attrs d) row ns ds ∧ cache_ok (attrs d') cache'.
Proof.
  intros Hrow Ed Hc row need. destruct (_ || _) eqn:Herr.
  - intros dst. assert (H : MaxTupleAttributeNumber < natts d ∨ flat_row_fails flatten (attrs d) vs ns = true).
    { apply orb_true_iff in Herr as [H%Z.ltb_lt|H]; auto. }
    unfold heap_form_tuple. by rewrite !heaptuple_form_to_error.
  - apply orb_false_iff in Herr as [Hn%Z.ltb_ge Hfl].
    destruct (heaptuple_form_to_ok flatten palloc palloc_len flatten_ok d vs ns Hrow Hn Hfl)
      as (t & Hf & Esz & El & _ & E & Eto). fold row in Hf, Esz, E, Eto. fold need in Esz, E, Eto.
    destruct (heap_deform_tuple_ok t _ more _ ns Hf d' cache Ed Hc) as (cache' & Ed' & Hc').
    exists t, (row_values t (attrs d) row ns), cache'.
    split_and!; [|  |done|done|by apply row_values_same|done].
    + unfold heap_form_tuple. rewrite E. by destruct (need <? MaxAllocSize).
    + intros Hlt. pose proof (header_len_byte d (existsb id ns) (tdhasoid d) Hn) as [Hh _].
      pose proof (blen_nonneg (layout (attrs d) row ns 0)). unfold need, tuple_size in Hlt.
      rewrite El, u32_id by (unfold need, tuple_size, HEAPTUPLESIZE in *; lia). lia.
Qed.

Lemma form_formed d vs ns t :
  row_ok (attrs d) vs ns → form d vs ns = ok t → formed t (attrs d) (flat (attrs d) vs ns) ns.
Proof.
  intros Hrow Et. pose proof (heap_form_tuple_error d vs ns Hrow) as Herr. rewrite Et in Herr.
  destruct (Z.ltb_spec MaxTupleAttributeNumber (natts d)) as [Hn|Hn]; [by discriminate Herr; left|].
  destruct (flat_row_fails flatten (attrs d) vs ns) eqn:Hfl; [by discriminate Herr; right; left|].
  destruct (Z.ltb_spec (tuple_size d (flat (attrs d) vs ns) ns) MaxAllocSize) as [Hsz|Hsz];
    [|by discriminate Herr; right; right].
  destruct (heap_form_tuple_ok d vs ns Hrow Hn Hfl Hsz) as (t' & E & Hf & _).
  assert (t' = t) as -> by (rewrite Et in E; by injection E). done.
Qed.

(** C13. The ways to read a tuple agree, for a tuple that [heap_form_tuple] made
    of a row with the columns of the reading descriptor or the first of them.
    Any sequence of reads (one attribute with [heap_getattr], the first
    attributes with [_slot_getsomeattrs] into a slot, all with
    [heap_deform_tuple]) gives the columns that deforming the tuple with an
    empty cache gives: the short cuts through cached offsets, the fast path for
    attributes of fixed length and going on in a slot change nothing but the
    cache, which stays right. *)
Theorem heap_reads_agree d d' more vs ns cache t ops :
  row_ok (attrs d) vs ns → form d vs ns = ok t →
  attrs d' = attrs d ++ more → cache_ok (attrs d') cache → Forall (read_valid d') ops →
  ∃ ds nulls c0 st',
    heap_deform_tuple t d' (replicate (length (attrs d')) (-1)) = Some (ds, nulls, c0) ∧
    do_reads t d' ops (new_slot t d', cache) = ok (read_spec (zip ds nulls) <$> ops, st') ∧
    cache_ok (attrs d') st'.2 ∧
    ∀ k, 1 ≤ k ≤ natts d' → heap_attisnull t k = lift_opt (nulls !! Z.to_nat (k - 1)).
Proof.
  intros Hrow Et Ed Hc Hops. pose proof (form_formed d vs ns t Hrow Et) as Hf.
  destruct (heap_deform_tuple_ok t _ more _ ns Hf d' _ Ed (cache_fresh _)) as (c0 & E0 & _).
  destruct (do_reads_ok t d' more _ _ _ Hf Ed ops (new_slot t d') cache Hops) as (st' & Es & Hst); [by apply new_slot_ok|done|].
  do 4 eexists. split; [exact E0|]. split; [exact Es|]. split; [done|]. intros k Hk.
  unfold natts in Hk. rewrite Ed in Hk.
  rewrite <- (heap_attisnull_ok t _ more _ ns Hf) by lia. f_equal. lia.
Qed.
End Spec.

(** A column that cannot be composite is not flattened. *)
Definition not_composite (a : Form_pg_attribute) : Prop :=
  attlen a = -1 → attalign a = "d"%char → attndims a ≠ 0.

Lemma flat_row_plain flatten atts vs ns :
  Forall not_composite atts → row_ok atts vs ns →
  flat_row flatten atts vs ns = vs ∧ flat_row_fails flatten atts vs ns = false.
Proof.
  intros Hnc Hrow. revert Hnc. induction Hrow as [|a v n atts vs ns Hc Hrow IH]; [done|].
  intros [Ha [IH1 IH2]%IH]%Forall_cons. cbn [flat_row flat_row_fails]. rewrite IH1, IH2.
  assert (E : may_be_composite a v = false).
  { unfold may_be_composite. destruct v as [z|p]; [done|].
    destruct (Z.eqb_spec (attlen a) (-1)) as [E1|]; [|done].
    destruct (Ascii.eqb_spec (attalign a) "d") as [E2|]; [|done].
    by rewrite (proj2 (Z.eqb_neq _ _) (Ha E1 E2)). }
  unfold flat_datum, flat_fails. rewrite E. by destruct n, v.
Qed.

(** C17. [heap_modify_tuple] changes the columns it is told to and no others.
    Let [D] be what deforming the old tuple gives: the columns of its row, and
    null for those that the table got later.  The tuple that is returned reads
    as [D] with the replaced columns, composite values flattened, and keeps the
    object identifier; in a table without composite columns this is the old
    row with the replaced columns.  It is an error when flattening a value is
    one or when the tuple takes [MaxAllocSize] bytes. *)
Theorem heap_modify_correct flatten palloc t d more atts vs ns repl rnull dor cache cache2 :
  (∀ n, 0 ≤ n → blen (palloc n) = n) →
  (∀ p typid typmod, varlena_ok p →
     flatten p typid typmod = elog ∨ ∃ q, flatten p typid typmod = ok q ∧ varlena_ok q) →
  formed t atts vs ns → attrs d = atts ++ more → natts d ≤ MaxTupleAttributeNumber →
  repl_ok (attrs d) repl rnull dor → cache_ok (attrs d) cache → cache_ok (attrs d) cache2 →
  let N := ns ++ replicate (length more) true in
  let V := vs ++ replicate (length more) (ByVal 0) in
  let N' := replace_columns N rnull dor in
  ∃ D cache', heap_deform_tuple t d cache = Some (D, N, cache') ∧ same_row (attrs d) V N D ∧
    let D' := replace_columns D repl dor in
    let row := flat_row flatten (attrs d) D' N' in
    if flat_row_fails flatten (attrs d) D' N' || (MaxAllocSize <=? tuple_size d row N')
    then heap_modify_tuple flatten palloc t d repl rnull dor cache = elog
    else ∃ t' ds cache2',
      heap_modify_tuple flatten palloc t d repl rnull dor cache = ok (t', cache') ∧
      heap_deform_tuple t' d cache2 = Some (ds, N', cache2') ∧ same_row (attrs d) row N' ds ∧
      (Forall not_composite (attrs d) → same_row (attrs d) (replace_columns V repl dor) N' ds) ∧
      (tdhasoid d = true → t_oid t' = Some (default InvalidOid (t_oid t))) ∧ cache_ok (attrs d) cache'.
Proof.
  intros Hp Hfo Hf Ed Hn Hr Hc Hc2 N V N'. unfold heap_modify_tuple.
  destruct (heap_deform_tuple_ok t atts more vs ns Hf d cache Ed Hc) as (cache' & E & Hc').
  set (D := row_values t atts vs ns ++ replicate (length more) (ByVal 0)) in *. exists D, cache'. split; [exact E|].
  assert (Hs : same_row (attrs d) V N D) by (rewrite Ed; apply same_row_more; by apply row_values_same).
  split; [done|]. cbv zeta. set (D' := replace_columns D repl dor). set (row := flat_row flatten (attrs d) D' N'). rewrite E. cbn [lift_opt fmap option_fmap option_map res_bind].
  pose proof (replace_row_ok _ _ _ (same_row_ok _ _ _ _ Hs) _ _ _ Hr) as Hrow. fold N D D' N' in Hrow |- *.
  destruct (flat_row_fails flatten (attrs d) D' N') eqn:Hfl; cbn [orb];
    [by rewrite (heap_form_tuple_error flatten palloc Hp Hfo) by auto|].
  destruct (Z.leb_spec MaxAllocSize (tuple_size d row N')) as [Hsz|Hsz];
    [by rewrite (heap_form_tuple_error flatten palloc Hp Hfo) by auto|].
  destruct (heap_form_tuple_ok flatten palloc Hp Hfo d _ _ Hrow Hn Hfl Hsz) as (n & -> & Hfn & _).
  cbn [res_bind ok]. set (t' := mkHeapTuple _ _ _ _ _ _ _ _ _ _). fold row in Hfn.
  assert (Hf' : formed t' (attrs d) row N') by (destruct Hfn; by split).
  destruct (heap_deform_tuple_ok t' (attrs d) [] _ _ Hf' d cache2) as (c2 & E2 & Hc2'); [by rewrite app_nil_r|done|].
  cbn [length replicate] in E2. rewrite !app_nil_r in E2.
  exists t', (row_values t' (attrs d) row N'), c2. pose proof (row_values_same _ _ _ _ Hf') as Hsame.
  split_and!; [done|done|done| |by cbn; intros ->|done].
  intros Hnc. destruct (flat_row_plain flatten _ _ _ Hnc Hrow) as [Eflat _]. fold row in Eflat. rewrite Eflat in Hsame.
  assert (HV : row_ok (attrs d) V N).
  { rewrite Ed. apply Forall3_app; [apply (formed_row _ _ _ _ Hf)|]. clear. induction more; cbn; by constructor. }
  rewrite Eflat. by apply (replace_row_same _ _ _ D).
Qed.

(** ** Example: a table of five columns, to which a sixth was added *)

Definition demo_attrs : list Form_pg_attribute :=
  [ mkAttribute 23 4 0 (-1) true "p"%char "i"%char;
    mkAttribute 25 (-1) 0 (-1) false "x"%char "i"%char;
    mkAttribute 21 2 0 (-1) true "p"%char "s"%char;
    mkAttribute 2275 (-2) 0 (-1) false "p"%char "c"%char;
    mkAttribute 20 8 0 (-1) true "p"%char "d"%char ].
Definition demo_more : list Form_pg_attribute := [mkAttribute 16 1 0 (-1) true "p"%char "c"%char].
Definition demo_desc : TupleDesc := mkTupleDesc demo_attrs 2249 (-1) true.
Definition demo_desc2 : TupleDesc := mkTupleDesc (demo_attrs ++ demo_more) 2249 (-1) true.
Definition demo_values : list Datum :=
  [ByVal (-7); ByRef (varlena [104; 105]); ByVal 0; ByRef [97; 98; 0; 55]; ByVal 5].
Definition demo_nulls : list bool := [false; false; true; false; false].
Definition demo_flatten (p : list Z) (_ _ : Z) : res (list Z) := ok p.
Definition demo_palloc (n : Z) : list Z := replicate (Z.to_nat n) 170.

Lemma demo_palloc_len n : 0 ≤ n → blen (demo_palloc n) = n.
Proof. intros. unfold demo_palloc, blen. rewrite length_replicate. lia. Qed.

Lemma demo_flatten_ok p typid typmod :
  varlena_ok p → demo_flatten p typid typmod = elog ∨ ∃ q, demo_flatten p typid typmod = ok q ∧ varlena_ok q.
Proof. intros Hp. right. by exists p. Qed.

#[local] Instance attr_ok_dec a v : Decision (attr_ok a v).
Proof. destruct v; cbn [attr_ok]; apply _. Defined.

Local Ltac demo_col :=
  unfold col_ok; intros; first
    [discriminate
    |split; [reflexivity|right; left; split; [reflexivity|eexists; reflexivity]]
    |apply (bool_decide_unpack _); vm_compute; exact I].

Lemma demo_row : row_ok demo_attrs demo_values demo_nulls.
Proof.
  repeat (apply Forall3_cons; [demo_col|]). constructor.
Qed.

Lemma heap_form_deform_witness :
  ∃ t ds cache', heap_form_tuple demo_flatten demo_palloc demo_desc demo_values demo_nulls = ok t ∧
    heap_deform_tuple t demo_desc2 (replicate 6 (-1)) =
      Some (ds ++ [ByVal 0], demo_nulls ++ [true], cache').
Proof.
  destruct (heap_form_deform demo_flatten demo_palloc demo_palloc_len demo_flatten_ok demo_desc demo_desc2
    demo_more demo_values demo_nulls (replicate 6 (-1)) demo_row eq_refl (cache_fresh (attrs demo_desc2)))
    as (t & ds & cache' & E & _ & _ & D & _).
  exists t, ds, cache'. split; [exact E|exact D].
Defined.

Definition demo_tuple : HeapTuple :=
  mkHeapTuple 56 56 2249 (-1) 5 19 32 [27] (Some 0)
    [249; 255; 255; 255; 131; 104; 105; 97; 98; 0; 0; 0; 0; 0; 0; 0; 5; 0; 0; 0; 0; 0; 0; 0].

Definition demo_reads : list read_op := [ReadAttr 4; ReadSlot 2; ReadAll; ReadAttr 6; ReadSlot 6; ReadAttr 1].

Lemma heap_reads_agree_witness :
  ∃ ds nulls c0 st', heap_deform_tuple demo_tuple demo_desc2 (replicate 6 (-1)) = Some (ds, nulls, c0) ∧
    do_reads demo_tuple demo_desc2 demo_reads (new_slot demo_tuple demo_desc2, replicate 6 (-1)) =
      ok (read_spec (zip ds nulls) <$> demo_reads, st').
Proof.
  destruct (heap_reads_agree demo_flatten demo_palloc demo_palloc_len demo_flatten_ok demo_desc demo_desc2
    demo_more demo_values demo_nulls (replicate 6 (-1)) demo_tuple demo_reads)
    as (ds & nulls & c0 & st' & E & D & _);
    [apply demo_row|by vm_compute|reflexivity|apply (cache_fresh (attrs demo_desc2))| |].
  - repeat constructor; vm_compute; congruence.
  - exists ds, nulls, c0, st'. split; [exact E|exact D].
Defined.

Lemma demo_formed : formed demo_tuple demo_attrs demo_values demo_nulls.
Proof.
  destruct (heap_form_tuple_ok demo_flatten demo_palloc demo_palloc_len demo_flatten_ok demo_desc demo_values
    demo_nulls demo_row) as (t & E & Hf & _); [by vm_compute..|].
  assert (t = demo_tuple) as -> by (vm_compute in E; by injection E).
  exact Hf.
Qed.

Lemma heap_modify_correct_witness :
  ∃ t' cache' ds cache2',
    heap_modify_tuple demo_flatten demo_palloc demo_tuple demo_desc2 (replicate 6 (ByVal 1))
      [false; false; false; false; true; false] [true; false; true; false; true; true] (replicate 6 (-1))
      = ok (t', cache') ∧
    heap_deform_tuple t' demo_desc2 (replicate 6 (-1)) =
      Some (ds, [false; false; false; false; true; false], cache2').
Proof.
  destruct (heap_modify_correct demo_flatten demo_palloc demo_tuple demo_desc2 demo_more demo_attrs demo_values demo_nulls
    (replicate 6 (ByVal 1)) [false; false; false; false; true; false] [true; false; true; false; true; true]
    (replicate 6 (-1)) (replicate 6 (-1)))
    as (D & cache' & E & _ & H);
    [apply demo_palloc_len|apply demo_flatten_ok|apply demo_formed|reflexivity|by vm_compute| |
     apply (cache_fresh (attrs demo_desc2))|apply (cache_fresh (attrs demo_desc2))|].
  - split; [reflexivity|]. split; [reflexivity|].
    repeat (apply Forall3_cons; [demo_col|]). constructor.
  - vm_compute in E. injection E as <- <-.
    destruct H as (t' & ds & cache2' & Em & Ed & _). exists t'. eexists. exists ds, cache2'. split; [exact Em|exact Ed].
Defined.
