(* ===== verification/Toast.v ===== *)
(** Oversized values: backend/access/heap/tuptoaster.c, with the generation of
    object identifiers (GetNewOidWithIndex of backend/catalog/catalog.c,
    GetNewObjectId of backend/access/transam/varsup.c).

    A value that is too large for its tuple is compressed, or cut into chunks
    that are rows of a toast relation and replaced by a pointer.  The access
    methods of the toast relation are a class: a heap of tuples with an index
    on value and chunk number.  [ToastSpec] shows that values are read back. *)
From Stdlib Require Import Ascii.
From stdpp Require Import prelude numbers list gmap.
From S2P Require Import Prelude Varlena PgLz HeapTuple.

Local Open Scope char_scope.
Local Open Scope Z_scope.

(** ** Constants *)

Definition BLCKSZ : Z := 32768.
Definition MaxSpecialSpace : Z := 32.
Definition sizeof_PageHeaderData : Z := 24.
Definition MaxTupleSize : Z := BLCKSZ - MAXALIGN (sizeof_PageHeaderData + MaxSpecialSpace).
Definition MaxHeapTupleSize : Z := MaxTupleSize.
Definition TOAST_TUPLE_THRESHOLD : Z := Z.quot MaxHeapTupleSize 4.
Definition TOAST_MAX_CHUNK_SIZE : Z :=
  TOAST_TUPLE_THRESHOLD - MAXALIGN (MAXALIGN offset_t_bits + sizeof_Oid + 4 + VARHDRSZ).
Definition TOAST_POINTER_SIZE : Z := VARHDRSZ_EXTERNAL + sizeof_varatt_external.
Definition sizeof_varattrib : Z := 20.

Definition OIDOID : Z := 26.
Definition INT4OID : Z := 23.
Definition BYTEAOID : Z := 17.
Definition FirstBootstrapObjectId : Z := 10000.
Definition FirstExternalObjectId : Z := 4294967295 - 10485760.
Definition VAR_OID_PREFETCH : Z := 8192.

(** ** Pointers to values outside of the tuple *)

Definition va_word (off : Z) (p : list Z) : option Z :=
  if off + 4 <=? blen p then Some (rd 4 off p) else None.
Definition va_rawsize (p : list Z) : option Z := s32 <$> va_word 4 p.
Definition va_extsize (p : list Z) : option Z := s32 <$> va_word 8 p.
Definition va_valueid (p : list Z) : option Z := va_word 12 p.
Definition va_toastrelid (p : list Z) : option Z := va_word 16 p.

Definition VARATT_EXTERNAL_IS_COMPRESSED (p : list Z) : option bool :=
  ext ← va_extsize p;
  raw ← va_rawsize p;
  Some (negb (ext =? s32 (raw - VARHDRSZ))).

(** [SET_VARSIZE_EXTERNAL] *)
Definition SET_VARSIZE_1B_E (p : list Z) (len : Z) : list Z := <[1%nat := u8 len]> (<[0%nat := 0x80]> p).

(** ** The toast relation *)

(** As [create_toast_table] makes it. *)
Definition toast_desc : TupleDesc :=
  mkTupleDesc
    [ mkAttribute OIDOID 4 0 (-1) true "p" "i";
      mkAttribute INT4OID 4 0 (-1) true "p" "i";
      mkAttribute BYTEAOID (-1) 0 (-1) false "p" "i" ]
    2249 (-1) false.

(** The columns that the index is on. *)
Definition chunk_attr (t : HeapTuple) (attnum : Z) : option Z :=
  '(v, _, _) ← fastgetattr t attnum (attrs toast_desc) (replicate 3 (-1));
  match v with ByVal z => Some z | ByRef _ => None end.
Definition chunk_id (t : HeapTuple) : option Z := u32 <$> chunk_attr t 1.
Definition chunk_seq (t : HeapTuple) : option Z := s32 <$> chunk_attr t 2.

(** The keys of a scan: the value and, for a slice, the range of chunks. *)
Definition scan_match (id : Z) (range : option (Z * Z)) (row : Z * HeapTuple) : bool :=
  bool_decide (chunk_id row.2 = Some id) &&
  match range, chunk_seq row.2 with
  | None, _ => true
  | Some (lo, hi), Some seq => (lo <=? seq) && (seq <=? hi)
  | Some _, None => false
  end.

(** What a scan sees (utils/tqual.h): [HeapTupleSatisfiesToast] takes no notice
    of deletions, [HeapTupleSatisfiesDirty] does. *)
Inductive Snapshot :=
| SnapshotToast
| SnapshotDirty.

(** The access methods: the row versions in physical order, with their
    addresses, and whether a version has been deleted; an insertion into the
    heap and its index; a deletion, after which the version stays until the
    relation is vacuumed; and a scan of the index. *)
Class ToastAM (R : Type) := {
  heap_rows : R → list (Z * HeapTuple);
  row_deleted : R → Z → bool;
  heap_insert : R → HeapTuple → R;
  heap_delete : R → Z → R;
  index_scan : R → Snapshot → Z → option (Z * Z) → list (Z * HeapTuple)
}.

(** ** The state

    The toast relations by their object identifier, each with the offsets
    cached in its descriptor; the history of the compressor; and the counter
    of object identifiers in shared memory. *)

Record ToastRel (R : Type) := mkToastRel {
  tr_heap : R;
  tr_cache : list Z
}.
Arguments mkToastRel {R} _ _.
Arguments tr_heap {R} _.
Arguments tr_cache {R} _.

Record Db (R : Type) := mkDb {
  db_rels : gmap Z (ToastRel R);
  db_history : gmap Z PGLZ_HistEntry;
  nextOid : Z;
  oidCount : Z
}.
Arguments mkDb {R} _ _ _ _.
Arguments db_rels {R} _.
Arguments db_history {R} _.
Arguments nextOid {R} _.
Arguments oidCount {R} _.

Definition M (R A : Type) : Type := Db R → res (A * Db R).

Definition mret {R A} (a : A) : M R A := λ db, ok (a, db).
Definition mlift {R A} (m : res A) : M R A := λ db, let+ a := m in ok (a, db).
Definition mlog {R A} : M R A := λ _, elog.
Definition mthen {R A B} (m : M R A) (f : A → M R B) : M R B := λ db, let+ (a, db) := m db in f a db.

Notation "'let^' x ':=' m 'in' k" := (mthen m (fun x => k))
  (at level 200, x pattern, m at level 100, k at level 200) : hawq_scope.

(** ** Object identifiers *)

Section Toast.
Context {R : Type} `{!ToastAM R}.
(** [Gp_role == GP_ROLE_EXECUTE] and [IsPostmasterEnvironment]. *)
Context (execute postmaster : bool).
(** [toast_flatten_tuple_attribute], and the contents of fresh memory. *)
Context (flatten : list Z → Z → Z → res (list Z)) (palloc : Z → list Z).

(** Logging the identifiers reserved ([XLogPutNextOid]) is left out. *)
Definition GetNewObjectId : M R Z := λ db,
  let '(next, count) :=
    if (nextOid db <? FirstNormalObjectId) || (FirstExternalObjectId <=? nextOid db) then
      if postmaster then (FirstNormalObjectId, 0)
      else if nextOid db <? FirstBootstrapObjectId then (FirstBootstrapObjectId, 0)
      else (nextOid db, oidCount db)
    else (nextOid db, oidCount db) in
  let count := if count =? 0 then VAR_OID_PREFETCH else count in
  ok (next, mkDb (db_rels db) (db_history db) (u32 (next + 1)) (count - 1)).

(** Each turn that finds the identifier in use has found another row.  Rows that
    have been deleted are not looked at. *)
Fixpoint new_oid_loop (n : nat) (r : R) : M R Z :=
  match n with
  | O => λ _, None
  | S n =>
      let^ newOid := GetNewObjectId in
      match index_scan r SnapshotDirty newOid None with
      | [] => mret newOid
      | _ :: _ => new_oid_loop n r
      end
  end.

Definition GetNewOidWithIndex (r : R) : M R Z := new_oid_loop (S (length (heap_rows r))) r.

(** [heap_open], and the relation with another state. *)
Definition heap_open (relid : Z) : M R (ToastRel R) := λ db,
  match db_rels db !! relid with Some r => ok (r, db) | None => elog end.
Definition heap_put (relid : Z) (r : ToastRel R) : M R unit := λ db,
  ok (tt, mkDb (<[relid := r]> (db_rels db)) (db_history db) (nextOid db) (oidCount db)).

(** ** Fetching a value *)

(** [fastgetattr] of an integer and of a chunk. *)
Definition chunk_index (t : HeapTuple) (cache : list Z) : res (Z * list Z) :=
  let+ (v, _, cache) := lift_opt (fastgetattr t 2 (attrs toast_desc) cache) in
  match v with ByVal z => ok (s32 z, cache) | ByRef _ => None end.
Definition chunk_pointer (t : HeapTuple) (cache : list Z) : res (list Z * list Z) :=
  let+ (v, _, cache) := lift_opt (fastgetattr t 3 (attrs toast_desc) cache) in
  let+ p := lift_opt (DatumGetPointer v) in
  ok (p, cache).

(** [chunksize] and [chunkdata] *)
Definition chunk_contents (chunk : list Z) : res (Z * list Z) :=
  if VARATT_IS_SHORT chunk then ok (VARSIZE_SHORT chunk - VARHDRSZ_SHORT, VARDATA_SHORT chunk)
  else if negb (VARATT_IS_EXTENDED chunk) then ok (VARSIZE chunk - VARHDRSZ, VARDATA chunk)
  else elog.

Fixpoint fetch_loop (rows : list (Z * HeapTuple)) (ressize numchunks : Z) (result : list Z)
    (nextidx : Z) (cache : list Z) : res (list Z * Z * list Z) :=
  match rows with
  | [] => ok (result, nextidx, cache)
  | (_, ttup) :: rows =>
      let+ (residx, cache) := chunk_index ttup cache in
      let+ (chunk, cache) := chunk_pointer ttup cache in
      let+ (chunksize, chunkdata) := chunk_contents chunk in
      if negb (residx =? nextidx) then elog else
      if (if residx <? numchunks - 1 then negb (chunksize =? TOAST_MAX_CHUNK_SIZE)
          else if residx =? numchunks - 1
          then negb (residx * TOAST_MAX_CHUNK_SIZE + chunksize =? ressize) else true)
      then elog else
      let+ src := lift_opt (read_bytes chunkdata chunksize) in
      let+ result := lift_opt (write_bytes result (VARHDRSZ + residx * TOAST_MAX_CHUNK_SIZE) src) in
      fetch_loop rows ressize numchunks result (s32 (nextidx + 1)) cache
  end.

Definition count_chunks (size : Z) : Z := s32 (Z.quot (s32 (size - 1)) TOAST_MAX_CHUNK_SIZE + 1).

(** The executor scans the heap, other processes the index. *)
Definition systable_scan (r : R) (id : Z) : list (Z * HeapTuple) :=
  if execute then filter (λ row, scan_match id None row = true) (heap_rows r)
  else index_scan r SnapshotToast id None.

Definition toast_fetch_datum (attr : list Z) : M R (list Z) :=
  let^ ressize := mlift (lift_opt (va_extsize attr)) in
  let numchunks := count_chunks ressize in
  let^ result := mlift (alloc palloc (s32 (ressize + VARHDRSZ))) in
  let result := SET_VARSIZE result (s32 (ressize + VARHDRSZ)) in
  let^ compressed := mlift (lift_opt (VARATT_EXTERNAL_IS_COMPRESSED attr)) in
  let result := if compressed then VARATT_SET_COMPRESSED result else result in
  let^ relid := mlift (lift_opt (va_toastrelid attr)) in
  let^ toastrel := heap_open relid in
  let^ id := mlift (lift_opt (va_valueid attr)) in
  let^ (result, nextidx, cache) :=
    mlift (fetch_loop (systable_scan (tr_heap toastrel) id) ressize numchunks result 0
             (tr_cache toastrel)) in
  if negb (nextidx =? numchunks) then mlog else
  let^ _ := heap_put relid (mkToastRel (tr_heap toastrel) cache) in
  mret result.

(** ** Fetching a part of a value *)

(** The slice in bytes, clipped to the value: [sliceoffset] and [length]. *)
Definition clip_slice (attrsize sliceoffset slicelength : Z) : Z * Z :=
  let '(sliceoffset, slicelength) :=
    if attrsize <=? sliceoffset then (0, 0) else (sliceoffset, slicelength) in
  (sliceoffset,
   if (attrsize <? s32 (sliceoffset + slicelength)) || (slicelength <? 0)
   then s32 (attrsize - sliceoffset) else slicelength).

(** [n] bytes at [p + off] *)
Definition read_at (p : list Z) (off n : Z) : option (list Z) :=
  if 0 <=? off then read_bytes (drop (Z.to_nat off) p) n else None.

(** The data are copied from [VARDATA(chunk)], whatever the header. *)
Fixpoint slice_loop (rows : list (Z * HeapTuple)) (attrsize totalchunks sliceoffset : Z)
    (startchunk endchunk startoffset endoffset : Z) (result : list Z) (nextidx : Z) (cache : list Z)
    : res (list Z * Z * list Z) :=
  match rows with
  | [] => ok (result, nextidx, cache)
  | (_, ttup) :: rows =>
      let+ (residx, cache) := chunk_index ttup cache in
      let+ (chunk, cache) := chunk_pointer ttup cache in
      let+ (chunksize, _) := chunk_contents chunk in
      if negb (residx =? nextidx) || (endchunk <? residx) || (residx <? startchunk) then elog else
      if (if residx <? totalchunks - 1 then negb (chunksize =? TOAST_MAX_CHUNK_SIZE)
          else if residx =? totalchunks - 1
          then negb (residx * TOAST_MAX_CHUNK_SIZE + chunksize =? attrsize) else true)
      then elog else
      let chcpystrt := if residx =? startchunk then startoffset else 0 in
      let chcpyend := if residx =? endchunk then endoffset else chunksize - 1 in
      let+ src := lift_opt (read_at (VARDATA chunk) chcpystrt (chcpyend - chcpystrt + 1)) in
      let+ result :=
        lift_opt (write_bytes result
                    (VARHDRSZ + (residx * TOAST_MAX_CHUNK_SIZE - sliceoffset) + chcpystrt) src) in
      slice_loop rows attrsize totalchunks sliceoffset startchunk endchunk startoffset endoffset
        result (s32 (nextidx + 1)) cache
  end.

Definition toast_fetch_datum_slice (attr : list Z) (sliceoffset slicelength : Z) : M R (list Z) :=
  let^ attrsize := mlift (lift_opt (va_extsize attr)) in
  let totalchunks := count_chunks attrsize in
  let '(sliceoffset, length) := clip_slice attrsize sliceoffset slicelength in
  let^ result := mlift (alloc palloc (s32 (length + VARHDRSZ))) in
  let result := SET_VARSIZE result (s32 (length + VARHDRSZ)) in
  let^ compressed := mlift (lift_opt (VARATT_EXTERNAL_IS_COMPRESSED attr)) in
  let result := if compressed then VARATT_SET_COMPRESSED result else result in
  if length =? 0 then mret result else
  let startchunk := Z.quot sliceoffset TOAST_MAX_CHUNK_SIZE in
  let endchunk := Z.quot (s32 (sliceoffset + length - 1)) TOAST_MAX_CHUNK_SIZE in
  let startoffset := Z.rem sliceoffset TOAST_MAX_CHUNK_SIZE in
  let endoffset := Z.rem (s32 (sliceoffset + length - 1)) TOAST_MAX_CHUNK_SIZE in
  let^ relid := mlift (lift_opt (va_toastrelid attr)) in
  let^ toastrel := heap_open relid in
  let^ id := mlift (lift_opt (va_valueid attr)) in
  let^ (result, nextidx, cache) :=
    mlift (slice_loop (index_scan (tr_heap toastrel) SnapshotToast id (Some (startchunk, endchunk)))
             attrsize totalchunks sliceoffset startchunk endchunk startoffset endoffset result
             startchunk (tr_cache toastrel)) in
  if negb (nextidx =? endchunk + 1) then mlog else
  let^ _ := heap_put relid (mkToastRel (tr_heap toastrel) cache) in
  mret result.
(** ** Storing a value *)

(** [while (data_todo > 0)], with the buffer for the chunk, which keeps what
    the chunks before have left in it. *)
Fixpoint save_loop (n : nat) (r : R) (id chunk_seq : Z) (data_p : list Z) (data_todo : Z)
    (chunk_data : list Z) : res R :=
  if 0 <? data_todo then
    match n with
    | O => None
    | S n =>
        let chunk_size := Z.min TOAST_MAX_CHUNK_SIZE data_todo in
        let chunk_data := SET_VARSIZE chunk_data (chunk_size + VARHDRSZ) in
        let+ src := lift_opt (read_bytes data_p chunk_size) in
        let+ chunk_data := lift_opt (write_bytes chunk_data VARHDRSZ src) in
        let+ toasttup :=
          heap_form_tuple flatten palloc toast_desc [ByVal id; ByVal chunk_seq; ByRef chunk_data]
            [false; false; false] in
        save_loop n (heap_insert r toasttup) id (s32 (chunk_seq + 1))
          (drop (Z.to_nat chunk_size) data_p) (data_todo - chunk_size) chunk_data
    end
  else ok r.

(** [rawsize], [extsize] and [data_p]; [data_todo] is [extsize]. *)
Definition save_sizes (value : list Z) : option (Z * Z * list Z) :=
  if VARATT_IS_SHORT value then
    Some (VARSIZE_SHORT value - VARHDRSZ_SHORT + VARHDRSZ, VARSIZE_SHORT value - VARHDRSZ_SHORT,
          VARDATA_SHORT value)
  else if VARATT_IS_COMPRESSED value then
    raw ← va_word 4 value;
    Some (s32 (raw + VARHDRSZ), VARSIZE value - VARHDRSZ, VARDATA value)
  else Some (VARSIZE value, VARSIZE value - VARHDRSZ, VARDATA value).

(** The fields of the pointer. *)
Definition external_pointer (mem : list Z) (rawsize extsize id relid : Z) : list Z :=
  let p := SET_VARSIZE_1B_E mem TOAST_POINTER_SIZE in
  wr 4 16 relid (wr 4 12 id (wr 4 8 extsize (wr 4 4 rawsize p))).

(** [relid] is [rel->rd_rel->reltoastrelid].  Whether the rows are frozen is
    not modelled, since transactions are not. *)
Definition toast_save_datum (relid : Z) (value : list Z) : M R (list Z) :=
  let^ toastrel := heap_open relid in
  let^ mem := mlift (alloc palloc sizeof_varattrib) in
  let^ (rawsize, extsize, data_p) := mlift (lift_opt (save_sizes value)) in
  let^ id := GetNewOidWithIndex (tr_heap toastrel) in
  let result := external_pointer mem rawsize extsize id relid in
  let^ r :=
    mlift (save_loop (Z.to_nat extsize) (tr_heap toastrel) id 0 data_p extsize
             (palloc (VARHDRSZ + TOAST_MAX_CHUNK_SIZE))) in
  let^ _ := heap_put relid (mkToastRel r (tr_cache toastrel)) in
  mret result.

(** A version that has been deleted already is an error. *)
Definition simple_heap_delete (r : R) (tid : Z) : res R :=
  if row_deleted r tid then elog else ok (heap_delete r tid).

Fixpoint delete_rows (r : R) (rows : list (Z * HeapTuple)) : res R :=
  match rows with
  | [] => ok r
  | (tid, _) :: rows => let+ r := simple_heap_delete r tid in delete_rows r rows
  end.

Definition toast_delete_datum (value : list Z) : M R unit :=
  if negb (VARATT_IS_EXTERNAL value) then mret tt else
  let^ relid := mlift (lift_opt (va_toastrelid value)) in
  let^ toastrel := heap_open relid in
  let^ id := mlift (lift_opt (va_valueid value)) in
  let^ r :=
    mlift (delete_rows (tr_heap toastrel) (index_scan (tr_heap toastrel) SnapshotToast id None)) in
  heap_put relid (mkToastRel r (tr_cache toastrel)).

(** ** Compression *)

(** [None]: the value is not compressed.  The compressor reads the bytes of the
    value and no others. *)
Definition toast_compress_datum (value : list Z) : M R (option (list Z)) :=
  let valsize := VARSIZE_ANY_EXHDR value in
  if (valsize <? min_input_size PGLZ_strategy_default) ||
     (max_input_size PGLZ_strategy_default <? valsize) then mret None else
  let^ tmp := mlift (alloc palloc (PGLZ_MAX_OUTPUT valsize)) in
  let^ source := mlift (lift_opt (read_bytes (VARDATA_ANY value) valsize)) in
  λ db,
    let+ (success, tmp, history) :=
      lift_opt (pglz_compress (db_history db) source valsize tmp
                  (Some PGLZ_strategy_default)) in
    ok (if success && (VARSIZE tmp <? VARSIZE_ANY value) then Some (VARATT_SET_COMPRESSED tmp)
        else None,
        mkDb (db_rels db) history (nextOid db) (oidCount db)).

(** [pglz_decompress] into a new value; reading outside of the compressed data
    is a fault. *)
Definition decompress_new (tmp : list Z) : res (list Z) :=
  let size := s32 (PGLZ_RAW_SIZE tmp + VARHDRSZ) in
  let+ attr := alloc palloc size in
  let attr := SET_VARSIZE attr size in
  match pglz_decompress tmp (VARDATA attr) with
  | Val (Return data) => ok (take (Z.to_nat VARHDRSZ) attr ++ data)
  | Val ElogError => elog
  | _ => None
  end.

(** ** Entry points *)

Definition heap_tuple_fetch_attr (attr : list Z) : M R (list Z) :=
  if VARATT_IS_EXTERNAL attr then toast_fetch_datum attr else mret attr.

Definition heap_tuple_untoast_attr (attr : list Z) : M R (list Z) :=
  let^ attr := (if VARATT_IS_EXTERNAL attr then toast_fetch_datum attr else mret attr) in
  if VARATT_IS_COMPRESSED attr then mlift (decompress_new attr)
  else if VARATT_IS_SHORT attr then
    let data_size := VARSIZE_SHORT attr in
    let new_size := data_size - VARHDRSZ_SHORT + VARHDRSZ in
    let^ new := mlift (alloc palloc new_size) in
    let^ src := mlift (lift_opt (read_bytes (VARDATA_SHORT attr) (data_size - VARHDRSZ_SHORT))) in
    mlift (lift_opt (write_bytes (SET_VARSIZE new new_size) VARHDRSZ src))
  else mret attr.

(** [attrdata] and [attrsize] of a value that is not compressed *)
Definition plain_data (attr : list Z) : list Z * Z :=
  if VARATT_IS_SHORT attr then (VARDATA_SHORT attr, VARSIZE_SHORT attr - VARHDRSZ_SHORT)
  else (VARDATA attr, VARSIZE attr - VARHDRSZ).

Definition heap_tuple_untoast_attr_slice (attr : list Z) (sliceoffset slicelength : Z) : M R (list Z) :=
  let^ external := mlift (if VARATT_IS_EXTERNAL attr
                          then lift_opt (VARATT_EXTERNAL_IS_COMPRESSED attr) else ok true) in
  if negb external then toast_fetch_datum_slice attr sliceoffset slicelength else
  let^ preslice := (if VARATT_IS_EXTERNAL attr then toast_fetch_datum attr else mret attr) in
  let^ preslice := (if VARATT_IS_COMPRESSED preslice then mlift (decompress_new preslice)
                    else mret preslice) in
  let '(attrdata, attrsize) := plain_data preslice in
  let '(sliceoffset, slicelength) := clip_slice attrsize sliceoffset slicelength in
  let^ result := mlift (alloc palloc (s32 (slicelength + VARHDRSZ))) in
  let^ src := mlift (lift_opt (read_at attrdata sliceoffset slicelength)) in
  mlift (lift_opt (write_bytes (SET_VARSIZE result (s32 (slicelength + VARHDRSZ))) VARHDRSZ src)).

(** The length of the data of a value, and the data. *)
Definition varattrib_untoast_len (attr : list Z) : M R Z :=
  let^ attr := (if VARATT_IS_EXTERNAL attr then toast_fetch_datum attr else mret attr) in
  if VARATT_IS_COMPRESSED attr then mret (PGLZ_RAW_SIZE attr) else mret (plain_data attr).2.

Definition varattrib_untoast_ptr_len (attr : list Z) : M R (list Z * Z) :=
  let^ attr := (if VARATT_IS_EXTERNAL attr then toast_fetch_datum attr else mret attr) in
  let^ attr := (if VARATT_IS_COMPRESSED attr then mlift (decompress_new attr) else mret attr) in
  mret (plain_data attr).

(** The size after and before decompression, without fetching. *)
Definition toast_raw_datum_size (attr : list Z) : option Z :=
  if VARATT_IS_EXTERNAL attr then va_rawsize attr
  else if VARATT_IS_COMPRESSED attr then raw ← va_word 4 attr; Some (u32 (raw + VARHDRSZ))
  else if VARATT_IS_SHORT attr then Some (VARSIZE_SHORT attr - VARHDRSZ_SHORT + VARHDRSZ)
  else Some (VARSIZE attr).

Definition toast_datum_size (attr : list Z) : option Z :=
  if VARATT_IS_EXTERNAL attr then va_extsize attr
  else if VARATT_IS_SHORT attr then Some (VARSIZE_SHORT attr) else Some (VARSIZE attr).

(** ** Tuples *)

Fixpoint delete_values (atts : list Form_pg_attribute) (values : list Datum) (isnull : list bool)
    : M R unit :=
  match atts, values, isnull with
  | a :: atts, v :: values, null :: isnull =>
      let^ _ :=
        (if (attlen a =? -1) && negb null then
           let^ p := mlift (lift_opt (DatumGetPointer v)) in
           if VARATT_IS_EXTERNAL p then toast_delete_datum p else mret tt
         else mret tt) in
      delete_values atts values isnull
  | _, _, _ => mret tt
  end.

(** With the cached offsets of the relation's descriptor. *)
Definition toast_delete (d : TupleDesc) (oldtup : HeapTuple) (cache : list Z) : M R (list Z) :=
  let^ (values, isnull, cache) := mlift (lift_opt (heap_deform_tuple oldtup d cache)) in
  let^ _ := delete_values (attrs d) values isnull in
  mret cache.

(** An attribute of the tuple that is made to fit: [toast_action],
    [toast_values] and [toast_sizes].  The flags for freeing are left out. *)
Record TAttr := mkTAttr {
  ta_action : ascii;
  ta_value : Datum;
  ta_size : Z
}.

(** [memcmp(old_value, new_value, VARSIZE_EXTERNAL(old_value)) != 0] *)
Definition pointer_differs (old new : list Z) : option bool :=
  o ← read_bytes old (VARSIZE_EXTERNAL old);
  n ← read_bytes new (VARSIZE_EXTERNAL old);
  Some (negb (bool_decide (o = n))).

(** The old value, if it is stored externally: is it not needed any more? *)
Definition old_external (a : Form_pg_attribute) (old : option (Datum * bool)) (v : Datum) (null : bool)
    : option (option bool) :=
  match old with
  | Some (ov, false) =>
      if attlen a =? -1 then
        op ← DatumGetPointer ov;
        if VARATT_IS_EXTERNAL op then
          changed ←
            (if null then Some true else
             np ← DatumGetPointer v;
             if negb (VARATT_IS_EXTERNAL np) then Some true else pointer_differs op np);
          Some (Some changed)
        else Some None
      else Some None
  | _ => Some None
  end.

(** The first loop for one attribute: its state, whether it was changed, and
    whether the old value is to be deleted. *)
Definition collect_attr (a : Form_pg_attribute) (old : option (Datum * bool)) (v : Datum) (null : bool)
    : M R (TAttr * bool * bool) :=
  let^ ext := mlift (lift_opt (old_external a old v null)) in
  let delold := match ext with Some true => true | _ => false end in
  if match ext with Some false => true | _ => false end then mret (mkTAttr "p" v 0, false, delold)
  else if null then mret (mkTAttr "p" v 0, false, delold)
  else if attlen a =? -1 then
    let^ p := mlift (lift_opt (DatumGetPointer v)) in
    let plain := Ascii.eqb (attstorage a) "p" in
    let action := if plain then "p" else " " in
    if VARATT_IS_EXTERNAL p then
      let^ new := (if plain then heap_tuple_untoast_attr p else heap_tuple_fetch_attr p) in
      mret (mkTAttr action (ByRef new) (VARSIZE_ANY new), true, delold)
    else mret (mkTAttr action v (VARSIZE_ANY p), false, delold)
  else mret (mkTAttr "p" v 0, false, delold).

Fixpoint collect_loop (atts : list Form_pg_attribute) (olds : list (option (Datum * bool)))
    (values : list Datum) (isnull : list bool) : M R (list TAttr * bool * list bool) :=
  match atts, olds, values, isnull with
  | a :: atts, old :: olds, v :: values, null :: isnull =>
      let^ (x, changed, del) := collect_attr a old v null in
      let^ (xs, need_change, dels) := collect_loop atts olds values isnull in
      mret (x :: xs, changed || need_change, del :: dels)
  | [], _, _, _ => mret ([], false, [])
  | _, _, _, _ => λ _, None
  end.

(** Candidates for compression, and for storing externally. *)
Definition can_compress (storage : ascii) (a : Form_pg_attribute) (x : TAttr) : option bool :=
  if negb (Ascii.eqb (ta_action x) " ") then Some false else
  p ← DatumGetPointer (ta_value x);
  Some (negb (VARATT_IS_EXTERNAL p) && negb (VARATT_IS_COMPRESSED p) && Ascii.eqb (attstorage a) storage).

Definition can_move (storages : list ascii) (a : Form_pg_attribute) (x : TAttr) : option bool :=
  if Ascii.eqb (ta_action x) "p" then Some false else
  p ← DatumGetPointer (ta_value x);
  Some (negb (VARATT_IS_EXTERNAL p) && existsb (Ascii.eqb (attstorage a)) storages).

Fixpoint find_biggest (can : Form_pg_attribute → TAttr → option bool) (atts : list Form_pg_attribute)
    (xs : list TAttr) (i biggest_attno biggest_size : Z) : option Z :=
  match atts, xs with
  | a :: atts, x :: xs =>
      c ← can a x;
      if (c : bool) && (biggest_size <? ta_size x) then find_biggest can atts xs (i + 1) i (ta_size x)
      else find_biggest can atts xs (i + 1) biggest_attno biggest_size
  | _, _ => Some biggest_attno
  end.

Definition biggest (can : Form_pg_attribute → TAttr → option bool) (d : TupleDesc) (xs : list TAttr)
    : option Z :=
  find_biggest can (attrs d) xs 0 (-1) (MAXALIGN sizeof_varattrib).

(** [compute_dest_tuplen(...) > maxDataLen], an [int] against a [Size] *)
Definition too_big (d : TupleDesc) (isnull : list bool) (maxDataLen : Z) (xs : list TAttr) : option bool :=
  len ← heap_compute_data_size d (ta_value <$> xs) isnull;
  Some (maxDataLen <? s32 len `mod` 2 ^ 64).

(** Rounds 1 and 3.  Each turn leaves one candidate less. *)
Fixpoint compress_pass (n : nat) (storage : ascii) (d : TupleDesc) (isnull : list bool) (maxDataLen : Z)
    (xs : list TAttr) (need_change : bool) : M R (list TAttr * bool) :=
  let^ big := mlift (lift_opt (too_big d isnull maxDataLen xs)) in
  if negb big then mret (xs, need_change) else
  let^ i := mlift (lift_opt (biggest (can_compress storage) d xs)) in
  if i <? 0 then mret (xs, need_change) else
  match n with
  | O => λ _, None
  | S n =>
      let^ x := mlift (lift_opt (xs !! Z.to_nat i)) in
      let^ p := mlift (lift_opt (DatumGetPointer (ta_value x))) in
      let^ new := toast_compress_datum p in
      match new with
      | Some q =>
          compress_pass n storage d isnull maxDataLen
            (<[Z.to_nat i := mkTAttr (ta_action x) (ByRef q) (VARSIZE q)]> xs) true
      | None =>
          compress_pass n storage d isnull maxDataLen
            (<[Z.to_nat i := mkTAttr "x" (ta_value x) (ta_size x)]> xs) need_change
      end
  end.

(** Rounds 2 and 4. *)
Fixpoint move_pass (n : nat) (storages : list ascii) (reltoastrelid : Z) (d : TupleDesc)
    (isnull : list bool) (maxDataLen : Z) (xs : list TAttr) (need_change : bool)
    : M R (list TAttr * bool) :=
  let^ big := mlift (lift_opt (too_big d isnull maxDataLen xs)) in
  if negb big || (reltoastrelid =? InvalidOid) then mret (xs, need_change) else
  let^ i := mlift (lift_opt (biggest (can_move storages) d xs)) in
  if i <? 0 then mret (xs, need_change) else
  match n with
  | O => λ _, None
  | S n =>
      let^ x := mlift (lift_opt (xs !! Z.to_nat i)) in
      let^ p := mlift (lift_opt (DatumGetPointer (ta_value x))) in
      let^ q := toast_save_datum reltoastrelid p in
      move_pass n storages reltoastrelid d isnull maxDataLen
        (<[Z.to_nat i := mkTAttr "p" (ByRef q) (ta_size x)]> xs) true
  end.

(** The four rounds. *)
Definition toast_rounds (d : TupleDesc) (reltoastrelid : Z) (isnull : list bool) (maxDataLen : Z)
    (xs : list TAttr) (need_change : bool) : M R (list TAttr * bool) :=
  let n := length (attrs d) in
  let^ (xs, need_change) := compress_pass n "x" d isnull maxDataLen xs need_change in
  let^ (xs, need_change) := move_pass n ["x"; "e"] reltoastrelid d isnull maxDataLen xs need_change in
  let^ (xs, need_change) := compress_pass n "m" d isnull maxDataLen xs need_change in
  move_pass n ["m"] reltoastrelid d isnull maxDataLen xs need_change.

Definition HeapTupleHasOid (t : HeapTuple) : bool := negb (Z.land (t_infomask t) HEAP_HASOID =? 0).

(** The new tuple: the old header and the changed values. *)
Definition rebuild_tuple (d : TupleDesc) (t : HeapTuple) (values : list Datum) (isnull : list bool)
    (has_nulls : bool) : res HeapTuple :=
  let+ data_len := lift_opt (heap_compute_data_size d values isnull) in
  let new_len := s32 (header_len d has_nulls (HeapTupleHasOid t) + data_len) in
  let+ _ := alloc palloc (HEAPTUPLESIZE + new_len) in
  let+ f := heap_fill_tuple d values isnull (replicate (Z.to_nat (new_len - t_hoff t)) 0) (t_infomask t)
              (if has_nulls then Some (t_bits t) else None) in
  ok (mkHeapTuple new_len (datum_len_ t) (datum_typeid t) (datum_typmod t) (t_infomask2 t)
        (f_infomask f) (t_hoff t) (default (t_bits t) (f_bit f)) (t_oid t) (f_data f)).

Fixpoint delete_old (olds : list (option (Datum * bool))) (dels : list bool) : M R unit :=
  match olds, dels with
  | Some (v, _) :: olds, true :: dels =>
      let^ p := mlift (lift_opt (DatumGetPointer v)) in
      let^ _ := toast_delete_datum p in
      delete_old olds dels
  | _ :: olds, _ :: dels => delete_old olds dels
  | _, _ => mret tt
  end.

(** For heap tuples ([pbind] is [NULL]).  [None] for [oldtup] is an INSERT. *)
Definition toast_insert_or_update (d : TupleDesc) (reltoastrelid : Z) (newtup : HeapTuple)
    (oldtup : option HeapTuple) (toast_tuple_target : Z) (cache : list Z) : M R (HeapTuple * list Z) :=
  let^ (values, isnull, cache) := mlift (lift_opt (heap_deform_tuple newtup d cache)) in
  let^ (olds, cache) :=
    match oldtup with
    | None => mret (replicate (length (attrs d)) None, cache)
    | Some t =>
        let^ (ovs, ons, cache) := mlift (lift_opt (heap_deform_tuple t d cache)) in
        mret (Some <$> zip ovs ons, cache)
    end in
  let^ (xs, need_change, dels) := collect_loop (attrs d) olds values isnull in
  let has_nulls := existsb id isnull in
  let maxDataLen :=
    (toast_tuple_target - header_len d has_nulls (HeapTupleHasOid newtup)) `mod` 2 ^ 64 in
  let^ (xs, need_change) := toast_rounds d reltoastrelid isnull maxDataLen xs need_change in
  let^ result_tuple :=
    mlift (if need_change then rebuild_tuple d newtup (ta_value <$> xs) isnull has_nulls else ok newtup) in
  let^ _ := delete_old olds dels in
  mret (result_tuple, cache).
End Toast.
