(* ===== verification/ToastRows.v ===== *)
(** The rows of toast relations: chunks of values, how they are read, found by
    scans, inserted under a fresh identifier and deleted. *)
From Stdlib Require Import Ascii.
From stdpp Require Import prelude functions numbers list gmap sorting.
From S2P Require Import Prelude Varlena PgLz HeapTuple HeapTupleForm HeapTupleRead HeapTupleSpec Toast.

Local Open Scope Z_scope.

Local Abbreviation CH := TOAST_MAX_CHUNK_SIZE.

Lemma chunk_size_val : CH = 8138.
Proof. reflexivity. Qed.

(** ** What the access methods promise

    An insertion puts the tuple anywhere in the heap, a deletion removes the
    tuple at an address, and an index scan gives the tuples with the keys in
    the order of the chunk numbers. *)

Definition seq_le (x y : Z * HeapTuple) : Prop :=
  default 0 (chunk_seq x.2) ≤ default 0 (chunk_seq y.2).

(** The row versions that a snapshot sees. *)
Definition snapshot_rows {R} `{!ToastAM R} (r : R) (s : Snapshot) : list (Z * HeapTuple) :=
  match s with
  | SnapshotToast => heap_rows r
  | SnapshotDirty => filter (λ row, row_deleted r row.1 = false) (heap_rows r)
  end.

Class ToastAMLaws (R : Type) `{!ToastAM R} : Prop := {
  heap_rows_addresses r : NoDup (heap_rows r).*1;
  heap_insert_rows r t : ∃ l1 l2 tid,
    heap_rows r = l1 ++ l2 ∧ heap_rows (heap_insert r t) = l1 ++ (tid, t) :: l2 ∧
    row_deleted (heap_insert r t) tid = false ∧
    ∀ tid', tid' ∈ (heap_rows r).*1 → row_deleted (heap_insert r t) tid' = row_deleted r tid';
  heap_delete_rows r tid : heap_rows (heap_delete r tid) = heap_rows r;
  heap_delete_deleted r tid tid' : tid' ∈ (heap_rows r).*1 →
    row_deleted (heap_delete r tid) tid' = bool_decide (tid' = tid) || row_deleted r tid';
  index_scan_rows r s id range :
    index_scan r s id range ≡ₚ filter (λ row, scan_match id range row = true) (snapshot_rows r s);
  index_scan_sorted r s id range : StronglySorted seq_le (index_scan r s id range)
}.

(** ** A chunk *)

Local Abbreviation atts := (attrs toast_desc).
Local Abbreviation data_att := (mkAttribute BYTEAOID (-1) 0 (-1) false "p" "i")%char.

(** The tuple of chunk [seq] of the value [id]. *)
Definition chunk_tuple (id seq : Z) (data : list Z) (t : HeapTuple) : Prop :=
  0 ≤ id < 2 ^ 32 ∧ 0 ≤ seq < 2 ^ 31 ∧ 0 < blen data ≤ CH ∧
  ∃ p, varlena_ok p ∧ VARATT_IS_4B_U p = true ∧ payload p = data ∧
    formed t atts [ByVal id; ByVal seq; ByRef p] [false; false; false].

Lemma sext_id z : s32 (sext 4 z) = s32 z ∧ u32 (sext 4 z) = u32 z.
Proof.
  unfold s32, u32, sext. change (8 * 4 - 1) with 31. change (8 * 4) with 32.
  rewrite Z.sub_add, Zmod_mod. split; [done|]. rewrite Zminus_mod_idemp_l. f_equal. lia.
Qed.

(** What is read of an attribute that is a pointer. *)
Lemma fetched_row_image tp rest vs ns A : row_ok A vs ns → ∀ pos k a p,
  0 ≤ pos → drop (Z.to_nat pos) tp = layout A vs ns pos ++ rest →
  A !! k = Some a → vs !! k = Some (ByRef p) → ns !! k = Some false →
  ∃ more, fetched_row tp A vs ns pos !! k = Some (ByRef (attr_image a (ByRef p) ++ more)).
Proof.
  induction 1 as [|a v n A vs ns Hc Hrow IH]; intros pos k b p Hpos Htp Ha Hv Hn; [done|].
  cbn [layout fetched_row] in *. destruct k as [|k]; cbn in Ha, Hv, Hn.
  - injection Ha as ->. injection Hv as ->. injection Hn as ->. rewrite <- !app_assoc in Htp.
    eexists. cbn [lookup list_lookup]. unfold fetched. by rewrite (drop_start tp b (ByRef p) pos _ Hpos Htp).
  - destruct n; cbn [lookup list_lookup]; [by apply IH|]. rewrite <- !app_assoc in Htp.
    apply IH; [|by apply drop_after|done..].
    pose proof (start_nonneg a v pos Hpos). pose proof (blen_nonneg (attr_image a v)). lia.
Qed.

Section Chunk.
Context (id seq : Z) (data : list Z) (t : HeapTuple) (Ht : chunk_tuple id seq data t).
Context (cache : list Z) (Hc : cache_ok atts cache).

Lemma chunk_attr_read (k : nat) :
  (k < 2)%nat →
  ∃ v cache', fastgetattr t (Z.of_nat k + 1) atts cache = Some (ByVal v, false, cache') ∧
    v = sext 4 (match k with O => id | S _ => seq end) ∧ cache_ok atts cache'.
Proof.
  intros Hk. destruct Ht as (_ & _ & _ & p & _ & _ & _ & Hf).
  destruct (fastgetattr_ok t atts [] _ _ Hf k false cache) as (v & cache' & E & Hv & Hc').
  { by destruct k as [|[|]]; [..|lia]. }
  { by rewrite app_nil_r. }
  rewrite app_nil_r in *. pose proof (row_values_same _ _ _ _ Hf) as Hs. revert Hv Hs.
  generalize (row_values t atts [ByVal id; ByVal seq; ByRef p] [false; false; false]).
  intros ds Hv Hs. inversion Hs as [| |? ? d1 ? ? ? ? Hd1 _ Hs1]; subst.
  inversion Hs1 as [| |? ? d2 ? ? ? ? Hd2 _ _]; subst.
  destruct d1, d2; cbn [same_value] in Hd1, Hd2; try done. subst.
  destruct k as [|[|]]; [| |lia]; cbn in Hv; injection Hv as <-; eexists _, cache'; by rewrite E.
Qed.

Lemma chunk_index_ok : ∃ cache', chunk_index t cache = ok (seq, cache') ∧ cache_ok atts cache'.
Proof.
  destruct (chunk_attr_read 1 ltac:(lia)) as (v & cache' & E & -> & Hc'). change (Z.of_nat 1 + 1) with 2 in E.
  exists cache'. unfold chunk_index. rewrite E. cbn [lift_opt fmap option_fmap option_map res_bind].
  rewrite (proj1 (sext_id _)), s32_id; [done|]. destruct Ht as (_ & Hs & _). lia.
Qed.

(** The pointer: the stored copy of the chunk, and what follows it. *)
Lemma chunk_pointer_ok :
  ∃ p more cache', chunk_pointer t cache = ok (attr_image data_att (ByRef p) ++ more, cache') ∧
    varlena_ok p ∧ VARATT_IS_4B_U p = true ∧ payload p = data ∧ cache_ok atts cache'.
Proof.
  destruct Ht as (_ & _ & _ & p & Hp & Hu & Hd & Hf).
  destruct (fastgetattr_ok t atts [] _ _ Hf 2 false cache eq_refl) as (v & cache' & E & Hv & Hc').
  { by rewrite app_nil_r. }
  rewrite app_nil_r in *. change (Z.of_nat 2 + 1) with 3 in E.
  destruct (fetched_row_image (t_area t) [] [ByVal id; ByVal seq; ByRef p] [false; false; false] atts
    (formed_row _ _ _ _ Hf) 0 2 data_att p) as [more Hm]; [done| |done..|].
  { change (Z.to_nat 0) with 0%nat. rewrite drop_0, app_nil_r. apply (formed_area _ _ _ _ Hf). }
  unfold row_values in Hv. rewrite Hm in Hv. injection Hv as <-.
  exists p, more, cache'. unfold chunk_pointer. rewrite E. by split_and!.
Qed.
End Chunk.

(** The contents of a value that is neither external nor compressed. *)
Lemma chunk_contents_ok q :
  varlena_ok q → VARATT_IS_EXTERNAL q = false → VARATT_IS_COMPRESSED q = false →
  ∃ src, chunk_contents q = ok (blen (payload q), src) ∧
    read_bytes src (blen (payload q)) = Some (payload q) ∧
    (VARATT_IS_SHORT q = false → src = VARDATA q).
Proof.
  intros Hq HE HC. destruct (varlena_cases q Hq) as [Hh Hcases]. unfold chunk_contents, payload,
    VARSIZE_ANY_EXHDR, VARDATA_ANY, VARATT_IS_EXTENDED. destruct (header_cases q Hh) as (EU & EC & _ & E1 & _).
  unfold VARATT_IS_EXTERNAL, VARATT_IS_SHORT, VARATT_IS_COMPRESSED in *. rewrite HE.
  assert (Hrd : ∀ n src, 0 ≤ n ≤ blen src → blen (take (Z.to_nat n) src) = n ∧
    read_bytes src (blen (take (Z.to_nat n) src)) = Some (take (Z.to_nat n) src)).
  { intros n src Hn. pose proof (blen_take n src Hn) as E. split; [done|]. rewrite E. by apply read_bytes_ok. }
  destruct Hcases as [(? & _)|[(_ & Hs & _ & Hr)|(_ & Hs & _ & Hr)]]; [congruence|..]; rewrite Hs; cbn [negb].
  - destruct (Hrd (VARSIZE_SHORT q - VARHDRSZ_SHORT) (VARDATA_SHORT q)) as [E R].
    { unfold VARHDRSZ_SHORT, VARDATA_SHORT, blen in *. rewrite length_drop. unfold VARHDRSZ_SHORT. lia. }
    exists (VARDATA_SHORT q). rewrite E in *. split; [done|]. split; [done|]. congruence.
  - rewrite EU. rewrite HC in EC. rewrite Hs in E1. symmetry in EC, E1.
    apply bool_decide_eq_false in EC, E1. rewrite bool_decide_true by lia. cbn [negb].
    destruct (Hrd (VARSIZE q - VARHDRSZ) (VARDATA q)) as [E R].
    { unfold VARHDRSZ, VARDATA, blen in *. rewrite length_drop. unfold VARHDRSZ. lia. }
    exists (VARDATA q). by rewrite E in *.
Qed.

(** The stored copy of a chunk is short exactly when the chunk is. *)
Lemma chunk_copy p more :
  varlena_ok p → VARATT_IS_4B_U p = true →
  let q := attr_image data_att (ByRef p) ++ more in
  varlena_ok q ∧ VARATT_IS_EXTERNAL q = false ∧ VARATT_IS_COMPRESSED q = false ∧ payload q = payload p ∧
  VARATT_IS_SHORT q = (blen (payload p) <=? 126).
Proof.
  intros Hp Hu q. pose proof (proj1 Hp) as Hh. destruct (header_cases p Hh) as (EU & EC & _ & E1 & _).
  rewrite Hu in EU. symmetry in EU. apply bool_decide_eq_true in EU. rewrite bool_decide_false in EC, E1 by lia.
  assert (HE : VARATT_IS_EXTERNAL p = false) by (unfold VARATT_IS_EXTERNAL, VARATT_IS_1B_E; lia).
  assert (Hok : attr_ok data_att (ByRef p)) by (split; [done|by left]).
  pose proof (image_same _ _ more Hok) as Hs. cbn [same_value attlen] in Hs. change (-1 =? -1) with true in Hs.
  cbv iota in Hs. fold q in Hs. destruct Hs as (SE & SC & Sc). unfold VARATT_IS_COMPRESSED in *.
  destruct (image_ok _ _ more Hok) as [_ [[_ Hq]|[[? _]|[? _]]]]; [|done..]. fold q in Hq.
  rewrite HE in SE. rewrite EC in SC. unfold content in Sc. rewrite SE, HE in Sc.
  unfold VARATT_IS_COMPRESSED in Sc. rewrite SC, EC in Sc. cbn [orb] in Sc.
  split_and!; [done..|]. destruct (varlena_4b p Hp E1) as [_ Hsz].
  assert (Hlen : blen (payload p) = VARSIZE p - 4).
  { unfold payload, VARSIZE_ANY_EXHDR, VARDATA_ANY. unfold VARATT_IS_EXTERNAL in HE. rewrite HE, E1.
    rewrite blen_take; [done|]. unfold VARHDRSZ, VARDATA, blen in *. rewrite length_drop. unfold VARHDRSZ. lia. }
  assert (Hpk : packed data_att (ByRef p) = (blen (payload p) <=? 126)).
  { cbn [packed attlen atttypid]. change (-1 =? -1) with true. unfold value_type_could_short, VARATT_COULD_SHORT.
    unfold VARATT_IS_SHORT. rewrite HE, E1, Hu, Hlen. unfold VARHDRSZ, VARHDRSZ_SHORT, VARATT_SHORT_MAX.
    cbn [negb andb orb]. rewrite !andb_true_r. destruct (Z.leb_spec (VARSIZE p - 4 + 1) 127),
      (Z.leb_spec (VARSIZE p - 4) 126); (done || lia). }
  unfold q. rewrite image_byref by done. rewrite Hpk. unfold VARATT_IS_SHORT in *. rewrite E1. cbn [negb]. rewrite andb_true_r.
  destruct (blen (payload p) <=? 126) eqn:El.
  - destruct (shrink_flags p more Hp E1) as (_ & -> & _); [|done].
    apply (packed_shrink data_att); [exact Hpk|done].
  - destruct (same_header_eqs _ _ (same_header_take p more Hp)) as (_ & -> & _). done.
Qed.

(** All that the loops read of a chunk. *)
Lemma chunk_row_read id seq data t cache :
  chunk_tuple id seq data t → cache_ok atts cache →
  ∃ q src cache1 cache2, chunk_index t cache = ok (seq, cache1) ∧ chunk_pointer t cache1 = ok (q, cache2) ∧
    chunk_contents q = ok (blen data, src) ∧ read_bytes src (blen data) = Some data ∧
    (126 < blen data → src = VARDATA q) ∧ cache_ok atts cache2.
Proof.
  intros Ht Hc. destruct (chunk_index_ok id seq data t Ht cache Hc) as (cache1 & E1 & Hc1).
  destruct (chunk_pointer_ok id seq data t Ht cache1 Hc1) as (p & more & cache2 & E2 & Hp & Hu & Hd & Hc2).
  destruct (chunk_copy p more Hp Hu) as (Hq & HE & HC & Hpay & Hsh). rewrite Hd in *.
  destruct (chunk_contents_ok _ Hq HE HC) as (src & E3 & Hr & Hsrc). rewrite Hpay in *.
  eexists _, src, cache1, cache2. split_and!; [done..| |done]. intros Hl. apply Hsrc. rewrite Hsh. lia.
Qed.

Lemma chunk_keys id seq data t :
  chunk_tuple id seq data t → chunk_id t = Some id ∧ chunk_seq t = Some seq.
Proof.
  intros Ht. pose proof (cache_fresh atts) as Hc. change (length atts) with 3%nat in Hc.
  pose proof Ht as (Hid & Hseq & _). unfold chunk_id, chunk_seq, chunk_attr. split.
  - destruct (chunk_attr_read id seq data t Ht _ Hc 0 ltac:(lia)) as (v & c & E & -> & _).
    change (Z.of_nat 0 + 1) with 1 in E. rewrite E. cbn [mbind option_bind fmap option_fmap option_map].
    by rewrite (proj2 (sext_id _)), u32_id.
  - destruct (chunk_attr_read id seq data t Ht _ Hc 1 ltac:(lia)) as (v & c & E & -> & _).
    change (Z.of_nat 1 + 1) with 2 in E. rewrite E. cbn [mbind option_bind fmap option_fmap option_map].
    rewrite (proj1 (sext_id _)), s32_id; [done|lia].
Qed.

(** ** Values that are made *)

(** A value with a 4-byte header that is not compressed. *)
Record plain_value (p data : list Z) : Prop := {
  plain_ok : varlena_ok p;
  plain_4b_u : VARATT_IS_4B_U p = true;
  plain_short : VARATT_IS_SHORT p = false;
  plain_external : VARATT_IS_EXTERNAL p = false;
  plain_compressed : VARATT_IS_COMPRESSED p = false;
  plain_size : VARSIZE p = blen data + 4;
  plain_data_at : VARDATA p = data ++ drop (length data) (VARDATA p);
  plain_payload : payload p = data
}.

Lemma take_set_varsize c len :
  4 ≤ blen c → 0 ≤ len < 2 ^ 30 → SET_VARSIZE c len = reverse (Z_to_little_endian 4 8 len) ++ drop 4 c.
Proof.
  intros Hc Hl. unfold SET_VARSIZE. rewrite wr_be32_app by done. do 3 f_equal.
  change 0x3FFFFFFF with (Z.ones 30). rewrite Z.land_ones by lia. apply Z.mod_small. lia.
Qed.

Lemma varlena_plain data rest : blen data + 4 < 2 ^ 30 → plain_value (varlena data ++ rest) data.
Proof.
  intros Hd. pose proof (blen_nonneg data). pose proof (blen_nonneg rest).
  set (c := replicate 4 0 ++ data ++ rest).
  assert (Hc : blen c = 4 + blen data + blen rest) by (unfold c; rewrite !blen_app; change (blen (replicate 4 0)) with 4; lia).
  assert (E : varlena data ++ rest = SET_VARSIZE c (blen data + 4)).
  { rewrite take_set_varsize by lia. unfold varlena, VARHDRSZ. rewrite <- app_assoc. done. }
  destruct (set_varsize_spec c (blen data + 4)) as (Hh & Hlt & Hsz & HU & H1 & HC & HE & Hdr); [lia..|].
  rewrite <- E in *. set (p := varlena data ++ rest) in *.
  assert (Hlen : blen p = blen c) by (rewrite E; unfold SET_VARSIZE, wr_be32; apply blen_memcpy).
  assert (HD : VARDATA p = data ++ rest) by exact Hdr.
  split; [| done..| |].
  - split; [done|]. split; [by intros ->|]. unfold VARSIZE_ANY, VARHDRSZ. rewrite HE, H1.
    split_and!; [lia|intros _; lia].
  - rewrite HD. by rewrite drop_app_length.
  - unfold payload, VARSIZE_ANY_EXHDR, VARDATA_ANY. rewrite HE, H1, Hsz, HD. unfold VARHDRSZ.
    apply take_app_length'. unfold blen. lia.
Qed.

(** [SET_VARSIZE] and [memcpy] of the data. *)
Lemma set_data c src :
  4 + blen src ≤ blen c → blen src + 4 < 2 ^ 30 →
  ∃ rest, write_bytes (SET_VARSIZE c (blen src + 4)) VARHDRSZ src = Some (varlena src ++ rest) ∧
    blen (varlena src ++ rest) = blen c.
Proof.
  intros Hc Hs. pose proof (blen_nonneg src). rewrite take_set_varsize by lia.
  assert (Hl : length (reverse (Z_to_little_endian 4 8 (blen src + 4))) = 4%nat)
    by (rewrite length_reverse, length_le_bytes; done).
  assert (Hb : blen (reverse (Z_to_little_endian 4 8 (blen src + 4)) ++ drop 4 c) = blen c)
    by (unfold blen in *; rewrite length_app, length_drop, Hl; lia).
  unfold VARHDRSZ. rewrite write_bytes_ok by lia. rewrite memcpy_alt by (unfold blen in *; lia).
  rewrite take_app_length' by done. eexists. split.
  - unfold varlena, VARHDRSZ. rewrite <- app_assoc. done.
  - rewrite !blen_app. unfold blen in *. rewrite length_drop, length_app, length_drop, Hl.
    unfold varlena. rewrite length_app, length_reverse, length_le_bytes by lia. lia.
Qed.

Lemma pad_lt pos al : blen (pad pos al) < 8.
Proof.
  rewrite blen_pad. pose proof (att_align_range pos al). pose proof (align_of_range al). lia.
Qed.

Lemma image_le a p : attlen a = -1 → varlena_ok p → blen (attr_image a (ByRef p)) ≤ VARSIZE_ANY p.
Proof.
  intros Ea Hp. rewrite image_byref by done. pose proof (varlena_size p Hp).
  destruct (packed a (ByRef p) && negb (VARATT_IS_SHORT p)) eqn:E; [|rewrite blen_take; lia].
  apply andb_true_iff in E as [E1 E2%negb_true_iff]. pose proof (packed_shrink a p) as Hps.
  destruct (varlena_4b p Hp E2) as [-> Hs]. unfold shrink. rewrite blen_cons, blen_take; [unfold VARHDRSZ; lia|].
  unfold VARDATA, VARHDRSZ, blen in *. rewrite length_drop. unfold VARHDRSZ. lia.
Qed.

Lemma attr_pad_lt a v pos : blen (attr_pad a v pos) < 8.
Proof. unfold attr_pad. destruct (packed _ _); [done|apply pad_lt]. Qed.

Lemma chunk_layout_len id seq p :
  varlena_ok p → blen (layout atts [ByVal id; ByVal seq; ByRef p] [false; false; false] 0) ≤ 40 + VARSIZE_ANY p.
Proof.
  intros Hp. cbn [layout attrs toast_desc]. rewrite !blen_app, blen_nil.
  pose proof (image_le (mkAttribute BYTEAOID (-1) 0 (-1) false "p" "i") p eq_refl Hp) as Hi.
  assert (H4 : ∀ z t, blen (attr_image (mkAttribute t 4 0 (-1) true "p" "i") (ByVal z)) = 4).
  { intros z t. apply image_fixed; [|done]. split; [done|]. by do 2 right; left. }
  rewrite !H4.
  repeat match goal with |- context [attr_pad ?a ?v ?pos] =>
    lazymatch goal with H : blen (attr_pad a v pos) < 8 |- _ => fail | _ => pose proof (attr_pad_lt a v pos) end end.
  lia.
Qed.

Section FormChunk.
Context (flatten : list Z → Z → Z → res (list Z)) (palloc : Z → list Z).
Context (palloc_len : ∀ n, 0 ≤ n → blen (palloc n) = n).

(** No column of a toast relation can be composite. *)
Lemma form_chunk id seq p data :
  0 ≤ id < 2 ^ 32 → 0 ≤ seq < 2 ^ 31 → 0 < blen data ≤ CH → plain_value p data →
  ∃ t, heap_form_tuple flatten palloc toast_desc [ByVal id; ByVal seq; ByRef p] [false; false; false] = ok t ∧
    chunk_tuple id seq data t.
Proof.
  intros Hid Hseq Hd Hp.
  assert (Hrow : row_ok atts [ByVal id; ByVal seq; ByRef p] [false; false; false]).
  { apply Forall3_cons; [|apply Forall3_cons; [|apply Forall3_cons; [|constructor]]]; intros _; split; try done;
      [by do 2 right; left|by do 2 right; left|]. left. split; [done|]. apply Hp. }
  assert (Hsz : tuple_size toast_desc [ByVal id; ByVal seq; ByRef p] [false; false; false] < MaxAllocSize).
  { unfold tuple_size. change (header_len _ _ _) with 24. pose proof (chunk_layout_len id seq p ltac:(apply Hp)).
    assert (Hany : VARSIZE_ANY p = blen data + 4).
    { destruct Hp as [_ _ H1 HE _ Hs _ _]. unfold VARSIZE_ANY, VARATT_IS_SHORT, VARATT_IS_EXTERNAL in *. by rewrite HE, H1. }
    unfold HEAPTUPLESIZE, MaxAllocSize. rewrite chunk_size_val in *. lia. }
  destruct (flat_row_plain (λ p _ _, ok p) atts _ _ ltac:(by repeat constructor) Hrow) as [Efl Hfl].
  destruct (heap_form_tuple_ok (λ p _ _, ok p) palloc palloc_len ltac:(eauto) toast_desc _ _ Hrow)
    as (t & E & Hf & _); [done|done|by rewrite Efl|].
  rewrite Efl in Hf. exists t. split; [exact E|].
  split; [done|]. split; [done|]. split; [done|]. exists p. split; [apply Hp|]. split; [apply Hp|].
  split; [apply Hp|]. exact Hf.
Qed.
End FormChunk.

(** ** The chunks of a value *)

Definition num_chunks (data : list Z) : Z := (blen data + (CH - 1)) `div` CH.
Definition chunk_at (data : list Z) (k : Z) : list Z := slice (k * CH) CH data.

Lemma num_chunks_range data :
  0 ≤ num_chunks data ∧ num_chunks data * CH < blen data + CH ∧ blen data ≤ num_chunks data * CH.
Proof. unfold num_chunks. rewrite chunk_size_val. pose proof (blen_nonneg data). divlia. Qed.

Lemma num_chunks_lt data k : 0 ≤ k → k < num_chunks data ↔ k * CH < blen data.
Proof. unfold num_chunks. rewrite chunk_size_val. intros. divlia. Qed.

Lemma chunk_at_len data k :
  0 ≤ k → blen (chunk_at data k) = Z.max 0 (Z.min CH (blen data - k * CH)).
Proof.
  intros Hk. rewrite chunk_size_val. unfold chunk_at, slice, blen. rewrite chunk_size_val, length_take, length_drop. lia.
Qed.

Lemma chunk_at_pos data k : 0 ≤ k < num_chunks data → 0 < blen (chunk_at data k) ≤ CH.
Proof.
  intros Hk. pose proof (proj1 (num_chunks_lt data k ltac:(lia)) ltac:(lia)).
  rewrite chunk_at_len by lia. rewrite chunk_size_val in *. lia.
Qed.

Lemma chunk_at_read data k rest :
  read_bytes (drop (Z.to_nat (k * CH)) data ++ rest) (blen (chunk_at data k)) = Some (chunk_at data k).
Proof.
  unfold chunk_at, slice. set (d := drop _ data). rewrite read_bytes_ok.
  - unfold blen. rewrite Nat2Z.id. f_equal. rewrite <- (take_drop (Z.to_nat CH) d) at 2.
    by rewrite <- app_assoc, take_app_length.
  - unfold blen. rewrite length_app, length_take. lia.
Qed.

(** The length that the code expects of a chunk. *)
Lemma chunk_at_check data k :
  0 ≤ k < num_chunks data →
  (if k <? num_chunks data - 1 then negb (blen (chunk_at data k) =? CH)
   else if k =? num_chunks data - 1 then negb (k * CH + blen (chunk_at data k) =? blen data) else true) = false.
Proof.
  intros Hk. pose proof (num_chunks_range data) as (_ & H1 & H2). rewrite chunk_at_len by lia.
  rewrite chunk_size_val in *. destruct (Z.ltb_spec k (num_chunks data - 1)).
  - destruct (Z.eqb_spec (Z.max 0 (Z.min 8138 (blen data - k * 8138))) 8138); [done|lia].
  - destruct (Z.eqb_spec k (num_chunks data - 1)); [|lia].
    destruct (Z.eqb_spec (k * 8138 + Z.max 0 (Z.min 8138 (blen data - k * 8138))) (blen data)); [done|lia].
Qed.

Lemma count_chunks_ok data : 0 < blen data < 2 ^ 31 → count_chunks (blen data) = num_chunks data.
Proof.
  intros Hd. unfold count_chunks, num_chunks. rewrite chunk_size_val.
  rewrite (s32_id (blen data - 1)) by lia. rewrite Z.quot_div_nonneg by lia.
  rewrite s32_id by divlia. divlia.
Qed.

(** A row of the value [data]. *)
Definition row_of (id : Z) (data : list Z) (row : Z * HeapTuple) : Prop :=
  ∃ k, 0 ≤ k < num_chunks data ∧ chunk_tuple id k (chunk_at data k) row.2.

Definition row_seq (row : Z * HeapTuple) : option Z := chunk_seq row.2.

(** ** Putting a value together *)

(** The first [k] chunks are in their place. *)
Definition prefix_ok (data hdr : list Z) (k : Z) (result : list Z) : Prop :=
  length hdr = 4%nat ∧ blen result = 4 + blen data ∧
  ∃ rest, result = hdr ++ take (Z.to_nat (k * CH)) data ++ rest.

Lemma prefix_step data hdr k result :
  0 ≤ k < num_chunks data → prefix_ok data hdr k result →
  ∃ result', write_bytes result (VARHDRSZ + k * CH) (chunk_at data k) = Some result' ∧
    prefix_ok data hdr (k + 1) result'.
Proof.
  intros Hk (Hh & Hl & rest & ->). pose proof (proj1 (num_chunks_lt data k ltac:(lia)) ltac:(lia)) as Hlt.
  pose proof (chunk_at_len data k ltac:(lia)) as Hc. rewrite chunk_size_val in *. unfold VARHDRSZ.
  rewrite write_bytes_ok by lia. eexists. split; [done|]. split; [done|].
  split; [by rewrite blen_memcpy|]. rewrite memcpy_alt by (unfold blen in *; lia).
  assert (Et : take (Z.to_nat (4 + k * 8138)) (hdr ++ take (Z.to_nat (k * 8138)) data ++ rest) =
    hdr ++ take (Z.to_nat (k * 8138)) data).
  { rewrite app_assoc. apply take_app_length'. rewrite length_app, length_take, Hh. unfold blen in *. lia. }
  rewrite Et. set (more := drop _ _). exists more. rewrite <- !app_assoc. f_equal. rewrite app_assoc. f_equal.
  unfold chunk_at, slice. rewrite chunk_size_val, take_take_drop. f_equal. lia.
Qed.

Lemma prefix_done data hdr k result :
  num_chunks data ≤ k → prefix_ok data hdr k result → result = hdr ++ data.
Proof.
  intros Hk (Hh & Hl & rest & ->). pose proof (num_chunks_range data) as (_ & _ & Hn).
  rewrite chunk_size_val in *. rewrite take_ge in * by (unfold blen in *; lia).
  destruct rest; [by rewrite app_nil_r|]. unfold blen in Hl. rewrite !length_app in Hl. cbn in Hl. lia.
Qed.

(** The loop over any rows of the value: it stops with an error unless they
    come in the order of their numbers. *)
Lemma fetch_loop_ok id data hdr rows : Forall (row_of id data) rows → ∀ k result cache,
  num_chunks data < 2 ^ 31 - 1 → 0 ≤ k ≤ num_chunks data → prefix_ok data hdr k result → cache_ok atts cache →
  (row_seq <$> rows = Some <$> seqZ k (Z.of_nat (length rows)) → ∃ result' cache',
     fetch_loop rows (blen data) (num_chunks data) result k cache =
       ok (result', k + Z.of_nat (length rows), cache') ∧
     prefix_ok data hdr (k + Z.of_nat (length rows)) result' ∧ cache_ok atts cache') ∧
  (row_seq <$> rows ≠ Some <$> seqZ k (Z.of_nat (length rows)) →
     fetch_loop rows (blen data) (num_chunks data) result k cache = elog).
Proof.
  induction 1 as [|[tid t] rows (s & Hs & Ht) _ IH]; intros k result cache Hn Hk Hp Hc.
  { split; [|done]. intros _. exists result, cache. cbn. rewrite Z.add_0_r. by split_and!. }
  cbn [fetch_loop length]. cbn [snd] in Ht.
  destruct (chunk_row_read id s (chunk_at data s) t cache Ht Hc) as (q & src & c1 & c2 & E1 & E2 & E3 & Hr & _ & Hc2).
  rewrite E1. cbn [ok res_bind]. rewrite E2. cbn [ok res_bind]. rewrite E3. cbn [ok res_bind].
  destruct (chunk_keys _ _ _ _ Ht) as [_ Hsq].
  replace (Z.of_nat (S (length rows))) with (1 + Z.of_nat (length rows)) by lia.
  rewrite seqZ_cons by lia. cbn [fmap list_fmap]. change (row_seq (tid, t)) with (chunk_seq t). rewrite Hsq.
  replace (Z.pred (1 + Z.of_nat (length rows))) with (Z.of_nat (length rows)) by lia.
  destruct (Z.eqb_spec s k) as [->|Hne]; cbn [negb].
  - rewrite chunk_at_check by done. rewrite Hr. cbn [lift_opt fmap option_fmap option_map res_bind].
    destruct (prefix_step data hdr k result Hs Hp) as (result' & E & Hp'). rewrite E.
    cbn [lift_opt fmap option_fmap option_map res_bind].
    rewrite s32_id by lia. specialize (IH (k + 1) result' c2 Hn ltac:(lia) Hp' Hc2) as [IH1 IH2].
    change (Z.succ k) with (k + 1). rewrite Z.add_assoc. split.
    + intros Eq. injection Eq as Eq. by apply IH1.
    + intros Hneq. apply IH2. intros Eq. apply Hneq. by rewrite Eq.
  - split; [|done]. intros Eq. injection Eq as Eq _. done.
Qed.

(** ** Scans *)

Lemma filter_fmap_comm {A B} (f : A → B) (P : B → Prop) `{∀ y, Decision (P y)} (l : list A) :
  filter P (f <$> l) = f <$> filter (λ x, P (f x)) l.
Proof.
  induction l as [|x l IH]; [done|]. cbn [fmap list_fmap]. rewrite !filter_cons.
  destruct (decide (P (f x))); cbn [fmap list_fmap]; by rewrite IH.
Qed.

Lemma filter_none {A} (P : A → Prop) `{∀ x, Decision (P x)} l : Forall (λ x, ¬ P x) l → filter P l = [].
Proof. induction 1 as [|x l Hx _ IH]; [done|]. by rewrite filter_cons_False, IH. Qed.

Lemma nodup_fst_inj {A B} (l : list (A * B)) x y : NoDup l.*1 → x ∈ l → y ∈ l → x.1 = y.1 → x = y.
Proof.
  intros Hnd [i Hi]%list_elem_of_lookup_1 [j Hj]%list_elem_of_lookup_1 E.
  assert (i = j) as -> by (eapply NoDup_lookup; [exact Hnd|rewrite list_lookup_fmap, Hi|rewrite list_lookup_fmap, Hj];
    cbn; [done|by rewrite E]). congruence.
Qed.

(** Rows in the order of distinct numbers. *)
Lemma sorted_seqs (rows : list (Z * HeapTuple)) m n :
  StronglySorted seq_le rows → row_seq <$> rows ≡ₚ Some <$> seqZ m n →
  row_seq <$> rows = Some <$> seqZ m n.
Proof.
  intros Hs Hp. eapply (StronglySorted_unique_strong (λ x y, default 0 x ≤ default 0 y)); [| | |exact Hp].
  - intros x y Hx Hy H1 H2. rewrite Hp in Hx. apply list_elem_of_fmap in Hx as (a & -> & _).
    apply list_elem_of_fmap in Hy as (b & -> & _). cbn in *. f_equal. lia.
  - eapply StronglySorted_fmap; [|exact Hs]. by intros x y.
  - eapply StronglySorted_fmap; [|apply seqZ_sorted]. intros x y ?. cbn. lia.
Qed.

Lemma filter_perm_id {A} (P : A → Prop) `{∀ x, Decision (P x)} (l : list A) : filter P l ≡ₚ l → filter P l = l.
Proof.
  intros Hp. apply filter_all. intros x Hx. rewrite <- Hp in Hx. by apply list_elem_of_filter in Hx as [? _].
Qed.

Lemma seqZ_range lo hi n :
  0 ≤ lo → hi < n → lo ≤ hi + 1 →
  filter (λ k, lo ≤ k ≤ hi) (seqZ 0 n) = seqZ lo (hi + 1 - lo).
Proof.
  intros Hlo Hn Hle. replace n with (lo + ((hi + 1 - lo) + (n - hi - 1))) by lia.
  rewrite seqZ_app, seqZ_app, !filter_app by lia. rewrite filter_none, filter_all, filter_none.
  - by rewrite app_nil_r.
  - apply Forall_forall. intros k Hk%elem_of_seqZ. lia.
  - intros k Hk%elem_of_seqZ. lia.
  - apply Forall_forall. intros k Hk%elem_of_seqZ. lia.
Qed.

Section Rel.
Context {R : Type} `{!ToastAM R, !ToastAMLaws R}.

(** The rows of a value, as a scan of the heap gives them. *)
Definition rows_of (r : R) (id : Z) : list (Z * HeapTuple) :=
  filter (λ row, scan_match id None row = true) (heap_rows r).

(** Those of them that have not been deleted. *)
Definition live_of (r : R) (id : Z) : list (Z * HeapTuple) :=
  filter (λ row, row_deleted r row.1 = false) (rows_of r id).

(** The relation has the value [data] under [id]. *)
Definition stored (r : R) (id : Z) (data : list Z) : Prop :=
  Forall (row_of id data) (rows_of r id) ∧
  row_seq <$> rows_of r id ≡ₚ Some <$> seqZ 0 (num_chunks data).

Lemma stored_length r id data :
  stored r id data → Z.of_nat (length (rows_of r id)) = num_chunks data.
Proof.
  intros [_ Hp]. apply Permutation_length in Hp. rewrite !length_fmap, length_seqZ in Hp.
  pose proof (num_chunks_range data). lia.
Qed.

Lemma stored_index r id data :
  stored r id data →
  Forall (row_of id data) (index_scan r SnapshotToast id None) ∧
  row_seq <$> index_scan r SnapshotToast id None = Some <$> seqZ 0 (num_chunks data).
Proof.
  intros [Hf Hp]. pose proof (index_scan_rows r SnapshotToast id None) as Hi. cbn [snapshot_rows] in Hi. split.
  - by rewrite Hi.
  - apply sorted_seqs; [apply index_scan_sorted|]. by rewrite Hi.
Qed.

Lemma stored_range r id data lo hi :
  stored r id data → 0 ≤ lo → lo ≤ hi < num_chunks data →
  Forall (row_of id data) (index_scan r SnapshotToast id (Some (lo, hi))) ∧
  row_seq <$> index_scan r SnapshotToast id (Some (lo, hi)) = Some <$> seqZ lo (hi + 1 - lo).
Proof.
  intros [Hf Hp] Hlo Hhi. pose proof (index_scan_rows r SnapshotToast id (Some (lo, hi))) as Hi. cbn [snapshot_rows] in Hi.
  set (Q := λ s : option Z, match s with Some s => lo ≤ s ≤ hi | None => False end).
  assert (HQ : ∀ s, Decision (Q s)) by (intros [s|]; cbn; apply _).
  assert (E : filter (λ row, scan_match id (Some (lo, hi)) row = true) (heap_rows r) =
    filter (λ row, Q (row_seq row)) (rows_of r id)).
  { unfold rows_of. rewrite list_filter_filter. apply list_filter_iff. intros [tid t].
    unfold scan_match, Q, row_seq. cbn [snd]. rewrite andb_true_r, andb_true_iff.
    destruct (chunk_seq t) as [s|]; [rewrite andb_true_iff, !Z.leb_le|]; naive_solver lia. }
  rewrite E in Hi. split.
  - rewrite Hi. apply Forall_forall. intros row [_ Hrow]%list_elem_of_filter. by rewrite Forall_forall in Hf; apply Hf.
  - apply sorted_seqs; [apply index_scan_sorted|]. rewrite Hi, <- filter_fmap_comm, Hp, filter_fmap_comm.
    rewrite (list_filter_iff _ (λ k, lo ≤ k ≤ hi)) by done. by rewrite seqZ_range by lia.
Qed.

(** ** Insertion *)

Lemma scan_match_id id row : scan_match id None row = true ↔ chunk_id row.2 = Some id.
Proof. unfold scan_match. rewrite andb_true_r. apply bool_decide_eq_true. Qed.

Lemma rows_of_insert r t id k data :
  chunk_tuple id k data t →
  (∀ id', id' ≠ id → rows_of (heap_insert r t) id' = rows_of r id' ∧ live_of (heap_insert r t) id' = live_of r id') ∧
  ∃ tid, rows_of (heap_insert r t) id ≡ₚ (tid, t) :: rows_of r id ∧
    live_of (heap_insert r t) id ≡ₚ (tid, t) :: live_of r id.
Proof.
  intros Ht. destruct (chunk_keys _ _ _ _ Ht) as [Hid _].
  destruct (heap_insert_rows r t) as (l1 & l2 & tid & E & E' & Hnew & Hold).
  assert (Hrow : ∀ id' row, row ∈ rows_of r id' →
    row_deleted (heap_insert r t) row.1 = false ↔ row_deleted r row.1 = false).
  { intros id' row [_ Hin]%list_elem_of_filter. rewrite Hold; [done|]. apply list_elem_of_fmap. by exists row. }
  assert (Hone : rows_of (heap_insert r t) id ≡ₚ (tid, t) :: rows_of r id).
  { unfold rows_of. rewrite E, E', !filter_app, filter_cons_True by (by rewrite scan_match_id).
    symmetry. apply Permutation_middle. }
  split.
  - intros id' Hne. assert (Hsame : rows_of (heap_insert r t) id' = rows_of r id').
    { unfold rows_of. rewrite E, E', !filter_app, filter_cons_False; [done|].
      rewrite scan_match_id. cbn [snd]. congruence. }
    split; [done|]. unfold live_of. rewrite Hsame. apply filter_ext_in, Hrow.
  - exists tid. split; [done|]. unfold live_of at 1. rewrite Hone, filter_cons_True by done.
    unfold live_of. by rewrite (filter_ext_in _ _ _ (Hrow id)).
Qed.

(** [r'] has the chunks from [k] on in addition to [r]. *)
Record grown (id : Z) (data : list Z) (k : Z) (r r' : R) : Prop := {
  gr_others id' : id' ≠ id → rows_of r' id' = rows_of r id' ∧ live_of r' id' = live_of r id';
  gr_rows : Forall (row_of id data) (rows_of r id) → Forall (row_of id data) (rows_of r' id);
  gr_seqs : row_seq <$> rows_of r' id ≡ₚ (row_seq <$> rows_of r id) ++ (Some <$> seqZ k (num_chunks data - k));
  gr_live : rows_of r id ≡ₚ live_of r id → rows_of r' id ≡ₚ live_of r' id;
  gr_length : Z.of_nat (length (heap_rows r')) = Z.of_nat (length (heap_rows r)) + (num_chunks data - k)
}.

Lemma grown_none id data k r : num_chunks data = k → grown id data k r r.
Proof.
  intros <-. split; try done; [|lia]. rewrite seqZ_nil by lia. by rewrite app_nil_r.
Qed.

Lemma grown_step id data k r r' t :
  0 ≤ k < num_chunks data → chunk_tuple id k (chunk_at data k) t →
  grown id data (k + 1) (heap_insert r t) r' → grown id data k r r'.
Proof.
  intros Hk Ht [G1 G2 G3 G4 G5]. destruct (rows_of_insert r t id k _ Ht) as [I1 (tid & I2 & I3)].
  destruct (chunk_keys _ _ _ _ Ht) as [_ Hseq]. split.
  - intros id' Hne. destruct (G1 id' Hne) as [-> ->]. by apply I1.
  - intros Hf. apply G2. rewrite I2. constructor; [by exists k|done].
  - rewrite G3, I2. cbn [fmap list_fmap]. change (row_seq (tid, t)) with (chunk_seq t). rewrite Hseq.
    rewrite (seqZ_cons k) by lia. cbn [fmap list_fmap].
    replace (Z.pred (num_chunks data - k)) with (num_chunks data - (k + 1)) by lia.
    change (Z.succ k) with (k + 1). apply Permutation_middle.
  - intros Hl. apply G4. rewrite I2, I3. by constructor.
  - destruct (heap_insert_rows r t) as (l1 & l2 & tid' & E & E' & _).
    rewrite G5, E', E, !length_app. cbn [length]. lia.
Qed.

Lemma save_loop_ok flatten palloc id data (n : nat) :
  (∀ n, 0 ≤ n → blen (palloc n) = n) → 0 ≤ id < 2 ^ 32 → blen data < 2 ^ 30 → ∀ k r rest buf,
  0 ≤ k ≤ num_chunks data → blen data - k * CH ≤ Z.of_nat n → blen buf = VARHDRSZ + CH →
  ∃ r', save_loop flatten palloc n r id k (drop (Z.to_nat (k * CH)) data ++ rest) (blen data - k * CH) buf
          = ok r' ∧ grown id data k r r'.
Proof.
  intros Hp Hid Hd. induction n as [|n IH]; intros k r rest buf Hk Hn Hb; cbn [save_loop];
    pose proof (num_chunks_lt data k ltac:(lia)) as Hlt;
    destruct (Z.ltb_spec 0 (blen data - k * CH)) as [Htodo|Htodo]; try lia.
  1, 3: exists r; split; [done|]; apply grown_none;
    pose proof (num_chunks_range data) as (_ & Hup & _); rewrite chunk_size_val in *; lia.
  pose proof (chunk_at_len data k ltac:(lia)) as Hcl. pose proof (chunk_at_pos data k ltac:(lia)) as Hcp.
  assert (Esz : Z.min CH (blen data - k * CH) = blen (chunk_at data k)) by (rewrite chunk_size_val in *; lia).
  rewrite Esz, chunk_at_read. cbn [lift_opt fmap option_fmap option_map res_bind].
  destruct (set_data buf (chunk_at data k)) as (more & Ew & Hw);
    [rewrite Hb; unfold VARHDRSZ; lia|rewrite chunk_size_val in *; lia|].
  unfold VARHDRSZ at 1. rewrite Ew. cbn [lift_opt fmap option_fmap option_map res_bind].
  destruct (form_chunk flatten palloc Hp id k (varlena (chunk_at data k) ++ more) (chunk_at data k)) as (t & Et & Ht);
    [done|rewrite chunk_size_val in *; lia|done|apply varlena_plain; rewrite chunk_size_val in *; lia|].
  rewrite Et. cbn [ok res_bind]. rewrite s32_id by (rewrite chunk_size_val in *; lia).
  destruct (decide (k + 1 < num_chunks data)) as [Hmore|Hlast].
  - assert (Hfull : blen (chunk_at data k) = CH)
      by (pose proof (proj1 (num_chunks_lt data (k + 1) ltac:(lia)) ltac:(lia)); rewrite chunk_size_val in *; lia).
    rewrite Hfull. assert (Ed : drop (Z.to_nat CH) (drop (Z.to_nat (k * CH)) data ++ rest) = drop (Z.to_nat ((k + 1) * CH)) data ++ rest).
    { rewrite drop_app_le by (rewrite length_drop; unfold blen in *; rewrite chunk_size_val in *; lia).
      rewrite drop_drop. do 2 f_equal. rewrite chunk_size_val. lia. }
    rewrite Ed. replace (blen data - k * CH - CH) with (blen data - (k + 1) * CH) by lia.
    destruct (IH (k + 1) (heap_insert r t) rest (varlena (chunk_at data k) ++ more)) as (r' & E & G);
      [lia|rewrite chunk_size_val in *; lia|by rewrite Hw|].
    exists r'. split; [exact E|]. apply (grown_step _ _ _ _ _ t); [lia|done|done].
  - pose proof (num_chunks_range data) as (_ & _ & Hup). assert (num_chunks data = k + 1) as En by lia.
    assert (Hz : blen data - k * CH - blen (chunk_at data k) = 0) by (rewrite chunk_size_val in *; lia).
    rewrite Hz. exists (heap_insert r t). split; [by destruct n|]. apply (grown_step _ _ _ _ _ t); [lia|done|].
    by apply grown_none.
Qed.

(** ** Deletion *)

(** A scan that gives a deleted version is an error for [simple_heap_delete]. *)
Lemma delete_rows_dead (rows : list (Z * HeapTuple)) : ∀ r,
  rows ⊆ heap_rows r → (∃ row, row ∈ rows ∧ row_deleted r row.1 = true) → delete_rows r rows = elog.
Proof.
  induction rows as [|[tid t] rows IH]; intros r Hsub (row & Hin & Hd); [set_solver|].
  cbn [delete_rows]. unfold simple_heap_delete. destruct (row_deleted r tid) eqn:Et; [done|].
  cbn [ok res_bind]. apply IH; [rewrite heap_delete_rows; set_solver|].
  apply elem_of_cons in Hin as [->|Hin]; [by cbn [fst] in Hd; rewrite Et in Hd|]. exists row. split; [done|].
  rewrite heap_delete_deleted, Hd, orb_true_r; [done|]. apply list_elem_of_fmap. exists row. set_solver.
Qed.

Lemma delete_rows_live (rows : list (Z * HeapTuple)) : ∀ r,
  rows ⊆ heap_rows r → NoDup rows.*1 → Forall (λ row, row_deleted r row.1 = false) rows →
  ∃ r', delete_rows r rows = ok r' ∧ heap_rows r' = heap_rows r ∧
    ∀ tid, tid ∈ (heap_rows r).*1 → row_deleted r' tid = bool_decide (tid ∈ rows.*1) || row_deleted r tid.
Proof.
  induction rows as [|[tid t] rows IH]; intros r Hsub Hnd Hl.
  { exists r. split; [done|]. split; [done|]. intros tid _. rewrite bool_decide_false; [done|set_solver]. }
  apply NoDup_cons in Hnd as [Hnin Hnd]. apply Forall_cons in Hl as [Ht Hl]. cbn [fst] in *.
  cbn [delete_rows]. unfold simple_heap_delete. rewrite Ht. cbn [ok res_bind].
  assert (Haddr : ∀ row, row ∈ rows → row.1 ∈ (heap_rows r).*1).
  { intros row Hin. apply list_elem_of_fmap. exists row. set_solver. }
  destruct (IH (heap_delete r tid)) as (r' & E & Hr & Hd).
  - rewrite heap_delete_rows. set_solver.
  - done.
  - rewrite Forall_forall in Hl |- *. intros row Hin. rewrite heap_delete_deleted by auto. rewrite (Hl row Hin).
    rewrite bool_decide_false; [done|]. intros <-. apply Hnin, list_elem_of_fmap. by exists row.
  - exists r'. rewrite heap_delete_rows in Hr, Hd. split; [done|]. split; [done|]. intros tid' Hin.
    rewrite Hd, heap_delete_deleted by done. cbn [fmap list_fmap fst].
    destruct (row_deleted r tid'); [by rewrite !orb_true_r|]. rewrite !orb_false_r.
    repeat case_bool_decide; set_solver.
Qed.

Lemma live_of_all (r : R) id : live_of r id = rows_of r id ↔ Forall (λ row, row_deleted r row.1 = false) (rows_of r id).
Proof.
  unfold live_of. split.
  - intros E. rewrite <- E. apply Forall_forall. by intros row [? _]%list_elem_of_filter.
  - intros H. apply filter_all. intros row Hin. by rewrite Forall_forall in H; apply H.
Qed.

(** Deleting a value marks its rows, all of which are live, and no others; no
    row goes away. *)
Lemma delete_value (r : R) id :
  live_of r id = rows_of r id →
  ∃ r', delete_rows r (index_scan r SnapshotToast id None) = ok r' ∧ heap_rows r' = heap_rows r ∧
    ∀ id', live_of r' id' = if bool_decide (id' = id) then [] else live_of r id'.
Proof.
  intros Hlive%live_of_all. pose proof (index_scan_rows r SnapshotToast id None) as Hi. cbn [snapshot_rows] in Hi.
  fold (rows_of r id) in Hi. pose proof (heap_rows_addresses r) as Hnd.
  destruct (delete_rows_live (index_scan r SnapshotToast id None) r) as (r' & E & Hr & Hd).
  - intros row Hin. rewrite Hi in Hin. by apply list_elem_of_filter in Hin as [_ ?].
  - rewrite Hi. eapply sublist_NoDup; [exact Hnd|]. apply fmap_sublist, sublist_filter.
  - by rewrite Hi.
  - exists r'. split; [done|]. split; [done|]. intros id'.
    assert (Hrows : rows_of r' id' = rows_of r id') by (unfold rows_of; by rewrite Hr).
    assert (Hdel : ∀ row, row ∈ rows_of r id' → row_deleted r' row.1 = bool_decide (id' = id) || row_deleted r row.1).
    { intros row Hin. pose proof Hin as [Hm%scan_match_id Hin']%list_elem_of_filter.
      rewrite Hd by (apply list_elem_of_fmap; by exists row). f_equal. apply bool_decide_ext. rewrite Hi. split.
      - intros (row' & Ea & [Hm'%scan_match_id Hin'']%list_elem_of_filter)%list_elem_of_fmap.
        assert (row' = row) as -> by (by eapply nodup_fst_inj). congruence.
      - intros ->. apply list_elem_of_fmap. by exists row. }
    unfold live_of. rewrite Hrows. case_bool_decide as Eid.
    + apply filter_none, Forall_forall. intros row Hin. by rewrite (Hdel row Hin).
    + apply filter_ext_in. intros row Hin. by rewrite (Hdel row Hin).
Qed.

Lemma delete_value_dead (r : R) id :
  live_of r id ≠ rows_of r id → delete_rows r (index_scan r SnapshotToast id None) = elog.
Proof.
  intros Hne. pose proof (index_scan_rows r SnapshotToast id None) as Hi. cbn [snapshot_rows] in Hi.
  fold (rows_of r id) in Hi. apply delete_rows_dead.
  - intros row Hin. rewrite Hi in Hin. by apply list_elem_of_filter in Hin as [_ ?].
  - destruct (decide (Exists (λ row, row_deleted r row.1 = true) (rows_of r id))) as [Hex|Hex].
    + apply Exists_exists in Hex as (row & Hin & Hd). exists row. by rewrite Hi.
    + destruct Hne. apply live_of_all. apply not_Exists_Forall in Hex; [|apply _].
      eapply Forall_impl; [exact Hex|]. intros row. cbn. by destruct (row_deleted r row.1).
Qed.

(** ** Fresh identifiers *)

Definition oid_cycle : Z := FirstExternalObjectId - FirstNormalObjectId.

(** The identifier that is given next, and the one [i] turns after [s]. *)
Definition norm_oid (o : Z) : Z :=
  if (o <? FirstNormalObjectId) || (FirstExternalObjectId <=? o) then FirstNormalObjectId else o.
Definition gen_oid (s i : Z) : Z := FirstNormalObjectId + (s + i) `mod` oid_cycle.

Lemma gen_oid_next s i : norm_oid (gen_oid s i + 1) = gen_oid s (i + 1).
Proof.
  unfold norm_oid, gen_oid. rewrite Z.add_assoc. set (x := s + i).
  unfold FirstExternalObjectId, FirstNormalObjectId, oid_cycle.
  change (FirstExternalObjectId - FirstNormalObjectId) with 4284465151.
  destruct (Z.ltb_spec (16384 + x `mod` 4284465151 + 1) 16384), (Z.leb_spec (4294967295 - 10485760) (16384 + x `mod` 4284465151 + 1));
    cbn [orb]; divlia.
Qed.

Lemma gen_oid_inj s i j : 0 ≤ i < oid_cycle → 0 ≤ j < oid_cycle → gen_oid s i = gen_oid s j → i = j.
Proof.
  unfold gen_oid. change oid_cycle with 4284465151. intros Hi Hj E. divlia.
Qed.

Lemma get_new_object_id (db : Db R) :
  0 ≤ nextOid db → ∃ count,
  GetNewObjectId true db =
    ok (norm_oid (nextOid db), mkDb (db_rels db) (db_history db) (norm_oid (nextOid db) + 1) count).
Proof.
  intros Hn. unfold GetNewObjectId, norm_oid. destruct (Z.ltb_spec (nextOid db) FirstNormalObjectId); cbn [orb];
    [|destruct (Z.leb_spec FirstExternalObjectId (nextOid db))]; eexists; rewrite u32_id; try done;
    unfold FirstExternalObjectId, FirstNormalObjectId in *; lia.
Qed.

(** The identifiers of live rows, and of deleted rows. *)
Definition used_ids (r : R) : list Z := omap (λ row, chunk_id row.2) (snapshot_rows r SnapshotDirty).
Definition dead_ids (r : R) : list Z :=
  omap (λ row, chunk_id row.2) (filter (λ row, row_deleted r row.1 = true) (heap_rows r)).

Lemma length_omap_le {A B} (f : A → option B) l : (length (omap f l) ≤ length l)%nat.
Proof. induction l as [|x l IH]; cbn; [done|]. destruct (f x); cbn; lia. Qed.

Lemma used_ids_le r : (length (used_ids r) ≤ length (heap_rows r))%nat.
Proof. unfold used_ids. etrans; [apply length_omap_le|]. apply length_filter. Qed.

Lemma used_live r id : id ∈ used_ids r ↔ live_of r id ≠ [].
Proof.
  unfold used_ids, live_of, rows_of. cbn [snapshot_rows]. rewrite list_elem_of_omap. split.
  - intros (row & [Hd Hin]%list_elem_of_filter & Hid) E.
    assert (H : row ∈ ([] : list (Z * HeapTuple))); [|set_solver]. rewrite <- E.
    apply list_elem_of_filter. split; [done|]. apply list_elem_of_filter. by rewrite scan_match_id.
  - intros Hne. destruct (filter _ (filter _ _)) as [|row rows] eqn:E; [done|].
    assert (Hin : row ∈ row :: rows) by set_solver. rewrite <- E in Hin.
    apply list_elem_of_filter in Hin as [Hd [Hm Hin]%list_elem_of_filter]. exists row.
    split; [by apply list_elem_of_filter|by apply scan_match_id].
Qed.

Lemma dead_live r id : id ∉ dead_ids r ↔ live_of r id = rows_of r id.
Proof.
  rewrite live_of_all, Forall_forall. unfold dead_ids, rows_of. rewrite list_elem_of_omap. split.
  - intros Hn row [Hm%scan_match_id Hin]%list_elem_of_filter. destruct (row_deleted r row.1) eqn:Hd; [|done].
    destruct Hn. exists row. split; [by apply list_elem_of_filter|done].
  - intros H (row & [Hd Hin]%list_elem_of_filter & Hid).
    rewrite (H row) in Hd; [done|]. apply list_elem_of_filter. by rewrite scan_match_id.
Qed.

Lemma scan_dirty r id : index_scan r SnapshotDirty id None ≡ₚ live_of r id.
Proof.
  rewrite index_scan_rows. cbn [snapshot_rows]. unfold live_of, rows_of. rewrite !list_filter_filter.
  rewrite (list_filter_iff _ (λ row, row_deleted r row.1 = false ∧ scan_match id None row = true)); [done|]. naive_solver.
Qed.

(** As many identifiers in use have as many rows. *)
Lemma passed_le r s i :
  (∀ j, (j < i)%nat → gen_oid s (Z.of_nat j) ∈ used_ids r) → Z.of_nat (length (heap_rows r)) < oid_cycle →
  (i ≤ length (heap_rows r))%nat.
Proof.
  intros Hused Hcyc. destruct (decide (i ≤ length (heap_rows r))%nat) as [|Hgt]; [done|]. exfalso.
  set (ids := (λ i, gen_oid s (Z.of_nat i)) <$> seq 0 (S (length (heap_rows r)))).
  assert (Hnd : NoDup ids).
  { apply NoDup_fmap_2_strong; [|apply NoDup_seq]. intros j1 j2 H1%elem_of_seq H2%elem_of_seq E.
    apply gen_oid_inj in E; lia. }
  assert (Hle : (length ids ≤ length (used_ids r))%nat).
  { apply submseteq_length, NoDup_submseteq; [done|]. intros x (j & -> & Hj%elem_of_seq)%list_elem_of_fmap.
    apply Hused. lia. }
  unfold ids in Hle. rewrite length_fmap, length_seq in Hle. pose proof (used_ids_le r). lia.
Qed.

(** Fewer rows than turns: an identifier that is not used is found. *)
Lemma new_oid_loop_ok (r : R) s n : ∀ k (db : Db R),
  norm_oid (nextOid db) = gen_oid s (Z.of_nat k) → 0 ≤ nextOid db →
  (∀ i, (i < k)%nat → gen_oid s (Z.of_nat i) ∈ used_ids r) →
  (length (heap_rows r) < k + n)%nat → Z.of_nat (length (heap_rows r)) < oid_cycle →
  ∃ i count, new_oid_loop true n r db =
      ok (gen_oid s (Z.of_nat i), mkDb (db_rels db) (db_history db) (gen_oid s (Z.of_nat i) + 1) count) ∧
    (∀ j, (j < i)%nat → gen_oid s (Z.of_nat j) ∈ used_ids r) ∧ live_of r (gen_oid s (Z.of_nat i)) = [].
Proof.
  induction n as [|n IH]; intros k db Ho Hn Hused Hlen Hcyc.
  - pose proof (passed_le r s k Hused Hcyc). lia.
  - cbn [new_oid_loop]. unfold mthen. destruct (get_new_object_id db Hn) as (count & E). rewrite E. cbn [ok res_bind].
    rewrite Ho. pose proof (scan_dirty r (gen_oid s (Z.of_nat k))) as Hs.
    destruct (index_scan r SnapshotDirty (gen_oid s (Z.of_nat k)) None) as [|row rows] eqn:Es.
    + exists k, count. split; [done|]. split; [done|]. by apply Permutation_nil_l in Hs.
    + set (db1 := mkDb _ _ _ _).
      destruct (IH (S k) db1) as (i & c & E' & Hf); [| | |lia|lia|].
      * unfold db1. cbn [nextOid]. rewrite gen_oid_next. f_equal. lia.
      * unfold db1. cbn [nextOid]. unfold gen_oid, FirstNormalObjectId.
        pose proof (Z.mod_pos_bound (s + Z.of_nat k) oid_cycle ltac:(done)). lia.
      * intros i Hi. destruct (decide (i = k)) as [->|]; [|apply Hused; lia]. apply used_live.
        intros E0. rewrite E0 in Hs. by apply Permutation_nil_r in Hs.
      * by exists i, c.
Qed.

(** The counter has passed [k] identifiers from [s] on, all in use now, and
    comes to no identifier of a deleted row while [room] rows are added. *)
Record window (s room : Z) (r : R) (next : Z) : Prop := {
  win_next : 0 ≤ next;
  win_rows : Z.of_nat (length (heap_rows r)) + room < oid_cycle;
  win_passed : ∃ k, norm_oid next = gen_oid s (Z.of_nat k) ∧
    ∀ i, (i < k)%nat → gen_oid s (Z.of_nat i) ∈ used_ids r;
  win_dead i : 0 ≤ i ≤ Z.of_nat (length (heap_rows r)) + room → gen_oid s i ∉ dead_ids r
}.

(** A new identifier has no rows, not even deleted ones. *)
Lemma new_oid_ok (r : R) (db : Db R) s room :
  window s room r (nextOid db) → 0 ≤ room →
  ∃ i count, let id := gen_oid s (Z.of_nat i) in
    GetNewOidWithIndex true r db = ok (id, mkDb (db_rels db) (db_history db) (id + 1) count) ∧
    FirstNormalObjectId ≤ id < FirstExternalObjectId ∧ rows_of r id = [] ∧
    ∀ j, (j < i)%nat → gen_oid s (Z.of_nat j) ∈ used_ids r.
Proof.
  intros [Hn Hr (k & Ho & Hk) Hd] Hroom. unfold GetNewOidWithIndex.
  destruct (new_oid_loop_ok r s (S (length (heap_rows r))) k db) as (i & count & E & Hused & Hf); [done|done|done|lia|lia|].
  exists i, count. split; [done|]. split; [|split; [|done]].
  - unfold gen_oid. pose proof (Z.mod_pos_bound (s + Z.of_nat i) oid_cycle ltac:(done)). unfold oid_cycle in *. lia.
  - pose proof (passed_le r s i Hused ltac:(lia)). rewrite <- Hf. symmetry. apply dead_live, Hd. lia.
Qed.

(** Storing the chunks of a value under the new identifier. *)
Lemma window_grown s room r r' next i data :
  let id := gen_oid s (Z.of_nat i) in
  window s room r next → rows_of r id = [] → (∀ j, (j < i)%nat → gen_oid s (Z.of_nat j) ∈ used_ids r) →
  grown id data 0 r r' → 0 < num_chunks data → window s (room - num_chunks data) r' (id + 1).
Proof.
  intros id [Hn Hr _ Hd] Hrows Hused [G1 G2 G3 G4 G5] Hpos.
  assert (Hlive : rows_of r' id ≡ₚ live_of r' id) by (apply G4; unfold live_of; by rewrite Hrows).
  assert (Hnew : id ∈ used_ids r').
  { apply used_live. intros E. rewrite E in Hlive. apply Permutation_nil_r in Hlive. rewrite Hlive, Hrows in G3.
    rewrite seqZ_cons in G3 by lia. by apply Permutation_nil_l in G3. }
  assert (Hid : 0 ≤ id).
  { unfold id, gen_oid, FirstNormalObjectId. pose proof (Z.mod_pos_bound (s + Z.of_nat i) oid_cycle ltac:(done)). lia. }
  split; [lia|lia| |].
  - exists (S i). split; [unfold id; rewrite gen_oid_next; f_equal; lia|]. intros j Hj.
    destruct (decide (gen_oid s (Z.of_nat j) = id)) as [->|Hne]; [done|].
    assert (j < i)%nat by (destruct (decide (j = i)) as [->|]; [done|lia]).
    apply used_live. rewrite (proj2 (G1 _ Hne)). by apply used_live, Hused.
  - intros j Hj. apply dead_live. destruct (decide (gen_oid s j = id)) as [->|Hne].
    + unfold live_of in Hlive |- *. apply filter_perm_id. by symmetry.
    + destruct (G1 _ Hne) as [-> ->]. apply dead_live, Hd. lia.
Qed.
End Rel.
