(* ===== verification/ToastValue.v ===== *)
(** Values and what they stand for, wherever their bytes are: in the value
    itself, compressed, or in the chunks of a toast relation.  Each operation
    on values is specified by what the values it takes and returns stand for,
    and by what it leaves of the toast relations. *)
From Stdlib Require Import Ascii.
From stdpp Require Import prelude functions numbers list gmap sorting.
From S2P Require Import Prelude Varlena PgLz PgLzSpec PgLzRound HeapTuple HeapTupleForm HeapTupleRead HeapTupleSpec.
From S2P Require Import Toast ToastRows.

Local Open Scope Z_scope.

Local Abbreviation CH := TOAST_MAX_CHUNK_SIZE.
Local Abbreviation atts := (attrs toast_desc).

(** ** Computations that return *)

Definition runs {R A} (m : M R A) (db : Db R) (Q : A → Db R → Prop) : Prop :=
  ∃ a db', m db = ok (a, db') ∧ Q a db'.

Lemma runs_ret {R A} (a : A) (db : Db R) Q : Q a db → runs (mret a) db Q.
Proof. intros HQ. by exists a, db. Qed.

Lemma runs_bind {R A B} (m : M R A) (f : A → M R B) db Q :
  runs m db (λ a db', runs (f a) db' Q) → runs (mthen m f) db Q.
Proof.
  intros (a & db' & E & b & db'' & E' & HQ). exists b, db''. unfold mthen. rewrite E. by split.
Qed.

Lemma runs_bind_ok {R A B} (x : res A) (f : A → M R B) a db Q :
  x = ok a → runs (f a) db Q → runs (mthen (mlift x) f) db Q.
Proof. intros -> H. apply runs_bind. by exists a, db. Qed.

Lemma runs_bind_opt {R A B} (x : option A) (f : A → M R B) a db Q :
  x = Some a → runs (f a) db Q → runs (mthen (mlift (lift_opt x)) f) db Q.
Proof. intros -> H. by apply (runs_bind_ok _ _ a). Qed.

Lemma runs_bind_ret {R A B} (f : A → M R B) a db Q : runs (f a) db Q → runs (mthen (mret a) f) db Q.
Proof. intros H. apply runs_bind. by apply runs_ret. Qed.

Lemma runs_lift {R A} (x : res A) (a : A) (db : Db R) Q : x = ok a → Q a db → runs (mlift x) db Q.
Proof. intros -> HQ. by exists a, db. Qed.

Lemma runs_mono {R A} (m : M R A) (db : Db R) (Q Q' : A → Db R → Prop) :
  runs m db Q → (∀ a db', Q a db' → Q' a db') → runs m db Q'.
Proof. intros (a & db' & E & HQ) H. exists a, db'. split; [done|by apply H]. Qed.

(** ** Values in memory *)

(** The value [p] is a compressed form of [data]. *)
Record compressed_data (p data : list Z) : Prop := {
  cd_ok : varlena_ok p;
  cd_flag : VARATT_IS_COMPRESSED p = true;
  cd_size : 8 ≤ VARSIZE p;
  cd_saves : VARSIZE p - VARHDRSZ < blen data;
  cd_raw : PGLZ_RAW_SIZE p = blen data;
  cd_dec b out : copy_of b p → blen out = blen data → pglz_decompress b out = Val (Return data)
}.

(** Data that can be allocated, compressed or not. *)
Definition fits (data : list Z) : Prop := Forall is_byte data ∧ PGLZ_MAX_OUTPUT (blen data) < MaxAllocSize.

Lemma fits_len data : fits data → 0 ≤ blen data < 2 ^ 30 - 13.
Proof.
  intros [_ H]. pose proof (blen_nonneg data). unfold PGLZ_MAX_OUTPUT, MaxAllocSize, sizeof_PGLZ_Header in H. lia.
Qed.

(** The value [p] stands for [data], whose bytes are in [p]. *)
Definition inline_value (p data : list Z) : Prop :=
  fits data ∧
  (varlena_ok p ∧ VARATT_IS_EXTERNAL p = false ∧ VARATT_IS_COMPRESSED p = false ∧ payload p = data ∨
   compressed_data p data).

Lemma compressed_flags p :
  is_byte (va_header p) → VARATT_IS_COMPRESSED p = true →
  VARATT_IS_EXTERNAL p = false ∧ VARATT_IS_SHORT p = false.
Proof.
  intros Hh Hc. destruct (header_cases p Hh) as (_ & EC & _ & E1 & _).
  unfold VARATT_IS_COMPRESSED, VARATT_IS_EXTERNAL, VARATT_IS_SHORT, VARATT_IS_1B_E in *. rewrite Hc in EC. symmetry in EC.
  apply bool_decide_eq_true in EC. rewrite E1. split; [lia|]. by rewrite bool_decide_false by lia.
Qed.

Lemma inline_external p data : inline_value p data → VARATT_IS_EXTERNAL p = false.
Proof.
  intros [_ [(_ & ? & _)|Hc]]; [done|]. apply compressed_flags; [apply Hc|apply Hc].
Qed.

Lemma inline_ok p data : inline_value p data → varlena_ok p.
Proof. intros [_ [(? & _)|Hc]]; [done|apply Hc]. Qed.

(** How large a value is. *)
Lemma plain_lengths p :
  varlena_ok p → VARATT_IS_EXTERNAL p = false →
  blen (payload p) = VARSIZE_ANY_EXHDR p ∧ blen (payload p) < VARSIZE_ANY p ≤ blen (payload p) + 4 ∧
  (VARATT_IS_SHORT p = false → VARSIZE p = blen (payload p) + 4) ∧
  (VARATT_IS_SHORT p = true → VARSIZE_SHORT p = blen (payload p) + 1).
Proof.
  intros Hp HE. unfold payload, VARSIZE_ANY_EXHDR, VARSIZE_ANY, VARDATA_ANY, VARATT_IS_SHORT, VARATT_IS_EXTERNAL in *.
  rewrite HE. destruct (varlena_cases p Hp) as [_ [(? & _)|[(_ & Hs & _ & Hr)|(_ & Hs & _ & Hr)]]];
    [unfold VARATT_IS_EXTERNAL in *; congruence|..]; unfold VARATT_IS_SHORT in Hs; rewrite Hs.
  - assert (E : blen (take (Z.to_nat (VARSIZE_SHORT p - VARHDRSZ_SHORT)) (VARDATA_SHORT p)) = VARSIZE_SHORT p - 1).
    { apply blen_take. unfold VARHDRSZ_SHORT, VARDATA_SHORT, blen in *. rewrite length_drop. unfold VARHDRSZ_SHORT. lia. }
    rewrite E. unfold VARHDRSZ_SHORT. split_and!; [done|lia|lia|done|lia].
  - assert (E : blen (take (Z.to_nat (VARSIZE p - VARHDRSZ)) (VARDATA p)) = VARSIZE p - 4).
    { apply blen_take. unfold VARHDRSZ, VARDATA, blen in *. rewrite length_drop. unfold VARHDRSZ. lia. }
    rewrite E. unfold VARHDRSZ. split_and!; [done|lia|lia|lia|done].
Qed.

Lemma compressed_any p data :
  compressed_data p data → VARSIZE_ANY p = VARSIZE p ∧ VARSIZE p ≤ blen p.
Proof.
  intros Hc. destruct (compressed_flags p) as [HE H1]; [apply Hc..|].
  destruct (varlena_4b p (cd_ok _ _ Hc) H1) as [? ?]. split; [done|lia].
Qed.

Lemma inline_size p data : inline_value p data → 0 < VARSIZE_ANY p ≤ blen data + 4.
Proof.
  intros [_ [(Hp & HE & _ & <-)|Hc]].
  - destruct (plain_lengths p Hp HE) as (_ & ? & _). pose proof (blen_nonneg (payload p)). lia.
  - destruct (compressed_any _ _ Hc) as [-> _]. destruct Hc. unfold VARHDRSZ in *. lia.
Qed.

(** A value that another one is a copy of stands for the same. *)
Lemma inline_same p q data :
  same_varlena p q → varlena_ok q → inline_value p data → inline_value q data.
Proof.
  intros (SE & SC & Sc) Hq [Hd Hp]. split; [done|]. destruct Hp as [(Hp & HE & HC & Hpay)|Hc].
  - left. rewrite SE, SC, HE, HC. unfold content in Sc. rewrite SE, SC, HE, HC in Sc. cbn [orb] in Sc.
    by rewrite Sc.
  - right. destruct (compressed_flags p) as [HE H1]; [apply Hc..|].
    pose proof (cd_flag _ _ Hc) as HC. rewrite HC in SC. rewrite HE in SE.
    destruct (compressed_flags q) as [_ H1q]; [apply Hq|done|].
    destruct (varlena_4b p (cd_ok _ _ Hc) H1) as [Ep Hsp]. destruct (varlena_4b q Hq H1q) as [Eq Hsq].
    unfold content in Sc. rewrite SE, SC, HE, HC in Sc. cbn [orb] in Sc. rewrite Ep, Eq in Sc.
    assert (Es : VARSIZE q = VARSIZE p).
    { apply (f_equal blen) in Sc. rewrite !blen_take in Sc by lia. done. }
    assert (Hcopy : copy_of q p).
    { split; [done|]. unfold VARDATA, VARHDRSZ. change (Z.to_nat 4) with 4%nat.
      apply (f_equal (drop 4)) in Sc. rewrite !skipn_firstn_comm in Sc.
      rewrite Es in Sc. replace (Z.to_nat (VARSIZE p - 4)) with (Z.to_nat (VARSIZE p) - 4)%nat by lia. done. }
    split; [done|done|rewrite Es; apply Hc|rewrite Es; apply Hc| |].
    + destruct (copy_reads q p) as [-> _]; [apply Hc|done|apply Hc].
    + intros b out Hb. apply Hc. destruct Hb as [B1 B2]. destruct Hcopy as [C1 C2].
      split; [congruence|]. rewrite C1 in B2. by rewrite B2.
Qed.

(** ** Fetched values *)

(** What is fetched: the bytes of the chunks after a header. *)
Definition image (compressed : bool) (bytes : list Z) : list Z :=
  if compressed then VARATT_SET_COMPRESSED (varlena bytes) else varlena bytes.

Definition image_head (compressed : bool) (n : Z) : list Z :=
  let w := reverse (Z_to_little_endian 4 8 n) in
  if compressed then <[0%nat := Z.lor (va_header w) 0x40]> w else w.

Lemma image_head_length c n : length (image_head c n) = 4%nat.
Proof.
  unfold image_head. destruct c; rewrite ?length_insert, length_reverse, length_le_bytes; done.
Qed.

Lemma image_app c bytes : image c bytes = image_head c (blen bytes + 4) ++ bytes.
Proof.
  unfold image, image_head, VARATT_SET_COMPRESSED, varlena, VARHDRSZ. destruct c; [|done].
  set (w := reverse _). assert (Hw : length w = 4%nat) by (unfold w; by rewrite length_reverse, length_le_bytes).
  rewrite va_header_app by (by destruct w). rewrite insert_app_l by (rewrite Hw; lia). done.
Qed.

Lemma header_set (c : bool) buf n :
  blen buf = n → 4 ≤ n < 2 ^ 30 →
  (if c then VARATT_SET_COMPRESSED (SET_VARSIZE buf n) else SET_VARSIZE buf n) =
    image_head c n ++ drop 4 buf.
Proof.
  intros Hb Hn. rewrite take_set_varsize by lia. unfold image_head, VARATT_SET_COMPRESSED. destruct c; [|done].
  set (w := reverse _). assert (Hw : length w = 4%nat) by (unfold w; by rewrite length_reverse, length_le_bytes).
  rewrite va_header_app by (by destruct w). by rewrite insert_app_l by (rewrite Hw; lia).
Qed.

Lemma blen_image c bytes : blen (image c bytes) = blen bytes + 4.
Proof. rewrite image_app, blen_app. unfold blen at 1. rewrite image_head_length. lia. Qed.

Lemma image_compressed bytes :
  blen bytes + 4 < 2 ^ 30 →
  varlena_ok (image true bytes) ∧ VARATT_IS_COMPRESSED (image true bytes) = true ∧
  VARSIZE (image true bytes) = blen bytes + 4 ∧ VARDATA (image true bytes) = bytes.
Proof.
  intros Hb. pose proof (blen_nonneg bytes). set (b := replicate 4 0 ++ bytes).
  assert (Hlb : blen b = blen bytes + 4) by (unfold b; rewrite blen_app; change (blen (replicate 4 0)) with 4; lia).
  destruct (set_varsize_c_spec b (blen bytes + 4)) as (Hh & Hs & HC & H1 & HE & Hd & _ & ES); [lia..|].
  assert (E : image true bytes = SET_VARSIZE_COMPRESSED b (blen bytes + 4)).
  { rewrite <- ES. pose proof (header_set true b (blen bytes + 4) Hlb ltac:(lia)) as Eh. cbv iota in Eh.
    rewrite Eh, image_app. done. }
  rewrite <- E in *. split; [|by split_and!]. split; [done|].
  pose proof (blen_image true bytes) as Hl. split; [intros E0; rewrite E0, blen_nil in Hl; lia|].
  unfold VARSIZE_ANY, VARHDRSZ. rewrite HE, H1, Hs, Hl. lia.
Qed.

(** What the fetched bytes of a value are, as a value. *)
Lemma image_inline p data :
  inline_value p data → VARATT_IS_COMPRESSED p = true →
  let bytes := take (Z.to_nat (VARSIZE p - VARHDRSZ)) (VARDATA p) in
  inline_value (image true bytes) data ∧ blen bytes = VARSIZE p - VARHDRSZ.
Proof.
  intros [Hd [(_ & _ & ? & _)|Hc]] HC bytes; [congruence|]. destruct (compressed_any _ _ Hc) as [_ Hle].
  assert (Hb : blen bytes = VARSIZE p - VARHDRSZ).
  { destruct Hc. apply blen_take. unfold VARDATA, VARHDRSZ, blen in *. rewrite length_drop. unfold VARHDRSZ. lia. }
  split; [|done]. pose proof (VARSIZE_range p). unfold VARHDRSZ in *.
  destruct (image_compressed bytes) as (Hok & HC' & Hs & HD); [lia|].
  assert (Hcopy : copy_of (image true bytes) p).
  { split; [lia|]. rewrite HD. unfold bytes, VARHDRSZ. by rewrite take_take, Nat.min_id. }
  split; [done|]. right. destruct Hc as [C1 C2 C3 C4 C5 C6]. unfold VARHDRSZ in *.
  split; [done|done|lia|unfold VARHDRSZ; lia| |].
  - destruct (copy_reads (image true bytes) p) as [-> _]; [done|done|done].
  - intros b out Hb' Hout. apply C6; [|done]. destruct Hb' as [B1 B2]. destruct Hcopy as [Q1 Q2].
    split; [congruence|]. rewrite Q1 in B2. by rewrite B2.
Qed.

Lemma image_plain data :
  fits data → inline_value (image false data) data.
Proof.
  intros Hd. split; [done|]. left. pose proof (fits_len data Hd). pose proof (varlena_plain data []) as Hp. rewrite app_nil_r in Hp.
  destruct Hp; [lia|]. by split_and!.
Qed.

(** ** Values outside *)

Section Values.
Context {R : Type} `{!ToastAM R, !ToastAMLaws R}.
Implicit Types (db : Db R) (p q data bytes : list Z).

(** [p] is a pointer to [bytes] under [id] in the relation [relid]. *)
Record pointer_to (p : list Z) (rawsize extsize id relid : Z) : Prop := {
  pt_ok : varlena_ok p;
  pt_external : VARATT_IS_EXTERNAL p = true;
  pt_rawsize : va_rawsize p = Some rawsize;
  pt_extsize : va_extsize p = Some extsize;
  pt_valueid : va_valueid p = Some id;
  pt_toastrelid : va_toastrelid p = Some relid
}.

Definition external_value db p data : Prop :=
  ∃ bytes id relid rel,
    pointer_to p (blen data + VARHDRSZ) (blen bytes) id relid ∧
    db_rels db !! relid = Some rel ∧ stored (tr_heap rel) id bytes ∧ 0 < blen bytes ≤ blen data ∧
    inline_value (image (negb (blen bytes =? blen data)) bytes) data.

(** The value [p] stands for [data]. *)
Definition value db p data : Prop := inline_value p data ∨ external_value db p data.

(** The rows of the value that a pointer names have not been deleted. *)
Definition live db (ri : Z * Z) : Prop :=
  ∃ rel, db_rels db !! ri.1 = Some rel ∧ rows_of (tr_heap rel) ri.2 ≠ [] ∧
    live_of (tr_heap rel) ri.2 = rows_of (tr_heap rel) ri.2.

(** The relations keep the rows of all values, and those that are not [gone]
    have not been deleted since. *)
Definition kept (gone : Z → Z → Prop) (db db' : Db R) : Prop :=
  ∀ relid rel, db_rels db !! relid = Some rel → ∃ rel', db_rels db' !! relid = Some rel' ∧
    ∀ id, rows_of (tr_heap rel) id ≠ [] →
      rows_of (tr_heap rel') id = rows_of (tr_heap rel) id ∧
      (¬ gone relid id → live_of (tr_heap rel') id = live_of (tr_heap rel) id).

Definition extends : Db R → Db R → Prop := kept (λ _ _, False).

Lemma kept_trans gone db1 db2 db3 : kept gone db1 db2 → kept gone db2 db3 → kept gone db1 db3.
Proof.
  intros H1 H2 relid rel E. destruct (H1 relid rel E) as (rel2 & E2 & K2).
  destruct (H2 relid rel2 E2) as (rel3 & E3 & K3). exists rel3. split; [done|].
  intros id Hne. destruct (K2 id Hne) as [R2 L2]. rewrite <- R2 in Hne. destruct (K3 id Hne) as [R3 L3].
  split; [congruence|]. intros Hg. by rewrite L3, L2.
Qed.

Lemma kept_weaken gone gone' db db' :
  (∀ relid id, gone relid id → gone' relid id) → kept gone db db' → kept gone' db db'.
Proof.
  intros Hg H relid rel E. destruct (H relid rel E) as (rel' & E' & K). exists rel'. split; [done|].
  intros id Hne. destruct (K id Hne). split; [done|]. eauto.
Qed.

#[export] Instance extends_preorder : PreOrder extends.
Proof. split; [|intros ???; apply kept_trans]. intros db relid rel E. by exists rel. Qed.

Lemma stored_rows (r : R) id bytes : stored r id bytes → 0 < blen bytes → rows_of r id ≠ [].
Proof.
  intros Hs Hb E. pose proof (stored_length r id bytes Hs) as Hl. rewrite E in Hl. cbn in Hl.
  pose proof (num_chunks_range bytes). rewrite chunk_size_val in *. lia.
Qed.

Lemma stored_same (r r' : R) id bytes : rows_of r' id = rows_of r id → stored r id bytes → stored r' id bytes.
Proof. unfold stored. by intros ->. Qed.

Lemma external_kept gone db db' p data :
  kept gone db db' → external_value db p data → external_value db' p data.
Proof.
  intros Hk (bytes & id & relid & rel & Hp & Hrel & Hst & Hb & Hi).
  destruct (Hk relid rel Hrel) as (rel' & Hrel' & K). exists bytes, id, relid, rel'.
  split; [done|]. split; [done|]. split; [|done]. eapply stored_same; [|exact Hst].
  apply K. eapply stored_rows; [done|lia].
Qed.

Lemma value_kept gone db db' p data : kept gone db db' → value db p data → value db' p data.
Proof. intros Hk [?|He]; [by left|]. right. by eapply external_kept. Qed.

Lemma value_extends db db' p data : extends db db' → value db p data → value db' p data.
Proof. apply value_kept. Qed.

Lemma live_kept gone db db' ri : kept gone db db' → ¬ gone ri.1 ri.2 → live db ri → live db' ri.
Proof.
  intros Hk Hg (rel & E & Hne & Hl). destruct (Hk _ _ E) as (rel' & E' & K). exists rel'.
  destruct (K _ Hne) as [-> L]. by rewrite L.
Qed.

Lemma live_extends db db' ri : extends db db' → live db ri → live db' ri.
Proof. intros Hx. apply (live_kept _ _ _ _ Hx). by intros []. Qed.

(** Nothing is changed but cached offsets and the history of the compressor. *)
Definition steady (db db' : Db R) : Prop :=
  nextOid db' = nextOid db ∧
  ∀ relid rel, db_rels db !! relid = Some rel → ∃ rel', db_rels db' !! relid = Some rel' ∧ tr_heap rel' = tr_heap rel.

#[export] Instance steady_preorder : PreOrder steady.
Proof.
  split; [intros db; split; [done|]; eauto|]. intros db1 db2 db3 [N1 H1] [N2 H2]. split; [congruence|].
  intros relid rel E. destruct (H1 _ _ E) as (rel2 & E2 & ?). destruct (H2 _ _ E2) as (rel3 & E3 & ?).
  exists rel3. split; [done|congruence].
Qed.

Lemma steady_extends db db' : steady db db' → extends db db'.
Proof.
  intros [_ H] relid rel E. destruct (H relid rel E) as (rel' & E' & Eh). exists rel'. by rewrite Eh.
Qed.

(** Copying a pointer. *)
Lemma va_word_same p q off :
  take 20 q = take 20 p → 20 ≤ blen p → 20 ≤ blen q → 0 ≤ off → off + 4 ≤ 20 → va_word off q = va_word off p.
Proof.
  intros E Hp Hq Ho Hl. unfold va_word. rewrite !(proj2 (Z.leb_le _ _)) by lia. f_equal. unfold rd. f_equal.
  apply list_eq. intros i. destruct (decide (Z.of_nat i < 4)).
  - rewrite !slice_lookup by lia. rewrite <- (lookup_take_lt q 20), E, lookup_take_lt by lia. done.
  - rewrite !lookup_ge_None_2; [done| |]; unfold slice; rewrite length_take; lia.
Qed.

Lemma pointer_same p q a b c d :
  same_varlena p q → varlena_ok q → pointer_to p a b c d → pointer_to q a b c d.
Proof.
  intros (SE & _ & Sc) Hq [Hp HE H1 H2 H3 H4]. rewrite HE in SE.
  assert (Hsz : ∀ x, varlena_ok x → VARATT_IS_EXTERNAL x = true → VARSIZE_ANY x = 20 ∧ 20 ≤ blen x).
  { intros x Hx Hxe. destruct (varlena_cases x Hx) as [_ [(_ & _ & ? & ?)|[(? & _)|(? & _)]]]; [done|congruence..]. }
  destruct (Hsz p Hp HE) as [Sp Lp]. destruct (Hsz q Hq SE) as [Sq Lq].
  unfold content in Sc. rewrite SE, HE, Sp, Sq in Sc. cbn [orb] in Sc.
  unfold va_rawsize, va_extsize, va_valueid, va_toastrelid in *.
  by split; [done|done|..]; unfold va_rawsize, va_extsize, va_valueid, va_toastrelid; rewrite (va_word_same p q) by (done || lia).
Qed.

Lemma value_same db p q data : same_varlena p q → varlena_ok q → value db p data → value db q data.
Proof.
  intros Hs Hq [Hi|(bytes & id & relid & rel & Hp & H)]; [left; by eapply inline_same|].
  right. exists bytes, id, relid, rel. split; [by eapply pointer_same|done].
Qed.
End Values.

(** ** Operations on values *)

Definition put_rel {R} (db : Db R) (relid : Z) (rel : ToastRel R) : Db R :=
  mkDb (<[relid := rel]> (db_rels db)) (db_history db) (nextOid db) (oidCount db).

Section Ops.
Context {R : Type} `{!ToastAM R, !ToastAMLaws R}.
Context (flatten : list Z → Z → Z → res (list Z)) (palloc : Z → list Z).
Context (palloc_len : ∀ n, 0 ≤ n → blen (palloc n) = n).
Implicit Types (db : Db R) (p q data bytes : list Z).

(** The cached offsets are right. *)
Definition db_ok db : Prop :=
  ∀ relid rel, db_rels db !! relid = Some rel → cache_ok atts (tr_cache rel).

(** There are identifiers for [room] more rows of the relation: it has fewer
    rows than there are identifiers, and none of the next ones, as many as
    there are rows then, is that of a deleted row. *)
Definition id_space (relid room : Z) db : Prop :=
  0 ≤ relid < 2 ^ 32 ∧ 0 ≤ nextOid db ∧ ∃ rel, db_rels db !! relid = Some rel ∧
    let n := Z.of_nat (length (heap_rows (tr_heap rel))) + room in
    n < oid_cycle ∧
    ∀ i, 0 ≤ i ≤ n → gen_oid (norm_oid (nextOid db) - FirstNormalObjectId) i ∉ dead_ids (tr_heap rel).

Lemma id_space_le relid room room' db : room' ≤ room → id_space relid room db → id_space relid room' db.
Proof.
  intros Hle (Hr & Hn & rel & E & Hlt & Hd). split; [done|]. split; [done|]. exists rel. split; [done|]. split; [lia|].
  intros i Hi. apply Hd. lia.
Qed.

(** The same, while values are stored. *)
Definition home (relid s room : Z) db : Prop :=
  0 ≤ relid < 2 ^ 32 ∧ ∃ rel, db_rels db !! relid = Some rel ∧ window s room (tr_heap rel) (nextOid db).

Lemma id_space_home relid room db :
  id_space relid room db → home relid (norm_oid (nextOid db) - FirstNormalObjectId) room db.
Proof.
  intros (Hr & Hn & rel & E & Hlt & Hd). split; [done|]. exists rel. split; [done|]. split; [done|done| |done].
  exists 0%nat. split; [|lia].
  assert (Hnorm : FirstNormalObjectId ≤ norm_oid (nextOid db) < FirstExternalObjectId).
  { unfold norm_oid. destruct (Z.ltb_spec (nextOid db) FirstNormalObjectId); cbn [orb]; [done|].
    destruct (Z.leb_spec FirstExternalObjectId (nextOid db)); [done|lia]. }
  unfold gen_oid. rewrite Z.add_0_r, Z.mod_small; [lia|]. unfold oid_cycle. lia.
Qed.

Lemma home_steady relid s room db db' : steady db db' → home relid s room db → home relid s room db'.
Proof.
  intros [Hn H] (Hr & rel & E & Hw). split; [done|]. destruct (H _ _ E) as (rel' & E' & Eh). exists rel'.
  by rewrite Eh, Hn.
Qed.

Lemma home_le relid s room room' db : room' ≤ room → home relid s room db → home relid s room' db.
Proof.
  intros Hle (Hr & rel & E & [W1 W2 W3 W4]). split; [done|]. exists rel. split; [done|]. split; [done|lia|done|].
  intros i Hi. apply W4. lia.
Qed.

Lemma alloc_ok n : 0 ≤ n < MaxAllocSize → alloc palloc n = ok (palloc n).
Proof.
  intros Hn. unfold alloc. by rewrite (proj2 (Z.leb_le _ _)), (proj2 (Z.ltb_lt _ _)) by lia.
Qed.

Lemma pointer_compressed p rawsize extsize id relid :
  pointer_to p rawsize extsize id relid → 0 ≤ rawsize - 4 < 2 ^ 30 →
  VARATT_EXTERNAL_IS_COMPRESSED p = Some (negb (extsize =? rawsize - 4)).
Proof.
  intros Hp Hr. unfold VARATT_EXTERNAL_IS_COMPRESSED. rewrite (pt_extsize _ _ _ _ _ Hp), (pt_rawsize _ _ _ _ _ Hp).
  cbn [mbind option_bind]. unfold VARHDRSZ. by rewrite s32_id by lia.
Qed.

(** Fetching, from a scan that gives any rows of the value: what the chunks
    hold when they come all and in order, otherwise an error. *)
Lemma fetch_scan execute db p rawsize bytes id relid rel :
  pointer_to p rawsize (blen bytes) id relid → 0 ≤ rawsize - 4 < 2 ^ 30 →
  0 < blen bytes → blen bytes + VARHDRSZ < MaxAllocSize →
  db_rels db !! relid = Some rel → cache_ok atts (tr_cache rel) →
  let rows := systable_scan execute (tr_heap rel) id in
  Forall (row_of id bytes) rows →
  (row_seq <$> rows = Some <$> seqZ 0 (num_chunks bytes) → ∃ cache,
     toast_fetch_datum execute palloc p db =
       ok (image (negb (blen bytes =? rawsize - 4)) bytes, put_rel db relid (mkToastRel (tr_heap rel) cache)) ∧
     cache_ok atts cache) ∧
  (row_seq <$> rows ≠ Some <$> seqZ 0 (num_chunks bytes) → toast_fetch_datum execute palloc p db = elog).
Proof.
  intros Hp Hr Hb Hmax Hrel Hc rows Hrows. set (c := negb (blen bytes =? rawsize - 4)).
  unfold VARHDRSZ, MaxAllocSize in Hmax.
  set (buf := (if c then VARATT_SET_COMPRESSED (SET_VARSIZE (palloc (blen bytes + 4)) (blen bytes + 4))
               else SET_VARSIZE (palloc (blen bytes + 4)) (blen bytes + 4))).
  assert (Hpl : blen (palloc (blen bytes + 4)) = blen bytes + 4) by (apply palloc_len; lia).
  assert (E : toast_fetch_datum execute palloc p db =
    let+ (result, nextidx, cache) :=
      fetch_loop rows (blen bytes) (num_chunks bytes) buf 0 (tr_cache rel) in
    if negb (nextidx =? num_chunks bytes) then elog
    else ok (result, put_rel db relid (mkToastRel (tr_heap rel) cache))).
  { unfold toast_fetch_datum, mthen, mlift, heap_open, heap_put, mlog, mret.
    rewrite (pt_extsize _ _ _ _ _ Hp), (pt_toastrelid _ _ _ _ _ Hp), (pt_valueid _ _ _ _ _ Hp), (pointer_compressed _ _ _ _ _ Hp Hr).
    unfold VARHDRSZ. cbn [lift_opt fmap option_fmap option_map res_bind ok].
    rewrite (s32_id (blen bytes + 4)) by lia. rewrite alloc_ok by (unfold MaxAllocSize; lia). cbn [ok res_bind].
    rewrite Hrel. cbn [ok res_bind]. rewrite count_chunks_ok by lia. fold c rows buf.
    destruct (fetch_loop _ _ _ _ _ _) as [[[[result nextidx] cache]|]|]; cbn [ok res_bind]; try done.
    by destruct (negb (nextidx =? num_chunks bytes)). }
  rewrite E. clear E.
  assert (Hpre : prefix_ok bytes (image_head c (blen bytes + 4)) 0 buf).
  { unfold buf. rewrite header_set by (done || lia). split; [apply image_head_length|]. split.
    - unfold blen in *. rewrite length_app, image_head_length, length_drop. unfold VARHDRSZ. lia.
    - eexists. change (Z.to_nat (0 * CH)) with 0%nat. by rewrite take_0. }
  pose proof (num_chunks_range bytes) as Hn. rewrite chunk_size_val in Hn.
  destruct (fetch_loop_ok id bytes (image_head c (blen bytes + 4)) rows Hrows 0 buf (tr_cache rel)) as [H1 H2];
    [lia|lia|done|done|].
  split.
  - intros Hseq. assert (Hlen : Z.of_nat (length rows) = num_chunks bytes).
    { apply (f_equal length) in Hseq. rewrite !length_fmap, length_seqZ in Hseq. lia. }
    destruct H1 as (result & cache & -> & Hres & Hc'); [by rewrite Hlen|].
    cbn [ok res_bind]. rewrite Z.add_0_l, Hlen, Z.eqb_refl in *. cbn [negb]. exists cache. split; [|done].
    rewrite image_app. by rewrite (prefix_done _ _ _ _ (Z.le_refl _) Hres).
  - intros Hseq. destruct (decide (row_seq <$> rows = Some <$> seqZ 0 (Z.of_nat (length rows)))) as [Hs|Hs].
    + destruct (H1 Hs) as (result & cache & -> & _ & _). cbn [ok res_bind]. rewrite Z.add_0_l.
      destruct (Z.eqb_spec (Z.of_nat (length rows)) (num_chunks bytes)) as [El|El]; [|done].
      by rewrite El in Hs.
    + by rewrite (H2 Hs).
Qed.

Lemma put_cache_ok db relid rel cache :
  db_rels db !! relid = Some rel → cache_ok atts cache → db_ok db →
  let db' := put_rel db relid (mkToastRel (tr_heap rel) cache) in steady db db' ∧ db_ok db'.
Proof.
  intros Hrel Hc Hdb. cbn [db_rels]. split; [split; [done|]|].
  - intros relid' rel' E. unfold put_rel. cbn [db_rels]. destruct (decide (relid' = relid)) as [->|Hne].
    + rewrite lookup_insert_eq. eexists. split; [done|]. cbn [tr_heap]. congruence.
    + rewrite lookup_insert_ne by done. eauto.
  - intros relid' rel'. unfold put_rel. cbn [db_rels]. rewrite lookup_insert_Some.
    intros [[<- <-]|[_ ?]]; [done|by apply (Hdb relid')].
Qed.

Lemma value_size_bound p data bytes (c : bool) :
  inline_value (image c bytes) data → blen bytes ≤ blen data →
  blen bytes + VARHDRSZ < MaxAllocSize ∧ 0 ≤ blen data + VARHDRSZ - 4 < 2 ^ 30.
Proof. intros [H%fits_len _] Hb. unfold MaxAllocSize, VARHDRSZ in *. lia. Qed.

Lemma fetch_ok db p data :
  db_ok db → external_value db p data →
  runs (toast_fetch_datum false palloc p) db
    (λ q db', inline_value q data ∧ steady db db' ∧ db_ok db').
Proof.
  intros Hdb (bytes & id & relid & rel & Hp & Hrel & Hst & Hb & Hi).
  destruct (value_size_bound p data bytes _ Hi ltac:(lia)) as [Hm Hr].
  destruct (stored_index _ _ _ Hst) as [Hf Hs].
  destruct (fetch_scan false db p _ bytes id relid rel Hp Hr ltac:(lia) Hm Hrel) as [H1 _];
    [by apply (Hdb relid)|done|].
  destruct (H1 Hs) as (cache & E & Hc). eexists _, _. split; [exact E|].
  split; [|by apply put_cache_ok]. by replace (blen data + VARHDRSZ - 4) with (blen data) by (unfold VARHDRSZ; lia).
Qed.

(** *** Storing *)

Lemma s32_shift z n k : s32 z = n → - 2 ^ 31 ≤ n + k < 2 ^ 31 → s32 (z + k) = n + k.
Proof. unfold s32. intros Hz Hk. divlia. Qed.

(** The bytes that are stored for a value, and the sizes for its pointer. *)
Lemma save_sizes_ok p data :
  inline_value p data →
  ∃ bytes rest, save_sizes p = Some (blen data + VARHDRSZ, blen bytes, bytes ++ rest) ∧
    blen bytes ≤ blen data ∧ VARSIZE_ANY p ≤ blen bytes + 4 ∧
    inline_value (image (negb (blen bytes =? blen data)) bytes) data.
Proof.
  intros Hi. pose proof Hi as [Hfit [(Hp & HE & HC & Hpay)|Hc]]; unfold save_sizes.
  - destruct (plain_lengths p Hp HE) as (Hx & Hany & H4 & H1). rewrite Hpay in *. exists data. rewrite HC, Z.eqb_refl.
    cbn [negb]. assert (E : ∃ rest, VARDATA_ANY p = data ++ rest).
    { rewrite <- Hpay. unfold payload. eexists. symmetry. apply take_drop. }
    destruct E as [rest E]. exists rest. unfold VARDATA_ANY in E.
    destruct (VARATT_IS_SHORT p) eqn:Hs; unfold VARATT_IS_SHORT in Hs; rewrite Hs in E; rewrite E.
    + rewrite H1 by done. unfold VARHDRSZ, VARHDRSZ_SHORT in *.
      split_and!; [|lia|lia|by apply image_plain]. by replace (blen data + 1 - 1) with (blen data) by lia.
    + rewrite H4 by done. unfold VARHDRSZ in *. split_and!; [|lia|lia|by apply image_plain].
      by replace (blen data + 4 - 4) with (blen data) by lia.
  - pose proof (cd_flag _ _ Hc) as HC. destruct (compressed_flags p) as [HE H1]; [apply Hc..|].
    destruct (compressed_any _ _ Hc) as [Ea Hle]. destruct (image_inline p data Hi HC) as [Him Hbl].
    set (bytes := take _ (VARDATA p)) in *. exists bytes, (drop (Z.to_nat (VARSIZE p - VARHDRSZ)) (VARDATA p)).
    unfold bytes at 2. rewrite take_drop, H1, HC, Hbl. unfold va_word.
    destruct Hc as [_ _ C8 Csv Craw _]. rewrite (proj2 (Z.leb_le _ _)) by lia. cbn [mbind option_bind].
    unfold VARHDRSZ in *. split_and!; [|lia|lia|].
    + unfold PGLZ_RAW_SIZE, rd_u32 in Craw. do 3 f_equal. pose proof (fits_len data Hfit).
      apply s32_shift; [done|lia].
    + destruct (Z.eqb_spec (VARSIZE p - 4) (blen data)); [lia|done].
Qed.

Lemma va_header_wr off v b : 0 < off → off + 4 ≤ blen b → va_header (wr 4 off v b) = va_header b.
Proof.
  intros Ho Hb. unfold wr. rewrite memcpy_alt by (rewrite ?length_le_bytes; unfold blen in *; lia).
  destruct b as [|h b]; [rewrite blen_nil in Hb; lia|]. unfold va_header.
  replace (Z.to_nat off) with (S (Z.to_nat (off - 1))) by lia. done.
Qed.

Lemma external_pointer_ok mem rawsize extsize id relid :
  blen mem = 20 → 0 ≤ rawsize < 2 ^ 31 → 0 ≤ extsize < 2 ^ 31 → 0 ≤ id < 2 ^ 32 → 0 ≤ relid < 2 ^ 32 →
  pointer_to (external_pointer mem rawsize extsize id relid) rawsize extsize id relid.
Proof.
  intros Hm Hr He Hi Hl. unfold external_pointer.
  set (p0 := SET_VARSIZE_1B_E mem TOAST_POINTER_SIZE). set (p := wr 4 16 relid _).
  assert (H0 : blen p0 = 20) by (unfold p0, SET_VARSIZE_1B_E, blen in *; by rewrite !length_insert).
  assert (Hp : blen p = 20) by (unfold p; by rewrite !blen_wr).
  assert (Hh : va_header p = 128).
  { unfold p. rewrite !va_header_wr by (rewrite ?blen_wr; lia). unfold p0, SET_VARSIZE_1B_E.
    destruct mem as [|? [|]]; [done..|]. done. }
  assert (HE : VARATT_IS_EXTERNAL p = true) by (unfold VARATT_IS_EXTERNAL, VARATT_IS_1B_E; by rewrite Hh).
  assert (Hw : ∀ off v, off + 4 ≤ 20 → rd 4 off p = v → va_word off p = Some v).
  { intros off v Ho Ev. unfold va_word. by rewrite (proj2 (Z.leb_le _ _)), Ev by lia. }
  split; [|done|..].
  - split; [by rewrite Hh|]. split; [intros E; rewrite E in Hp; done|]. unfold VARSIZE_ANY, VARATT_IS_4B.
    unfold VARATT_IS_EXTERNAL in HE. rewrite HE, Hh, Hp. done.
  - unfold va_rawsize. rewrite (Hw 4 rawsize) by (try done; unfold p; rewrite !rd_wr_disj, rd_wr_same by (rewrite ?blen_wr; lia);
      apply Z.mod_small; lia). cbn. by rewrite s32_id by lia.
  - unfold va_extsize. rewrite (Hw 8 extsize) by (try done; unfold p; rewrite !rd_wr_disj, rd_wr_same by (rewrite ?blen_wr; lia);
      apply Z.mod_small; lia). cbn. by rewrite s32_id by lia.
  - apply Hw; [done|]. unfold p. rewrite rd_wr_disj, rd_wr_same by (rewrite ?blen_wr; lia). apply Z.mod_small. lia.
  - apply Hw; [done|]. unfold p. rewrite rd_wr_same by (rewrite ?blen_wr; lia). apply Z.mod_small. lia.
Qed.

(** The value and the relation that a pointer names. *)
Definition ptr_id p : option (Z * Z) := relid ← va_toastrelid p; id ← va_valueid p; Some (relid, id).

Lemma pointer_id p rawsize extsize id relid :
  pointer_to p rawsize extsize id relid → ptr_id p = Some (relid, id).
Proof. intros Hp. unfold ptr_id. by rewrite (pt_toastrelid _ _ _ _ _ Hp), (pt_valueid _ _ _ _ _ Hp). Qed.

(** Some row has the identifier. *)
Definition present db (ri : Z * Z) : Prop :=
  ∃ rel, db_rels db !! ri.1 = Some rel ∧ rows_of (tr_heap rel) ri.2 ≠ [].

Lemma live_present db ri : live db ri → present db ri.
Proof. intros (rel & ? & ? & _). by exists rel. Qed.

Lemma external_present db p data :
  external_value db p data → ∃ ri, ptr_id p = Some ri ∧ present db ri.
Proof.
  intros (bytes & id & relid & rel & Hp & Hrel & Hst & Hb & _). exists (relid, id).
  split; [by eapply pointer_id|]. exists rel. split; [done|]. eapply stored_rows; [done|lia].
Qed.

(** The value [p] stands for [data], and is not one that has been deleted. *)
Definition live_value db p data : Prop :=
  inline_value p data ∨ external_value db p data ∧ ∀ ri, ptr_id p = Some ri → live db ri.

Lemma live_value_value db p data : live_value db p data → value db p data.
Proof. intros [?|[? _]]; [by left|by right]. Qed.

Lemma live_value_kept gone db db' p data :
  kept gone db db' → (∀ ri, ptr_id p = Some ri → ¬ gone ri.1 ri.2) → live_value db p data → live_value db' p data.
Proof.
  intros Hk Hg [?|[He Hl]]; [by left|]. right. split; [by eapply external_kept|]. intros ri Hri.
  eapply live_kept; [done|by apply Hg|by apply Hl].
Qed.

Lemma live_value_same db p q data : same_varlena p q → varlena_ok q → live_value db p data → live_value db q data.
Proof.
  intros Hs Hq [Hi|[(bytes & id & relid & rel & Hp & H) Hl]]; [left; by eapply inline_same|].
  pose proof (pointer_same _ _ _ _ _ _ Hs Hq Hp) as Hp'. right. split; [by exists bytes, id, relid, rel|].
  intros ri. rewrite (pointer_id _ _ _ _ _ Hp'), <- (pointer_id _ _ _ _ _ Hp). apply Hl.
Qed.

Lemma live_value_extends db db' p data : extends db db' → live_value db p data → live_value db' p data.
Proof. intros Hx. apply (live_value_kept _ _ _ _ _ Hx). by intros ri _ []. Qed.

(** No value has more chunks. *)
Definition max_chunks : Z := 131943.

Lemma num_chunks_max bytes : blen bytes < 2 ^ 30 → num_chunks bytes ≤ max_chunks.
Proof. intros Hb. pose proof (num_chunks_range bytes) as (_ & H & _). rewrite chunk_size_val in H. unfold max_chunks. lia. Qed.

Lemma save_ok relid s room db p data :
  db_ok db → home relid s room db → 0 ≤ room → inline_value p data → 4 < VARSIZE_ANY p →
  runs (toast_save_datum true flatten palloc relid p) db
    (λ q db', external_value db' q data ∧ extends db db' ∧ db_ok db' ∧ home relid s (room - max_chunks) db' ∧
       ∀ ri, ptr_id q = Some ri → ¬ present db ri ∧ live db' ri).
Proof.
  intros Hdb (Hrelid & rel & Hrel & Hwin) Hroom Hi Hsz.
  destruct (save_sizes_ok p data Hi) as (bytes & rest & Es & Hle & Hany & Him).
  pose proof Hi as [Hmax%fits_len _].
  assert (Hbd : 0 < blen bytes ∧ blen bytes + 4 < 2 ^ 30 - 1 ∧ blen data + 4 < 2 ^ 30 - 1) by lia.
  destruct (new_oid_ok (tr_heap rel) db s room Hwin Hroom) as (i & count & En & Hid & Hfresh & Hused).
  set (id := gen_oid s (Z.of_nat i)) in *. unfold FirstNormalObjectId, FirstExternalObjectId in Hid.
  destruct (save_loop_ok flatten palloc id bytes (Z.to_nat (blen bytes)) palloc_len ltac:(lia) ltac:(lia)
    0 (tr_heap rel) rest (palloc (VARHDRSZ + CH))) as (r' & Er & HG);
    [pose proof (num_chunks_range bytes); lia|lia|by apply palloc_len|].
  change (Z.to_nat (0 * CH)) with 0%nat in Er. change (0 * CH) with 0 in Er. rewrite drop_0, Z.sub_0_r in Er.
  set (q := external_pointer (palloc sizeof_varattrib) (blen data + VARHDRSZ) (blen bytes) id relid).
  set (db1 := mkDb (db_rels db) (db_history db) (id + 1) count).
  exists q, (put_rel db1 relid (mkToastRel r' (tr_cache rel))). split.
  { unfold toast_save_datum, mthen, mlift, heap_open, heap_put, mret. rewrite Hrel. cbn [ok res_bind].
    rewrite alloc_ok by done. cbn [ok res_bind]. rewrite Es. cbn [lift_opt fmap option_fmap option_map res_bind ok].
    rewrite En. cbn [ok res_bind]. rewrite Er. done. }
  assert (Hst : stored r' id bytes).
  { pose proof (gr_rows _ _ _ _ _ HG) as G2. pose proof (gr_seqs _ _ _ _ _ HG) as G3. rewrite Hfresh in G2, G3.
    split; [by apply G2|by rewrite Z.sub_0_r in G3]. }
  assert (Hq : pointer_to q (blen data + VARHDRSZ) (blen bytes) id relid)
    by (apply external_pointer_ok; unfold VARHDRSZ; [by apply palloc_len|lia..]).
  pose proof (num_chunks_max bytes ltac:(lia)). pose proof (num_chunks_range bytes) as (_ & _ & Hnc).
  assert (Hpos : 0 < num_chunks bytes) by (rewrite chunk_size_val in Hnc; lia).
  split_and!.
  - exists bytes, id, relid, (mkToastRel r' (tr_cache rel)). split_and!; [done|by apply lookup_insert_eq|done|lia|lia|done].
  - intros relid' rel' E. unfold put_rel, db1. cbn [db_rels]. destruct (decide (relid' = relid)) as [->|Hne].
    + rewrite lookup_insert_eq. eexists. split; [done|]. intros id' Hne. cbn [tr_heap].
      assert (rel' = rel) as -> by congruence. destruct (gr_others _ _ _ _ _ HG id') as [? ?]; [by intros ->|done].
    + rewrite lookup_insert_ne by done. eauto.
  - intros relid' rel'. unfold put_rel, db1. cbn [db_rels]. rewrite lookup_insert_Some.
    intros [[<- <-]|[_ E]]; [exact (Hdb relid rel Hrel)|by apply (Hdb relid')].
  - apply (home_le _ _ (room - num_chunks bytes)); [lia|]. split; [done|]. eexists. split; [by apply lookup_insert_eq|].
    cbn [tr_heap nextOid put_rel db1]. by eapply window_grown.
  - intros ri. rewrite (pointer_id _ _ _ _ _ Hq). intros [= <-]. split; [intros (rel' & E' & Hne); cbn [fst snd] in *; congruence|].
    eexists. split; [by apply lookup_insert_eq|]. cbn [tr_heap fst snd]. split; [eapply stored_rows; [done|lia]|].
    apply filter_perm_id. symmetry. apply (gr_live _ _ _ _ _ HG). unfold live_of. by rewrite Hfresh.
Qed.

(** *** Compression *)

(** A relation between states that have the same relations. *)
Definition same_rels db db' : Prop := db_rels db' = db_rels db ∧ nextOid db' = nextOid db.

Lemma same_rels_ok db db' : same_rels db db' → db_ok db → steady db db' ∧ db_ok db'.
Proof.
  intros [E En] Hdb. split.
  - split; [done|]. intros relid rel Hr. exists rel. by rewrite E.
  - intros relid rel Hr. rewrite E in Hr. by apply (Hdb relid).
Qed.

Lemma payload_read p :
  varlena_ok p → VARATT_IS_EXTERNAL p = false →
  read_bytes (VARDATA_ANY p) (blen (payload p)) = Some (payload p).
Proof.
  intros Hp HE. destruct (plain_lengths p Hp HE) as [El _]. rewrite read_bytes_ok.
  - unfold payload at 2. by rewrite El.
  - rewrite El. split; [rewrite <- El; apply blen_nonneg|]. rewrite <- El. unfold payload, blen.
    rewrite length_take. lia.
Qed.

Lemma compress_ok db p data :
  db_ok db → inline_value p data → VARATT_IS_COMPRESSED p = false →
  runs (toast_compress_datum palloc p) db
    (λ o db', match o with
              | Some q => inline_value q data ∧ VARATT_IS_COMPRESSED q = true ∧ VARSIZE q = VARSIZE_ANY q
              | None => True
              end ∧ steady db db' ∧ db_ok db').
Proof.
  intros Hdb [Hfit Hp] HC. destruct Hp as [(Hp & HE & _ & Hpay)|Hc]; [|pose proof (cd_flag _ _ Hc); congruence].
  destruct (plain_lengths p Hp HE) as (El & Hany & _). pose proof (payload_read p Hp HE) as Hrd.
  rewrite Hpay in *. pose proof (fits_len data Hfit) as Hlen. unfold toast_compress_datum. rewrite <- El.
  destruct (_ || _); [by apply runs_ret|].
  eapply runs_bind_ok; [apply alloc_ok; split; [unfold PGLZ_MAX_OUTPUT, sizeof_PGLZ_Header; lia|apply Hfit]|].
  eapply runs_bind_opt; [exact Hrd|].
  destruct (pglz_compress_ok (db_history db) data (palloc (PGLZ_MAX_OUTPUT (blen data)))
    (Some PGLZ_strategy_default)) as (success & d & h & Ed & _ & Hok); [apply Hfit|lia| |].
  { apply palloc_len. unfold PGLZ_MAX_OUTPUT, sizeof_PGLZ_Header. lia. }
  eexists _, _. split; [rewrite Ed; done|]. split; [|by apply same_rels_ok].
  destruct success; cbn [andb]; [|done]. destruct (Z.ltb_spec (VARSIZE d) (VARSIZE_ANY p)); [|done].
  destruct (Hok eq_refl) as (Hh & HCd & HS & Hsz & Hle & Hraw & Hdec). rewrite HS.
  destruct (compressed_flags d Hh HCd) as [HEd H1d].
  assert (Ea : VARSIZE_ANY d = VARSIZE d)
    by (unfold VARSIZE_ANY, VARATT_IS_EXTERNAL, VARATT_IS_SHORT in *; by rewrite HEd, H1d).
  unfold HDR, sizeof_PGLZ_Header in Hsz. split_and!; [|done|done]. split; [done|]. right.
  split; [|done|lia|unfold VARHDRSZ; lia|done|done].
  split; [done|]. split; [intros ->; rewrite blen_nil in Hle; lia|]. rewrite Ea. unfold VARHDRSZ. split; lia.
Qed.

Lemma decompress_ok p data :
  inline_value p data → VARATT_IS_COMPRESSED p = true → decompress_new palloc p = ok (varlena data).
Proof.
  intros [Hfit Hp] HC. destruct Hp as [(_ & _ & ? & _)|Hc]; [congruence|]. pose proof (fits_len data Hfit).
  unfold decompress_new. rewrite (cd_raw _ _ Hc). unfold VARHDRSZ. rewrite s32_id by lia.
  rewrite alloc_ok by (unfold MaxAllocSize; lia). cbn [ok res_bind].
  assert (Hpl : blen (palloc (blen data + 4)) = blen data + 4) by (apply palloc_len; lia).
  pose proof (header_set false (palloc (blen data + 4)) _ Hpl ltac:(lia)) as E. cbv iota in E. rewrite E.
  rewrite (cd_dec _ _ Hc); [|by split|].
  - rewrite take_app_length' by (by rewrite image_head_length). unfold varlena, image_head, VARHDRSZ. done.
  - unfold VARDATA, VARHDRSZ. rewrite drop_app_length' by (by rewrite image_head_length).
    unfold blen in *. rewrite length_drop. lia.
Qed.

(** *** Reading *)

(** The first step of every reader. *)
Lemma inlined_ok db p data :
  db_ok db → value db p data →
  runs (if VARATT_IS_EXTERNAL p then toast_fetch_datum false palloc p else mret p) db
    (λ q db', inline_value q data ∧ steady db db' ∧ db_ok db').
Proof.
  intros Hdb [Hi|He].
  - rewrite (inline_external _ _ Hi). by apply runs_ret.
  - pose proof He as (bytes & id & relid & rel & Hp & _). rewrite (pt_external _ _ _ _ _ Hp). by apply fetch_ok.
Qed.

Lemma varlena_value data : fits data → plain_value (varlena data) data.
Proof.
  intros Hf%fits_len. pose proof (varlena_plain data []) as H. rewrite app_nil_r in H. apply H. lia.
Qed.

Lemma untoast_ok db p data :
  db_ok db → value db p data →
  runs (heap_tuple_untoast_attr false palloc p) db
    (λ q db', plain_value q data ∧ steady db db' ∧ db_ok db').
Proof.
  intros Hdb Hv. unfold heap_tuple_untoast_attr. apply runs_bind.
  eapply runs_mono; [by apply inlined_ok|]. cbn beta. intros q db' (Hq & Hx & Hdb').
  pose proof (proj1 Hq) as Hfit. destruct (VARATT_IS_COMPRESSED q) eqn:HC.
  { eapply runs_lift; [by apply decompress_ok|]. by split; [apply varlena_value|]. }
  destruct Hq as [_ [(Hok & HE & _ & Hpay)|Hc]]; [|pose proof (cd_flag _ _ Hc); congruence].
  destruct (plain_lengths q Hok HE) as (El & _ & H4 & H1). pose proof (payload_read q Hok HE) as Hrd.
  pose proof (fits_len data Hfit) as Hlen. rewrite Hpay in *. unfold VARDATA_ANY in Hrd.
  destruct (VARATT_IS_SHORT q) eqn:Hs; unfold VARATT_IS_SHORT in Hs; rewrite Hs in Hrd.
  - rewrite H1 by done. unfold VARHDRSZ_SHORT, VARHDRSZ.
    replace (blen data + 1 - 1) with (blen data) by lia.
    eapply runs_bind_ok; [apply alloc_ok; unfold MaxAllocSize; lia|].
    eapply runs_bind_opt; [exact Hrd|].
    destruct (set_data (palloc (blen data + 4)) data) as (rest & Ew & Hw); [rewrite palloc_len; lia|lia|].
    unfold VARHDRSZ in Ew. eapply runs_lift; [by rewrite Ew|]. split; [|done]. apply varlena_plain. lia.
  - apply runs_ret. split; [|done]. specialize (H4 eq_refl).
    destruct (header_cases q (proj1 Hok)) as (EU & EC & _ & E1 & _).
    unfold VARATT_IS_COMPRESSED in HC. rewrite HC in EC. rewrite Hs in E1. symmetry in EC, E1.
    apply bool_decide_eq_false in EC, E1.
    split; [done|rewrite EU; by rewrite bool_decide_true by lia|done|done|done|done| |done].
    assert (Hd : data = take (length data) (VARDATA q)).
    { rewrite <- Hpay at 1. unfold payload, VARDATA_ANY. rewrite Hs, <- El. unfold blen. by rewrite Nat2Z.id. }
    rewrite Hd at 1. symmetry. apply take_drop.
Qed.

End Ops.

(** *** Deletion *)

Section Deletion.
Context {R : Type} `{!ToastAM R, !ToastAMLaws R}.
Implicit Types (db : Db R).

(** Exactly the rows of the values in [doomed] have been deleted. *)
Definition removed (doomed : list (Z * Z)) db db' : Prop :=
  ∀ relid rel, db_rels db !! relid = Some rel → ∃ rel', db_rels db' !! relid = Some rel' ∧
    ∀ id, rows_of (tr_heap rel') id = rows_of (tr_heap rel) id ∧
      live_of (tr_heap rel') id = if bool_decide ((relid, id) ∈ doomed) then [] else live_of (tr_heap rel) id.

Lemma removed_nil db : removed [] db db.
Proof. intros relid rel E. exists rel. split; [done|]. intros id. rewrite bool_decide_false; [done|set_solver]. Qed.

Lemma removed_app l1 l2 db1 db2 db3 : removed l1 db1 db2 → removed l2 db2 db3 → removed (l1 ++ l2) db1 db3.
Proof.
  intros H1 H2 relid rel E. destruct (H1 relid rel E) as (rel2 & E2 & K2).
  destruct (H2 relid rel2 E2) as (rel3 & E3 & K3). exists rel3. split; [done|]. intros id.
  destruct (K2 id) as [R2 L2], (K3 id) as [R3 L3]. split; [congruence|]. rewrite L3, L2.
  repeat case_bool_decide; set_solver.
Qed.

Lemma removed_kept doomed db db' :
  removed doomed db db' → kept (λ relid id, (relid, id) ∈ doomed) db db'.
Proof.
  intros H relid rel E. destruct (H relid rel E) as (rel' & E' & K). exists rel'. split; [done|].
  intros id _. destruct (K id) as [R1 L1]. split; [done|]. intros Hd. by rewrite L1, bool_decide_false.
Qed.

(** Only a value that has not been deleted can be deleted. *)
Lemma delete_datum_ok db p rawsize extsize id relid :
  pointer_to p rawsize extsize id relid → live db (relid, id) → db_ok db →
  runs (toast_delete_datum p) db (λ _ db', removed [(relid, id)] db db' ∧ db_ok db').
Proof.
  intros Hp (rel & Hrel & _ & Hl) Hdb. cbn [fst snd] in *.
  destruct (delete_value (tr_heap rel) id Hl) as (r' & Er & Hrows & D). set (rel' := mkToastRel r' (tr_cache rel)).
  exists tt, (put_rel db relid rel'). split.
  { unfold toast_delete_datum, mthen, mlift, heap_open, heap_put. rewrite (pt_external _ _ _ _ _ Hp). cbn [negb].
    rewrite (pt_toastrelid _ _ _ _ _ Hp), (pt_valueid _ _ _ _ _ Hp).
    cbn [lift_opt fmap option_fmap option_map res_bind ok]. rewrite Hrel. cbn [ok res_bind]. by rewrite Er. }
  split.
  - intros relid1 rel1 E. unfold put_rel. cbn [db_rels]. destruct (decide (relid1 = relid)) as [->|Hne].
    + rewrite lookup_insert_eq. eexists. split; [done|]. intros id1. assert (rel1 = rel) as -> by congruence.
      unfold rel'. cbn [tr_heap]. split; [unfold rows_of; by rewrite Hrows|]. rewrite D.
      repeat case_bool_decide; set_solver.
    + rewrite lookup_insert_ne by done. exists rel1. split; [done|]. intros id1.
      rewrite bool_decide_false; [done|set_solver].
  - intros relid1 rel1. unfold put_rel. cbn [db_rels]. rewrite lookup_insert_Some.
    intros [[<- <-]|[_ E]]; [exact (Hdb relid rel Hrel)|by apply (Hdb relid1)].
Qed.

Lemma delete_datum_again db p rawsize extsize id relid rel :
  pointer_to p rawsize extsize id relid → db_rels db !! relid = Some rel →
  live_of (tr_heap rel) id ≠ rows_of (tr_heap rel) id → toast_delete_datum p db = elog.
Proof.
  intros Hp Hrel Hne. unfold toast_delete_datum, mthen, mlift, heap_open, heap_put.
  rewrite (pt_external _ _ _ _ _ Hp). cbn [negb]. rewrite (pt_toastrelid _ _ _ _ _ Hp), (pt_valueid _ _ _ _ _ Hp).
  cbn [lift_opt fmap option_fmap option_map res_bind ok]. rewrite Hrel. cbn [ok res_bind].
  by rewrite delete_value_dead.
Qed.
End Deletion.
