(* ===== verification/ToastSlice.v ===== *)
(** Parts of values: [toast_fetch_datum_slice] and [heap_tuple_untoast_attr_slice]
    give the part of what the value stands for, except that a last chunk of at
    most 126 bytes, which has a short header, is read from the wrong place. *)
From Stdlib Require Import Ascii.
From stdpp Require Import prelude functions numbers list gmap sorting.
From S2P Require Import Prelude Varlena PgLz PgLzRound HeapTuple HeapTupleForm HeapTupleRead HeapTupleSpec.
From S2P Require Import Toast ToastRows ToastValue.

Local Open Scope Z_scope.

Local Abbreviation CH := TOAST_MAX_CHUNK_SIZE.
Local Abbreviation atts := (attrs toast_desc).

(** ** The part *)

(** From [off] on, [len] bytes or, when [len] is negative, all. *)
Definition substring (off len : Z) (data : list Z) : list Z :=
  let rest := drop (Z.to_nat off) data in
  if len <? 0 then rest else take (Z.to_nat len) rest.

Lemma clip_slice_ok off len data o n :
  0 ≤ off → - 2 ^ 31 ≤ len → off + len < 2 ^ 31 → blen data < 2 ^ 31 →
  clip_slice (blen data) off len = (o, n) →
  0 ≤ o ∧ 0 ≤ n ∧ o + n ≤ blen data ∧ slice o n data = substring off len data ∧
  (0 < n → o = off ∧ off < blen data).
Proof.
  intros Ho Hl Hol Hd. unfold clip_slice, substring, slice. pose proof (blen_nonneg data) as Hnn.
  destruct (Z.leb_spec (blen data) off) as [Hle|Hlt]; cbv zeta.
  - rewrite (s32_id (0 + 0)) by lia. rewrite (proj2 (Z.ltb_ge _ _)) by lia. cbn [orb Z.ltb]. intros [= <- <-].
    split_and!; [lia..| |lia]. rewrite (drop_ge data (Z.to_nat off)) by (unfold blen in *; lia).
    rewrite take_nil. by destruct (len <? 0).
  - rewrite (s32_id (off + len)) by lia. destruct (Z.ltb_spec len 0) as [Hneg|Hpos].
    + rewrite orb_true_r, s32_id by lia. intros [= <- <-]. split_and!; [lia..| |lia].
      rewrite take_ge; [done|]. rewrite length_drop. unfold blen in *. lia.
    + rewrite orb_false_r. destruct (Z.ltb_spec (blen data) (off + len)) as [Hgt|Hin].
      * rewrite s32_id by lia. intros [= <- <-]. split_and!; [lia..| |lia].
        rewrite !take_ge; [done| |]; rewrite length_drop; unfold blen in *; lia.
      * intros [= <- <-]. split_and!; [lia..|done|lia].
Qed.

Lemma blen_slice o n (b : list Z) : 0 ≤ o → 0 ≤ n → o + n ≤ blen b → blen (slice o n b) = n.
Proof. intros. unfold slice, blen in *. rewrite length_take, length_drop. lia. Qed.

Lemma slice_join o m n (b : list Z) :
  0 ≤ o → 0 ≤ m → 0 ≤ n → slice o m b ++ slice (o + m) n b = slice o (m + n) b.
Proof.
  intros. unfold slice. rewrite (Z2Nat.inj_add m n), <- take_take_drop by lia. f_equal.
  rewrite drop_drop. do 2 f_equal. lia.
Qed.

Lemma read_at_front p c off n :
  take (length c) p = c → 0 ≤ off → 0 ≤ n → off + n ≤ blen c → read_at p off n = Some (slice off n c).
Proof.
  intros Hc Ho Hn Hle. unfold read_at. rewrite (proj2 (Z.leb_le _ _)) by done.
  assert (Hlen : blen c ≤ blen p) by (unfold blen; rewrite <- Hc, length_take; lia).
  rewrite read_bytes_ok by (unfold blen in *; rewrite length_drop; lia).
  f_equal. unfold slice. rewrite <- Hc at 1. rewrite skipn_firstn_comm, take_take. f_equal. unfold blen in *. lia.
Qed.

(** ** The loop over the chunks *)

Section Loop.
Context (id : Z) (bytes hdr : list Z) (off n : Z).
Context (Hoff : 0 ≤ off) (Hn : 0 < n) (Hend : off + n ≤ blen bytes) (Hmax : blen bytes < 2 ^ 30).

Local Abbreviation first := (Z.quot off CH).
Local Abbreviation last := (Z.quot (off + n - 1) CH).

(** How much is done before chunk [k]. *)
Definition done_before (k : Z) : Z := Z.min n (Z.max 0 (k * CH - off)).

Definition slice_prefix (k : Z) (result : list Z) : Prop :=
  length hdr = 4%nat ∧ blen result = 4 + n ∧
  ∃ rest, result = hdr ++ slice off (done_before k) bytes ++ rest.

(** The bytes of chunk [k] that belong to the part. *)
Lemma chunk_part k :
  first ≤ k ≤ last →
  let strt := if k =? first then Z.rem off CH else 0 in
  let e := if k =? last then Z.rem (off + n - 1) CH else blen (chunk_at bytes k) - 1 in
  0 ≤ k < num_chunks bytes ∧ 0 ≤ strt ∧ 0 ≤ e - strt + 1 ∧ e + 1 ≤ blen (chunk_at bytes k) ∧
  k * CH + strt = off + done_before k ∧ done_before k + (e - strt + 1) = done_before (k + 1).
Proof.
  rewrite chunk_size_val. intros Hk. cbv zeta.
  assert (E1 : off = 8138 * Z.quot off 8138 + Z.rem off 8138) by apply Z.quot_rem'.
  assert (E2 : off + n - 1 = 8138 * Z.quot (off + n - 1) 8138 + Z.rem (off + n - 1) 8138) by apply Z.quot_rem'.
  pose proof (Z.rem_bound_pos off 8138 ltac:(lia) ltac:(lia)) as B1.
  pose proof (Z.rem_bound_pos (off + n - 1) 8138 ltac:(lia) ltac:(lia)) as B2.
  revert E1 E2 B1 B2 Hk. generalize (Z.quot off 8138) (Z.rem off 8138) (Z.quot (off + n - 1) 8138) (Z.rem (off + n - 1) 8138).
  intros q1 r1 q2 r2 E1 E2 B1 B2 Hk. rewrite chunk_at_len by lia. unfold done_before. rewrite chunk_size_val.
  pose proof (num_chunks_lt bytes k ltac:(lia)) as Hlt. rewrite chunk_size_val in Hlt.
  destruct (Z.eqb_spec k q1), (Z.eqb_spec k q2); lia.
Qed.

Lemma slice_prefix_step k result src :
  blen src = done_before (k + 1) - done_before k → src = slice (off + done_before k) (blen src) bytes →
  slice_prefix k result →
  ∃ result', write_bytes result (VARHDRSZ + done_before k) src = Some result' ∧ slice_prefix (k + 1) result'.
Proof.
  intros Hl Hsrc (Hh & Hr & rest & ->). pose proof (blen_nonneg src).
  assert (Hd : 0 ≤ done_before k ∧ done_before (k + 1) ≤ n) by (unfold done_before; lia).
  assert (Hsl : blen (slice off (done_before k) bytes) = done_before k) by (apply blen_slice; lia).
  unfold VARHDRSZ. rewrite write_bytes_ok by lia. eexists. split; [done|]. split; [done|].
  split; [by rewrite blen_memcpy|]. rewrite memcpy_alt by (unfold blen in *; lia).
  assert (Et : take (Z.to_nat (4 + done_before k)) (hdr ++ slice off (done_before k) bytes ++ rest) =
    hdr ++ slice off (done_before k) bytes).
  { rewrite app_assoc. apply take_app_length'. rewrite length_app, Hh. unfold blen in *. lia. }
  rewrite Et. set (more := drop _ _). exists more. rewrite <- !app_assoc. f_equal. rewrite app_assoc. f_equal.
  rewrite Hsrc, slice_join by lia. f_equal. lia.
Qed.

Lemma slice_loop_ok rows : Forall (row_of id bytes) rows → ∀ k result cache,
  first ≤ k → k + Z.of_nat (length rows) = last + 1 →
  row_seq <$> rows = Some <$> seqZ k (Z.of_nat (length rows)) →
  (∀ j, k ≤ j ≤ last → 126 < blen (chunk_at bytes j)) →
  slice_prefix k result → cache_ok atts cache →
  ∃ result' cache',
    slice_loop rows (blen bytes) (num_chunks bytes) off first last (Z.rem off CH)
      (Z.rem (off + n - 1) CH) result k cache = ok (result', last + 1, cache') ∧
    slice_prefix (last + 1) result' ∧ cache_ok atts cache'.
Proof.
  induction 1 as [|[tid t] rows (s & Hs & Ht) Hrows IH]; intros k result cache Hk Hlen Hseq Hbig Hp Hc.
  { exists result, cache. cbn in *. rewrite Z.add_0_r in Hlen. subst. by split_and!. }
  cbn [length] in *. rewrite Nat2Z.inj_succ in *. rewrite seqZ_cons in Hseq by lia. cbn [fmap list_fmap] in Hseq.
  injection Hseq as Hs1 Hseq. cbn [snd] in Ht. pose proof (chunk_keys _ _ _ _ Ht) as [_ Hks].
  unfold row_seq in Hs1. cbn [snd] in Hs1. assert (s = k) as -> by congruence.
  rewrite Z.pred_succ in Hseq. change (Z.succ k) with (k + 1) in Hseq.
  destruct (chunk_row_read id k _ t cache Ht Hc) as (q & src & c1 & c2 & E1 & E2 & E3 & Hr & Hsrc & Hc2).
  destruct (chunk_part k ltac:(lia)) as (Hkn & Hst & Hpl & Hpe & Eq1 & Eq2).
  cbn [slice_loop]. rewrite E1. cbn [ok res_bind]. rewrite E2. cbn [ok res_bind]. rewrite E3. cbn [ok res_bind].
  rewrite Z.eqb_refl, (proj2 (Z.ltb_ge last k)), (proj2 (Z.ltb_ge k first)) by lia. cbn [negb orb].
  rewrite chunk_at_check by done. set (strt := if k =? first then _ else 0) in *.
  set (e := if k =? last then _ else _) in *.
  rewrite (Hsrc (Hbig k ltac:(lia))) in Hr. pose proof (blen_nonneg (chunk_at bytes k)).
  assert (Hfr : take (length (chunk_at bytes k)) (VARDATA q) = chunk_at bytes k).
  { unfold read_bytes in Hr. destruct (_ && _); [|done]. injection Hr as Hr. rewrite <- Hr at 2. unfold blen.
    by rewrite Nat2Z.id. }
  rewrite (read_at_front _ (chunk_at bytes k)) by (done || lia).
  cbn [lift_opt fmap option_fmap option_map res_bind].
  assert (Eat : VARHDRSZ + (k * CH - off) + strt = VARHDRSZ + done_before k) by lia. rewrite Eat.
  assert (Epart : slice strt (e - strt + 1) (chunk_at bytes k) = slice (off + done_before k) (e - strt + 1) bytes).
  { unfold chunk_at. rewrite slice_slice; [f_equal; lia|rewrite chunk_size_val; lia|lia|lia|].
    pose proof (chunk_at_pos bytes k Hkn). lia. }
  assert (Hbl : blen (slice strt (e - strt + 1) (chunk_at bytes k)) = e - strt + 1) by (apply blen_slice; lia).
  destruct (slice_prefix_step k result (slice strt (e - strt + 1) (chunk_at bytes k))) as (result' & Ew & Hp');
    [lia|by rewrite Hbl|done|].
  rewrite Ew. cbn [lift_opt fmap option_fmap option_map res_bind].
  pose proof (num_chunks_range bytes) as Hnr. rewrite chunk_size_val in Hnr. rewrite s32_id by lia.
  apply IH; [lia|lia|done| |done|done]. intros j Hj. apply Hbig. lia.
Qed.
End Loop.

(** ** The operations *)

Section Slices.
Context {R : Type} `{!ToastAM R, !ToastAMLaws R}.
Context (palloc : Z → list Z) (palloc_len : ∀ n, 0 ≤ n → blen (palloc n) = n).
Implicit Types (db : Db R) (p q data : list Z).

(** The part ends before the last chunk, or that chunk has a long header. *)
Definition avoids_short (off len : Z) (data : list Z) : Prop :=
  let start := (num_chunks data - 1) * CH in
  off + blen (substring off len data) ≤ start ∨ 126 < blen data - start.

Lemma done_before_first off n : 0 ≤ off → 0 < n → done_before off n (Z.quot off CH) = 0.
Proof.
  intros Ho Hn. unfold done_before. rewrite Z.quot_div_nonneg, chunk_size_val by (rewrite ?chunk_size_val; lia). divlia.
Qed.

Lemma done_before_last off n : 0 ≤ off → 0 < n → done_before off n (Z.quot (off + n - 1) CH + 1) = n.
Proof.
  intros Ho Hn. unfold done_before. rewrite Z.quot_div_nonneg, chunk_size_val by (rewrite ?chunk_size_val; lia). divlia.
Qed.

Lemma slice_chunks data off n :
  0 ≤ off → 0 < n → off + n ≤ blen data →
  off + n ≤ (num_chunks data - 1) * CH ∨ 126 < blen data - (num_chunks data - 1) * CH →
  0 ≤ Z.quot off CH ∧ Z.quot off CH ≤ Z.quot (off + n - 1) CH < num_chunks data ∧
  ∀ j, Z.quot off CH ≤ j ≤ Z.quot (off + n - 1) CH → 126 < blen (chunk_at data j).
Proof.
  intros Ho Hn Hle Hc. rewrite !Z.quot_div_nonneg by (rewrite ?chunk_size_val; lia).
  pose proof (num_chunks_range data) as Hr. rewrite chunk_size_val in *.
  split_and!; [divlia..|]. intros j Hj. rewrite chunk_at_len by divlia. rewrite chunk_size_val. divlia.
Qed.

Lemma external_plain db p data :
  external_value db p data → VARATT_EXTERNAL_IS_COMPRESSED p = Some false →
  ∃ id relid rel, pointer_to p (blen data + 4) (blen data) id relid ∧ db_rels db !! relid = Some rel ∧
    stored (tr_heap rel) id data ∧ fits data.
Proof.
  intros (bytes & id & relid & rel & Hp & Hrel & Hst & Hb & Hi) HC. pose proof (fits_len _ (proj1 Hi)) as Hfl.
  rewrite (pointer_compressed _ _ _ _ _ Hp) in HC by (unfold VARHDRSZ; lia). unfold VARHDRSZ in HC.
  replace (blen data + 4 - 4) with (blen data) in HC by lia. injection HC as HC.
  rewrite HC in Hi. apply negb_false_iff, Z.eqb_eq in HC.
  assert (bytes = data) as ->; [|exists id, relid, rel; by split_and!; [..|apply Hi]].
  destruct Hi as [_ [(_ & _ & _ & Hpay)|Hc]].
  - pose proof (varlena_plain bytes []) as Hv. rewrite app_nil_r in Hv. destruct Hv as [_ _ _ _ _ _ _ Hv]; [lia|].
    unfold image in Hpay. congruence.
  - pose proof (cd_flag _ _ Hc) as Hf. pose proof (varlena_plain bytes []) as Hv. rewrite app_nil_r in Hv.
    destruct Hv; [lia|]. unfold image in Hf. congruence.
Qed.

Lemma fetch_slice_ok db p data off len :
  db_ok db → external_value db p data → VARATT_EXTERNAL_IS_COMPRESSED p = Some false →
  0 ≤ off → - 2 ^ 31 ≤ len → off + len < 2 ^ 31 → avoids_short off len data →
  runs (toast_fetch_datum_slice palloc p off len) db
    (λ q db', q = varlena (substring off len data) ∧ steady db db' ∧ db_ok db').
Proof.
  intros Hdb He HC Ho Hl Hol Hav. destruct (external_plain db p data He HC) as (id & relid & rel & Hp & Hrel & Hst & Hfit).
  pose proof (fits_len data Hfit) as Hfl. destruct (clip_slice (blen data) off len) as [o n] eqn:Eclip.
  destruct (clip_slice_ok off len data o n Ho Hl Hol ltac:(lia) Eclip) as (Ho' & Hn & Hon & Esub & Hpos).
  assert (Hbs : blen (substring off len data) = n) by (rewrite <- Esub; apply blen_slice; lia).
  unfold toast_fetch_datum_slice. eapply runs_bind_opt; [apply Hp|]. cbv beta zeta. rewrite Eclip.
  unfold VARHDRSZ. rewrite (s32_id (n + 4)) by lia.
  eapply runs_bind_ok; [apply alloc_ok; unfold MaxAllocSize; lia|]. eapply runs_bind_opt; [exact HC|]. cbv iota.
  pose proof (header_set false (palloc (n + 4)) (n + 4) ltac:(apply palloc_len; lia) ltac:(lia)) as Eh. cbv iota in Eh.
  rewrite Eh. assert (Hd4 : blen (drop 4 (palloc (n + 4))) = n).
  { pose proof (palloc_len (n + 4) ltac:(lia)). unfold blen in *. rewrite length_drop. lia. }
  assert (Hvar : ∀ rest, blen rest = 0 → image_head false (n + 4) ++ substring off len data ++ rest = varlena (substring off len data)).
  { intros [|]; [intros _|by unfold blen]. rewrite app_nil_r. pose proof (image_app false (substring off len data)) as Ei.
    unfold image in Ei. by rewrite Ei, Hbs. }
  destruct (Z.eqb_spec n 0) as [->|Hn0].
  { apply runs_ret. split; [|by split]. destruct (substring off len data); [|unfold blen in Hbs; cbn in Hbs; lia].
    rewrite <- (Hvar (drop 4 (palloc (0 + 4)))) by done. done. }
  destruct (Hpos ltac:(lia)) as [-> Hin]. rewrite (s32_id (off + n - 1)) by lia.
  eapply runs_bind_opt; [apply Hp|]. apply runs_bind. eexists rel, db. split; [unfold heap_open; by rewrite Hrel|].
  eapply runs_bind_opt; [apply Hp|]. unfold avoids_short in Hav. rewrite Hbs in Hav.
  destruct (slice_chunks data off n Ho ltac:(lia) Hon Hav) as (Hf0 & Hfl' & Hbig).
  destruct (stored_range _ _ _ _ _ Hst Hf0 Hfl') as [Hrows Hseq].
  set (rows := index_scan _ _ _ _) in *.
  assert (Hlen : Z.of_nat (length rows) = Z.quot (off + n - 1) CH + 1 - Z.quot off CH).
  { apply (f_equal length) in Hseq. rewrite !length_fmap, length_seqZ in Hseq. lia. }
  rewrite count_chunks_ok by lia. pose proof (Hdb relid rel Hrel) as Hc.
  destruct (slice_loop_ok id data (image_head false (n + 4)) off n Ho ltac:(lia) Hon ltac:(lia) rows Hrows
    (Z.quot off CH) (image_head false (n + 4) ++ drop 4 (palloc (n + 4))) (tr_cache rel))
    as (result & cache & E & (_ & Hbl & rest & Hres) & Hc');
    [lia|lia|by rewrite Hlen|done| |done|].
  { split; [apply image_head_length|]. split.
    - unfold blen in *. rewrite length_app, image_head_length. lia.
    - assert (Hz : done_before off n (Z.quot off CH) = 0)
        by (apply done_before_first; lia).
      rewrite Hz. unfold slice. eexists. by rewrite take_0. }
  eapply runs_bind_ok; [exact E|]. cbv beta iota. rewrite Z.eqb_refl. cbn [negb].
  apply runs_bind. eexists tt, _. split; [done|]. apply runs_ret. split; [|by apply put_cache_ok].
  assert (Hd : done_before off n (Z.quot (off + n - 1) CH + 1) = n)
    by (apply done_before_last; lia).
  rewrite Hd, Esub in Hres. subst result. apply Hvar. unfold blen in *. rewrite !length_app, image_head_length in Hbl. lia.
Qed.

(** A part of a value that is in memory. *)
Lemma plain_data_ok q data :
  inline_value q data → VARATT_IS_COMPRESSED q = false →
  (plain_data q).2 = blen data ∧ take (length data) (plain_data q).1 = data.
Proof.
  intros [Hfit [(Hok & HE & _ & Hpay)|Hc]] HC; [|pose proof (cd_flag _ _ Hc); congruence].
  destruct (plain_lengths q Hok HE) as (El & _ & H4 & H1). rewrite Hpay in *. unfold plain_data.
  assert (Hd : data = take (length data) (VARDATA_ANY q)).
  { rewrite <- Hpay at 1. unfold payload. rewrite <- El. unfold blen. by rewrite Nat2Z.id. }
  unfold VARDATA_ANY in Hd. unfold VARATT_IS_SHORT in *.
  destruct (VARATT_IS_1B q) eqn:Hs; cbn [fst snd]; (split; [|by symmetry]).
  - rewrite H1 by done. unfold VARHDRSZ_SHORT. lia.
  - rewrite H4 by done. unfold VARHDRSZ. lia.
Qed.

Lemma varlena_inline data : fits data → inline_value (varlena data) data.
Proof. apply image_plain. Qed.

(** [let^ x := if compressed then decompress else x in k] *)
Lemma decompressed_ok {A} db q data (k : list Z → M R A) Q :
  inline_value q data → db_ok db →
  (∀ q', inline_value q' data → VARATT_IS_COMPRESSED q' = false → runs (k q') db Q) →
  runs (mthen (if VARATT_IS_COMPRESSED q then mlift (decompress_new palloc q) else mret q) k) db Q.
Proof.
  intros Hq Hdb Hk. destruct (VARATT_IS_COMPRESSED q) eqn:HC.
  - eapply runs_bind_ok; [by apply decompress_ok|]. apply Hk; [apply varlena_inline, Hq|].
    apply (varlena_value data (proj1 Hq)).
  - apply runs_bind_ret. by apply Hk.
Qed.

Lemma untoast_slice_ok db p data off len :
  db_ok db → value db p data → 0 ≤ off → - 2 ^ 31 ≤ len → off + len < 2 ^ 31 →
  (VARATT_EXTERNAL_IS_COMPRESSED p = Some false → external_value db p data → avoids_short off len data) →
  runs (heap_tuple_untoast_attr_slice false palloc p off len) db
    (λ q db', q = varlena (substring off len data) ∧ steady db db' ∧ db_ok db').
Proof.
  intros Hdb Hv Ho Hl Hol Hav. unfold heap_tuple_untoast_attr_slice.
  assert (Hext : ∃ b, (if VARATT_IS_EXTERNAL p then lift_opt (VARATT_EXTERNAL_IS_COMPRESSED p) else ok true) = ok b ∧
    (b = false → external_value db p data ∧ VARATT_EXTERNAL_IS_COMPRESSED p = Some false)).
  { destruct Hv as [Hi|He].
    - rewrite (inline_external _ _ Hi). by exists true.
    - pose proof He as (bytes & id & relid & rel & Hp & _ & _ & _ & Hi). pose proof (fits_len _ (proj1 Hi)).
      rewrite (pt_external _ _ _ _ _ Hp), (pointer_compressed _ _ _ _ _ Hp) by (unfold VARHDRSZ; lia).
      eexists. split; [done|]. intros E. split; [done|]. by rewrite E. }
  destruct Hext as (b & Eb & Hb). eapply runs_bind_ok; [exact Eb|]. destruct b; cbn [negb].
  2: { destruct (Hb eq_refl) as [He HC]. apply fetch_slice_ok; auto. }
  apply runs_bind. eapply runs_mono; [by apply (inlined_ok palloc palloc_len)|]. cbn beta. intros q db' (Hq & Hx & Hdb').
  apply (decompressed_ok _ _ data); [done..|]. intros q' Hq' HC'.
  destruct (plain_data_ok q' data Hq' HC') as [Es Ed]. destruct (plain_data q') as [attrdata attrsize].
  cbn [fst snd] in Es, Ed. subst attrsize. pose proof (fits_len data (proj1 Hq')) as Hfl.
  destruct (clip_slice (blen data) off len) as [o n] eqn:Eclip.
  destruct (clip_slice_ok off len data o n Ho Hl Hol ltac:(lia) Eclip) as (Ho' & Hn & Hon & Esub & _).
  assert (Hbs : blen (substring off len data) = n) by (rewrite <- Esub; apply blen_slice; lia).
  unfold VARHDRSZ. rewrite (s32_id (n + 4)) by lia. eapply runs_bind_ok; [apply alloc_ok; unfold MaxAllocSize; lia|].
  eapply runs_bind_opt; [apply (read_at_front _ data); done || lia|]. rewrite Esub.
  destruct (set_data (palloc (n + 4)) (substring off len data)) as (rest & Ew & Hw);
    [rewrite palloc_len; lia|lia|]. rewrite Hbs in Ew.
  eapply runs_lift; [unfold VARHDRSZ in Ew; by rewrite Ew|]. split; [|done].
  rewrite palloc_len, blen_app in Hw by lia. unfold varlena in Hw at 1. rewrite blen_app in Hw.
  assert (Hh : blen (reverse (Z_to_little_endian 4 8 (blen (substring off len data) + VARHDRSZ))) = 4)
    by (unfold blen; rewrite length_reverse, length_le_bytes; done).
  destruct rest; [by rewrite app_nil_r|]. rewrite Hh in Hw. rewrite blen_cons in Hw.
  pose proof (blen_nonneg rest). lia.
Qed.
End Slices.
