(* ===== verification/ToastInsert.v ===== *)
(** Making a tuple fit: [toast_insert_or_update] compresses values and moves
    them out of the tuple; the tuple that it returns stands for the same row,
    and the values that an update leaves behind are deleted. *)
From Stdlib Require Import Ascii.
From stdpp Require Import prelude functions numbers list gmap sorting.
From S2P Require Import Prelude Varlena PgLz PgLzRound HeapTuple HeapTupleForm HeapTupleRead HeapTupleSpec.
From S2P Require Import Toast ToastRows ToastValue.

Local Open Scope Z_scope.

(** ** Rows *)

(** A column of the new row, with what its value stands for, and the value that
    the old row has for it (with whether it is null), if there is one. *)
Record col := mkCol {
  c_att : Form_pg_attribute;
  c_value : Datum;
  c_null : bool;
  c_data : list Z;
  c_old : option (Datum * bool)
}.

(** The old value, if it is stored outside of the old tuple. *)
Definition old_pointer (a : Form_pg_attribute) (old : option (Datum * bool)) : option (list Z) :=
  match old with
  | Some (ByRef p, false) => if (attlen a =? -1) && VARATT_IS_EXTERNAL p then Some p else None
  | _ => None
  end.

(** The same pointer in the new row. *)
Definition same_pointer (op : list Z) (v : Datum) (null : bool) : bool :=
  negb null &&
  match v with
  | ByRef np => VARATT_IS_EXTERNAL np && bool_decide (take 20 op = take 20 np)
  | ByVal _ => false
  end.

Definition old_id (c : col) : option (Z * Z) := old_pointer (c_att c) (c_old c) ≫= ptr_id.

(** The old value is not used by the new row. *)
Definition replaced (c : col) : bool :=
  match old_pointer (c_att c) (c_old c) with
  | Some op => negb (same_pointer op (c_value c) (c_null c))
  | None => false
  end.

Definition doomed (cols : list col) : list (Z * Z) := omap (λ c, if replaced c then old_id c else None) cols.

(** How large the column can become: any form of its value, and padding. *)
Definition weight (c : col) : Z :=
  if c_null c then 0
  else if attlen (c_att c) =? -1 then blen (c_data c) + 40
  else blen (attr_image (c_att c) (c_value c)) + 8.

Definition row_weight (cols : list col) : Z := foldr (λ c n, weight c + n) 0 cols.

Lemma layout_le cols vs : ∀ pos,
  Forall2 (λ c v, c_null c = false → blen (attr_image (c_att c) v) + 8 ≤ weight c) cols vs →
  blen (layout (c_att <$> cols) vs (c_null <$> cols) pos) ≤ row_weight cols.
Proof.
  intros pos H. revert pos. induction H as [|c v cols vs Hc _ IH]; intros pos; [done|].
  cbn [fmap list_fmap layout row_weight foldr]. fold (row_weight cols). destruct (c_null c) eqn:En.
  - unfold weight. rewrite En. rewrite Z.add_0_l. apply IH.
  - specialize (Hc eq_refl). rewrite !blen_app. specialize (IH (attr_start (c_att c) v pos + blen (attr_image (c_att c) v))).
    pose proof (attr_pad_lt (c_att c) v pos).
    change (list_fmap col Form_pg_attribute c_att cols) with (c_att <$> cols).
    change (list_fmap col bool c_null cols) with (c_null <$> cols). lia.
Qed.

(** The length of a stored value that is not a varlena. *)
Lemma image_same_len a v d :
  attlen a ≠ -1 → attr_ok a v → attr_ok a d → same_value a v d → blen (attr_image a d) = blen (attr_image a v).
Proof.
  intros Ha Hv Hd Hs. destruct (decide (0 < attlen a)); [by rewrite !image_fixed|].
  destruct v as [z|p], d as [z'|q]; try done.
  { destruct Hv as [_ Hl]. set_unfold. lia. }
  destruct Hv as [_ [[? _]|[[E2 [m Hm]]|?]]]; [done| |lia].
  cbn [same_value] in Hs. unfold plain_len in Hs. unfold attr_image. rewrite E2 in *.
  cbn [Z.eqb Pos.eqb] in *. rewrite Hm in *. cbn [default from_option id] in *.
  rewrite (strlen_same p q m Hm Hs). cbn [default from_option id]. by rewrite Hs.
Qed.

Lemma varlena_byref a v : attr_ok a v → attlen a = -1 → ∃ p, v = ByRef p ∧ attbyval a = false ∧ varlena_ok p.
Proof.
  intros Hok Ea. destruct v as [z|p]; cbn [attr_ok] in Hok.
  - destruct Hok as [_ Hl]. rewrite Ea in Hl. set_unfold. lia.
  - destruct Hok as [Eb [[_ Hp]|[[? _]|?]]]; [by exists p|lia..].
Qed.

Lemma same_read a v w :
  attlen a = -1 → attr_ok a w → same_value a v w →
  ∃ p q, v = ByRef p ∧ w = ByRef q ∧ varlena_ok q ∧ same_varlena p q ∧ attbyval a = false.
Proof.
  intros Ea Hok Hs. destruct (varlena_byref a w Hok Ea) as (q & -> & Eb & Hq). destruct v as [z|p]; [done|].
  cbn [same_value] in Hs. rewrite Ea in Hs. by exists p, q.
Qed.

Section Insert.
Context {R : Type} `{!ToastAM R, !ToastAMLaws R}.
Context (flatten : list Z → Z → Z → res (list Z)) (palloc : Z → list Z).
Context (palloc_len : ∀ n, 0 ≤ n → blen (palloc n) = n).
Implicit Types (db : Db R).

(** The value of the column stands for its data. *)
Definition col_value db (c : col) : Prop :=
  c_null c = false → attlen (c_att c) = -1 → ∃ p, c_value c = ByRef p ∧ value db p (c_data c).

(** The datum [v] is the value of the column, and not one that was deleted. *)
Definition col_reads db (c : col) (v : Datum) : Prop :=
  c_null c = false →
  attr_ok (c_att c) v ∧
  (if attlen (c_att c) =? -1 then ∃ p, v = ByRef p ∧ live_value db p (c_data c)
   else same_value (c_att c) (c_value c) v).

Lemma col_reads_extends db db' c v : extends db db' → col_reads db c v → col_reads db' c v.
Proof.
  intros Hx H Hn. destruct (H Hn) as [Hok Hv]. split; [done|]. destruct (attlen (c_att c) =? -1); [|done].
  destruct Hv as (p & -> & Hv). exists p. split; [done|by eapply live_value_extends].
Qed.

(** Reading a stored column again. *)
Lemma col_reads_same db c v d :
  (c_null c = false → attr_ok (c_att c) (c_value c)) → col_reads db c v →
  (c_null c = false → same_value (c_att c) v d ∧ attr_ok (c_att c) d) → col_reads db c d.
Proof.
  intros Hc Hv Hd Hn. destruct (Hd Hn) as [Hs Hok]. destruct (Hv Hn) as [Hvok Hvv]. split; [done|].
  destruct (Z.eqb_spec (attlen (c_att c)) (-1)) as [Ea|Ea].
  - destruct Hvv as (p & -> & Hp). destruct d as [z|q]; [done|]. exists q. split; [done|].
    cbn [same_value] in Hs. rewrite Ea in Hs. cbn [Z.eqb Pos.eqb] in Hs. eapply live_value_same; [done| |done].
    destruct Hok as [_ [[_ Hok]|[[? _]|?]]]; [done|lia..].
  - eapply same_value_trans; [by apply Hc|done|done].
Qed.

(** ** The state of the attributes *)

Record tattr_ok db (gone : list (Z * Z)) (c : col) (x : TAttr) : Prop := {
  ta_reads : col_reads db c (ta_value x);
  ta_weight : c_null c = false → blen (attr_image (c_att c) (ta_value x)) + 8 ≤ weight c;
  ta_safe : c_null c = false → attlen (c_att c) = -1 → ∀ p ri,
    ta_value x = ByRef p → VARATT_IS_EXTERNAL p = true → ptr_id p = Some ri → ri ∉ gone;
  ta_inline : ta_action x ≠ "p"%char → c_null c = false ∧ attlen (c_att c) = -1 ∧
    ∃ p, ta_value x = ByRef p ∧ inline_value p (c_data c) ∧ ta_size x = VARSIZE_ANY p;
  ta_done : ta_action x = "p"%char → c_null c = false → attlen (c_att c) = -1 → attstorage (c_att c) ≠ "p"%char →
    ∃ p, ta_value x = ByRef p ∧ VARATT_IS_EXTERNAL p = true
}.

Lemma tattr_extends db db' gone c x : extends db db' → tattr_ok db gone c x → tattr_ok db' gone c x.
Proof. intros Hx [H1 H2 H3 H4 H5]. split; try done. by eapply col_reads_extends. Qed.

Lemma weight_varlena c : c_null c = false → attlen (c_att c) = -1 → weight c = blen (c_data c) + 40.
Proof. intros En Ea. unfold weight. by rewrite En, Ea. Qed.

(** An attribute that has got a value in memory, or outside. *)
Lemma tattr_inline db gone c action p :
  c_null c = false → attlen (c_att c) = -1 → attbyval (c_att c) = false → inline_value p (c_data c) →
  (action = "p"%char → attstorage (c_att c) = "p"%char) →
  tattr_ok db gone c (mkTAttr action (ByRef p) (VARSIZE_ANY p)).
Proof.
  intros En Ea Eb Hi Hact. pose proof (inline_ok _ _ Hi) as Hok. pose proof (inline_size _ _ Hi) as Hsz.
  split; cbn [ta_value ta_action ta_size].
  - intros _. split; [split; [done|by left]|]. rewrite Ea. cbn. exists p. split; [done|by left].
  - intros _. rewrite weight_varlena by done. pose proof (image_le (c_att c) p Ea Hok). lia.
  - intros _ _ p' ri [= <-] HE. rewrite (inline_external _ _ Hi) in HE. done.
  - intros _. split; [done|]. split; [done|]. by exists p.
  - intros E _ _ Hne. by destruct (Hne (Hact E)).
Qed.

Lemma tattr_external db gone c p n :
  c_null c = false → attlen (c_att c) = -1 → attbyval (c_att c) = false → external_value db p (c_data c) →
  (∀ ri, ptr_id p = Some ri → live db ri ∧ ri ∉ gone) → tattr_ok db gone c (mkTAttr "p" (ByRef p) n).
Proof.
  intros En Ea Eb He Hg. pose proof He as (bytes & id & relid & rel & Hp & _).
  pose proof (pt_ok _ _ _ _ _ Hp) as Hok. split; cbn [ta_value ta_action ta_size]; [| | |done|].
  - intros _. split; [split; [done|by left]|]. rewrite Ea. cbn. exists p. split; [done|right]. split; [done|]. intros ri Hri. by apply Hg.
  - intros _. rewrite weight_varlena by done. pose proof (image_le (c_att c) p Ea Hok) as Hl.
    unfold VARSIZE_ANY in Hl. pose proof (pt_external _ _ _ _ _ Hp) as HE. unfold VARATT_IS_EXTERNAL in HE.
    rewrite HE in Hl. change (VARSIZE_EXTERNAL p) with 20 in Hl. pose proof (blen_nonneg (c_data c)). lia.
  - intros _ _ p' ri [= <-] _ Hri. by apply Hg.
  - intros _ _ _ _. exists p. split; [done|]. apply Hp.
Qed.

Lemma tattr_byval db gone c x :
  tattr_ok db gone c x → ta_action x ≠ "p"%char → attbyval (c_att c) = false.
Proof.
  intros Hx Ha. destruct (ta_inline _ _ _ _ Hx Ha) as (En & _ & p & Ep & _).
  destruct (ta_reads _ _ _ _ Hx En) as [Hok _]. rewrite Ep in Hok. apply Hok.
Qed.

(** ** Candidates *)

Section Passes.
Context (d : TupleDesc) (cols : list col) (gone : list (Z * Z)).
Context (Ed : attrs d = c_att <$> cols).

Local Abbreviation nulls := (c_null <$> cols).
Local Abbreviation state db := (Forall2 (tattr_ok db gone) cols).

Lemma state_row db xs : state db xs → row_ok (attrs d) (ta_value <$> xs) nulls.
Proof.
  rewrite Ed. clear Ed. induction 1 as [|c x cs xs' Hx _ IH]; [constructor|]. constructor; [|done].
  intros En. apply (ta_reads _ _ _ _ Hx En).
Qed.

Lemma too_big_ok db xs maxlen : state db xs → ∃ b, too_big d nulls maxlen xs = Some b.
Proof.
  intros Hs. unfold too_big, heap_compute_data_size. rewrite compute_loop_ok by by eapply state_row.
  cbn [mbind option_bind]. eauto.
Qed.

Lemma find_biggest_ok (can : Form_pg_attribute → TAttr → option bool) atts xs : ∀ i b0 s0,
  length xs = length atts → b0 < i →
  (∀ k a x, atts !! k = Some a → xs !! k = Some x → is_Some (can a x)) →
  ∃ r, find_biggest can atts xs i b0 s0 = Some r ∧
    ((∃ k a x, r = i + Z.of_nat k ∧ atts !! k = Some a ∧ xs !! k = Some x ∧ can a x = Some true ∧ s0 < ta_size x) ∨
     r = b0 ∧ ∀ k a x, atts !! k = Some a → xs !! k = Some x → can a x = Some true → ta_size x ≤ s0).
Proof.
  revert xs. induction atts as [|a atts IH]; intros [|x xs] i b0 s0 Hl Hb Hcan; try done.
  { exists b0. split; [done|]. right. by split. }
  cbn [find_biggest]. destruct (Hcan 0%nat a x eq_refl eq_refl) as [c Ec]. rewrite Ec. cbn [mbind option_bind].
  assert (Hcan' : ∀ k a' x', atts !! k = Some a' → xs !! k = Some x' → is_Some (can a' x'))
    by (intros k a' x' ? ?; by apply (Hcan (S k))).
  injection Hl as Hl. destruct (c && (s0 <? ta_size x)) eqn:E.
  - apply andb_true_iff in E as [-> E%Z.ltb_lt].
    destruct (IH xs (i + 1) i (ta_size x) Hl ltac:(lia) Hcan') as (r & Er & [(k & a' & x' & -> & ? & ? & ? & ?)|[-> _]]);
      (eexists; split; [exact Er|]); left.
    + exists (S k), a', x'. split_and!; try done; lia.
    + exists 0%nat, a, x. split_and!; try done; lia.
  - destruct (IH xs (i + 1) b0 s0 Hl ltac:(lia) Hcan') as (r & Er & [(k & a' & x' & -> & ? & ? & ? & ?)|[-> Hall]]);
      (eexists; split; [exact Er|]).
    + left. exists (S k), a', x'. split_and!; try done; lia.
    + right. split; [done|]. intros [|k] a' x' Ha Hx Hc'; [|by eapply Hall].
      cbn in Ha, Hx. simplify_eq. rewrite andb_true_l in E. apply Z.ltb_ge in E. done.
Qed.

(** The candidate that is taken, if there is one. *)
Lemma biggest_ok db xs can :
  state db xs → (∀ c x, tattr_ok db gone c x → is_Some (can (c_att c) x)) →
  ∃ r, biggest can d xs = Some r ∧
    ((∃ k c x, r = Z.of_nat k ∧ cols !! k = Some c ∧ xs !! k = Some x ∧ tattr_ok db gone c x ∧
        can (c_att c) x = Some true ∧ 24 < ta_size x) ∨
     r = -1 ∧ ∀ k c x, cols !! k = Some c → xs !! k = Some x → can (c_att c) x = Some true → ta_size x ≤ 24).
Proof.
  intros Hs Hcan. unfold biggest. rewrite Ed.
  destruct (find_biggest_ok can (c_att <$> cols) xs 0 (-1) (MAXALIGN sizeof_varattrib)) as (r & Er & Hr).
  - rewrite length_fmap. symmetry. by eapply Forall2_length.
  - lia.
  - intros k a x Ha Hx. apply list_lookup_fmap_Some in Ha as (c & -> & Hc). eapply Hcan.
    by eapply Forall2_lookup_lr.
  - exists r. split; [done|]. change (MAXALIGN sizeof_varattrib) with 24 in Hr.
    destruct Hr as [(k & a & x & -> & Ha & Hx & Hcx & Hsz)|[-> Hall]].
    + left. apply list_lookup_fmap_Some in Ha as (c & -> & Hc). exists k, c, x.
      pose proof (Forall2_lookup_lr _ _ _ _ _ _ Hs Hc Hx). rewrite Z.add_0_l. by split_and!.
    + right. split; [done|]. intros k c x Hc Hx. apply (Hall k); [|done]. by rewrite list_lookup_fmap, Hc.
Qed.

Lemma can_compress_ok db storage c x : tattr_ok db gone c x → is_Some (can_compress storage (c_att c) x).
Proof.
  intros Hx. unfold can_compress. destruct (Ascii.eqb_spec (ta_action x) " ") as [Ea|]; [|done].
  destruct (ta_inline _ _ _ _ Hx) as (_ & _ & p & -> & _); [by rewrite Ea|]. done.
Qed.

Lemma can_move_ok db storages c x : tattr_ok db gone c x → is_Some (can_move storages (c_att c) x).
Proof.
  intros Hx. unfold can_move. destruct (Ascii.eqb_spec (ta_action x) "p") as [Ea|Ea]; [done|].
  destruct (ta_inline _ _ _ _ Hx Ea) as (_ & _ & p & -> & _). done.
Qed.

Lemma count_insert {A} (P : A → Prop) `{∀ x, Decision (P x)} (l : list A) i x y :
  l !! i = Some x → P x → ¬ P y → (length (filter P (<[i := y]> l)) < length (filter P l))%nat.
Proof.
  intros Hi Hx Hy. rewrite (insert_take_drop l i y) by by eapply lookup_lt_Some.
  rewrite <- (take_drop_middle l i x Hi) at 3. rewrite !filter_app, !length_app.
  rewrite (filter_cons_True P x), (filter_cons_False P y) by done. cbn [length]. lia.
Qed.

Lemma count_le {A} (P : A → Prop) `{∀ x, Decision (P x)} (l : list A) : (length (filter P l) ≤ length l)%nat.
Proof. apply length_filter. Qed.

Lemma state_insert db db' xs k c x y :
  extends db db' → state db xs → cols !! k = Some c → xs !! k = Some x → tattr_ok db' gone c y →
  state db' (<[k := y]> xs).
Proof.
  intros Hx Hs Hc Hk Hy. rewrite <- (list_insert_id cols k c Hc). apply Forall2_insert; [|done].
  eapply Forall2_impl; [exact Hs|]. intros. by eapply tattr_extends.
Qed.

(** ** The passes *)

Section Pass.
Context (maxlen : Z) (ds : list Datum) (relid start : Z).

(** Identifiers for [room] more rows, if there is a toast relation. *)
Local Abbreviation space room db := (relid ≠ InvalidOid → home relid start room db).

(** What a pass over the attributes with some of the storages leaves. *)
Record pass_post (storages : list ascii) (room : Z) db xs (r : list TAttr * bool) db' : Prop := {
  pass_state : state db' r.1;
  pass_extends : extends db db';
  pass_db : db_ok db';
  pass_space : space room db';
  pass_same : r.2 = false → ta_value <$> r.1 = ds;
  pass_untouched k c : cols !! k = Some c → attstorage (c_att c) ∉ storages → r.1 !! k = xs !! k;
  pass_small : too_big d nulls maxlen xs = Some false → r.1 = xs
}.

Lemma pass_done storages room db xs nc :
  state db xs → db_ok db → space room db → (nc = false → ta_value <$> xs = ds) → pass_post storages room db xs (xs, nc) db.
Proof. intros. by split. Qed.

(** One attribute is changed, and the pass goes on. *)
Lemma pass_step storages room db db1 xs k c x y r db' :
  extends db db1 → cols !! k = Some c → attstorage (c_att c) ∈ storages → xs !! k = Some x →
  too_big d nulls maxlen xs = Some true →
  pass_post storages room db1 (<[k := y]> xs) r db' → pass_post storages room db xs r db'.
Proof.
  intros Hx Hc Hst Hk Hbig [P1 P2 P3 P3' P4 P5 P6]. split; try done; [by etrans| |by rewrite Hbig].
  intros k' c' Hc' Hn. rewrite (P5 k' c') by done. apply list_lookup_insert_ne. intros ->. congruence.
Qed.

Definition may_compress (x : TAttr) : bool :=
  Ascii.eqb (ta_action x) " " &&
  match ta_value x with ByRef p => negb (VARATT_IS_COMPRESSED p) | ByVal _ => false end.

(** The attribute that is compressed next. *)
Lemma compress_candidate db xs storage :
  state db xs →
  ∃ r, biggest (can_compress storage) d xs = Some r ∧
    (r = -1 ∨ ∃ k c x p, r = Z.of_nat k ∧ cols !! k = Some c ∧ xs !! k = Some x ∧ tattr_ok db gone c x ∧
      ta_action x = " "%char ∧ may_compress x = true ∧ attstorage (c_att c) = storage ∧
      ta_value x = ByRef p ∧ VARATT_IS_COMPRESSED p = false).
Proof.
  intros Hs. destruct (biggest_ok db xs (can_compress storage) Hs (λ c x, can_compress_ok db storage c x))
    as (r & Er & Hr). exists r. split; [done|].
  destruct Hr as [(k & c & x & -> & Hc & Hk & Hx & Hcan & _)|[-> _]]; [|by left].
  right. unfold can_compress in Hcan. destruct (Ascii.eqb_spec (ta_action x) " ") as [Ea|]; [|done].
  destruct (ta_inline _ _ _ _ Hx ltac:(by rewrite Ea)) as (_ & _ & p & Ep & _).
  rewrite Ep in Hcan. cbn in Hcan. injection Hcan as Hcan.
  apply andb_true_iff in Hcan as [[_ HC%negb_true_iff]%andb_true_iff Hst%Ascii.eqb_eq].
  exists k, c, x, p. split_and!; try done. unfold may_compress. by rewrite Ea, Ep, HC.
Qed.

Lemma in_filter_pos {A} (P : A → Prop) `{∀ x, Decision (P x)} (l : list A) i x :
  l !! i = Some x → P x → (0 < length (filter P l))%nat.
Proof.
  intros Hi Hx. assert (Hin : x ∈ filter P l)
    by (apply list_elem_of_filter; split; [done|by eapply list_elem_of_lookup_2]).
  destruct (filter P l); [set_solver|cbn; lia].
Qed.

Lemma compress_pass_ok storage room n : ∀ db xs nc,
  storage ≠ "p"%char → state db xs → db_ok db → space room db → (nc = false → ta_value <$> xs = ds) →
  (length (filter (λ x, may_compress x = true) xs) ≤ n)%nat →
  runs (compress_pass palloc n storage d nulls maxlen xs nc) db (pass_post [storage] room db xs).
Proof.
  induction n as [|n IH]; intros db xs nc Hnp Hs Hdb Hsp Hnc Hn; cbn [compress_pass];
    destruct (too_big_ok db xs maxlen Hs) as [b Eb]; (eapply runs_bind_opt; [exact Eb|]);
    (destruct b; cbn [negb]; [|by apply runs_ret, pass_done]);
    destruct (compress_candidate db xs storage Hs) as (r & Er & Hr); (eapply runs_bind_opt; [exact Er|]);
    (destruct Hr as [->|(k & c & x & p & -> & Hc & Hk & Hx & Ea & Hmay & Hst & Ep & HC)];
      [by apply runs_ret, pass_done|]); (rewrite (proj2 (Z.ltb_ge _ _)) by lia).
  { pose proof (in_filter_pos (λ x, may_compress x = true) xs k x Hk Hmay). lia. }
  rewrite Nat2Z.id. eapply runs_bind_opt; [exact Hk|]. eapply runs_bind_opt; [by rewrite Ep|]. apply runs_bind.
  assert (Hb : attbyval (c_att c) = false) by (eapply tattr_byval; [done|by rewrite Ea]).
  destruct (ta_inline _ _ _ _ Hx ltac:(by rewrite Ea)) as (En & El & p' & Ep' & Hi & Esz).
  assert (p' = p) as -> by congruence.
  eapply runs_mono; [by apply (compress_ok palloc palloc_len)|]. cbn beta. intros o db1 (Ho & Hst1 & Hdb1).
  pose proof (steady_extends _ _ Hst1) as Hx1.
  assert (Hstep : ∀ y nc', tattr_ok db1 gone c y → may_compress y = false →
    (nc' = false → ta_value <$> <[k := y]> xs = ds) →
    runs (compress_pass palloc n storage d nulls maxlen (<[k := y]> xs) nc') db1 (pass_post [storage] room db xs)).
  { intros y nc' Hy Hmy Hv. eapply runs_mono; [apply IH; [done|by eapply state_insert|done|intros; by eapply home_steady, Hsp|done|]|].
    - pose proof (count_insert (λ x, may_compress x = true) xs k x y Hk Hmay ltac:(congruence)). lia.
    - cbn beta. intros r db' Hpost. eapply (pass_step _ _ _ db1 xs k c x y); try done. rewrite Hst. set_solver. }
  destruct o as [q|].
  - destruct Ho as (Hq & HCq & Esq). apply Hstep; [| |done].
    + rewrite Esq. apply tattr_inline; try done. by rewrite Ea.
    + unfold may_compress. cbn [ta_action ta_value]. rewrite HCq. cbn [negb]. apply andb_false_r.
  - apply Hstep; [|done|].
    + rewrite Ep, Esz. by apply tattr_inline.
    + intros E. rewrite list_fmap_insert. cbn [ta_value]. rewrite list_insert_id; [by apply Hnc|].
      by rewrite list_lookup_fmap, Hk.
Qed.

(** No attribute with one of the storages is left that could be moved. *)
Definition moved_out (storages : list ascii) (xs : list TAttr) : Prop :=
  ∀ k c x, cols !! k = Some c → xs !! k = Some x → can_move storages (c_att c) x = Some true → ta_size x ≤ 24.

Lemma existsb_elem storages (s : ascii) : existsb (Ascii.eqb s) storages = true ↔ s ∈ storages.
Proof.
  rewrite existsb_exists. split.
  - intros (s' & Hin & ->%Ascii.eqb_eq). by apply list_elem_of_In.
  - intros Hin. exists s. split; [by apply list_elem_of_In|apply Ascii.eqb_refl].
Qed.

(** The attribute that is moved out next. *)
Lemma move_candidate db xs storages :
  state db xs →
  ∃ r, biggest (can_move storages) d xs = Some r ∧
    (r = -1 ∧ moved_out storages xs ∨
     ∃ k c x, r = Z.of_nat k ∧ cols !! k = Some c ∧ xs !! k = Some x ∧ tattr_ok db gone c x ∧
      ta_action x ≠ "p"%char ∧ attstorage (c_att c) ∈ storages ∧ 24 < ta_size x).
Proof.
  intros Hs. destruct (biggest_ok db xs (can_move storages) Hs (λ c x, can_move_ok db storages c x))
    as (r & Er & Hr). exists r. split; [done|].
  destruct Hr as [(k & c & x & -> & Hc & Hk & Hx & Hcan & Hsz)|[-> Hall]]; [|by left].
  right. unfold can_move in Hcan. destruct (Ascii.eqb_spec (ta_action x) "p") as [|Ea]; [done|].
  destruct (ta_inline _ _ _ _ Hx Ea) as (_ & _ & p & Ep & _). rewrite Ep in Hcan. cbn in Hcan. injection Hcan as Hcan.
  apply andb_true_iff in Hcan as [_ Hst%existsb_elem]. by exists k, c, x.
Qed.

Lemma move_pass_ok storages n : ∀ room db xs nc,
  (∀ ri, ri ∈ gone → live db ri) →
  state db xs → db_ok db → space room db → Z.of_nat n * max_chunks ≤ room → (nc = false → ta_value <$> xs = ds) →
  (length (filter (λ x, ta_action x ≠ "p"%char) xs) ≤ n)%nat →
  runs (move_pass true flatten palloc n storages relid d nulls maxlen xs nc) db (λ r db',
    pass_post storages (room - Z.of_nat n * max_chunks) db xs r db' ∧
    (too_big d nulls maxlen r.1 = Some false ∨ relid = InvalidOid ∨ moved_out storages r.1)).
Proof.
  induction n as [|n IH]; intros room db xs nc Hgone Hs Hdb Hsp Hroom Hnc Hn; cbn [move_pass];
    destruct (too_big_ok db xs maxlen Hs) as [b Eb]; (eapply runs_bind_opt; [exact Eb|]);
    assert (Hdone : ∀ k : nat, pass_post storages (room - Z.of_nat k * max_chunks) db xs (xs, nc) db)
      by (intros k; apply pass_done; [done|done|intros Hne; eapply home_le; [|by apply Hsp]; unfold max_chunks; lia|done]);
    (destruct b; cbn [negb orb]; [|by apply runs_ret; split; [apply Hdone|left]]);
    (destruct (Z.eqb_spec relid InvalidOid) as [Hinv|Hinv];
      [by apply runs_ret; split; [apply Hdone|right; left]|]);
    destruct (move_candidate db xs storages Hs) as (r & Er & Hr); (eapply runs_bind_opt; [exact Er|]);
    (destruct Hr as [[-> Hall]|(k & c & x & -> & Hc & Hk & Hx & Ea & Hst & Hsz)];
      [by apply runs_ret; split; [apply Hdone|right; right]|]); (rewrite (proj2 (Z.ltb_ge _ _)) by lia).
  { pose proof (in_filter_pos (λ x, ta_action x ≠ "p"%char) xs k x Hk Ea). lia. }
  destruct (ta_inline _ _ _ _ Hx Ea) as (En & El & p & Ep & Hi & Esz).
  rewrite Nat2Z.id. eapply runs_bind_opt; [exact Hk|]. eapply runs_bind_opt; [by rewrite Ep|]. apply runs_bind.
  eapply runs_mono; [apply (save_ok flatten palloc palloc_len relid start room db p (c_data c)); try done;
    [by apply Hsp|unfold max_chunks in *; lia..]|].
  cbn beta. intros q db1 (Hq & Hx1 & Hdb1 & Hhome1 & Hfresh). set (y := mkTAttr "p" (ByRef q) (ta_size x)).
  assert (Hy : tattr_ok db1 gone c y).
  { apply tattr_external; try done; [by eapply tattr_byval|]. intros ri Hri. destruct (Hfresh ri Hri) as [Hnp Hl].
    split; [done|]. intros Hin. by apply Hnp, live_present, Hgone. }
  eapply runs_mono; [apply (IH (room - max_chunks) db1 (<[k := y]> xs) true)|].
  - intros ri Hin. eapply live_extends; [done|by apply Hgone].
  - by eapply state_insert.
  - done.
  - done.
  - lia.
  - done.
  - pose proof (count_insert (λ x, ta_action x ≠ "p"%char) xs k x y Hk Ea ltac:(intros []; done)). lia.
  - cbn beta. intros r db' [Hpost Hend]. split; [|done]. eapply (pass_step _ _ _ db1 xs k c x y); try done.
    replace (room - Z.of_nat (S n) * max_chunks) with (room - max_chunks - Z.of_nat n * max_chunks) by lia. done.
Qed.
End Pass.
End Passes.

(** ** Collecting the values *)

(** What the old row has for the column reads as [old]. *)
Definition old_same (c : col) (old : option (Datum * bool)) : Prop :=
  match c_old c, old with
  | None, None => True
  | Some (ov, on), Some (ov', on') =>
      on' = on ∧ (on = false → attr_ok (c_att c) ov' ∧ same_value (c_att c) ov ov')
  | _, _ => False
  end.

Record collect_pre db (gone : list (Z * Z)) (c : col) (old : option (Datum * bool)) (v : Datum) : Prop := {
  cp_value : c_null c = false → attr_ok (c_att c) (c_value c) ∧ same_value (c_att c) (c_value c) v ∧ attr_ok (c_att c) v;
  cp_data : col_value db c;
  cp_old : old_same c old;
  cp_kept ri : replaced c = false → old_id c = Some ri → live db ri ∧ ri ∉ gone
}.

Lemma collect_pre_extends db db' gone c old v :
  extends db db' → collect_pre db gone c old v → collect_pre db' gone c old v.
Proof.
  intros Hx [H1 H2 H3 H4]. split; try done.
  - intros En Ea. destruct (H2 En Ea) as (p & Ep & Hv). exists p. split; [done|by eapply value_extends].
  - intros ri Er Ei. destruct (H4 ri Er Ei). split; [by eapply live_extends|done].
Qed.

Lemma external_take p : varlena_ok p → VARATT_IS_EXTERNAL p = true → 20 ≤ blen p ∧ content p = take 20 p.
Proof.
  intros Hp HE. destruct (varlena_cases p Hp) as [_ [(_ & _ & Hs & Hl)|[(? & _)|(? & _)]]]; [|congruence..].
  split; [done|]. unfold content. by rewrite HE, Hs.
Qed.

(** What the same column is as it is read. *)
Lemma take_same_pointer p q :
  same_varlena p q → varlena_ok q → varlena_ok p → VARATT_IS_EXTERNAL p = true → take 20 q = take 20 p ∧ 20 ≤ blen q.
Proof.
  intros (SE & _ & Sc) Hq Hp HE. rewrite HE in SE. destruct (external_take q Hq SE) as [? Cq].
  destruct (external_take p Hp HE) as [_ Cp]. split; [congruence|done].
Qed.

(** An old value that is stored outside, as it is read. *)
Lemma old_external_ok db gone c old v :
  collect_pre db gone c old v →
  (∀ op, old_pointer (c_att c) (c_old c) = Some op → varlena_ok op) →
  old_external (c_att c) old v (c_null c) =
    Some (match old_pointer (c_att c) (c_old c) with Some _ => Some (replaced c) | None => None end).
Proof.
  intros [Hv _ Ho _] Hop. unfold replaced, old_same in *. unfold old_external.
  destruct (c_old c) as [[ov on]|], old as [[ov' on']|]; try done.
  destruct Ho as [-> Ho]. destruct on; [by destruct ov|]. destruct (Ho eq_refl) as [Hok Hs]. clear Ho.
  unfold old_pointer in *. destruct (Z.eqb_spec (attlen (c_att c)) (-1)) as [Ea|Ea]; [|by destruct ov].
  destruct (same_read _ _ _ Ea Hok Hs) as (op & op' & -> & -> & Hop' & Hsv & _).
  cbn [andb DatumGetPointer mbind option_bind] in *. rewrite (proj1 Hsv).
  destruct (VARATT_IS_EXTERNAL op) eqn:HE; [|done]. specialize (Hop op eq_refl).
  destruct (take_same_pointer op op' Hsv Hop' Hop HE) as [Et Hl].
  unfold same_pointer. destruct (c_null c) eqn:En; [done|]. destruct (Hv eq_refl) as (Hcok & Hcs & Hvok).
  destruct (same_read _ _ _ Ea Hvok Hcs) as (np & np' & Ec & -> & Hnp' & Hsn & _). rewrite Ec in *.
  cbn [negb andb DatumGetPointer mbind option_bind]. rewrite (proj1 Hsn).
  destruct (VARATT_IS_EXTERNAL np) eqn:HEn; [|done]. cbn [negb andb].
  destruct (varlena_byref _ _ Hcok Ea) as (np1 & [= <-] & _ & Hnp).
  destruct (take_same_pointer np np' Hsn Hnp' Hnp HEn) as [Etn Hln].
  unfold pointer_differs. change (VARSIZE_EXTERNAL op') with 20. rewrite !read_bytes_ok by lia.
  cbn [mbind option_bind]. change (Z.to_nat 20) with 20%nat. by rewrite Et, Etn.
Qed.

Lemma plain_inline q data : plain_value q data → fits data → inline_value q data.
Proof. intros [] Hf. split; [done|]. by left. Qed.

Lemma value_fits db p data : value db p data → fits data.
Proof. intros [Hi|(bytes & id & relid & rel & _ & _ & _ & _ & Hi)]; apply Hi. Qed.

Lemma value_external db p data : value db p data → VARATT_IS_EXTERNAL p = true → external_value db p data.
Proof. intros [Hi|He] HE; [|done]. rewrite (inline_external _ _ Hi) in HE. done. Qed.

Lemma ptr_id_same p q : take 20 q = take 20 p → 20 ≤ blen p → 20 ≤ blen q → ptr_id q = ptr_id p.
Proof.
  intros E Hp Hq. unfold ptr_id, va_toastrelid, va_valueid. by rewrite !(va_word_same p q) by (done || lia).
Qed.

(** The value of a column that is not null, in memory. *)
Lemma collect_value db gone c v :
  c_null c = false → attlen (c_att c) = -1 → db_ok db →
  (∃ p, v = ByRef p ∧ attbyval (c_att c) = false ∧ value db p (c_data c)) →
  let plain := Ascii.eqb (attstorage (c_att c)) "p" in
  let action := (if plain then "p" else " ")%char in
  runs (let^ p := mlift (lift_opt (DatumGetPointer v)) in
        if VARATT_IS_EXTERNAL p then
          let^ new := (if plain then heap_tuple_untoast_attr false palloc p
                       else heap_tuple_fetch_attr false palloc p) in
          mret (mkTAttr action (ByRef new) (VARSIZE_ANY new), true, replaced c)
        else mret (mkTAttr action v (VARSIZE_ANY p), false, replaced c)) db
    (λ r db', tattr_ok db' gone c r.1.1 ∧ (r.1.2 = false → ta_value r.1.1 = v) ∧ r.2 = replaced c ∧
       steady db db' ∧ db_ok db').
Proof.
  intros En Ea Hdb (p & -> & Eb & Hp) plain action. eapply runs_bind_opt; [done|]. pose proof (value_fits _ _ _ Hp) as Hfit.
  assert (Hact : action = "p"%char → attstorage (c_att c) = "p"%char).
  { unfold action, plain. by destruct (Ascii.eqb_spec (attstorage (c_att c)) "p"). }
  destruct (VARATT_IS_EXTERNAL p) eqn:HE.
  - apply runs_bind. apply runs_mono with (Q := λ q db', inline_value q (c_data c) ∧ steady db db' ∧ db_ok db').
    + destruct plain.
      * eapply runs_mono; [by apply (untoast_ok palloc palloc_len)|]. cbn beta. intros q db' (Hq & H).
        split; [by apply plain_inline|done].
      * by apply (inlined_ok palloc palloc_len).
    + cbn beta. intros q db' (Hq & Hx & Hdb'). apply runs_ret. cbn [fst snd]. split_and!; try done. by apply tattr_inline.
  - apply runs_ret. cbn [fst snd]. split_and!; try done. apply tattr_inline; try done.
    destruct Hp as [?|(bytes & id & relid & rel & Hpt & _)]; [done|].
    rewrite (pt_external _ _ _ _ _ Hpt) in HE. done.
Qed.

(** Attributes that are left as they are. *)
Lemma tattr_null db gone c v : c_null c = true → tattr_ok db gone c (mkTAttr "p" v 0).
Proof. intros En. split; cbn [ta_action]; unfold col_reads; congruence. Qed.

Lemma tattr_fixed db gone c v :
  attlen (c_att c) ≠ -1 →
  (c_null c = false → attr_ok (c_att c) (c_value c) ∧ same_value (c_att c) (c_value c) v ∧ attr_ok (c_att c) v) →
  tattr_ok db gone c (mkTAttr "p" v 0).
Proof.
  intros Ea Hv. split; cbn [ta_action ta_value]; try done.
  - intros En. destruct (Hv En) as (_ & Hs & Hok). split; [done|]. by rewrite (proj2 (Z.eqb_neq _ _) Ea).
  - intros En. destruct (Hv En) as (Hc & Hs & Hok). unfold weight. rewrite En, (proj2 (Z.eqb_neq _ _) Ea).
    rewrite (image_same_len _ (c_value c) v) by done. lia.
Qed.

Lemma old_pointer_external a old op :
  old_pointer a old = Some op → attlen a = -1 ∧ VARATT_IS_EXTERNAL op = true ∧ old = Some (ByRef op, false).
Proof.
  unfold old_pointer. destruct old as [[[?|q] [|]]|]; try done.
  destruct (Z.eqb_spec (attlen a) (-1)); [|done]. cbn [andb].
  destruct (VARATT_IS_EXTERNAL q) eqn:E; [|done]. by intros [= ->].
Qed.

(** The pointer of the old row is used again. *)
Lemma tattr_kept db gone c old v op :
  collect_pre db gone c old v → old_pointer (c_att c) (c_old c) = Some op → varlena_ok op →
  replaced c = false → tattr_ok db gone c (mkTAttr "p" v 0).
Proof.
  intros [Hv Hd _ Hk] Eop Hopok Er. destruct (old_pointer_external _ _ _ Eop) as (Ea & HEo & _).
  pose proof Er as Er'. unfold replaced in Er'. rewrite Eop in Er'. apply negb_false_iff in Er'.
  unfold same_pointer in Er'. destruct (c_null c) eqn:En; [done|]. cbn [negb andb] in Er'.
  destruct (Hv eq_refl) as (Hcok & Hcs & Hvok).
  destruct (same_read _ _ _ Ea Hvok Hcs) as (np & np' & Ec & -> & Hnp' & Hsn & Eb). rewrite Ec in *.
  apply andb_true_iff in Er' as [HEn Ht%bool_decide_eq_true].
  destruct (varlena_byref _ _ Hcok Ea) as (np1 & [= <-] & _ & Hnp).
  destruct (take_same_pointer np np' Hsn Hnp' Hnp HEn) as [Etn Hln].
  destruct (external_take op Hopok HEo) as [Hlo _].
  destruct (Hd En Ea) as (p & Ep & Hval). rewrite Ec in Ep. injection Ep as <-.
  apply tattr_external; try done.
  - apply value_external; [by eapply value_same|]. by rewrite (proj1 Hsn).
  - intros ri Hri. apply Hk; [done|]. unfold old_id. rewrite Eop. cbn. rewrite <- Hri. symmetry.
    apply ptr_id_same; [congruence|done|done].
Qed.

Lemma collect_attr_ok db gone c old v :
  db_ok db → collect_pre db gone c old v →
  (∀ op, old_pointer (c_att c) (c_old c) = Some op → varlena_ok op) →
  runs (collect_attr false palloc (c_att c) old v (c_null c)) db
    (λ r db', tattr_ok db' gone c r.1.1 ∧ (r.1.2 = false → ta_value r.1.1 = v) ∧ r.2 = replaced c ∧
       steady db db' ∧ db_ok db').
Proof.
  intros Hdb Hpre Hop. pose proof (old_external_ok db gone c old v Hpre Hop) as Eo. unfold collect_attr.
  eapply runs_bind_opt; [exact Eo|]. clear Eo. pose proof Hpre as [Hv Hd _ _]. cbv beta zeta.
  assert (Hdel : (match match old_pointer (c_att c) (c_old c) with Some _ => Some (replaced c) | None => None end with
                  | Some true => true | _ => false end) = replaced c).
  { unfold replaced. destruct (old_pointer _ _); [by destruct (negb _)|done]. }
  rewrite Hdel. clear Hdel.
  destruct (match match old_pointer (c_att c) (c_old c) with Some _ => Some (replaced c) | None => None end with
            | Some false => true | _ => false end) eqn:Ekeep.
  - destruct (old_pointer (c_att c) (c_old c)) as [op|] eqn:Eop; [|done].
    apply runs_ret. cbn [fst snd]. split_and!; try done. apply (tattr_kept db gone c old v op); try done; [by apply Hop|].
    by destruct (replaced c).
  - clear Ekeep. destruct (c_null c) eqn:En.
    { apply runs_ret. cbn [fst snd]. split_and!; try done. by apply tattr_null. }
    destruct (Z.eqb_spec (attlen (c_att c)) (-1)) as [Ea|Ea].
    + apply collect_value; [done..|]. destruct (Hv eq_refl) as (Hcok & Hcs & Hvok).
      destruct (same_read _ _ _ Ea Hvok Hcs) as (np & np' & Ec & -> & Hnp' & Hsn & Eb).
      destruct (Hd En Ea) as (p & Ep & Hval). exists np'. split_and!; try done. eapply value_same; [done..|congruence].
    + apply runs_ret. cbn [fst snd]. split_and!; try done. apply tattr_fixed; [done|]. by rewrite En.
Qed.

Lemma collect_loop_ok gone cols olds vs : ∀ db,
  db_ok db → Forall3 (collect_pre db gone) cols olds vs →
  (∀ c op, c ∈ cols → old_pointer (c_att c) (c_old c) = Some op → varlena_ok op) →
  runs (collect_loop false palloc (c_att <$> cols) olds vs (c_null <$> cols)) db
    (λ r db', Forall2 (tattr_ok db' gone) cols r.1.1 ∧ (r.1.2 = false → ta_value <$> r.1.1 = vs) ∧
       r.2 = replaced <$> cols ∧ steady db db' ∧ db_ok db').
Proof.
  revert olds vs. induction cols as [|c cols IH]; intros olds vs db Hdb Hpre Hop; inversion Hpre as [|? old v ? olds' vs' Hc Hpre']; subst.
  { apply runs_ret. cbn [fst snd]. by split_and!. }
  cbn [fmap list_fmap collect_loop]. apply runs_bind.
  eapply runs_mono; [apply (collect_attr_ok db gone c old v); [done|done|intros op; apply Hop; set_solver]|].
  cbn beta. intros [[x changed] del] db1 (Hx & Hch & Hdel & Hx1 & Hdb1). pose proof (steady_extends _ _ Hx1). cbn [fst snd] in *. apply runs_bind.
  eapply runs_mono; [apply (IH olds' vs' db1)|]; [done| |intros c' op Hin; apply Hop; set_solver|].
  { eapply Forall3_impl; [exact Hpre'|]. intros. by eapply collect_pre_extends. }
  cbn beta. intros [[xs need] dels] db2 (Hs & Hn & Hd & Hx2 & Hdb2). pose proof (steady_extends _ _ Hx2). cbn [fst snd] in *. apply runs_ret. cbn [fst snd].
  split_and!; [| | |by etrans|done].
  - constructor; [by eapply tattr_extends|done].
  - intros [-> ->]%orb_false_iff. cbn [fmap list_fmap]. f_equal; [by apply Hch|by apply Hn].
  - cbn [fmap list_fmap]. by f_equal.
Qed.

(** ** Deleting what the old row leaves *)

(** The pointer of the old row, as it is read. *)
Lemma old_pointer_read c old op rawsize extsize id relid :
  old_same c old → old_pointer (c_att c) (c_old c) = Some op → pointer_to op rawsize extsize id relid →
  ∃ op', old = Some (ByRef op', false) ∧ pointer_to op' rawsize extsize id relid.
Proof.
  intros Ho Eop Hp. unfold old_same in Ho. unfold old_pointer in Eop.
  destruct (c_old c) as [[[?|q] [|]]|], old as [[ov' on']|]; try done.
  destruct (Z.eqb_spec (attlen (c_att c)) (-1)) as [Ea|]; [|done]. cbn [andb] in Eop.
  destruct (VARATT_IS_EXTERNAL q); [|done]. injection Eop as ->. destruct Ho as [-> Ho].
  destruct (Ho eq_refl) as [Hok Hsame]. destruct (same_read _ _ _ Ea Hok Hsame) as (p1 & q' & [= <-] & -> & Hq' & Hsv & _).
  exists q'. split; [done|by eapply pointer_same].
Qed.

Lemma delete_old_ok cols olds : ∀ db,
  db_ok db → Forall2 old_same cols olds →
  (∀ c op, c ∈ cols → old_pointer (c_att c) (c_old c) = Some op →
     (∃ data, external_value db op data) ∧ ∀ ri, ptr_id op = Some ri → live db ri) →
  NoDup (omap old_id cols) →
  runs (delete_old olds (replaced <$> cols)) db (λ _ db', removed (doomed cols) db db' ∧ db_ok db').
Proof.
  revert olds. induction cols as [|c cols IH]; intros olds db Hdb Hs Hop Hnd; inversion Hs as [|? old ? olds' Ho Hs']; subst.
  { apply runs_ret. split; [apply removed_nil|done]. }
  assert (Hnd' : NoDup (omap old_id cols)) by (cbn in Hnd; destruct (old_id c); [by inversion Hnd|done]).
  assert (Hskip : replaced c = false →
    runs (delete_old (old :: olds') (replaced <$> c :: cols)) db (λ _ db', removed (doomed (c :: cols)) db db' ∧ db_ok db')).
  { intros Er. cbn [fmap list_fmap delete_old]. rewrite Er. unfold doomed. cbn [omap list_omap]. rewrite Er.
    fold (doomed cols). destruct old as [[ov on]|]; apply IH; try done; intros c' op Hin; apply Hop; set_solver. }
  destruct (replaced c) eqn:Er; [|by apply Hskip]. clear Hskip.
  unfold replaced in Er. destruct (old_pointer (c_att c) (c_old c)) as [op|] eqn:Eop; [|done].
  destruct (Hop c op ltac:(set_solver) Eop) as [[data (bytes & id & relid & rel & Hp & Hrel & Hst & Hb & Hi)] Hl].
  assert (Eid : old_id c = Some (relid, id)) by (unfold old_id; rewrite Eop; cbn; by eapply pointer_id).
  assert (Er' : replaced c = true) by (unfold replaced; by rewrite Eop).
  destruct (old_pointer_read c old op _ _ _ _ Ho Eop Hp) as (op' & -> & Hp'). cbn [fmap list_fmap delete_old]. rewrite Er'.
  eapply runs_bind_opt; [done|]. apply runs_bind.
  eapply runs_mono; [by eapply (delete_datum_ok db op'); [exact Hp'|apply Hl; eapply pointer_id|]|].
  cbn beta. intros _ db1 [Hrem Hdb1]. change (list_fmap col bool replaced cols) with (replaced <$> cols).
  eapply runs_mono; [apply (IH olds' db1); try done|].
  - intros c' opc Hin Eopc. destruct (Hop c' opc ltac:(set_solver) Eopc) as [[data' He] Hl']. apply removed_kept in Hrem.
    split; [exists data'; by eapply external_kept|]. intros ri Hri. eapply live_kept; [done| |by apply Hl'].
    destruct ri as [relid' id']. cbn [fst snd]. intros [= -> ->]%list_elem_of_singleton.
    cbn in Hnd. rewrite Eid in Hnd. apply NoDup_cons in Hnd as [Hnin _]. apply Hnin.
    apply list_elem_of_omap. exists c'. split; [done|]. unfold old_id. by rewrite Eopc.
  - cbn beta. intros _ db' [Hrem' Hdb']. split; [|done]. unfold doomed. cbn [omap list_omap]. rewrite Er', Eid.
    fold (doomed cols). by apply (removed_app [(relid, id)] (doomed cols) db db1 db').
Qed.

(** ** The new tuple *)

(** The header of the tuple is as forming a tuple leaves it. *)
Definition header_ok (d : TupleDesc) (t : HeapTuple) (ns : list bool) : Prop :=
  t_hoff t = header_len d (existsb id ns) (HeapTupleHasOid t) ∧
  (existsb id ns = true → blen (t_bits t) = BITMAPLEN (natts d)).

Lemma header_len_range d hn ho : 0 ≤ header_len d hn ho.
Proof.
  unfold header_len, MAXALIGN. rewrite (TYPEALIGN_pow 3) by lia.
  pose proof (bitmaplen_range (natts d) ltac:(unfold natts; lia)) as [? _].
  unfold offset_t_bits, sizeof_Oid. destruct hn, ho; divlia.
Qed.

Lemma flags_cleared im m : Z.land m 15 = m → Z.land (Z.land im (Z.lnot 15)) m =? 0 = true.
Proof.
  intros Hm. apply Z.eqb_eq. apply Z.bits_inj'. intros i Hi. rewrite !Z.land_spec, Z.lnot_spec, Z.bits_0 by done.
  rewrite <- Hm, Z.land_spec. destruct (Z.testbit im i), (Z.testbit 15 i), (Z.testbit m i); done.
Qed.

Lemma rebuild_ok d t ns vs0 vs :
  formed t (attrs d) vs0 ns → header_ok d t ns → row_ok (attrs d) vs ns →
  HEAPTUPLESIZE + header_len d (existsb id ns) (HeapTupleHasOid t) + blen (layout (attrs d) vs ns 0) < MaxAllocSize →
  ∃ t', rebuild_tuple palloc d t vs ns (existsb id ns) = ok t' ∧ formed t' (attrs d) vs ns ∧
    t_oid t' = t_oid t ∧ t_hoff t' = t_hoff t.
Proof.
  intros Hf [Hh Hb] Hrow Hlt. unfold rebuild_tuple, heap_compute_data_size. rewrite compute_loop_ok by done.
  rewrite Z.add_0_l. cbn [lift_opt fmap option_fmap option_map res_bind].
  set (L := blen (layout (attrs d) vs ns 0)) in *. pose proof (header_len_range d (existsb id ns) (HeapTupleHasOid t)).
  pose proof (blen_nonneg (layout (attrs d) vs ns 0)) as HL. unfold HEAPTUPLESIZE, MaxAllocSize in Hlt.
  rewrite s32_id by lia. rewrite alloc_ok by (unfold HEAPTUPLESIZE, MaxAllocSize; lia). cbn [ok res_bind].
  destruct (heap_fill_tuple_ok d vs ns (replicate (Z.to_nat (header_len d (existsb id ns) (HeapTupleHasOid t) + L - t_hoff t)) 0)
    (t_infomask t) (if existsb id ns then Some (t_bits t) else None) Hrow) as (f & Ef & Ed & Em & Hbits).
  { unfold blen. rewrite length_replicate, Hh. fold (blen (layout (attrs d) vs ns 0)). fold L. lia. }
  { destruct (existsb id ns) eqn:E; [|done]. eexists. split; [done|by apply Hb]. }
  rewrite Ef. cbn [ok res_bind]. eexists. split; [done|]. split; [|by cbn].
  split; cbn [t_infomask2 t_area t_bits t_infomask]; unfold HeapTupleHasNulls, HeapTupleHasVarWidth;
    cbn [t_infomask]; rewrite ?Em; try done.
  - apply (formed_natts _ _ _ _ Hf).
  - rewrite land_lor_eq0, row_flags_null, flags_cleared by done. cbn [andb]. by rewrite negb_involutive.
  - intros E. destruct (Hbits E) as (bits & -> & Hok). done.
  - rewrite land_lor_eq0, row_flags_varwidth, flags_cleared by done. cbn [andb]. by rewrite negb_involutive.
Qed.

(** What is left in the tuple of a column that may be moved out. *)
Definition small_or_moved (c : col) (v : Datum) : Prop :=
  c_null c = false → attlen (c_att c) = -1 → attstorage (c_att c) ∈ ["x"; "e"; "m"]%char →
  ∃ q, v = ByRef q ∧ (VARATT_IS_EXTERNAL q = true ∨ VARSIZE_ANY q ≤ 24).

Lemma moved_small db gone cols xs :
  Forall2 (tattr_ok db gone) cols xs →
  moved_out cols ["x"; "e"]%char xs → moved_out cols ["m"]%char xs →
  Forall2 small_or_moved cols (ta_value <$> xs).
Proof.
  intros Hs H1 H2. apply Forall2_lookup. intros k. rewrite list_lookup_fmap.
  destruct (cols !! k) as [c|] eqn:Ec.
  2: { apply lookup_ge_None in Ec. rewrite (Forall2_length _ _ _ Hs) in Ec.
       rewrite (lookup_ge_None_2 xs k Ec). constructor. }
  destruct (xs !! k) as [x|] eqn:Ex.
  2: { apply lookup_ge_None in Ex. rewrite <- (Forall2_length _ _ _ Hs) in Ex.
       apply lookup_ge_None in Ex. congruence. }
  constructor. pose proof (Forall2_lookup_lr _ _ _ _ _ _ Hs Ec Ex) as Hx. intros En Ea Hst.
  destruct (Ascii.eqb_spec (ta_action x) "p") as [Ep|Ep].
  - destruct (ta_done _ _ _ _ Hx Ep En Ea) as (p & -> & HE).
    { intros E. rewrite E in Hst. set_unfold in Hst. by destruct Hst as [|[|[|]]]. }
    exists p. by split; [|left].
  - destruct (ta_inline _ _ _ _ Hx Ep) as (_ & _ & p & Ev & Hi & Esz). exists p. split; [done|]. right. rewrite <- Esz.
    assert (Hcan : ∀ storages, attstorage (c_att c) ∈ storages → can_move storages (c_att c) x = Some true).
    { intros storages Hin. unfold can_move. rewrite (proj2 (Ascii.eqb_neq _ _) Ep), Ev. cbn [DatumGetPointer mbind option_bind].
      rewrite (inline_external _ _ Hi). cbn [negb andb]. f_equal. by apply existsb_elem. }
    destruct (decide (attstorage (c_att c) ∈ ["x"; "e"]%char)) as [Hin|Hin].
    + by apply (H1 k c x); [..|apply Hcan].
    + apply (H2 k c x); [done..|]. apply Hcan. set_unfold in Hst. set_unfold in Hin. set_unfold. tauto.
Qed.

(** Reading the stored form of a column. *)
Lemma image_small c v d :
  (∃ more, d = match v with ByVal z => ByVal (sext (attlen (c_att c)) z) | ByRef _ => ByRef (attr_image (c_att c) v ++ more) end) →
  (c_null c = false → attr_ok (c_att c) v) → small_or_moved c v → small_or_moved c d.
Proof.
  intros [more ->] Hok Hv En Ea Hst. destruct (Hv En Ea Hst) as (p & -> & Hp). eexists. split; [done|].
  specialize (Hok En). destruct (varlena_byref _ _ Hok Ea) as (p' & [= <-] & Eb & Hpok).
  pose proof (image_same (c_att c) p more Hok) as Hs. cbn [same_value] in Hs. rewrite Ea in Hs. cbn [Z.eqb Pos.eqb] in Hs.
  destruct Hp as [HE|Hsz]; [left; by rewrite (proj1 Hs)|right].
  pose proof (image_le (c_att c) p Ea Hpok). pose proof (image_read (c_att c) p more Ea Hpok) as Hr.
  pose proof (image_ok (c_att c) p more Hok) as [_ [[_ Hq]|[[? _]|?]]]; [|lia..].
  rewrite varsize_any_eq in Hr; [apply Some_inj in Hr; rewrite Hr; lia|apply Hq|].
  destruct (VARATT_IS_1B (attr_image (c_att c) (ByRef p) ++ more)) eqn:E1; [by left|right].
  destruct (varlena_4b _ Hq E1). lia.
Qed.

(** ** The whole *)

(** The old row, if there is one, and how the columns have it. *)
Definition old_row (d : TupleDesc) (oldtup : option HeapTuple) (cols : list col) : Prop :=
  match oldtup with
  | None => Forall (λ c, c_old c = None) cols
  | Some t => ∃ A more ovs ons, attrs d = A ++ more ∧ formed t A ovs ons ∧
      c_old <$> cols =
        Some <$> zip (ovs ++ replicate (length more) (ByVal 0)) (ons ++ replicate (length more) true)
  end.

Lemma old_same_row A V N D : same_row A V N D → ∀ cols,
  c_att <$> cols = A → c_old <$> cols = Some <$> zip V N → Forall2 old_same cols (Some <$> zip D N).
Proof.
  induction 1 as [|a v d A V N D _ IH|a v d A V N D Hs Hok _ IH]; intros [|c cols] Ea Eo; try done;
    cbn in Ea, Eo; injection Ea as <- Ea; injection Eo as Ec Eo; cbn; (constructor; [|by apply IH]);
    unfold old_same; rewrite Ec; by split.
Qed.

Lemma read_old_ok d oldtup cols cache db :
  attrs d = c_att <$> cols → old_row d oldtup cols → cache_ok (attrs d) cache →
  runs (match oldtup with
        | None => mret (replicate (length (attrs d)) None, cache)
        | Some t =>
            let^ (ovs, ons, cache) := mlift (lift_opt (heap_deform_tuple t d cache)) in
            mret (Some <$> zip ovs ons, cache)
        end) db (λ r db', db' = db ∧ Forall2 old_same cols r.1 ∧ cache_ok (attrs d) r.2).
Proof.
  intros Ed Ho Hc. destruct oldtup as [t|]; cbn [old_row] in Ho.
  - destruct Ho as (A & more & ovs & ons & EA & Hf & Eo).
    destruct (heap_deform_tuple_ok t A more ovs ons Hf d cache EA Hc) as (cache' & E & Hc').
    eapply runs_bind_opt; [exact E|]. apply runs_ret. cbn [fst snd]. split; [done|]. split; [|done].
    eapply old_same_row; [apply same_row_more; by apply row_values_same|congruence|done].
  - apply runs_ret. cbn [fst snd]. split; [done|]. split; [|done]. rewrite Ed, length_fmap. clear Ed.
    induction Ho as [|c cols Hc' _ IH]; [constructor|]. constructor; [|done]. unfold old_same. by rewrite Hc'.
Qed.

Lemma kept_not_doomed cols c ri :
  NoDup (omap old_id cols) → c ∈ cols → replaced c = false → old_id c = Some ri → ri ∉ doomed cols.
Proof.
  assert (Hsub : ∀ l x, x ∈ doomed l → x ∈ omap old_id l).
  { intros l x (c' & Hin & E)%list_elem_of_omap. apply list_elem_of_omap. exists c'. by destruct (replaced c'). }
  induction cols as [|c0 cols IH]; intros Hnd Hin Er Ei; [set_solver|]. unfold doomed. cbn [omap list_omap] in *.
  fold (doomed cols). apply elem_of_cons in Hin as [->|Hin].
  - rewrite Er. rewrite Ei in Hnd. apply NoDup_cons in Hnd as [Hn _]. intros Hd. by apply Hn, Hsub.
  - assert (Hri : ri ∈ omap old_id cols) by (apply list_elem_of_omap; by exists c).
    destruct (old_id c0) as [r0|] eqn:E0; [|destruct (replaced c0); by apply IH].
    apply NoDup_cons in Hnd as [Hn Hnd]. specialize (IH Hnd Hin Er Ei). destruct (replaced c0); [|done].
    rewrite elem_of_cons. intros [->|?]; [|done]. by apply Hn.
Qed.

Lemma collect_ready db cols olds ds gone :
  same_row (c_att <$> cols) (c_value <$> cols) (c_null <$> cols) ds →
  row_ok (c_att <$> cols) (c_value <$> cols) (c_null <$> cols) →
  Forall (col_value db) cols → Forall2 old_same cols olds →
  (∀ c ri, c ∈ cols → replaced c = false → old_id c = Some ri → live db ri ∧ ri ∉ gone) →
  Forall3 (collect_pre db gone) cols olds ds.
Proof.
  intros Hs Hr Hv Ho Hg. revert olds ds Hs Hr Ho.
  induction cols as [|c cols IH]; intros olds ds Hs Hr Ho; inversion Ho as [|? old ? olds' Hold Ho']; subst.
  { inversion Hs. constructor. }
  apply Forall_cons in Hv as [Hc Hv]. cbn [fmap list_fmap] in Hs, Hr.
  inversion Hr as [|? ? ? ? ? ? Hcok Hr']; subst. unfold col_ok in Hcok.
  assert (Hg' : ∀ c0 ri, c0 ∈ cols → replaced c0 = false → old_id c0 = Some ri → live db ri ∧ ri ∉ gone)
    by (intros c0 ri Hin; apply Hg; set_solver).
  inversion Hs as [|? ? d ? ? ? ds' Hs' Ea Ev En|? ? d ? ? ? ds' Hsv Hok Hs' Ea Ev En]; subst; constructor;
    try (by apply IH); (split; [|done|done|intros ri; apply Hg; set_solver]).
  - congruence.
  - intros _. split; [apply Hcok; congruence|done].
Qed.

Lemma reads_removed db db' gone c x :
  tattr_ok db gone c x → removed gone db db' → col_reads db' c (ta_value x).
Proof.
  intros Hx Hr En. destruct (ta_reads _ _ _ _ Hx En) as [Hok Hv]. split; [done|].
  destruct (Z.eqb_spec (attlen (c_att c)) (-1)) as [Ea|]; [|done]. destruct Hv as (p & Ep & Hv). exists p.
  split; [done|]. destruct Hv as [Hi|Hv]; [by left|]. eapply live_value_kept; [by apply removed_kept| |by right].
  intros [relid id] Hri. cbn [fst snd]. destruct Hv as [(bytes & id' & relid' & rel & Hp & _) _].
  by apply (ta_safe _ _ _ _ Hx En Ea p); [|apply Hp|].
Qed.

Section Whole.
Context (d : TupleDesc) (cols : list col) (gone : list (Z * Z)) (Ed : attrs d = c_att <$> cols).
Local Abbreviation nulls := (c_null <$> cols).
Local Abbreviation state db := (Forall2 (tattr_ok db gone) cols).

(** After the rounds the row fits, or nothing can be done any more. *)
Definition rounds_end (relid maxlen : Z) (xs : list TAttr) : Prop :=
  too_big d nulls maxlen xs = Some false ∨ relid = InvalidOid ∨
  moved_out cols ["x"; "e"]%char xs ∧ moved_out cols ["m"]%char xs.

Lemma moved_out_kept storages xs xs' :
  moved_out cols storages xs →
  (∀ k c, cols !! k = Some c → attstorage (c_att c) ∈ storages → xs' !! k = xs !! k) → moved_out cols storages xs'.
Proof.
  intros Hm Hk k c x Hc Hx Hcan. pose proof Hcan as Hcan'. unfold can_move in Hcan'.
  destruct (Ascii.eqb (ta_action x) "p"); [done|]. destruct (DatumGetPointer (ta_value x)) as [p|]; [|done].
  cbn in Hcan'. injection Hcan' as [_ Hst%existsb_elem]%andb_true_iff. rewrite (Hk k c Hc Hst) in Hx. by apply (Hm k c x).
Qed.

Lemma rounds_ok db relid start maxlen ds xs nc :
  (∀ ri, ri ∈ gone → live db ri) → state db xs →
  db_ok db → (relid ≠ InvalidOid → home relid start (2 * natts d * max_chunks) db) → (nc = false → ta_value <$> xs = ds) →
  runs (toast_rounds true flatten palloc d relid nulls maxlen xs nc) db (λ r db',
    state db' r.1 ∧ extends db db' ∧ db_ok db' ∧ (r.2 = false → ta_value <$> r.1 = ds) ∧
    rounds_end relid maxlen r.1).
Proof.
  intros Hgone Hs Hdb Hsp Hnc. unfold toast_rounds. set (n := length (attrs d)).
  assert (Hlen : ∀ db' ys, state db' ys → length ys = n).
  { intros db' ys Hy. unfold n. rewrite Ed, length_fmap. symmetry. by eapply Forall2_length. }
  assert (Hcount : ∀ db' ys (P : TAttr → Prop) `{∀ y, Decision (P y)}, state db' ys → (length (filter P ys) ≤ n)%nat).
  { intros db' ys P HP Hy. rewrite <- (Hlen _ _ Hy). apply count_le. }
  assert (Hex : ∀ db', extends db db' → ∀ ri, ri ∈ gone → live db' ri).
  { intros db' Hx ri Hin. eapply live_extends; [done|by apply Hgone]. }
  set (room := 2 * natts d * max_chunks) in *.
  apply runs_bind. eapply runs_mono; [apply (compress_pass_ok d cols gone Ed maxlen ds relid start _ room); try done; by eapply Hcount|].
  intros [xs1 nc1] db1 [S1 X1 D1 H1 N1 U1 M1]. cbn [fst snd] in *.
  apply runs_bind. eapply runs_mono; [apply (move_pass_ok d cols gone Ed maxlen ds relid start _ n room); try done;
    [by apply Hex|unfold room, natts, n, max_chunks; lia|by eapply Hcount]|].
  intros [xs2 nc2] db2 [[S2 X2 D2 H2 N2 U2 M2] E2]. cbn [fst snd] in *. pose proof (transitivity X1 X2) as X12.
  set (room2 := room - Z.of_nat n * max_chunks) in *.
  apply runs_bind. eapply runs_mono; [apply (compress_pass_ok d cols gone Ed maxlen ds relid start _ room2); try done; by eapply Hcount|].
  intros [xs3 nc3] db3 [S3 X3 D3 H3 N3 U3 M3]. cbn [fst snd] in *. pose proof (transitivity X12 X3) as X13.
  eapply runs_mono; [apply (move_pass_ok d cols gone Ed maxlen ds relid start _ n room2); try done;
    [by apply Hex|unfold room2, room, natts, n, max_chunks; lia|by eapply Hcount]|].
  intros [xs4 nc4] db4 [[S4 X4 D4 H4 N4 U4 M4] E4]. cbn [fst snd] in *. split_and!; [done|by etrans|done|done|].
  unfold rounds_end. destruct E4 as [E4|[E4|E4]]; [by left|by right; left|].
  destruct E2 as [E2|[E2|E2]]; [|by right; left|].
  - left. by rewrite M4, M3 by (rewrite ?M3; done).
  - right; right. split; [|done]. eapply moved_out_kept; [exact E2|]. intros k c Hc Hst.
    set_unfold in Hst.
    rewrite (U4 k c Hc), (U3 k c Hc); [done| |]; (intros [Hm|[]%elem_of_nil]%elem_of_cons; rewrite Hm in Hst;
      by destruct Hst as [|[|]]).
Qed.
End Whole.

(** What an insertion or update leaves: the tuple has the row, in [target] bytes
    or as small as it can be made; all values are kept, and those of the old
    row that the update replaces have been deleted. *)
Record toasted (d : TupleDesc) (relid target : Z) (cols : list col) db (newtup : HeapTuple)
    (r : HeapTuple * list Z) db' : Prop := {
  tst_row : ∃ ds,
    (∀ c, cache_ok (attrs d) c → ∃ c', heap_deform_tuple r.1 d c = Some (ds, c_null <$> cols, c') ∧
       cache_ok (attrs d) c') ∧
    Forall2 (col_reads db') cols ds ∧
    (t_hoff r.1 + blen (t_area r.1) ≤ target ∨ relid = InvalidOid ∨ Forall2 small_or_moved cols ds);
  tst_oid : t_oid r.1 = t_oid newtup;
  tst_cache : cache_ok (attrs d) r.2;
  tst_kept : kept (λ relid id, (relid, id) ∈ doomed cols) db db';
  tst_gone relid' id rel : (relid', id) ∈ doomed cols → db_rels db' !! relid' = Some rel →
    live_of (tr_heap rel) id = []
}.

Lemma kept_removed gone db db1 db' :
  extends db db1 → removed gone db1 db' → kept (λ relid id, (relid, id) ∈ gone) db db'.
Proof.
  intros Hx Hr. eapply kept_trans; [|by apply removed_kept]. eapply kept_weaken; [|exact Hx]. done.
Qed.

Lemma fetched_image tp rest atts vs ns : row_ok atts vs ns → ∀ pos,
  0 ≤ pos → drop (Z.to_nat pos) tp = layout atts vs ns pos ++ rest → ∀ k a v d,
  atts !! k = Some a → vs !! k = Some v → ns !! k = Some false → fetched_row tp atts vs ns pos !! k = Some d →
  ∃ more, d = match v with ByVal z => ByVal (sext (attlen a) z) | ByRef _ => ByRef (attr_image a v ++ more) end.
Proof.
  induction 1 as [|a v n A VS NS Hc Hrow IH]; intros pos Hpos Htp k b w d Ha Hv Hn Hd; [done|].
  cbn [layout fetched_row] in *. destruct k as [|k]; cbn in Ha, Hv, Hn.
  - simplify_eq. rewrite <- !app_assoc in Htp. cbn in Hd. injection Hd as <-. unfold fetched.
    rewrite (drop_start tp b w pos _ Hpos Htp). destruct w; [by exists []|by eexists].
  - destruct n; cbn in Hd; [by eapply IH|]. rewrite <- !app_assoc in Htp.
    eapply (IH _ _ (drop_after _ _ _ _ _ Hpos Htp)); try done.
    Unshelve. pose proof (start_nonneg a v pos Hpos). pose proof (blen_nonneg (attr_image a v)). lia.
Qed.

Lemma fits_target d ns maxlen target hlen xs :
  row_ok (attrs d) (ta_value <$> xs) ns → maxlen = (target - hlen) `mod` 2 ^ 64 → hlen ≤ target < 2 ^ 63 → 0 ≤ hlen →
  blen (layout (attrs d) (ta_value <$> xs) ns 0) < 2 ^ 31 →
  too_big d ns maxlen xs = Some false → hlen + blen (layout (attrs d) (ta_value <$> xs) ns 0) ≤ target.
Proof.
  intros Hrow -> Ht Hh HL. unfold too_big, heap_compute_data_size. rewrite compute_loop_ok by done.
  rewrite Z.add_0_l. cbn [mbind option_bind]. pose proof (blen_nonneg (layout (attrs d) (ta_value <$> xs) ns 0)).
  rewrite s32_id by lia. rewrite !Z.mod_small by lia. intros [= E%Z.ltb_ge]. lia.
Qed.

Lemma reads_again db cols vs ds :
  row_ok (c_att <$> cols) (c_value <$> cols) (c_null <$> cols) → Forall2 (col_reads db) cols vs →
  same_row (c_att <$> cols) vs (c_null <$> cols) ds → Forall2 (col_reads db) cols ds.
Proof.
  intros Hr Hv. revert ds Hr. induction Hv as [|c v cols vs Hc _ IH]; intros ds Hr Hs.
  { inversion Hs. constructor. }
  cbn [fmap list_fmap] in Hs, Hr. inversion Hr as [|? ? ? ? ? ? Hcok Hr']; subst. unfold col_ok in Hcok.
  inversion Hs as [|? ? d ? ? ? ds' Hs' Ea Ev En|? ? d ? ? ? ds' Hsv Hok Hs' Ea Ev En]; subst; constructor;
    try (by apply IH); (eapply col_reads_same; [done|exact Hc|]); [congruence|done].
Qed.

Lemma small_again cols vs t :
  formed t (c_att <$> cols) vs (c_null <$> cols) → Forall2 small_or_moved cols vs →
  Forall2 small_or_moved cols (row_values t (c_att <$> cols) vs (c_null <$> cols)).
Proof.
  intros Hf Hv. pose proof (formed_row _ _ _ _ Hf) as Hrow. apply Forall2_lookup. intros k.
  pose proof (fetched_row_length (t_area t) (c_att <$> cols) vs (c_null <$> cols) 0 Hrow) as Hlen.
  fold (row_values t (c_att <$> cols) vs (c_null <$> cols)) in Hlen. rewrite length_fmap in Hlen.
  destruct (cols !! k) as [c|] eqn:Ec.
  2: { apply lookup_ge_None in Ec. rewrite lookup_ge_None_2 by lia. constructor. }
  destruct (row_values t _ vs _ !! k) as [d|] eqn:Ed.
  2: { apply lookup_ge_None in Ed. apply lookup_lt_Some in Ec. lia. }
  constructor. destruct (Forall2_lookup_l _ _ _ _ _ Hv Ec) as (v & Ev & Hsm).
  destruct (c_null c) eqn:En; [unfold small_or_moved; congruence|].
  assert (Hcok : attr_ok (c_att c) v).
  { eapply (Forall3_lookup_lmr _ _ _ _ k _ _ _ Hrow); [by rewrite list_lookup_fmap, Ec|done|by rewrite list_lookup_fmap, Ec; cbn; rewrite En|done]. }
  eapply image_small; [|done|done]. eapply (fetched_image (t_area t) [] _ _ _ Hrow 0); [done| |..|exact Ed].
  - change (Z.to_nat 0) with 0%nat. rewrite drop_0, app_nil_r. apply (formed_area _ _ _ _ Hf).
  - by rewrite list_lookup_fmap, Ec.
  - done.
  - rewrite list_lookup_fmap, Ec. cbn. by rewrite En.
Qed.

Lemma old_live db (cols : list col) :
  (∀ c op, c ∈ cols → old_pointer (c_att c) (c_old c) = Some op →
     (∃ data, external_value db op data) ∧ ∀ ri, ptr_id op = Some ri → live db ri) →
  ∀ ri, ri ∈ omap old_id cols → live db ri.
Proof.
  intros Hold ri (c & Hin & E)%list_elem_of_omap. unfold old_id in E.
  destruct (old_pointer (c_att c) (c_old c)) as [op|] eqn:Eop; [|done]. by apply (Hold c op Hin Eop).
Qed.

(** The tuple that is returned: a new one, or the one that was given. *)
Lemma result_tuple_ok d t cols xs (nc : bool) :
  formed t (attrs d) (c_value <$> cols) (c_null <$> cols) → header_ok d t (c_null <$> cols) →
  row_ok (attrs d) (ta_value <$> xs) (c_null <$> cols) →
  HEAPTUPLESIZE + t_hoff t + blen (layout (attrs d) (ta_value <$> xs) (c_null <$> cols) 0) < MaxAllocSize →
  (nc = false → ta_value <$> xs = row_values t (attrs d) (c_value <$> cols) (c_null <$> cols)) →
  ∃ t' vs',
    (if nc then rebuild_tuple palloc d t (ta_value <$> xs) (c_null <$> cols) (existsb id (c_null <$> cols))
     else ok t) = ok t' ∧ formed t' (attrs d) vs' (c_null <$> cols) ∧ t_oid t' = t_oid t ∧ t_hoff t' = t_hoff t ∧
    t_area t' = layout (attrs d) (ta_value <$> xs) (c_null <$> cols) 0 ∧
    (vs' = ta_value <$> xs ∨ row_values t' (attrs d) vs' (c_null <$> cols) = ta_value <$> xs).
Proof.
  intros Hf Hh Hrow Hlt Hsame. destruct nc.
  - destruct (rebuild_ok d t _ _ (ta_value <$> xs) Hf Hh Hrow) as (t' & Et & Hf' & Eo & Eh); [by rewrite <- (proj1 Hh)|].
    exists t', (ta_value <$> xs). split_and!; try done; [apply (formed_area _ _ _ _ Hf')|by left].
  - exists t, (c_value <$> cols). rewrite (Hsame eq_refl). split_and!; try done; [|by right].
    rewrite (formed_area _ _ _ _ Hf). symmetry. apply (layout_fetched _ []); [apply (formed_row _ _ _ _ Hf)|done|].
    change (Z.to_nat 0) with 0%nat. rewrite drop_0, app_nil_r. apply (formed_area _ _ _ _ Hf).
Qed.

Lemma insert_ok d relid newtup oldtup target cache cols db :
  attrs d = c_att <$> cols → formed newtup (attrs d) (c_value <$> cols) (c_null <$> cols) →
  header_ok d newtup (c_null <$> cols) → Forall (col_value db) cols →
  old_row d oldtup cols → NoDup (omap old_id cols) →
  (∀ c op, c ∈ cols → old_pointer (c_att c) (c_old c) = Some op →
     (∃ data, external_value db op data) ∧ ∀ ri, ptr_id op = Some ri → live db ri) →
  (relid ≠ InvalidOid → id_space relid (2 * natts d * max_chunks) db) →
  db_ok db → cache_ok (attrs d) cache →
  HEAPTUPLESIZE + t_hoff newtup + row_weight cols < MaxAllocSize → t_hoff newtup ≤ target < 2 ^ 63 →
  runs (toast_insert_or_update false true flatten palloc d relid newtup oldtup target cache) db
    (toasted d relid target cols db newtup).
Proof.
  intros Ed Hf Hh Hv Ho Hnd Hold Hrel Hdb Hc Hw Ht. unfold toast_insert_or_update.
  destruct (heap_deform_tuple_ok newtup (attrs d) [] _ _ Hf d cache ltac:(by rewrite app_nil_r) Hc) as (c1 & E1 & Hc1).
  cbn [length replicate] in E1. rewrite !app_nil_r in E1. set (ds := row_values newtup _ _ _) in *.
  eapply runs_bind_opt; [exact E1|]. apply runs_bind. eapply runs_mono; [by apply (read_old_ok d oldtup cols c1 db)|].
  intros [olds c2] ? (-> & Hos & Hc2). cbn [fst snd] in *.
  pose proof (row_values_same _ _ _ _ Hf) as Hsr. fold ds in Hsr. pose proof (formed_row _ _ _ _ Hf) as Hrow.
  assert (Hop : ∀ c op, c ∈ cols → old_pointer (c_att c) (c_old c) = Some op → varlena_ok op).
  { intros c op Hin E. destruct (Hold c op Hin E) as [[data (bytes & id & rl & rel & Hp & _)] _]. apply Hp. }
  pose proof (old_live db cols Hold) as Holive.
  apply runs_bind. rewrite Ed. eapply runs_mono; [apply (collect_loop_ok (doomed cols) cols olds ds db Hdb); [|done]|].
  { rewrite Ed in *. apply collect_ready; try done. intros c ri Hin Er Ei. split; [|by eapply kept_not_doomed].
    apply Holive, list_elem_of_omap. by exists c. }
  intros [[xs nc] dels] db1 (S1 & N1 & Edels & X1 & D1). cbn [fst snd] in *. subst dels.
  assert (Hgone : ∀ ri, ri ∈ doomed cols → live db ri).
  { intros ri (c & Hin & E)%list_elem_of_omap. apply Holive, list_elem_of_omap. exists c. by destruct (replaced c). }
  set (maxlen := (target - _) `mod` 2 ^ 64). pose proof (steady_extends _ _ X1) as X1'.
  apply runs_bind. eapply runs_mono; [apply (rounds_ok d cols (doomed cols) Ed db1 relid
    (norm_oid (nextOid db) - FirstNormalObjectId) maxlen ds)|]; try done.
  { intros ri Hin. eapply live_extends; [done|by apply Hgone]. }
  { intros Hne. eapply home_steady; [done|]. by apply id_space_home, Hrel. }
  intros [xs2 nc2] db2 (S2 & X2 & D2 & N2 & R2). cbn [fst snd] in *. pose proof (transitivity X1' X2) as X12.
  pose proof (state_row d cols (doomed cols) Ed db2 xs2 S2) as Hrow2.
  assert (HL : blen (layout (attrs d) (ta_value <$> xs2) (c_null <$> cols) 0) ≤ row_weight cols).
  { rewrite Ed. apply layout_le. apply Forall2_fmap_r. eapply Forall2_impl; [exact S2|]. intros c x Hx. exact (ta_weight _ _ _ _ Hx). }
  pose proof (header_len_range d (existsb id (c_null <$> cols)) (HeapTupleHasOid newtup)) as Hhl. rewrite <- (proj1 Hh) in Hhl.
  destruct (result_tuple_ok d newtup cols xs2 nc2 Hf Hh Hrow2 ltac:(lia) N2) as (t' & vs' & Et & Hf' & Eoid & Eh & Earea & Hvs).
  eapply runs_bind_ok; [exact Et|]. apply runs_bind.
  eapply runs_mono; [apply (delete_old_ok cols olds db2 D2 Hos); [|done]|].
  { intros c op Hin E. destruct (Hold c op Hin E) as [[data He] Hl]. split; [exists data; by eapply external_kept|].
    intros ri Hri. eapply live_extends; [done|by apply Hl]. }
  intros [] db3 [Hrem D3]. apply runs_ret. set (ds' := row_values t' (attrs d) vs' (c_null <$> cols)) in *.
  assert (Hx2 : Forall2 (col_reads db3) cols (ta_value <$> xs2)).
  { apply Forall2_fmap_r. eapply Forall2_impl; [exact S2|]. intros c x Hx. exact (reads_removed _ _ _ _ _ Hx Hrem). }
  split; cbn [fst snd]; [|done|done|by eapply kept_removed|].
  - exists ds'. split; [|split].
    + intros c Hcc. destruct (heap_deform_tuple_ok t' (attrs d) [] _ _ Hf' d c ltac:(by rewrite app_nil_r) Hcc) as (c' & E' & Hc').
      cbn [length replicate] in E'. rewrite !app_nil_r in E'. by exists c'.
    + destruct Hvs as [->| ->]; [|done]. eapply reads_again; [by rewrite <- Ed|exact Hx2|]. rewrite <- Ed.
      by apply row_values_same.
    + destruct R2 as [R2|[R2|[R2 R2']]]; [left|by right; left|right; right].
      * rewrite Eh, Earea. eapply fits_target; [done|unfold maxlen; rewrite (proj1 Hh); done|done|done| |done].
        unfold MaxAllocSize, HEAPTUPLESIZE in Hw. lia.
      * pose proof (moved_small _ _ _ _ S2 R2 R2') as Hsm. destruct Hvs as [->| ->]; [|done]. unfold ds'. rewrite Ed in *.
        by apply small_again.
  - intros relid' id rel Hin Er. destruct (Hgone _ Hin) as (rel0 & E0 & _). cbn [fst snd] in E0.
    destruct (X12 _ _ E0) as (rel2 & E2 & _). destruct (Hrem _ _ E2) as (rel3 & E3 & K3).
    assert (rel3 = rel) as -> by congruence. by rewrite (proj2 (K3 id)), bool_decide_true.
Qed.
End Insert.
