(* ===== verification/ToastSpec.v ===== *)
(** Toasting: what is stored is read back, by every reader, in whole or in part;
    deleting a value deletes its rows and no others; a tuple that is made to fit
    has the same row. *)
From Stdlib Require Import Ascii.
From stdpp Require Import prelude functions numbers list gmap sorting.
From S2P Require Import Prelude Varlena PgLz PgLzRound HeapTuple HeapTupleForm HeapTupleRead HeapTupleSpec.
From S2P Require Import Toast ToastRows ToastValue ToastSlice ToastInsert.

Local Open Scope Z_scope.

Local Abbreviation atts := (attrs toast_desc).

Section Spec.
Context {R : Type} `{!ToastAM R, !ToastAMLaws R}.
Implicit Types (db : Db R) (p q data : list Z).

(** ** Deleting a value *)

(** All rows of the value have been deleted. *)
Definition deleted db (ri : Z * Z) : Prop :=
  ∃ rel, db_rels db !! ri.1 = Some rel ∧ rows_of (tr_heap rel) ri.2 ≠ [] ∧ live_of (tr_heap rel) ri.2 = [].

Lemma live_external db p data :
  live_value db p data → VARATT_IS_EXTERNAL p = true →
  external_value db p data ∧ ∀ ri, ptr_id p = Some ri → live db ri.
Proof. intros [Hi|H] HE; [|done]. by rewrite (inline_external _ _ Hi) in HE. Qed.

(** A value whose rows have been deleted cannot be deleted again. *)
Lemma removed_deleted db db' gone p data :
  external_value db p data → removed gone db db' → (∀ ri, ptr_id p = Some ri → ri ∈ gone) →
  (∀ ri, ptr_id p = Some ri → deleted db' ri) ∧ toast_delete_datum p db' = elog.
Proof.
  intros (bytes & id & relid & rel & Hp & Hrel & Hst & Hb & _) Hrem Hg.
  pose proof (pointer_id _ _ _ _ _ Hp) as Ei. pose proof (stored_rows _ _ _ Hst ltac:(lia)) as Hne.
  destruct (Hrem relid rel Hrel) as (rel' & Hrel' & K). destruct (K id) as [Hrows Hlive].
  rewrite bool_decide_true in Hlive by by apply Hg. rewrite <- Hrows in Hne. split.
  - rewrite Ei. intros ri [= <-]. by exists rel'.
  - eapply delete_datum_again; [exact Hp|done|]. rewrite Hlive. congruence.
Qed.

(** After the deletion of a value it can still be read, until the relation is
    vacuumed; all others are live as before. *)
Lemma delete_value_ok db q data :
  db_ok db → external_value db q data → (∀ ri, ptr_id q = Some ri → live db ri) →
  runs (toast_delete_datum q) db (λ _ db',
    db_ok db' ∧ (∀ ri, ptr_id q = Some ri → deleted db' ri) ∧ toast_delete_datum q db' = elog ∧
    external_value db' q data ∧
    ∀ p data', live_value db p data' → ptr_id p ≠ ptr_id q → live_value db' p data').
Proof.
  intros Hdb He Hl. pose proof He as (bytes & id & relid & rel & Hp & Hrel & _).
  pose proof (pointer_id _ _ _ _ _ Hp) as Ei.
  eapply runs_mono; [eapply (delete_datum_ok db q); [exact Hp|by apply Hl|done]|].
  intros [] db' [Hrem Hdb'].
  destruct (removed_deleted db db' [(relid, id)] q data He Hrem) as [Hd Hagain].
  { intros ri. rewrite Ei. set_solver. }
  pose proof (removed_kept _ _ _ Hrem) as Hk. split_and!; [done|done|done|by eapply external_kept|].
  intros p data' Hv Hne. eapply live_value_kept; [exact Hk| |done].
  intros [relid' id'] Hri [= -> ->]%list_elem_of_singleton. congruence.
Qed.

(** ** Deleting a row *)

(** The pointers of a row to values that are out of line. *)
Fixpoint row_pointers (A : list Form_pg_attribute) (V : list Datum) (N : list bool) : list (list Z) :=
  match A, V, N with
  | a :: A, v :: V, n :: N => option_list (old_pointer a (Some (v, n))) ++ row_pointers A V N
  | _, _, _ => []
  end.

(** The pointer that is read from a tuple is one to the same value. *)
Lemma stored_pointer a v w :
  attr_ok a w → same_value a v w → attlen a = -1 →
  ∃ q, w = ByRef q ∧ match old_pointer a (Some (v, false)) with
  | Some p => ∀ i j k l, pointer_to p i j k l → pointer_to q i j k l
  | None => VARATT_IS_EXTERNAL q = false
  end.
Proof.
  intros Hok Hs Ea. destruct (same_read a v w Ea Hok Hs) as (p & q & -> & -> & Hq & Hsv & _). exists q. split; [done|].
  unfold old_pointer. rewrite Ea. cbn [Z.eqb Pos.eqb andb]. rewrite <- (proj1 Hsv).
  destruct (VARATT_IS_EXTERNAL q) eqn:E; [|done]. intros. by eapply pointer_same.
Qed.

Lemma delete_values_ok A V N D :
  same_row A V N D → ∀ db, db_ok db → NoDup (ptr_id <$> row_pointers A V N) →
  (∀ p, p ∈ row_pointers A V N → ∃ rawsize extsize id relid, pointer_to p rawsize extsize id relid ∧
     live db (relid, id)) →
  runs (delete_values A D N) db (λ _ db', removed (omap ptr_id (row_pointers A V N)) db db' ∧ db_ok db').
Proof.
  induction 1 as [|a v d A V N D _ IH|a v d A V N D Hs Hok _ IH]; intros db Hdb Hnd Hp; cbn [delete_values].
  - apply runs_ret. split; [apply removed_nil|done].
  - rewrite andb_false_r. assert (E : old_pointer a (Some (v, true)) = None) by (by destruct v).
    cbn [row_pointers] in *. rewrite E in *. apply runs_bind, runs_ret. by apply IH.
  - assert (Hskip : old_pointer a (Some (v, false)) = None → runs (delete_values A D N) db
      (λ _ db', removed (omap ptr_id (row_pointers (a :: A) (v :: V) (false :: N))) db db' ∧ db_ok db')).
    { intros E. cbn [row_pointers] in *. rewrite E in *. by apply IH. }
    destruct (Z.eqb_spec (attlen a) (-1)) as [Ea|Ea]; cbn [andb negb].
    2: { apply runs_bind, runs_ret, Hskip. unfold old_pointer. destruct v; [done|]. by rewrite (proj2 (Z.eqb_neq _ _)). }
    destruct (stored_pointer a v d Hok Hs Ea) as (q & -> & Hq).
    destruct (old_pointer a (Some (v, false))) as [p|] eqn:E.
    2: { apply runs_bind. eapply runs_bind_opt; [done|]. rewrite Hq. by apply runs_ret, Hskip. }
    cbn [row_pointers] in *. rewrite E in *. cbn [option_list app fmap list_fmap] in *.
    apply NoDup_cons in Hnd as [Hnin Hnd].
    destruct (Hp p ltac:(set_solver)) as (rawsize & extsize & id & relid & Hp' & Hl).
    pose proof (pointer_id _ _ _ _ _ Hp') as Ei.
    apply runs_bind. eapply runs_bind_opt; [done|]. rewrite (pt_external _ _ _ _ _ (Hq _ _ _ _ Hp')).
    eapply runs_mono; [eapply (delete_datum_ok db q); [by apply Hq|done|done]|].
    intros _ db1 [Hrem Hdb1]. cbn beta. eapply runs_mono; [apply (IH db1 Hdb1 Hnd)|].
    + intros p' Hin. destruct (Hp p' ltac:(set_solver)) as (r' & e' & id' & relid' & Hp1 & Hl1).
      exists r', e', id', relid'. split; [done|]. eapply live_kept; [by apply removed_kept| |done].
      intros [= -> ->]%list_elem_of_singleton. apply Hnin, list_elem_of_fmap. exists p'.
      by rewrite Ei, (pointer_id _ _ _ _ _ Hp1).
    + intros _ db' [Hrem' Hdb']. split; [|done].
      assert (Eo : ∀ l, omap ptr_id (p :: l) = (relid, id) :: omap ptr_id l) by (intros l; cbn [omap list_omap]; by rewrite Ei).
      change (option_list (Some p) ++ row_pointers A V N) with (p :: row_pointers A V N). rewrite Eo.
      by apply (removed_app [(relid, id)] _ db db1 db').
Qed.

Lemma row_pointers_more A V N D more :
  same_row A V N D →
  row_pointers (A ++ more) (V ++ replicate (length more) (ByVal 0)) (N ++ replicate (length more) true) = row_pointers A V N.
Proof.
  induction 1; cbn [row_pointers app]; [|by f_equal..]. induction more; [done|]. cbn [length replicate row_pointers app]. done.
Qed.

Lemma row_pointers_external A V N p : p ∈ row_pointers A V N → VARATT_IS_EXTERNAL p = true.
Proof.
  revert V N. induction A as [|a A IH]; intros [|v V] [|n N]; cbn [row_pointers]; try (by intros ?%elem_of_nil).
  intros [Hin|Hin]%elem_of_app; [|by eapply IH]. destruct (old_pointer a (Some (v, n))) as [q|] eqn:E; [|set_solver].
  apply list_elem_of_singleton in Hin as ->. by apply old_pointer_external in E as (_ & ? & _).
Qed.

(** C15. Deleting a row deletes the values that it has out of line, and nothing
    else: for every tuple that was formed of a row, whose columns may have been
    added to since, with different pointers to values that have not been
    deleted, [toast_delete] returns; then the rows of these values have been
    deleted, and deleting one of the values again is an error; every other
    value is live as before.  Deleted rows are still there for a fetch, which
    takes no notice of deletions: every pointer can be read as before. *)
Theorem toast_delete_correct db d A more V N t cache :
  attrs d = A ++ more → formed t A V N → cache_ok (attrs d) cache → db_ok db →
  NoDup (ptr_id <$> row_pointers A V N) →
  (∀ p, p ∈ row_pointers A V N → ∃ data, live_value db p data) →
  runs (toast_delete d t cache) db (λ cache' db', cache_ok (attrs d) cache' ∧ db_ok db' ∧
    (∀ p, p ∈ row_pointers A V N →
       (∀ ri, ptr_id p = Some ri → deleted db' ri) ∧ toast_delete_datum p db' = elog) ∧
    (∀ p data, live_value db p data → (∀ q, q ∈ row_pointers A V N → ptr_id p ≠ ptr_id q) → live_value db' p data) ∧
    (∀ p data, value db p data → value db' p data)).
Proof.
  intros Ed Hf Hc Hdb Hnd Hp. destruct (heap_deform_tuple_ok t A more V N Hf d cache Ed Hc) as (c1 & E1 & Hc1).
  eapply runs_bind_opt; [exact E1|]. apply runs_bind. rewrite Ed.
  pose proof (same_row_more _ _ _ _ more (row_values_same _ _ _ _ Hf)) as Hsr.
  pose proof (row_pointers_more A V N (row_values t A V N) more ltac:(by apply row_values_same)) as Em.
  eapply runs_mono; [eapply delete_values_ok; [exact Hsr|done|by rewrite Em|]|].
  - rewrite Em. intros p Hin. destruct (Hp p Hin) as [data Hv].
    destruct (live_external _ _ _ Hv (row_pointers_external _ _ _ _ Hin)) as [(bytes & id & relid & rel & Hp' & _) Hl].
    eexists _, _, id, relid. split; [done|]. by apply Hl, (pointer_id _ _ _ _ _ Hp').
  - rewrite Em. intros _ db' [Hrem Hdb']. apply runs_ret. rewrite <- Ed. pose proof (removed_kept _ _ _ Hrem) as Hk.
    split_and!; [done|done| | |].
    + intros p Hin. destruct (Hp p Hin) as [data Hv].
      destruct (live_external _ _ _ Hv (row_pointers_external _ _ _ _ Hin)) as [He _].
      eapply removed_deleted; [done..|]. intros ri Hri. apply list_elem_of_omap. by exists p.
    + intros p data Hv Hne. eapply live_value_kept; [exact Hk| |done].
      intros [relid id] Hri (q & Hin & Eq)%list_elem_of_omap. apply (Hne q Hin). by rewrite Eq.
    + intros p data. by apply (value_kept _ _ _ _ _ Hk).
Qed.

(** ** Fetching *)

Context (palloc : Z → list Z).
Context (palloc_len : ∀ n, 0 ≤ n → blen (palloc n) = n).

(** C28. What a fetch finds in the toast relation is never put together wrongly:
    whatever rows of the value a scan gives, in whatever order (the executor
    scans the heap, where they are in any order, and rows can be missing or
    doubled), [toast_fetch_datum] returns the value with its header when they
    are all the chunks in order, and raises an error otherwise. *)
Theorem toast_fetch_rows execute db p rawsize bytes id relid rel :
  pointer_to p rawsize (blen bytes) id relid → 4 ≤ rawsize < 2 ^ 30 →
  0 < blen bytes → blen bytes + VARHDRSZ < MaxAllocSize →
  db_rels db !! relid = Some rel → cache_ok atts (tr_cache rel) →
  let rows := systable_scan execute (tr_heap rel) id in
  Forall (row_of id bytes) rows →
  if bool_decide (row_seq <$> rows = Some <$> seqZ 0 (num_chunks bytes)) then
    ∃ cache, toast_fetch_datum execute palloc p db =
      ok (image (negb (blen bytes =? rawsize - 4)) bytes, put_rel db relid (mkToastRel (tr_heap rel) cache)) ∧
      cache_ok atts cache
  else toast_fetch_datum execute palloc p db = elog.
Proof.
  intros Hp Hr Hb Hm Hrel Hc rows Hrows.
  destruct (fetch_scan palloc palloc_len execute db p rawsize bytes id relid rel Hp ltac:(lia) Hb Hm Hrel Hc Hrows) as [H1 H2].
  case_bool_decide as E; [by apply H1|by apply H2].
Qed.

(** ** Readers *)

Lemma u32_shift z n k : s32 z = n → 0 ≤ n + k < 2 ^ 32 → u32 (z + k) = n + k.
Proof. unfold s32, u32. intros Hz Hk. divlia. Qed.

Lemma raw_size_ok db p data : value db p data → toast_raw_datum_size p = Some (blen data + 4).
Proof.
  intros [Hi|(bytes & id & relid & rel & Hp & _)]; unfold toast_raw_datum_size.
  2: { rewrite (pt_external _ _ _ _ _ Hp). apply (pt_rawsize _ _ _ _ _ Hp). }
  rewrite (inline_external _ _ Hi). pose proof Hi as [Hfit%fits_len [(Hok & HE & HC & Hpay)|Hc]].
  - rewrite HC. destruct (plain_lengths p Hok HE) as (_ & _ & H4 & H1). rewrite Hpay in *.
    destruct (VARATT_IS_SHORT p) eqn:Hs; [rewrite H1|rewrite H4]; try done.
    unfold VARHDRSZ_SHORT, VARHDRSZ. f_equal. lia.
  - rewrite (cd_flag _ _ Hc). destruct (compressed_any _ _ Hc) as [_ Hl]. destruct Hc as [_ _ C8 _ Craw _].
    unfold va_word. rewrite (proj2 (Z.leb_le _ _)) by lia. cbn [mbind option_bind]. f_equal.
    apply u32_shift; [done|unfold VARHDRSZ; lia].
Qed.

Lemma untoast_len_ok db p data :
  db_ok db → value db p data →
  runs (varattrib_untoast_len false palloc p) db (λ n db', n = blen data ∧ steady db db') ∧
  runs (varattrib_untoast_ptr_len false palloc p) db (λ r db',
    r.2 = blen data ∧ take (length data) r.1 = data ∧ steady db db').
Proof.
  intros Hdb Hv. split.
  - apply runs_bind. eapply runs_mono; [by apply (inlined_ok palloc palloc_len)|].
    intros q db' (Hq & Hx & _). destruct (VARATT_IS_COMPRESSED q) eqn:HC; apply runs_ret; (split; [|done]).
    + destruct Hq as [_ [(_ & _ & ? & _)|Hc]]; [congruence|apply Hc].
    + by apply plain_data_ok.
  - apply runs_bind. eapply runs_mono; [by apply (inlined_ok palloc palloc_len)|].
    intros q db' (Hq & Hx & Hdb'). apply (decompressed_ok palloc palloc_len _ _ data); [done..|].
    intros q' Hq' HC'. apply runs_ret. destruct (plain_data_ok q' data Hq' HC') as [-> ->]. done.
Qed.

(** C36. The readers agree on what a value stands for, wherever it is, for a
    process that is not the executor: for a plain, short or compressed value
    and for a pointer, [heap_tuple_untoast_attr] gives the data,
    [heap_tuple_untoast_attr_slice] the part of them that is asked for, clipped
    to them, [varattrib_untoast_len] and [varattrib_untoast_ptr_len] their
    length and place, and [toast_raw_datum_size] their length with a header
    without fetching them; they change nothing but cached offsets.  The end of
    the part must not overflow, and a part of a value that is out of line and
    not compressed must not touch a last chunk of at most 126 bytes. *)
Theorem toast_readers_agree db p data off len :
  db_ok db → value db p data → 0 ≤ off → - 2 ^ 31 ≤ len → off + len < 2 ^ 31 →
  (VARATT_EXTERNAL_IS_COMPRESSED p = Some false → external_value db p data → avoids_short off len data) →
  runs (heap_tuple_untoast_attr false palloc p) db (λ v db', plain_value v data ∧ steady db db') ∧
  runs (heap_tuple_untoast_attr_slice false palloc p off len) db (λ v db',
    v = varlena (substring off len data) ∧ steady db db') ∧
  runs (varattrib_untoast_len false palloc p) db (λ n db', n = blen data ∧ steady db db') ∧
  runs (varattrib_untoast_ptr_len false palloc p) db (λ r db',
    r.2 = blen data ∧ take (length data) r.1 = data ∧ steady db db') ∧
  toast_raw_datum_size p = Some (blen data + VARHDRSZ).
Proof.
  intros Hdb Hv Ho Hl Hol Hav. destruct (untoast_len_ok db p data Hdb Hv) as [H1 H2]. split_and!; [| |done|done|].
  - eapply runs_mono; [by apply (untoast_ok palloc palloc_len)|]. by intros v db' (? & ? & _).
  - eapply runs_mono; [by apply (untoast_slice_ok palloc palloc_len)|]. intros v db' [-> [? _]]. by split.
  - by apply (raw_size_ok db).
Qed.

Context (flatten : list Z → Z → Z → res (list Z)).

(** ** Storing *)

(** C24. A value that is stored out of line can be read, by a process that is not
    the executor: for every value of the tuple (plain, with a short header, or
    compressed) that has data, [toast_save_datum] returns a pointer from which
    [heap_tuple_untoast_attr] gives the data; [toast_delete_datum] then deletes
    the value, which deletes its rows (deleting it again is an error), while
    a fetch, which takes no notice of deletions, still finds it; and no other
    value is changed.  The counter of identifiers is that of a running server,
    the relation has fewer rows than there are identifiers, and the next
    identifiers, as many as there are rows, are not those of deleted rows. *)
Theorem toast_save_roundtrip db relid p data :
  db_ok db → id_space relid 0 db → inline_value p data → 4 < VARSIZE_ANY p →
  runs (toast_save_datum true flatten palloc relid p) db (λ q db',
    (∀ p' data', value db p' data' → value db' p' data') ∧
    (∀ p' data', live_value db p' data' → live_value db' p' data') ∧
    runs (heap_tuple_untoast_attr false palloc q) db' (λ v db'', plain_value v data ∧ steady db' db'') ∧
    runs (toast_delete_datum q) db' (λ _ db'',
      (∀ ri, ptr_id q = Some ri → deleted db'' ri) ∧ toast_delete_datum q db'' = elog ∧
      runs (heap_tuple_untoast_attr false palloc q) db'' (λ v db3, plain_value v data ∧ steady db'' db3) ∧
      ∀ p' data', live_value db p' data' → live_value db'' p' data')).
Proof.
  intros Hdb Hsp%id_space_home Hi Hsz.
  eapply runs_mono; [by eapply (save_ok flatten palloc palloc_len relid _ 0 db p data)|].
  intros q db' (Hq & Hx & Hdb' & _ & Hfresh). split_and!.
  - intros p' data'. by apply value_extends.
  - intros p' data'. by apply live_value_extends.
  - eapply runs_mono; [apply (untoast_ok palloc palloc_len db' q data Hdb'); by right|]. by intros v db'' (? & ? & _).
  - eapply runs_mono; [apply (delete_value_ok db' q data); [done|done|intros ri Hri; by apply Hfresh]|].
    intros [] db'' (Hdb'' & Hd & Hagain & He & Hk). split_and!; [done|done| |].
    + eapply runs_mono; [apply (untoast_ok palloc palloc_len db'' q data Hdb''); by right|]. by intros v db3 (? & ? & _).
    + intros p' data' [Hv|Hv]; [by left|]. apply Hk; [eapply live_value_extends; [done|by right]|]. intros E.
      destruct (external_present _ _ _ (proj1 Hv)) as (ri & Eri & Hpr). by apply (Hfresh ri); [congruence|].
Qed.

(** ** Tuples *)

(** C33. A tuple that is made to fit has the same row, for a process that is not
    the executor.  For every new row of values in memory and out of line and,
    for an update, an old row with different pointers to values that have not
    been deleted, [toast_insert_or_update] ends and returns a tuple with the
    same nulls, the same values of fixed length, and variable values that stand
    for the same data, compressed or out of line as they may be now, in rows
    that have not been deleted.  The tuple is within the target, or there is no
    toast relation, or every column that may be moved out is out or has at most
    24 bytes.  The values out of line of the old row that the new row does not
    use are deleted, and all other values of the toast relations are live as
    before.  The row, with 40 bytes for the header and the padding of each
    variable value, is less than the largest allocation, and there are
    identifiers, which are not those of deleted rows, for two values of each
    column. *)
Theorem toast_insert_or_update_correct d relid newtup oldtup target cache cols db :
  attrs d = c_att <$> cols → formed newtup (attrs d) (c_value <$> cols) (c_null <$> cols) →
  header_ok d newtup (c_null <$> cols) → Forall (col_value db) cols →
  old_row d oldtup cols → NoDup (omap old_id cols) →
  (∀ c op, c ∈ cols → old_pointer (c_att c) (c_old c) = Some op → ∃ data, live_value db op data) →
  (relid ≠ InvalidOid → id_space relid (2 * natts d * max_chunks) db) →
  db_ok db → cache_ok (attrs d) cache →
  HEAPTUPLESIZE + t_hoff newtup + row_weight cols < MaxAllocSize → t_hoff newtup ≤ target < 2 ^ 63 →
  runs (toast_insert_or_update false true flatten palloc d relid newtup oldtup target cache) db
    (toasted d relid target cols db newtup).
Proof.
  intros Ed Hf Hh Hv Ho Hnd Hold. apply insert_ok; try done. intros c op Hin E.
  destruct (Hold c op Hin E) as [data Hl]. destruct (old_pointer_external _ _ _ E) as (_ & HE & _).
  destruct (live_external _ _ _ Hl HE). by split; [exists data|].
Qed.
End Spec.

(** ** Example: a heap of line pointers

    The row versions of a relation by the number of their line pointer, and
    whether they have been deleted. *)

Fixpoint rows_from (i : Z) (r : list (HeapTuple * bool)) : list (Z * HeapTuple) :=
  match r with
  | [] => []
  | (t, _) :: r => (i, t) :: rows_from (i + 1) r
  end.

#[local] Instance seq_le_dec : RelDecision seq_le.
Proof. intros x y. unfold seq_le. apply _. Defined.
#[local] Instance seq_le_trans : Transitive seq_le.
Proof. intros x y z. unfold seq_le. lia. Qed.
#[local] Instance seq_le_total : Total seq_le.
Proof. intros x y. unfold seq_le. lia. Qed.

Definition slot_deleted (r : list (HeapTuple * bool)) (tid : Z) : bool :=
  match r !! Z.to_nat tid with Some (_, d) => d | None => false end.

#[local] Instance slots_am : ToastAM (list (HeapTuple * bool)) := {|
  heap_rows := rows_from 0;
  row_deleted := slot_deleted;
  heap_insert r t := r ++ [(t, false)];
  heap_delete r tid := if 0 <=? tid then alter (λ row, (row.1, true)) (Z.to_nat tid) r else r;
  index_scan r s id range :=
    merge_sort seq_le (filter (λ row, scan_match id range row = true)
      (match s with
       | SnapshotToast => rows_from 0 r
       | SnapshotDirty => filter (λ row, slot_deleted r row.1 = false) (rows_from 0 r)
       end))
|}.

Lemma rows_from_addresses i r : (rows_from i r).*1 = seqZ i (Z.of_nat (length r)).
Proof.
  revert i. induction r as [|[t d] r IH]; intros i; [done|]. cbn [rows_from fmap list_fmap fst length].
  rewrite seqZ_cons by lia. f_equal. rewrite IH. f_equal. lia.
Qed.

Lemma rows_from_app i r r' : rows_from i (r ++ r') = rows_from i r ++ rows_from (i + Z.of_nat (length r)) r'.
Proof.
  revert i. induction r as [|[t d] r IH]; intros i; cbn [rows_from app length]; rewrite ?IH.
  - by rewrite Z.add_0_r.
  - do 3 f_equal. lia.
Qed.

Lemma rows_from_alter i r k : rows_from i (alter (λ row, (row.1, true)) k r) = rows_from i r.
Proof.
  revert i k. induction r as [|[t d] r IH]; intros i [|k]; try done. cbn [rows_from alter list_alter].
  f_equal. apply IH.
Qed.

#[local] Instance slots_laws : ToastAMLaws (list (HeapTuple * bool)).
Proof.
  split; cbn [heap_rows row_deleted heap_insert heap_delete index_scan slots_am].
  - intros r. rewrite rows_from_addresses. apply NoDup_seqZ.
  - intros r t. exists (rows_from 0 r), [], (0 + Z.of_nat (length r)). rewrite app_nil_r, rows_from_app.
    split; [done|]. split; [done|]. unfold slot_deleted. split.
    + rewrite Z.add_0_l, Nat2Z.id. by rewrite lookup_app_r, Nat.sub_diag by lia.
    + rewrite rows_from_addresses. intros tid [? ?]%elem_of_seqZ. by rewrite lookup_app_l by lia.
  - intros r tid. destruct (0 <=? tid); [apply rows_from_alter|done].
  - intros r tid tid'. rewrite rows_from_addresses. intros [Hge Hlt]%elem_of_seqZ. unfold slot_deleted.
    destruct (lookup_lt_is_Some_2 r (Z.to_nat tid') ltac:(lia)) as [[t d] E].
    destruct (Z.leb_spec 0 tid) as [Ht|Ht]; [|by rewrite bool_decide_false by lia].
    destruct (decide (tid' = tid)) as [->|Hne].
    + rewrite list_lookup_alter_eq, E, bool_decide_true by done. done.
    + rewrite bool_decide_false by done. by rewrite list_lookup_alter_ne by lia.
  - intros r s id range. rewrite merge_sort_Permutation. by destruct s.
  - intros. apply (StronglySorted_merge_sort seq_le).
Qed.

Definition toast_db : Db (list (HeapTuple * bool)) :=
  mkDb {[20000 := mkToastRel [] (replicate 3 (-1))]} ∅ FirstNormalObjectId 0.

Lemma toast_db_ok : db_ok toast_db.
Proof.
  intros relid rel. unfold toast_db. cbn [db_rels]. intros [<- <-]%lookup_singleton_Some. apply (cache_fresh atts).
Qed.

Lemma toast_db_space : id_space 20000 1000000 toast_db.
Proof.
  split; [done|]. split; [done|]. eexists. split; [by apply lookup_singleton_eq|]. split; [done|].
  intros i _. unfold dead_ids. cbn. set_solver.
Qed.

Definition letters (n : nat) : list Z := replicate n 65.

Lemma letters_value n : Z.of_nat n < 1000 → inline_value (varlena (letters n)) (letters n).
Proof.
  intros Hn. apply varlena_inline. split.
  - apply Forall_replicate. done.
  - unfold letters, blen, PGLZ_MAX_OUTPUT, MaxAllocSize, sizeof_PGLZ_Header. rewrite length_replicate. lia.
Qed.

Lemma toast_save_roundtrip_witness :
  ∃ q db' v db'' db3,
    toast_save_datum true demo_flatten demo_palloc 20000 (varlena (letters 40)) toast_db = ok (q, db') ∧
    heap_tuple_untoast_attr false demo_palloc q db' = ok (v, db'') ∧ payload v = letters 40 ∧
    toast_delete_datum q db' = ok (tt, db3) ∧ toast_delete_datum q db3 = elog.
Proof.
  destruct (toast_save_roundtrip demo_palloc demo_palloc_len demo_flatten toast_db 20000
    (varlena (letters 40)) (letters 40))
    as (q & db' & E & _ & _ & (v & db'' & Ev & Hv & _) & ([] & db3 & Ed & _ & Hf & _));
    [apply toast_db_ok|eapply id_space_le; [|apply toast_db_space]; lia|by apply letters_value|by vm_compute|].
  exists q, db', v, db'', db3. split; [exact E|]. split; [exact Ev|]. split; [apply Hv|]. split; [exact Ed|exact Hf].
Defined.

Lemma demo_saved :
  runs (toast_save_datum true demo_flatten demo_palloc 20000 (varlena (letters 40))) toast_db
    (λ q db', external_value db' q (letters 40) ∧ db_ok db' ∧ ∀ ri, ptr_id q = Some ri → live db' ri).
Proof.
  eapply runs_mono; [eapply (save_ok demo_flatten demo_palloc demo_palloc_len 20000 _ 1000000 toast_db (varlena (letters 40)) (letters 40));
    [apply toast_db_ok|apply id_space_home, toast_db_space|lia|by apply letters_value|by vm_compute]|].
  intros q db' (He & _ & Hdb' & _ & Hl). split; [done|]. split; [done|]. intros ri Hri. by apply Hl.
Qed.

Lemma toast_fetch_rows_witness :
  ∃ q db' v db'', toast_save_datum true demo_flatten demo_palloc 20000 (varlena (letters 40)) toast_db = ok (q, db') ∧
    toast_fetch_datum false demo_palloc q db' = ok (v, db'').
Proof.
  destruct demo_saved as (q & db' & E & (bytes & id & relid & rel & Hp & Hrel & Hst & Hb & Hi) & Hdb' & _).
  destruct (value_size_bound q _ bytes _ Hi ltac:(lia)) as [Hm Hr]. destruct (stored_index _ _ _ Hst) as [Hf Hs].
  pose proof (toast_fetch_rows demo_palloc demo_palloc_len false db' q _ bytes id relid rel Hp
    ltac:(change (blen (letters 40)) with 40; unfold VARHDRSZ; lia) ltac:(lia) Hm Hrel
    (Hdb' relid rel Hrel) Hf) as H.
  rewrite bool_decide_true in H by exact Hs. destruct H as (cache & Hfetch & _).
  eexists q, db', _, _. split; [exact E|exact Hfetch].
Defined.

Lemma toast_readers_agree_witness :
  ∃ v db', heap_tuple_untoast_attr_slice false demo_palloc (varlena (letters 40)) 37 5 toast_db = ok (v, db') ∧
    v = varlena [65; 65; 65].
Proof.
  destruct (toast_readers_agree demo_palloc demo_palloc_len toast_db (varlena (letters 40)) (letters 40) 37 5)
    as (_ & (v & db' & E & Hv & _) & _); [apply toast_db_ok|left; by apply letters_value|lia|lia|lia| |].
  - intros _ (bytes & id & relid & rel & Hp & _). pose proof (pt_external _ _ _ _ _ Hp) as HE. by vm_compute in HE.
  - exists v, db'. split; [exact E|exact Hv].
Defined.

(** A table of two columns, and a row that does not fit into 100 bytes. *)
Definition toast_atts : list Form_pg_attribute :=
  [ mkAttribute 23 4 0 (-1) true "p"%char "i"%char; mkAttribute 25 (-1) 0 (-1) false "e"%char "i"%char ].
Definition toast_table : TupleDesc := mkTupleDesc toast_atts 2249 (-1) false.
Definition toast_row : list Datum := [ByVal 7; ByRef (varlena (letters 300))].
Definition toast_cols : list col :=
  [ mkCol (mkAttribute 23 4 0 (-1) true "p"%char "i"%char) (ByVal 7) false [] None;
    mkCol (mkAttribute 25 (-1) 0 (-1) false "e"%char "i"%char) (ByRef (varlena (letters 300))) false (letters 300) None ].

Lemma toast_row_ok : row_ok toast_atts toast_row [false; false].
Proof.
  apply Forall3_cons; [|apply Forall3_cons; [|constructor]]; intros _; cbn [attr_ok].
  - split; [done|]. set_unfold. cbn. lia.
  - split; [done|]. left. split; [done|]. apply (inline_ok _ (letters 300)). by apply letters_value.
Qed.

Definition toast_tuple : HeapTuple :=
  match heap_form_tuple demo_flatten demo_palloc toast_table toast_row [false; false] with
  | Some (Return t) => t
  | _ => demo_tuple
  end.

Lemma toast_tuple_formed : formed toast_tuple toast_atts toast_row [false; false].
Proof.
  destruct (heap_form_tuple_ok demo_flatten demo_palloc demo_palloc_len demo_flatten_ok toast_table toast_row
    [false; false] toast_row_ok) as (t & E & Hf & _); [by vm_compute..|].
  unfold toast_tuple. rewrite E. exact Hf.
Qed.

Lemma toast_insert_or_update_correct_witness :
  ∃ t cache db', toast_insert_or_update false true demo_flatten demo_palloc toast_table 20000 toast_tuple None 100
      [-1; -1] toast_db = ok ((t, cache), db') ∧
    ∃ ds c', heap_deform_tuple t toast_table [-1; -1] = Some (ds, [false; false], c') ∧
      Forall2 (col_reads db') toast_cols ds.
Proof.
  destruct (toast_insert_or_update_correct demo_palloc demo_palloc_len demo_flatten toast_table 20000 toast_tuple None 100
    [-1; -1] toast_cols toast_db) as ([t cache] & db' & E & [(ds & Hd & Hr & _) _ _ _ _]).
  - done.
  - apply toast_tuple_formed.
  - by vm_compute.
  - repeat constructor; intros _ Ea; [done|]. eexists. split; [done|]. left. by apply letters_value.
  - repeat constructor.
  - constructor.
  - intros c op Hin. set_unfold in Hin. by destruct Hin as [->|[->|[]]].
  - intros _. eapply id_space_le; [|apply toast_db_space]. by vm_compute.
  - apply toast_db_ok.
  - apply (cache_fresh toast_atts).
  - by vm_compute.
  - by vm_compute.
  - exists t, cache, db'. split; [exact E|]. destruct (Hd [-1; -1] (cache_fresh toast_atts)) as (c' & Ed & _).
    exists ds, c'. split; [exact Ed|exact Hr].
Defined.

Lemma toast_delete_correct_witness :
  ∃ q db t cache' db', toast_save_datum true demo_flatten demo_palloc 20000 (varlena (letters 40)) toast_db = ok (q, db) ∧
    heap_form_tuple demo_flatten demo_palloc toast_table [ByVal 7; ByRef q] [false; false] = ok t ∧
    toast_delete toast_table t [-1; -1] db = ok (cache', db') ∧ toast_delete_datum q db' = elog.
Proof.
  destruct demo_saved as (q & db & E & He & Hdb & Hl). pose proof He as (bytes & id & relid & rel & Hp & _).
  assert (Hrow : row_ok toast_atts [ByVal 7; ByRef q] [false; false]).
  { apply Forall3_cons; [|apply Forall3_cons; [|constructor]]; intros _; cbn [attr_ok].
    - split; [done|]. set_unfold. cbn. lia.
    - split; [done|]. left. split; [done|]. apply Hp. }
  assert (Hform : ∃ t, heap_form_tuple demo_flatten demo_palloc toast_table [ByVal 7; ByRef q] [false; false] = ok t).
  { vm_compute in E. injection E as <- <-. eexists. by vm_compute. }
  destruct Hform as [t Et].
  pose proof (form_formed demo_flatten demo_palloc demo_palloc_len demo_flatten_ok toast_table _ _ _ Hrow Et) as Hf.
  change (flat_row _ _ _ _) with [ByVal 7; ByRef q] in Hf.
  assert (Hptr : row_pointers toast_atts [ByVal 7; ByRef q] [false; false] = [q]).
  { cbn. by rewrite (pt_external _ _ _ _ _ Hp). }
  destruct (toast_delete_correct db toast_table toast_atts [] [ByVal 7; ByRef q]
    [false; false] t [-1; -1] eq_refl Hf (cache_fresh toast_atts) Hdb) as (cache' & db' & Ed & _ & _ & Hd & _).
  - rewrite Hptr. apply NoDup_singleton.
  - rewrite Hptr. intros p ->%list_elem_of_singleton. exists (letters 40). right. by split.
  - exists q, db, t, cache', db'. split; [exact E|]. split; [exact Et|]. split; [exact Ed|].
    apply Hd. rewrite Hptr. by apply list_elem_of_singleton.
Defined.

(** Storing a value and deleting it, and storing another one when the counter
    has come to the same identifier again. *)
Definition store_again {A} (k : list Z → list Z → M (list (HeapTuple * bool)) A) : M (list (HeapTuple * bool)) A :=
  let^ q := toast_save_datum true demo_flatten demo_palloc 20000 (varlena (letters 40)) in
  let^ _ := toast_delete_datum q in
  let^ q' := (λ db, toast_save_datum true demo_flatten demo_palloc 20000 (varlena (letters 50))
                      (mkDb (db_rels db) (db_history db) (nextOid toast_db) 0)) in
  k q q'.

(** The condition of [toast_save_roundtrip] on the identifiers of deleted rows is
    needed.  [GetNewOidWithIndex] does not see deleted rows that are still
    there, and gives their identifier to the new value; a fetch, which sees
    the rows of both values, is an error. *)
Example identifier_of_deleted_value :
  (∃ db, store_again (λ q q', mret (bool_decide (ptr_id q' = ptr_id q))) toast_db = ok (true, db)) ∧
  store_again (λ _ q', toast_fetch_datum false demo_palloc q') toast_db = elog.
Proof. split; [eexists; vm_compute; reflexivity|vm_compute; reflexivity]. Qed.

(** The condition of [toast_readers_agree] is needed.  A chunk of at most 126
    bytes is stored with a header of one byte, which [toast_fetch_datum]
    accounts for and [toast_fetch_datum_slice] does not: it copies from the
    fourth byte of the data on.  Of the bytes 1 to 40, stored out of line, the
    first five are read as 4 to 8, and the last ten from after the end of the
    chunk. *)
Example slice_of_short_chunk :
  ∃ q db, toast_save_datum true demo_flatten demo_palloc 20000 (varlena (seqZ 1 40)) toast_db = ok (q, db) ∧
    (∃ db', heap_tuple_untoast_attr false demo_palloc q db = ok (varlena (seqZ 1 40), db')) ∧
    (∃ db', heap_tuple_untoast_attr_slice false demo_palloc q 0 5 db = ok (varlena (seqZ 4 5), db')) ∧
    heap_tuple_untoast_attr_slice false demo_palloc q 30 10 db = None.
Proof. eexists _, _. split_and!; [vm_compute; reflexivity|eexists; vm_compute; reflexivity..|vm_compute; reflexivity]. Qed.
