(* ===== verification/MemTuple.v ===== *)
(** Memtuples: backend/access/common/memtuple.c and include/access/memtup.h,
    the compact tuples that rows are stored in by append-only tables and sent
    in between segments.

    A memtuple is a buffer.  Its columns are not in logical order: a binding,
    made once from the descriptor, puts those of fixed length first, ordered by
    alignment, with an offset of two bytes (four in a large tuple) in place of
    every value of variable length, which are stored after them.  A null column
    takes no space, so that the place of a column depends on the nulls before
    it; tables of the binding give the space saved by any four of them.
    Memtuples are at addresses aligned to 8 bytes. *)
From Stdlib Require Import Ascii.
From stdpp Require Import prelude numbers list.
From S2P Require Import Prelude Varlena PgLz HeapTuple Toast.

Local Open Scope char_scope.
Local Open Scope Z_scope.

Definition s16 (z : Z) : Z := (z + 2 ^ 15) `mod` 2 ^ 16 - 2 ^ 15.

(** ** Bindings *)

Inductive MemTupleBindFlag :=
| MTB_ByVal_Native
| MTB_ByVal_Ptr
| MTB_ByRef
| MTB_ByRef_CStr.

Record MemTupleAttrBinding := mkBinding {
  bind_offset : Z;
  bind_len : Z;
  bind_len_aligned : Z;
  bind_flag : MemTupleBindFlag;
  null_byte : Z;
  null_mask : Z
}.

Record MemTupleBindingCols := mkBindingCols {
  var_start : Z;
  bindings : list MemTupleAttrBinding;
  null_saves : option (list Z);
  null_saves_aligned : list Z;
  has_null_saves_alignment_mismatch : bool;
  has_dropped_attr_alignment_mismatch : bool
}.

(** The flags [attisdropped] of the attributes are beside the descriptor. *)
Record MemTupleBinding := mkMemTupleBinding {
  tupdesc : TupleDesc;
  attisdropped : list bool;
  column_align : Z;
  null_bitmap_extra_size : Z;
  bind : MemTupleBindingCols;
  large_bind : MemTupleBindingCols
}.

Definition compute_null_bitmap_extra_size (d : TupleDesc) (col_align : Z) : Z :=
  let nbytes := Z.shiftr (natts d + 7) 3 in
  let avail_bytes := if tdhasoid d || (col_align =? 4) then 0 else 4 in
  if nbytes <=? avail_bytes then 0 else TYPEALIGN col_align (nbytes - avail_bytes).

Definition compute_null_save_entries (i : Z) : Z := Z.quot (i + 7) 8 * 32.

Definition add_null_save (null_save : list Z) (i sz : Z) : list Z :=
  let first := Z.quot i 4 * 16 in
  let bit := Z.shiftl 1 (Z.rem i 4) in
  foldl (λ ns k, if negb (Z.land k bit =? 0) then alter (λ x, s16 (x + sz)) (Z.to_nat (first + k)) ns else ns)
    null_save (seqZ 0 16).

Definition set_len_aligned (n : Z) (b : MemTupleAttrBinding) : MemTupleAttrBinding :=
  mkBinding (bind_offset b) (bind_len b) n (bind_flag b) (null_byte b) (null_mask b).

Definition add_null_save_aligned (b : MemTupleAttrBinding) (null_save_aligned : list Z) (i : Z)
    (next_attr_align : ascii) : MemTupleAttrBinding * list Z * bool :=
  let b := set_len_aligned (att_align (bind_len b) next_attr_align) b in
  (b, add_null_save null_save_aligned i (s16 (bind_len_aligned b)), bind_len b =? bind_len_aligned b).

Definition att_bind_as_varoffset (a : Form_pg_attribute) : bool := attlen a <? 0.

(** The conditions of the four passes, and what they have of their own: the
    alignment, the length, the space saved and the flag. *)
Definition in_pass (pass : Z) (islarge : bool) (a : Form_pg_attribute) : bool :=
  if pass =? 0 then (0 <? attlen a) && Ascii.eqb (attalign a) "d"
  else if pass =? 1 then
    (0 <? attlen a) && Ascii.eqb (attalign a) "i" || islarge && att_bind_as_varoffset a
  else if pass =? 2 then
    (0 <? attlen a) && Ascii.eqb (attalign a) "s" || negb islarge && att_bind_as_varoffset a
  else (0 <? attlen a) && Ascii.eqb (attalign a) "c" || (attlen a <? 0) && negb (att_bind_as_varoffset a).

Definition pass_align (pass : Z) : ascii :=
  if pass =? 0 then "d" else if pass =? 1 then "i" else if pass =? 2 then "s" else "c".

Definition pass_len (pass : Z) (a : Form_pg_attribute) : Z :=
  if pass =? 1 then if 0 <? attlen a then attlen a else 4
  else if pass =? 2 then if 0 <? attlen a then attlen a else 2
  else attlen a.

Definition pass_save (pass : Z) (a : Form_pg_attribute) : Z := if pass =? 3 then 1 else pass_len pass a.

Definition pass_flag (pass : Z) (a : Form_pg_attribute) : MemTupleBindFlag :=
  if (pass =? 1) || (pass =? 2) then
    if 0 <? attlen a then if attbyval a then MTB_ByVal_Native else MTB_ByVal_Ptr
    else if attlen a =? -1 then MTB_ByRef else MTB_ByRef_CStr
  else if pass =? 0 then if attbyval a then MTB_ByVal_Native else MTB_ByVal_Ptr
  else if (0 <? attlen a) && attbyval a then MTB_ByVal_Native else MTB_ByVal_Ptr.

(** The state of [create_col_bind]; [previous_bind] is the number of the
    attribute whose binding it points to. *)
Record ColBind := mkColBind {
  cur_offset : Z;
  physical_col : Z;
  previous_bind : option nat;
  cb_bindings : list MemTupleAttrBinding;
  cb_null_saves : list Z;
  cb_null_saves_aligned : list Z;
  cb_mismatch : bool;
  cb_dropped_mismatch : bool
}.

Section Binding.
(** The contents of the bindings before they are filled. *)
Context (junk : MemTupleAttrBinding).

(** The aligned length of the previous binding: its binding, the space saved,
    and whether its length is aligned. *)
Definition bind_previous (st : ColBind) (bs : list MemTupleAttrBinding) (next_attr_align : ascii)
    : list MemTupleAttrBinding * list Z * bool :=
  match previous_bind st with
  | None => (bs, cb_null_saves_aligned st, false)
  | Some k =>
      let '(b, ns, eq) :=
        add_null_save_aligned (default junk (bs !! k)) (cb_null_saves_aligned st) (physical_col st - 1)
          next_attr_align in
      (<[k := b]> bs, ns, eq)
  end.

Definition bind_col (pass : Z) (i : nat) (a : Form_pg_attribute) (dropped : bool) (st : ColBind) : ColBind :=
  let offset := s32 (att_align (cur_offset st) (pass_align pass)) in
  let len := pass_len pass a in
  let nbyte := Z.shiftr (physical_col st) 3 in
  let b := mkBinding offset len (bind_len_aligned (default junk (cb_bindings st !! i))) (pass_flag pass a) nbyte
             (u8 (Z.shiftl 1 (physical_col st - Z.shiftl nbyte 3))) in
  let '(bs, nsa, eq) := bind_previous st (<[i := b]> (cb_bindings st)) (pass_align pass) in
  mkColBind (u32 (offset + len)) (physical_col st + 1) (Some i) bs
    (add_null_save (cb_null_saves st) (physical_col st) (s16 (pass_save pass a))) nsa
    (cb_mismatch st || eq) (cb_dropped_mismatch st || eq && dropped).

Fixpoint pass_loop (pass : Z) (islarge : bool) (i : nat) (atts : list Form_pg_attribute) (dropped : list bool)
    (st : ColBind) : ColBind :=
  match atts, dropped with
  | a :: atts, dr :: dropped =>
      pass_loop pass islarge (S i) atts dropped (if in_pass pass islarge a then bind_col pass i a dr st else st)
  | _, _ => st
  end.

Definition create_col_bind (islarge : bool) (d : TupleDesc) (dropped : list bool) (col_align : Z)
    : MemTupleBindingCols :=
  let zeros := replicate (Z.to_nat (compute_null_save_entries (natts d))) 0 in
  let st := mkColBind (if tdhasoid d || (col_align =? 8) then 8 else 4) 0 None
              (replicate (length (attrs d)) junk) zeros zeros false false in
  let st := foldl (λ st pass, pass_loop pass islarge 0 (attrs d) dropped st) st [0; 1; 2; 3] in
  let '(bs, nsa, _) := bind_previous st (cb_bindings st) "c" in
  mkBindingCols (if negb (natts d =? 0) then cur_offset st else 8) bs
    (if cb_mismatch st then Some (cb_null_saves st) else None) nsa (cb_mismatch st) (cb_dropped_mismatch st).

Definition create_memtuple_binding (d : TupleDesc) (dropped : list bool) : MemTupleBinding :=
  let column_align :=
    if existsb (λ a, (0 <? attlen a) && Ascii.eqb (attalign a) "d") (attrs d) then 8 else 4 in
  mkMemTupleBinding d dropped column_align (compute_null_bitmap_extra_size d column_align)
    (create_col_bind false d dropped column_align) (create_col_bind true d dropped column_align).
End Binding.

(** ** The header *)

Definition MEMTUP_LEAD_BIT : Z := 0x80000000.
Definition MEMTUP_LEN_MASK : Z := 0x7FFFFFF8.
Definition MEMTUP_HASNULL : Z := 1.
Definition MEMTUP_LARGETUP : Z := 2.
Definition MEMTUP_HASEXTERNAL : Z := 4.
Definition MEMTUPLE_LEN_FITSHORT : Z := 0xFFF0.
Definition MEMTUP_ALIGN : Z → Z := TYPEALIGN 8.
Definition BPCHAROID : Z := 1042.

Definition mt_len (mtup : list Z) : Z := rd 4 0 mtup.
Definition mt_set_flag (flag : Z) (mtup : list Z) : list Z := wr 4 0 (Z.lor (mt_len mtup) flag) mtup.

Definition mt_clear_flag (flag : Z) (mtup : list Z) : list Z := wr 4 0 (Z.land (mt_len mtup) (Z.lnot flag)) mtup.

Definition is_len_memtuplen (len : Z) : bool := negb (Z.land len MEMTUP_LEAD_BIT =? 0).
Definition memtuple_lead_bit_set (tup : list Z) : bool := negb (Z.land (mt_len tup) MEMTUP_LEAD_BIT =? 0).
Definition memtuple_size_from_uint32 (len : Z) : Z := Z.land len MEMTUP_LEN_MASK.
Definition memtuple_get_size (mtup : list Z) : Z := Z.land (mt_len mtup) MEMTUP_LEN_MASK.
Definition memtuple_set_size (mtup : list Z) (len : Z) : list Z :=
  let w := Z.lor (mt_len mtup) MEMTUP_LEAD_BIT in wr 4 0 (Z.lor (Z.land w (Z.lnot MEMTUP_LEN_MASK)) len) mtup.
Definition memtuple_set_mtlen (mtup : list Z) (mtlen : Z) : list Z := wr 4 0 mtlen mtup.
Definition memtuple_get_hasnull (mtup : list Z) : bool := negb (Z.land (mt_len mtup) MEMTUP_HASNULL =? 0).
Definition memtuple_set_hasnull : list Z → list Z := mt_set_flag MEMTUP_HASNULL.
Definition memtuple_clear_hasnull : list Z → list Z := mt_clear_flag MEMTUP_HASNULL.
Definition memtuple_get_islarge (mtup : list Z) : bool := negb (Z.land (mt_len mtup) MEMTUP_LARGETUP =? 0).
Definition memtuple_set_islarge : list Z → list Z := mt_set_flag MEMTUP_LARGETUP.
Definition memtuple_clear_islarge : list Z → list Z := mt_clear_flag MEMTUP_LARGETUP.
Definition memtuple_get_hasext (mtup : list Z) : bool := negb (Z.land (mt_len mtup) MEMTUP_HASEXTERNAL =? 0).
Definition memtuple_set_hasext : list Z → list Z := mt_set_flag MEMTUP_HASEXTERNAL.
Definition memtuple_clear_hasext : list Z → list Z := mt_clear_flag MEMTUP_HASEXTERNAL.

Definition mtbind_has_oid (pbind : MemTupleBinding) : bool := tdhasoid (tupdesc pbind).
(** The offset of the null bitmap. *)
Definition memtuple_get_nullp (pbind : MemTupleBinding) : Z :=
  4 + (if mtbind_has_oid pbind then sizeof_Oid else 0).
Definition memtuple_get_nullp_len (pbind : MemTupleBinding) : Z := Z.shiftr (natts (tupdesc pbind) + 7) 3.

Definition MemTupleGetOid (mtup : list Z) (pbind : MemTupleBinding) : Z :=
  if negb (mtbind_has_oid pbind) then InvalidOid else rd 4 4 mtup.
Definition MemTupleSetOid (mtup : list Z) (oid : Z) : list Z := wr 4 4 oid mtup.

(** ** Sizes *)

Definition var_column (b : MemTupleAttrBinding) : bool :=
  match bind_flag b with MTB_ByRef | MTB_ByRef_CStr => true | _ => false end.

(** [*nullsaves] *)
Fixpoint null_length (binds : list MemTupleAttrBinding) (isnull : list bool) (aligned : bool) (nullsaves : Z) : Z :=
  match binds, isnull with
  | b :: binds, null :: isnull =>
      null_length binds isnull aligned
        (if null : bool then u32 (nullsaves + (if aligned then bind_len_aligned b else bind_len b)) else nullsaves)
  | _, _ => nullsaves
  end.

Fixpoint size_loop (atts : list Form_pg_attribute) (binds : list MemTupleAttrBinding) (values : list Datum)
    (isnull : list bool) (data_length : Z) : option Z :=
  match atts, binds, values, isnull with
  | a :: atts, b :: binds, v :: values, null :: isnull =>
      if (null : bool) || negb (var_column b) then size_loop atts binds values isnull data_length else
      s ← (match bind_flag b with
           | MTB_ByRef => p ← DatumGetPointer v; Some (value_type_could_short p (atttypid a))
           | _ => Some false
           end);
      if (s : bool) then
        p ← DatumGetPointer v;
        size_loop atts binds values isnull (u32 (data_length + (VARSIZE_ANY_EXHDR p + VARHDRSZ_SHORT)))
      else
        n ← att_addlength (u32 (att_align data_length (attalign a))) (attlen a) v;
        size_loop atts binds values isnull (u32 n)
  | _, _, _, _ => Some data_length
  end.

(** The size, and [*nullsaves]. *)
Definition compute_memtuple_size_using_bind (values : list Datum) (isnull : list bool) (hasnull : bool)
    (nullbit_extra : Z) (colbind : MemTupleBindingCols) (d : TupleDesc) (aligned : bool) : option (Z * Z) :=
  let nullsaves := if hasnull then null_length (bindings colbind) isnull aligned 0 else 0 in
  let data_length := u32 (var_start colbind + (if hasnull then nullbit_extra else 0) - nullsaves) in
  n ← size_loop (attrs d) (bindings colbind) values isnull data_length;
  Some (u32 (MEMTUP_ALIGN n), nullsaves).

Definition compute_memtuple_size (pbind : MemTupleBinding) (values : list Datum) (isnull : list bool)
    (hasnull aligned : bool) : option (Z * Z) :=
  let size colbind :=
    compute_memtuple_size_using_bind values isnull hasnull (null_bitmap_extra_size pbind) colbind
      (tupdesc pbind) aligned in
  '(ret_len, nullsaves) ← size (bind pbind);
  if ret_len <=? MEMTUPLE_LEN_FITSHORT then Some (ret_len, nullsaves) else size (large_bind pbind).

(** ** The place of an attribute *)

Definition compute_null_save_b (null_saves : list Z) (b : Z) : option Z :=
  low ← null_saves !! Z.to_nat (Z.land b 0xF);
  high ← null_saves !! Z.to_nat (16 + Z.shiftr b 4);
  Some (s16 (low + high)).

Fixpoint null_save_loop (nbyte : nat) (null_saves nullbitmaps : list Z) (nbit ret : Z) : option Z :=
  b ← head nullbitmaps;
  match nbyte with
  | O => s ← compute_null_save_b null_saves (Z.land b (nbit - 1)); Some (s16 (ret + s))
  | S nbyte =>
      s ← compute_null_save_b null_saves b;
      null_save_loop nbyte (drop 32 null_saves) (tail nullbitmaps) nbit (s16 (ret + s))
  end.

Definition compute_null_save (null_saves nullbitmaps : list Z) (nbyte nbit : Z) : option Z :=
  null_save_loop (Z.to_nat nbyte) null_saves nullbitmaps nbit 0.

(** [saves] may be NULL, and [nullp], the bytes from the null bitmap on, is when
    there are no nulls. *)
Definition memtuple_get_attr_ptr (start : Z) (b : MemTupleAttrBinding) (saves nullp : option (list Z)) : option Z :=
  ns ← (match nullp with
        | Some bits => saves ← saves; compute_null_save saves bits (null_byte b) (null_mask b)
        | None => Some 0
        end);
  Some (start + bind_offset b - ns).

Definition load_uint (n : Z) (mtup : list Z) (off : Z) : option Z :=
  if (0 <=? off) && (off + n <=? blen mtup) then Some (rd n off mtup) else None.

Definition memtuple_get_attr_data_ptr (mtup : list Z) (start : Z) (b : MemTupleAttrBinding)
    (saves nullp : option (list Z)) : option Z :=
  ptr ← memtuple_get_attr_ptr start b saves nullp;
  if negb (var_column b) then Some ptr
  else off ← load_uint (if bind_len b =? 2 then 2 else 4) mtup ptr; Some (start + off).

Definition get_saves (colbind : MemTupleBindingCols) (aligned : bool) : option (list Z) :=
  if aligned then Some (null_saves_aligned colbind) else null_saves colbind.

(** ** Forming a memtuple *)

Section Form.
Context {R : Type} `{!ToastAM R}.
Context (execute : bool) (flatten : list Z → Z → Z → res (list Z)) (palloc : Z → list Z).

(** The first loop for one attribute that is not null: its value, and whether
    it is stored externally. *)
Definition prepare_attr (a : Form_pg_attribute) (v : Datum) (inline_toast : bool) : M R (Datum * bool) :=
  let^ v :=
    (if may_be_composite a v then
       let^ p := mlift (lift_opt (DatumGetPointer v)) in
       let^ p := mlift (flatten p (atttypid a) (atttypmod a)) in mret (ByRef p)
     else mret v) in
  if attlen a =? -1 then
    let^ p := mlift (lift_opt (DatumGetPointer v)) in
    if VARATT_IS_EXTERNAL p then
      if inline_toast then let^ p := heap_tuple_fetch_attr execute palloc p in mret (ByRef p, false)
      else mret (v, true)
    else mret (v, false)
  else mret (v, false).

(** The values, [isnull], [hasnull] and [hasext]. *)
Fixpoint prepare_loop (atts : list Form_pg_attribute) (dropped : list bool) (values : list Datum)
    (isnull : list bool) (inline_toast : bool) : M R (list Datum * list bool * bool * bool) :=
  match atts, dropped, values, isnull with
  | a :: atts, dr :: dropped, v :: values, null :: isnull =>
      if (null : bool) || dr then
        let^ (vs, ns, _, hasext) := prepare_loop atts dropped values isnull inline_toast in
        mret (v :: vs, true :: ns, true, hasext)
      else
        let^ (v, ext) := prepare_attr a v inline_toast in
        let^ (vs, ns, hasnull, hasext) := prepare_loop atts dropped values isnull inline_toast in
        mret (v :: vs, false :: ns, hasnull, ext || hasext)
  | [], _, _, _ => mret ([], [], false, false)
  | _, _, _, _ => λ _, None
  end.

(** [nullp[bind->null_byte] |= bind->null_mask] for the nulls *)
Fixpoint set_null_bits (binds : list MemTupleAttrBinding) (isnull : list bool) (nullp : Z) (mtup : list Z)
    : option (list Z) :=
  match binds, isnull with
  | b :: binds, null :: isnull =>
      mtup ← (if null : bool then
                x ← mtup !! Z.to_nat (nullp + null_byte b);
                Some (<[Z.to_nat (nullp + null_byte b) := Z.lor x (null_mask b)]> mtup)
              else Some mtup);
      set_null_bits binds isnull nullp mtup
  | _, _ => Some mtup
  end.

(** Storing [n] bytes of [p] at [pos]. *)
Definition copy_bytes (mtup : list Z) (pos : Z) (p : list Z) (n : Z) : option (list Z) :=
  src ← read_bytes p n; write_bytes mtup pos src.

(** A value with a header of four bytes, stored with a header of one byte. *)
Definition copy_short (mtup : list Z) (pos : Z) (p : list Z) : option (list Z) :=
  let attr_len := VARSIZE p - VARHDRSZ + VARHDRSZ_SHORT in
  mtup ← write_bytes mtup pos [VARSIZE_TO_SHORT p];
  copy_bytes mtup (pos + 1) (VARDATA p) (attr_len - 1).

(** [varlen_start] is relative to the memtuple; the result is the memtuple, the
    place of the value and its length. *)
Definition store_varlena (a : Form_pg_attribute) (p : list Z) (mtup : list Z) (varlen_start : Z)
    : option (list Z * Z * Z) :=
  if VARATT_IS_EXTERNAL p then
    let varlen_start := att_align varlen_start (attalign a) in
    mtup ← copy_bytes mtup varlen_start p (VARSIZE_EXTERNAL p); Some (mtup, varlen_start, VARSIZE_EXTERNAL p)
  else if VARATT_IS_SHORT p then
    mtup ← copy_bytes mtup varlen_start p (VARSIZE_SHORT p); Some (mtup, varlen_start, VARSIZE_SHORT p)
  else if value_type_could_short p (atttypid a) then
    mtup ← copy_short mtup varlen_start p; Some (mtup, varlen_start, VARSIZE p - VARHDRSZ + VARHDRSZ_SHORT)
  else
    let varlen_start := att_align varlen_start (attalign a) in
    mtup ← copy_bytes mtup varlen_start p (VARSIZE p); Some (mtup, varlen_start, VARSIZE p).

Definition store_cstring (a : Form_pg_attribute) (p : list Z) (mtup : list Z) (varlen_start : Z)
    : option (list Z * Z * Z) :=
  let varlen_start := att_align varlen_start (attalign a) in
  n ← strlen p;
  mtup ← copy_bytes mtup varlen_start p (n + 1); Some (mtup, varlen_start, n + 1).

(** The offset of a value, of two or four bytes. *)
Definition store_offset (b : MemTupleAttrBinding) (mtup : list Z) (ptr off : Z) : option (list Z) :=
  write_bytes mtup ptr (if bind_len b =? 2 then Z_to_little_endian 2 8 (u16 off) else Z_to_little_endian 4 8 (u32 off)).

(** The last loop for one attribute that is not null. *)
Definition store_attr (a : Form_pg_attribute) (b : MemTupleAttrBinding) (v : Datum) (start : Z)
    (saves : option (list Z)) (nullp : option Z) (mtup : list Z) (varlen_start : Z) : res (list Z * Z) :=
  let get_ptr mtup := memtuple_get_attr_ptr start b saves ((λ o, drop (Z.to_nat o) mtup) <$> nullp) in
  match bind_flag b with
  | MTB_ByVal_Native =>
      match v with
      | ByVal z =>
          let+ ptr := lift_opt (get_ptr mtup) in
          let+ mtup := store_att_byval mtup ptr z (bind_len b) in ok (mtup, varlen_start)
      | ByRef _ => None
      end
  | MTB_ByVal_Ptr =>
      let+ p := lift_opt (DatumGetPointer v) in
      let+ ptr := lift_opt (get_ptr mtup) in
      let+ mtup :=
        lift_opt (if negb (atttypid a =? BPCHAROID) then copy_bytes mtup ptr p (bind_len b)
                  else if VARATT_IS_SHORT p then copy_bytes mtup ptr p (VARSIZE_SHORT p)
                  else copy_short mtup ptr p) in
      ok (mtup, varlen_start)
  | _ =>
      let+ p := lift_opt (DatumGetPointer v) in
      let+ (mtup, varlen_start, attr_len) :=
        lift_opt (match bind_flag b with
                  | MTB_ByRef => store_varlena a p mtup varlen_start
                  | _ => store_cstring a p mtup varlen_start
                  end) in
      let+ ptr := lift_opt (get_ptr mtup) in
      let+ mtup := lift_opt (store_offset b mtup ptr (varlen_start - start)) in
      ok (mtup, varlen_start + attr_len)
  end.

Fixpoint store_loop (atts : list Form_pg_attribute) (binds : list MemTupleAttrBinding) (values : list Datum)
    (isnull : list bool) (start : Z) (saves : option (list Z)) (nullp : option Z) (mtup : list Z)
    (varlen_start : Z) : res (list Z * Z) :=
  match atts, binds, values, isnull with
  | a :: atts, b :: binds, v :: values, null :: isnull =>
      let+ (mtup, varlen_start) :=
        (if null : bool then ok (mtup, varlen_start)
         else store_attr a b v start saves nullp mtup varlen_start) in
      store_loop atts binds values isnull start saves nullp mtup varlen_start
  | _, _, _, _ => ok (mtup, varlen_start)
  end.

(** From the header on, in a buffer of at least [len] bytes. *)
Definition fill_memtuple (pbind : MemTupleBinding) (values : list Datum) (isnull : list bool)
    (hasnull hasext aligned : bool) (len null_save_len : Z) (mtup : list Z) : res (list Z) :=
  let colbind := if len <=? MEMTUPLE_LEN_FITSHORT then bind pbind else large_bind pbind in
  let mtup := memtuple_set_mtlen mtup (Z.lor len MEMTUP_LEAD_BIT) in
  let mtup := if MEMTUPLE_LEN_FITSHORT <? len then memtuple_set_islarge mtup else mtup in
  let mtup := if hasext then memtuple_set_hasext mtup else mtup in
  let mtup := if mtbind_has_oid pbind then MemTupleSetOid mtup InvalidOid else mtup in
  let nullp := memtuple_get_nullp pbind in
  let start := if hasnull then null_bitmap_extra_size pbind else 0 in
  let varlen_start := var_start colbind - null_save_len + start in
  let+ mtup :=
    lift_opt (if hasnull
              then write_bytes (memtuple_set_hasnull mtup) nullp
                     (replicate (Z.to_nat (memtuple_get_nullp_len pbind)) 0)
              else Some mtup) in
  let+ mtup := lift_opt (set_null_bits (bindings colbind) isnull nullp mtup) in
  let+ (mtup, _) :=
    store_loop (attrs (tupdesc pbind)) (bindings colbind) values isnull start (get_saves colbind aligned)
      (if hasnull then Some nullp else None) mtup varlen_start in
  ok mtup.

(** [dest]: the caller's memory of [*destlen] bytes, or new memory is used.  The
    result is the memtuple, or NULL when the memory is too small, with the new
    [*destlen], and [isnull], in which dropped attributes have been set.  The
    values are as before. *)
Definition memtuple_form_to_align (pbind : MemTupleBinding) (values : list Datum) (isnull : list bool)
    (dest : option (list Z)) (inline_toast aligned : bool) : M R (option (list Z) * option Z * list bool) :=
  let^ (values, isnull, hasnull, hasext) :=
    prepare_loop (attrs (tupdesc pbind)) (attisdropped pbind) values isnull inline_toast in
  let^ (len, null_save_len) := mlift (lift_opt (compute_memtuple_size pbind values isnull hasnull aligned)) in
  match dest with
  | None =>
      let^ mtup := mlift (alloc palloc len) in
      let^ mtup := mlift (fill_memtuple pbind values isnull hasnull hasext aligned len null_save_len mtup) in
      mret (Some mtup, None, isnull)
  | Some mtup =>
      if blen mtup <? len then mret (None, Some len, isnull) else
      let^ mtup := mlift (fill_memtuple pbind values isnull hasnull hasext aligned len null_save_len mtup) in
      mret (Some mtup, Some len, isnull)
  end.

Definition memtuple_form_to (pbind : MemTupleBinding) (values : list Datum) (isnull : list bool)
    (dest : option (list Z)) (inline_toast : bool) : M R (option (list Z) * option Z * list bool) :=
  memtuple_form_to_align pbind values isnull dest inline_toast true.

(** ** Reading a memtuple *)

Definition get_colbind (mtup : list Z) (pbind : MemTupleBinding) : MemTupleBindingCols :=
  if memtuple_get_islarge mtup then large_bind pbind else bind pbind.

Definition memtuple_attisnull (mtup : list Z) (pbind : MemTupleBinding) (attnum : Z) : option bool :=
  if natts (tupdesc pbind) <? attnum then Some true
  else if negb (memtuple_get_hasnull mtup) then Some false
  else
    b ← bindings (get_colbind mtup pbind) !! Z.to_nat (attnum - 1);
    x ← mtup !! Z.to_nat (4 + null_byte b);
    Some (negb (Z.land x (null_mask b) =? 0)).

(** The value, and [*isnull]. *)
Definition memtuple_getattr_by_alignment (mtup : list Z) (pbind : MemTupleBinding) (attnum : Z) (aligned : bool)
    : option (Datum * bool) :=
  let hasnull := memtuple_get_hasnull mtup in
  let nullp := drop (Z.to_nat (memtuple_get_nullp pbind)) mtup in
  let start := if hasnull then null_bitmap_extra_size pbind else 0 in
  let colbind := get_colbind mtup pbind in
  b ← bindings colbind !! Z.to_nat (attnum - 1);
  a ← attrs (tupdesc pbind) !! Z.to_nat (attnum - 1);
  null ← (if hasnull then x ← nullp !! Z.to_nat (null_byte b); Some (negb (Z.land x (null_mask b) =? 0))
          else Some false);
  if (null : bool) then Some (ByVal 0, true) else
  ptr ← memtuple_get_attr_data_ptr mtup start b (get_saves colbind aligned) (if hasnull then Some nullp else None);
  v ← fetchatt a mtup ptr;
  Some (v, false).

Definition memtuple_getattr (mtup : list Z) (pbind : MemTupleBinding) (attnum : Z) : option (Datum * bool) :=
  memtuple_getattr_by_alignment mtup pbind attnum true.

Definition memtuple_get_values (mtup : list Z) (pbind : MemTupleBinding) (aligned : bool)
    : option (list Datum * list bool) :=
  l ← mapM (λ attnum, memtuple_getattr_by_alignment mtup pbind attnum aligned) (seqZ 1 (natts (tupdesc pbind)));
  Some (l.*1, l.*2).

Definition memtuple_deform (mtup : list Z) (pbind : MemTupleBinding) : option (list Datum * list bool) :=
  memtuple_get_values mtup pbind true.

(** With [dest] as for forming. *)
Definition memtuple_copy_to (mtup : list Z) (dest : option (list Z)) : res (option (list Z) * option Z) :=
  let len := memtuple_get_size mtup in
  match dest with
  | None => let+ m := alloc palloc len in let+ m := lift_opt (copy_bytes m 0 mtup len) in ok (Some m, None)
  | Some m =>
      if blen m <? len then ok (None, Some len)
      else let+ m := lift_opt (copy_bytes m 0 mtup len) in ok (Some m, Some len)
  end.

Fixpoint has_external_loop (mtup : list Z) (pbind : MemTupleBinding) (binds : list MemTupleAttrBinding) (attnum : Z)
    : option bool :=
  match binds with
  | [] => Some false
  | b :: binds =>
      ext ← (match bind_flag b with
             | MTB_ByRef =>
                 '(v, null) ← memtuple_getattr mtup pbind attnum;
                 if null : bool then Some false else p ← DatumGetPointer v; Some (VARATT_IS_EXTERNAL p)
             | _ => Some false
             end);
      if (ext : bool) then Some true else has_external_loop mtup pbind binds (attnum + 1)
  end.

Definition MemTupleHasExternal (mtup : list Z) (pbind : MemTupleBinding) : option bool :=
  has_external_loop mtup pbind (bindings (get_colbind mtup pbind)) 1.

(** ** Tuples stored before the lengths were aligned *)

Fixpoint misaligned_loop (nullp : list Z) (binds : list MemTupleAttrBinding) : option bool :=
  match binds with
  | [] => Some false
  | b :: binds =>
      mis ← (if negb (bind_len b =? bind_len_aligned b)
             then x ← nullp !! Z.to_nat (null_byte b); Some (negb (Z.land x (null_mask b) =? 0))
             else Some false);
      if (mis : bool) then Some true else misaligned_loop nullp binds
  end.

Definition memtuple_has_misaligned_attribute (mtup : list Z) (pbind : MemTupleBinding) : option bool :=
  if negb (has_null_saves_alignment_mismatch (bind pbind)) then Some false
  else if has_dropped_attr_alignment_mismatch (bind pbind) then Some true
  else if negb (memtuple_get_hasnull mtup) then Some false
  else misaligned_loop (drop (Z.to_nat (memtuple_get_nullp pbind)) mtup) (bindings (bind pbind)).

Definition memtuple_aligned_clone (mtup : list Z) (pbind : MemTupleBinding) (aligned : bool)
    : M R (option (list Z)) :=
  let^ (values, isnull) := mlift (lift_opt (memtuple_get_values mtup pbind (negb aligned))) in
  let^ (r, _, _) := memtuple_form_to_align pbind values isnull None false aligned in
  mret r.
End Form.
