(* ===== verification/MemTupleBind.v ===== *)
(** The binding of a memtuple: the physical order of the columns, their
    offsets, and the tables of the space saved by nulls. *)
From Stdlib Require Import Ascii.
From stdpp Require Import prelude numbers list sorting.
From S2P Require Import Prelude Varlena HeapTuple HeapTupleForm MemTuple.

Local Open Scope Z_scope.

(** ** Sums *)

Fixpoint sumf (f : nat → Z) (n : nat) : Z :=
  match n with O => 0 | S n => sumf f n + f n end.

Lemma sumf_ext f g n : (∀ i, (i < n)%nat → f i = g i) → sumf f n = sumf g n.
Proof. induction n as [|n IH]; intros H; [done|]. cbn. rewrite H by lia. rewrite IH; [done|]. intros. apply H. lia. Qed.

Lemma sumf_add f g n : sumf (λ i, f i + g i) n = sumf f n + sumf g n.
Proof. induction n as [|n IH]; cbn; lia. Qed.

Lemma sumf_le f g n : (∀ i, (i < n)%nat → f i ≤ g i) → sumf f n ≤ sumf g n.
Proof.
  induction n as [|n IH]; intros H; [done|]. cbn. pose proof (H n ltac:(lia)).
  assert (sumf f n ≤ sumf g n) by (apply IH; intros; apply H; lia). lia.
Qed.

Lemma sumf_zero n : sumf (λ _, 0) n = 0.
Proof. induction n as [|n IH]; cbn; lia. Qed.

Lemma sumf_nonneg f n : (∀ i, (i < n)%nat → 0 ≤ f i) → 0 ≤ sumf f n.
Proof. intros H. rewrite <- (sumf_zero n). by apply sumf_le. Qed.

Lemma sumf_mono f m n : (∀ i, (i < n)%nat → 0 ≤ f i) → (m ≤ n)%nat → sumf f m ≤ sumf f n.
Proof.
  intros H. induction n as [|n IH]; intros Hm; [by replace m with 0%nat by lia|].
  destruct (decide (m = S n)) as [->|]; [done|]. cbn. pose proof (H n ltac:(lia)).
  assert (sumf f m ≤ sumf f n) by (apply IH; [intros; apply H; lia|lia]). lia.
Qed.

(** A sum of which only the terms below [m] count. *)
Lemma sumf_below f m n : (m ≤ n)%nat → sumf (λ i, if bool_decide (i < m)%nat then f i else 0) n = sumf f m.
Proof.
  intros Hm. induction n as [|n IH]; [by replace m with 0%nat by lia|]. cbn. destruct (decide (m = S n)) as [->|].
  - cbn. rewrite bool_decide_true by lia. f_equal. apply sumf_ext. intros. by rewrite bool_decide_true by lia.
  - rewrite bool_decide_false by lia. rewrite IH by lia. lia.
Qed.

(** ** The physical order *)

Definition align_chars : list ascii := ["c"; "s"; "i"; "d"]%char.

Record att_valid (a : Form_pg_attribute) : Prop := {
  av_len : 0 < attlen a ∨ attlen a = -1 ∨ attlen a = -2;
  av_align : attalign a ∈ align_chars
}.

(** The pass that binds an attribute. *)
Definition bind_pass (islarge : bool) (a : Form_pg_attribute) : Z :=
  if attlen a <? 0 then if islarge then 1 else 2
  else if Ascii.eqb (attalign a) "d"%char then 0 else if Ascii.eqb (attalign a) "i"%char then 1
  else if Ascii.eqb (attalign a) "s"%char then 2 else 3.

Lemma bind_pass_range islarge a : 0 ≤ bind_pass islarge a ≤ 3.
Proof. unfold bind_pass. repeat case_match; lia. Qed.

Lemma in_pass_eq pass islarge a :
  att_valid a → pass ∈ [0; 1; 2; 3] → in_pass pass islarge a = (bind_pass islarge a =? pass).
Proof.
  intros [Hl Ha] Hp. unfold in_pass, bind_pass, att_bind_as_varoffset.
  assert (Hc : attalign a = "c"%char ∨ attalign a = "s"%char ∨ attalign a = "i"%char ∨ attalign a = "d"%char).
  { unfold align_chars in Ha. set_unfold in Ha. tauto. }
  set_unfold in Hp. destruct (Z.ltb_spec (attlen a) 0), (Z.ltb_spec 0 (attlen a)); try lia;
    destruct Hp as [->|[->|[->|[->|[]]]]]; destruct islarge; cbn; try done;
    destruct Hc as [->|[->|[->| ->]]]; done.
Qed.

(** The number of an attribute, the attribute, and whether it is dropped. *)
Abbreviation column := (nat * (Form_pg_attribute * bool))%type.

Fixpoint select (islarge : bool) (pass : Z) (i : nat) (atts : list Form_pg_attribute) (dropped : list bool)
    : list column :=
  match atts, dropped with
  | a :: atts, dr :: dropped =>
      (if bind_pass islarge a =? pass then [(i, (a, dr))] else []) ++ select islarge pass (S i) atts dropped
  | _, _ => []
  end.

Definition physical (islarge : bool) (atts : list Form_pg_attribute) (dropped : list bool) : list column :=
  flat_map (λ pass, select islarge pass 0 atts dropped) [0; 1; 2; 3].

Definition bind_step (junk : MemTupleAttrBinding) (islarge : bool) (st : ColBind) (c : column) : ColBind :=
  bind_col junk (bind_pass islarge c.2.1) c.1 c.2.1 c.2.2 st.

Lemma pass_loop_select junk pass islarge atts dropped : Forall att_valid atts → pass ∈ [0; 1; 2; 3] → ∀ i st,
  pass_loop junk pass islarge i atts dropped st =
    foldl (bind_step junk islarge) st (select islarge pass i atts dropped).
Proof.
  intros Hv Hp. revert dropped. induction Hv as [|a atts Ha _ IH]; intros [|dr dropped] i st; try done.
  cbn [pass_loop select]. rewrite in_pass_eq, IH, foldl_app by done.
  destruct (Z.eqb_spec (bind_pass islarge a) pass) as [<-|]; done.
Qed.

Lemma passes_physical junk islarge atts dropped st : Forall att_valid atts →
  foldl (λ st pass, pass_loop junk pass islarge 0 atts dropped st) st [0; 1; 2; 3] =
    foldl (bind_step junk islarge) st (physical islarge atts dropped).
Proof.
  intros Hv. unfold physical. cbn [flat_map foldl]. rewrite app_nil_r, !foldl_app.
  by rewrite !pass_loop_select by (done || set_solver).
Qed.

(** Every attribute is bound once. *)
Lemma select_spec islarge pass atts dropped : length dropped = length atts → ∀ i j a dr,
  (j, (a, dr)) ∈ select islarge pass i atts dropped ↔
  (i ≤ j)%nat ∧ atts !! (j - i)%nat = Some a ∧ dropped !! (j - i)%nat = Some dr ∧ bind_pass islarge a = pass.
Proof.
  revert dropped. induction atts as [|a0 atts IH]; intros [|dr0 dropped] Hl i j a dr; try done; cbn [select].
  - split; [set_solver|]. intros (_ & ? & _). done.
  - rewrite elem_of_app, (IH dropped) by (cbn in Hl; lia). destruct (decide (j = i)) as [->|Hne].
    + rewrite Nat.sub_diag. cbn [lookup list_lookup].
      destruct (Z.eqb_spec (bind_pass islarge a0) pass); split.
      * intros [Hin|[? _]]; [|lia]. apply list_elem_of_singleton in Hin. naive_solver.
      * intros (_ & [= ->] & [= ->] & _). left. by apply list_elem_of_singleton.
      * intros [Hin|[? _]]; [set_solver|lia].
      * intros (_ & [= ->] & _ & ?). done.
    + destruct (decide (i < j)%nat) as [Hlt|Hge].
      * replace (j - i)%nat with (S (j - S i)) by lia. cbn [lookup list_lookup].
        destruct (_ =? _); set_unfold; naive_solver lia.
      * split; [|lia]. intros [Hin|[? _]]; [|lia]. destruct (_ =? _); set_unfold in Hin; naive_solver.
Qed.

Lemma physical_spec islarge atts dropped j a dr : length dropped = length atts →
  (j, (a, dr)) ∈ physical islarge atts dropped ↔ atts !! j = Some a ∧ dropped !! j = Some dr.
Proof.
  intros Hl. unfold physical. rewrite list_elem_of_In, in_flat_map.
  setoid_rewrite <- list_elem_of_In. setoid_rewrite select_spec; [|done].
  setoid_rewrite Nat.sub_0_r. pose proof (bind_pass_range islarge a). split; [naive_solver|].
  intros [Ha Hd]. exists (bind_pass islarge a). split; [|naive_solver lia].
  set_unfold. lia.
Qed.

Lemma select_pass islarge pass atts dropped i c : c ∈ select islarge pass i atts dropped →
  bind_pass islarge c.2.1 = pass ∧ (i ≤ c.1)%nat.
Proof.
  revert dropped i. induction atts as [|a0 atts IH]; intros [|dr0 dropped] i; cbn [select]; try set_solver.
  rewrite elem_of_app. intros [Hin|Hin].
  - destruct (Z.eqb_spec (bind_pass islarge a0) pass); [|set_solver]. apply list_elem_of_singleton in Hin as ->. done.
  - apply IH in Hin as [? ?]. split; [done|lia].
Qed.

Lemma select_NoDup islarge pass atts dropped i : NoDup (fst <$> select islarge pass i atts dropped).
Proof.
  revert dropped i. induction atts as [|a0 atts IH]; intros [|dr0 dropped] i; cbn [select]; try constructor.
  destruct (_ =? _); [|apply IH]. cbn [app fmap list_fmap fst]. constructor; [|apply IH].
  intros (c & -> & Hc)%list_elem_of_fmap. apply select_pass in Hc. lia.
Qed.

Lemma physical_NoDup islarge atts dropped : length dropped = length atts → NoDup (fst <$> physical islarge atts dropped).
Proof.
  intros Hl. unfold physical. cbn [flat_map]. rewrite app_nil_r, !fmap_app.
  assert (Hd : ∀ p q x, p ≠ q → x ∈ fst <$> select islarge p 0 atts dropped → x ∉ fst <$> select islarge q 0 atts dropped).
  { intros p q x Hpq ([j [a dr]] & -> & H1)%list_elem_of_fmap ([j' [a' dr']] & Ej & H2)%list_elem_of_fmap.
    cbn in Ej. subst j'. apply select_spec in H1 as (_ & ? & _ & ?); [|done]. apply select_spec in H2 as (_ & ? & _ & ?); [|done].
    congruence. }
  rewrite !NoDup_app. split_and!; try apply select_NoDup; intros x Hx; rewrite ?elem_of_app;
    intros Hy; destruct_or?; (eapply (Hd _ _ x); [|exact Hx|eassumption]; lia).
Qed.

Lemma physical_index_perm islarge atts dropped :
  length dropped = length atts → fst <$> physical islarge atts dropped ≡ₚ seq 0 (length atts).
Proof.
  intros Hl. apply NoDup_Permutation; [by apply physical_NoDup|apply NoDup_ListNoDup, seq_NoDup|].
  intros j. rewrite elem_of_seq, list_elem_of_fmap. split.
  - intros ([j' [a dr]] & -> & Hin). apply physical_spec in Hin as [Ha _]; [|done]. apply lookup_lt_Some in Ha. cbn. lia.
  - intros Hj. destruct (lookup_lt_is_Some_2 atts j) as [a Ha]; [lia|].
    destruct (lookup_lt_is_Some_2 dropped j) as [dr Hdr]; [lia|].
    exists (j, (a, dr)). split; [done|]. by apply physical_spec.
Qed.

Lemma physical_length islarge atts dropped :
  length dropped = length atts → length (physical islarge atts dropped) = length atts.
Proof.
  intros Hl. pose proof (Permutation_length (physical_index_perm islarge atts dropped Hl)) as E.
  by rewrite length_fmap, length_seq in E.
Qed.

(** The order of the columns: by pass, and by number in a pass. *)
Definition col_before (islarge : bool) (c c' : column) : Prop :=
  bind_pass islarge c.2.1 < bind_pass islarge c'.2.1 ∨ bind_pass islarge c.2.1 = bind_pass islarge c'.2.1 ∧ (c.1 < c'.1)%nat.

Lemma select_sorted islarge pass atts dropped i : StronglySorted (col_before islarge) (select islarge pass i atts dropped).
Proof.
  revert dropped i. induction atts as [|a0 atts IH]; intros [|dr0 dropped] i; cbn [select]; try constructor.
  destruct (Z.eqb_spec (bind_pass islarge a0) pass) as [E|]; [|apply IH]. cbn [app]. constructor; [apply IH|].
  apply Forall_forall. intros c [Hc Hi]%select_pass. right. cbn. split; [congruence|lia].
Qed.

Lemma physical_sorted islarge atts dropped : StronglySorted (col_before islarge) (physical islarge atts dropped).
Proof.
  unfold physical. cbn [flat_map]. rewrite app_nil_r.
  repeat apply StronglySorted_app_2; try apply select_sorted; intros c c' Hc; rewrite ?elem_of_app; intros Hc'; destruct_or?;
    left; rewrite (proj1 (select_pass _ _ _ _ _ _ Hc)), (proj1 (select_pass _ _ _ _ _ _ Hc')); done.
Qed.

Lemma sorted_lookup {A} (Rel : relation A) (l : list A) i j x y :
  StronglySorted Rel l → (i < j)%nat → l !! i = Some x → l !! j = Some y → Rel x y.
Proof.
  intros Hs Hij Hx Hy. rewrite <- (take_drop j l) in Hs.
  eapply StronglySorted_app_1_elem_of; [exact Hs| |].
  - apply (list_elem_of_lookup_2 _ i). by rewrite lookup_take_lt.
  - apply (list_elem_of_lookup_2 _ 0). by rewrite lookup_drop, Nat.add_0_r.
Qed.

Lemma sorted_weaken {A} (R1 R2 : relation A) (l : list A) :
  (∀ x y, R1 x y → R2 x y) → StronglySorted R1 l → StronglySorted R2 l.
Proof.
  intros H Hs. induction Hs as [|x l _ IH Hf]; [apply SSorted_nil|]. apply SSorted_cons; [done|].
  eapply Forall_impl; [exact Hf|]. apply H.
Qed.

(** ** Alignment *)

Lemma align_of_pass p : 0 ≤ p ≤ 3 → align_of (pass_align p) = 2 ^ (3 - p).
Proof.
  intros Hp. assert (Hc : p = 0 ∨ p = 1 ∨ p = 2 ∨ p = 3) by lia. by destruct Hc as [->|[->|[->| ->]]].
Qed.

Lemma align_of_divide p q : 0 ≤ p → p ≤ q → q ≤ 3 → (align_of (pass_align q) | align_of (pass_align p)).
Proof.
  intros Hp Hpq Hq. rewrite !align_of_pass by lia. exists (2 ^ (q - p)). rewrite <- Z.pow_add_r by lia. f_equal. lia.
Qed.

Lemma att_align_divide w al : (align_of al | att_align w al).
Proof. rewrite att_align_eq. apply Z.divide_factor_r. Qed.

Lemma att_align_add o w al : (align_of al | o) → att_align (o + w) al = o + att_align w al.
Proof.
  intros [k ->]. pose proof (align_of_range al). rewrite !att_align_eq.
  replace (k * align_of al + w + (align_of al - 1)) with ((w + (align_of al - 1)) + k * align_of al) by lia.
  rewrite Z.div_add by lia. lia.
Qed.

Lemma att_align_c w : att_align w "c"%char = w.
Proof. done. Qed.

(** ** The entries of the tables *)

Lemma s16_id z : - 2 ^ 15 ≤ z < 2 ^ 15 → s16 z = z.
Proof. intros H. unfold s16. rewrite Z.mod_small; lia. Qed.

Lemma foldl_alter (f : Z → Z) (P : Z → bool) base (js : list Z) : NoDup js → (∀ j, j ∈ js → 0 ≤ j) → 0 ≤ base →
  ∀ (l : list Z) (K : nat),
  foldl (λ l j, if P j then alter f (Z.to_nat (base + j)) l else l) l js !! K =
    (λ x, if bool_decide (Z.of_nat K - base ∈ js) && P (Z.of_nat K - base) then f x else x) <$> l !! K.
Proof.
  intros Hnd Hpos Hb. induction Hnd as [|j js Hn _ IH]; intros l K; cbn [foldl].
  { destruct (l !! K); done. }
  rewrite IH by (intros; apply Hpos; set_solver). pose proof (Hpos j ltac:(set_solver)).
  assert (El : (if P j then alter f (Z.to_nat (base + j)) l else l) !! K =
    (if bool_decide (Z.of_nat K - base = j) && P j then f else id) <$> l !! K).
  { destruct (P j) eqn:EP; rewrite ?andb_false_r, ?andb_true_r; [|by destruct (l !! K)].
    case_bool_decide as E.
    - replace (Z.to_nat (base + j)) with K by lia. apply list_lookup_alter_eq.
    - rewrite list_lookup_alter_ne by lia. by destruct (l !! K). }
  rewrite El. destruct (l !! K) as [x|]; [|done]. cbn [fmap option_fmap option_map]. f_equal.
  destruct (decide (Z.of_nat K - base = j)) as [<-|Hne].
  - rewrite (bool_decide_true (_ = _)) by done. rewrite (bool_decide_false (_ ∈ js)) by done.
    rewrite (bool_decide_true (_ ∈ _ :: _)) by set_solver. cbn [andb]. by destruct (P _).
  - rewrite (bool_decide_false (_ = _)) by done. cbn [andb id].
    by rewrite (bool_decide_ext (Z.of_nat K - base ∈ js) (Z.of_nat K - base ∈ j :: js)) by set_solver.
Qed.

(** Column [q] counts in entry [K]. *)
Definition in_entry (q K : nat) : bool :=
  (Z.of_nat q `div` 4 =? Z.of_nat K `div` 16) && Z.testbit (Z.of_nat K `mod` 16) (Z.of_nat q `mod` 4).

Lemma land_pow2_bit x k : 0 ≤ k → negb (Z.land x (2 ^ k) =? 0) = Z.testbit x k.
Proof.
  intros Hk. destruct (Z.eqb_spec (Z.land x (2 ^ k)) 0) as [E|E]; cbn [negb].
  - apply (f_equal (λ z, Z.testbit z k)) in E. rewrite Z.land_spec, Z.pow2_bits_true, Z.bits_0, andb_true_r in E by done. done.
  - destruct (Z.testbit x k) eqn:Eb; [done|]. exfalso. apply E. apply Z.bits_inj'. intros i Hi.
    rewrite Z.land_spec, Z.bits_0, Z.pow2_bits_eqb by done. destruct (Z.eqb_spec k i) as [<-|]; [by rewrite Eb|by rewrite andb_false_r].
Qed.

Lemma add_null_save_lookup (ns : list Z) (i K : nat) sz :
  add_null_save ns (Z.of_nat i) sz !! K = (λ x, if in_entry i K then s16 (x + sz) else x) <$> ns !! K.
Proof.
  unfold add_null_save. rewrite Z.quot_div_nonneg, Z.rem_mod_nonneg by lia.
  rewrite foldl_alter; [|apply NoDup_seqZ|intros j; rewrite elem_of_seqZ; lia|divlia].
  destruct (ns !! K) as [x|]; [|done]. cbn [fmap option_fmap option_map]. f_equal.
  rewrite Z.shiftl_mul_pow2, Z.mul_1_l by divlia.
  rewrite land_pow2_bit by divlia. unfold in_entry.
  destruct (Z.eqb_spec (Z.of_nat i `div` 4) (Z.of_nat K `div` 16)) as [E|E]; cbn [andb].
  - rewrite bool_decide_true by (rewrite elem_of_seqZ; divlia). cbn [andb].
    by replace (Z.of_nat K - Z.of_nat i `div` 4 * 16) with (Z.of_nat K `mod` 16) by divlia.
  - rewrite bool_decide_false; [done|]. rewrite elem_of_seqZ. intros HK. apply E. divlia.
Qed.

(** ** The layout of a binding *)

Section Layout.
Context (islarge : bool) (P : list column) (base : Z).

Definition col_width (c : column) : Z := pass_len (bind_pass islarge c.2.1) c.2.1.
Definition col_align (c : column) : ascii := pass_align (bind_pass islarge c.2.1).

(** The alignment of the physically next column. *)
Definition next_align (p : nat) : ascii := match P !! S p with Some c => col_align c | None => "c"%char end.

(** The length of the column at [p], up to the next one. *)
Definition aligned_len (p : nat) : Z :=
  match P !! p with Some c => att_align (col_width c) (next_align p) | None => 0 end.

Definition col_offset (p : nat) : Z := base + sumf aligned_len p.

(** What the layout relies on. *)
Record phys_ok : Prop := {
  ph_valid c : c ∈ P → att_valid c.2.1;
  ph_sorted : StronglySorted (λ c c' : column, bind_pass islarge c.2.1 ≤ bind_pass islarge c'.2.1) P;
  ph_base c : c ∈ P → (align_of (col_align c) | base);
  ph_fits : sumf aligned_len (length P) < 2 ^ 15;
  ph_distinct : NoDup (fst <$> P);
  ph_range : 0 ≤ base ≤ 8
}.
Context (OK : phys_ok).

Lemma col_width_pos c : c ∈ P → 0 < col_width c.
Proof.
  intros [Hl _]%(ph_valid OK). unfold col_width, pass_len, bind_pass.
  repeat case_match; rewrite ?Z.ltb_lt, ?Z.ltb_ge in *; lia.
Qed.

Lemma aligned_len_ge p c : P !! p = Some c → 0 < col_width c ≤ aligned_len p.
Proof.
  intros Hc. unfold aligned_len. rewrite Hc. pose proof (col_width_pos c (list_elem_of_lookup_2 _ _ _ Hc)).
  pose proof (att_align_range (col_width c) (next_align p)). lia.
Qed.

Lemma aligned_len_nonneg p : 0 ≤ aligned_len p.
Proof. destruct (P !! p) as [c|] eqn:E; [pose proof (aligned_len_ge p c E); lia|]. unfold aligned_len. by rewrite E. Qed.

(** Every length is a multiple of the alignment of every later column. *)
Lemma aligned_len_divide p q c : (p < q)%nat → P !! q = Some c → (align_of (col_align c) | aligned_len p).
Proof.
  intros Hpq Hc. unfold aligned_len. destruct (P !! p) as [c0|] eqn:E0; [|apply Z.divide_0_r].
  destruct (lookup_lt_is_Some_2 P (S p)) as [c1 E1]; [apply lookup_lt_Some in Hc; lia|].
  unfold next_align. rewrite E1. eapply Z.divide_trans; [|apply att_align_divide].
  destruct (decide (S p = q)) as [<-|]; [by simplify_eq|].
  pose proof (sorted_lookup _ _ (S p) q _ _ (ph_sorted OK) ltac:(lia) E1 Hc) as Hs. cbn beta in Hs.
  pose proof (bind_pass_range islarge c1.2.1). pose proof (bind_pass_range islarge c.2.1).
  apply align_of_divide; lia.
Qed.

Lemma sumf_divide f m d : (∀ p, (p < m)%nat → (d | f p)) → (d | sumf f m).
Proof.
  induction m as [|m IH]; intros H; [apply Z.divide_0_r|]. cbn. apply Z.divide_add_r; [|apply H; lia].
  apply IH. intros. apply H. lia.
Qed.

Lemma col_offset_aligned p c : P !! p = Some c → (align_of (col_align c) | col_offset p).
Proof.
  intros Hc. apply Z.divide_add_r; [by apply (ph_base OK), (list_elem_of_lookup_2 _ p)|].
  apply sumf_divide. intros. by eapply aligned_len_divide.
Qed.

Lemma col_offset_next p c c' :
  P !! p = Some c → P !! S p = Some c' → att_align (col_offset p + col_width c) (col_align c') = col_offset (S p).
Proof.
  intros Hc Hc'. unfold col_offset. cbn [sumf]. rewrite att_align_add.
  - unfold aligned_len at 3. rewrite Hc. unfold next_align. rewrite Hc'. lia.
  - pose proof (col_offset_aligned p c Hc) as Hd. eapply Z.divide_trans; [|exact Hd].
    pose proof (sorted_lookup _ _ p (S p) _ _ (ph_sorted OK) ltac:(lia) Hc Hc') as Hs. cbn beta in Hs.
    pose proof (bind_pass_range islarge c.2.1). pose proof (bind_pass_range islarge c'.2.1).
    apply align_of_divide; lia.
Qed.

(** The space that the columns before [m] save in entry [K]. *)
Definition saved (m K : nat) : Z := sumf (λ q, if in_entry q K then aligned_len q else 0) m.


Lemma saved_range m K : (m ≤ length P)%nat → 0 ≤ saved m K < 2 ^ 15.
Proof.
  intros Hm. split; [apply sumf_nonneg; intros; case_match; [apply aligned_len_nonneg|done]|].
  eapply Z.le_lt_trans; [|exact (ph_fits OK)]. trans (sumf aligned_len m).
  - apply sumf_le. intros i _. pose proof (aligned_len_nonneg i). case_match; lia.
  - apply sumf_mono; [intros; apply aligned_len_nonneg|done].
Qed.

(** The tables after the columns before [m] have been added. *)
Definition table_ok (m : nat) (ns : list Z) : Prop := ∀ K x, ns !! K = Some x → x = saved m K.

Lemma aligned_len_short p : (p < length P)%nat → aligned_len p < 2 ^ 15.
Proof.
  intros Hp. eapply Z.le_lt_trans; [|exact (ph_fits OK)]. trans (sumf aligned_len (S p)).
  - cbn. pose proof (sumf_nonneg aligned_len p (λ i _, aligned_len_nonneg i)). lia.
  - apply sumf_mono; [intros; apply aligned_len_nonneg|lia].
Qed.

Lemma table_add m ns : (m < length P)%nat → table_ok m ns → table_ok (S m) (add_null_save ns (Z.of_nat m) (s16 (aligned_len m))).
Proof.
  intros Hm Ht K x. rewrite add_null_save_lookup. destruct (ns !! K) as [y|] eqn:E; [|done].
  intros [= <-]. rewrite (Ht K y E). pose proof (saved_range (S m) K ltac:(lia)) as Hr.
  pose proof (aligned_len_short m Hm). pose proof (aligned_len_nonneg m).
  unfold saved in *. cbn [sumf] in *. destruct (in_entry m K); [|lia]. rewrite (s16_id (aligned_len m)) by lia.
  rewrite s16_id; lia.
Qed.

Lemma length_add_null_save ns i sz : length (add_null_save ns i sz) = length ns.
Proof.
  unfold add_null_save. generalize (seqZ 0 16). intros l. revert ns. induction l as [|k l IH]; intros ns; [done|].
  cbn [foldl]. rewrite IH. case_match; [apply length_alter|done].
Qed.

(** *** The binding of a column *)

Record bound_at (p : nat) (c : column) (b : MemTupleAttrBinding) : Prop := {
  bo_offset : bind_offset b = col_offset p;
  bo_len : bind_len b = col_width c;
  bo_flag : bind_flag b = pass_flag (bind_pass islarge c.2.1) c.2.1;
  bo_byte : null_byte b = Z.of_nat p `div` 8;
  bo_mask : null_mask b = 2 ^ (Z.of_nat p `mod` 8)
}.

(** The columns before [k] are bound; the aligned lengths of those before [m]
    are known. *)
Definition bound_to (k m : nat) (bs : list MemTupleAttrBinding) : Prop :=
  ∀ p c, (p < k)%nat → P !! p = Some c →
    ∃ b, bs !! c.1 = Some b ∧ bound_at p c b ∧ ((p < m)%nat → bind_len_aligned b = aligned_len p).

Record bind_inv (k : nat) (st : ColBind) : Prop := {
  bi_col : physical_col st = Z.of_nat k;
  bi_offset : cur_offset st =
    match k with O => base | S p => col_offset p + default 0 (col_width <$> P !! p) end;
  bi_prev : previous_bind st = match k with O => None | S p => fst <$> P !! p end;
  bi_bound : bound_to k (pred k) (cb_bindings st);
  bi_table : table_ok (pred k) (cb_null_saves_aligned st)
}.

Context (junk : MemTupleAttrBinding).

Lemma distinct_index p q c c' : P !! p = Some c → P !! q = Some c' → c.1 = c'.1 → p = q.
Proof.
  assert (Hf : ∀ r d, P !! r = Some d → (fst <$> P) !! r = Some d.1) by (intros r d Hr; apply list_lookup_fmap_Some; by exists d).
  intros Hp%Hf Hq%Hf E. rewrite E in Hp. exact (NoDup_lookup _ _ _ _ (ph_distinct OK) Hp Hq).
Qed.

Lemma previous_ok k st bs al :
  physical_col st = Z.of_nat k → previous_bind st = (match k with O => None | S p => fst <$> P !! p end) →
  table_ok (pred k) (cb_null_saves_aligned st) → (k ≤ length P)%nat → bound_to k (pred k) bs →
  (k = O ∨ al = next_align (pred k)) →
  ∃ bs' nsa eq, bind_previous junk st bs al = (bs', nsa, eq) ∧ length bs' = length bs ∧
    length nsa = length (cb_null_saves_aligned st) ∧ bound_to k k bs' ∧ table_ok k nsa ∧
    (∀ j, (∀ p c, (p < k)%nat → P !! p = Some c → c.1 ≠ j) → bs' !! j = bs !! j).
Proof.
  intros Hcol Hprev Ht Hk Hb Hal. unfold bind_previous. rewrite Hprev. destruct k as [|k]; cbn [pred] in *.
  { eexists _, _, _. split_and!; done. }
  destruct (lookup_lt_is_Some_2 P k) as [c Hc]; [lia|]. rewrite Hc. cbn [fmap option_fmap option_map].
  destruct Hal as [| ->]; [done|]. destruct (Hb k c ltac:(lia) Hc) as (b & Eb & Hbo & _).
  unfold add_null_save_aligned. rewrite Eb. cbn [default from_option id]. cbn [bind_len set_len_aligned bind_len_aligned].
  assert (El : att_align (bind_len b) (next_align k) = aligned_len k).
  { unfold aligned_len. by rewrite Hc, (bo_len _ _ _ Hbo). }
  rewrite El, Hcol. replace (Z.of_nat (S k) - 1) with (Z.of_nat k) by lia.
  pose proof (lookup_lt_Some _ _ _ Eb) as Hlt. eexists _, _, _. split; [done|]. split_and!.
  - apply length_insert.
  - apply length_add_null_save.
  - intros p c' Hp Hc'. destruct (decide (p = k)) as [->|Hne].
    + simplify_eq. rewrite list_lookup_insert_eq by done. eexists. split; [done|]. split; [by destruct Hbo|done].
    + destruct (Hb p c' Hp Hc') as (b' & Eb' & Hbo' & Hl'). exists b'. rewrite list_lookup_insert_ne.
      * split; [done|]. split; [done|]. intros _. apply Hl'. lia.
      * intros E. by apply Hne, (distinct_index p k c' c).
  - apply table_add; [lia|done].
  - intros j Hj. apply list_lookup_insert_ne. by apply (Hj k c); [lia|].
Qed.

Lemma offset_range p : (p ≤ length P)%nat → 0 ≤ col_offset p < 2 ^ 15 + 8.
Proof.
  intros Hp. unfold col_offset. pose proof (ph_range OK). pose proof (ph_fits OK).
  pose proof (sumf_nonneg aligned_len p (λ i _, aligned_len_nonneg i)).
  pose proof (sumf_mono aligned_len p (length P) (λ i _, aligned_len_nonneg i) Hp). lia.
Qed.

Lemma bind_step_ok k st c :
  bind_inv k st → P !! k = Some c → (∀ c', c' ∈ P → (c'.1 < length (cb_bindings st))%nat) →
  bind_inv (S k) (bind_step junk islarge st c) ∧ length (cb_bindings (bind_step junk islarge st c)) = length (cb_bindings st) ∧
  length (cb_null_saves_aligned (bind_step junk islarge st c)) = length (cb_null_saves_aligned st).
Proof.
  intros [Hcol Hoff Hprev Hb Ht] Hc Hidx. unfold bind_step, bind_col.
  pose proof (lookup_lt_Some _ _ _ Hc) as Hk. fold (col_align c) (col_width c).
  assert (Eo : att_align (cur_offset st) (col_align c) = col_offset k).
  { rewrite Hoff. destruct k as [|k].
    - unfold col_offset. cbn [sumf]. rewrite Z.add_0_r. pose proof (att_align_add base 0 (col_align c)) as E.
      rewrite att_align_0, !Z.add_0_r in E. apply E, (ph_base OK). by apply (list_elem_of_lookup_2 _ 0).
    - destruct (lookup_lt_is_Some_2 P k) as [c0 Hc0]; [lia|]. rewrite Hc0. cbn. by apply col_offset_next. }
  rewrite Eo. pose proof (offset_range k ltac:(lia)) as Hr. rewrite s32_id by lia.
  set (b := mkBinding _ _ _ _ _ _).
  destruct (previous_ok k st (<[c.1 := b]> (cb_bindings st)) (col_align c)) as (bs & nsa & eq & E & Hl & Hln & Hbs & Hts & Hrest);
    [done|done|done|lia| | |].
  { intros p c' Hp Hc'. destruct (Hb p c' Hp Hc') as (b' & Eb' & ?). exists b'. rewrite list_lookup_insert_ne; [done|].
    intros Ei. assert (k = p) by (eapply distinct_index; done). lia. }
  { destruct k as [|k]; [by left|right]. cbn [pred]. unfold next_align. by rewrite Hc. }
  rewrite E. rewrite length_insert in Hl. cbn [cb_bindings cb_null_saves_aligned].
  pose proof (aligned_len_ge k c Hc) as Hw. pose proof (offset_range (S k) ltac:(lia)) as Hr'. unfold col_offset in Hr' at 2. cbn [sumf] in Hr'. fold (col_offset k) in Hr'.
  assert (base + (sumf aligned_len k + aligned_len k) = col_offset k + aligned_len k) by (unfold col_offset; lia).
  split; [|done]. split; cbn [physical_col cur_offset previous_bind cb_bindings cb_null_saves_aligned pred].
  - lia.
  - rewrite Hc. cbn. apply u32_id. lia.
  - by rewrite Hc.
  - intros p c' Hp Hc'. destruct (decide (p = k)) as [->|Hne]; [|by apply Hbs; [lia|]]. simplify_eq.
    exists b. split; [|split; [|lia]].
    + rewrite Hrest, list_lookup_insert_eq; [done|apply Hidx; by apply (list_elem_of_lookup_2 _ k)|].
      intros p c'' Hp'' Hc'' Ei. assert (p = k) by (eapply distinct_index; done). lia.
    + subst b. split; cbn [bind_offset bind_len bind_flag null_byte null_mask]; try done; rewrite Hcol, Z.shiftr_div_pow2 by lia; [done|].
      rewrite (Z.shiftl_mul_pow2 (_ `div` _)) by lia. rewrite Z.shiftl_mul_pow2, Z.mul_1_l by divlia.
      replace (Z.of_nat k - Z.of_nat k `div` 2 ^ 3 * 2 ^ 3) with (Z.of_nat k `mod` 8) by divlia.
      unfold u8. apply Z.mod_small. pose proof (Z.mod_pos_bound (Z.of_nat k) 8 ltac:(lia)).
      split; [lia|]. apply Z.pow_lt_mono_r; lia.
  - done.
Qed.

Lemma bind_all_ok st0 : bind_inv 0 st0 → (∀ c, c ∈ P → (c.1 < length (cb_bindings st0))%nat) → ∀ k, (k ≤ length P)%nat →
  let st := foldl (bind_step junk islarge) st0 (take k P) in
  bind_inv k st ∧ length (cb_bindings st) = length (cb_bindings st0) ∧
  length (cb_null_saves_aligned st) = length (cb_null_saves_aligned st0).
Proof.
  intros H0 Hidx k. induction k as [|k IH]; intros Hk; [done|].
  destruct (lookup_lt_is_Some_2 P k) as [c Hc]; [lia|]. destruct (IH ltac:(lia)) as (Hi & Hl & Hn).
  rewrite (take_S_r _ _ c) by done. rewrite foldl_app. cbn [foldl].
  destruct (bind_step_ok k _ c Hi Hc) as (Hi' & Hl' & Hn'); [by rewrite Hl|].
  split; [done|]. split; congruence.
Qed.

(** A finished binding. *)
Record cols_ok (cb : MemTupleBindingCols) : Prop := {
  co_bound p c : P !! p = Some c → ∃ b, bindings cb !! c.1 = Some b ∧ bound_at p c b ∧ bind_len_aligned b = aligned_len p;
  co_len : length (bindings cb) = length P;
  co_table : table_ok (length P) (null_saves_aligned cb);
  co_entries : length (null_saves_aligned cb) = Z.to_nat (compute_null_save_entries (Z.of_nat (length P)));
  co_var : P ≠ [] → var_start cb = col_offset (length P)
}.

Lemma table_zero n : table_ok 0 (replicate n 0).
Proof. intros K x. rewrite lookup_replicate. by intros [-> _]. Qed.

Lemma next_align_last : next_align (pred (length P)) = "c"%char.
Proof. unfold next_align. rewrite lookup_ge_None_2; [done|]. lia. Qed.

Lemma col_offset_last k c : length P = S k → P !! k = Some c → col_offset k + col_width c = col_offset (length P).
Proof.
  intros El Hc. rewrite El. unfold col_offset. cbn [sumf]. unfold aligned_len at 3. rewrite Hc.
  pose proof next_align_last as En. rewrite El in En. cbn [pred] in En. rewrite En, att_align_c. lia.
Qed.

Lemma create_cols_ok d dropped align :
  base = (if tdhasoid d || (align =? 8) then 8 else 4) → Forall att_valid (attrs d) →
  P = physical islarge (attrs d) dropped → length P = length (attrs d) → (∀ c, c ∈ P → (c.1 < length (attrs d))%nat) →
  cols_ok (create_col_bind junk islarge d dropped align).
Proof.
  intros Eb Hv EP HlP Hidx. unfold create_col_bind. rewrite passes_physical, <- EP, <- Eb by done.
  set (zeros := replicate _ 0). set (st0 := mkColBind _ _ _ _ _ _ _ _).
  destruct (bind_all_ok st0) with (k := length P) as (Hi & Hl & Hn).
  { split; cbn [pred]; try done; [intros p c Hp; lia|apply table_zero]. }
  { intros c Hc. unfold st0. cbn [cb_bindings]. rewrite length_replicate. by apply Hidx. }
  { done. }
  rewrite firstn_all in *. set (st := foldl _ _ _) in *. destruct Hi as [Hcol Hoff Hprev Hb Ht].
  destruct (previous_ok (length P) st (cb_bindings st) "c"%char) as (bs & nsa & eq & E & Hl' & Hln & Hbs & Hts & _);
    [done|done|done|done|done|right; by rewrite next_align_last|].
  rewrite E. split; cbn [bindings null_saves_aligned var_start].
  - intros p c Hc. pose proof (lookup_lt_Some _ _ _ Hc) as Hp. destruct (Hbs p c Hp Hc) as (b & ? & ? & Hal). eauto.
  - rewrite Hl', Hl. unfold st0. cbn [cb_bindings]. by rewrite length_replicate.
  - done.
  - rewrite Hln, Hn. unfold st0, zeros, natts. cbn [cb_null_saves_aligned]. by rewrite length_replicate, HlP.
  - intros Hne. unfold natts. rewrite <- HlP. destruct P as [|c0 P'] eqn:EP'; [done|]. rewrite <- EP' in *. clear Hne.
    rewrite (proj2 (Z.eqb_neq _ _)) by (rewrite EP'; cbn [length]; lia). cbn [negb]. rewrite Hoff.
    assert (El : length P = S (length P')) by (rewrite EP'; done). rewrite El.
    destruct (lookup_lt_is_Some_2 P (length P')) as [c Hc]; [lia|]. rewrite Hc. cbn. rewrite <- El. by apply col_offset_last.
Qed.
End Layout.

(** ** Descriptors *)

(** An upper bound of the fixed part: what every column takes at most. *)
Definition col_cap (a : Form_pg_attribute) : Z := att_align (if 0 <? attlen a then attlen a else 4) "d"%char.
Definition fixed_cap (atts : list Form_pg_attribute) : Z := foldr (λ a n, col_cap a + n) 0 atts.

(** What the code relies on: the lengths and alignments of types, that the
    space saved by nulls can be counted in a [short], and that [bpchar] is of
    variable length. *)
Record desc_ok (d : TupleDesc) (dropped : list bool) : Prop := {
  do_valid : Forall att_valid (attrs d);
  do_dropped : length dropped = length (attrs d);
  do_fits : fixed_cap (attrs d) < 2 ^ 15;
  do_bpchar : Forall (λ a, 0 < attlen a → atttypid a ≠ BPCHAROID) (attrs d)
}.

Lemma att_align_mono w w' p : 0 ≤ p ≤ 3 → w ≤ w' → att_align w (pass_align p) ≤ att_align w' "d"%char.
Proof.
  intros Hp Hw. rewrite !att_align_eq, align_of_pass by done. change (align_of "d"%char) with 8.
  assert (Hc : p = 0 ∨ p = 1 ∨ p = 2 ∨ p = 3) by lia. destruct Hc as [->|[->|[->| ->]]]; cbn [Z.sub Z.pow Z.pow_pos Z.opp Z.add Z.pos_sub Pos.pred_double]; cbn; divlia.
Qed.

Lemma aligned_len_cap islarge P p c :
  P !! p = Some c → att_valid c.2.1 → aligned_len islarge P p ≤ col_cap c.2.1.
Proof.
  intros Hc [Hl _]. unfold aligned_len. rewrite Hc.
  assert (Hn : ∃ q, 0 ≤ q ≤ 3 ∧ next_align islarge P p = pass_align q).
  { unfold next_align. destruct (P !! S p) as [c'|]; [|by exists 3]. exists (bind_pass islarge c'.2.1).
    split; [apply bind_pass_range|done]. }
  destruct Hn as (q & Hq & ->). apply att_align_mono; [done|]. unfold col_width, pass_len, bind_pass.
  repeat case_match; rewrite ?Z.ltb_lt, ?Z.ltb_ge in *; lia.
Qed.

Lemma physical_perm islarge atts dropped : length dropped = length atts →
  (λ c : column, c.2.1) <$> physical islarge atts dropped ≡ₚ atts.
Proof.
  intros Hl. trans ((λ c : column, c.2.1) <$> imap pair (zip atts dropped)).
  - apply fmap_Permutation, NoDup_Permutation.
    + eapply NoDup_fmap_1. by apply physical_NoDup.
    + apply (NoDup_fmap_1 fst). rewrite fmap_imap. apply NoDup_alt. intros i j x. rewrite !list_lookup_imap.
      destruct (zip atts dropped !! i), (zip atts dropped !! j); naive_solver.
    + intros [j [a dr]]. rewrite physical_spec, elem_of_lookup_imap by done. split.
      * intros [Ha Hd]. exists j, (a, dr). split; [done|]. rewrite lookup_zip_with, Ha, Hd. done.
      * intros (i & x & [= -> <-] & Hx). rewrite lookup_zip_with in Hx.
        destruct (atts !! i) eqn:?, (dropped !! i) eqn:?; naive_solver.
  - assert (E : (λ c : column, c.2.1) <$> imap pair (zip atts dropped) = atts); [|by rewrite E].
    rewrite fmap_imap. apply list_eq. intros i. rewrite list_lookup_imap, lookup_zip_with.
    destruct (atts !! i) as [a|] eqn:Ea; [|done]. cbn.
    destruct (lookup_lt_is_Some_2 dropped i) as [dr ->]; [|done]. apply lookup_lt_Some in Ea. lia.
Qed.

Lemma sumf_foldr (f : nat → Z) (g : Form_pg_attribute → Z) (P : list column) :
  (∀ p c, P !! p = Some c → f p ≤ g c.2.1) → sumf f (length P) ≤ foldr (λ a n, g a + n) 0 ((λ c : column, c.2.1) <$> P).
Proof.
  induction P as [|c P IH] using rev_ind; intros H; [done|]. rewrite length_app, Nat.add_comm. cbn [length sumf Nat.add].
  rewrite fmap_app, foldr_app. cbn [fmap list_fmap foldr].
  assert (Hs : ∀ l z, foldr (λ a n, g a + n) z l = foldr (λ a n, g a + n) 0 l + z).
  { intros l z. induction l as [|a l IHl]; cbn; lia. }
  rewrite Hs. pose proof (H (length P) c ltac:(by rewrite list_lookup_middle)).
  assert (sumf f (length P) ≤ foldr (λ a n, g a + n) 0 ((λ c : column, c.2.1) <$> P)); [|lia].
  apply IH. intros p c' Hp. apply H. by apply lookup_app_l_Some.
Qed.

(** Where the first column is. *)
Definition first_offset (pbind : MemTupleBinding) : Z :=
  if mtbind_has_oid pbind || (column_align pbind =? 8) then 8 else 4.

Definition colbind (pbind : MemTupleBinding) (islarge : bool) : MemTupleBindingCols :=
  if islarge then large_bind pbind else bind pbind.

Section Create.
Context (junk : MemTupleAttrBinding) (d : TupleDesc) (dropped : list bool).
Context (Hd : desc_ok d dropped).

Let pb := create_memtuple_binding junk d dropped.

Lemma column_align_cases : column_align pb = 8 ∨ column_align pb = 4.
Proof. unfold pb. cbn [column_align create_memtuple_binding]. case_match; auto. Qed.

(** The alignment of the tuple is enough for every column. *)
Lemma col_align_divides islarge (c : column) :
  att_valid c.2.1 → c.2.1 ∈ attrs d → (align_of (col_align islarge c) | column_align pb).
Proof.
  intros Ha Hin. unfold pb. cbn [column_align create_memtuple_binding].
  pose proof (bind_pass_range islarge c.2.1) as Hr. unfold col_align. rewrite align_of_pass by done.
  destruct (existsb _ (attrs d)) eqn:Ee.
  { exists (2 ^ bind_pass islarge c.2.1). rewrite <- Z.pow_add_r by lia. by replace (bind_pass islarge c.2.1 + (3 - bind_pass islarge c.2.1)) with 3 by lia. }
  assert (bind_pass islarge c.2.1 ≠ 0).
  { unfold bind_pass. destruct (Z.ltb_spec (attlen c.2.1) 0); [by destruct islarge|].
    destruct (Ascii.eqb (attalign c.2.1) "d"%char) eqn:Ed; [|repeat case_match; lia]. exfalso.
    assert (Ht : existsb (λ a, (0 <? attlen a) && Ascii.eqb (attalign a) "d"%char) (attrs d) = true); [|congruence].
    apply existsb_exists. exists c.2.1. split; [by apply list_elem_of_In|]. rewrite Ed, andb_true_r. apply Z.ltb_lt.
    destruct (av_len _ Ha); lia. }
  exists (2 ^ (bind_pass islarge c.2.1 - 1)). rewrite <- Z.pow_add_r by lia.
  by replace (bind_pass islarge c.2.1 - 1 + (3 - bind_pass islarge c.2.1)) with 2 by lia.
Qed.

Lemma extra_divide : (column_align pb | null_bitmap_extra_size pb).
Proof.
  pose proof column_align_cases as Hc. unfold pb in *. cbn [null_bitmap_extra_size column_align create_memtuple_binding] in *.
  set (al := if existsb _ _ then _ else _) in *. unfold compute_null_bitmap_extra_size. case_match; [apply Z.divide_0_r|].
  destruct Hc as [-> | ->]; [rewrite (TYPEALIGN_pow 3)|rewrite (TYPEALIGN_pow 2)]; try lia; apply Z.divide_factor_r.
Qed.

Lemma create_phys_ok islarge : phys_ok islarge (physical islarge (attrs d) dropped) (first_offset pb).
Proof.
  pose proof (do_dropped _ _ Hd) as Hl. set (P := physical islarge (attrs d) dropped).
  assert (Hv : ∀ c, c ∈ P → att_valid c.2.1 ∧ c.2.1 ∈ attrs d).
  { intros [j [a dr]] [Ha _]%physical_spec; [|done]. apply list_elem_of_lookup_2 in Ha. split; [|done].
    pose proof (do_valid _ _ Hd) as Hf. rewrite Forall_forall in Hf. by apply Hf. }
  split.
  - intros c Hc. by apply Hv.
  - apply (sorted_weaken (col_before islarge)); [unfold col_before; intros c c'; lia|apply physical_sorted].
  - intros c Hc. destruct (Hv c Hc) as [Ha Hin]. eapply Z.divide_trans; [by apply col_align_divides|]. unfold first_offset.
    destruct (column_align_cases) as [-> | ->]; [by rewrite orb_true_r|]. destruct (mtbind_has_oid pb); [by exists 2|done].
  - eapply Z.le_lt_trans; [apply (sumf_foldr _ col_cap)|].
    + intros p c Hc. apply aligned_len_cap; [done|]. by apply Hv, (list_elem_of_lookup_2 _ p).
    + eapply Z.le_lt_trans; [|apply (do_fits _ _ Hd)]. apply Z.eq_le_incl.
      apply (foldr_permutation (=) (λ a n, col_cap a + n) 0); [lia|]. apply physical_perm, Hl.
  - by apply physical_NoDup.
  - unfold first_offset. case_match; lia.
Qed.

Lemma create_binding_ok islarge :
  cols_ok islarge (physical islarge (attrs d) dropped) (first_offset pb) (colbind pb islarge).
Proof.
  pose proof (do_dropped _ _ Hd) as Hl. pose proof (create_phys_ok islarge) as OK.
  assert (E : colbind pb islarge = create_col_bind junk islarge d dropped (column_align pb)) by (by destruct islarge).
  rewrite E. apply create_cols_ok; [done|done|apply Hd|done|by apply physical_length|].
  intros [j [a dr]] [Ha _]%physical_spec; [|done]. by apply lookup_lt_Some in Ha.
Qed.
End Create.
