(* ===== verification/MemTupleForm.v ===== *)
(** Memtuples: where a column is, how large a tuple is, and what forming it
    leaves in the buffer. *)
From Stdlib Require Import Ascii.
From stdpp Require Import prelude numbers list sorting.
From S2P Require Import Prelude Varlena PgLz HeapTuple HeapTupleForm HeapTupleRead HeapTupleSpec Toast MemTuple MemTupleBind.

Local Open Scope Z_scope.

(** ** The space saved by nulls *)

(** Bit [q] of a bitmap. *)
Definition null_bit (bits : list Z) (q : nat) : bool :=
  Z.testbit (default 0 (bits !! Z.to_nat (Z.of_nat q `div` 8))) (Z.of_nat q `mod` 8).

Lemma testbit_nibbles b q : is_byte b → 0 ≤ q →
  (if q `div` 4 `mod` 2 =? 0 then Z.testbit (b `mod` 16) (q `mod` 4) else Z.testbit (b `div` 16) (q `mod` 4)) =
    Z.testbit b (q `mod` 8).
Proof.
  intros Hb Hq. destruct (Z.eqb_spec (q `div` 4 `mod` 2) 0) as [E|E].
  - replace (q `mod` 8) with (q `mod` 4) by divlia. change 16 with (2 ^ 4). rewrite Z.mod_pow2_bits_low; [done|divlia].
  - replace (q `mod` 8) with (q `mod` 4 + 4) by divlia. change 16 with (2 ^ 4). by rewrite Z.div_pow2_bits by divlia.
Qed.

Lemma entry_low q B b : is_byte b →
  in_entry q (32 * B + Z.to_nat (b `mod` 16)) = (Z.of_nat q `div` 4 =? 2 * Z.of_nat B) && Z.testbit (b `mod` 16) (Z.of_nat q `mod` 4).
Proof.
  intros Hb. unfold in_entry. rewrite Nat2Z.inj_add, Nat2Z.inj_mul, Z2Nat.id by divlia.
  replace ((Z.of_nat 32 * Z.of_nat B + b `mod` 16) `div` 16) with (2 * Z.of_nat B) by divlia.
  by replace ((Z.of_nat 32 * Z.of_nat B + b `mod` 16) `mod` 16) with (b `mod` 16) by divlia.
Qed.

Lemma entry_high q B b : is_byte b →
  in_entry q (32 * B + (16 + Z.to_nat (b `div` 16))) =
    (Z.of_nat q `div` 4 =? 2 * Z.of_nat B + 1) && Z.testbit (b `div` 16) (Z.of_nat q `mod` 4).
Proof.
  intros Hb. unfold is_byte in Hb. unfold in_entry. rewrite !Nat2Z.inj_add, Nat2Z.inj_mul, Z2Nat.id by divlia.
  replace ((Z.of_nat 32 * Z.of_nat B + (Z.of_nat 16 + b `div` 16)) `div` 16) with (2 * Z.of_nat B + 1) by divlia.
  by replace ((Z.of_nat 32 * Z.of_nat B + (Z.of_nat 16 + b `div` 16)) `mod` 16) with (b `div` 16) by divlia.
Qed.

Lemma entry_byte q B b : is_byte b →
  in_entry q (32 * B + Z.to_nat (b `mod` 16)) || in_entry q (32 * B + (16 + Z.to_nat (b `div` 16))) =
    (Z.of_nat q `div` 8 =? Z.of_nat B) && Z.testbit b (Z.of_nat q `mod` 8) ∧
  in_entry q (32 * B + Z.to_nat (b `mod` 16)) && in_entry q (32 * B + (16 + Z.to_nat (b `div` 16))) = false.
Proof.
  intros Hb. rewrite entry_low, entry_high by done. pose proof (testbit_nibbles b (Z.of_nat q) Hb ltac:(lia)) as Hn.
  destruct (Z.eqb_spec (Z.of_nat q `div` 4) (2 * Z.of_nat B)) as [E1|E1],
    (Z.eqb_spec (Z.of_nat q `div` 4) (2 * Z.of_nat B + 1)) as [E2|E2],
    (Z.eqb_spec (Z.of_nat q `div` 8) (Z.of_nat B)) as [E3|E3]; try (exfalso; divlia); cbn [andb orb]; try done.
  - rewrite E1 in Hn. rewrite (proj2 (Z.eqb_eq _ _)) in Hn by divlia. by rewrite orb_false_r, andb_false_r.
  - rewrite E2 in Hn. rewrite (proj2 (Z.eqb_neq _ _)) in Hn by divlia. done.
Qed.

Section Place.
Context (islarge : bool) (P : list column) (base : Z) (OK : phys_ok islarge P base).
Local Abbreviation N := (length P).
Local Abbreviation alen := (aligned_len islarge P).

(** The lengths of the columns that are null, of the columns that are not, and
    where a column is. *)
Definition null_len (nul : nat → bool) (q : nat) : Z := if nul q then alen q else 0.
Definition full_len (nul : nat → bool) (q : nat) : Z := if nul q then 0 else alen q.
Definition place (nul : nat → bool) (p : nat) : Z := base + sumf (full_len nul) p.

Lemma alen_nonneg q : 0 ≤ alen q.
Proof. by eapply aligned_len_nonneg. Qed.

Lemma part_range (f : nat → bool) m : (m ≤ N)%nat → 0 ≤ sumf (λ q, if f q then alen q else 0) m < 2 ^ 15.
Proof.
  intros Hm. split; [apply sumf_nonneg; intros q _; case_match; [apply alen_nonneg|done]|].
  eapply Z.le_lt_trans; [|apply (ph_fits _ _ _ OK)]. trans (sumf alen m).
  - apply sumf_le. intros q _. pose proof (alen_nonneg q). case_match; lia.
  - apply sumf_mono; [intros; apply alen_nonneg|done].
Qed.

Lemma place_eq nul p : place nul p = col_offset islarge P base p - sumf (null_len nul) p.
Proof.
  unfold place, col_offset. rewrite (sumf_ext alen (λ q, full_len nul q + null_len nul q)), sumf_add; [lia|].
  intros q _. unfold full_len, null_len. case_match; lia.
Qed.

(** What one byte of the bitmap saves. *)
Lemma save_byte ns B b :
  table_ok islarge P N ns → (32 * B + 31 < length ns)%nat → is_byte b →
  compute_null_save_b (drop (32 * B) ns) b =
    Some (sumf (λ q, if (Z.of_nat q `div` 8 =? Z.of_nat B) && Z.testbit b (Z.of_nat q `mod` 8) then alen q else 0) N).
Proof.
  intros Ht Hl Hb. unfold compute_null_save_b.
  replace (Z.land b 0xF) with (b `mod` 16) by (symmetry; apply (Z.land_ones b 4); lia).
  rewrite Z.shiftr_div_pow2 by lia. change (2 ^ 4) with 16.
  replace (Z.to_nat (16 + b `div` 16)) with (16 + Z.to_nat (b `div` 16))%nat by (unfold is_byte in Hb; divlia).
  rewrite !lookup_drop. set (K1 := (32 * B + Z.to_nat (b `mod` 16))%nat). set (K2 := (32 * B + (16 + Z.to_nat (b `div` 16)))%nat).
  destruct (lookup_lt_is_Some_2 ns K1) as [x Hx]; [unfold K1; divlia|].
  destruct (lookup_lt_is_Some_2 ns K2) as [y Hy]; [unfold K2, is_byte in *; divlia|].
  rewrite Hx, Hy. cbn [mbind option_bind]. rewrite (Ht K1 x Hx), (Ht K2 y Hy). unfold saved. rewrite <- sumf_add.
  rewrite (sumf_ext _ (λ q, if (Z.of_nat q `div` 8 =? Z.of_nat B) && Z.testbit b (Z.of_nat q `mod` 8) then alen q else 0)).
  - f_equal. apply s16_id. pose proof (part_range (λ q, (Z.of_nat q `div` 8 =? Z.of_nat B) && Z.testbit b (Z.of_nat q `mod` 8)) N ltac:(lia)). lia.
  - intros q _. destruct (entry_byte q B b Hb) as [<- Hx2]. fold K1 K2 in Hx2 |- *.
    destruct (in_entry q K1), (in_entry q K2); cbn in *; try done; lia.
Qed.

(** The sum up to byte [B]. *)
Definition upto (bits : list Z) (B : nat) (q : nat) : bool := bool_decide (q < 8 * B)%nat && null_bit bits q.

Lemma upto_byte bits B b q : bits !! B = Some b →
  (if upto bits B q then alen q else 0) +
  (if (Z.of_nat q `div` 8 =? Z.of_nat B) && Z.testbit b (Z.of_nat q `mod` 8) then alen q else 0) =
  (if upto bits (S B) q then alen q else 0).
Proof.
  intros Hb. unfold upto. destruct (Z.eqb_spec (Z.of_nat q `div` 8) (Z.of_nat B)) as [E|E]; cbn [andb].
  - rewrite bool_decide_false, bool_decide_true by divlia. cbn [andb]. unfold null_bit. rewrite E, Nat2Z.id, Hb. done.
  - rewrite (bool_decide_ext (q < 8 * S B)%nat (q < 8 * B)%nat) by divlia. lia.
Qed.

Lemma upto_last bits B b p q : bits !! B = Some b → B = Z.to_nat (Z.of_nat p `div` 8) →
  (if upto bits B q then alen q else 0) +
  (if (Z.of_nat q `div` 8 =? Z.of_nat B) && Z.testbit (Z.land b (2 ^ (Z.of_nat p `mod` 8) - 1)) (Z.of_nat q `mod` 8) then alen q else 0) =
  (if bool_decide (q < p)%nat && null_bit bits q then alen q else 0).
Proof.
  intros Hb HB. replace (2 ^ (Z.of_nat p `mod` 8) - 1) with (Z.ones (Z.of_nat p `mod` 8)) by (rewrite Z.ones_equiv; lia).
  rewrite Z.land_spec, Z.testbit_ones_nonneg by divlia.
  unfold upto. destruct (Z.eqb_spec (Z.of_nat q `div` 8) (Z.of_nat B)) as [E|E]; cbn [andb].
  - rewrite bool_decide_false by divlia. cbn [andb]. unfold null_bit. rewrite E, Nat2Z.id, Hb. cbn [default from_option id].
    destruct (Z.ltb_spec (Z.of_nat q `mod` 8) (Z.of_nat p `mod` 8)).
    + rewrite bool_decide_true, andb_true_r by divlia. done.
    + rewrite bool_decide_false, andb_false_r by divlia. done.
  - rewrite (bool_decide_ext (q < 8 * B)%nat (q < p)%nat) by divlia. lia.
Qed.

Lemma null_save_loop_ok ns bits p : table_ok islarge P N ns → (p < N)%nat → (32 * Z.to_nat (Z.of_nat p `div` 8) + 31 < length ns)%nat →
  (∀ B, (B ≤ Z.to_nat (Z.of_nat p `div` 8))%nat → ∃ b, bits !! B = Some b ∧ is_byte b) →
  ∀ n B, (B + n = Z.to_nat (Z.of_nat p `div` 8))%nat →
  null_save_loop n (drop (32 * B) ns) (drop B bits) (2 ^ (Z.of_nat p `mod` 8)) (sumf (λ q, if upto bits B q then alen q else 0) N) =
    Some (sumf (null_len (null_bit bits)) p).
Proof.
  intros Ht Hp Hl Hbits. induction n as [|n IH]; intros B HB; cbn [null_save_loop];
    destruct (Hbits B ltac:(lia)) as (b & Hb & Hbyte); rewrite (head_lookup (drop B bits)), lookup_drop, Nat.add_0_r, Hb; cbn [mbind option_bind].
  - assert (Hm : is_byte (Z.land b (2 ^ (Z.of_nat p `mod` 8) - 1))).
    { replace (2 ^ (Z.of_nat p `mod` 8) - 1) with (Z.ones (Z.of_nat p `mod` 8)) by (rewrite Z.ones_equiv; lia).
      unfold is_byte in *. rewrite Z.land_ones by divlia.
      assert (Hpow : 0 < 2 ^ (Z.of_nat p `mod` 8)) by (apply Z.pow_pos_nonneg; divlia).
      pose proof (Z.mod_le b _ (proj1 Hbyte) Hpow). pose proof (Z.mod_pos_bound b _ Hpow). lia. }
    rewrite (save_byte ns B) by (done || lia). cbn [mbind option_bind]. f_equal. rewrite <- sumf_add.
    rewrite (sumf_ext _ (λ q, if bool_decide (q < p)%nat && null_bit bits q then alen q else 0)).
    + rewrite s16_id.
      * rewrite <- (sumf_below (null_len (null_bit bits)) p N) by lia. apply sumf_ext. intros q _. unfold null_len.
        case_bool_decide; done.
      * pose proof (part_range (λ q, bool_decide (q < p)%nat && null_bit bits q) N ltac:(lia)). lia.
    + intros q _. rewrite <- (upto_last bits B b p q) by (done || lia). done.
  - rewrite (save_byte ns B) by (done || lia). cbn [mbind option_bind]. rewrite drop_drop, <- sumf_add.
    assert (Et : tail (drop B bits) = drop (S B) bits).
    { replace (S B) with (B + 1)%nat by lia. rewrite <- drop_drop. by destruct (drop B bits). }
    rewrite Et.
    rewrite (sumf_ext _ _ _ (λ q _, upto_byte bits B b q Hb)).
    rewrite s16_id by (pose proof (part_range (upto bits (S B)) N ltac:(lia)); lia).
    replace (32 * B + 32)%nat with (32 * S B)%nat by lia. apply IH. lia.
Qed.

(** A bitmap that says which columns are null, in physical order. *)
Record bitmap_ok (nul : nat → bool) (bits : list Z) : Prop := {
  bm_bytes B : (8 * B < N)%nat → ∃ b, bits !! B = Some b ∧ is_byte b;
  bm_bits q : (q < N)%nat → null_bit bits q = nul q
}.

Definition nulls_ok (nul : nat → bool) (nullp : option (list Z)) : Prop :=
  match nullp with Some bits => bitmap_ok nul bits | None => ∀ q, (q < N)%nat → nul q = false end.

Lemma attr_ptr_ok cb nul nullp p c b start :
  cols_ok islarge P base cb → nulls_ok nul nullp → P !! p = Some c → bindings cb !! c.1 = Some b →
  memtuple_get_attr_ptr start b (Some (null_saves_aligned cb)) nullp = Some (start + place nul p).
Proof.
  intros Hcb Hn Hc Hb. pose proof (lookup_lt_Some _ _ _ Hc) as Hp.
  destruct (co_bound _ _ _ _ Hcb p c Hc) as (b' & Hb' & Hbo & _). simplify_eq.
  assert (Hsum : ∀ f : nat → bool, (∀ q, (q < N)%nat → f q = nul q) → sumf (null_len f) p = sumf (null_len nul) p).
  { intros f Hf. apply sumf_ext. intros q Hq. unfold null_len. by rewrite Hf by lia. }
  unfold memtuple_get_attr_ptr. rewrite (bo_offset _ _ _ _ _ _ Hbo), place_eq. destruct nullp as [bits|]; cbn [nulls_ok mbind option_bind] in *.
  - unfold compute_null_save. rewrite (bo_byte _ _ _ _ _ _ Hbo), (bo_mask _ _ _ _ _ _ Hbo).
    destruct Hn as [Hby Hbi].
    pose proof (null_save_loop_ok (null_saves_aligned cb) bits p (co_table _ _ _ _ Hcb) Hp) as Hl.
    specialize (Hl ltac:(rewrite (co_entries _ _ _ _ Hcb); unfold compute_null_save_entries; rewrite Z.quot_div_nonneg by lia; divlia)).
    specialize (Hl ltac:(intros B HB; apply Hby; divlia) (Z.to_nat (Z.of_nat p `div` 8)) 0%nat eq_refl).
    rewrite Nat.mul_0_r, !drop_0 in Hl.
    assert (E0 : sumf (λ q, if upto bits 0 q then alen q else 0) N = 0).
    { trans (sumf (λ _, 0) N); [|apply sumf_zero]. apply sumf_ext. intros q _. unfold upto. by rewrite bool_decide_false by lia. }
    rewrite E0 in Hl. rewrite Hl. cbn [mbind option_bind]. f_equal. rewrite (Hsum _ Hbi). lia.
  - f_equal. rewrite <- (Hsum (λ _, false) (λ q Hq, eq_sym (Hn q Hq))). unfold null_len. rewrite sumf_zero. lia.
Qed.

Lemma full_len_nonneg nul q : 0 ≤ full_len nul q.
Proof. unfold full_len. pose proof (alen_nonneg q). case_match; lia. Qed.

Lemma place_mono nul p q : (p ≤ q)%nat → place nul p ≤ place nul q.
Proof.
  intros Hpq. unfold place. pose proof (sumf_mono (full_len nul) p q (λ i _, full_len_nonneg nul i) Hpq). lia.
Qed.

(** The columns that are not null follow each other without overlap. *)
Lemma place_next nul p q c :
  P !! p = Some c → nul p = false → (p < q)%nat → place nul p + col_width islarge c ≤ place nul q.
Proof.
  intros Hc Hn Hpq. pose proof (place_mono nul (S p) q ltac:(lia)) as Hm. unfold place in *. cbn [sumf] in Hm.
  unfold full_len in Hm at 2. rewrite Hn in Hm. pose proof (aligned_len_ge _ _ _ OK p c Hc). lia.
Qed.

Lemma place_range nul p : (p ≤ N)%nat → base ≤ place nul p < base + 2 ^ 15.
Proof.
  intros Hp. pose proof (place_mono nul 0 p ltac:(lia)) as Hm. unfold place in *. cbn [sumf] in Hm.
  pose proof (part_range (λ q, negb (nul q)) p Hp) as Hr.
  rewrite (sumf_ext (full_len nul) (λ q, if negb (nul q) then alen q else 0)) in * by (intros; unfold full_len; by destruct (nul _)). lia.
Qed.

(** A column is aligned, whichever columns are null. *)
Lemma place_aligned nul p c : P !! p = Some c → (align_of (col_align islarge c) | place nul p).
Proof.
  intros Hc. apply Z.divide_add_r; [by apply (ph_base _ _ _ OK), (list_elem_of_lookup_2 _ p)|].
  apply sumf_divide. intros q Hq. unfold full_len. case_match; [apply Z.divide_0_r|]. by eapply aligned_len_divide.
Qed.
End Place.

(** ** Columns in logical order *)

Definition sumz (l : list Z) : Z := foldr Z.add 0 l.

Lemma sumz_perm l l' : l ≡ₚ l' → sumz l = sumz l'.
Proof. intros H. apply (foldr_permutation (=) Z.add 0); [lia|done]. Qed.

Lemma sumz_snoc l x : sumz (l ++ [x]) = sumz l + x.
Proof. unfold sumz. rewrite foldr_app. cbn. induction l as [|y l IH]; cbn; lia. Qed.

Lemma sumf_sumz f l : (∀ i x, l !! i = Some x → f i = x) → sumf f (length l) = sumz l.
Proof.
  induction l as [|x l IH] using rev_ind; intros H; [done|]. rewrite length_app, Nat.add_comm. cbn [length sumf Nat.add].
  rewrite sumz_snoc, IH; [f_equal; apply H; by rewrite list_lookup_middle|].
  intros i y Hi. apply H. by apply lookup_app_l_Some.
Qed.

(** The flag by the length of the type. *)
Definition att_flag (a : Form_pg_attribute) : MemTupleBindFlag :=
  if 0 <? attlen a then if attbyval a then MTB_ByVal_Native else MTB_ByVal_Ptr
  else if attlen a =? -1 then MTB_ByRef else MTB_ByRef_CStr.

Lemma pass_flag_eq islarge a : att_valid a → pass_flag (bind_pass islarge a) a = att_flag a.
Proof.
  intros [Hl _]. unfold pass_flag, bind_pass, att_flag.
  destruct (Z.ltb_spec (attlen a) 0), (Z.ltb_spec 0 (attlen a)); try lia.
  - by destruct islarge.
  - repeat case_match; done.
Qed.

Lemma var_column_eq a b : bind_flag b = att_flag a → var_column b = negb (0 <? attlen a).
Proof. intros E. unfold var_column. rewrite E. unfold att_flag. repeat case_match; done. Qed.

(** Columns without data in the variable part: nulls and those of fixed length. *)
Definition var_nulls (atts : list Form_pg_attribute) (ns : list bool) : list bool :=
  zip_with (λ a n, n || (0 <? attlen a)) atts ns.

Lemma layout_nonneg atts vs ns pos : 0 ≤ blen (layout atts vs ns pos).
Proof. apply blen_nonneg. Qed.

Lemma size_loop_ok atts bs vs ns :
  Forall att_valid atts → row_ok atts vs ns → Forall2 (λ a b, bind_flag b = att_flag a) atts bs → ∀ pos, 0 ≤ pos →
  pos + blen (layout atts vs (var_nulls atts ns) pos) < 2 ^ 32 →
  size_loop atts bs vs ns pos = Some (pos + blen (layout atts vs (var_nulls atts ns) pos)).
Proof.
  intros Hv Hrow Hb. revert vs ns Hv Hrow. induction Hb as [|a b atts bs Hf _ IH]; intros vs ns Hv Hrow pos Hpos Hlt.
  { inversion Hrow; subst. cbn. by rewrite Z.add_0_r. }
  inversion Hrow as [|? v n ? vs' ns' Hc Hrow']; subst. apply Forall_cons in Hv as [Ha Hv].
  cbn [size_loop var_nulls zip_with layout] in *. fold (var_nulls atts ns') in *.
  rewrite (var_column_eq a b Hf). rewrite negb_involutive. destruct (n || (0 <? attlen a)) eqn:En; [by apply IH|].
  apply orb_false_iff in En as [-> Hl%Z.ltb_ge]. specialize (Hc eq_refl).
  rewrite !blen_app in *. rewrite attr_start_pad in *. set (q := pos + blen (attr_pad a v pos)) in *.
  pose proof (blen_nonneg (attr_pad a v pos)). pose proof (image_pos a v Hc).
  pose proof (blen_nonneg (layout atts vs' (var_nulls atts ns') (q + blen (attr_image a v)))).
  assert (Hcol : (s ← match bind_flag b with
                   | MTB_ByRef => p ← DatumGetPointer v; Some (value_type_could_short p (atttypid a))
                   | _ => Some false end;
            if (s : bool) then p ← DatumGetPointer v;
              size_loop atts bs vs' ns' (u32 (pos + (VARSIZE_ANY_EXHDR p + VARHDRSZ_SHORT)))
            else n ← att_addlength (u32 (att_align pos (attalign a))) (attlen a) v; size_loop atts bs vs' ns' (u32 n)) =
    size_loop atts bs vs' ns' (q + blen (attr_image a v))).
  { assert (Hs : match bind_flag b with
                 | MTB_ByRef => p ← DatumGetPointer v; Some (value_type_could_short p (atttypid a))
                 | _ => Some false end = Some (packed a v)).
    { rewrite Hf. unfold att_flag. rewrite (proj2 (Z.ltb_ge _ _)) by lia.
      destruct v as [z|p]; [destruct Hc as [_ Hin]; set_unfold; lia|]. cbn [packed DatumGetPointer mbind option_bind].
      destruct (Z.eqb_spec (attlen a) (-1)); done. }
    rewrite Hs. cbn [mbind option_bind]. subst q. unfold attr_pad in *. destruct (packed a v) eqn:Ep.
    - destruct v as [z|p]; [done|]. cbn [DatumGetPointer mbind option_bind]. rewrite blen_nil, Z.add_0_r in *.
      by rewrite (packed_size a p Hc Ep), u32_id by lia.
    - rewrite blen_pad in *. replace (pos + (att_align pos (attalign a) - pos)) with (att_align pos (attalign a)) in * by lia.
      rewrite u32_id by lia. rewrite unpacked_size by done. cbn [mbind option_bind]. by rewrite u32_id by lia. }
  rewrite Hcol, IH; [f_equal; lia|done|done|lia|lia].
Qed.

Section Tuple.
Context (junk : MemTupleAttrBinding) (d : TupleDesc) (dropped : list bool) (Hd : desc_ok d dropped).
Context (islarge : bool).

Local Abbreviation pb := (create_memtuple_binding junk d dropped).
Local Abbreviation P := (physical islarge (attrs d) dropped).
Local Abbreviation cb := (colbind pb islarge).
Local Abbreviation base := (first_offset pb).
Local Abbreviation OK := (create_phys_ok junk d dropped Hd islarge).
Local Abbreviation HCB := (create_binding_ok junk d dropped Hd islarge).

Lemma length_phys : length P = length (attrs d).
Proof. apply physical_length, (do_dropped _ _ Hd). Qed.

Lemma column_at i a : attrs d !! i = Some a →
  ∃ p dr b, P !! p = Some (i, (a, dr)) ∧ bindings cb !! i = Some b ∧ bound_at islarge P base p (i, (a, dr)) b ∧
    bind_len_aligned b = aligned_len islarge P p.
Proof.
  intros Ha. pose proof (do_dropped _ _ Hd) as Hl.
  destruct (lookup_lt_is_Some_2 dropped i) as [dr Hdr]; [apply lookup_lt_Some in Ha; lia|].
  assert (Hin : (i, (a, dr)) ∈ P) by (by apply physical_spec). apply list_elem_of_lookup_1 in Hin as [p Hp].
  destruct (co_bound _ _ _ _ HCB p _ Hp) as (b & ? & ? & ?). by exists p, dr, b.
Qed.

Lemma att_valid_at i a : attrs d !! i = Some a → att_valid a.
Proof. intros Ha. by eapply (Forall_lookup_1 _ _ _ _ (do_valid _ _ Hd)). Qed.

Lemma length_binds : length (bindings cb) = length (attrs d).
Proof. rewrite (co_len _ _ _ _ HCB). apply length_phys. Qed.

Lemma binds_flags : Forall2 (λ a b, bind_flag b = att_flag a) (attrs d) (bindings cb).
Proof.
  apply Forall2_same_length_lookup. split; [by rewrite length_binds|]. intros i a b Ha Hb.
  destruct (column_at i a Ha) as (p & dr & b' & _ & Hb' & Hbo & _). simplify_eq.
  rewrite (bo_flag _ _ _ _ _ _ Hbo). apply pass_flag_eq. by eapply att_valid_at.
Qed.

Lemma extra_range : 0 ≤ null_bitmap_extra_size pb < natts d + 8.
Proof.
  cbn [null_bitmap_extra_size create_memtuple_binding]. unfold compute_null_bitmap_extra_size, natts.
  set (al := if existsb _ _ then _ else _). assert (Hal : al = 8 ∨ al = 4) by (unfold al; case_match; auto).
  rewrite Z.shiftr_div_pow2 by lia. set (av := if _ || _ then 0 else 4). assert (Hav : 0 ≤ av ≤ 4) by (unfold av; case_match; lia).
  destruct (Z.leb_spec ((Z.of_nat (length (attrs d)) + 7) `div` 2 ^ 3) av); [lia|].
  destruct Hal as [->| ->]; [rewrite (TYPEALIGN_pow 3)|rewrite (TYPEALIGN_pow 2)]; try lia; divlia.
Qed.

Lemma natts_range : 8 * natts d < 2 ^ 15.
Proof.
  pose proof (do_fits _ _ Hd) as Hf. eapply Z.le_lt_trans; [|exact Hf]. unfold natts, fixed_cap.
  pose proof (do_valid _ _ Hd) as Hv. clear -Hv. induction Hv as [|a atts [Hl _] _ IH]; [done|]. cbn [length foldr].
  assert (8 ≤ col_cap a); [|lia]. unfold col_cap. set (w := if 0 <? attlen a then attlen a else 4).
  assert (0 < w) by (unfold w; destruct (Z.ltb_spec 0 (attlen a)); lia).
  rewrite att_align_eq. change (align_of "d"%char) with 8. divlia.
Qed.

(** Where the offsets count from. *)
Definition tuple_start (hasnull : bool) : Z := if hasnull then null_bitmap_extra_size pb else 0.

Context (ns : list bool) (Hns : length ns = length (attrs d)).

(** The nulls in physical order. *)
Definition phys_null (q : nat) : bool :=
  match P !! q with Some c => default false (ns !! c.1) | None => false end.

(** The length of a column if it is null. *)
Definition null_part (b : MemTupleAttrBinding) (n : bool) : Z := if n then bind_len_aligned b else 0.

Lemma null_length_sum bs nn : ∀ z,
  Forall2 (λ b n, 0 ≤ null_part b n) bs nn → 0 ≤ z → z + sumz (zip_with null_part bs nn) < 2 ^ 32 →
  null_length bs nn true z = z + sumz (zip_with null_part bs nn).
Proof.
  intros z H. revert z. induction H as [|b n bs nn Hb Hr IH]; intros z Hz Hlt; cbn [null_length zip_with]; [cbn; lia|].
  cbn [zip_with] in Hlt. set (S := sumz (zip_with null_part bs nn)) in *.
  assert (0 ≤ S) by (unfold S; clear -Hr; induction Hr; cbn; [done|unfold sumz in *; lia]).
  change (sumz (null_part b n :: zip_with null_part bs nn)) with (null_part b n + S) in *.
  assert (E : (if n then u32 (z + bind_len_aligned b) else z) = z + null_part b n).
  { unfold null_part in *. destruct n; [apply u32_id|]; lia. }
  rewrite E, IH by lia. lia.
Qed.

Lemma null_parts : sumz (zip_with null_part (bindings cb) ns) = sumf (null_len islarge P phys_null) (length P).
Proof.
  set (l := zip_with null_part (bindings cb) ns). set (A := λ j, default 0 (l !! j)).
  assert (Hl : length l = length (attrs d)) by (unfold l; rewrite length_zip_with, length_binds, Hns; lia).
  trans (sumz (A <$> seq 0 (length (attrs d)))).
  { f_equal. apply list_eq. intros i. rewrite list_lookup_fmap. destruct (l !! i) as [x|] eqn:Ei.
    - pose proof (lookup_lt_Some _ _ _ Ei). rewrite lookup_seq_lt by lia. cbn. unfold A. by rewrite Ei.
    - apply lookup_ge_None in Ei. rewrite lookup_seq_ge by lia. done. }
  trans (sumz (A <$> (fst <$> P))).
  { apply sumz_perm, fmap_Permutation. symmetry. apply physical_index_perm, (do_dropped _ _ Hd). }
  symmetry. rewrite <- (length_fmap fst P), <- (length_fmap A (fst <$> P)). apply sumf_sumz. intros q x.
  rewrite !list_lookup_fmap. destruct (P !! q) as [c|] eqn:Ec; [|done]. cbn. intros [= <-].
  unfold null_len, phys_null, A, l. rewrite Ec. destruct (co_bound _ _ _ _ HCB q c Ec) as (b & Hb & _ & Hal).
  rewrite lookup_zip_with, Hb. cbn. destruct (ns !! c.1) as [n|]; cbn; [|done]. unfold null_part. rewrite Hal. by destruct n.
Qed.

Lemma null_length_ok : null_length (bindings cb) ns true 0 = sumf (null_len islarge P phys_null) (length P).
Proof.
  rewrite null_length_sum; [rewrite null_parts; lia| |done|].
  - apply Forall2_same_length_lookup. split; [by rewrite length_binds|]. intros i b n Hb Hn. unfold null_part. destruct n; [|done].
    destruct (lookup_lt_is_Some_2 (attrs d) i) as [a Ha]; [apply lookup_lt_Some in Hn; lia|].
    destruct (column_at i a Ha) as (p & dr & b' & _ & Hb' & _ & Hal). simplify_eq. rewrite Hal. eapply alen_nonneg, OK.
  - rewrite null_parts. pose proof (part_range islarge P base OK phys_null (length P) ltac:(lia)) as Hr.
    unfold null_len. lia.
Qed.

(** *** The size *)

(** Where the variable part starts, and where the tuple ends. *)
Definition data_start (hasnull : bool) : Z :=
  tuple_start hasnull + (var_start cb - sumf (null_len islarge P phys_null) (length P)).
Definition data_end (vs : list Datum) (hasnull : bool) : Z :=
  data_start hasnull + blen (layout (attrs d) vs (var_nulls (attrs d) ns) (data_start hasnull)).

Lemma data_start_range hasnull :
  tuple_start hasnull + place islarge P base phys_null (length P) ≤ data_start hasnull < 2 ^ 17.
Proof.
  unfold data_start. pose proof extra_range. pose proof natts_range.
  assert (0 ≤ tuple_start hasnull < natts d + 8) by (unfold tuple_start; case_match; lia).
  rewrite place_eq. pose proof (ph_range _ _ _ OK) as Hr. destruct (decide (P = [])) as [E|E].
  - assert (En : length (attrs d) = 0%nat) by (rewrite <- length_phys, E; done). rewrite E. cbn [length sumf]. unfold col_offset. cbn [sumf].
    assert (Ev : var_start cb = 8). { unfold natts in *. destruct islarge; cbn; unfold create_col_bind, natts; destruct (bind_previous _ _ _ _) as [[? ?] ?]; cbn [var_start]; by rewrite En. }
    rewrite Ev. lia.
  - rewrite (co_var _ _ _ _ HCB E). pose proof (place_range islarge P base OK phys_null (length P) ltac:(lia)) as Hp.
    rewrite place_eq in Hp. lia.
Qed.

Lemma bind_size_ok vs hasnull :
  row_ok (attrs d) vs ns → hasnull = existsb id ns → data_end vs hasnull < 2 ^ 32 - 8 →
  compute_memtuple_size_using_bind vs ns hasnull (null_bitmap_extra_size pb) cb d true =
    Some (MEMTUP_ALIGN (data_end vs hasnull), sumf (null_len islarge P phys_null) (length P)).
Proof.
  intros Hrow Hh Hlt. unfold compute_memtuple_size_using_bind.
  assert (Es : (if hasnull then null_length (bindings cb) ns true 0 else 0) = sumf (null_len islarge P phys_null) (length P)).
  { destruct hasnull; [apply null_length_ok|]. symmetry. trans (sumf (λ _, 0) (length P)); [|apply sumf_zero].
    apply sumf_ext. intros q _. unfold null_len, phys_null. destruct (P !! q) as [c|]; [|done].
    destruct (ns !! c.1) as [[]|] eqn:En; [|done..]. exfalso. assert (existsb id ns = true); [|congruence].
    apply existsb_exists. exists true. split; [|done]. by eapply list_elem_of_In, list_elem_of_lookup_2. }
  rewrite Es. pose proof (data_start_range hasnull) as Hr. pose proof (place_range islarge P base OK phys_null (length P) ltac:(lia)) as Hp.
  pose proof (ph_range _ _ _ OK). pose proof extra_range.
  assert (0 ≤ tuple_start hasnull) by (unfold tuple_start; case_match; lia).
  replace (var_start cb + (if hasnull then null_bitmap_extra_size pb else 0) - sumf (null_len islarge P phys_null) (length P))
    with (data_start hasnull) by (unfold data_start, tuple_start; lia).
  rewrite u32_id by lia. unfold data_end in Hlt. pose proof (blen_nonneg (layout (attrs d) vs (var_nulls (attrs d) ns) (data_start hasnull))).
  rewrite size_loop_ok; [|apply Hd|done|apply binds_flags|lia|lia]. cbn [mbind option_bind]. fold (data_end vs hasnull).
  assert (Ha : data_end vs hasnull ≤ MEMTUP_ALIGN (data_end vs hasnull) < data_end vs hasnull + 8).
  { unfold MEMTUP_ALIGN. rewrite (TYPEALIGN_pow 3) by lia. divlia. }
  rewrite u32_id by (unfold data_end in *; lia). done.
Qed.
End Tuple.
