(* ===== verification/MemTupleStore.v ===== *)
(** Memtuples: storing the values of a row. *)
From Stdlib Require Import Ascii.
From stdpp Require Import prelude numbers list sorting.
From S2P Require Import Prelude Varlena PgLz HeapTuple HeapTupleForm HeapTupleRead HeapTupleSpec Toast MemTuple MemTupleBind MemTupleForm.

Local Open Scope Z_scope.

(** ** What a buffer holds *)

Definition holds (buf : list Z) (off : Z) (bytes : list Z) : Prop := slice off (blen bytes) buf = bytes.

Lemma holds_write buf pos src : 0 ≤ pos → pos + blen src ≤ blen buf → holds (memcpy buf pos src) pos src.
Proof. intros. by apply slice_memcpy_same. Qed.

Lemma holds_bytes_frame buf pos src off bytes :
  0 ≤ off → 0 ≤ pos → off + blen bytes ≤ pos ∨ pos + blen src ≤ off → holds buf off bytes → holds (memcpy buf pos src) off bytes.
Proof. intros Ho Hp Hd H. unfold holds. rewrite slice_memcpy_disj; [done..|apply blen_nonneg|done]. Qed.

Lemma holds_drop buf off bytes : holds buf off bytes → drop (Z.to_nat off) buf = bytes ++ drop (length bytes) (drop (Z.to_nat off) buf).
Proof.
  intros H. unfold holds, slice, blen in H. rewrite Nat2Z.id in H. rewrite <- H at 1. by rewrite take_drop.
Qed.

Lemma holds_bound buf off bytes : 0 ≤ off → bytes ≠ [] → holds buf off bytes → off + blen bytes ≤ blen buf.
Proof.
  intros Ho Hne H. apply holds_drop in H. apply (f_equal length) in H. rewrite length_drop, length_app in H.
  destruct bytes; [done|]. unfold blen. cbn [length] in *. lia.
Qed.

Lemma holds_bytes_lookup buf off bytes (i : nat) : 0 ≤ off → holds buf off bytes → (i < length bytes)%nat → buf !! (Z.to_nat off + i)%nat = bytes !! i.
Proof.
  intros Ho H Hi. rewrite <- (slice_lookup off (blen bytes)); [by rewrite H|done|]. unfold blen. lia.
Qed.

(** ** Copying *)

Lemma copy_bytes_ok buf pos p n :
  0 ≤ n ≤ blen p → 0 ≤ pos → pos + n ≤ blen buf → copy_bytes buf pos p n = Some (memcpy buf pos (take (Z.to_nat n) p)).
Proof.
  intros Hn Hp Hb. unfold copy_bytes. rewrite read_bytes_ok by done. cbn [mbind option_bind].
  apply write_bytes_ok; [done|]. by rewrite blen_take.
Qed.

Lemma copy_short_ok buf pos p :
  varlena_ok p → VARATT_IS_SHORT p = false → VARATT_COULD_SHORT p = true → 0 ≤ pos → pos + blen (shrink p) ≤ blen buf →
  copy_short buf pos p = Some (memcpy buf pos (shrink p)).
Proof.
  intros Hp H1 Hc Hpos Hb. destruct (shrink_header p Hp H1 Hc) as (_ & Hr & El). destruct (varlena_4b p Hp H1) as [_ Hs].
  unfold copy_short. rewrite write_bytes_ok; [|done|rewrite blen_cons, blen_nil; lia]. cbn [mbind option_bind].
  unfold VARHDRSZ, VARHDRSZ_SHORT. replace (VARSIZE p - 4 + 1 - 1) with (VARSIZE p - 4) by lia.
  assert (Hv : VARSIZE p - 4 ≤ blen (VARDATA p)) by (unfold VARDATA, VARHDRSZ, blen in *; rewrite length_drop; lia).
  rewrite copy_bytes_ok by (rewrite ?blen_memcpy; lia). f_equal. change 1 with (blen [VARSIZE_TO_SHORT p]) at 1.
  by rewrite memcpy_app.
Qed.

Lemma store_varlena_ok a p buf v :
  attlen a = -1 → varlena_ok p → 0 ≤ v → attr_start a (ByRef p) v + blen (attr_image a (ByRef p)) ≤ blen buf →
  store_varlena a p buf v =
    Some (memcpy buf (attr_start a (ByRef p) v) (attr_image a (ByRef p)), attr_start a (ByRef p) v, blen (attr_image a (ByRef p))).
Proof.
  intros Ea Hp Hv. pose proof (att_align_range v (attalign a)) as Har. unfold store_varlena. rewrite image_byref by done.
  destruct (varlena_cases p Hp) as [_ Hcase]. unfold attr_start, packed. rewrite Ea. cbn [Z.eqb Pos.eqb andb].
  unfold value_type_could_short.
  destruct Hcase as [(HE & HS & Hsz & Hl)|[(HE & HS & Hsz & Hr & Hl)|(HE & HS & Hsz & Hr)]]; rewrite HE, ?HS; cbn [negb andb orb].
  - intros Hb. rewrite blen_take in * by lia. change (VARSIZE_EXTERNAL p) with 20. rewrite Hsz in *.
    rewrite copy_bytes_ok by lia. done.
  - intros Hb. rewrite blen_take in * by lia. rewrite Hsz in *. rewrite copy_bytes_ok by lia. done.
  - assert (HS' : VARATT_IS_SHORT p = false) by done.
    destruct (VARATT_COULD_SHORT p && negb (atttypid a =? INT2VECTOROID) && negb (atttypid a =? OIDVECTOROID) &&
      (atttypid a <? FirstNormalObjectId)) eqn:Ec; cbn [andb negb].
    + assert (Hc : VARATT_COULD_SHORT p = true) by (by destruct (VARATT_COULD_SHORT p)).
      destruct (shrink_header p Hp HS Hc) as (_ & _ & El). intros Hb. rewrite copy_short_ok by done. cbn [mbind option_bind].
      rewrite El. unfold VARHDRSZ, VARHDRSZ_SHORT. do 2 f_equal. lia.
    + intros Hb. rewrite blen_take in * by lia. rewrite Hsz in *. rewrite copy_bytes_ok by lia. done.
Qed.

Lemma store_cstring_ok a p buf v :
  attlen a = -2 → is_Some (strlen p) → 0 ≤ v → attr_start a (ByRef p) v + blen (attr_image a (ByRef p)) ≤ blen buf →
  store_cstring a p buf v =
    Some (memcpy buf (attr_start a (ByRef p) v) (attr_image a (ByRef p)), attr_start a (ByRef p) v, blen (attr_image a (ByRef p))).
Proof.
  intros Ea [n Hn] Hv. pose proof (att_align_range v (attalign a)) as Har. pose proof (strlen_range _ _ Hn).
  unfold store_cstring, attr_start, packed, attr_image. rewrite Ea, Hn. cbn [Z.eqb Pos.eqb andb default from_option id mbind option_bind].
  rewrite blen_take by lia. intros Hb. rewrite copy_bytes_ok by lia. done.
Qed.

(** ** Columns *)

(** A column of a tuple, and where its part of fixed length is. *)
Record slot := mkSlot {
  s_att : Form_pg_attribute;
  s_bind : MemTupleAttrBinding;
  s_val : Datum;
  s_null : bool;
  s_ptr : Z
}.

(** The position in the variable part after a column. *)
Definition var_next (c : slot) (v : Z) : Z :=
  if s_null c || (0 <? attlen (s_att c)) then v
  else attr_start (s_att c) (s_val c) v + blen (attr_image (s_att c) (s_val c)).

Fixpoint var_end (cs : list slot) (v : Z) : Z :=
  match cs with [] => v | c :: cs => var_end cs (var_next c v) end.

Lemma var_end_layout cs : ∀ v,
  var_end cs v = v + blen (layout (s_att <$> cs) (s_val <$> cs) (var_nulls (s_att <$> cs) (s_null <$> cs)) v).
Proof.
  induction cs as [|c cs IH]; intros v; cbn [var_end fmap list_fmap var_nulls zip_with layout]; [by rewrite blen_nil, Z.add_0_r|].
  unfold var_next. destruct (s_null c || (0 <? attlen (s_att c))); [apply IH|]. rewrite IH, !blen_app, attr_start_pad.
  unfold var_nulls. lia.
Qed.

Section Store.
(** The header, which the place of a column is computed from; where the offsets
    count from, and where the variable part starts. *)
Context (start : Z) (saves : option (list Z)) (nullp : option Z) (hdr : list Z) (V0 : Z).

(** The column [c] is in the buffer, [off] being where its data are. *)
Definition stored_at (c : slot) (buf : list Z) (off : Z) : Prop :=
  holds buf off (attr_image (s_att c) (s_val c)) ∧
  if 0 <? attlen (s_att c) then off = s_ptr c
  else holds buf (s_ptr c) (Z_to_little_endian (bind_len (s_bind c)) 8 (off - start)) ∧
       0 ≤ off - start < 2 ^ (8 * bind_len (s_bind c)) ∧ V0 ≤ off.

Record slot_ok (c : slot) : Prop := {
  so_valid : att_valid (s_att c);
  so_value : attr_ok (s_att c) (s_val c);
  so_flag : bind_flag (s_bind c) = att_flag (s_att c);
  so_len : if 0 <? attlen (s_att c) then bind_len (s_bind c) = attlen (s_att c) else bind_len (s_bind c) ∈ [2; 4];
  so_bpchar : 0 < attlen (s_att c) → atttypid (s_att c) ≠ BPCHAROID;
  so_ptr buf : holds buf 0 hdr →
    memtuple_get_attr_ptr start (s_bind c) saves ((λ o, drop (Z.to_nat o) buf) <$> nullp) = Some (s_ptr c);
  so_after : blen hdr ≤ s_ptr c;
  so_before : s_ptr c + bind_len (s_bind c) ≤ V0
}.

(** What is not in the regions that are written stays. *)
Definition frame (c : slot) (v v' : Z) (buf buf' : list Z) : Prop :=
  ∀ off bytes, 0 ≤ off → off + blen bytes ≤ s_ptr c ∨ s_ptr c + bind_len (s_bind c) ≤ off →
    off + blen bytes ≤ v ∨ v' ≤ off → holds buf off bytes → holds buf' off bytes.

Lemma store_fixed_ok c buf v :
  slot_ok c → 0 < attlen (s_att c) → holds buf 0 hdr → V0 ≤ v → v ≤ blen buf →
  store_attr (s_att c) (s_bind c) (s_val c) start saves nullp buf v =
    ok (memcpy buf (s_ptr c) (attr_image (s_att c) (s_val c)), v).
Proof.
  intros [Ha Hv Hf Hl Hbp Hp Haft Hbef] Hpos Hh HV Hb. rewrite (proj2 (Z.ltb_lt _ _) Hpos) in Hl.
  pose proof (image_fixed _ _ Hv Hpos) as Hi. pose proof (blen_nonneg hdr).
  unfold store_attr. rewrite Hf, (Hp buf Hh). unfold att_flag. rewrite (proj2 (Z.ltb_lt _ _) Hpos).
  destruct (s_val c) as [z|p]; cbn [attr_ok] in Hv.
  - destruct Hv as [-> Hin]. cbn [lift_opt fmap option_fmap option_map res_bind]. unfold store_att_byval. rewrite Hl.
    assert (Eb : (attlen (s_att c) =? 1) || (attlen (s_att c) =? 2) || (attlen (s_att c) =? 4) || (attlen (s_att c) =? 8) = true).
    { set_unfold in Hin. destruct Hin as [->|[->|[->|[->|[]]]]]; done. }
    rewrite Eb. cbn [attr_image] in *. rewrite write_bytes_ok by lia. done.
  - destruct Hv as [-> Hv]. cbn [lift_opt DatumGetPointer fmap option_fmap option_map res_bind].
    rewrite (proj2 (Z.eqb_neq _ _) (Hbp Hpos)). cbn [negb]. destruct Hv as [[? _]|[[? _]|Hv]]; [lia..|].
    rewrite Hl. rewrite copy_bytes_ok by lia. unfold attr_image.
    rewrite (proj2 (Z.eqb_neq (attlen (s_att c)) (-1))), (proj2 (Z.eqb_neq (attlen (s_att c)) (-2))) by lia. done.
Qed.

Lemma store_var_ok c buf v :
  slot_ok c → attlen (s_att c) < 0 → holds buf 0 hdr → 0 ≤ V0 ≤ v → start ≤ v →
  let off := attr_start (s_att c) (s_val c) v in
  let v' := off + blen (attr_image (s_att c) (s_val c)) in
  v' ≤ blen buf → v' - start < 2 ^ (8 * bind_len (s_bind c)) →
  store_attr (s_att c) (s_bind c) (s_val c) start saves nullp buf v =
    ok (memcpy (memcpy buf off (attr_image (s_att c) (s_val c))) (s_ptr c)
          (Z_to_little_endian (bind_len (s_bind c)) 8 (off - start)), v').
Proof.
  intros [Ha Hv Hf Hl Hbp Hp Haft Hbef] Hneg Hh HV Hs off v' Hb Hlim. rewrite (proj2 (Z.ltb_ge _ _)) in Hl by lia.
  assert (Hc : bind_len (s_bind c) = 2 ∨ bind_len (s_bind c) = 4) by (set_unfold in Hl; lia).
  pose proof (blen_nonneg hdr). pose proof (image_pos _ _ Hv) as Hi.
  assert (Hoff : v ≤ off) by (unfold off; rewrite attr_start_pad; pose proof (blen_nonneg (attr_pad (s_att c) (s_val c) v)); lia).
  assert (Hlim' : 0 ≤ off - start < 2 ^ (8 * bind_len (s_bind c))) by (unfold v' in Hlim; lia).
  assert (Hex : ∃ p, s_val c = ByRef p).
  { destruct (s_val c) as [z|p]; [destruct Hv as [_ Hin]; set_unfold; lia|by exists p]. }
  destruct Hex as [p Ev].
  unfold store_attr. rewrite Hf. unfold att_flag. rewrite (proj2 (Z.ltb_ge _ _)) by lia.
  assert (Hst : match (if attlen (s_att c) =? -1 then MTB_ByRef else MTB_ByRef_CStr) with
                | MTB_ByRef => store_varlena (s_att c) p buf v | _ => store_cstring (s_att c) p buf v end =
                Some (memcpy buf off (attr_image (s_att c) (s_val c)), off, blen (attr_image (s_att c) (s_val c)))).
  { assert (Hb' : attr_start (s_att c) (ByRef p) v + blen (attr_image (s_att c) (ByRef p)) ≤ blen buf) by (by rewrite <- Ev).
    unfold off. rewrite Ev in Hv |- *. destruct Hv as [_ [[Ea Hv]|[[Ea Hv]|?]]]; [..|lia]; rewrite Ea; cbn [Z.eqb Pos.eqb].
    - apply store_varlena_ok; (done || lia).
    - apply store_cstring_ok; (done || lia). }
  assert (Hh' : holds (memcpy buf off (attr_image (s_att c) (s_val c))) 0 hdr) by (apply holds_bytes_frame; [lia|lia|left; lia|done]).
  assert (Hw : store_offset (s_bind c) (memcpy buf off (attr_image (s_att c) (s_val c))) (s_ptr c) (off - start) =
    Some (memcpy (memcpy buf off (attr_image (s_att c) (s_val c))) (s_ptr c) (Z_to_little_endian (bind_len (s_bind c)) 8 (off - start)))).
  { unfold store_offset. destruct Hc as [Ec|Ec]; rewrite Ec in *; cbn [Z.eqb Pos.eqb]; [unfold u16|unfold u32];
      rewrite Z.mod_small by exact Hlim'; apply write_bytes_ok; try lia;
      rewrite blen_memcpy; unfold blen; rewrite length_le_bytes by lia; unfold blen in *; lia. }
  assert (Hdp : DatumGetPointer (s_val c) = Some p) by (by rewrite Ev). revert Hst.
  destruct (attlen (s_att c) =? -1); intros Hst; rewrite Hdp; cbn [lift_opt fmap option_fmap option_map res_bind];
    rewrite Hst; cbn [lift_opt fmap option_fmap option_map res_bind]; rewrite (Hp _ Hh');
    cbn [lift_opt fmap option_fmap option_map res_bind]; rewrite Hw; reflexivity.
Qed.

(** Storing one column. *)
Lemma store_attr_ok c buf v :
  slot_ok c → s_null c = false → holds buf 0 hdr → 0 ≤ V0 ≤ v → start ≤ v →
  var_next c v ≤ blen buf → (attlen (s_att c) < 0 → var_next c v - start < 2 ^ (8 * bind_len (s_bind c))) →
  ∃ buf' off, store_attr (s_att c) (s_bind c) (s_val c) start saves nullp buf v = ok (buf', var_next c v) ∧
    blen buf' = blen buf ∧ stored_at c buf' off ∧ frame c v (var_next c v) buf buf' ∧
    (attlen (s_att c) < 0 → v ≤ off ∧ off + blen (attr_image (s_att c) (s_val c)) = var_next c v).
Proof.
  intros Hc Hn Hh HV Hs Hb Hlim. pose proof (blen_nonneg hdr). pose proof Hc as [Ha Hv Hf Hl _ _ Haft Hbef].
  unfold var_next, stored_at, frame in *. rewrite Hn in *. cbn [orb] in *. destruct (Z.ltb_spec 0 (attlen (s_att c))) as [Hpos|Hneg].
  - pose proof (image_fixed _ _ Hv Hpos) as Hi. eexists _, (s_ptr c). split; [by apply store_fixed_ok; [..|lia|lia]|].
    split; [apply blen_memcpy|]. split; [split; [apply holds_write; lia|done]|]. split; [|lia].
    intros off bytes Ho Hd _ Hho. apply holds_bytes_frame; [done|lia|lia|done].
  - assert (Hneg' : attlen (s_att c) < 0) by (destruct (av_len _ Ha); lia). specialize (Hlim Hneg').
    assert (Hc2 : bind_len (s_bind c) = 2 ∨ bind_len (s_bind c) = 4) by (set_unfold in Hl; lia).
    pose proof (image_pos _ _ Hv) as Hi. set (off := attr_start (s_att c) (s_val c) v) in *.
    assert (Hoff : v ≤ off) by (unfold off; rewrite attr_start_pad; pose proof (blen_nonneg (attr_pad (s_att c) (s_val c) v)); lia).
    assert (Hle : blen (Z_to_little_endian (bind_len (s_bind c)) 8 (off - start)) = bind_len (s_bind c)).
    { unfold blen. rewrite length_le_bytes; lia. }
    eexists _, off. split; [by apply store_var_ok; [..|lia|lia|lia|lia]|]. fold off. rewrite !blen_memcpy. split; [done|].
    split; [split; [|split; [|lia]]|split; [|by split]].
    + apply holds_bytes_frame; [lia|lia|right; lia|]. apply holds_write; lia.
    + apply holds_write; [lia|]. rewrite blen_memcpy. lia.
    + intros o bytes Ho Hd Hd' Hho. apply holds_bytes_frame; [done|lia|lia|]. apply holds_bytes_frame; [done|lia|lia|done].
Qed.

Lemma slot_len_pos c : slot_ok c → 0 < bind_len (s_bind c).
Proof. intros [_ _ _ Hl _ _ _ _]. destruct (Z.ltb_spec 0 (attlen (s_att c))); set_unfold in Hl; lia. Qed.

(** Columns that do not overlap. *)
Definition apart (c c' : slot) : Prop :=
  s_null c = false → s_null c' = false →
  s_ptr c + bind_len (s_bind c) ≤ s_ptr c' ∨ s_ptr c' + bind_len (s_bind c') ≤ s_ptr c.

Lemma var_next_le c v : (s_null c = false → attr_ok (s_att c) (s_val c)) → v ≤ var_next c v.
Proof.
  intros Hv. unfold var_next. destruct (s_null c); cbn [orb]; [done|]. case_match; [done|].
  rewrite attr_start_pad. pose proof (blen_nonneg (attr_pad (s_att c) (s_val c) v)). pose proof (image_pos _ _ (Hv eq_refl)). lia.
Qed.

Lemma var_end_le cs : Forall (λ c, s_null c = false → slot_ok c) cs → ∀ v, v ≤ var_end cs v.
Proof.
  induction 1 as [|c cs Hc _ IH]; intros v; [done|]. cbn [var_end]. etrans; [apply (var_next_le c v)|apply IH].
  intros Hn. apply so_value. by apply Hc.
Qed.

Lemma store_loop_ok cs : StronglySorted apart cs → Forall (λ c, s_null c = false → slot_ok c) cs → ∀ buf v,
  holds buf 0 hdr → 0 ≤ V0 ≤ v → start ≤ v → var_end cs v ≤ blen buf →
  (∀ c, c ∈ cs → s_null c = false → attlen (s_att c) < 0 → var_end cs v - start < 2 ^ (8 * bind_len (s_bind c))) →
  ∃ buf', store_loop (s_att <$> cs) (s_bind <$> cs) (s_val <$> cs) (s_null <$> cs) start saves nullp buf v = ok (buf', var_end cs v) ∧
    blen buf' = blen buf ∧ Forall (λ c, s_null c = false → ∃ off, stored_at c buf' off ∧ off + blen (attr_image (s_att c) (s_val c)) ≤ var_end cs v) cs ∧
    (∀ off bytes, 0 ≤ off → (∀ c, c ∈ cs → s_null c = false → off + blen bytes ≤ s_ptr c ∨ s_ptr c + bind_len (s_bind c) ≤ off) →
       off + blen bytes ≤ v ∨ var_end cs v ≤ off → holds buf off bytes → holds buf' off bytes).
Proof.
  intros Hap Hok. revert Hap. induction Hok as [|c cs Hc Hcs IH]; intros Hap buf v Hh HV Hs Hb Hlim.
  { exists buf. by split_and!. }
  apply StronglySorted_cons in Hap as [Hh1 Hap]. cbn [fmap list_fmap store_loop var_end] in *.
  pose proof (var_end_le cs Hcs (var_next c v)) as Hve.
  destruct (s_null c) eqn:En.
  { assert (Env : var_next c v = v) by (unfold var_next; by rewrite En). rewrite Env in *. cbn [res_bind ok].
    destruct (IH Hap buf v) as (buf' & E & Hl & Hst & Hfr); [done..| |]. { intros c' Hc'. apply Hlim. set_solver. }
    exists buf'. split; [done|]. split; [done|]. split; [constructor; [congruence|done]|].
    intros off bytes Ho Hd. apply Hfr; [done|]. intros c' Hc'. apply Hd. set_solver. }
  specialize (Hc eq_refl).
  destruct (store_attr_ok c buf v Hc En Hh HV Hs) as (buf1 & off1 & E1 & Hl1 & Hst1 & Hfr1 & Hv1); [lia| |].
  { intros Hneg. specialize (Hlim c ltac:(set_solver) En Hneg). lia. }
  rewrite E1. cbn [res_bind ok]. pose proof (var_next_le c v (λ _, so_value _ Hc)) as Hvn.
  pose proof (so_after _ Hc) as Haft. pose proof (so_before _ Hc) as Hbef. pose proof (so_value _ Hc) as Hval. pose proof (slot_len_pos _ Hc) as Hlp.
  pose proof (blen_nonneg hdr) as Hh0. pose proof (image_pos _ _ Hval) as Hip.
  destruct (IH Hap buf1 (var_next c v)) as (buf' & E & Hl & Hst & Hfr).
  - apply Hfr1; [lia|left; lia|left; lia|done].
  - lia.
  - lia.
  - by rewrite Hl1.
  - intros c' Hc'. apply Hlim. set_solver.
  - exists buf'. change (list_fmap slot Form_pg_attribute s_att cs) with (s_att <$> cs).
    change (list_fmap slot MemTupleAttrBinding s_bind cs) with (s_bind <$> cs).
    change (list_fmap slot Datum s_val cs) with (s_val <$> cs). change (list_fmap slot bool s_null cs) with (s_null <$> cs).
    split; [done|]. split; [congruence|]. rewrite Forall_forall in Hh1, Hcs.
    assert (Hkeep : ∀ o bytes, 0 ≤ o → (∀ c', c' ∈ cs → s_null c' = false → o + blen bytes ≤ s_ptr c' ∨ s_ptr c' + bind_len (s_bind c') ≤ o) →
      o + blen bytes ≤ var_next c v → holds buf1 o bytes → holds buf' o bytes).
    { intros o bytes Ho Hd Hle. apply Hfr; [done|done|by left]. }
    split; [constructor; [|done]|].
    + intros _. exists off1. unfold stored_at in Hst1 |- *. destruct Hst1 as [Hi1 Hst1].
      pose proof (so_len _ Hc) as Hlen. destruct (Z.ltb_spec 0 (attlen (s_att c))) as [Hpos|Hneg].
      * subst off1. pose proof (image_fixed _ _ Hval Hpos). split; [|lia]. split; [|done]. apply Hkeep; [lia| |lia|done].
        intros c' Hc' Hn'. destruct (Hh1 c' Hc' En Hn'); lia.
      * assert (Hc2 : bind_len (s_bind c) = 2 ∨ bind_len (s_bind c) = 4) by (set_unfold in Hlen; lia).
        destruct Hst1 as (Hp1 & Hr1 & HV1). destruct (Hv1 ltac:(destruct (av_len _ (so_valid _ Hc)); lia)) as [Hvo Hve1].
        split; [|lia]. split; [|split; [|done]].
        -- apply Hkeep; [lia| |lia|done]. intros c' Hc' Hn'. right. pose proof (so_before _ (Hcs c' Hc' Hn')). lia.
        -- assert (Hle : blen (Z_to_little_endian (bind_len (s_bind c)) 8 (off1 - start)) = bind_len (s_bind c)).
           { unfold blen. rewrite length_le_bytes; lia. }
           apply Hkeep; [lia| |lia|done]. intros c' Hc' Hn'. rewrite Hle. destruct (Hh1 c' Hc' En Hn'); lia.
    + intros off bytes Ho Hd Hd' Hho. apply Hfr; [done| | |].
      * intros c' Hc'. apply Hd. set_solver.
      * lia.
      * apply Hfr1; [done|apply Hd; [set_solver|done]|lia|done].
Qed.
End Store.
