(* ===== verification/MemTupleFill.v ===== *)
(** Memtuples: the header and the null bitmap, and the whole tuple. *)
From Stdlib Require Import Ascii.
From stdpp Require Import prelude numbers list sorting.
From S2P Require Import Prelude Varlena PgLz HeapTuple HeapTupleForm HeapTupleRead HeapTupleSpec Toast.
From S2P Require Import MemTuple MemTupleBind MemTupleForm MemTupleStore.

Local Open Scope Z_scope.

(** ** The null bitmap *)

(** The bit of the column at the physical position [p]. *)
Definition bit_of (b : MemTupleAttrBinding) (p : nat) : Prop :=
  null_byte b = Z.of_nat p `div` 8 ∧ null_mask b = 2 ^ (Z.of_nat p `mod` 8).

Definition any_null (ps : list nat) (nn : list bool) (q : nat) : bool :=
  existsb (λ x : nat * bool, x.2 && bool_decide (x.1 = q)) (zip ps nn).

Lemma byte_lor x k : is_byte x → 0 ≤ k < 8 → is_byte (Z.lor x (2 ^ k)).
Proof.
  unfold is_byte. intros Hx Hk. split; [apply Z.lor_nonneg; split; [lia|]; apply Z.pow_nonneg; lia|].
  apply Z.log2_lt_cancel. rewrite Z.log2_lor, Z.log2_pow2, Z.log2_pow2 by (try apply Z.pow_nonneg; lia).
  pose proof (Z.log2_lt_pow2 x 8). destruct (decide (x = 0)) as [->|]; [cbn; lia|]. lia.
Qed.

Lemma null_bit_set bits (p q : nat) x :
  bits !! Z.to_nat (Z.of_nat p `div` 8) = Some x → is_byte x →
  null_bit (<[Z.to_nat (Z.of_nat p `div` 8) := Z.lor x (2 ^ (Z.of_nat p `mod` 8))]> bits) q =
    null_bit bits q || bool_decide (p = q).
Proof.
  intros Hx Hb. unfold null_bit. pose proof (lookup_lt_Some _ _ _ Hx) as Hlt.
  destruct (decide (Z.of_nat q `div` 8 = Z.of_nat p `div` 8)) as [E|E].
  - rewrite E, list_lookup_insert_eq, Hx by done. cbn [default from_option id]. rewrite Z.lor_spec, Z.pow2_bits_eqb by divlia. f_equal.
    destruct (Z.eqb_spec (Z.of_nat p `mod` 8) (Z.of_nat q `mod` 8)); symmetry; [apply bool_decide_eq_true|apply bool_decide_eq_false]; [divlia|].
    intros ->. done.
  - rewrite list_lookup_insert_ne by divlia. rewrite bool_decide_false, orb_false_r; [done|]. by intros ->.
Qed.

Lemma set_null_bits_ok binds ps nn nb : Forall2 bit_of binds ps → (∀ p, p ∈ ps → Z.of_nat p `div` 8 < nb) →
  ∀ nullp buf, 0 ≤ nullp → length nn = length ps → nullp + nb ≤ blen buf →
  (∀ B, (Z.of_nat B < nb) → ∃ x, buf !! (Z.to_nat nullp + B)%nat = Some x ∧ is_byte x) →
  ∃ buf', set_null_bits binds nn nullp buf = Some buf' ∧ blen buf' = blen buf ∧
    (∀ B, (Z.of_nat B < nb) → ∃ x, buf' !! (Z.to_nat nullp + B)%nat = Some x ∧ is_byte x) ∧
    (∀ q, null_bit (drop (Z.to_nat nullp) buf') q = null_bit (drop (Z.to_nat nullp) buf) q || any_null ps nn q) ∧
    (∀ j : nat, Z.of_nat j < nullp → buf' !! j = buf !! j).
Proof.
  intros Hbs Hps nullp buf Hn. revert nn buf.
  induction Hbs as [|b p binds ps [Hby Hm] _ IH]; intros [|n nn] buf Hl Hlen Hbytes; try done.
  { exists buf. split_and!; try done. intros q. unfold any_null. by rewrite orb_false_r. }
  cbn [set_null_bits]. pose proof (Hps p ltac:(set_solver)) as Hp.
  destruct (Hbytes (Z.to_nat (Z.of_nat p `div` 8)) ltac:(divlia)) as (x & Hx & Hxb).
  set (buf1 := if n then <[Z.to_nat (nullp + null_byte b) := Z.lor x (null_mask b)]> buf else buf).
  assert (E1 : (if n then x0 ← buf !! Z.to_nat (nullp + null_byte b);
                 Some (<[Z.to_nat (nullp + null_byte b) := Z.lor x0 (null_mask b)]> buf) else Some buf) = Some buf1).
  { unfold buf1. destruct n; [|done]. rewrite Hby. replace (Z.to_nat (nullp + Z.of_nat p `div` 8)) with
      (Z.to_nat nullp + Z.to_nat (Z.of_nat p `div` 8))%nat by divlia. by rewrite Hx. }
  assert (Ei : Z.to_nat (nullp + null_byte b) = (Z.to_nat nullp + Z.to_nat (Z.of_nat p `div` 8))%nat) by (rewrite Hby; divlia).
  rewrite E1. cbn [mbind option_bind]. pose proof (lookup_lt_Some _ _ _ Hx) as Hlt.
  destruct (IH (λ p' Hp', Hps p' ltac:(set_solver)) nn buf1) as (buf' & E & Hl' & Hb' & Hq & Hj).
  - cbn in Hl. lia.
  - unfold buf1. destruct n; [|done]. unfold blen in *. by rewrite length_insert.
  - intros B HB. unfold buf1. destruct n; [|by apply Hbytes]. rewrite Ei.
    destruct (decide (B = Z.to_nat (Z.of_nat p `div` 8))) as [->|Hne].
    + rewrite list_lookup_insert_eq by done. eexists. split; [done|]. rewrite Hm. apply byte_lor; [done|divlia].
    + rewrite list_lookup_insert_ne by lia. by apply Hbytes.
  - exists buf'. split; [done|]. split; [rewrite Hl'; unfold buf1; destruct n; [unfold blen; by rewrite length_insert|done]|].
    split; [done|]. split.
    + intros q. rewrite Hq. unfold any_null. cbn [zip zip_with existsb fst snd]. unfold buf1. destruct n; cbn [andb orb]; [|done].
      rewrite Ei, Hm, drop_insert_ge by lia. rewrite Nat.add_comm, Nat.add_sub.
      rewrite null_bit_set by (done || by rewrite lookup_drop). by rewrite orb_assoc.
    + intros j Hjn. rewrite Hj by done. unfold buf1. destruct n; [|done]. rewrite Ei. apply list_lookup_insert_ne. lia.
Qed.

(** ** The header *)

Definition head_word (len : Z) (islarge hasext hasnull : bool) : Z :=
  let w := Z.lor len MEMTUP_LEAD_BIT in
  let w := if islarge then Z.lor w MEMTUP_LARGETUP else w in
  let w := if hasext then Z.lor w MEMTUP_HASEXTERNAL else w in
  if hasnull then Z.lor w MEMTUP_HASNULL else w.

Lemma head_word_sum len islarge hasext hasnull : (8 | len) → 0 ≤ len < 2 ^ 31 →
  head_word len islarge hasext hasnull =
    len + 2 ^ 31 + (if islarge then 2 else 0) + (if hasext then 4 else 0) + (if hasnull then 1 else 0).
Proof.
  intros [k ->] Hk. unfold head_word. set (f := (if islarge then 2 else 0) + (if hasext then 4 else 0) + (if hasnull then 1 else 0)).
  assert (Hl : ∀ g, 0 ≤ g < 8 → Z.lor (k * 8 + 2 ^ 31) g = k * 8 + 2 ^ 31 + g).
  { intros g Hg. replace (k * 8 + 2 ^ 31) with (Z.shiftl (k + 2 ^ 28) 3)
      by (rewrite Z.shiftl_mul_pow2 by lia; change (2 ^ 31) with (2 ^ 28 * 2 ^ 3); change (2 ^ 3) with 8; ring).
    rewrite Z.lor_comm, lor_shiftl_add by lia. lia. }
  assert (E0 : Z.lor (k * 8) MEMTUP_LEAD_BIT = k * 8 + 2 ^ 31).
  { change MEMTUP_LEAD_BIT with (Z.shiftl 1 31). rewrite lor_shiftl_add, Z.shiftl_mul_pow2 by lia. lia. }
  rewrite E0. unfold MEMTUP_LARGETUP, MEMTUP_HASEXTERNAL, MEMTUP_HASNULL.
  destruct islarge, hasext, hasnull; rewrite <- ?Z.lor_assoc;
    repeat match goal with |- context [Z.lor (Zpos ?a) (Zpos ?b)] =>
      let v := eval vm_compute in (Z.lor (Zpos a) (Zpos b)) in change (Z.lor (Zpos a) (Zpos b)) with v end;
    rewrite ?Hl by lia; lia.
Qed.

Lemma head_word_reads len islarge hasext hasnull : (8 | len) → 0 ≤ len < 2 ^ 31 →
  let w := head_word len islarge hasext hasnull in
  0 ≤ w < 2 ^ 32 ∧ Z.land w MEMTUP_LEN_MASK = len ∧ negb (Z.land w MEMTUP_LARGETUP =? 0) = islarge ∧
  negb (Z.land w MEMTUP_HASEXTERNAL =? 0) = hasext ∧ negb (Z.land w MEMTUP_HASNULL =? 0) = hasnull ∧
  negb (Z.land w MEMTUP_LEAD_BIT =? 0) = true.
Proof.
  intros Hd Hr w. assert (Hw : w = len + 2 ^ 31 + (if islarge then 2 else 0) + (if hasext then 4 else 0) + (if hasnull then 1 else 0))
    by (by apply head_word_sum). destruct Hd as [k ->]. split; [destruct islarge, hasext, hasnull; lia|].
  change MEMTUP_LARGETUP with (2 ^ 1). change MEMTUP_HASEXTERNAL with (2 ^ 2). change MEMTUP_HASNULL with (2 ^ 0).
  change MEMTUP_LEAD_BIT with (2 ^ 31).
  rewrite !land_pow2_bit by lia. split_and!.
  - change MEMTUP_LEN_MASK with (Z.shiftl (Z.ones 28) 3). apply Z.bits_inj'. intros i Hi. rewrite Z.land_spec.
    destruct (Z.ltb_spec i 3) as [Hi3|Hi3].
    + rewrite (Z.shiftl_spec_low _ 3) by lia. rewrite andb_false_r. symmetry. change 8 with (2 ^ 3). by rewrite Z.mul_pow2_bits_low.
    + rewrite Z.shiftl_spec by lia. change 8 with (2 ^ 3). rewrite Z.mul_pow2_bits by lia.
      assert (Ew : w = (k + 2 ^ 28) * 2 ^ 3 + ((if islarge then 2 else 0) + (if hasext then 4 else 0) + (if hasnull then 1 else 0))) by lia.
      assert (Hwd : Z.testbit w i = Z.testbit (k + 2 ^ 28) (i - 3)).
      { replace i with ((i - 3) + 3) at 1 by lia. rewrite <- Z.div_pow2_bits by lia. f_equal. rewrite Ew.
        rewrite Z.div_add_l by lia. rewrite Z.div_small by (destruct islarge, hasext, hasnull; lia). lia. }
      rewrite Hwd, Z.testbit_ones_nonneg by lia. destruct (Z.ltb_spec (i - 3) 28).
      * rewrite andb_true_r. rewrite <- (Z.mod_pow2_bits_low (k + 2 ^ 28) 28), <- (Z.mod_pow2_bits_low k 28) by lia.
        f_equal. rewrite <- (Z.mod_add k 1 (2 ^ 28)) by lia. done.
      * rewrite andb_false_r. symmetry. destruct (decide (k = 0)) as [->|]; [apply Z.bits_0|].
        apply Z.bits_above_log2; [lia|]. pose proof (Z.log2_lt_pow2 k 28). lia.
  - rewrite Z.testbit_eqb by lia. destruct islarge, hasext, hasnull; apply Z.eqb_eq || apply Z.eqb_neq; divlia.
  - rewrite Z.testbit_eqb by lia. destruct islarge, hasext, hasnull; apply Z.eqb_eq || apply Z.eqb_neq; divlia.
  - rewrite Z.testbit_eqb by lia. destruct islarge, hasext, hasnull; apply Z.eqb_eq || apply Z.eqb_neq; divlia.
  - rewrite Z.testbit_eqb by lia. destruct islarge, hasext, hasnull; apply Z.eqb_eq || apply Z.eqb_neq; divlia.
Qed.

(** *** Changing the header *)

Lemma mt_len_wr v b : 4 ≤ blen b → 0 ≤ v < 2 ^ 32 → mt_len (wr 4 0 v b) = v.
Proof. intros Hb Hv. unfold mt_len. rewrite rd_wr_same by lia. by apply Z.mod_small. Qed.

Lemma land_u32 x y : 0 ≤ x < 2 ^ 32 → 0 ≤ Z.land x y < 2 ^ 32.
Proof.
  intros Hx. assert (E : Z.land x y = Z.land x y `mod` 2 ^ 32); [|rewrite E; apply Z.mod_pos_bound; lia].
  rewrite <- Z.land_ones, <- Z.land_assoc, (Z.land_comm y), Z.land_assoc, (Z.land_ones x), (Z.mod_small x) by lia. done.
Qed.

Lemma lor_u32 x y : 0 ≤ x < 2 ^ 32 → 0 ≤ y < 2 ^ 32 → 0 ≤ Z.lor x y < 2 ^ 32.
Proof.
  intros Hx Hy. assert (E : Z.lor x y = Z.lor x y `mod` 2 ^ 32); [|rewrite E; apply Z.mod_pos_bound; lia].
  rewrite <- Z.land_ones, Z.land_lor_distr_l, !Z.land_ones, !Z.mod_small by lia. done.
Qed.

Local Abbreviation flags := [MEMTUP_HASNULL; MEMTUP_LARGETUP; MEMTUP_HASEXTERNAL].

(** Clearing a flag leaves the size and the other flags. *)
Lemma clear_flag_reads flag m : flag ∈ flags → Forall is_byte m → 4 ≤ blen m →
  let m' := mt_clear_flag flag m in
  memtuple_get_size m' = memtuple_get_size m ∧ Z.land (mt_len m') flag = 0 ∧
  ∀ other, other ∈ flags → other ≠ flag → Z.land (mt_len m') other = Z.land (mt_len m) other.
Proof.
  intros Hf Hb Hl m'. assert (Hw : 0 ≤ mt_len m < 2 ^ 32) by (by apply (rd_range 4 0 m)).
  assert (E : mt_len m' = Z.land (mt_len m) (Z.lnot flag)) by (apply mt_len_wr; [done|by apply land_u32]).
  unfold memtuple_get_size. rewrite E, <- !Z.land_assoc. split_and!.
  - f_equal. set_unfold in Hf. by destruct Hf as [->|[->|[->|[]]]].
  - rewrite (Z.land_comm (Z.lnot flag)), Z.land_lnot_diag. apply Z.land_0_r.
  - intros other Ho Hne. rewrite <- Z.land_assoc. f_equal. set_unfold in Hf. set_unfold in Ho.
    destruct Hf as [->|[->|[->|[]]]], Ho as [->|[->|[->|[]]]]; done.
Qed.

(** Setting the size leaves the flags. *)
Lemma set_size_reads len m : (8 | len) → 0 ≤ len < 2 ^ 31 → Forall is_byte m → 4 ≤ blen m →
  let m' := memtuple_set_size m len in
  memtuple_get_size m' = len ∧ memtuple_lead_bit_set m' = true ∧
  ∀ flag, flag ∈ flags → Z.land (mt_len m') flag = Z.land (mt_len m) flag.
Proof.
  intros H8 Hlen Hb Hl m'. assert (Hw : 0 ≤ mt_len m < 2 ^ 32) by (by apply (rd_range 4 0 m)).
  destruct (head_word_reads len false false false H8 Hlen) as (_ & Hm & H2 & H4 & H1 & _). cbv zeta in *.
  assert (Hfl : ∀ g, negb (Z.land (Z.lor len MEMTUP_LEAD_BIT) g =? 0) = false → Z.land len g = 0).
  { intros g Hg. rewrite Z.land_lor_distr_l in Hg. apply negb_false_iff, Z.eqb_eq, Z.lor_eq_0_iff in Hg as [Hg _]. done. }
  apply Hfl in H1, H2, H4. unfold head_word in Hm. rewrite Z.land_lor_distr_l in Hm. change (Z.land MEMTUP_LEAD_BIT MEMTUP_LEN_MASK) with 0 in Hm.
  rewrite Z.lor_0_r in Hm.
  assert (E : mt_len m' = Z.lor (Z.land (Z.lor (mt_len m) MEMTUP_LEAD_BIT) (Z.lnot MEMTUP_LEN_MASK)) len).
  { apply mt_len_wr; [done|]. apply lor_u32; [|lia]. by apply land_u32, lor_u32. }
  unfold memtuple_get_size, memtuple_lead_bit_set. rewrite E. split_and!.
  - by rewrite Z.land_lor_distr_l, <- Z.land_assoc, (Z.land_comm (Z.lnot _)), Z.land_lnot_diag, Z.land_0_r, Z.lor_0_l.
  - change MEMTUP_LEAD_BIT with (2 ^ 31) at 2. rewrite land_pow2_bit by lia. rewrite Z.lor_spec, Z.land_spec, Z.lor_spec.
    change (Z.testbit MEMTUP_LEAD_BIT 31) with true. change (Z.testbit (Z.lnot MEMTUP_LEN_MASK) 31) with true. by rewrite orb_true_r.
  - intros flag Hf. rewrite !Z.land_lor_distr_l, <- !Z.land_assoc.
    assert (Hc : Z.land len flag = 0 ∧ Z.land MEMTUP_LEAD_BIT (Z.land (Z.lnot MEMTUP_LEN_MASK) flag) = 0 ∧
      Z.land (Z.lnot MEMTUP_LEN_MASK) flag = flag).
    { set_unfold in Hf. destruct Hf as [->|[->|[->|[]]]]; done. }
    destruct Hc as (-> & -> & ->). by rewrite !Z.lor_0_r.
Qed.

(** ** The columns of a tuple *)

Lemma sorted_pairs {A} (Rel : relation A) (l : list A) :
  (∀ i j x y, (i < j)%nat → l !! i = Some x → l !! j = Some y → Rel x y) → StronglySorted Rel l.
Proof.
  induction l as [|z l IH]; intros H; constructor.
  - apply IH. intros i j x y Hij Hx Hy. by apply (H (S i) (S j)); [lia|..].
  - apply Forall_forall. intros y [j Hj]%list_elem_of_lookup_1. by apply (H 0%nat (S j)); [lia|..].
Qed.

Lemma same_row_lookup atts vs ns ds :
  row_ok atts vs ns → length ds = length atts →
  (∀ i a v x, atts !! i = Some a → vs !! i = Some v → ns !! i = Some false → ds !! i = Some x → same_value a v x ∧ attr_ok a x) →
  same_row atts vs ns ds.
Proof.
  intros Hrow. revert ds. induction Hrow as [|a v n atts vs ns _ _ IH]; intros [|x ds] Hl H; try done; [constructor|].
  assert (Hr : same_row atts vs ns ds).
  { apply IH; [cbn in Hl; lia|]. intros i a' v' x'. apply (H (S i)). }
  destruct n; [by constructor|]. destruct (H 0%nat a v x eq_refl eq_refl eq_refl eq_refl). by constructor.
Qed.

Section Whole.
Context (junk : MemTupleAttrBinding) (d : TupleDesc) (dropped : list bool) (Hd : desc_ok d dropped).
Context (islarge : bool) (vs : list Datum) (ns : list bool) (Hrow : row_ok (attrs d) vs ns).

Local Abbreviation pb := (create_memtuple_binding junk d dropped).
Local Abbreviation P := (physical islarge (attrs d) dropped).
Local Abbreviation cb := (colbind pb islarge).
Local Abbreviation base := (first_offset pb).
Local Abbreviation OK := (create_phys_ok junk d dropped Hd islarge).
Local Abbreviation HCB := (create_binding_ok junk d dropped Hd islarge).
Local Abbreviation nul := (phys_null d dropped islarge ns).
Local Abbreviation hasnull := (existsb id ns).
Local Abbreviation start := (tuple_start junk d dropped hasnull).

Lemma row_lengths : length vs = length (attrs d) ∧ length ns = length (attrs d).
Proof.
  pose proof (Forall3_length_lm _ _ _ _ Hrow). pose proof (Forall3_length_lr _ _ _ _ Hrow). done.
Qed.

(** The physical position of an attribute. *)
Definition phys_of (i : nat) : nat := default 0%nat (fst <$> list_find (λ c : column, c.1 = i) P).

Lemma phys_of_at i a : attrs d !! i = Some a →
  ∃ dr b, P !! phys_of i = Some (i, (a, dr)) ∧ bindings cb !! i = Some b ∧
    bound_at islarge P base (phys_of i) (i, (a, dr)) b ∧ bind_len_aligned b = aligned_len islarge P (phys_of i).
Proof.
  intros Ha. destruct (column_at junk d dropped Hd islarge i a Ha) as (p & dr & b & Hp & Hb & Hbo & Hal).
  assert (Ep : phys_of i = p).
  { unfold phys_of. destruct (list_find_elem_of (λ c : column, c.1 = i) P (i, (a, dr))) as [[p' c'] E];
      [by eapply list_elem_of_lookup_2|done|]. rewrite E. cbn. apply list_find_Some in E as (Hp' & Ec & _).
    eapply (distinct_index _ _ _ OK); [exact Hp'|exact Hp|done]. }
  rewrite Ep. by exists dr, b.
Qed.

Lemma width_eq i a dr : att_valid a →
  col_width islarge (i, (a, dr)) = if 0 <? attlen a then attlen a else if islarge then 4 else 2.
Proof.
  intros [Hl _]. unfold col_width, pass_len, bind_pass. cbn [fst snd].
  destruct (Z.ltb_spec (attlen a) 0), (Z.ltb_spec 0 (attlen a)); try lia; [by destruct islarge|].
  repeat case_match; done.
Qed.

Definition ptr_of (i : nat) : Z := start + place islarge P base nul (phys_of i).

Definition slots : list slot :=
  imap (λ i x, mkSlot x.1 x.2.1 x.2.2.1 x.2.2.2 (ptr_of i)) (zip (attrs d) (zip (bindings cb) (zip vs ns))).

Lemma slots_lookup i c : slots !! i = Some c →
  attrs d !! i = Some (s_att c) ∧ bindings cb !! i = Some (s_bind c) ∧ vs !! i = Some (s_val c) ∧
  ns !! i = Some (s_null c) ∧ s_ptr c = ptr_of i.
Proof.
  unfold slots. rewrite list_lookup_imap, !lookup_zip_with.
  destruct (attrs d !! i), (bindings cb !! i), (vs !! i), (ns !! i); try done. cbn. by intros [= <-].
Qed.

Lemma length_slots : length slots = length (attrs d).
Proof.
  destruct row_lengths. unfold slots. rewrite length_imap, !length_zip_with, (length_binds junk d dropped Hd). lia.
Qed.

Lemma slots_fmap {A} (f : slot → A) (l : list A) :
  length l = length (attrs d) → (∀ i c, slots !! i = Some c → l !! i = Some (f c)) → f <$> slots = l.
Proof.
  intros Hl H. apply list_eq_same_length with (length l); [done|by rewrite length_fmap, length_slots|].
  intros i x y Hi Hx Hy. rewrite list_lookup_fmap in Hx. destruct (slots !! i) as [c|] eqn:Ec; [|done].
  rewrite (H i c Ec) in Hy. cbn in Hx. congruence.
Qed.

Lemma slots_lists : s_att <$> slots = attrs d ∧ s_bind <$> slots = bindings cb ∧ s_val <$> slots = vs ∧ s_null <$> slots = ns.
Proof.
  destruct row_lengths. pose proof (length_binds junk d dropped Hd islarge).
  split_and!; apply slots_fmap; try done; intros i c Hc; apply slots_lookup in Hc as (? & ? & ? & ? & _); done.
Qed.

Lemma slot_phys i c : slots !! i = Some c →
  ∃ dr, P !! phys_of i = Some (i, (s_att c, dr)) ∧ bound_at islarge P base (phys_of i) (i, (s_att c, dr)) (s_bind c) ∧
    bind_len (s_bind c) = col_width islarge (i, (s_att c, dr)) ∧ nul (phys_of i) = s_null c.
Proof.
  intros (Ha & Hb & _ & Hn & _)%slots_lookup. destruct (phys_of_at i _ Ha) as (dr & b & Hp & Hb' & Hbo & _). simplify_eq.
  exists dr. split; [done|]. split; [done|]. split; [apply Hbo|]. unfold phys_null. rewrite Hp. cbn. by rewrite Hn.
Qed.

Lemma slots_apart : StronglySorted apart slots.
Proof.
  apply sorted_pairs. intros i j x y Hij Hx Hy Nx Ny.
  destruct (slot_phys i x Hx) as (dx & Px & _ & Lx & Hnx). destruct (slot_phys j y Hy) as (dy & Py & _ & Ly & Hny).
  apply slots_lookup in Hx as (_ & _ & _ & _ & ->). apply slots_lookup in Hy as (_ & _ & _ & _ & ->).
  rewrite Lx, Ly. unfold ptr_of. rewrite Nx in Hnx. rewrite Ny in Hny.
  destruct (decide (phys_of i = phys_of j)) as [E|Hne]; [rewrite E in Px; simplify_eq; lia|].
  destruct (decide (phys_of i < phys_of j)%nat).
  - left. pose proof (place_next islarge P base OK nul _ (phys_of j) _ Px Hnx ltac:(lia)). lia.
  - right. pose proof (place_next islarge P base OK nul _ (phys_of i) _ Py Hny ltac:(lia)). lia.
Qed.

(** *** The header of the tuple *)

Local Abbreviation nullp := (memtuple_get_nullp pb).
Local Abbreviation nlen := (memtuple_get_nullp_len pb).

Lemma header_room :
  4 ≤ nullp ≤ base ∧ (mtbind_has_oid pb = true → nullp = 8) ∧ natts d ≤ 8 * nlen ∧ 0 ≤ nlen ∧ 0 ≤ start ∧
  (hasnull = true → nullp + nlen ≤ start + base).
Proof.
  assert (Hs : 0 ≤ start) by (unfold tuple_start; pose proof (extra_range junk d dropped); case_match; lia).
  assert (0 ≤ natts d) by (unfold natts; lia). set (nb := (natts d + 7) `div` 8).
  assert (Hnb : natts d ≤ 8 * nb ∧ 0 ≤ nb) by (unfold nb; divlia).
  assert (En : nlen = nb) by (unfold memtuple_get_nullp_len; rewrite Z.shiftr_div_pow2 by lia; done).
  assert (Ha8 : ∀ x, x ≤ TYPEALIGN 8 x) by (intros x; rewrite (TYPEALIGN_pow 3) by lia; divlia).
  assert (Ha4 : ∀ x, x ≤ TYPEALIGN 4 x) by (intros x; rewrite (TYPEALIGN_pow 2) by lia; divlia).
  rewrite En. set (al := column_align pb). assert (Hal : al = 8 ∨ al = 4) by (unfold al; cbn; case_match; auto).
  assert (Hst : hasnull = true → start = (let av := if tdhasoid d || (al =? 4) then 0 else 4 in
    if nb <=? av then 0 else TYPEALIGN al (nb - av))).
  { intros ->. unfold tuple_start. cbn [null_bitmap_extra_size create_memtuple_binding]. unfold compute_null_bitmap_extra_size.
    rewrite Z.shiftr_div_pow2 by lia. done. }
  unfold memtuple_get_nullp, first_offset, sizeof_Oid in *. fold al. unfold mtbind_has_oid. cbn [tupdesc create_memtuple_binding].
  cbv zeta in Hst. destruct (tdhasoid d), Hal as [Eal|Eal]; rewrite Eal in *; cbn [orb Z.eqb Pos.eqb] in *;
    (split_and!; [lia|lia|done|lia|lia|lia|]); intros Hh; rewrite (Hst Hh); case_match eqn:El; rewrite ?Z.leb_le, ?Z.leb_gt in El; try lia;
    match goal with |- context [TYPEALIGN 8 ?x] => pose proof (Ha8 x); lia | |- context [TYPEALIGN 4 ?x] => pose proof (Ha4 x); lia end.
Qed.

Lemma slice_same off n (b b' : list Z) :
  0 ≤ off → 0 ≤ n → (∀ j : nat, Z.of_nat j < off + n → b !! j = b' !! j) → slice off n b = slice off n b'.
Proof.
  intros Ho Hn H. apply list_eq. intros i. destruct (decide (Z.of_nat i < n)) as [Hi|Hi].
  - rewrite !slice_lookup by done. apply H. lia.
  - unfold slice. rewrite !lookup_take_ge by lia. done.
Qed.

Lemma set_null_bits_none binds nn o buf : Forall (eq false) nn → set_null_bits binds nn o buf = Some buf.
Proof. intros Hf. revert binds. induction Hf as [|n nn <- _ IH]; intros [|b binds]; try done. apply IH. Qed.

Definition head_bytes (buf : list Z) (len : Z) (hasext : bool) : list Z :=
  let mtup := memtuple_set_mtlen buf (Z.lor len MEMTUP_LEAD_BIT) in
  let mtup := if MEMTUPLE_LEN_FITSHORT <? len then memtuple_set_islarge mtup else mtup in
  let mtup := if hasext then memtuple_set_hasext mtup else mtup in
  if mtbind_has_oid pb then MemTupleSetOid mtup InvalidOid else mtup.

Lemma head_bytes_ok buf len hasext : (8 | len) → 0 ≤ len < 2 ^ 31 → start + base ≤ blen buf →
  let b := head_bytes buf len hasext in
  blen b = blen buf ∧ mt_len b = head_word len (MEMTUPLE_LEN_FITSHORT <? len) hasext false ∧
  (mtbind_has_oid pb = true → rd 4 4 b = 0).
Proof.
  intros Hd8 Hl Hb. destruct header_room as (Hnp & Hoid & _ & _ & Hs & _). assert (H4 : 4 ≤ blen buf) by lia.
  assert (W : ∀ l e, 0 ≤ head_word len l e false < 2 ^ 32) by (intros l e; apply (head_word_reads len l e false Hd8 Hl)).
  unfold head_bytes. set (large := MEMTUPLE_LEN_FITSHORT <? len). set (b1 := memtuple_set_mtlen _ _).
  assert (E1 : blen b1 = blen buf ∧ mt_len b1 = head_word len false false false).
  { split; [apply blen_wr|]. apply mt_len_wr; [done|]. apply (W false false). }
  set (b2 := if large then memtuple_set_islarge b1 else b1).
  assert (E2 : blen b2 = blen buf ∧ mt_len b2 = head_word len large false false).
  { unfold b2. destruct large; [|done]. unfold memtuple_set_islarge, mt_set_flag. rewrite blen_wr. split; [apply E1|].
    rewrite (proj2 E1). apply mt_len_wr; [lia|]. apply (W true false). }
  set (b3 := if hasext then memtuple_set_hasext b2 else b2).
  assert (E3 : blen b3 = blen buf ∧ mt_len b3 = head_word len large hasext false).
  { unfold b3. destruct hasext; [|done]. unfold memtuple_set_hasext, mt_set_flag. rewrite blen_wr. split; [apply E2|].
    rewrite (proj2 E2). rewrite mt_len_wr; [by destruct large|lia|]. pose proof (W large true). by destruct large. }
  cbv zeta. destruct (mtbind_has_oid pb) eqn:Eo; [|split_and!; [apply E3|apply E3|done]]. unfold MemTupleSetOid. rewrite blen_wr.
  split; [apply E3|]. specialize (Hoid eq_refl). split.
  - unfold mt_len. rewrite rd_wr_disj by lia. apply E3.
  - intros _. rewrite rd_wr_same by lia. done.
Qed.

Lemma nulls_exist : hasnull = false → Forall (eq false) ns.
Proof.
  intros H. apply Forall_forall. intros [] Hin; [|done]. exfalso. assert (hasnull = true); [|congruence].
  apply existsb_exists. exists true. split; [by apply list_elem_of_In|done].
Qed.

Lemma phys_null_any q : (q < length P)%nat → any_null (phys_of <$> seq 0 (length (attrs d))) ns q = nul q.
Proof.
  destruct row_lengths as [_ Hns]. intros Hq. destruct (lookup_lt_is_Some_2 P q) as [[i [a dr]] Hc]; [done|].
  pose proof (list_elem_of_lookup_2 _ _ _ Hc) as Hin. apply physical_spec in Hin as [Ha _]; [|apply Hd].
  unfold phys_null. rewrite Hc. cbn [fst]. destruct (phys_of_at i a Ha) as (dr' & b & Hp & _).
  assert (Ep : phys_of i = q) by (eapply (distinct_index _ _ _ OK); [exact Hp|exact Hc|done]).
  pose proof (lookup_lt_Some _ _ _ Ha) as Hi. destruct (lookup_lt_is_Some_2 ns i) as [n Hn]; [lia|]. rewrite Hn. cbn.
  unfold any_null. destruct n.
  - apply existsb_exists. exists (q, true). split; [|by rewrite bool_decide_true]. apply list_elem_of_In, (list_elem_of_lookup_2 _ i).
    rewrite lookup_zip_with, list_lookup_fmap, lookup_seq_lt, Hn by done. cbn [Nat.add fmap option_fmap option_map mbind option_bind].
    by rewrite Ep.
  - apply not_true_is_false. intros ([p n] & Hx & Ht)%existsb_exists. apply list_elem_of_In, list_elem_of_lookup_1 in Hx as [j Hj].
    cbn in Ht. apply andb_true_iff in Ht as [-> Eq%bool_decide_eq_true]. subst p.
    rewrite lookup_zip_with, list_lookup_fmap in Hj. destruct (seq 0 (length (attrs d)) !! j) as [j'|] eqn:Ej; [|done].
    apply lookup_seq in Ej as [-> Hj']. cbn [Nat.add fmap option_fmap option_map mbind option_bind] in Hj.
    destruct (ns !! j) as [n|] eqn:Enj; [|done]. cbn [mbind option_bind] in Hj. injection Hj as Eq ->.
    destruct (lookup_lt_is_Some_2 (attrs d) j) as [a' Ha']; [lia|]. destruct (phys_of_at j a' Ha') as (dr'' & b' & Hp' & _).
    rewrite Eq, Hc in Hp'. injection Hp' as -> _ _. congruence.
Qed.

(** *** The tuple before the values are stored *)

Definition head_state (buf0 : list Z) (len : Z) (hasext : bool) (buf : list Z) : Prop :=
  blen buf = blen buf0 ∧ mt_len buf = head_word len (MEMTUPLE_LEN_FITSHORT <? len) hasext hasnull ∧
  (mtbind_has_oid pb = true → rd 4 4 buf = 0) ∧ (hasnull = true → bitmap_ok P nul (drop (Z.to_nat nullp) buf)).

Lemma head_state_ok buf len hasext : (8 | len) → 0 ≤ len < 2 ^ 31 → start + base ≤ blen buf →
  ∃ b1 b2, (if hasnull then write_bytes (memtuple_set_hasnull (head_bytes buf len hasext)) nullp (replicate (Z.to_nat nlen) 0)
            else Some (head_bytes buf len hasext)) = Some b1 ∧
    set_null_bits (bindings cb) ns nullp b1 = Some b2 ∧ head_state buf len hasext b2.
Proof.
  intros Hd8 Hl Hb. destruct (head_bytes_ok buf len hasext Hd8 Hl Hb) as (Hlen & Hw & Ho).
  destruct header_room as (Hnp & Hoid & Hna & Hnl & Hs & Hroom). destruct row_lengths as [_ Hns].
  destruct hasnull eqn:Eh.
  2: { eexists _, _. split; [done|]. split; [apply set_null_bits_none, nulls_exist, Eh|]. unfold head_state. rewrite Eh. by split_and!. }
  specialize (Hroom eq_refl). set (b0 := head_bytes buf len hasext) in *.
  set (z := replicate (Z.to_nat nlen) 0). assert (Hz : blen z = nlen) by (unfold z, blen; rewrite length_replicate; lia).
  assert (Hl0 : blen (memtuple_set_hasnull b0) = blen buf) by (unfold memtuple_set_hasnull, mt_set_flag; by rewrite blen_wr).
  rewrite write_bytes_ok by lia. set (b1 := memcpy _ _ z).
  assert (Hl1 : blen b1 = blen buf) by (unfold b1; by rewrite blen_memcpy).
  assert (Hz1 : ∀ B, Z.of_nat B < nlen → b1 !! (Z.to_nat nullp + B)%nat = Some 0).
  { intros B HB. assert (Hh : holds b1 nullp z) by (apply holds_write; lia).
    rewrite (holds_bytes_lookup b1 nullp z) by (done || lia || (unfold blen in Hz; lia)). unfold z. apply lookup_replicate_2. lia. }
  assert (Hbo : Forall2 bit_of (bindings cb) (phys_of <$> seq 0 (length (attrs d)))).
  { apply Forall2_same_length_lookup. rewrite length_fmap, length_seq, (length_binds junk d dropped Hd). split; [done|].
    intros i b p Hbi Hp. rewrite list_lookup_fmap in Hp. destruct (seq 0 (length (attrs d)) !! i) as [i'|] eqn:Ei; [|done].
    apply lookup_seq in Ei as [-> Hi]. cbn in Hp. simplify_eq. destruct (lookup_lt_is_Some_2 (attrs d) i) as [a Ha]; [lia|].
    destruct (phys_of_at i a Ha) as (dr & b' & _ & Hb' & Hbd & _). simplify_eq. split; apply Hbd. }
  assert (HlP : length P = length (attrs d)) by (by apply (length_phys d dropped Hd)).
  destruct (set_null_bits_ok _ _ ns nlen Hbo) with (nullp := nullp) (buf := b1) as (b2 & E2 & Hl2 & Hby & Hbit & Hj).
  { intros p (i & -> & Hi)%list_elem_of_fmap. apply elem_of_seq in Hi.
    destruct (lookup_lt_is_Some_2 (attrs d) i) as [a Ha]; [lia|]. destruct (phys_of_at i a Ha) as (dr & b' & Hp & _).
    apply lookup_lt_Some in Hp. unfold natts in Hna. divlia. }
  { lia. } { by rewrite length_fmap, length_seq. } { lia. } { intros B HB. exists 0. split; [by apply Hz1|done]. }
  exists b1, b2. split; [done|]. split; [done|]. unfold head_state. rewrite Eh. split; [congruence|].
  assert (Hsl : ∀ off n, 0 ≤ off → 0 ≤ n → off + n ≤ nullp → slice off n b2 = slice off n (memtuple_set_hasnull b0)).
  { intros off n Hoff Hn Hle. rewrite (slice_same off n b2 b1) by (done || (intros j Hjj; apply Hj; lia)).
    unfold b1. apply slice_memcpy_disj; lia. }
  pose proof (head_word_reads len (MEMTUPLE_LEN_FITSHORT <? len) hasext true Hd8 Hl) as [Wr _]. cbv zeta in Wr.
  split_and!.
  - unfold mt_len, rd. rewrite Hsl by lia. change (mt_len (memtuple_set_hasnull b0) = head_word len (MEMTUPLE_LEN_FITSHORT <? len) hasext true).
    unfold memtuple_set_hasnull, mt_set_flag. rewrite Hw. rewrite mt_len_wr; [done|lia|done].
  - intros Eo. specialize (Hoid Eo). unfold rd. rewrite Hsl by lia. change (rd 4 4 (memtuple_set_hasnull b0) = 0).
    unfold memtuple_set_hasnull, mt_set_flag. rewrite rd_wr_disj by lia. by apply Ho.
  - intros _. split.
    + intros B HB. destruct (Hby B) as (x & Hx & Hxb); [unfold natts in Hna; lia|]. exists x. by rewrite lookup_drop.
    + intros q Hq. rewrite Hbit, phys_null_any by done. unfold null_bit at 1.
      rewrite lookup_drop, Hz1 by (unfold natts in Hna; divlia). cbn. by rewrite Z.bits_0.
Qed.

(** *** The whole tuple *)

Local Abbreviation saves := (Some (null_saves_aligned cb)).
Local Abbreviation nullp_opt := (if hasnull then Some nullp else None).
Local Abbreviation V0 := (data_start junk d dropped islarge ns hasnull).
Local Abbreviation hlen := (start + base).

Record memtuple_holds (len : Z) (hasext : bool) (buf : list Z) : Prop := {
  mh_word : mt_len buf = head_word len (MEMTUPLE_LEN_FITSHORT <? len) hasext hasnull;
  mh_oid : mtbind_has_oid pb = true → rd 4 4 buf = 0;
  mh_bitmap : hasnull = true → bitmap_ok P nul (drop (Z.to_nat nullp) buf);
  mh_stored : Forall (λ c, s_null c = false → ∃ off, stored_at start V0 c buf off ∧
    off + blen (attr_image (s_att c) (s_val c)) ≤ data_end junk d dropped islarge ns vs hasnull) slots
}.

Lemma hlen_range : 4 ≤ hlen ∧ hlen ≤ V0.
Proof.
  destruct header_room as (Hnp & _ & _ & _ & Hs & _). pose proof (data_start_range junk d dropped Hd islarge ns (proj2 row_lengths) hasnull) as Hr.
  pose proof (place_range islarge P base OK nul (length P) ltac:(lia)). lia.
Qed.

Lemma same_header_reads b b' : holds b' 0 (take (Z.to_nat hlen) b) → hlen ≤ blen b → ∀ j : nat, Z.of_nat j < hlen → b' !! j = b !! j.
Proof.
  intros Hh Hl j Hj. pose proof (holds_bytes_lookup b' 0 _ j ltac:(lia) Hh) as E. change (Z.to_nat 0) with 0%nat in E. cbn [Nat.add] in E.
  rewrite E; [by rewrite lookup_take_lt by lia|]. rewrite length_take. unfold blen in Hl. lia.
Qed.

Lemma bitmap_same b b' : hasnull = true → bitmap_ok P nul (drop (Z.to_nat nullp) b) →
  (∀ j : nat, Z.of_nat j < hlen → b' !! j = b !! j) → bitmap_ok P nul (drop (Z.to_nat nullp) b').
Proof.
  intros Hh [Hby Hbi] Hj. destruct header_room as (Hnp & _ & Hna & _ & _ & Hroom). specialize (Hroom Hh).
  pose proof (length_phys d dropped Hd islarge) as HlP.
  assert (Hsame : ∀ B, (8 * B < length P)%nat → drop (Z.to_nat nullp) b' !! B = drop (Z.to_nat nullp) b !! B).
  { intros B HB. rewrite !lookup_drop. apply Hj. unfold natts in Hna. lia. }
  split; [intros B HB; rewrite Hsame by done; by apply Hby|].
  intros q Hq. rewrite <- Hbi by done. unfold null_bit. rewrite Hsame; [done|divlia].
Qed.

Lemma head_nulls_ok buf0 len hasext b : head_state buf0 len hasext b → hlen ≤ blen b → ∀ buf,
  holds buf 0 (take (Z.to_nat hlen) b) → nulls_ok P nul ((λ o, drop (Z.to_nat o) buf) <$> nullp_opt).
Proof.
  intros (_ & _ & _ & Hbm) Hl buf Hh. destruct hasnull eqn:Eh; cbn [fmap option_fmap option_map nulls_ok].
  - apply (bitmap_same b); [done|by apply Hbm|]. rewrite <- Eh in *. by apply same_header_reads.
  - intros q _. unfold phys_null. destruct (P !! q) as [c|]; [|done]. destruct (ns !! c.1) as [n|] eqn:En; [|done]. cbn.
    pose proof (nulls_exist Eh) as Hf. symmetry. by apply (Forall_lookup_1 _ _ _ _ Hf En).
Qed.

Lemma slots_ok buf0 len hasext b : head_state buf0 len hasext b → hlen ≤ blen b →
  Forall (λ c, s_null c = false → slot_ok start saves nullp_opt (take (Z.to_nat hlen) b) V0 c) slots.
Proof.
  intros Hst Hl. apply Forall_lookup. intros i c Hc Hn. destruct (slot_phys i c Hc) as (dr & Hp & Hbo & Hlen & Hnul).
  pose proof Hc as (Ha & Hb & Hv & Hnn & Hptr)%slots_lookup. pose proof (att_valid_at d dropped Hd i _ Ha) as Hav.
  assert (Hval : attr_ok (s_att c) (s_val c)).
  { pose proof (Forall3_lookup_lmr _ _ _ _ _ _ _ _ Hrow Ha Hv Hnn) as Hcol. by apply Hcol. }
  rewrite Hn in Hnul. pose proof hlen_range.
  pose proof (place_next islarge P base OK nul _ (length P) _ Hp Hnul (lookup_lt_Some _ _ _ Hp)) as Hnext.
  pose proof (data_start_range junk d dropped Hd islarge ns (proj2 row_lengths) hasnull) as Hds.
  pose proof (place_range islarge P base OK nul (phys_of i)) as Hpr. apply lookup_lt_Some in Hp as Hlt. specialize (Hpr ltac:(lia)).
  split; try done.
  - rewrite (bo_flag _ _ _ _ _ _ Hbo). by apply pass_flag_eq.
  - rewrite Hlen, width_eq by done. destruct (0 <? attlen (s_att c)); [done|]. destruct islarge; set_solver.
  - intros Hpos. pose proof (Forall_lookup_1 _ _ _ _ (do_bpchar _ _ Hd) Ha) as Hbp. by apply Hbp.
  - intros buf Hh. rewrite Hptr. eapply attr_ptr_ok; [apply OK|apply HCB| |exact Hp|exact Hb]. by eapply head_nulls_ok.
  - rewrite Hptr. unfold ptr_of. rewrite blen_take by lia. lia.
  - rewrite Hptr, Hlen. unfold ptr_of. lia.
Qed.

Local Abbreviation len := (MEMTUP_ALIGN (data_end junk d dropped islarge ns vs hasnull)).

Lemma len_range : (8 | len) ∧ data_end junk d dropped islarge ns vs hasnull ≤ len ∧ V0 ≤ data_end junk d dropped islarge ns vs hasnull.
Proof.
  unfold MEMTUP_ALIGN. rewrite (TYPEALIGN_pow 3) by lia. split_and!; [apply Z.divide_factor_r|divlia|].
  unfold data_end. pose proof (blen_nonneg (layout (attrs d) vs (var_nulls (attrs d) ns) V0)). lia.
Qed.

Lemma fill_memtuple_ok buf hasext :
  islarge = (MEMTUPLE_LEN_FITSHORT <? len) → len < 2 ^ 31 → len ≤ blen buf →
  ∃ buf', fill_memtuple pb vs ns hasnull hasext true len (sumf (null_len islarge P nul) (length P)) buf = ok buf' ∧
    blen buf' = blen buf ∧ memtuple_holds len hasext buf'.
Proof.
  intros Hlg Hlt Hb. destruct len_range as (H8 & Hle & HV). pose proof hlen_range as [H4 HhV].
  destruct header_room as (Hnp0 & _ & _ & _ & Hs0 & _).
  destruct (head_state_ok buf len hasext H8 ltac:(lia) ltac:(lia)) as (b1 & b2 & E1 & E2 & Hst).
  pose proof Hst as (Hl2 & Hw2 & Ho2 & Hbm2).
  assert (Hcb : (if len <=? MEMTUPLE_LEN_FITSHORT then bind pb else large_bind pb) = cb).
  { destruct (Z.leb_spec len MEMTUPLE_LEN_FITSHORT) as [Hc|Hc].
    - assert (Ef : islarge = false) by (etrans; [exact Hlg|]; by apply Z.ltb_ge). unfold colbind. by rewrite Ef.
    - assert (Et : islarge = true) by (etrans; [exact Hlg|]; by apply Z.ltb_lt). unfold colbind. by rewrite Et. }
  destruct slots_lists as (La & Lb & Lv & Ln).
  assert (Hend : var_end slots V0 = data_end junk d dropped islarge ns vs hasnull) by (by rewrite var_end_layout, La, Lv, Ln).
  destruct (store_loop_ok start saves nullp_opt (take (Z.to_nat hlen) b2) V0 slots slots_apart (slots_ok buf len hasext b2 Hst ltac:(lia)) b2 V0)
    as (b3 & E3 & Hl3 & Hst3 & Hfr).
  - unfold holds. rewrite blen_take by lia. unfold slice. by rewrite drop_0.
  - lia.
  - lia.
  - lia.
  - intros c Hc Hn Hneg. apply list_elem_of_lookup_1 in Hc as [i Hc]. destruct (slot_phys i c Hc) as (dr & _ & _ & Hbl & _).
    apply slots_lookup in Hc as (Ha & _). rewrite Hend, Hbl, width_eq by (by eapply att_valid_at).
    rewrite (proj2 (Z.ltb_ge _ _)) by lia. unfold MEMTUPLE_LEN_FITSHORT in *.
    destruct islarge; [|symmetry in Hlg; apply Z.ltb_ge in Hlg]; cbn; lia.
  - exists b3. rewrite La, Lb, Lv, Ln in E3. split; [|split; [congruence|]].
    { unfold fill_memtuple. rewrite Hcb. fold (head_bytes buf len hasext) in E1 |- *.
      change (if hasnull then null_bitmap_extra_size pb else 0) with start.
      cbn [tupdesc create_memtuple_binding]. rewrite E1. cbn [lift_opt fmap option_fmap option_map res_bind].
      rewrite E2. cbn [lift_opt fmap option_fmap option_map res_bind get_saves].
      replace (var_start cb - sumf (null_len islarge P nul) (length P) + start) with V0 by (unfold data_start; lia).
      rewrite E3. done. }
    assert (Hh3 : holds b3 0 (take (Z.to_nat hlen) b2)).
    { apply Hfr; [lia| |left; rewrite blen_take by lia; lia|unfold holds; rewrite blen_take by lia; unfold slice; by rewrite drop_0].
      intros c Hc Hn. left. rewrite blen_take by lia. apply list_elem_of_lookup_1 in Hc as [i Hc].
      pose proof (slots_ok buf len hasext b2 Hst ltac:(lia)) as Hsl. pose proof (Forall_lookup_1 _ _ _ _ Hsl Hc Hn) as Hsc.
      pose proof (so_after _ _ _ _ _ _ Hsc) as Haft. rewrite blen_take in Haft by lia. lia. }
    pose proof (same_header_reads b2 b3 Hh3 ltac:(lia)) as Hj.
    split; [..|by rewrite <- Hend].
    + unfold mt_len, rd. rewrite (slice_same 0 4 b3 b2); [done|lia|lia|]. intros j Hjj. apply Hj. lia.
    + intros Eo. destruct header_room as (Hnp & Hoid & _). specialize (Hoid Eo). unfold rd. rewrite (slice_same 4 4 b3 b2); [by apply Ho2|lia|lia|].
      intros j Hjj. apply Hj. lia.
    + intros Eh. by apply (bitmap_same b2); [|apply Hbm2|].
Qed.

(** What is read of the tuple is below its length. *)
Lemma memtuple_holds_same size hasext b b' :
  memtuple_holds size hasext b → data_end junk d dropped islarge ns vs hasnull ≤ size → size ≤ blen b → (∀ j : nat, Z.of_nat j < size → b' !! j = b !! j) →
  memtuple_holds size hasext b'.
Proof.
  intros [Hw Ho Hbm Hst] Hle Hb Hj. destruct len_range as (_ & _ & HV). pose proof hlen_range as [H4 HhV].
  destruct header_room as (Hnp & Hoid & _ & _ & Hs & _).
  assert (Hh : ∀ off bytes, 0 ≤ off → off + blen bytes ≤ size → holds b off bytes → holds b' off bytes).
  { intros off bytes Hoff Hlt Hh. unfold holds in *. rewrite <- Hh at 2. apply slice_same; [done|apply blen_nonneg|].
    intros j Hjj. apply Hj. lia. }
  split.
  - rewrite <- Hw. unfold mt_len, rd. f_equal. apply slice_same; [lia|lia|]. intros j Hjj. apply Hj. lia.
  - intros Eo. rewrite <- (Ho Eo). unfold rd. f_equal. apply slice_same; [lia|lia|]. intros j Hjj. apply Hj. specialize (Hoid Eo). lia.
  - intros Eh. apply (bitmap_same b); [done|by apply Hbm|]. intros j Hjj. apply Hj. lia.
  - rewrite Forall_lookup in Hst |- *. intros i c Hc Hn. destruct (Hst i c Hc Hn) as (off & [Hi Hp] & Hend). exists off. split; [|done].
    assert (H0 : 0 ≤ s_ptr c ∧ s_ptr c + bind_len (s_bind c) ≤ V0).
    { destruct (slot_phys i c Hc) as (dr & HP & _ & Hlen & Hnul). apply slots_lookup in Hc as (_ & _ & _ & _ & ->). rewrite Hn in Hnul.
      pose proof (place_next islarge P base OK nul _ (length P) _ HP Hnul (lookup_lt_Some _ _ _ HP)) as Hnext.
      pose proof (data_start_range junk d dropped Hd islarge ns (proj2 row_lengths) hasnull) as Hds.
      pose proof (place_range islarge P base OK nul (phys_of i)) as Hpr. apply lookup_lt_Some in HP as Hlt. specialize (Hpr ltac:(lia)).
      rewrite Hlen. unfold ptr_of. pose proof (ph_range _ _ _ OK). lia. }
    unfold stored_at. destruct (0 <? attlen (s_att c)) eqn:El.
    + subst off. split; [|done]. apply Hh; [lia|lia|done].
    + destruct Hp as (Hho & Hr & HVo). split; [apply Hh; [lia|lia|done]|]. split; [|done]. apply Hh; [lia| |done].
      destruct (slot_phys i c Hc) as (dr & _ & _ & Hlen & _). apply slots_lookup in Hc as (Ha & _).
      rewrite width_eq, El in Hlen by (by eapply att_valid_at).
      assert (Hbl : blen (Z_to_little_endian (bind_len (s_bind c)) 8 (off - start)) = bind_len (s_bind c)).
      { unfold blen. rewrite length_le_bytes; rewrite Hlen; destruct islarge; lia. }
      rewrite Hbl. lia.
Qed.

(** *** Reading the tuple *)

(** The bit of a column. *)
Lemma null_test buf i c o : slots !! i = Some c → hasnull = true → bitmap_ok P nul (drop (Z.to_nat o) buf) →
  ∃ x, drop (Z.to_nat o) buf !! Z.to_nat (null_byte (s_bind c)) = Some x ∧ negb (Z.land x (null_mask (s_bind c)) =? 0) = s_null c.
Proof.
  intros Hc Eh [Hby Hbi]. destruct (slot_phys i c Hc) as (dr & Hp & Hbo & _ & Hnul). pose proof (lookup_lt_Some _ _ _ Hp) as Hlt.
  rewrite (bo_byte _ _ _ _ _ _ Hbo), (bo_mask _ _ _ _ _ _ Hbo).
  destruct (Hby (Z.to_nat (Z.of_nat (phys_of i) `div` 8)) ltac:(divlia)) as (x & Hx & _). exists x. split; [done|].
  rewrite land_pow2_bit by divlia. rewrite <- Hnul, <- (Hbi _ Hlt). unfold null_bit. by rewrite Hx.
Qed.

Section Read.
Context (size : Z) (hasext : bool) (buf : list Z) (Hm : memtuple_holds size hasext buf).
Context (H8 : (8 | size)) (Hsize : 0 ≤ size < 2 ^ 31) (Hlarge : islarge = (MEMTUPLE_LEN_FITSHORT <? size)).

Lemma word_reads :
  memtuple_get_size buf = size ∧ memtuple_get_islarge buf = islarge ∧ memtuple_get_hasext buf = hasext ∧
  memtuple_get_hasnull buf = hasnull ∧ memtuple_lead_bit_set buf = true.
Proof.
  unfold memtuple_get_size, memtuple_get_islarge, memtuple_get_hasext, memtuple_get_hasnull, memtuple_lead_bit_set. rewrite (mh_word _ _ _ Hm).
  destruct (head_word_reads size (MEMTUPLE_LEN_FITSHORT <? size) hasext hasnull H8 Hsize) as (_ & E1 & E2 & E3 & E4 & E5).
  split_and!; try done. etrans; [exact E2|done].
Qed.

Lemma get_colbind_eq : get_colbind buf pb = cb.
Proof. unfold get_colbind, colbind. destruct word_reads as (_ & E & _). by rewrite E. Qed.

Lemma read_nulls : nulls_ok P nul (if hasnull then Some (drop (Z.to_nat nullp) buf) else None).
Proof.
  destruct hasnull eqn:Eh; cbn [nulls_ok]; [by apply (mh_bitmap _ _ _ Hm)|].
  intros q _. unfold phys_null. destruct (P !! q) as [c|]; [|done]. destruct (ns !! c.1) as [n|] eqn:En; [|done]. cbn.
  symmetry. by apply (Forall_lookup_1 _ _ _ _ (nulls_exist Eh) En).
Qed.

Lemma data_ptr_ok i c : slots !! i = Some c → s_null c = false →
  ∃ off, memtuple_get_attr_data_ptr buf start (s_bind c) saves (if hasnull then Some (drop (Z.to_nat nullp) buf) else None) = Some off ∧
    0 ≤ off ∧ holds buf off (attr_image (s_att c) (s_val c)) ∧ attr_ok (s_att c) (s_val c).
Proof.
  intros Hc Hn. destruct (slot_phys i c Hc) as (dr & Hp & Hbo & Hlen & Hnul). pose proof Hc as (Ha & Hb & Hv & Hnn & Hptr)%slots_lookup.
  pose proof (att_valid_at d dropped Hd i _ Ha) as Hav. pose proof hlen_range as [H4 HhV].
  assert (Hval : attr_ok (s_att c) (s_val c)).
  { pose proof (Forall3_lookup_lmr _ _ _ _ _ _ _ _ Hrow Ha Hv Hnn) as Hcol. by apply Hcol. }
  destruct (Forall_lookup_1 _ _ _ _ (mh_stored _ _ _ Hm) Hc Hn) as (off & [Himg Hst] & _).
  unfold memtuple_get_attr_data_ptr.
  rewrite (attr_ptr_ok islarge P base OK cb nul _ (phys_of i) _ (s_bind c) start HCB read_nulls Hp Hb).
  fold (ptr_of i). rewrite <- Hptr. cbn [mbind option_bind].
  rewrite (var_column_eq (s_att c)) by (rewrite (bo_flag _ _ _ _ _ _ Hbo); by apply pass_flag_eq). rewrite negb_involutive.
  assert (Hptr0 : hlen ≤ s_ptr c).
  { rewrite Hptr. unfold ptr_of. pose proof (place_range islarge P base OK nul (phys_of i)) as Hpr.
    apply lookup_lt_Some in Hp. specialize (Hpr ltac:(lia)). lia. }
  destruct (Z.ltb_spec 0 (attlen (s_att c))) as [Hpos|Hneg].
  - subst off. exists (s_ptr c). split; [done|]. split; [lia|done].
  - destruct Hst as (Hho & Hr & HVo). exists off. split; [|split; [lia|done]].
    rewrite width_eq in Hlen by done. rewrite (proj2 (Z.ltb_ge _ _)) in Hlen by lia.
    assert (El : (if bind_len (s_bind c) =? 2 then 2 else 4) = bind_len (s_bind c)) by (rewrite Hlen; by destruct islarge).
    rewrite El. set (n := bind_len (s_bind c)) in *. assert (Hn24 : n = 2 ∨ n = 4) by (rewrite Hlen; destruct islarge; lia).
    assert (Hbl : blen (Z_to_little_endian n 8 (off - start)) = n) by (unfold blen; rewrite length_le_bytes; lia).
    assert (Hbd : s_ptr c + n ≤ blen buf).
    { rewrite <- Hbl. apply holds_bound; [lia| |done]. intros E0. rewrite E0, blen_nil in Hbl. lia. }
    unfold load_uint. rewrite !(proj2 (Z.leb_le _ _)) by lia. cbn [andb mbind option_bind]. f_equal.
    unfold rd. unfold holds in Hho. rewrite Hbl in Hho. rewrite Hho, little_endian_to_Z_to_little_endian by lia.
    rewrite Z.mod_small; [lia|]. by rewrite Z.mul_comm.
Qed.

Lemma getattr_ok i c : slots !! i = Some c →
  ∃ x, memtuple_getattr buf pb (Z.of_nat i + 1) = Some (x, s_null c) ∧
    (s_null c = false → same_value (s_att c) (s_val c) x ∧ attr_ok (s_att c) x).
Proof.
  intros Hc. pose proof Hc as (Ha & Hb & Hv & Hnn & Hptr)%slots_lookup. destruct word_reads as (_ & _ & _ & Ehn & _).
  unfold memtuple_getattr, memtuple_getattr_by_alignment. rewrite get_colbind_eq, Ehn.
  replace (Z.to_nat (Z.of_nat i + 1 - 1)) with i by lia. cbn [tupdesc create_memtuple_binding]. rewrite Hb, Ha. cbn [mbind option_bind].
  assert (Hnull : (if hasnull then x ← drop (Z.to_nat nullp) buf !! Z.to_nat (null_byte (s_bind c)); Some (negb (Z.land x (null_mask (s_bind c)) =? 0))
          else Some false) = Some (s_null c)).
  { destruct hasnull eqn:Eh.
    - destruct (null_test buf i c nullp Hc Eh (mh_bitmap _ _ _ Hm Eh)) as (x & -> & <-). done.
    - f_equal. by apply (Forall_lookup_1 _ _ _ _ (nulls_exist Eh) Hnn). }
  rewrite Hnull. cbn [mbind option_bind]. destruct (s_null c) eqn:En; [by eexists|].
  change (if hasnull then null_bitmap_extra_size pb else 0) with start. cbn [get_saves].
  destruct (data_ptr_ok i c Hc En) as (off & E & Hoff & Himg & Hval). rewrite E. cbn [mbind option_bind].
  pose proof (holds_drop _ _ _ Himg) as Hdr.
  rewrite (fetchatt_image buf (s_att c) (s_val c) off _ Hval Hoff Hdr). cbn [mbind option_bind]. eexists. split; [done|]. intros _.
  destruct (s_val c) as [z|p]; [by split|]. unfold fetched. rewrite Hdr. split; [by apply image_same|by apply image_ok].
Qed.

Lemma deform_ok : ∃ ds, memtuple_deform buf pb = Some (ds, ns) ∧ same_row (attrs d) vs ns ds.
Proof.
  destruct row_lengths as [Hlv Hln]. unfold memtuple_deform, memtuple_get_values. cbn [tupdesc create_memtuple_binding].
  change (λ attnum, memtuple_getattr_by_alignment buf pb attnum true) with (λ attnum, memtuple_getattr buf pb attnum).
  assert (Hat : ∀ i, (i < length (attrs d))%nat → ∃ c, slots !! i = Some c).
  { intros i Hi. apply lookup_lt_is_Some_2. by rewrite length_slots. }
  assert (Hex : ∃ l, mapM (λ attnum, memtuple_getattr buf pb attnum) (seqZ 1 (natts d)) = Some l).
  { apply mapM_is_Some_2, Forall_forall. intros z Hz%elem_of_seqZ. unfold natts in Hz.
    destruct (Hat (Z.to_nat (z - 1)) ltac:(lia)) as [c Hc]. destruct (getattr_ok _ c Hc) as (x & E & _).
    replace (Z.of_nat (Z.to_nat (z - 1)) + 1) with z in E by lia. by exists (x, s_null c). }
  destruct Hex as [l E]. rewrite E. cbn [mbind option_bind]. apply mapM_Some_1 in E. pose proof (Forall2_length _ _ _ E) as Hll.
  rewrite length_seqZ in Hll. unfold natts in Hll. rewrite Nat2Z.id in Hll.
  assert (Hl : ∀ i c, slots !! i = Some c → ∃ x, l !! i = Some (x, s_null c) ∧
    (s_null c = false → same_value (s_att c) (s_val c) x ∧ attr_ok (s_att c) x)).
  { intros i c Hc. destruct (getattr_ok i c Hc) as (x & Eg & Hx). exists x. split; [|done].
    apply slots_lookup in Hc as (Ha & _). pose proof (lookup_lt_Some _ _ _ Ha).
    destruct (Forall2_lookup_l _ _ _ i (1 + Z.of_nat i) E) as (y & Hy & Ey); [apply lookup_seqZ; unfold natts; lia|].
    rewrite Z.add_comm, Eg in Ey. by rewrite Hy, Ey. }
  exists (l.*1). assert (En : l.*2 = ns).
  { apply list_eq_same_length with (length ns); [done|rewrite length_fmap; lia|]. intros i x y Hi Hx Hy.
    destruct (Hat i ltac:(lia)) as [c Hc]. destruct (Hl i c Hc) as (z & Hz & _). rewrite list_lookup_fmap, Hz in Hx. cbn in Hx.
    apply slots_lookup in Hc as (_ & _ & _ & Hnn & _). congruence. }
  rewrite En. split; [done|]. apply same_row_lookup; [done|rewrite length_fmap; lia|].
  intros i a v x Ha Hv Hn Hx. destruct (Hat i (lookup_lt_Some _ _ _ Ha)) as [c Hc]. destruct (Hl i c Hc) as (z & Hz & Hs).
  rewrite list_lookup_fmap, Hz in Hx. cbn in Hx. apply slots_lookup in Hc as (Ha' & _ & Hv' & Hn' & _). simplify_eq. by apply Hs.
Qed.
End Read.
End Whole.
