(* ===== verification/MemTupleSize.v ===== *)
(** Memtuples: a tuple that is too large for offsets of two bytes is not
    smaller with offsets of four, so that its length tells the binding. *)
From Stdlib Require Import Ascii.
From stdpp Require Import prelude numbers list sorting.
From S2P Require Import Prelude Varlena PgLz HeapTuple HeapTupleForm HeapTupleRead HeapTupleSpec Toast.
From S2P Require Import MemTuple MemTupleBind MemTupleForm MemTupleStore MemTupleFill.

Local Open Scope Z_scope.

(** ** Layouts *)

Lemma att_align_le x y al : x ≤ y → att_align x al ≤ att_align y al.
Proof.
  intros H. rewrite !att_align_eq. pose proof (align_of_range al). apply Z.mul_le_mono_nonneg_r; [lia|].
  apply Z.div_le_mono; lia.
Qed.

Lemma layout_end_mono atts vs ns : ∀ p q, p ≤ q →
  p + blen (layout atts vs ns p) ≤ q + blen (layout atts vs ns q).
Proof.
  revert vs ns. induction atts as [|a atts IH]; intros [|v vs] [|n ns] p q Hpq; cbn [layout]; rewrite ?blen_nil; try lia.
  destruct n; [by apply IH|]. rewrite !blen_app, !attr_start_pad.
  assert (Hs : p + blen (attr_pad a v p) ≤ q + blen (attr_pad a v q)).
  { rewrite <- !attr_start_pad. unfold attr_start. repeat case_match; try lia; by apply att_align_le. }
  specialize (IH vs ns (p + blen (attr_pad a v p) + blen (attr_image a v)) (q + blen (attr_pad a v q) + blen (attr_image a v)) ltac:(lia)).
  lia.
Qed.

Lemma layout_all_null atts vs ns : Forall (eq true) ns → ∀ p, layout atts vs ns p = [].
Proof.
  intros Hf. revert atts vs. induction Hf as [|n ns <- _ IH]; intros [|a atts] [|v vs] p; try done. cbn [layout]. apply IH.
Qed.

Section Size.
Context (junk : MemTupleAttrBinding) (d : TupleDesc) (dropped : list bool) (Hd : desc_ok d dropped).

Local Abbreviation pb := (create_memtuple_binding junk d dropped).
Local Abbreviation P islarge := (physical islarge (attrs d) dropped).
Local Abbreviation pos islarge := (phys_of d dropped islarge).
Local Abbreviation alen islarge := (aligned_len islarge (P islarge)).

(** A sum over the columns in physical order is one over the attributes. *)
Lemma phys_sum islarge (f : nat → Z) : sumf f (length (P islarge)) = sumf (λ i, f (pos islarge i)) (length (attrs d)).
Proof.
  set (g := λ i, f (pos islarge i)).
  trans (sumz (g <$> (fst <$> P islarge))).
  { rewrite <- (length_fmap fst (P islarge)), <- (length_fmap g (fst <$> P islarge)). apply sumf_sumz. intros q x.
    rewrite !list_lookup_fmap. destruct (P islarge !! q) as [[i [a dr]]|] eqn:Ec; [|done]. cbn. intros [= <-].
    unfold g. f_equal. pose proof (list_elem_of_lookup_2 _ _ _ Ec) as Hin. apply physical_spec in Hin as [Ha _]; [|apply Hd].
    destruct (phys_of_at junk d dropped Hd islarge i a Ha) as (dr' & b & Hp & _).
    by eapply (distinct_index _ _ _ (create_phys_ok junk d dropped Hd islarge)). }
  trans (sumz (g <$> seq 0 (length (attrs d)))).
  { apply sumz_perm, fmap_Permutation, physical_index_perm, Hd. }
  rewrite <- (length_seq (length (attrs d)) 0) at 2. rewrite <- (length_fmap g (seq 0 (length (attrs d)))). symmetry.
  apply sumf_sumz. intros i x. rewrite list_lookup_fmap. destruct (seq _ _ !! i) as [j|] eqn:E; [|done].
  apply lookup_seq in E as [-> _]. cbn. by intros [= <-].
Qed.

(** The pass of the column at [p]; columns after the last have no alignment. *)
Definition cls (islarge : bool) (p : nat) : Z :=
  match P islarge !! p with Some c => bind_pass islarge c.2.1 | None => 3 end.

Lemma cls_range islarge p : 0 ≤ cls islarge p ≤ 3.
Proof. unfold cls. case_match; [apply bind_pass_range|lia]. Qed.

Lemma cls_mono islarge p q : (p ≤ q)%nat → cls islarge p ≤ cls islarge q.
Proof.
  intros Hpq. destruct (decide (p = q)) as [->|]; [done|]. pose proof (cls_range islarge p). unfold cls in *.
  destruct (P islarge !! q) as [c'|] eqn:Eq; [|lia].
  destruct (lookup_lt_is_Some_2 (P islarge) p) as [c Ec]; [apply lookup_lt_Some in Eq; lia|]. rewrite Ec.
  pose proof (sorted_lookup _ _ p q _ _ (physical_sorted islarge (attrs d) dropped) ltac:(lia) Ec Eq) as Hs.
  unfold col_before in Hs. lia.
Qed.

Lemma alen_cls islarge i a : attrs d !! i = Some a →
  alen islarge (pos islarge i) =
    att_align (if 0 <? attlen a then attlen a else if islarge then 4 else 2) (pass_align (cls islarge (S (pos islarge i)))).
Proof.
  intros Ha. destruct (phys_of_at junk d dropped Hd islarge i a Ha) as (dr & b & Hp & _).
  unfold aligned_len. rewrite Hp, width_eq by (by eapply att_valid_at). f_equal. unfold next_align, cls. by case_match.
Qed.

(** Columns of fixed length are in the same order in both bindings. *)
Lemma next_class i a : attrs d !! i = Some a → 0 < attlen a →
  cls true (S (pos true i)) ≤ cls false (S (pos false i)) ∨
  cls false (S (pos false i)) = 2 ∧ cls true (S (pos true i)) = 3.
Proof.
  intros Ha Hpos. destruct (phys_of_at junk d dropped Hd false i a Ha) as (dr & b & Hs & _).
  destruct (phys_of_at junk d dropped Hd true i a Ha) as (dr' & b' & Hl & _).
  pose proof (cls_range true (S (pos true i))) as Hr. unfold cls at 2 3.
  destruct (P false !! S (pos false i)) as [[j [a' dj]]|] eqn:En; [|lia].
  pose proof (sorted_lookup _ _ _ _ _ _ (physical_sorted false (attrs d) dropped) (Nat.lt_succ_diag_r _) Hs En) as Hb.
  pose proof (list_elem_of_lookup_2 _ _ _ En) as Hin. apply physical_spec in Hin as [Ha' _]; [|apply Hd]. cbn [fst snd].
  pose proof (att_valid_at d dropped Hd j a' Ha') as [Hlen _]. unfold col_before in Hb. cbn [fst snd] in Hb.
  assert (Ebi : bind_pass false a = bind_pass true a).
  { unfold bind_pass. rewrite (proj2 (Z.ltb_ge _ _)) by lia. done. }
  destruct (Z.ltb_spec (attlen a') 0) as [Hv|Hf].
  { assert (E2 : bind_pass false a' = 2) by (unfold bind_pass; by rewrite (proj2 (Z.ltb_lt _ _) Hv)). lia. }
  assert (Ebj : bind_pass false a' = bind_pass true a').
  { unfold bind_pass. rewrite (proj2 (Z.ltb_ge _ _)) by lia. done. }
  left. rewrite Ebi, Ebj in *. destruct (phys_of_at junk d dropped Hd true j a' Ha') as (dj' & bj & Hj & _).
  assert (Hlt : (pos true i < pos true j)%nat).
  { destruct (decide (pos true i < pos true j)%nat) as [|Hge]; [done|]. exfalso.
    destruct (decide (pos true i = pos true j)) as [E|Hne].
    - rewrite E, Hj in Hl. injection Hl as -> -> _. lia.
    - pose proof (sorted_lookup _ _ (pos true j) (pos true i) _ _ (physical_sorted true (attrs d) dropped) ltac:(lia) Hj Hl) as Hb'.
      unfold col_before in Hb'. cbn [fst snd] in Hb'. lia. }
  pose proof (cls_mono true (S (pos true i)) (pos true j) ltac:(lia)) as Hm. unfold cls at 2 in Hm. by rewrite Hj in Hm.
Qed.

(** Whether the columns from [p] on are those without alignment. *)
Definition tail_at (p : nat) : Z := if cls true p =? 3 then 1 else 0.

Lemma tail_step p : 0 ≤ tail_at (S p) - tail_at p.
Proof.
  unfold tail_at. pose proof (cls_mono true p (S p) ltac:(lia)). pose proof (cls_range true (S p)).
  destruct (Z.eqb_spec (cls true p) 3), (Z.eqb_spec (cls true (S p)) 3); lia.
Qed.

Lemma tail_sum n : sumf (λ p, tail_at (S p) - tail_at p) n = tail_at n - tail_at 0.
Proof. induction n as [|n IH]; cbn [sumf]; lia. Qed.

Lemma align_class_le w p q : 0 ≤ q ≤ p → p ≤ 3 → att_align w (pass_align p) ≤ att_align w (pass_align q).
Proof.
  intros Hq Hp. rewrite !att_align_eq, !align_of_pass by lia.
  assert (Hc : q = 0 ∨ q = 1 ∨ q = 2 ∨ q = 3) by lia. assert (Hc' : p = 0 ∨ p = 1 ∨ p = 2 ∨ p = 3) by lia.
  destruct Hc as [->|[->|[->| ->]]], Hc' as [->|[->|[->| ->]]]; try lia; cbn; divlia.
Qed.

Lemma fixed_alen i a : attrs d !! i = Some a → 0 < attlen a →
  alen false (pos false i) ≤ alen true (pos true i) + (tail_at (S (pos true i)) - tail_at (pos true i)).
Proof.
  intros Ha Hpos. rewrite !(alen_cls _ i a Ha). rewrite (proj2 (Z.ltb_lt _ _) Hpos).
  pose proof (cls_range true (S (pos true i))). pose proof (cls_range false (S (pos false i))).
  pose proof (tail_step (pos true i)). destruct (next_class i a Ha Hpos) as [Hle|[Es El]].
  - pose proof (align_class_le (attlen a) (cls false (S (pos false i))) (cls true (S (pos true i))) ltac:(lia) ltac:(lia)). lia.
  - assert (Hc : cls true (pos true i) ≤ 2).
    { pose proof (cls_mono false (pos false i) (S (pos false i)) ltac:(lia)) as Hm. rewrite Es in Hm.
      destruct (phys_of_at junk d dropped Hd false i a Ha) as (dr & b & Hp & _).
      destruct (phys_of_at junk d dropped Hd true i a Ha) as (dr' & b' & Hp' & _).
      unfold cls in *. rewrite Hp in Hm. rewrite Hp'. cbn [fst snd] in *. unfold bind_pass in *.
      rewrite (proj2 (Z.ltb_ge (attlen a) 0)) in * by lia. done. }
    rewrite Es, El. unfold tail_at. rewrite El. rewrite (proj2 (Z.eqb_neq (cls true (pos true i)) 3)) by lia.
    change (pass_align 3) with "c"%char. rewrite att_align_c, att_align_eq. change (align_of (pass_align 2)) with 2.
    change (3 =? 3) with true. cbv iota. divlia.
Qed.

Lemma var_alen i a : attrs d !! i = Some a → attlen a < 0 → alen false (pos false i) = 2 ∧ 4 ≤ alen true (pos true i).
Proof.
  intros Ha Hneg. rewrite !(alen_cls _ i a Ha). rewrite (proj2 (Z.ltb_ge 0 _)) by lia. split; [|apply att_align_range].
  pose proof (cls_mono false (pos false i) (S (pos false i)) ltac:(lia)) as Hm. pose proof (cls_range false (S (pos false i))).
  destruct (phys_of_at junk d dropped Hd false i a Ha) as (dr & b & Hp & _). unfold cls at 1 in Hm. rewrite Hp in Hm. cbn [fst snd] in Hm.
  unfold bind_pass in Hm. rewrite (proj2 (Z.ltb_lt _ _) Hneg) in Hm.
  assert (Hc : cls false (S (pos false i)) = 2 ∨ cls false (S (pos false i)) = 3) by lia. by destruct Hc as [->| ->].
Qed.

Context (vs : list Datum) (ns : list bool) (Hrow : row_ok (attrs d) vs ns).
Local Abbreviation hasnull := (existsb id ns).
Local Abbreviation nul islarge := (phys_null d dropped islarge ns).
Local Abbreviation fend islarge := (data_end junk d dropped islarge ns vs hasnull).
Local Abbreviation fstart islarge := (data_start junk d dropped islarge ns hasnull).

Lemma nul_at islarge i a n : attrs d !! i = Some a → ns !! i = Some n → nul islarge (pos islarge i) = n.
Proof.
  intros Ha Hn. destruct (phys_of_at junk d dropped Hd islarge i a Ha) as (dr & b & Hp & _).
  unfold phys_null. rewrite Hp. cbn [fst]. by rewrite Hn.
Qed.

(** With a value of variable length, the fixed part is larger in a large tuple. *)
Lemma fixed_part_le k a : attrs d !! k = Some a → attlen a < 0 → ns !! k = Some false →
  sumf (full_len false (P false) (nul false)) (length (P false)) ≤ sumf (full_len true (P true) (nul true)) (length (P true)).
Proof.
  intros Hk Hneg Hnk. rewrite (phys_sum false), (phys_sum true (full_len true _ _)). destruct (row_lengths d vs ns Hrow) as [_ Hln].
  set (N := length (attrs d)). set (t := λ i, tail_at (S (pos true i)) - tail_at (pos true i)).
  assert (Ht : sumf t N ≤ 1).
  { unfold t, N. rewrite <- (phys_sum true (λ p, tail_at (S p) - tail_at p)), tail_sum. unfold tail_at. repeat case_match; lia. }
  assert (H1 : sumf (λ i, full_len false (P false) (nul false) (pos false i) + (if bool_decide (i = k) then 2 else 0)) N ≤
               sumf (λ i, full_len true (P true) (nul true) (pos true i) + t i) N).
  { apply sumf_le. intros i Hi. pose proof (tail_step (pos true i)) as Hts. fold (t i) in Hts.
    destruct (lookup_lt_is_Some_2 (attrs d) i) as [ai Hai]; [done|]. destruct (lookup_lt_is_Some_2 ns i) as [n Hn]; [lia|].
    unfold full_len. rewrite !(nul_at _ i ai n Hai Hn). destruct (decide (i = k)) as [->|Hne].
    - simplify_eq. rewrite bool_decide_true by done. destruct (var_alen k a Hk Hneg). lia.
    - rewrite bool_decide_false by done. destruct n; [lia|]. pose proof (att_valid_at d dropped Hd i ai Hai) as [Hl _].
      destruct Hl as [Hf|Hv]; [pose proof (fixed_alen i ai Hai Hf); unfold t; lia|].
      destruct (var_alen i ai Hai ltac:(lia)). lia. }
  rewrite !sumf_add in H1. assert (H2 : 2 ≤ sumf (λ i, if bool_decide (i = k) then 2 else 0) N).
  { apply lookup_lt_Some in Hk. assert (Hkn : (k < N)%nat) by done. clear -Hkn. induction N as [|n IH]; [lia|]. cbn [sumf].
    destruct (decide (n = k)) as [->|].
    - rewrite bool_decide_true by done. pose proof (sumf_nonneg (λ i, if bool_decide (i = k) then 2 else 0) k) as Hs. cbn beta in Hs.
      specialize (Hs ltac:(intros; case_bool_decide; lia)). lia.
    - rewrite bool_decide_false by done. specialize (IH ltac:(lia)). lia. }
  lia.
Qed.

Lemma data_start_eq islarge : attrs d ≠ [] →
  fstart islarge = tuple_start junk d dropped hasnull + (first_offset pb + sumf (full_len islarge (P islarge) (nul islarge)) (length (P islarge))).
Proof.
  intros Hne. unfold data_start. rewrite (co_var _ _ _ _ (create_binding_ok junk d dropped Hd islarge)).
  - pose proof (place_eq islarge (P islarge) (first_offset pb) (nul islarge) (length (P islarge))) as E.
    unfold place in E. lia.
  - intros E. apply Hne. apply length_zero_iff_nil. by rewrite <- (length_phys d dropped Hd islarge), E.
Qed.

Lemma no_var_data islarge : (∀ k a, attrs d !! k = Some a → ns !! k = Some false → 0 < attlen a) → fend islarge < 2 ^ 15 + 2 ^ 13.
Proof.
  intros Hno. destruct (row_lengths d vs ns Hrow) as [_ Hln]. unfold data_end.
  rewrite layout_all_null.
  2: { apply Forall_lookup. intros i x Hx. unfold var_nulls in Hx. rewrite lookup_zip_with in Hx.
       destruct (attrs d !! i) as [a|] eqn:Ha; [|done]. destruct (ns !! i) as [n|] eqn:Hn; [|done]. cbn in Hx. injection Hx as <-.
       destruct n; [done|]. symmetry. apply Z.ltb_lt. by eapply Hno. }
  rewrite blen_nil, Z.add_0_r. pose proof (extra_range junk d dropped). pose proof (natts_range d dropped Hd).
  pose proof (ph_range _ _ _ (create_phys_ok junk d dropped Hd islarge)).
  assert (tuple_start junk d dropped hasnull < natts d + 8) by (unfold tuple_start; case_match; unfold natts in *; lia).
  destruct (decide (attrs d = [])) as [E|Hne].
  - unfold data_start. rewrite (nil_length_inv (P islarge)) by (by rewrite (length_phys d dropped Hd), E). cbn [length sumf].
    assert (Ev : var_start (colbind pb islarge) = 8).
    { destruct islarge; cbn; unfold create_col_bind, natts; destruct (bind_previous _ _ _ _) as [[? ?] ?]; cbn [var_start]; by rewrite E. }
    rewrite Ev. lia.
  - rewrite data_start_eq by done.
    pose proof (place_range islarge (P islarge) _ (create_phys_ok junk d dropped Hd islarge) (nul islarge) (length (P islarge)) ltac:(lia)) as Hp.
    unfold place in Hp. lia.
Qed.

Lemma large_not_smaller : MEMTUPLE_LEN_FITSHORT < MEMTUP_ALIGN (fend false) → fend false ≤ fend true.
Proof.
  intros Hlt. destruct (decide (Exists (λ x : Form_pg_attribute * bool, attlen x.1 < 0 ∧ x.2 = false) (zip (attrs d) ns))) as [Hex|Hno].
  - apply Exists_exists in Hex as ([a n] & Hin & Hneg & Hn). cbn in Hneg, Hn. subst n.
    apply list_elem_of_lookup_1 in Hin as [k Hk]. rewrite lookup_zip_with in Hk.
    destruct (attrs d !! k) as [a'|] eqn:Ha; [|done]. destruct (ns !! k) as [n|] eqn:Hn; [|done]. cbn in Hk. injection Hk as -> ->.
    unfold data_end. apply layout_end_mono. assert (Hne : attrs d ≠ []) by (intros E; by rewrite E in Ha).
    rewrite !data_start_eq by done. pose proof (fixed_part_le k a Ha Hneg Hn). lia.
  - exfalso. pose proof (no_var_data false) as Hr.
    assert (fend false < 2 ^ 15 + 2 ^ 13).
    { apply Hr. intros k a Ha Hn. destruct (att_valid_at d dropped Hd k a Ha) as [Hl _]. destruct Hl as [|Hv]; [done|].
      exfalso. apply Hno, Exists_exists. exists (a, false). split; [|cbn; split; [lia|done]].
      apply (list_elem_of_lookup_2 _ k). rewrite lookup_zip_with, Ha. cbn. by rewrite Hn. }
    unfold MEMTUPLE_LEN_FITSHORT, MEMTUP_ALIGN in Hlt. rewrite (TYPEALIGN_pow 3) in Hlt by lia. divlia.
Qed.

(** The size of a row: the length, and whether the tuple is large. *)
Definition row_large : bool := MEMTUPLE_LEN_FITSHORT <? MEMTUP_ALIGN (fend false).
Definition row_len : Z := MEMTUP_ALIGN (fend row_large).

Lemma row_large_len : row_large = (MEMTUPLE_LEN_FITSHORT <? row_len).
Proof.
  unfold row_len. destruct row_large eqn:E; [|exact (eq_sym E)]. unfold row_large in E. apply Z.ltb_lt in E.
  symmetry. apply Z.ltb_lt. eapply Z.lt_le_trans; [exact E|]. pose proof (large_not_smaller E).
  unfold MEMTUP_ALIGN. rewrite !(TYPEALIGN_pow 3) by lia. divlia.
Qed.

Lemma memtuple_size_ok : fend false < 2 ^ 32 - 8 → fend row_large < 2 ^ 32 - 8 →
  compute_memtuple_size pb vs ns hasnull true =
    Some (row_len, sumf (null_len row_large (P row_large) (nul row_large)) (length (P row_large))).
Proof.
  intros Hs Hl. destruct (row_lengths d vs ns Hrow) as [_ Hln]. unfold compute_memtuple_size. cbn [tupdesc create_memtuple_binding].
  change (bind (create_memtuple_binding junk d dropped)) with (colbind pb false).
  change (create_col_bind junk false d dropped _) with (colbind pb false).
  rewrite (bind_size_ok junk d dropped Hd false ns Hln vs hasnull Hrow eq_refl Hs). cbn [mbind option_bind].
  unfold row_len, row_large in *. rewrite Z.leb_antisym. destruct (MEMTUPLE_LEN_FITSHORT <? MEMTUP_ALIGN (fend false)); [|done].
  apply (bind_size_ok junk d dropped Hd true ns Hln vs hasnull Hrow eq_refl Hl).
Qed.
End Size.
