(* ===== verification/MemTupleSpec.v ===== *)
(** Memtuples: what forming, reading and copying them does, for every row, and
    the place of the columns. *)
From Stdlib Require Import Ascii.
From stdpp Require Import prelude numbers list gmap sorting.
From S2P Require Import Prelude Varlena PgLz HeapTuple HeapTupleForm HeapTupleRead HeapTupleSpec Toast ToastRows ToastValue.
From S2P Require Import MemTuple MemTupleBind MemTupleForm MemTupleStore MemTupleFill MemTupleSize.
From S2P Require Import ToastInsert ToastSpec.

Local Open Scope Z_scope.

(** The nulls of a tuple: dropped attributes are null. *)
Definition nulls (ns dropped : list bool) : list bool := zip_with orb ns dropped.

Definition is_external (a : Form_pg_attribute) (v : Datum) : bool :=
  (attlen a =? -1) && match v with ByRef p => VARATT_IS_EXTERNAL p | ByVal _ => false end.

(** Whether a value is stored externally. *)
Fixpoint row_external (atts : list Form_pg_attribute) (vs : list Datum) (ns : list bool) : bool :=
  match atts, vs, ns with
  | a :: atts, v :: vs, n :: ns => negb n && is_external a v || row_external atts vs ns
  | _, _, _ => false
  end.

Section Prepare.
Context {R : Type} `{!ToastAM R, !ToastAMLaws R}.
Context (flatten : list Z → Z → Z → res (list Z)) (palloc : Z → list Z).
Context (palloc_len : ∀ n, 0 ≤ n → blen (palloc n) = n).
Context (flatten_ok : ∀ p typid typmod, varlena_ok p →
  flatten p typid typmod = elog ∨ ∃ q, flatten p typid typmod = ok q ∧ varlena_ok q).
Implicit Types (db : Db R) (p q data : list Z).

(** The value that is stored for a value. *)
Definition prepared_value db (inline : bool) (a : Form_pg_attribute) (v v' : Datum) : Prop :=
  let w := flat_datum flatten a v in
  if inline && is_external a w
  then ∃ p q data, w = ByRef p ∧ v' = ByRef q ∧ value db p data ∧ inline_value q data
  else v' = w.

Inductive prepared db (inline : bool) :
    list Form_pg_attribute → list Datum → list bool → list Datum → Prop :=
| prepared_nil : prepared db inline [] [] [] []
| prepared_null a v atts vs ns vs' :
    prepared db inline atts vs ns vs' → prepared db inline (a :: atts) (v :: vs) (true :: ns) (v :: vs')
| prepared_col a v v' atts vs ns vs' :
    prepared_value db inline a v v' → prepared db inline atts vs ns vs' →
    prepared db inline (a :: atts) (v :: vs) (false :: ns) (v' :: vs').

(** Nothing is fetched for a row without values stored externally. *)
Lemma prepared_flat db inline atts vs ns vs' :
  prepared db inline atts vs ns vs' → row_external atts (flat_row flatten atts vs ns) ns = false → vs' = flat_row flatten atts vs ns.
Proof.
  induction 1 as [|a v atts vs ns vs' _ IH|a v v' atts vs ns vs' Hv _ IH]; [done|..]; cbn [flat_row row_external negb andb orb].
  - intros E. f_equal. by apply IH.
  - intros [Ei E]%orb_false_iff. unfold prepared_value in Hv. rewrite Ei, andb_false_r in Hv. rewrite Hv. f_equal. by apply IH.
Qed.

(** A value that is to be stored inline can be fetched. *)
Definition fetchable db (inline : bool) (a : Form_pg_attribute) (v : Datum) (n : bool) : Prop :=
  n = false → inline = true → is_external a (flat_datum flatten a v) = true →
  ∃ p data, flat_datum flatten a v = ByRef p ∧ value db p data.

(** Flattening the value, the first step. *)
Lemma flat_step a v db (f : Datum → M R (Datum * bool)) :
  attr_ok a v →
  (let^ w := (if may_be_composite a v then
                let^ p := mlift (lift_opt (DatumGetPointer v)) in
                let^ p := mlift (flatten p (atttypid a) (atttypmod a)) in mret (ByRef p)
              else mret v) in f w) db =
  if flat_fails flatten a v then elog else f (flat_datum flatten a v) db.
Proof.
  intros Hok. pose proof (flatten_value_ok flatten flatten_ok a v Hok) as E. unfold flatten_value in E.
  destruct (may_be_composite a v) eqn:Em.
  - destruct v as [z|p]; [done|]. cbn [DatumGetPointer lift_opt fmap option_fmap option_map res_bind] in E.
    unfold mthen, mlift, mret. cbn [DatumGetPointer lift_opt fmap option_fmap option_map res_bind ok].
    destruct (flatten p _ _) as [[q|]|]; cbn [res_bind] in *; destruct (flat_fails _ _ _); try done.
    injection E as E. cbn [ok res_bind]. by rewrite E.
  - destruct (flat_fails _ _ _); [done|]. injection E as <-. done.
Qed.

Lemma prepare_attr_ok db0 db inline a v :
  extends db0 db → db_ok db → attr_ok a v → flat_fails flatten a v = false → fetchable db0 inline a v false →
  runs (prepare_attr false flatten palloc a v inline) db
    (λ r db', prepared_value db0 inline a v r.1 ∧ attr_ok a r.1 ∧ r.2 = is_external a r.1 ∧ extends db db' ∧ db_ok db').
Proof.
  intros Hx0 Hdb Hok Hff Hf. unfold runs, prepare_attr. rewrite flat_step, Hff by done. fold (runs (A := Datum * bool) (R := R)).
  unfold prepared_value.
  pose proof (flat_datum_ok flatten flatten_ok a v Hok) as Hw. unfold fetchable in Hf.
  set (w := flat_datum flatten a v) in *.
  assert (Hstay : ∀ b, inline && is_external a w = false → b = is_external a w → runs (mret (w, b)) db
    (λ r db', (if inline && is_external a w
               then ∃ p q data, w = ByRef p ∧ r.1 = ByRef q ∧ value db0 p data ∧ inline_value q data else r.1 = w) ∧
       attr_ok a r.1 ∧ r.2 = is_external a r.1 ∧ extends db db' ∧ db_ok db')).
  { intros b Ei ->. apply runs_ret. rewrite Ei. by split_and!. }
  destruct (Z.eqb_spec (attlen a) (-1)) as [Ea|Ea].
  2: { assert (Ex : is_external a w = false) by (unfold is_external; by rewrite (proj2 (Z.eqb_neq _ _) Ea)).
       apply Hstay; by rewrite Ex, ?andb_false_r. }
  destruct (varlena_byref a w Hw Ea) as (p & Ew & Eb & Hp). rewrite Ew. eapply runs_bind_opt; [done|]. rewrite <- Ew.
  assert (Ex : is_external a w = VARATT_IS_EXTERNAL p) by (unfold is_external; by rewrite Ea, Ew).
  rewrite Ex in Hstay, Hf |- *. destruct (VARATT_IS_EXTERNAL p) eqn:HE; [|apply Hstay; by rewrite ?andb_false_r].
  destruct inline; [|by apply Hstay]. cbn [andb].
  destruct (Hf eq_refl eq_refl eq_refl) as (p' & data & Ew' & Hv). rewrite Ew in Ew'. injection Ew' as <-.
  apply runs_bind. pose proof (inlined_ok palloc palloc_len db p data Hdb (value_extends _ _ _ _ Hx0 Hv)) as Hrun. unfold heap_tuple_fetch_attr.
  eapply runs_mono; [exact Hrun|]. cbn beta. intros q db' (Hq & Hx%steady_extends & Hdb'). apply runs_ret. cbn [fst snd].
  pose proof (inline_external _ _ Hq) as Hqe. split_and!; try done.
  - by exists p, q, data.
  - split; [done|]. left. split; [done|]. by eapply inline_ok.
  - unfold is_external. by rewrite Ea, Hqe.
Qed.

Lemma prepare_loop_ok inline db0 atts : ∀ dropped vs ns db,
  extends db0 db → db_ok db → length dropped = length atts → length ns = length atts →
  row_ok atts vs (nulls ns dropped) → flat_row_fails flatten atts vs (nulls ns dropped) = false →
  Forall3 (fetchable db0 inline) atts vs (nulls ns dropped) →
  runs (prepare_loop false flatten palloc atts dropped vs ns inline) db
    (λ r db', let '(vs', ns', hasnull, hasext) := r in
       ns' = nulls ns dropped ∧ hasnull = existsb id ns' ∧ hasext = row_external atts vs' ns' ∧ row_ok atts vs' ns' ∧
       prepared db0 inline atts vs ns' vs' ∧ extends db0 db' ∧ db_ok db').
Proof.
  induction atts as [|a atts IH]; intros dropped vs ns db Hx Hdb Hl Hln Hrow Hff Hf.
  { destruct dropped, ns; try done. inversion Hrow; subst. apply runs_ret. split_and!; try done; constructor. }
  destruct dropped as [|dr dropped], ns as [|n ns]; try done. cbn [nulls zip_with] in *.
  inversion Hrow as [|? v ? ? vs0 ? Hc Hrow']; subst. inversion Hf as [|? ? ? ? ? ? Hfc Hf']; subst. cbn [prepare_loop].
  cbn [flat_row_fails] in Hff. apply orb_false_iff in Hff as [Hff1 Hff].
  specialize (IH dropped vs0 ns). cbn [length] in *. destruct (n || dr) eqn:En.
  - apply runs_bind. eapply runs_mono; [apply IH; [done|done|lia|lia|done|done|done]|]. cbn beta. intros [[[vs' ns'] hn] he] db' (-> & -> & -> & Hr & Hp & Hx' & Hdb').
    apply runs_ret. split_and!; try done; [by constructor|by constructor].
  - specialize (Hc eq_refl). apply runs_bind. eapply runs_mono; [by apply (prepare_attr_ok db0); [..|intros _; apply Hfc]|].
    cbn beta. intros [v' ext] db1 (Hpv & Hok & He & Hx1 & Hdb1). cbn [fst snd] in *.
    apply runs_bind. eapply runs_mono; [apply IH; [by trans db|done|lia|lia|done|done|done]|].
    cbn beta. intros [[[vs' ns'] hn] he] db' (-> & -> & -> & Hr & Hp & Hx' & Hdb').
    apply runs_ret. split_and!; try done.
    + cbn [row_external negb andb]. by rewrite He.
    + constructor; [|done]. by intros _.
    + by constructor.
Qed.

(** A value that cannot be flattened is an error, after the values before it
    have been fetched. *)
Lemma prepare_loop_error inline db0 atts : ∀ dropped vs ns db,
  extends db0 db → db_ok db → length dropped = length atts → length ns = length atts →
  row_ok atts vs (nulls ns dropped) → flat_row_fails flatten atts vs (nulls ns dropped) = true →
  Forall3 (fetchable db0 inline) atts vs (nulls ns dropped) →
  prepare_loop false flatten palloc atts dropped vs ns inline db = elog.
Proof.
  induction atts as [|a atts IH]; intros dropped vs ns db Hx Hdb Hl Hln Hrow Hff Hf; [by destruct vs, (nulls ns dropped)|].
  destruct dropped as [|dr dropped], ns as [|n ns]; try done. cbn [nulls zip_with] in *.
  inversion Hrow as [|? v ? ? vs0 ? Hc Hrow']; subst. inversion Hf as [|? ? ? ? ? ? Hfc Hf']; subst. cbn [prepare_loop].
  specialize (IH dropped vs0 ns). cbn [length flat_row_fails] in *. unfold mthen. destruct (n || dr) eqn:En; cbn [negb andb orb] in Hff.
  - rewrite IH by (done || lia). done.
  - specialize (Hc eq_refl). destruct (flat_fails flatten a v) eqn:Ea.
    + unfold prepare_attr. by rewrite flat_step, Ea by done.
    + destruct (prepare_attr_ok db0 db inline a v Hx Hdb Hc Ea ltac:(intros _; by apply Hfc)) as ([v' ext] & db1 & E & _ & _ & _ & Hx1 & Hdb1).
      rewrite E. cbn [ok res_bind]. rewrite IH by (done || lia || by trans db). done.
Qed.
End Prepare.

(** ** Reading *)

Section Reads.
Context (junk : MemTupleAttrBinding) (d : TupleDesc) (dropped : list bool) (Hd : desc_ok d dropped).
Context (islarge : bool) (vs : list Datum) (ns : list bool) (Hrow : row_ok (attrs d) vs ns).
Context (size : Z) (hasext : bool) (m : list Z).

Local Abbreviation pb := (create_memtuple_binding junk d dropped).
Local Abbreviation cols := (slots junk d dropped islarge vs ns).
Local Abbreviation fend := (data_end junk d dropped islarge ns vs (existsb id ns)).

Context (Hm : memtuple_holds junk d dropped islarge vs ns size hasext m).
Context (H8 : (8 | size)) (Hsize : 0 ≤ size < 2 ^ 31) (Hlarge : islarge = (MEMTUPLE_LEN_FITSHORT <? size)).

Local Abbreviation read := (getattr_ok junk d dropped Hd islarge vs ns Hrow size hasext m Hm H8 Hsize Hlarge).
Local Abbreviation word := (word_reads junk d dropped islarge vs ns size hasext m Hm H8 Hsize Hlarge).

Lemma oid_read : MemTupleGetOid m pb = InvalidOid.
Proof. unfold MemTupleGetOid. destruct (mtbind_has_oid pb) eqn:Eo; cbn [negb]; [|done]. by apply (mh_oid _ _ _ _ _ _ _ _ _ Hm). Qed.

Lemma slot_at i : (i < length (attrs d))%nat → ∃ c, cols !! i = Some c.
Proof. intros Hi. apply lookup_lt_is_Some_2. by rewrite (length_slots junk d dropped Hd islarge vs ns Hrow). Qed.

Lemma attisnull_ok i n : tdhasoid d = false → ns !! i = Some n → memtuple_attisnull m pb (Z.of_nat i + 1) = Some n.
Proof.
  intros Eo Hn. pose proof (lookup_lt_Some _ _ _ Hn) as Hi. destruct (row_lengths d vs ns Hrow) as [_ Hl].
  destruct (slot_at i ltac:(lia)) as [c Hc]. unfold memtuple_attisnull. cbn [tupdesc create_memtuple_binding]. unfold natts.
  rewrite (proj2 (Z.ltb_ge _ _)) by lia. destruct word as (_ & _ & _ & -> & _). destruct (existsb id ns) eqn:Eh; cbn [negb].
  - pose proof Hc as (_ & Hb & _ & Hn' & _)%slots_lookup.
    rewrite (get_colbind_eq junk d dropped islarge vs ns size hasext m Hm H8 Hsize Hlarge).
    replace (Z.to_nat (Z.of_nat i + 1 - 1)) with i by lia. rewrite Hb. cbn [mbind option_bind].
    destruct (null_test junk d dropped Hd islarge vs ns m i c (memtuple_get_nullp pb) Hc Eh (mh_bitmap _ _ _ _ _ _ _ _ _ Hm Eh)) as (x & Hx & E).
    assert (En : memtuple_get_nullp pb = 4) by (unfold memtuple_get_nullp, mtbind_has_oid; cbn [tupdesc create_memtuple_binding]; by rewrite Eo).
    rewrite En, lookup_drop in Hx.
    destruct (slot_phys junk d dropped Hd islarge vs ns i c Hc) as (dr & _ & Hbo & _). pose proof (bo_byte _ _ _ _ _ _ Hbo) as Eb.
    replace (Z.to_nat (4 + null_byte (s_bind c))) with (Z.to_nat 4 + Z.to_nat (null_byte (s_bind c)))%nat by (rewrite Eb; divlia).
    rewrite Hx. cbn [mbind option_bind]. rewrite E. congruence.
  - f_equal. by apply (Forall_lookup_1 _ _ _ _ (nulls_exist ns Eh) Hn).
Qed.

Lemma has_external_suffix cs : ∀ pre, cols = pre ++ cs →
  has_external_loop m pb (s_bind <$> cs) (Z.of_nat (length pre) + 1) =
    Some (row_external (s_att <$> cs) (s_val <$> cs) (s_null <$> cs)).
Proof.
  induction cs as [|c cs IH]; intros pre E; [done|]. cbn [fmap list_fmap has_external_loop row_external].
  assert (Hc : cols !! length pre = Some c) by (rewrite E; by apply list_lookup_middle).
  destruct (read (length pre) c Hc) as (x & Eg & Hx).
  assert (Ef : bind_flag (s_bind c) = att_flag (s_att c)).
  { destruct (slot_phys junk d dropped Hd islarge vs ns _ c Hc) as (dr & _ & Hbo & _). apply slots_lookup in Hc as (Ha & _).
    rewrite (bo_flag _ _ _ _ _ _ Hbo). apply pass_flag_eq. by eapply att_valid_at. }
  assert (Es : match bind_flag (s_bind c) with
             | MTB_ByRef =>
                 '(v, null) ← memtuple_getattr m pb (Z.of_nat (length pre) + 1);
                 if null : bool then Some false else p ← DatumGetPointer v; Some (VARATT_IS_EXTERNAL p)
             | _ => Some false end = Some (negb (s_null c) && is_external (s_att c) (s_val c))).
  { rewrite Ef. unfold att_flag, is_external. rewrite Eg. cbn [mbind option_bind].
    destruct (Z.eqb_spec (attlen (s_att c)) (-1)) as [Ea|Ea]; cbn [andb].
    - rewrite (proj2 (Z.ltb_ge _ _)) by lia. destruct (s_null c); cbn [negb andb]; [done|]. destruct (Hx eq_refl) as [Hs Hok].
      unfold same_value in Hs. destruct (s_val c) as [z|p], x as [z'|q]; try done.
      + destruct Hok as [_ Hin]. set_unfold. lia.
      + rewrite Ea in Hs. destruct Hs as [Hs _]. cbn. by rewrite Hs.
    - rewrite andb_false_r. repeat case_match; done. }
  rewrite Es. cbn [mbind option_bind]. destruct (negb (s_null c) && is_external (s_att c) (s_val c)); [done|]. cbn [orb].
  specialize (IH (pre ++ [c])). rewrite length_app in IH. cbn [length] in IH.
  replace (Z.of_nat (length pre) + 1 + 1) with (Z.of_nat (length pre + 1) + 1) by lia. apply IH. by rewrite <- app_assoc.
Qed.
Lemma has_external_ok : MemTupleHasExternal m pb = Some (row_external (attrs d) vs ns).
Proof.
  pose proof (has_external_suffix cols [] eq_refl) as E. destruct (slots_lists junk d dropped Hd islarge vs ns Hrow) as (Ea & Eb & Ev & En).
  rewrite Ea, Eb, Ev, En in E. unfold MemTupleHasExternal.
  by rewrite (get_colbind_eq junk d dropped islarge vs ns size hasext m Hm H8 Hsize Hlarge).
Qed.

(** A copy of the bytes of the tuple holds the row. *)
Lemma copy_holds buf : fend ≤ size ≤ blen m → size ≤ blen buf →
  ∃ c, copy_bytes buf 0 m size = Some c ∧ blen c = blen buf ∧ memtuple_holds junk d dropped islarge vs ns size hasext c.
Proof.
  intros Hf Hb. exists (memcpy buf 0 (take (Z.to_nat size) m)). split; [apply copy_bytes_ok; lia|]. split; [apply blen_memcpy|].
  eapply memtuple_holds_same; [done|done|exact Hm|lia|lia|]. intros j Hj.
  pose proof (holds_write buf 0 (take (Z.to_nat size) m) ltac:(lia) ltac:(rewrite blen_take by lia; lia)) as Hh.
  pose proof (holds_bytes_lookup _ 0 _ j (Z.le_refl 0) Hh) as E. change (Z.to_nat 0 + j)%nat with j in E. rewrite E by (rewrite length_take; unfold blen in *; lia).
  by rewrite lookup_take_lt by lia.
Qed.
End Reads.

(** ** Forming *)

(** A tuple of [len] bytes is put into [dest], memory of the caller, or into new
    memory: what the result [r] is, which [mk] makes from the tuple and the new
    [*destlen], [Q] being what the tuple satisfies. *)
Definition put_tuple {A} (r : res A) (mk : option (list Z) → option Z → A) (len : Z) (dest : option (list Z))
    (Q : list Z → Prop) : Prop :=
  match dest with
  | None => if len <? MaxAllocSize then ∃ m, r = ok (mk (Some m) None) ∧ blen m = len ∧ Q m else r = elog
  | Some buf =>
      if blen buf <? len then r = ok (mk None (Some len))
      else ∃ m, r = ok (mk (Some m) (Some len)) ∧ blen m = blen buf ∧ Q m
  end.

Lemma put_tuple_mono {A} (r : res A) mk len dest (Q Q' : list Z → Prop) :
  (∀ m, Q m → Q' m) → put_tuple r mk len dest Q → put_tuple r mk len dest Q'.
Proof. intros H. unfold put_tuple. destruct dest; case_match; try done; intros (m & ? & ? & ?); eauto. Qed.

Section Formed.
Context {R : Type} `{!ToastAM R, !ToastAMLaws R}.
Context (flatten : list Z → Z → Z → res (list Z)) (palloc : Z → list Z).
Context (palloc_len : ∀ n, 0 ≤ n → blen (palloc n) = n).
Context (flatten_ok : ∀ p typid typmod, varlena_ok p →
  flatten p typid typmod = elog ∨ ∃ q, flatten p typid typmod = ok q ∧ varlena_ok q).
Context (junk : MemTupleAttrBinding) (d : TupleDesc) (dropped : list bool) (Hd : desc_ok d dropped).
Implicit Types (db : Db R) (vs : list Datum) (ns : list bool).

Local Abbreviation pb := (create_memtuple_binding junk d dropped).
Local Abbreviation large vs ns := (row_large junk d dropped vs ns).
Local Abbreviation len vs ns := (row_len junk d dropped vs ns).

(** Where the data of a row end, in the binding that is used for it. *)
Definition row_end vs ns : Z := data_end junk d dropped (large vs ns) ns vs (existsb id ns).

(** The tuple of a row. *)
Definition tuple_of vs ns (m : list Z) : Prop :=
  memtuple_holds junk d dropped (large vs ns) vs ns (len vs ns) (row_external (attrs d) vs ns) m ∧ len vs ns ≤ blen m.

Lemma row_len_range vs ns : row_end vs ns < 2 ^ 31 - 8 →
  (8 | len vs ns) ∧ row_end vs ns ≤ len vs ns < 2 ^ 31.
Proof.
  intros Hr. unfold row_len. fold (row_end vs ns). destruct (len_range junk d dropped (large vs ns) vs ns) as (H & Hle & _).
  split; [done|]. split; [done|]. unfold MEMTUP_ALIGN. rewrite (TYPEALIGN_pow 3) by lia. divlia.
Qed.

Lemma row_end_nonneg vs ns : row_ok (attrs d) vs ns → 0 ≤ row_end vs ns.
Proof.
  intros Hrow. destruct (len_range junk d dropped (large vs ns) vs ns) as (_ & _ & H).
  pose proof (hlen_range junk d dropped Hd (large vs ns) vs ns Hrow). unfold row_end. lia.
Qed.

Lemma row_size_ok vs ns : row_ok (attrs d) vs ns → row_end vs ns < 2 ^ 31 - 8 →
  ∃ saves, compute_memtuple_size pb vs ns (existsb id ns) true = Some (len vs ns, saves) ∧
    ∀ buf, len vs ns ≤ blen buf →
      ∃ m, fill_memtuple pb vs ns (existsb id ns) (row_external (attrs d) vs ns) true (len vs ns) saves buf = ok m ∧
        blen m = blen buf ∧ tuple_of vs ns m.
Proof.
  intros Hrow Hr. eexists. split.
  - apply memtuple_size_ok; [done|done| |unfold row_end in Hr; lia].
    unfold row_end in Hr. destruct (large vs ns) eqn:E; [|lia]. unfold row_large in E. apply Z.ltb_lt in E.
    pose proof (large_not_smaller junk d dropped Hd vs ns Hrow E). lia.
  - intros buf Hb. destruct (row_len_range vs ns Hr) as [_ Hl].
    destruct (fill_memtuple_ok junk d dropped Hd (large vs ns) vs ns Hrow buf (row_external (attrs d) vs ns)) as (m & E & Hm & Hh).
    + by apply row_large_len.
    + apply Hl.
    + done.
    + exists m. split; [exact E|]. split; [done|]. split; [done|lia].
Qed.

Section Tuple.
Context (vs : list Datum) (ns : list bool) (Hrow : row_ok (attrs d) vs ns) (Hr : row_end vs ns < 2 ^ 31 - 8).
Context (m : list Z) (Hm : tuple_of vs ns m).

Lemma tuple_facts :
  (8 | len vs ns) ∧ 0 ≤ len vs ns < 2 ^ 31 ∧ large vs ns = (MEMTUPLE_LEN_FITSHORT <? len vs ns).
Proof.
  destruct (row_len_range vs ns Hr) as [H8 Hl]. pose proof (row_end_nonneg vs ns Hrow). split; [done|]. split; [lia|by apply row_large_len].
Qed.

Lemma tuple_head :
  memtuple_get_size m = len vs ns ∧ memtuple_get_islarge m = (MEMTUPLE_LEN_FITSHORT <? len vs ns) ∧
  memtuple_get_hasext m = row_external (attrs d) vs ns ∧ memtuple_get_hasnull m = existsb id ns ∧
  MemTupleGetOid m pb = InvalidOid ∧ memtuple_lead_bit_set m = true.
Proof.
  destruct tuple_facts as (H8 & Hl & Hlg). destruct Hm as [Hh _].
  destruct (word_reads _ _ _ _ _ _ _ _ _ Hh H8 Hl Hlg) as (? & E & ? & ? & ?). split_and!; try done; [congruence|by eapply oid_read].
Qed.

Lemma tuple_deform : ∃ ds, memtuple_deform m pb = Some (ds, ns) ∧ same_row (attrs d) vs ns ds.
Proof. destruct tuple_facts as (H8 & Hl & Hlg). destruct Hm as [Hh _]. by eapply deform_ok. Qed.

Lemma tuple_copy buf : len vs ns ≤ blen buf →
  ∃ c, copy_bytes buf 0 m (len vs ns) = Some c ∧ blen c = blen buf ∧ tuple_of vs ns c.
Proof.
  intros Hb. destruct (row_len_range vs ns Hr) as [_ Hl]. destruct tuple_facts as (_ & Hl0 & _). destruct Hm as [Hh Hlm].
  destruct (copy_holds junk d dropped Hd (large vs ns) vs ns Hrow _ _ m Hh Hl0 buf) as (c & E & Hc & Hhc); [unfold row_end in Hl; lia|done|].
  exists c. split; [done|]. split; [done|]. split; [done|lia].
Qed.
End Tuple.

(** *** What is read back *)

(** The tuple announces the row and is read as it. *)
Definition reads_row vs' nn (m : list Z) : Prop :=
  memtuple_get_size m = len vs' nn ∧ memtuple_get_islarge m = (MEMTUPLE_LEN_FITSHORT <? len vs' nn) ∧
  memtuple_get_hasnull m = existsb id nn ∧ memtuple_get_hasext m = row_external (attrs d) vs' nn ∧
  MemTupleGetOid m pb = InvalidOid ∧ memtuple_lead_bit_set m = true ∧
  ∃ ds, memtuple_deform m pb = Some (ds, nn) ∧ same_row (attrs d) vs' nn ds.

Lemma tuple_reads vs' nn m : row_ok (attrs d) vs' nn → row_end vs' nn < 2 ^ 31 - 8 → tuple_of vs' nn m → reads_row vs' nn m.
Proof.
  intros Hr He Hm. destruct (tuple_head vs' nn Hr He m Hm) as (? & ? & ? & ? & ? & ?). split_and!; try done. by apply tuple_deform.
Qed.

Lemma copy_ok vs' nn m dest : row_ok (attrs d) vs' nn → row_end vs' nn < 2 ^ 31 - 8 → tuple_of vs' nn m →
  put_tuple (memtuple_copy_to palloc m dest) pair (memtuple_get_size m) dest (tuple_of vs' nn).
Proof.
  intros Hr He Hm. destruct (tuple_head vs' nn Hr He m Hm) as (Es & _). destruct (tuple_facts vs' nn Hr He) as (_ & Hl & _).
  unfold put_tuple, memtuple_copy_to. rewrite Es. destruct dest as [buf|].
  - destruct (Z.ltb_spec (blen buf) (len vs' nn)); [done|]. destruct (tuple_copy vs' nn Hr He m Hm buf ltac:(lia)) as (c & E & Hc & Ht).
    exists c. by rewrite E.
  - unfold alloc. rewrite (proj2 (Z.leb_le 0 _)) by lia. cbn [andb]. destruct (len vs' nn <? MaxAllocSize); [|done]. cbn [res_bind ok].
    assert (Hpl : blen (palloc (len vs' nn)) = len vs' nn) by (apply palloc_len; lia).
    destruct (tuple_copy vs' nn Hr He m Hm (palloc (len vs' nn)) ltac:(lia)) as (c & E & Hc & Ht).
    exists c. rewrite E. split_and!; [done|congruence|done].
Qed.

(** *** The steps before the tuple is filled *)

Section Run.
Context (db : Db R) (inline : bool) (vs : list Datum) (ns : list bool).
Local Abbreviation ns' := (nulls ns dropped).
Context (Hdb : db_ok db) (Hns : length ns = length (attrs d)) (Hrow : row_ok (attrs d) vs ns').
Context (Hf : Forall3 (fetchable flatten db inline) (attrs d) vs ns').

Lemma form_error dest : flat_row_fails flatten (attrs d) vs ns' = true →
  memtuple_form_to false flatten palloc pb vs ns dest inline db = elog.
Proof.
  intros Hff. unfold memtuple_form_to, memtuple_form_to_align. unfold mthen at 1. cbn [tupdesc attisdropped create_memtuple_binding].
  rewrite (prepare_loop_error flatten palloc palloc_len flatten_ok inline db (attrs d) dropped vs ns db) by (done || apply Hd). done.
Qed.

Lemma form_ok : flat_row_fails flatten (attrs d) vs ns' = false → ∃ vs' db', prepared flatten db inline (attrs d) vs ns' vs' ∧ row_ok (attrs d) vs' ns' ∧ extends db db' ∧
  db_ok db' ∧ (row_end vs' ns' < 2 ^ 31 - 8 → ∀ dest,
    put_tuple (memtuple_form_to false flatten palloc pb vs ns dest inline db) (λ m l, (m, l, ns', db')) (len vs' ns') dest
      (tuple_of vs' ns')).
Proof.
  intros Hff. destruct (prepare_loop_ok flatten palloc palloc_len flatten_ok inline db (attrs d) dropped vs ns db)
    as ([[[vs' nn] hn] he] & db' & E & -> & -> & -> & Hr & Hp & Hx & Hdb'); [done|done|apply Hd|done..|].
  exists vs', db'. split; [done|]. split; [done|]. split; [done|]. split; [done|]. intros Hend dest. unfold put_tuple.
  destruct (row_size_ok vs' ns' Hr Hend) as (saves & Es & Hfill).
  assert (Erun : memtuple_form_to false flatten palloc pb vs ns dest inline db =
    match dest with
    | None => (let^ mtup := mlift (alloc palloc (len vs' ns')) in
               let^ mtup := mlift (fill_memtuple pb vs' ns' (existsb id ns') (row_external (attrs d) vs' ns') true (len vs' ns') saves mtup) in
               mret (Some mtup, None, ns')) db'
    | Some mtup => (if blen mtup <? len vs' ns' then mret (None, Some (len vs' ns'), ns') else
               let^ mtup := mlift (fill_memtuple pb vs' ns' (existsb id ns') (row_external (attrs d) vs' ns') true (len vs' ns') saves mtup) in
               mret (Some mtup, Some (len vs' ns'), ns')) db'
    end).
  { unfold memtuple_form_to, memtuple_form_to_align. unfold mthen at 1. cbn [tupdesc attisdropped create_memtuple_binding].
    rewrite E. cbn [res_bind ok]. unfold mthen at 1. unfold mlift at 1. rewrite Es. by destruct dest. }
  rewrite Erun. destruct (row_len_range vs' ns' Hend) as [_ Hl]. pose proof (row_end_nonneg vs' ns' Hr).
  destruct dest as [buf|].
  - destruct (Z.ltb_spec (blen buf) (len vs' ns')); [done|]. destruct (Hfill buf) as (m & Em & Hm & Ht); [lia|].
    exists m. unfold mthen, mlift. by rewrite Em.
  - unfold mthen at 1. unfold mlift at 1. unfold alloc. rewrite (proj2 (Z.leb_le 0 _)) by lia. cbn [andb].
    destruct (Z.ltb_spec (len vs' ns') MaxAllocSize); [|done]. cbn [res_bind ok].
    assert (Hpl : blen (palloc (len vs' ns')) = len vs' ns') by (apply palloc_len; lia).
    destruct (Hfill (palloc (len vs' ns'))) as (m & Em & Hm & Ht); [lia|]. exists m. unfold mthen, mlift. rewrite Em. split_and!; [done|congruence|done].
Qed.

Lemma formed_tuple dest m l db' : memtuple_form_to false flatten palloc pb vs ns dest inline db = ok (Some m, l, ns', db') →
  ∃ vs', prepared flatten db inline (attrs d) vs ns' vs' ∧ row_ok (attrs d) vs' ns' ∧ (row_end vs' ns' < 2 ^ 31 - 8 → tuple_of vs' ns' m).
Proof.
  intros E. destruct (flat_row_fails flatten (attrs d) vs ns') eqn:Hff; [by rewrite form_error in E|].
  destruct (form_ok Hff) as (vs' & db1 & Hp & Hr & _ & _ & Hput). exists vs'. split; [done|]. split; [done|].
  intros He. specialize (Hput He dest). unfold put_tuple in Hput. rewrite E in Hput.
  destruct dest as [buf|]; case_match; [done| |  |done]; destruct Hput as (m' & E' & _ & Hm); by simplify_eq.
Qed.

End Run.

Lemma deform_getattr m (pbind : MemTupleBinding) ds ns i x n :
  memtuple_deform m pbind = Some (ds, ns) → ds !! i = Some x → ns !! i = Some n →
  memtuple_getattr m pbind (Z.of_nat i + 1) = Some (x, n).
Proof.
  unfold memtuple_deform, memtuple_get_values. intros E Hx Hn. apply bind_Some in E as (l & E & [= <- <-]).
  rewrite list_lookup_fmap in Hx. rewrite list_lookup_fmap in Hn. destruct (l !! i) as [[x' n']|] eqn:El; [|done]. cbn in Hx, Hn. simplify_eq.
  apply mapM_Some_1 in E. destruct (Forall2_lookup_r _ _ _ _ _ E El) as (k & Hk & Eg).
  apply lookup_seqZ in Hk as [-> _]. by rewrite Z.add_comm.
Qed.

(** C3.  Forming a memtuple and reading it back gives the row, in a process that
    is not the executor and a table the lengths of whose columns, each rounded
    up to 8 bytes and 8 bytes for the offset of a variable one, add up to less
    than 2^15.  For any values of the columns: a composite value that
    cannot be flattened is an error; otherwise, for a row that ends before
    2^31 - 8 bytes and whatever memory is given for the tuple: when it is too
    small, nothing is formed and the length that is needed is returned; new
    memory that cannot be allocated is an error; and otherwise the tuple
    announces its length, whether it is large, has nulls or values stored
    externally, and no object identifier, and deforming it returns the nulls,
    with dropped columns null, and values equal to those given, composite
    values flattened and, with [inline_toast], values stored externally
    fetched. *)
Theorem memtuple_form_deform db inline vs ns :
  let ns' := nulls ns dropped in
  db_ok db → length ns = length (attrs d) → row_ok (attrs d) vs ns' →
  Forall3 (fetchable flatten db inline) (attrs d) vs ns' →
  if flat_row_fails flatten (attrs d) vs ns' then
    ∀ dest, memtuple_form_to false flatten palloc pb vs ns dest inline db = elog
  else ∃ vs' db', prepared flatten db inline (attrs d) vs ns' vs' ∧ extends db db' ∧ db_ok db' ∧
    (row_end vs' ns' < 2 ^ 31 - 8 → ∀ dest,
       put_tuple (memtuple_form_to false flatten palloc pb vs ns dest inline db) (λ m l, (m, l, ns', db'))
         (len vs' ns') dest (reads_row vs' ns')).
Proof.
  intros ns' Hdb Hns Hrow Hf. destruct (flat_row_fails flatten (attrs d) vs ns') eqn:Hff; [intros dest; by apply form_error|].
  destruct (form_ok db inline vs ns Hdb Hns Hrow Hf Hff) as (vs' & db' & Hp & Hr & Hx & Hdb' & Hput).
  exists vs', db'. split_and!; try done. intros He dest. eapply put_tuple_mono; [|by apply Hput]. intros m. by apply tuple_reads.
Qed.

(** C30.  The readers of a memtuple agree.  For a tuple that has been formed,
    memtuple_getattr returns for every column what memtuple_deform returns;
    memtuple_attisnull says whether a column of a table without object
    identifiers is null, and that columns beyond the descriptor are;
    MemTupleHasExternal finds a value stored externally exactly when the header
    announces one; and a copy, into memory that is large enough, reads as the
    same row. *)
Theorem memtuple_reads_agree db inline vs ns dest m l db' :
  let ns' := nulls ns dropped in
  db_ok db → length ns = length (attrs d) → row_ok (attrs d) vs ns' →
  Forall3 (fetchable flatten db inline) (attrs d) vs ns' →
  memtuple_form_to false flatten palloc pb vs ns dest inline db = ok (Some m, l, ns', db') →
  ∃ vs', prepared flatten db inline (attrs d) vs ns' vs' ∧
    (row_end vs' ns' < 2 ^ 31 - 8 → ∃ ds, memtuple_deform m pb = Some (ds, ns') ∧
       (∀ i x n, ds !! i = Some x → ns' !! i = Some n → memtuple_getattr m pb (Z.of_nat i + 1) = Some (x, n)) ∧
       (∀ attnum, natts d < attnum → memtuple_attisnull m pb attnum = Some true) ∧
       (tdhasoid d = false → ∀ i n, ns' !! i = Some n → memtuple_attisnull m pb (Z.of_nat i + 1) = Some n) ∧
       MemTupleHasExternal m pb = Some (memtuple_get_hasext m) ∧
       ∀ dest, put_tuple (memtuple_copy_to palloc m dest) pair (memtuple_get_size m) dest (reads_row vs' ns')).
Proof.
  intros ns' Hdb Hns Hrow Hf E. destruct (formed_tuple db inline vs ns Hdb Hns Hrow Hf dest m l db' E) as (vs' & Hp & Hr & Hm).
  exists vs'. split; [done|]. intros He. specialize (Hm He). destruct (tuple_deform vs' ns' Hr He m Hm) as (ds & Ed & Hs).
  destruct (tuple_facts vs' ns' Hr He) as (H8 & Hl & Hlg). pose proof Hm as [Hh _]. exists ds. split_and!; [done|..].
  - intros i x n. by apply deform_getattr.
  - intros attnum Ha. unfold memtuple_attisnull. cbn [tupdesc create_memtuple_binding]. by rewrite (proj2 (Z.ltb_lt _ _) Ha).
  - intros Eo i n Hn. by eapply attisnull_ok.
  - destruct (tuple_head vs' ns' Hr He m Hm) as (_ & _ & -> & _). by eapply has_external_ok.
  - intros dest'. eapply put_tuple_mono; [|by apply copy_ok]. intros c. by apply tuple_reads.
Qed.
End Formed.

(** ** The place of the columns *)

Section Layout.
Context (junk : MemTupleAttrBinding) (d : TupleDesc) (dropped : list bool) (Hd : desc_ok d dropped).
Context (islarge : bool) (ns : list bool) (Hns : length ns = length (attrs d)).

Local Abbreviation pb := (create_memtuple_binding junk d dropped).
Local Abbreviation cb := (colbind pb islarge).
Local Abbreviation P := (physical islarge (attrs d) dropped).
Local Abbreviation OK := (create_phys_ok junk d dropped Hd islarge).
Local Abbreviation HCB := (create_binding_ok junk d dropped Hd islarge).
Local Abbreviation pos := (phys_of d dropped islarge).
Local Abbreviation nul := (phys_null d dropped islarge ns).
Local Abbreviation start := (tuple_start junk d dropped (existsb id ns)).

(** The alignment of what is stored for a column. *)
Definition stored_align (a : Form_pg_attribute) : ascii :=
  if 0 <? attlen a then attalign a else if islarge then "i"%char else "s"%char.

(** The bits of the bitmap are those of the nulls. *)
Definition bits_of (bits : list Z) : Prop := Forall is_byte bits ∧
  ∀ i b n, bindings cb !! i = Some b → ns !! i = Some n →
    ∃ x, bits !! Z.to_nat (null_byte b) = Some x ∧ negb (Z.land x (null_mask b) =? 0) = n.

Lemma bits_bitmap bits : bits_of bits → bitmap_ok P nul bits.
Proof.
  intros [Hby Hbit]. assert (Hat : ∀ q, (q < length P)%nat → ∃ x, bits !! Z.to_nat (Z.of_nat q `div` 8) = Some x ∧ Z.testbit x (Z.of_nat q `mod` 8) = nul q).
  { intros q Hq. destruct (lookup_lt_is_Some_2 P q) as [c Hc]; [done|]. destruct (co_bound _ _ _ _ HCB q c Hc) as (b & Hb & Hbo & _).
    pose proof (lookup_lt_Some _ _ _ Hb) as Hlt. rewrite (length_binds junk d dropped Hd) in Hlt.
    destruct (lookup_lt_is_Some_2 ns c.1) as [n Hn]; [lia|]. destruct (Hbit c.1 b n Hb Hn) as (x & Hx & E).
    rewrite (bo_byte _ _ _ _ _ _ Hbo) in Hx. rewrite (bo_mask _ _ _ _ _ _ Hbo), land_pow2_bit in E by divlia. exists x. split; [done|].
    unfold phys_null. by rewrite Hc, Hn. }
  split.
  - intros B HB. destruct (Hat (8 * B)%nat HB) as (x & Hx & _). exists x.
    replace (Z.to_nat (Z.of_nat (8 * B) `div` 8)) with B in Hx by divlia. split; [done|]. by eapply (Forall_lookup_1 _ _ _ _ Hby).
  - intros q Hq. destruct (Hat q Hq) as (x & Hx & E). unfold null_bit. by rewrite Hx.
Qed.

Lemma fixed_align a : att_valid a → 0 < attlen a → pass_align (bind_pass islarge a) = attalign a.
Proof.
  intros [_ Hal] Hpos. unfold bind_pass. rewrite (proj2 (Z.ltb_ge _ _)) by lia. unfold align_chars in Hal. set_unfold in Hal.
  destruct Hal as [E|[E|[E|[E|[]]]]]; by rewrite E.
Qed.

Lemma column_place i a b nullp :
  attrs d !! i = Some a → bindings cb !! i = Some b → nulls_ok P nul nullp →
  memtuple_get_attr_ptr start b (Some (null_saves_aligned cb)) nullp = Some (start + place islarge P (first_offset pb) nul (pos i)) ∧
  (align_of (stored_align a) | start + place islarge P (first_offset pb) nul (pos i)).
Proof.
  intros Ha Hb Hn. destruct (phys_of_at junk d dropped Hd islarge i a Ha) as (dr & b' & Hp & Hb' & _). simplify_eq.
  split; [by eapply attr_ptr_ok; [apply OK|apply HCB|..]|]. pose proof (att_valid_at d dropped Hd i a Ha) as Hav.
  assert (El : align_of (stored_align a) = align_of (col_align islarge (i, (a, dr)))).
  { f_equal. unfold stored_align, col_align. cbn [fst snd]. destruct (Z.ltb_spec 0 (attlen a)); [by rewrite fixed_align|].
    unfold bind_pass. rewrite (proj2 (Z.ltb_lt _ _)) by (destruct (av_len _ Hav); lia). by destruct islarge. }
  rewrite El. apply Z.divide_add_r; [|by eapply place_aligned; [apply OK|]]. unfold tuple_start. case_match; [|apply Z.divide_0_r].
  eapply Z.divide_trans; [apply (col_align_divides junk d dropped); [done|by eapply list_elem_of_lookup_2]|]. apply extra_divide.
Qed.

(** C2.  The columns of a memtuple do not overlap, in a table the lengths of whose
    columns, each rounded up to 8 bytes and 8 bytes for the offset of a
    variable one, add up to less than 2^15.  Whichever columns are null, in a
    small and in a large tuple, the places that are computed from the
    binding and the null bitmap are aligned as the types, or the offsets, need;
    those of columns that are not null follow the header and the bitmap, end
    where the variable part starts, and are disjoint. *)
Theorem memtuple_layout bits :
  bits_of bits →
  let nullp := if existsb id ns then Some bits else None in
  let start := if existsb id ns then null_bitmap_extra_size pb else 0 in
  let header := memtuple_get_nullp pb + (if existsb id ns then memtuple_get_nullp_len pb else 0) in
  ∃ ptr : nat → Z, ∀ i a b, attrs d !! i = Some a → bindings cb !! i = Some b →
    memtuple_get_attr_ptr start b (get_saves cb true) nullp = Some (ptr i) ∧
    (align_of (stored_align a) | ptr i) ∧
    (ns !! i = Some false →
       header ≤ ptr i ∧ ptr i + bind_len b ≤ start + (var_start cb - null_length (bindings cb) ns true 0) ∧
       ∀ j b', j ≠ i → bindings cb !! j = Some b' → ns !! j = Some false →
         ptr i + bind_len b ≤ ptr j ∨ ptr j + bind_len b' ≤ ptr i).
Proof.
  intros Hbits nullp start' header. change start' with start. clear start'. exists (λ i, start + place islarge P (first_offset pb) nul (pos i)). intros i a b Ha Hb.
  assert (Hn : nulls_ok P nul nullp).
  { unfold nullp. destruct (existsb id ns) eqn:Eh; [by apply bits_bitmap|]. intros q _. unfold phys_null. destruct (P !! q) as [c|]; [|done].
    destruct (ns !! c.1) as [n|] eqn:En; [|done]. symmetry. by apply (Forall_lookup_1 _ _ _ _ (nulls_exist ns Eh) En). }
  destruct (column_place i a b nullp Ha Hb Hn) as [Ep Hal]. split; [exact Ep|]. split; [exact Hal|]. intros Hni.
  assert (Hcol : ∀ j b', bindings cb !! j = Some b' → ns !! j = Some false →
    ∃ a' dr, P !! pos j = Some (j, (a', dr)) ∧ bind_len b' = col_width islarge (j, (a', dr)) ∧ nul (pos j) = false).
  { intros j b' Hb' Hnj. pose proof (lookup_lt_Some _ _ _ Hnj). destruct (lookup_lt_is_Some_2 (attrs d) j) as [a' Ha']; [lia|].
    destruct (phys_of_at junk d dropped Hd islarge j a' Ha') as (dr & b2 & Hp & Hb2 & Hbo & _). simplify_eq. exists a', dr.
    split; [done|]. split; [apply Hbo|]. unfold phys_null. rewrite Hp. cbn [fst]. by rewrite Hnj. }
  destruct (Hcol i b Hb Hni) as (a1 & dr & Hp & Hw & Hnul). pose proof (lookup_lt_Some _ _ _ Hp) as Hlt.
  pose proof (place_range islarge P _ OK nul (pos i) ltac:(lia)) as Hpr. split; [|split].
  - assert (Hh : header ≤ start + first_offset pb); [|lia]. unfold header.
    destruct (header_room junk d dropped ns) as (Hnp & _ & _ & _ & Hs & Hroom). destruct (existsb id ns); [specialize (Hroom eq_refl)|]; lia.
  - rewrite (null_length_ok junk d dropped Hd islarge ns Hns). rewrite Hw.
    pose proof (place_next islarge P _ OK nul _ (length P) _ Hp Hnul Hlt) as Hnext.
    pose proof (data_start_range junk d dropped Hd islarge ns Hns (existsb id ns)) as Hds. unfold data_start in Hds. lia.
  - intros j b' Hne Hb' Hnj. destruct (Hcol j b' Hb' Hnj) as (a2 & dr2 & Hp2 & Hw2 & Hnul2). rewrite Hw, Hw2.
    destruct (decide (pos i = pos j)) as [E|]; [rewrite E in Hp; simplify_eq|].
    destruct (decide (pos i < pos j)%nat).
    + left. pose proof (place_next islarge P _ OK nul _ (pos j) _ Hp Hnul ltac:(lia)). lia.
    + right. pose proof (place_next islarge P _ OK nul _ (pos i) _ Hp2 Hnul2 ltac:(lia)). lia.
Qed.
End Layout.

(** ** Example *)

#[local] Existing Instances slots_am slots_laws.

Definition no_binding : MemTupleAttrBinding := mkBinding 0 0 0 MTB_ByVal_Native 0 0.
Definition demo_dropped : list bool := replicate 5 false.
Definition demo_binding : MemTupleBinding := create_memtuple_binding no_binding demo_desc demo_dropped.

Lemma demo_desc_ok : desc_ok demo_desc demo_dropped.
Proof.
  split; [|done|done|].
  - repeat constructor; cbn; first [lia|unfold align_chars; set_solver].
  - repeat constructor; cbn; unfold BPCHAROID; lia.
Qed.

Lemma demo_fetchable : Forall3 (fetchable demo_flatten toast_db true) demo_attrs demo_values demo_nulls.
Proof. repeat constructor; intros _ _ E; vm_compute in E; discriminate E. Qed.

Lemma memtuple_layout_witness :
  ∃ ptr : nat → Z, (8 | ptr 4%nat) ∧ (ptr 4%nat + 8 ≤ ptr 0%nat ∨ ptr 0%nat + 4 ≤ ptr 4%nat).
Proof.
  destruct (memtuple_layout no_binding demo_desc demo_dropped demo_desc_ok false demo_nulls eq_refl [8]) as [ptr H].
  - split; [by repeat constructor|]. intros i b n Hb Hn.
    do 5 (destruct i as [|i]; [vm_compute in Hb, Hn; injection Hb as <-; injection Hn as <-; eexists; split; reflexivity|]). done.
  - exists ptr. destruct (H 4%nat _ _ eq_refl eq_refl) as (_ & Hal & Hd). split; [exact Hal|].
    destruct (Hd eq_refl) as (_ & _ & Ha). exact (Ha 0%nat _ ltac:(lia) eq_refl eq_refl).
Defined.

Lemma demo_row_len : row_len no_binding demo_desc demo_dropped demo_values demo_nulls = 40.
Proof. by vm_compute. Qed.

Lemma demo_row_end : row_end no_binding demo_desc demo_dropped demo_values demo_nulls < 2 ^ 31 - 8.
Proof. by vm_compute. Qed.

Lemma demo_prepared vs' : prepared demo_flatten toast_db true demo_attrs demo_values demo_nulls vs' → vs' = demo_values.
Proof. intros Hp. by apply prepared_flat in Hp; [|reflexivity]. Qed.

Lemma memtuple_form_deform_witness :
  ∃ m db' ds, memtuple_form_to false demo_flatten demo_palloc demo_binding demo_values demo_nulls None true toast_db =
      ok (Some m, None, demo_nulls, db') ∧ memtuple_get_size m = 40 ∧ memtuple_deform m demo_binding = Some (ds, demo_nulls).
Proof.
  destruct (memtuple_form_deform demo_flatten demo_palloc demo_palloc_len demo_flatten_ok no_binding demo_desc demo_dropped demo_desc_ok
    toast_db true demo_values demo_nulls toast_db_ok eq_refl demo_row demo_fetchable) as (vs' & db' & Hp & _ & _ & H).
  apply demo_prepared in Hp as ->. specialize (H demo_row_end None). unfold put_tuple, reads_row in H.
  change (nulls demo_nulls demo_dropped) with demo_nulls in H. rewrite demo_row_len in H. change (40 <? MaxAllocSize) with true in H. cbv iota in H.
  destruct H as (m & E & _ & Hs & _ & _ & _ & _ & _ & ds & Ed & _). exists m, db', ds. split; [exact E|]. split; [exact Hs|exact Ed].
Defined.

(** The tuple that is formed. *)
Definition demo_memtuple : list Z :=
  match memtuple_form_to false demo_flatten demo_palloc demo_binding demo_values demo_nulls None true toast_db with
  | Some (Return (Some m, _, _, _)) => m
  | _ => []
  end.

Lemma memtuple_reads_agree_witness :
  memtuple_getattr demo_memtuple demo_binding 5 = Some (ByVal 5, false) ∧
  MemTupleHasExternal demo_memtuple demo_binding = Some false ∧
  memtuple_attisnull demo_memtuple demo_binding 6 = Some true.
Proof.
  destruct (memtuple_reads_agree demo_flatten demo_palloc demo_palloc_len demo_flatten_ok no_binding demo_desc demo_dropped demo_desc_ok
    toast_db true demo_values demo_nulls None demo_memtuple None toast_db toast_db_ok eq_refl demo_row demo_fetchable)
    as (vs' & Hp & H); [by vm_compute|].
  apply demo_prepared in Hp as ->. destruct (H demo_row_end) as (ds & Ed & Hg & Hb & _ & He & _).
  assert (Hds : ds !! 4%nat = Some (ByVal 5)) by (vm_compute in Ed; by injection Ed as <-).
  split; [exact (Hg 4%nat _ false Hds eq_refl)|]. split; [|by apply Hb]. etrans; [exact He|by vm_compute].
Defined.

(** In a table with object identifiers memtuple_attisnull takes the bits of the
    identifier for those of the nulls. *)
Example attisnull_with_oid :
  memtuple_getattr demo_memtuple demo_binding 3 = Some (ByVal 0, true) ∧
  memtuple_attisnull demo_memtuple demo_binding 3 = Some false.
Proof. by vm_compute. Qed.

(** Two columns the first of which, of six bytes, is followed by padding, and
    two without padding: the flag is set for the second table only. *)
Definition mac_desc : TupleDesc :=
  mkTupleDesc [mkAttribute 829 6 0 (-1) false "p"%char "i"%char; mkAttribute 23 4 0 (-1) true "p"%char "i"%char] 2249 (-1) false.
Definition int_desc : TupleDesc :=
  mkTupleDesc [mkAttribute 23 4 0 (-1) true "p"%char "i"%char; mkAttribute 23 4 0 (-1) true "p"%char "i"%char] 2249 (-1) false.

Example mismatch_flag_inverted :
  let mac := bind (create_memtuple_binding no_binding mac_desc [false; false]) in
  let int := bind (create_memtuple_binding no_binding int_desc [false; false]) in
  (bind_len <$> bindings mac !! 0%nat) = Some 6 ∧ (bind_len_aligned <$> bindings mac !! 0%nat) = Some 8 ∧
  has_null_saves_alignment_mismatch mac = false ∧ has_null_saves_alignment_mismatch int = true.
Proof. by vm_compute. Qed.

(** With more than 32767 bytes of columns that are null the space saved is not
    counted right, and the value of the column after them is stored outside the
    tuple. *)
Definition wide_desc : TupleDesc :=
  mkTupleDesc [mkAttribute 90000 20000 0 (-1) false "p"%char "i"%char; mkAttribute 90000 20000 0 (-1) false "p"%char "i"%char;
               mkAttribute 23 4 0 (-1) true "p"%char "i"%char] 2249 (-1) false.

Example null_saves_overflow :
  memtuple_form_to false demo_flatten demo_palloc (create_memtuple_binding no_binding wide_desc [false; false; false])
    [ByVal 0; ByVal 0; ByVal 7] [true; true; false] None true toast_db = None.
Proof. by vm_compute. Qed.
